(* ===== verification/_CoqProject ===== *)
-Q . S2P
Prelude.v
Mem.v
Spinlock.v
Str.v
Mmu.v
Printf.v
State.v
Kalloc.v
MemTable.v
MemList.v
MemCopy.v
MemSwap.v
Vm.v
PageTable.v
AddressSpace.v
CopyUvm.v
CopyOnWrite.v
Faults.v
Heap.v
Sched.v
SleepWakeup.v
Fsys.v
Ide.v
Bio.v
Cache.v
Log.v
Crash.v
Transaction.v
Inode.v
Alloc.v
FileData.v
Mkfs.v
Console.v
ConsoleLine.v
Kbd.v
Screen.v
Fs.v
Files.v
Pipe.v
File.v
FileWrite.v
Descriptors.v
SwapFile.v
UserMem.v
SharedMemory.v
SharedTable.v
Proc.v
Family.v
Syscall.v
Exec.v
Sysproc.v
Sbrk.v
Sysfile.v
UserProgs.v
Debug.v
Trap.v
TrapEntry.v
Grep.v
Umalloc.v
Shell.v
ShellRun.v
Bootmain.v
Mp.v
Apic.v
Main.v
