(* ===== verification/Prelude.v ===== *)
(** * xv6 with virtual memory: a verification development

    The program under src/src is xv6, a small Unix-like kernel for 32-bit x86,
    extended with swapping, copy-on-write fork, a stack that grows on demand,
    protection of the null page and shared memory segments.  This library is a
    shallow embedding of its C code: a function of the kernel is a function on a
    state in the monad [M] of this file, a structure is a record, an enumeration
    an inductive type, and every definition can be evaluated.  Definitions keep
    the names of the source.

    ** How code is modelled

    [M S A] is [S -> outcome S A] (this file).  An outcome is a return, a call of
    panic, a call of sleep (the process leaves the processor in the state
    shown), an access that C does not define, or a loop cut off by its fuel.
    [wp m s Q] says that [m] run in [s] returns, and returns a value and a state
    that satisfy [Q]: theorems stated with it, and equations [m s = Ret ...],
    are about total correctness.  Unsigned words are integers in [0, 2^32) with
    their wrap-around written out ([u32]), ints are wrapped by [i32]; memory is a
    finite map from addresses to bytes (Mem.v).

    The kernel runs one processor in all files but two: Spinlock.v shows on any
    number of processors that the flag which a lock is in the other files is a
    lock, and SleepWakeup.v that sleep and wakeup work between processors.  In
    the other files code between two calls of sleep runs without interruption,
    and the locks the processor counts in ncli are those set in the state
    (Sched.v).

    Hardware is modelled as far as the code depends on it, after its manuals: the
    page walk with its permissions for user code ([access] of Vm.v), interrupts and iret (TrapEntry.v), the disk
    controller (Ide.v), the screen and the serial port (Screen.v), the keyboard
    controller (Kbd.v), interrupts between processors (Apic.v).  What a device
    answers on its own, such as a clock, is an argument of the definitions.

    ** The parts of the program and the files that model them

    - Memory.  State.v: the kernel state [kst] (proc.h, VirtualMemory.h,
      kalloc.c).  Kalloc.v: the page allocator kalloc.c with its reference
      counts.  MemTable.v: the memory table, the FIFO list and the swap table of a
      process (VirtualMemory.c); MemList.v, MemCopy.v and MemSwap.v hold their
      theorems.  Vm.v: page tables and address spaces (vm.c); the theorems are
      in PageTable.v (walkpgdir, mappages), AddressSpace.v (setupkvm), CopyUvm.v
      (copyuvm), CopyOnWrite.v and Faults.v (PageFault, stackGrow) and Heap.v
      (allocuvm).  The page tables are in the byte memory; [pte] of PageTable.v is
      the entry the processor's walk ends at, and [user_store] of CopyOnWrite.v a
      store in user mode, tried again after PageFault.  The virtual memory code reaches
      the swap files through the class [FileSys] of Vm.v; SwapFile.v gives its
      instance.
    - Processes.  Sched.v: sleep, wakeup, sched, yield and the scheduler; Proc.v:
      the rest of proc.c; Family.v: parents and children, over all interleavings.
      Spinlock.v: spinlock.c.  SleepWakeup.v: sleeplock.c, sleep, wakeup and the
      scheduler on several processors, as a step relation.
    - Start and traps.  Bootmain.v: the boot loader bootmain.c.  Mp.v: mp.c.
      Apic.v: lapic.c, ioapic.c, picirq.c, mycpu and the clock.  Main.v:
      startothers of main.c with entryother.S.  TrapEntry.v: descriptors (mmu.h),
      seginit, tvinit, vectors.pl and trapasm.S.  Debug.v: getcallerpcs, panic and
      procdump, which trap gives to consoleintr.
    - Disk.  Fsys.v: the data types and the state [fsys] of everything below.
      Ide.v: the disk driver ide.c.  Mkfs.v: mkfs.c, which makes the image.
      Bio.v: the buffer cache (bio.c) and the memory disk (memide.c); Cache.v its
      invariant.  Log.v: log.c; Crash.v: recovery after a crash; Transaction.v:
      changing blocks inside a transaction.
    - Files.  Inode.v and Fs.v: fs.c; Alloc.v: the block allocator; FileData.v:
      what the blocks of a file contain; Files.v: readi and writei.  File.v:
      file.c; FileWrite.v and Descriptors.v: filewrite and fileread over all of
      the above.  Pipe.v: pipe.c.  Console.v and ConsoleLine.v: the lines of
      console.c; Screen.v: its output, with uart.c; Kbd.v: kbd.c.
      SwapFile.v: the swap files of fs.c and create and kunlink of sysfile.c.
    - System calls.  UserMem.v: accesses to user memory, page faults included.
      SharedMemory.v and SharedTable.v: SharedMemory.c.  Syscall.v, Sysproc.v,
      Sysfile.v, Exec.v and Trap.v: syscall.c, sysproc.c, sysfile.c, exec.c and
      trap.c.  Sbrk.v: what sbrk does to a process.
    - Libraries and programs.  Str.v: string.c.  Printf.v: printint and cprintf of
      console.c, printf.c and ulib.c.  Umalloc.v: umalloc.c.  Shell.v and
      ShellRun.v: sh.c.  Grep.v: grep.c.  UserProgs.v: wc.c, cat.c, echo.c, ls.c.

    A component calls another one through its definitions: trap calls syscall,
    which calls sys_write, which calls filewrite, writei, bmap, balloc, bread and
    iderw, and a page fault inside a system call calls PageFault.

    ** What the theorems show

    - Kalloc.v: kalloc and kfree implement a pool of pages with reference counts;
      kinit gives it every page; the last reference is never given back.
    - MemList.v, MemCopy.v, MemSwap.v: the linked entries in memory implement a
      FIFO queue of addresses, eviction takes the oldest, and a swap slot is
      found again; the copies for fork; the ways the code breaks its tables.
    - AddressSpace.v, CopyUvm.v, CopyOnWrite.v, Faults.v, Heap.v, Sbrk.v: what a
      page table maps after setupkvm, copyuvm, allocuvm and a page fault; parent
      and child share their frames read-only and do not see each other's stores;
      the stack grows to the address stored to; which bad addresses kill the
      process, and that an absent page of the kernel's part is mapped instead; sbrk
      moves the break twice.
    - Cache.v, Crash.v, Transaction.v: a block has one buffer and one current
      contents, and the cache is a store of blocks to its users; a transaction is on
      disk as a whole or not at all wherever the machine stops; how much three operations may log.
    - Alloc.v, FileData.v, Files.v, FileWrite.v, Descriptors.v: writei and readi
      implement splicing and reading of a list of bytes, with block allocation;
      the result is on disk when filewrite returns and survives a crash; other
      files are untouched; a transaction stays within its log reservation.
    - Ide.v, Mkfs.v: the driver serves its requests in order and as asked; the
      image mkfs makes is a file system with the given files.
    - Pipe.v, ConsoleLine.v, SharedTable.v: pipes are bounded queues, the console
      is a line editor, shared memory is a map of segments to their pages and users.
    - Kbd.v, Screen.v: the characters of the keys pressed under the modifiers; the
      screen as the end of a roll of paper.
    - Spinlock.v, SleepWakeup.v: mutual exclusion and no lost wakeup, as invariants
      of all reachable states.  Family.v: likewise, every parent is alive and
      nobody sleeps in wait with a child to collect.
    - TrapEntry.v: user code enters the kernel only where it may, trap finds the
      right frame, and whatever trap leaves in the registers, trapret restores them
      from the frame.
    - Bootmain.v, Mp.v, Apic.v, Main.v: the kernel is loaded, its processors are
      found and started with stacks of their own, interrupts go where the code
      sends them, and the clock is read between two updates.
    - Fs.v, SwapFile.v, Syscall.v: path walking, swap file names, address checks.
    - Umalloc.v: malloc and free give out blocks that do not overlap, and what is
      freed is joined again.  Shell.v, ShellRun.v: the parser accepts the shell's
      grammar, and each line runs as the meaning of its command says, the calls that
      fail included; only the processes of a pipe hold its ends.
    - Printf.v, Grep.v, UserProgs.v: numbers are printed and read back, formats are
      printed piece by piece, the matcher finds the words of a pattern, and what
      wc, cat, echo and ls print.

    ** Fuel and bounds

    A loop over a linked structure takes as fuel the size of the store it runs
    in, which bounds every chain without repetition; a loop over a range its
    length; a loop to a NUL byte the fuel given to it.  The theorems that a
    function returns show that the fuel is enough.  A user access that faults
    again after PageFault never ends in the source either: its outcome is
    [NoFuel]; so is that of mpinit on an entry of unknown type, which
    is shown for every fuel.  The parser of the shell needs four steps for each
    character; a loop that polls a device needs as many as the device takes.

    ** Not modelled

    The code in assembly that switches modes and stacks (bootasm.S, entry.S,
    swtch.S, initcode.S, usys.S) and main, which calls the initialisations one
    after the other: each of them is modelled on the state it works on, and there
    is no one state for all.  timer.c, which nothing calls.  The TLB, the
    contents of kernel stacks beyond the trap frame, and the messages of cprintf
    in the kernel but those of Debug.v.  The programs init, kill, ln, mkdir, rm
    and zombie, which make a system call for each argument, and the test
    programs, which only exercise the system. *)

From stdpp Require Import base gmap list strings.
From Stdlib Require Import ZArith Lia.

#[global] Open Scope Z_scope.

(** Updates of finite maps are reasoned about with their lemmas, never unfolded. *)
#[global] Arguments gmap_partial_alter : simpl never.
#[global] Arguments gmap_lookup : simpl never.

(** * Outcomes of kernel code

    A C function of the kernel is a function from a state to an outcome.  [Ret]
    is a normal return.  [Panic] is a call of [panic], which never returns.
    [Sleep] is a call of [sleep]: the process gives up the processor in the
    state shown, on the channel shown.  [Crash] is an access the C semantics
    does not define (a null pointer, an index outside an array) or that traps
    inside the kernel.  [NoFuel] is a loop cut off by its bound. *)

Inductive outcome (S A : Type) : Type :=
| Ret (a : A) (s : S)
| Panic (msg : string)
| Sleep (chan : Z) (s : S)
| Crash (why : string)
| NoFuel.
Arguments Ret {S A} _ _.
Arguments Panic {S A} _.
Arguments Sleep {S A} _ _.
Arguments Crash {S A} _.
Arguments NoFuel {S A}.

Definition M (S A : Type) : Type := S -> outcome S A.

Definition ret {S A} (a : A) : M S A := fun s => Ret a s.

Definition bind {S A B} (m : M S A) (k : A -> M S B) : M S B := fun s =>
  match m s with
  | Ret a s' => k a s'
  | Panic msg => Panic msg
  | Sleep c s' => Sleep c s'
  | Crash w => Crash w
  | NoFuel => NoFuel
  end.

Definition panic {S A} (msg : string) : M S A := fun _ => Panic msg.
Definition crash {S A} (why : string) : M S A := fun _ => Crash why.
Definition no_fuel {S A} : M S A := fun _ => NoFuel.
Definition gets {S A} (f : S -> A) : M S A := fun s => Ret (f s) s.
Definition modify {S} (f : S -> S) : M S unit := fun s => Ret tt (f s).

Declare Scope kernel_scope.
Delimit Scope kernel_scope with kernel.
Notation "x <- e ;; k" := (bind e (fun x => k))
  (at level 100, e at next level, right associativity) : kernel_scope.
Notation "'let*' p := e ;; k" := (bind e (fun p => k))
  (at level 100, p strict pattern, e at next level, right associativity) : kernel_scope.
Notation "e ;;; k" := (bind e (fun _ => k))
  (at level 100, right associativity) : kernel_scope.
#[global] Open Scope kernel_scope.

(** [if] without [else], and the two loop shapes of the source: a [for] over a
    list of indices, and a [for] that may leave early with a value. *)
Definition when {S} (b : bool) (m : M S unit) : M S unit :=
  if b then m else ret tt.

Fixpoint for_each {S A} (l : list A) (body : A -> M S unit) : M S unit :=
  match l with
  | [] => ret tt
  | x :: l => body x ;;; for_each l body
  end.

Fixpoint for_find {S A R} (l : list A) (body : A -> M S (option R)) : M S (option R) :=
  match l with
  | [] => ret None
  | x :: l =>
      r <- body x ;;
      match r with
      | Some v => ret (Some v)
      | None => for_find l body
      end
  end.

(** A loop with a bound in binary: at most [n] turns, each giving the next loop
    state [inl] or a result [inr]. *)
Fixpoint iter_pos {S A B} (n : positive) (body : A -> M S (A + B)) (a : A) : M S (A + B) :=
  match n with
  | xH => body a
  | xO n =>
      r <- iter_pos n body a ;;
      match r with inl a => iter_pos n body a | inr b => ret (inr b) end
  | xI n =>
      r <- body a ;;
      match r with
      | inl a =>
          r <- iter_pos n body a ;;
          match r with inl a => iter_pos n body a | inr b => ret (inr b) end
      | inr b => ret (inr b)
      end
  end.

(** The indices [lo], [lo+1], ... below [lo+n]. *)
Fixpoint range (lo : Z) (n : nat) : list Z :=
  match n with
  | O => []
  | S n => lo :: range (lo + 1) n
  end.

Lemma elem_of_range n : forall lo x, x ∈ range lo n <-> lo <= x < lo + Z.of_nat n.
Proof.
  induction n as [|n IH]; intros lo x; cbn [range].
  - rewrite elem_of_nil. lia.
  - rewrite elem_of_cons, IH. lia.
Qed.

Lemma length_range n : forall lo, length (range lo n) = n.
Proof. induction n; intros; cbn; auto. Qed.

Lemma NoDup_range n : forall lo, NoDup (range lo n).
Proof.
  induction n as [|n IH]; intros lo; cbn; constructor; [|done].
  rewrite elem_of_range. lia.
Qed.

(** * Total correctness

    [wp m s Q]: started in [s], [m] returns, with a value and a state that
    satisfy [Q].  It does not hold of a run that panics, sleeps, crashes or
    runs out of fuel. *)
Definition wp {S A} (m : M S A) (s : S) (Q : A -> S -> Prop) : Prop :=
  match m s with
  | Ret a s' => Q a s'
  | _ => False
  end.

Lemma wp_ret {S A} (a : A) (s : S) (Q : A -> S -> Prop) : Q a s -> wp (ret a) s Q.
Proof. done. Qed.

Lemma wp_gets {S A} (f : S -> A) (s : S) (Q : A -> S -> Prop) : Q (f s) s -> wp (gets f) s Q.
Proof. done. Qed.

Lemma wp_modify {S} (f : S -> S) (s : S) (Q : unit -> S -> Prop) :
  Q tt (f s) -> wp (modify f) s Q.
Proof. done. Qed.

Lemma wp_bind {S A B} (m : M S A) (k : A -> M S B) (s : S) (Q : B -> S -> Prop) :
  wp m s (fun a s' => wp (k a) s' Q) -> wp (bind m k) s Q.
Proof. unfold wp, bind. by destruct (m s). Qed.

Lemma wp_mono {S A} (m : M S A) (s : S) (P Q : A -> S -> Prop) :
  wp m s P -> (forall a s', P a s' -> Q a s') -> wp m s Q.
Proof. unfold wp. destruct (m s); naive_solver. Qed.

Lemma wp_eq {S A} (m : M S A) (s : S) (a : A) (s' : S) (Q : A -> S -> Prop) :
  m s = Ret a s' -> Q a s' -> wp m s Q.
Proof. unfold wp. by intros ->. Qed.

Lemma wp_elim {S A} (m : M S A) (s : S) (Q : A -> S -> Prop) :
  wp m s Q -> exists a s', m s = Ret a s' /\ Q a s'.
Proof. unfold wp. destruct (m s); naive_solver. Qed.

Lemma wp_run {S A} (m : M S A) (s : S) (a : A) (s' : S) :
  wp m s (fun b t => b = a /\ t = s') -> m s = Ret a s'.
Proof. unfold wp. destruct (m s); try done. by intros [-> ->]. Qed.

Lemma wp_bind_inv {S A B} (m : M S A) (k : A -> M S B) (s : S) (Q : B -> S -> Prop) :
  wp (bind m k) s Q -> wp m s (fun a s' => wp (k a) s' Q).
Proof. unfold wp, bind. by destruct (m s). Qed.

Lemma bind_ret_eq {S A B} (m : M S A) (k : A -> M S B) s a s' :
  m s = Ret a s' -> bind m k s = k a s'.
Proof. unfold bind. by intros ->. Qed.

Lemma bind_assoc {S A B C} (m : M S A) (k : A -> M S B) (h : B -> M S C) s :
  bind (bind m k) h s = bind m (fun a => bind (k a) h) s.
Proof. unfold bind. by destruct (m s). Qed.

Lemma bind_wp_panic {S A B} (m : M S A) (k : A -> M S B) s Q msg :
  wp m s Q -> (forall a s', Q a s' -> k a s' = Panic msg) -> bind m k s = Panic msg.
Proof. unfold wp, bind. destruct (m s); try done. eauto. Qed.

Lemma for_each_app {S A} (l l' : list A) (body : A -> M S unit) s :
  for_each (l ++ l') body s = (for_each l body ;;; for_each l' body) s.
Proof.
  revert s. induction l as [|x l IH]; intros s; [done|]. cbn [app for_each]. rewrite bind_assoc.
  unfold bind at 1 2. destruct (body x s); done.
Qed.

(** A loop invariant rule for [for_each]: [I dn s] after the elements [dn]. *)
Lemma wp_for_each {S A} (l : list A) (body : A -> M S unit) (I : list A -> S -> Prop) s :
  I [] s ->
  (forall dn x todo s, l = dn ++ x :: todo -> I dn s ->
     wp (body x) s (fun _ s' => I (dn ++ [x]) s')) ->
  wp (for_each l body) s (fun _ s' => I l s').
Proof.
  intros H0 Hstep.
  assert (forall todo dn s, l = dn ++ todo -> I dn s ->
            wp (for_each todo body) s (fun _ s' => I l s')) as H.
  { induction todo as [|x todo IH]; intros dn s1 Hl HI; simpl.
    - rewrite app_nil_r in Hl. subst dn. by apply wp_ret.
    - apply wp_bind. eapply wp_mono; [by eapply Hstep|].
      intros ? s2 HI2. apply (IH (dn ++ [x])); [|done].
      by rewrite <-app_assoc. }
  by apply (H l []).
Qed.

(** A search whose body only reads the state is a search of the list. *)
Lemma for_find_pure {S A R} (l : list A) (body : A -> M S (option R)) (f : A -> option R) s :
  (forall x, x ∈ l -> body x s = Ret (f x) s) ->
  for_find l body s = Ret (head (omap f l)) s.
Proof.
  induction l as [|x l IH]; intros Hb; [done|].
  cbn [for_find omap]. rewrite (bind_ret_eq _ _ _ _ _ (Hb x ltac:(constructor))).
  cbn. destruct (f x); [done|]. apply IH. intros. apply Hb. by constructor.
Qed.

(** * Symbolic execution

    [step] unfolds one monadic construct of the goal. *)
Ltac wp_step :=
  first
    [ progress cbn beta iota
    | lazymatch goal with
      | |- wp (bind _ _) _ _ => apply wp_bind
      | |- wp (ret _) _ _ => apply wp_ret
      | |- wp (gets _) _ _ => apply wp_gets
      | |- wp (modify _) _ _ => apply wp_modify
      end ].
Ltac wp_steps := repeat wp_step.

(** [W] is a [wp] of the first statements of the goal, as a block of their own. *)
Ltac wp_follow W :=
  repeat (apply wp_bind; apply wp_bind_inv in W; eapply wp_mono; [exact W|]; clear W; cbn beta; intros ? ? W).
Ltac wp_prefix W := wp_follow W; apply wp_bind; eapply wp_mono; [exact W|]; clear W; cbn beta.

(** [lia] with division and modulo by constants. *)
Ltac dlia := Z.div_mod_to_equations; lia.

(** * Functional update of a record field

    A record type gives its eta-expansion once, as an instance of [Eta]; then
    [r <| f := v |>] and [r <| f ::= g |>] update the field [f]. *)
Class Eta (R : Type) := eta_of : R -> R.
Class Field {R T : Type} (proj : R -> T) := { upd : (T -> T) -> R -> R }.
Arguments upd {R T} proj {_} _ _.

Ltac derive_field proj :=
  lazymatch type of proj with
  | ?R -> ?T =>
      refine (@Build_Field R T proj _);
      let g := fresh "g" in let r := fresh "r" in intros g r;
      let e := eval hnf in (@eta_of R _ r) in
      let p := eval pattern (proj r) in e in
      lazymatch p with ?h _ => let t := eval cbv beta in (h (g (proj r))) in exact t end
  end.
#[global] Hint Extern 1 (Field ?proj) => derive_field proj : typeclass_instances.

Notation "r <| f := v |>" := (upd f (fun _ => v) r)
  (at level 1, f at level 1, left associativity, format "r  <| f  :=  v |>") : kernel_scope.
Notation "r <| f ::= g |>" := (upd f g r)
  (at level 1, f at level 1, left associativity, format "r  <| f  ::=  g |>") : kernel_scope.

