(* ===== verification/Mem.v ===== *)
(** Byte-addressed memory of a 32-bit little-endian machine.

    The physical memory of the machine is a finite map from addresses to bytes;
    an address outside the map reads as zero.  Words are read and written
    through their four bytes, so that the byte copies of string.c and the word
    accesses to page tables see the same memory. *)

From stdpp Require Import base gmap list strings.
From Stdlib Require Import ZArith Lia.
From S2P Require Import Prelude.

Abbreviation mem := (gmap Z Z).

Definition load8 (m : mem) (a : Z) : Z := default 0 (m !! a) mod 256.

Definition store8 (m : mem) (a v : Z) : mem := <[a := v mod 256]> m.

Definition load32 (m : mem) (a : Z) : Z :=
  load8 m a + 256 * load8 m (a + 1) + 65536 * load8 m (a + 2)
  + 16777216 * load8 m (a + 3).

Definition store32 (m : mem) (a v : Z) : mem :=
  store8 (store8 (store8 (store8 m a v) (a + 1) (v / 256)) (a + 2) (v / 65536))
         (a + 3) (v / 16777216).

Fixpoint load_bytes (m : mem) (a : Z) (n : nat) : list Z :=
  match n with
  | O => []
  | S n => load8 m a :: load_bytes m (a + 1) n
  end.

Fixpoint store_bytes (m : mem) (a : Z) (l : list Z) : mem :=
  match l with
  | [] => m
  | x :: l => store_bytes (store8 m a x) (a + 1) l
  end.

Create HintDb memdb.

Lemma load8_range m a : 0 <= load8 m a < 256.
Proof. unfold load8. apply Z.mod_pos_bound. lia. Qed.

Lemma load8_mod m a : load8 m a mod 256 = load8 m a.
Proof. apply Z.mod_small, load8_range. Qed.

Lemma load8_store8 m a b v :
  load8 (store8 m a v) b = if decide (a = b) then v mod 256 else load8 m b.
Proof.
  unfold load8, store8. rewrite lookup_insert. case_decide; [|done].
  simpl. by rewrite Z.mod_mod.
Qed.

Lemma load8_store8_eq m a v : load8 (store8 m a v) a = v mod 256.
Proof. rewrite load8_store8. by case_decide. Qed.

Lemma load8_store8_ne m a b v : a <> b -> load8 (store8 m a v) b = load8 m b.
Proof. intros. rewrite load8_store8. by case_decide. Qed.

Lemma store8_store8 m a u v : store8 (store8 m a u) a v = store8 m a v.
Proof. apply insert_insert_eq. Qed.

Lemma load32_range m a : 0 <= load32 m a < 2 ^ 32.
Proof.
  unfold load32.
  pose proof (load8_range m a). pose proof (load8_range m (a + 1)).
  pose proof (load8_range m (a + 2)). pose proof (load8_range m (a + 3)). lia.
Qed.

(** Splitting a word into its bytes and back. *)
Lemma word_bytes v : 0 <= v < 2 ^ 32 ->
  v mod 256 + 256 * (v / 256 mod 256) + 65536 * (v / 65536 mod 256)
  + 16777216 * (v / 16777216 mod 256) = v.
Proof.
  intros.
  change 65536 with (256 * 256). change 16777216 with (256 * 256 * 256).
  rewrite <-!Z.div_div by lia. dlia.
Qed.

Lemma load32_store32_eq m a v : 0 <= v < 2 ^ 32 -> load32 (store32 m a v) a = v.
Proof.
  intros Hv. unfold load32, store32. rewrite !load8_store8.
  repeat (case_decide; try lia). by apply word_bytes.
Qed.

Lemma load8_store32_ne m a b v : b < a \/ a + 4 <= b -> load8 (store32 m a v) b = load8 m b.
Proof. intros. unfold store32. rewrite !load8_store8. by repeat (case_decide; [lia|]). Qed.

(** Two memories agree at a word when they agree at its bytes. *)
Lemma load32_ext m m' a :
  (forall b, a <= b < a + 4 -> load8 m b = load8 m' b) -> load32 m a = load32 m' a.
Proof. intros H. unfold load32. rewrite !H by lia. done. Qed.

Lemma load32_store32_ne m a b v :
  b + 4 <= a \/ a + 4 <= b -> load32 (store32 m a v) b = load32 m b.
Proof. intros. apply load32_ext. intros. apply load8_store32_ne. lia. Qed.

Lemma load32_zero m a : (forall b, a <= b < a + 4 -> load8 m b = 0) -> load32 m a = 0.
Proof. intros H. unfold load32. rewrite !H by lia. done. Qed.

Lemma length_load_bytes m a n : length (load_bytes m a n) = n.
Proof. revert a. induction n; intros; simpl; auto. Qed.

Lemma load_bytes_lookup m a n i :
  (i < n)%nat -> load_bytes m a n !! i = Some (load8 m (a + Z.of_nat i)).
Proof.
  revert a i. induction n as [|n IH]; intros a i Hi; [lia|].
  destruct i as [|i]; simpl.
  - by rewrite Z.add_0_r.
  - rewrite IH by lia. do 2 f_equal. lia.
Qed.

Lemma load_bytes_ext m m' a a' n :
  (forall i, 0 <= i < Z.of_nat n -> load8 m (a + i) = load8 m' (a' + i)) ->
  load_bytes m a n = load_bytes m' a' n.
Proof.
  revert a a'. induction n as [|n IH]; intros a a' H; simpl; [done|]. f_equal.
  - specialize (H 0). rewrite !Z.add_0_r in H. apply H. lia.
  - apply IH. intros i Hi. specialize (H (i + 1)).
    replace (a + 1 + i) with (a + (i + 1)) by lia.
    replace (a' + 1 + i) with (a' + (i + 1)) by lia. apply H. lia.
Qed.

Lemma load8_store_bytes m a l b :
  load8 (store_bytes m a l) b =
  match (if (a <=? b) then l !! Z.to_nat (b - a) else None) with
  | Some x => x mod 256
  | None => load8 m b
  end.
Proof.
  revert m a. induction l as [|x l IH]; intros m a; simpl.
  - by destruct (a <=? b).
  - rewrite IH, load8_store8.
    destruct (Z.leb_spec a b), (Z.leb_spec (a + 1) b); try lia; try done.
    + replace (Z.to_nat (b - a)) with (S (Z.to_nat (b - (a + 1)))) by lia. simpl.
      destruct (l !! _); [done|]. by case_decide; [lia|].
    + replace (b - a) with 0 by lia. simpl. by case_decide; [|lia].
    + by case_decide; [lia|].
Qed.

Lemma load8_store_bytes_out m a l b :
  b < a \/ a + Z.of_nat (length l) <= b -> load8 (store_bytes m a l) b = load8 m b.
Proof.
  intros H. rewrite load8_store_bytes. destruct (Z.leb_spec a b); [|done].
  by rewrite lookup_ge_None_2 by lia.
Qed.

(** Bytes that are bytes: what [load_bytes] always produces. *)
Definition is_bytes (l : list Z) : Prop := Forall (fun x => 0 <= x < 256) l.

Lemma load_bytes_is_bytes m a n : is_bytes (load_bytes m a n).
Proof. revert a. induction n; intros; constructor; [apply load8_range|apply IHn]. Qed.

Lemma load_store_bytes m a l :
  is_bytes l -> load_bytes (store_bytes m a l) a (length l) = l.
Proof.
  intros Hl. apply list_eq. intros i.
  destruct (decide (i < length l)%nat) as [Hi|Hi].
  - rewrite load_bytes_lookup, load8_store_bytes by done.
    destruct (Z.leb_spec a (a + Z.of_nat i)); [|lia].
    replace (Z.to_nat (a + Z.of_nat i - a)) with i by lia.
    destruct (lookup_lt_is_Some_2 l i Hi) as [x Hx]. rewrite Hx. f_equal.
    eapply Forall_lookup_1 in Hl; [|done]. by apply Z.mod_small.
  - rewrite !lookup_ge_None_2; rewrite ?length_load_bytes; done || lia.
Qed.

#[export] Hint Resolve load8_range load32_range load_bytes_is_bytes : memdb.

(** ** Half words *)
Definition load16 (m : mem) (a : Z) : Z := load8 m a + 256 * load8 m (a + 1).
Definition store16 (m : mem) (a v : Z) : mem := store8 (store8 m a v) (a + 1) (v / 256).

Lemma load8_store16_ne m a b v : b < a \/ a + 2 <= b -> load8 (store16 m a v) b = load8 m b.
Proof. intros. unfold store16. rewrite !load8_store8. by repeat (case_decide; [lia|]). Qed.

Lemma load32_store16_ne m a b v : b + 4 <= a \/ a + 2 <= b -> load32 (store16 m a v) b = load32 m b.
Proof. intros H. apply load32_ext. intros c Hc. apply load8_store16_ne. lia. Qed.

Lemma load16_load32 m a : load16 m a = load32 m a mod 65536.
Proof.
  unfold load16, load32. pose proof (load8_range m a). pose proof (load8_range m (a + 1)). pose proof (load8_range m (a + 2)). pose proof (load8_range m (a + 3)).
  dlia.
Qed.

(** Two runs of bytes are the same when their words are. *)
Lemma same_words m a b n : load_bytes m a (4 * n) = load_bytes m b (4 * n) <->
  forall i, (i < n)%nat -> load32 m (a + 4 * Z.of_nat i) = load32 m (b + 4 * Z.of_nat i).
Proof.
  split.
  - intros E i Hi. assert (forall j, 0 <= j < 4 -> load8 m (a + 4 * Z.of_nat i + j) = load8 m (b + 4 * Z.of_nat i + j)) as E8.
    { intros j Hj. apply (f_equal (fun l => l !! Z.to_nat (4 * Z.of_nat i + j))) in E. rewrite !load_bytes_lookup in E by lia.
      injection E as E. rewrite Z2Nat.id in E by lia. by rewrite !Z.add_assoc in E. }
    pose proof (E8 0 ltac:(lia)) as E0. rewrite !Z.add_0_r in E0. unfold load32. by rewrite E0, !E8 by lia.
  - intros E. apply list_eq. intros j. destruct (decide (j < 4 * n)%nat) as [Hj|Hj];
      [|by rewrite !lookup_ge_None_2 by (rewrite length_load_bytes; lia)].
    rewrite !load_bytes_lookup by lia. f_equal. specialize (E (j / 4)%nat ltac:(apply Nat.Div0.div_lt_upper_bound; lia)).
    pose proof (Nat.div_mod j 4 ltac:(lia)) as Ej. pose proof (Nat.mod_upper_bound j 4 ltac:(lia)) as Hm. rewrite Nat2Z.inj_div in E. unfold load32 in E.
    set (q := Z.of_nat j / Z.of_nat 4) in *. set (x := a + 4 * q) in *. set (y := b + 4 * q) in *.
    pose proof (load8_range m x). pose proof (load8_range m (x + 1)). pose proof (load8_range m (x + 2)). pose proof (load8_range m (x + 3)).
    pose proof (load8_range m y). pose proof (load8_range m (y + 1)). pose proof (load8_range m (y + 2)). pose proof (load8_range m (y + 3)).
    assert (Z.of_nat j = 4 * q + 0 \/ Z.of_nat j = 4 * q + 1 \/ Z.of_nat j = 4 * q + 2 \/ Z.of_nat j = 4 * q + 3) as Hq by (unfold q; rewrite <- Nat2Z.inj_div; lia).
    destruct Hq as [->|[->|[->| ->]]]; rewrite !Z.add_assoc, ?Z.add_0_r; fold x y; lia.
Qed.
