(* ===== verification/Spinlock.v ===== *)
(** Spin locks on several processors, src/src/spinlock.c.

    Each processor goes through acquire and release one access to shared memory
    at a time, in any interleaving; between them it may nest other pushcli and
    popcli, as it does when it takes other locks.  The rest of the development
    runs on one processor and uses a lock as a flag; here the flag is shown to
    be one: at most one processor is between acquire and release, and it cannot
    be interrupted there. *)

From stdpp Require Import base gmap list strings.
From Stdlib Require Import ZArith Lia.
From S2P Require Import Prelude.

Record spinlock := { locked : Z; cpu : option nat }.

(** What spinlock.c uses of a struct cpu, and the interrupt flag of eflags. *)
Record cpustate := { ncli : Z; intena : bool; fl_if : bool }.

#[global] Instance eta_spinlock : Eta spinlock := fun l => {| locked := locked l; cpu := cpu l |}.
#[global] Instance eta_cpustate : Eta cpustate := fun c =>
  {| ncli := ncli c; intena := intena c; fl_if := fl_if c |}.

Definition initlock : spinlock := {| locked := 0; cpu := None |}.

Definition pushcli (c : cpustate) : cpustate :=
  let eflags := fl_if c in
  let c := c <| fl_if := false |> in
  let c := if ncli c =? 0 then c <| intena := eflags |> else c in
  c <| ncli ::= fun n => n + 1 |>.

(** The state after popcli, or the message of its panic. *)
Definition popcli (c : cpustate) : cpustate + string :=
  if fl_if c then inr "popcli - interruptible"
  else
    let c := c <| ncli ::= fun n => n - 1 |> in
    if ncli c <? 0 then inr "popcli"
    else inl (if (ncli c =? 0) && intena c then c <| fl_if := true |> else c).

Definition holding (lk : spinlock) (me : nat) : bool :=
  negb (locked lk =? 0) && bool_decide (cpu lk = Some me).

(** ** Processors as processes

    Where a processor is in its use of the lock: outside; in acquire before
    either read of holding, before the xchg, before lk->cpu is set; between
    acquire and release; in release before either read of holding, before
    lk->cpu is cleared, before lk->locked is cleared, before popcli. *)
Inductive place :=
| Outside | AcqLocked | AcqOwner | AcqXchg | AcqCpu | Inside
| RelLocked | RelOwner | RelCpu | RelFree | RelPopcli.

#[global] Instance place_eq_dec : EqDecision place.
Proof. solve_decision. Defined.

(** [others] counts the calls of pushcli, for other locks, still to be undone. *)
Record processor := { pc : place; cs : cpustate; others : nat }.

#[global] Instance eta_processor : Eta processor := fun p =>
  {| pc := pc p; cs := cs p; others := others p |}.

Record machine := { lock : spinlock; procs : nat -> processor; panicked : option string }.

Definition set_proc (m : machine) (i : nat) (p : processor) : machine :=
  {| lock := lock m; procs := fun j => if decide (j = i) then p else procs m j; panicked := panicked m |}.
Definition set_lock (m : machine) (l : spinlock) : machine :=
  {| lock := l; procs := procs m; panicked := panicked m |}.
Definition stop (m : machine) (msg : string) : machine :=
  {| lock := lock m; procs := procs m; panicked := Some msg |}.

(** One step of acquire or release on processor [i]. *)
Definition lock_step (m : machine) (i : nat) : machine :=
  let p := procs m i in
  let goto l := set_proc m i (p <| pc := l |>) in
  match pc p with
  | Outside => set_proc m i (p <| pc := AcqLocked |> <| cs ::= pushcli |>)
  | AcqLocked => if locked (lock m) =? 0 then goto AcqXchg else goto AcqOwner
  | AcqOwner => if bool_decide (cpu (lock m) = Some i) then stop m "acquire" else goto AcqXchg
  | AcqXchg =>
      set_lock (if locked (lock m) =? 0 then goto AcqCpu else m) ((lock m) <| locked := 1 |>)
  | AcqCpu => set_lock (goto Inside) ((lock m) <| cpu := Some i |>)
  | Inside => goto RelLocked
  | RelLocked => if locked (lock m) =? 0 then stop m "release" else goto RelOwner
  | RelOwner => if bool_decide (cpu (lock m) = Some i) then goto RelCpu else stop m "release"
  | RelCpu => set_lock (goto RelFree) ((lock m) <| cpu := None |>)
  | RelFree => set_lock (goto RelPopcli) ((lock m) <| locked := 0 |>)
  | RelPopcli =>
      match popcli (cs p) with
      | inl c => set_proc m i (p <| pc := Outside |> <| cs := c |>)
      | inr msg => stop m msg
      end
  end.

Inductive step : machine -> machine -> Prop :=
| step_lock m i : panicked m = None -> step m (lock_step m i)
| step_push m i : panicked m = None ->
    pc (procs m i) = Outside \/ pc (procs m i) = Inside ->
    step m (set_proc m i ((procs m i) <| cs ::= pushcli |> <| others ::= S |>))
| step_pop m i k : panicked m = None ->
    pc (procs m i) = Outside \/ pc (procs m i) = Inside -> others (procs m i) = S k ->
    step m (match popcli (cs (procs m i)) with
            | inl c => set_proc m i ((procs m i) <| cs := c |> <| others := k |>)
            | inr msg => stop m msg
            end).

(** At the start the lock is free and every processor outside; interrupts may be
    on or off. *)
Definition start (ints : nat -> bool) : machine :=
  {| lock := initlock; panicked := None;
     procs := fun i => {| pc := Outside; others := 0; cs := {| ncli := 0; intena := false; fl_if := ints i |} |} |}.

(** ** Invariant *)

(** The processor has the lock. *)
Definition owns (l : place) : bool :=
  match l with AcqCpu | Inside | RelLocked | RelOwner | RelCpu | RelFree => true | _ => false end.
(** ... and lk->cpu says so. *)
Definition named (l : place) : bool :=
  match l with Inside | RelLocked | RelOwner | RelCpu => true | _ => false end.

(** The calls of pushcli of a processor that have not been undone. *)
Definition depth (p : processor) : Z :=
  Z.of_nat (others p) + if decide (pc p = Outside) then 0 else 1.

(** After [n] calls of pushcli that have not been undone, from a state in which
    the interrupt flag was [b]. *)
Definition cli_at (b : bool) (n : Z) (c : cpustate) : Prop :=
  ncli c = n /\ if decide (n = 0) then fl_if c = b else fl_if c = false /\ intena c = b.

Record inv (ints : nat -> bool) (m : machine) : Prop := {
  inv_ok : panicked m = None;
  inv_owner : exists o, locked (lock m) = (match o with Some _ => 1 | None => 0 end) /\
    forall i, owns (pc (procs m i)) = true <-> o = Some i;
  inv_cpu : forall i, cpu (lock m) = Some i <-> named (pc (procs m i)) = true;
  inv_cli : forall i, cli_at (ints i) (depth (procs m i)) (cs (procs m i))
}.

Lemma cli_at_eq b n n' c : cli_at b n c -> n = n' -> cli_at b n' c.
Proof. by intros H <-. Qed.

Lemma pushcli_ok b n c : 0 <= n -> cli_at b n c -> cli_at b (n + 1) (pushcli c).
Proof.
  intros Hn [Ec Hc]. destruct c as [n' ie fl]. cbn in *. subst n'. unfold cli_at, pushcli. cbn.
  rewrite (decide_False (P := n + 1 = 0)) by lia.
  destruct (Z.eqb_spec n 0).
  - rewrite decide_True in Hc by done. by subst.
  - rewrite decide_False in Hc by done. by destruct Hc.
Qed.

Lemma popcli_ok b n c : 0 < n -> cli_at b n c -> exists c', popcli c = inl c' /\ cli_at b (n - 1) c'.
Proof.
  intros Hn [Ec Hc]. rewrite decide_False in Hc by lia. destruct c as [n' ie fl]. cbn in *.
  destruct Hc as [-> ->]. subst n'. unfold popcli. cbn. destruct (Z.ltb_spec (n - 1) 0); [lia|].
  eexists. split; [done|]. unfold cli_at. case_decide as E.
  - rewrite E. by destruct b.
  - destruct (Z.eqb_spec (n - 1) 0); [lia|]. done.
Qed.

Lemma depth_nonneg p : 0 <= depth p.
Proof. unfold depth. case_decide; lia. Qed.

(** Processor [i] moves; its part of the invariant is checked alone. *)
Lemma inv_update ints m i p lk :
  inv ints m -> cli_at (ints i) (depth p) (cs p) ->
  owns (pc p) = owns (pc (procs m i)) -> locked lk = locked (lock m) ->
  named (pc p) = named (pc (procs m i)) -> cpu lk = cpu (lock m) ->
  inv ints (set_lock (set_proc m i p) lk).
Proof.
  intros [H1 (o & Ho & Hown) H3 H4] Hc E1 E2 E3 E4. constructor; cbn; try done.
  - exists o. rewrite E2. split; [done|]. intros j. case_decide as Ej; [subst j; rewrite E1|]; apply Hown.
  - intros j. rewrite E4. case_decide as Ej; [subst j; rewrite E3|]; apply H3.
  - intros j. case_decide as Ej; [by subst j|apply H4].
Qed.

Lemma inv_goto ints m i l : inv ints m -> pc (procs m i) <> Outside -> l <> Outside ->
  owns l = owns (pc (procs m i)) -> named l = named (pc (procs m i)) ->
  inv ints (set_proc m i ((procs m i) <| pc := l |>)).
Proof.
  intros I Hp Hl E1 E2. apply (inv_update ints m i _ (lock m) I); try done. cbn.
  pose proof (inv_cli _ _ I i) as Hc. unfold depth in *. cbn. rewrite decide_False in Hc by done. by rewrite decide_False by done.
Qed.

(** Processor [i], which has the lock or takes it, changes lk->cpu or lk->locked. *)
Lemma inv_take ints m i : inv ints m -> pc (procs m i) = AcqXchg -> locked (lock m) = 0 ->
  inv ints (set_lock (set_proc m i ((procs m i) <| pc := AcqCpu |>)) ((lock m) <| locked := 1 |>)).
Proof.
  intros [H1 (o & Ho & Hown) H3 H4] Hpc H0. destruct o as [o|]; [lia|]. constructor; cbn; try done.
  - exists (Some i). split; [done|]. intros j. case_decide as Ej; [by subst j|]. rewrite Hown. split; congruence.
  - intros j. rewrite H3. case_decide as Ej; [subst j; by rewrite Hpc|done].
  - intros j. specialize (H4 j). case_decide as Ej; [subst j|done]. unfold depth in *. by rewrite Hpc in H4.
Qed.

Lemma inv_name ints m i : inv ints m -> pc (procs m i) = AcqCpu ->
  inv ints (set_lock (set_proc m i ((procs m i) <| pc := Inside |>)) ((lock m) <| cpu := Some i |>)).
Proof.
  intros [H1 (o & Ho & Hown) H3 H4] Hpc. constructor; cbn; try done.
  - exists o. split; [done|]. intros j. rewrite <- (Hown j). case_decide as Ej; [subst j; by rewrite Hpc|done].
  - intros j. case_decide as Ej; [by subst j|]. split; [congruence|]. intros Hj. exfalso. apply Ej.
    assert (owns (pc (procs m j)) = true) as Hoj by (destruct (pc (procs m j)); done).
    assert (owns (pc (procs m i)) = true) as Hoi by by rewrite Hpc.
    apply Hown in Hoj, Hoi. congruence.
  - intros j. specialize (H4 j). case_decide as Ej; [subst j|done]. unfold depth in *. by rewrite Hpc in H4.
Qed.

Lemma inv_unname ints m i : inv ints m -> pc (procs m i) = RelCpu ->
  inv ints (set_lock (set_proc m i ((procs m i) <| pc := RelFree |>)) ((lock m) <| cpu := None |>)).
Proof.
  intros [H1 (o & Ho & Hown) H3 H4] Hpc. constructor; cbn; try done.
  - exists o. split; [done|]. intros j. rewrite <- (Hown j). case_decide as Ej; [subst j; by rewrite Hpc|done].
  - intros j. split; [done|]. case_decide as Ej; [by subst j|]. intros Hj. exfalso. apply Ej.
    assert (cpu (lock m) = Some i) as Hi by (apply H3; by rewrite Hpc). apply H3 in Hj. congruence.
  - intros j. specialize (H4 j). case_decide as Ej; [subst j|done]. unfold depth in *. by rewrite Hpc in H4.
Qed.

Lemma inv_free ints m i : inv ints m -> pc (procs m i) = RelFree ->
  inv ints (set_lock (set_proc m i ((procs m i) <| pc := RelPopcli |>)) ((lock m) <| locked := 0 |>)).
Proof.
  intros [H1 (o & Ho & Hown) H3 H4] Hpc. constructor; cbn; try done.
  - exists None. split; [done|]. intros j. split; [|done]. case_decide as Ej; [by subst j|]. intros Hj.
    assert (o = Some i) as Hi by (apply Hown; by rewrite Hpc). apply Hown in Hj. congruence.
  - intros j. rewrite H3. case_decide as Ej; [subst j; by rewrite Hpc|done].
  - intros j. specialize (H4 j). case_decide as Ej; [subst j|done]. unfold depth in *. by rewrite Hpc in H4.
Qed.

(** A processor that has the lock finds it locked. *)
Lemma inv_locked ints m i : inv ints m -> owns (pc (procs m i)) = true -> locked (lock m) = 1.
Proof. intros I Hi. destruct (inv_owner _ _ I) as (o & Ho & Hown). apply Hown in Hi as ->. done. Qed.

Lemma lock_step_inv ints m i : inv ints m -> inv ints (lock_step m i).
Proof.
  intros I. pose proof (inv_cli _ _ I i) as Hc. pose proof (inv_locked _ _ i I) as Hl.
  pose proof (inv_cpu _ _ I i) as Hn. unfold lock_step.
  destruct (pc (procs m i)) eqn:Hpc; cbn [owns named] in Hl, Hn.
  - apply (inv_update ints m i _ (lock m) I); cbn; rewrite ?Hpc; try done.
    unfold depth in *. rewrite Hpc in Hc. cbn in *. rewrite Z.add_0_r in Hc. apply pushcli_ok; [lia|done].
  - case_match; apply inv_goto; rewrite ?Hpc; done.
  - rewrite bool_decide_eq_false_2 by (rewrite Hn; done). apply inv_goto; rewrite ?Hpc; done.
  - destruct (Z.eqb_spec (locked (lock m)) 0); [by apply inv_take|].
    destruct I as [H1 (o & Ho & Hown) H3 H4]. constructor; try done. exists o.
    split; [|done]. by destruct o.
  - by apply inv_name.
  - apply inv_goto; rewrite ?Hpc; done.
  - rewrite Hl by done. apply inv_goto; rewrite ?Hpc; done.
  - rewrite bool_decide_eq_true_2 by (by apply Hn). apply inv_goto; rewrite ?Hpc; done.
  - by apply inv_unname.
  - by apply inv_free.
  - unfold depth in Hc. rewrite Hpc, decide_False in Hc by done. apply popcli_ok in Hc as (c & -> & Hc); [|lia].
    apply (inv_update ints m i _ (lock m) I); cbn; rewrite ?Hpc; try done.
    eapply cli_at_eq; [exact Hc|]. unfold depth. rewrite decide_True by done. cbn. lia.
Qed.

Lemma step_inv ints m m' : step m m' -> inv ints m -> inv ints m'.
Proof.
  intros Hs I. destruct Hs as [m i _|m i _ _|m i k _ _ Hk].
  - by apply lock_step_inv.
  - apply (inv_update ints m i _ (lock m) I); cbn; try done.
    eapply cli_at_eq.
    + apply pushcli_ok; [apply depth_nonneg|apply (inv_cli _ _ I)].
    + unfold depth. cbn. lia.
  - assert (0 < depth (procs m i)) as Hd by (unfold depth; rewrite Hk; case_decide; lia).
    destruct (popcli_ok (ints i) _ _ Hd (inv_cli _ _ I i)) as (c & -> & Hc).
    apply (inv_update ints m i _ (lock m) I); cbn; try done.
    eapply cli_at_eq; [exact Hc|]. unfold depth. cbn. rewrite Hk. lia.
Qed.

Lemma reachable_inv ints m : rtc step (start ints) m -> inv ints m.
Proof.
  intros H. assert (inv ints (start ints)) as I.
  { constructor; try done. by exists None. }
  induction H; [done|]. eauto using step_inv.
Qed.

(** C8. Mutual exclusion.  However many processors run acquire and release on
    one lock, one access to shared memory at a time and in any interleaving,
    nesting other pushcli and popcli as they like: none of the panics of
    acquire, release and popcli happens; no two processors are between acquire
    and release; the one that is there is the one [holding] answers yes to, and
    its interrupts are off; and a processor that has undone its pushcli has the
    interrupt flag it started with. *)
Theorem mutual_exclusion ints m : rtc step (start ints) m ->
  panicked m = None /\
  (forall i j, pc (procs m i) = Inside -> pc (procs m j) = Inside -> i = j) /\
  (forall i, pc (procs m i) = Inside -> holding (lock m) i = true /\ fl_if (cs (procs m i)) = false) /\
  (forall i, pc (procs m i) = Outside -> holding (lock m) i = false) /\
  (forall i, pc (procs m i) = Outside -> others (procs m i) = 0%nat ->
     ncli (cs (procs m i)) = 0 /\ fl_if (cs (procs m i)) = ints i).
Proof.
  intros I%reachable_inv. pose proof (inv_cpu _ _ I) as Hn. split_and!.
  - apply (inv_ok _ _ I).
  - intros i j Hi Hj. assert (cpu (lock m) = Some i) as Ei by (apply Hn; by rewrite Hi).
    assert (cpu (lock m) = Some j) as Ej by (apply Hn; by rewrite Hj). congruence.
  - intros i Hi. split.
    + unfold holding. rewrite (inv_locked _ _ i I) by by rewrite Hi.
      apply bool_decide_eq_true_2, Hn. by rewrite Hi.
    + destruct (inv_cli _ _ I i) as [_ H]. unfold depth in H.
      rewrite Hi, (decide_False (P := Inside = Outside)), decide_False in H by (lia || done). apply H.
  - intros i Hi. unfold holding. rewrite bool_decide_eq_false_2; [by rewrite andb_false_r|].
    intros E%Hn. by rewrite Hi in E.
  - intros i Hi H0. destruct (inv_cli _ _ I i) as [E H]. unfold depth in *. rewrite Hi, H0 in *. done.
Qed.

Module SpinlockWitness.

Definition on (i : nat) : bool := true.

(** Processor 0 acquires the lock while processor 1 spins for it. *)
Definition steps : list nat := [0; 1; 0; 1; 0; 1; 1; 0; 1]%nat.
Definition final : machine := foldl lock_step (start on) steps.

Lemma run_steps : rtc step (start on) final.
Proof.
  unfold final, steps. cbn [foldl].
  do 9 (eapply rtc_r; [|apply step_lock; reflexivity]). apply rtc_refl.
Defined.

Lemma mutual_exclusion_witness :
  pc (procs final 0) = Inside /\ pc (procs final 1) = AcqXchg /\ panicked final = None.
Proof.
  split; [reflexivity|]. split; [reflexivity|]. apply (mutual_exclusion on final), run_steps.
Defined.

End SpinlockWitness.
