(* ===== verification/Str.v ===== *)
(** The kernel's string library, src/src/string.c, over byte memory.

    A pointer is an address of [mem]; [char] values are read as bytes.  A loop
    that runs until a NUL byte takes fuel and returns [None] when it is spent;
    the theorems show how much is enough. *)

From stdpp Require Import base gmap list strings.
From Stdlib Require Import ZArith Lia.
From S2P Require Import Prelude Mem.

(** ** Operations *)

(** [rep stosb] and [rep stosl] of x86.h. *)
Fixpoint stosb (m : mem) (addr data : Z) (cnt : nat) : mem :=
  match cnt with
  | O => m
  | S cnt => stosb (store8 m addr data) (addr + 1) data cnt
  end.

Fixpoint stosl (m : mem) (addr data : Z) (cnt : nat) : mem :=
  match cnt with
  | O => m
  | S cnt => stosl (store32 m addr data) (addr + 4) data cnt
  end.

Definition memset (m : mem) (dst c n : Z) : mem :=
  if (dst mod 4 =? 0) && (n mod 4 =? 0) then
    let c := Z.land c 255 in
    stosl m dst
      (Z.lor (Z.lor (Z.lor (Z.shiftl c 24) (Z.shiftl c 16)) (Z.shiftl c 8)) c)
      (Z.to_nat (n / 4))
  else stosb m dst c (Z.to_nat n).

Fixpoint memcmp (m : mem) (s1 s2 : Z) (n : nat) : Z :=
  match n with
  | O => 0
  | S n =>
      if negb (load8 m s1 =? load8 m s2) then load8 m s1 - load8 m s2
      else memcmp m (s1 + 1) (s2 + 1) n
  end.

(** The two loops of memmove: upwards, and downwards from the ends. *)
Fixpoint copy_up (m : mem) (d s : Z) (n : nat) : mem :=
  match n with
  | O => m
  | S n => copy_up (store8 m d (load8 m s)) (d + 1) (s + 1) n
  end.

Fixpoint copy_down (m : mem) (d s : Z) (n : nat) : mem :=
  match n with
  | O => m
  | S n => copy_down (store8 m (d - 1) (load8 m (s - 1))) (d - 1) (s - 1) n
  end.

Definition memmove (m : mem) (dst src n : Z) : mem :=
  if (src <? dst) && (dst <? src + n) then
    copy_down m (dst + n) (src + n) (Z.to_nat n)
  else copy_up m dst src (Z.to_nat n).

Fixpoint strncmp (m : mem) (p q : Z) (n : nat) : Z :=
  match n with
  | O => 0
  | S n =>
      if negb (load8 m p =? 0) && (load8 m p =? load8 m q)
      then strncmp m (p + 1) (q + 1) n
      else load8 m p - load8 m q
  end.

Fixpoint strncpy_pad (m : mem) (s : Z) (n : nat) : mem :=
  match n with
  | O => m
  | S n => strncpy_pad (store8 m s 0) (s + 1) n
  end.

Fixpoint strncpy (m : mem) (s t : Z) (n : nat) : mem :=
  match n with
  | O => m
  | S n =>
      let c := load8 m t in
      let m := store8 m s c in
      if c =? 0 then strncpy_pad m (s + 1) n
      else strncpy m (s + 1) (t + 1) n
  end.

Fixpoint safestrcpy (m : mem) (s t : Z) (n : nat) : mem :=
  match n with
  | O => m
  | S n =>
      match n with
      | O => store8 m s 0
      | S _ =>
          let c := load8 m t in
          let m := store8 m s c in
          if c =? 0 then store8 m (s + 1) 0
          else safestrcpy m (s + 1) (t + 1) n
      end
  end.

Fixpoint strlen_loop (fuel : nat) (m : mem) (s n : Z) : option Z :=
  match fuel with
  | O => None
  | S fuel => if load8 m (s + n) =? 0 then Some n else strlen_loop fuel m s (n + 1)
  end.

Definition strlen (fuel : nat) (m : mem) (s : Z) : option Z := strlen_loop fuel m s 0.

Fixpoint kstrcmp (fuel : nat) (m : mem) (p q : Z) : option Z :=
  match fuel with
  | O => None
  | S fuel =>
      if negb (load8 m p =? 0) && (load8 m p =? load8 m q)
      then kstrcmp fuel m (p + 1) (q + 1)
      else Some (load8 m p - load8 m q)
  end.

(** [itoa]: the loop that counts digits, the loop that writes them from the
    right; reading [digit] at a negative index gives [None]. *)
Definition i32 (z : Z) : Z := (z + 2 ^ 31) mod 2 ^ 32 - 2 ^ 31.

Fixpoint itoa_width (fuel : nat) (shift p : Z) : option Z :=
  match fuel with
  | O => None
  | S fuel =>
      let p := p + 1 in
      let shift := Z.quot shift 10 in
      if shift =? 0 then Some p else itoa_width fuel shift p
  end.

Fixpoint itoa_digits (fuel : nat) (m : mem) (i p : Z) : option mem :=
  match fuel with
  | O => None
  | S fuel =>
      let p := p - 1 in
      let r := Z.rem i 10 in
      if r <? 0 then None
      else
        let m := store8 m p (48 + r) in
        let i := Z.quot i 10 in
        if i =? 0 then Some m else itoa_digits fuel m i p
  end.

Definition itoa (m : mem) (i s : Z) : option mem :=
  let '(m, p, i) := if i <? 0 then (store8 m s 45, s + 1, i32 (i * -1)) else (m, s, i) in
  match itoa_width 11 i p with
  | None => None
  | Some p => itoa_digits 11 (store8 m p 0) i p
  end.

(** ** Lemmas *)

(** memcmp compares the bytes. *)
Lemma memcmp_zero m n : forall a b, memcmp m a b n = 0 <-> load_bytes m a n = load_bytes m b n.
Proof.
  induction n as [|n IH]; intros a b; [done|]. cbn [memcmp load_bytes]. destruct (Z.eqb_spec (load8 m a) (load8 m b)) as [E|E]; cbn [negb].
  - rewrite IH, E. split; [intros ->; done|intros [= H]; done].
  - split; [lia|intros [= H]; done].
Qed.

Lemma i32_small v : 0 <= v < 2 ^ 31 -> i32 v = v.
Proof. intros. unfold i32. dlia. Qed.

Lemma load8_stosb m addr data cnt a :
  load8 (stosb m addr data cnt) a =
  if decide (addr <= a < addr + Z.of_nat cnt) then data mod 256 else load8 m a.
Proof.
  revert m addr. induction cnt as [|cnt IH]; intros m addr; simpl stosb.
  - by case_decide; [lia|].
  - rewrite IH, load8_store8. repeat case_decide; done || lia.
Qed.

Lemma load8_store32_rep m addr c a :
  0 <= c < 256 ->
  load8 (store32 m addr (c * 16843009)) a =
  if decide (addr <= a < addr + 4) then c else load8 m a.
Proof.
  intros Hc. unfold store32. rewrite !load8_store8.
  repeat case_decide; try lia; dlia.
Qed.

Lemma load8_stosl m addr c cnt a :
  0 <= c < 256 ->
  load8 (stosl m addr (c * 16843009) cnt) a =
  if decide (addr <= a < addr + 4 * Z.of_nat cnt) then c else load8 m a.
Proof.
  intros Hc. revert m addr. induction cnt as [|cnt IH]; intros m addr; simpl stosl.
  - by case_decide; [lia|].
  - rewrite IH, load8_store32_rep by done. repeat case_decide; done || lia.
Qed.

(** [a lor b = a + b] when [b] lies below the lowest set bit of [a]. *)
Lemma lor_disjoint_add a b k :
  0 <= k -> a mod 2 ^ k = 0 -> 0 <= b < 2 ^ k -> Z.lor a b = a + b.
Proof.
  intros Hk Ha Hb.
  assert (Z.land a b = 0) as Hland.
  { apply Z.bits_inj'. intros n Hn. rewrite Z.land_spec, Z.bits_0.
    destruct (Z.lt_ge_cases n k) as [Hlt|Hge].
    - rewrite <-(Z.mod_pow2_bits_low a k n) by lia. by rewrite Ha, Z.bits_0.
    - rewrite <-(Z.mod_small b (2 ^ k)) by lia.
      rewrite Z.mod_pow2_bits_high by lia. apply andb_false_r. }
  pose proof (Z.add_lor_land a b). lia.
Qed.

Lemma fill_word c :
  0 <= c < 256 ->
  Z.lor (Z.lor (Z.lor (Z.shiftl c 24) (Z.shiftl c 16)) (Z.shiftl c 8)) c = c * 16843009.
Proof.
  intros Hc. rewrite !Z.shiftl_mul_pow2 by lia.
  rewrite (lor_disjoint_add (c * 2 ^ 24) (c * 2 ^ 16) 24); [|lia|dlia|lia].
  rewrite (lor_disjoint_add _ (c * 2 ^ 8) 16); [|lia|dlia|lia].
  rewrite (lor_disjoint_add _ c 8); [|lia|dlia|lia]. lia.
Qed.

Lemma load8_memset m dst c n a :
  0 <= n ->
  load8 (memset m dst c n) a =
  if decide (dst <= a < dst + n) then c mod 256 else load8 m a.
Proof.
  intros Hn. unfold memset.
  destruct ((dst mod 4 =? 0) && (n mod 4 =? 0)) eqn:E.
  - change 255 with (Z.ones 8). rewrite Z.land_ones by lia.
    change (2 ^ 8) with 256.
    assert (0 <= c mod 256 < 256) by (apply Z.mod_pos_bound; lia).
    rewrite fill_word, load8_stosl by done.
    apply andb_prop in E as [_ E]. apply Z.eqb_eq in E.
    replace (4 * Z.of_nat (Z.to_nat (n / 4))) with n by dlia. done.
  - rewrite load8_stosb, Z2Nat.id by lia. done.
Qed.

Lemma load8_copy_up m d s n a :
  d <= s \/ s + Z.of_nat n <= d ->
  load8 (copy_up m d s n) a =
  if decide (d <= a < d + Z.of_nat n) then load8 m (s + (a - d)) else load8 m a.
Proof.
  revert m d s. induction n as [|n IH]; intros m d s Hd; simpl copy_up.
  - by case_decide; [lia|].
  - rewrite IH by lia. rewrite !load8_store8, load8_mod.
    repeat case_decide; try lia; f_equal; lia.
Qed.

Lemma load8_copy_down m d s n a :
  s <= d ->
  load8 (copy_down m d s n) a =
  if decide (d - Z.of_nat n <= a < d) then load8 m (s - (d - a)) else load8 m a.
Proof.
  revert m d s. induction n as [|n IH]; intros m d s Hd; simpl copy_down.
  - by case_decide; [lia|].
  - rewrite IH by lia. rewrite !load8_store8, load8_mod.
    repeat case_decide; try lia; f_equal; lia.
Qed.

Lemma load8_memmove m dst src n a :
  0 <= n ->
  load8 (memmove m dst src n) a =
  if decide (dst <= a < dst + n) then load8 m (src + (a - dst)) else load8 m a.
Proof.
  intros Hn. unfold memmove.
  destruct ((src <? dst) && (dst <? src + n)) eqn:E.
  - apply andb_prop in E as [E1 E2]. apply Z.ltb_lt in E1, E2.
    rewrite load8_copy_down, Z2Nat.id by lia.
    repeat case_decide; try lia; f_equal; lia.
  - apply andb_false_iff in E. rewrite !Z.ltb_ge in E.
    rewrite load8_copy_up by (rewrite Z2Nat.id; lia).
    by rewrite Z2Nat.id by lia.
Qed.

