(* ===== verification/Mmu.v ===== *)
(** Address-space layout and page-table entry macros: src/src/memlayout.h,
    src/src/mmu.h and src/src/param.h.

    Values of C type [uint] are integers in [0, 2^32); [u32] is the wrap-around
    of unsigned arithmetic. *)

From stdpp Require Import base gmap list strings.
From Stdlib Require Import ZArith Lia.
From S2P Require Import Prelude Mem Str.

Definition u32 (z : Z) : Z := z mod 2 ^ 32.

(** ** memlayout.h *)
Definition EXTMEM : Z := 0x100000.
Definition PHYSTOP : Z := 0xE000000.
Definition DEVSPACE : Z := 0xFE000000.
Definition KERNBASE : Z := 0x80000000.
Definition KERNLINK : Z := KERNBASE + EXTMEM.
Definition USERTOP : Z := KERNBASE.
Definition SLOT_USABLE : Z := 0xffffffff.
Definition V2P (a : Z) : Z := u32 (a - KERNBASE).
Definition P2V (a : Z) : Z := u32 (a + KERNBASE).

(** ** mmu.h *)
Definition NPDENTRIES : Z := 1024.
Definition NPTENTRIES : Z := 1024.
Definition PGSIZE : Z := 4096.
Definition PGSHIFT : Z := 12.
Definition PTXSHIFT : Z := 12.
Definition PDXSHIFT : Z := 22.
Definition PDX (va : Z) : Z := Z.land (Z.shiftr va PDXSHIFT) 0x3FF.
Definition PTX (va : Z) : Z := Z.land (Z.shiftr va PTXSHIFT) 0x3FF.
Definition PGADDR (d t o : Z) : Z :=
  u32 (Z.lor (Z.lor (Z.shiftl d PDXSHIFT) (Z.shiftl t PTXSHIFT)) o).
Definition PGROUNDUP (sz : Z) : Z := Z.land (u32 (sz + PGSIZE - 1)) (Z.lnot (PGSIZE - 1)).
Definition PGROUNDDOWN (a : Z) : Z := Z.land a (Z.lnot (PGSIZE - 1)).

Definition PTE_P : Z := 0x001.
Definition PTE_W : Z := 0x002.
Definition PTE_U : Z := 0x004.
Definition PTE_PG : Z := 0x200.
Definition PTE_ADDR (pte : Z) : Z := Z.land pte (Z.lnot 0xFFF).
Definition PTE_FLAGS (pte : Z) : Z := Z.land pte 0xFFF.

(** The test [x & flag] of a condition. *)
Definition has (x flag : Z) : bool := negb (Z.land x flag =? 0).

(** ** param.h *)
Definition NPROC : Z := 64.
Definition KSTACKSIZE : Z := 4096.
Definition NOFILE : Z := 16.

Create HintDb consts.
#[export] Hint Unfold EXTMEM PHYSTOP DEVSPACE KERNBASE KERNLINK USERTOP SLOT_USABLE
  NPDENTRIES NPTENTRIES PGSIZE PGSHIFT PTXSHIFT PDXSHIFT PTE_P PTE_W PTE_U PTE_PG
  NPROC KSTACKSIZE NOFILE : consts.

(** [lia] that sees the values of the constants. *)
Ltac klia := autounfold with consts in *; lia.
Ltac kdlia := autounfold with consts in *; dlia.

(** ** Lemmas *)

Lemma u32_small z : 0 <= z < 2 ^ 32 -> u32 z = z.
Proof. intros. unfold u32. by apply Z.mod_small. Qed.

Lemma u32_range z : 0 <= u32 z < 2 ^ 32.
Proof. unfold u32. apply Z.mod_pos_bound. lia. Qed.

(** Kernel addresses of physical memory and back. *)
Lemma P2V_small pa : 0 <= pa < PHYSTOP -> P2V pa = pa + KERNBASE.
Proof. intros. unfold P2V. apply u32_small. klia. Qed.

Lemma V2P_P2V pa : 0 <= pa < PHYSTOP -> V2P (P2V pa) = pa.
Proof. intros. unfold V2P. rewrite P2V_small by done. rewrite u32_small; klia. Qed.

Lemma V2P_kernel va : KERNBASE <= va < 2 ^ 32 -> V2P va = va - KERNBASE.
Proof. intros. unfold V2P. apply u32_small. klia. Qed.

Lemma ldiff_ones_sub a k : 0 <= k -> Z.land a (Z.lnot (Z.ones k)) = a - a mod 2 ^ k.
Proof.
  intros Hk. rewrite <-Z.ldiff_land, Z.ldiff_ones_r by done.
  rewrite Z.shiftl_mul_pow2, Z.shiftr_div_pow2 by done.
  pose proof (Z.div_mod a (2 ^ k)). lia.
Qed.

Lemma PTE_ADDR_eq x : PTE_ADDR x = x - x mod 4096.
Proof. unfold PTE_ADDR. change 0xFFF with (Z.ones 12). by rewrite ldiff_ones_sub. Qed.

Lemma PGROUNDDOWN_eq x : PGROUNDDOWN x = x - x mod 4096.
Proof. apply PTE_ADDR_eq. Qed.

Lemma PGROUNDUP_eq x : 0 <= x -> x <= 2 ^ 32 - 4096 -> PGROUNDUP x = (x + 4095) / 4096 * 4096.
Proof.
  intros. unfold PGROUNDUP. rewrite u32_small by klia.
  change (PGSIZE - 1) with (Z.ones 12). rewrite ldiff_ones_sub by done.
  change (2 ^ 12) with 4096. kdlia.
Qed.

Lemma PTE_FLAGS_eq x : PTE_FLAGS x = x mod 4096.
Proof. unfold PTE_FLAGS. change 0xFFF with (Z.ones 12). by rewrite Z.land_ones. Qed.

Lemma PDX_eq va : PDX va = va / 4194304 mod 1024.
Proof.
  unfold PDX, PDXSHIFT. change 0x3FF with (Z.ones 10).
  rewrite Z.land_ones, Z.shiftr_div_pow2 by lia. done.
Qed.

Lemma PTX_eq va : PTX va = va / 4096 mod 1024.
Proof.
  unfold PTX, PTXSHIFT. change 0x3FF with (Z.ones 10).
  rewrite Z.land_ones, Z.shiftr_div_pow2 by lia. done.
Qed.

Lemma PDX_range va : 0 <= PDX va < 1024.
Proof. rewrite PDX_eq. apply Z.mod_pos_bound. lia. Qed.

Lemma PTX_range va : 0 <= PTX va < 1024.
Proof. rewrite PTX_eq. apply Z.mod_pos_bound. lia. Qed.

(** The two indices determine the page of an address. *)
Lemma PDX_PTX_page va va' :
  0 <= va < 2 ^ 32 -> 0 <= va' < 2 ^ 32 ->
  PDX va = PDX va' -> PTX va = PTX va' -> va / 4096 = va' / 4096.
Proof.
  rewrite !PDX_eq, !PTX_eq. intros H1 H2.
  change 4194304 with (4096 * 1024). rewrite <-!Z.div_div by lia.
  assert (0 <= va / 4096 < 1048576) by dlia.
  assert (0 <= va' / 4096 < 1048576) by dlia.
  generalize dependent (va / 4096). generalize dependent (va' / 4096). intros. dlia.
Qed.

(** Flags and addresses of a page-table entry. *)
Lemma land_low a f k : 0 <= k -> 0 <= f < 2 ^ k -> Z.land a f = Z.land (a mod 2 ^ k) f.
Proof.
  intros Hk Hf. apply Z.bits_inj'. intros n Hn. rewrite !Z.land_spec.
  destruct (Z.lt_ge_cases n k).
  - by rewrite Z.mod_pow2_bits_low by lia.
  - rewrite <-(Z.mod_small f (2 ^ k)) by lia.
    by rewrite (Z.mod_pow2_bits_high f), !andb_false_r by lia.
Qed.

Lemma has_low a f : 0 <= f < 4096 -> has a f = has (a mod 4096) f.
Proof. intros. unfold has. by rewrite (land_low a f 12) by lia. Qed.

Lemma pte_join pa flags :
  pa mod 4096 = 0 -> 0 <= flags < 4096 -> Z.lor pa flags = pa + flags.
Proof. intros. by apply (lor_disjoint_add pa flags 12). Qed.

Lemma has_join pa flags f :
  pa mod 4096 = 0 -> 0 <= flags < 4096 -> 0 <= f < 4096 ->
  has (pa + flags) f = has flags f.
Proof.
  intros Hpa Hfl Hf. rewrite has_low by done. f_equal.
  rewrite Z.add_mod, Hpa by lia. rewrite Z.add_0_l, Z.mod_mod by lia.
  apply Z.mod_small. lia.
Qed.

Lemma PTE_ADDR_join pa flags :
  pa mod 4096 = 0 -> 0 <= flags < 4096 -> PTE_ADDR (pa + flags) = pa.
Proof. intros. rewrite PTE_ADDR_eq. dlia. Qed.

Lemma PTE_FLAGS_join pa flags :
  pa mod 4096 = 0 -> 0 <= flags < 4096 -> PTE_FLAGS (pa + flags) = flags.
Proof. intros. rewrite PTE_FLAGS_eq. dlia. Qed.

Lemma PTE_ADDR_aligned x : PTE_ADDR x mod 4096 = 0.
Proof. rewrite PTE_ADDR_eq. dlia. Qed.

Lemma PTE_ADDR_le x : 0 <= x -> 0 <= PTE_ADDR x <= x.
Proof. rewrite PTE_ADDR_eq. intros. dlia. Qed.

Lemma pte_split x : x = PTE_ADDR x + PTE_FLAGS x.
Proof. rewrite PTE_ADDR_eq, PTE_FLAGS_eq. lia. Qed.
