(* ===== verification/Printf.v ===== *)
(** Printing and reading numbers: itoa of src/src/string.c, printint and cprintf
    of src/src/console.c, src/src/printf.c, and atoi, gets and the string
    functions of src/src/ulib.c.

    What is printed is a list of bytes.  The variable arguments of printf are the
    list of words after the format; reading past them gives [None], as does a
    string without an end. *)

From stdpp Require Import base gmap list strings.
From Stdlib Require Import ZArith Lia.
From S2P Require Import Prelude Mem Str Mmu.

(** ** ulib.c *)

Fixpoint ustrcpy (fuel : nat) (m : mem) (s t : Z) : option mem :=
  match fuel with
  | O => None
  | S fuel =>
      let c := load8 m t in
      let m := store8 m s c in
      if c =? 0 then Some m else ustrcpy fuel m (s + 1) (t + 1)
  end.

Fixpoint ustrcmp (fuel : nat) (m : mem) (p q : Z) : option Z :=
  match fuel with
  | O => None
  | S fuel =>
      if negb (load8 m p =? 0) && (load8 m p =? load8 m q) then ustrcmp fuel m (p + 1) (q + 1)
      else Some (load8 m p - load8 m q)
  end.

Fixpoint ustrlen_loop (fuel : nat) (m : mem) (s n : Z) : option Z :=
  match fuel with
  | O => None
  | S fuel => if negb (load8 m (s + n) =? 0) then ustrlen_loop fuel m s (n + 1) else Some n
  end.

Definition ustrlen (fuel : nat) (m : mem) (s : Z) : option Z := ustrlen_loop fuel m s 0.

Definition umemset (m : mem) (dst c n : Z) : mem := stosb m dst c (Z.to_nat n).

(** The address of the first [c], or 0. *)
Fixpoint ustrchr (fuel : nat) (m : mem) (s c : Z) : option Z :=
  match fuel with
  | O => None
  | S fuel =>
      let x := load8 m s in
      if x =? 0 then Some 0 else if x =? c then Some s else ustrchr fuel m (s + 1) c
  end.

(** [input] is what the calls of read yield before one fails. *)
Fixpoint gets_loop (n : nat) (input : list Z) : list Z :=
  match n, input with
  | S n, c :: input => c :: if (c =? 10) || (c =? 13) then [] else gets_loop n input
  | _, _ => []
  end.

Definition gets (m : mem) (buf max : Z) (input : list Z) : mem :=
  store_bytes m buf (gets_loop (Z.to_nat (max - 1)) input ++ [0]).

Fixpoint atoi_loop (fuel : nat) (m : mem) (s n : Z) : option Z :=
  match fuel with
  | O => None
  | S fuel =>
      let c := load8 m s in
      if (48 <=? c) && (c <=? 57) then atoi_loop fuel m (s + 1) (i32 (n * 10 + c - 48)) else Some n
  end.

Definition atoi (fuel : nat) (m : mem) (s : Z) : option Z := atoi_loop fuel m s 0.

Definition umemmove (m : mem) (dst src n : Z) : mem := copy_up m dst src (Z.to_nat n).

(** ** printint *)

(** The digits of printf.c are upper case, those of console.c lower case. *)
Definition digit (upper : bool) (d : Z) : Z := if d <? 10 then 48 + d else (if upper then 55 else 87) + d.

(** The loop that fills [buf]; [x] is an unsigned word. *)
Fixpoint printint_digits (fuel : nat) (upper : bool) (x base : Z) (buf : list Z) : option (list Z) :=
  match fuel with
  | O => None
  | S fuel =>
      let buf := buf ++ [digit upper (x mod base)] in
      let x := x / base in
      if x =? 0 then Some buf else printint_digits fuel upper x base buf
  end.

(** [buf] when it is full; it has room for 16 characters. *)
Definition printint_buf (upper : bool) (xx base : Z) (sgn : bool) : option (list Z) :=
  let neg := sgn && (xx <? 0) in
  let x := if neg then u32 (- xx) else u32 xx in
  match printint_digits 32 upper x base [] with
  | Some buf => Some (buf ++ if neg then [45] else [])
  | None => None
  end.

(** ... printed from its end. *)
Definition printint (upper : bool) (xx base : Z) (sgn : bool) : option (list Z) :=
  reverse <$> printint_buf upper xx base sgn.

(** ** printf and cprintf *)

(** The bytes of a string, without its NUL. *)
Fixpoint string_at (fuel : nat) (m : mem) (s : Z) : option (list Z) :=
  match fuel with
  | O => None
  | S fuel =>
      let c := load8 m s in
      if c =? 0 then Some [] else cons c <$> string_at fuel m (s + 1)
  end.

Definition null_string : list Z := [40; 110; 117; 108; 108; 41].
Definition percent : Z := 37.

(** What the character [c] after a [%] prints, and the arguments left.  [user]
    is printf, which also knows [%c]. *)
Definition directive (user : bool) (fuel : nat) (m : mem) (c : Z) (ap : list Z) : option (list Z * list Z) :=
  let arg (f : Z -> option (list Z)) :=
    match ap with
    | [] => None
    | w :: ap => match f w with Some out => Some (out, ap) | None => None end
    end in
  if c =? 100 then arg (fun w => printint user (i32 w) 10 true)
  else if (c =? 120) || (c =? 112) then arg (fun w => printint user (i32 w) 16 false)
  else if c =? 115 then arg (fun w => if w =? 0 then Some null_string else string_at fuel m w)
  else if user && (c =? 99) then arg (fun w => Some [w mod 256])
  else if c =? percent then Some ([percent], ap)
  else Some ([percent; c], ap).

(** The loop of printf over the format; [state] is [state == '%']. *)
Fixpoint printf_loop (fuel : nat) (m : mem) (fmt : list Z) (state : bool) (ap : list Z) : option (list Z) :=
  match fmt with
  | [] => Some []
  | c :: fmt =>
      if state then
        match directive true fuel m c ap with
        | Some (out, ap) => app out <$> printf_loop fuel m fmt false ap
        | None => None
        end
      else if c =? percent then printf_loop fuel m fmt true ap
      else cons c <$> printf_loop fuel m fmt false ap
  end.

Definition printf (fuel : nat) (m : mem) (fmt ap : list Z) : option (list Z) := printf_loop fuel m fmt false ap.

(** cprintf reads the character after a [%] in the same turn. *)
Fixpoint cprintf_loop (fuel : nat) (m : mem) (fmt ap : list Z) : option (list Z) :=
  match fmt with
  | [] => Some []
  | c :: fmt =>
      if negb (c =? percent) then cons c <$> cprintf_loop fuel m fmt ap
      else
        match fmt with
        | [] => Some []
        | c :: fmt =>
            match directive false fuel m c ap with
            | Some (out, ap) => app out <$> cprintf_loop fuel m fmt ap
            | None => None
            end
        end
  end.

Definition cprintf (fuel : nat) (m : mem) (fmt ap : list Z) : option (list Z) := cprintf_loop fuel m fmt ap.

(** ** Numerals *)

(** The digits of [x] in base [b], the most significant first. *)
Fixpoint numeral (fuel : nat) (b x : Z) : list Z :=
  match fuel with
  | O => []
  | S fuel => (if x / b =? 0 then [] else numeral fuel b (x / b)) ++ [x mod b]
  end.

Definition value (b : Z) (l : list Z) : Z := foldl (fun n d => n * b + d) 0 l.

Lemma numeral_value fuel b x : 2 <= b -> 0 <= x < b ^ Z.of_nat fuel -> value b (numeral fuel b x) = x.
Proof.
  intros Hb. revert x. induction fuel as [|fuel IH]; intros x Hx; cbn [numeral].
  - cbn in *. lia.
  - rewrite Nat2Z.inj_succ, Z.pow_succ_r in Hx by lia. unfold value in *. rewrite foldl_app. cbn.
    pose proof (Z.div_mod x b ltac:(lia)). pose proof (Z.mod_pos_bound x b ltac:(lia)).
    destruct (Z.eqb_spec (x / b) 0) as [E|E]; [cbn; lia|].
    rewrite IH; [lia|]. split; [apply Z.div_pos; lia|apply Z.div_lt_upper_bound; lia].
Qed.

Lemma numeral_digits fuel b x : 2 <= b -> Forall (fun d => 0 <= d < b) (numeral fuel b x).
Proof.
  intros Hb. revert x. induction fuel as [|fuel IH]; intros x; cbn [numeral]; [constructor|].
  apply Forall_app. split; [|by repeat constructor; apply Z.mod_pos_bound; lia].
  destruct (x / b =? 0); [constructor|done].
Qed.

(** Enough fuel gives the same numeral as any other fuel that is enough. *)
Lemma numeral_fuel f f' b x : 2 <= b -> 0 <= x < b ^ Z.of_nat f -> (0 < f <= f')%nat ->
  numeral f' b x = numeral f b x.
Proof.
  intros Hb. revert f' x. induction f as [|f IH]; intros f' x Hx Hf; [lia|]. destruct f' as [|f']; [lia|].
  rewrite Nat2Z.inj_succ, Z.pow_succ_r in Hx by lia. cbn [numeral].
  destruct (Z.eqb_spec (x / b) 0) as [E|E]; [done|]. f_equal.
  assert (0 <= x / b) by (apply Z.div_pos; lia). assert (x / b < b ^ Z.of_nat f) by (apply Z.div_lt_upper_bound; lia).
  apply IH; [lia|]. destruct f; [cbn in *; lia|lia].
Qed.

Lemma numeral_length f b x k : 2 <= b -> 0 <= x < b ^ Z.of_nat k -> (0 < k)%nat -> (length (numeral f b x) <= k)%nat.
Proof.
  intros Hb. revert x k. induction f as [|f IH]; intros x k Hx Hk; cbn [numeral]; [cbn; lia|].
  rewrite length_app. cbn. destruct (Z.eqb_spec (x / b) 0) as [E|E]; [cbn; lia|].
  destruct k as [|k]; [lia|]. rewrite Nat2Z.inj_succ, Z.pow_succ_r in Hx by lia.
  assert (0 <= x / b) by (apply Z.div_pos; lia). assert (x / b < b ^ Z.of_nat k) by (apply Z.div_lt_upper_bound; lia).
  specialize (IH (x / b) k ltac:(lia)). destruct k; [cbn in *; lia|]. lia.
Qed.

Lemma numeral_nonempty f b x : (0 < f)%nat -> (0 < length (numeral f b x))%nat.
Proof. destruct f; [lia|]. intros _. cbn. rewrite length_app. cbn. lia. Qed.

(** printint fills its buffer with the digits from the right. *)
Lemma printint_digits_eq fuel upper x b buf : 2 <= b -> 0 <= x < b ^ Z.of_nat fuel -> (0 < fuel)%nat ->
  printint_digits fuel upper x b buf = Some (buf ++ reverse (digit upper <$> numeral fuel b x)).
Proof.
  intros Hb. revert x buf. induction fuel as [|fuel IH]; intros x buf Hx Hf; [lia|]. cbn [printint_digits numeral].
  rewrite Nat2Z.inj_succ, Z.pow_succ_r in Hx by lia. rewrite fmap_app, reverse_app. cbn [fmap list_fmap reverse rev_append].
  destruct (Z.eqb_spec (x / b) 0) as [E|E]; [done|].
  assert (0 <= x / b) by (apply Z.div_pos; lia). assert (x / b < b ^ Z.of_nat fuel) by (apply Z.div_lt_upper_bound; lia).
  rewrite IH; [by rewrite <- app_assoc|lia|]. destruct fuel; [cbn in *; lia|lia].
Qed.

(** ** itoa *)

Definition ascii_digits (l : list Z) : list Z := Z.add 48 <$> l.

(** The text of an int. *)
Definition text (i : Z) : list Z := (if i <? 0 then [45] else []) ++ ascii_digits (numeral 11 10 (Z.abs i)).

Lemma itoa_width_eq fuel i p : 0 <= i < 10 ^ Z.of_nat fuel -> (0 < fuel)%nat ->
  itoa_width fuel i p = Some (p + Z.of_nat (length (numeral fuel 10 i))).
Proof.
  revert i p. induction fuel as [|fuel IH]; intros i p Hi Hf; [lia|].
  rewrite Nat2Z.inj_succ, Z.pow_succ_r in Hi by lia. cbn [itoa_width numeral].
  rewrite Z.quot_div_nonneg by lia. rewrite length_app. cbn [length].
  destruct (Z.eqb_spec (i / 10) 0) as [E|E]; [cbn; f_equal; lia|].
  rewrite IH; [f_equal; lia|dlia|]. destruct fuel; [cbn in *; dlia|lia].
Qed.

Lemma store_bytes_app m a l l' : store_bytes m a (l ++ l') = store_bytes (store_bytes m a l) (a + Z.of_nat (length l)) l'.
Proof.
  revert m a. induction l as [|x l IH]; intros m a; cbn [app store_bytes length]; [by rewrite Z.add_0_r|].
  rewrite IH. f_equal. lia.
Qed.

(** Stores to different places commute, as far as loads can tell. *)
Lemma load8_store_bytes_ext m m' a l b : (forall x, load8 m x = load8 m' x) ->
  load8 (store_bytes m a l) b = load8 (store_bytes m' a l) b.
Proof. intros H. rewrite !load8_store_bytes. destruct (if a <=? b then _ else _); done. Qed.

Lemma itoa_digits_eq fuel m i p : 0 <= i < 10 ^ Z.of_nat fuel -> (0 < fuel)%nat ->
  let t := ascii_digits (numeral fuel 10 i) in
  exists m', itoa_digits fuel m i p = Some m' /\
    forall a, load8 m' a = load8 (store_bytes m (p - Z.of_nat (length t)) t) a.
Proof.
  revert m i p. induction fuel as [|fuel IH]; intros m i p Hi Hf t; [lia|].
  rewrite Nat2Z.inj_succ, Z.pow_succ_r in Hi by lia. subst t. cbn [itoa_digits numeral].
  rewrite Z.rem_mod_nonneg, Z.quot_div_nonneg by lia. destruct (Z.ltb_spec (i mod 10) 0) as [E0|_]; [dlia|].
  unfold ascii_digits. rewrite fmap_app, length_app. cbn [fmap list_fmap length].
  destruct (Z.eqb_spec (i / 10) 0) as [E|E].
  { eexists. split; [done|]. intros a. cbn. by replace (p - 1 - 0) with (p - 1) by lia. }
  destruct (IH (store8 m (p - 1) (48 + i mod 10)) (i / 10) (p - 1)) as (m' & -> & Hm'); [dlia|destruct fuel; [cbn in *; dlia|lia]|].
  exists m'. split; [done|]. intros a. rewrite Hm'. set (t := ascii_digits _). change (Z.add 48 <$> numeral fuel 10 (i / 10)) with t.
  rewrite store_bytes_app. cbn [store_bytes].
  replace (p - Z.of_nat (length t + 1) + Z.of_nat (length t)) with (p - 1) by lia.
  replace (p - Z.of_nat (length t + 1)) with (p - 1 - Z.of_nat (length t)) by lia.
  rewrite load8_store_bytes, !load8_store8. destruct (decide (p - 1 = a)) as [<-|Ha].
  - destruct (Z.leb_spec (p - 1 - Z.of_nat (length t)) (p - 1)); [|lia].
    rewrite lookup_ge_None_2 by lia. done.
  - rewrite load8_store_bytes. destruct (if _ <=? a then _ else _); done.
Qed.

(** A memory that holds the string [l] at [s]. *)
Lemma stored_string m' m s l : (forall a, load8 m' a = load8 (store_bytes m s (l ++ [0])) a) -> is_bytes l ->
  load_bytes m' s (length l) = l /\ load8 m' (s + Z.of_nat (length l)) = 0 /\
  forall a, a < s \/ s + Z.of_nat (length l) < a -> load8 m' a = load8 m a.
Proof.
  intros H Hl. split_and!.
  - rewrite <- (load_store_bytes m s l) at 2 by done. apply load_bytes_ext.
    intros j Hj. rewrite H, !load8_store_bytes. destruct (s <=? s + j); [|done].
    by rewrite lookup_app_l by lia.
  - rewrite H, store_bytes_app. cbn [store_bytes]. by rewrite load8_store8_eq.
  - intros a Ha. rewrite H. apply load8_store_bytes_out. rewrite length_app. cbn. lia.
Qed.

(** itoa writes the text of every int but the least, and its NUL. *)
Lemma itoa_eq m i s : - 2 ^ 31 < i < 2 ^ 31 ->
  exists m', itoa m i s = Some m' /\ forall a, load8 m' a = load8 (store_bytes m s (text i ++ [0])) a.
Proof.
  intros Hi. unfold itoa, text. set (t := ascii_digits _).
  assert (0 <= Z.abs i < 10 ^ Z.of_nat 11) as Ha by (cbn; lia).
  assert (forall m p, exists m', match itoa_width 11 (Z.abs i) p with
      | Some p => itoa_digits 11 (store8 m p 0) (Z.abs i) p | None => None end = Some m' /\
      forall a, load8 m' a = load8 (store_bytes m p (t ++ [0])) a) as H.
  { intros m0 p. rewrite itoa_width_eq by (done || lia). set (q := p + _).
    destruct (itoa_digits_eq 11 (store8 m0 q 0) (Z.abs i) q Ha ltac:(lia)) as (m' & -> & Hm'). fold t in Hm'.
    exists m'. split; [done|]. intros a. rewrite Hm', store_bytes_app. cbn [store_bytes].
    assert (length t = length (numeral 11 10 (Z.abs i))) as Hl by apply length_fmap.
    replace (q - Z.of_nat (length t)) with p by (subst q; lia). replace (p + Z.of_nat (length t)) with q by (subst q; lia).
    rewrite load8_store_bytes, !load8_store8. destruct (decide (q = a)) as [<-|Hne].
    - destruct (Z.leb_spec p q); [|subst q; lia]. by rewrite lookup_ge_None_2 by (subst q; lia).
    - rewrite load8_store_bytes. destruct (if _ <=? a then _ else _); done. }
  destruct (Z.ltb_spec i 0) as [Hn|Hn].
  - replace (i32 (i * -1)) with (Z.abs i) by (unfold i32; dlia). apply (H (store8 m s 45) (s + 1)).
  - specialize (H m s). rewrite (Z.abs_eq i) in H by lia. exact H.
Qed.

(** ** atoi *)

Lemma atoi_eq fuel m s l n : load_bytes m s (length l) = ascii_digits l -> Forall (fun d => 0 <= d < 10) l ->
  ~ 48 <= load8 m (s + Z.of_nat (length l)) <= 57 -> (length l < fuel)%nat -> 0 <= n ->
  foldl (fun n d => n * 10 + d) n l < 2 ^ 31 ->
  atoi_loop fuel m s n = Some (foldl (fun n d => n * 10 + d) n l).
Proof.
  revert fuel s n. induction l as [|d l IH]; intros fuel s n Hl Hd He Hf Hn Hv; (destruct fuel as [|fuel]; [cbn in Hf; lia|]).
  - cbn in *. rewrite Z.add_0_r in He. destruct (Z.leb_spec 48 (load8 m s)), (Z.leb_spec (load8 m s) 57); try done; lia.
  - cbn in Hl. injection Hl as H1 Hl. apply Forall_cons in Hd as [Hd Hds]. cbn [atoi_loop]. rewrite H1.
    destruct (Z.leb_spec 48 (48 + d)); [|lia]. destruct (Z.leb_spec (48 + d) 57); [|lia]. cbn [andb foldl].
    assert (n * 10 + d <= foldl (fun n d => n * 10 + d) (n * 10 + d) l) as Hmono.
    { assert (0 <= n * 10 + d) as Hk0 by lia. revert Hk0 Hds. clear. generalize (n * 10 + d). induction l as [|x l IH].
      - cbn. lia.
      - intros k Hk [Hx Hl]%Forall_cons. cbn. specialize (IH (k * 10 + x) ltac:(lia) Hl). lia. }
    cbn in Hv. replace (i32 (n * 10 + (48 + d) - 48)) with (n * 10 + d) by (unfold i32; dlia).
    apply IH; try done; [|cbn in Hf; lia|lia]. cbn [length] in He. by replace (s + 1 + Z.of_nat (length l)) with (s + Z.of_nat (S (length l))) by lia.
Qed.

Lemma numeral_word b x : 10 <= b -> 0 <= x < 2 ^ 32 -> numeral 32 b x = numeral 11 b x.
Proof.
  intros Hb Hx. assert (10 ^ 11 <= b ^ Z.of_nat 11) by (apply Z.pow_le_mono_l; lia).
  apply numeral_fuel; lia.
Qed.

(** What printint leaves in its buffer. *)
Lemma printint_buf_eq upper xx base sgn : 10 <= base -> - 2 ^ 31 <= xx < 2 ^ 31 ->
  printint_buf upper xx base sgn = Some (reverse
    ((if sgn && (xx <? 0) then [45] else []) ++
     (digit upper <$> numeral 11 base (if sgn && (xx <? 0) then - xx else u32 xx)))).
Proof.
  intros Hb Hx. unfold printint_buf. assert (0 <= u32 xx < 2 ^ 32) by apply u32_range.
  assert ((if sgn && (xx <? 0) then u32 (- xx) else u32 xx) = if sgn && (xx <? 0) then - xx else u32 xx) as ->.
  { destruct (sgn && (xx <? 0)) eqn:E; [|done]. apply andb_prop in E as [_ E%Z.ltb_lt]. apply u32_small. lia. }
  set (x := if sgn && (xx <? 0) then - xx else u32 xx).
  assert (0 <= x < 2 ^ 32) as Hr.
  { subst x. destruct (sgn && (xx <? 0)) eqn:E; [|done]. apply andb_prop in E as [_ E%Z.ltb_lt]. lia. }
  assert (10 ^ 32 <= base ^ Z.of_nat 32) by (apply Z.pow_le_mono_l; lia).
  rewrite printint_digits_eq by lia. rewrite numeral_word by done. cbn [app]. rewrite reverse_app.
  by destruct (sgn && (xx <? 0)).
Qed.

Lemma printint_dec upper i : - 2 ^ 31 < i < 2 ^ 31 -> printint upper i 10 true = Some (text i).
Proof.
  intros Hi. unfold printint. rewrite printint_buf_eq by lia. cbn [fmap option_fmap option_map andb]. rewrite reverse_involutive.
  unfold text. do 2 f_equal. replace (if i <? 0 then - i else u32 i) with (Z.abs i).
  - pose proof (numeral_digits 11 10 (Z.abs i) ltac:(lia)) as Hd. unfold ascii_digits. revert Hd. generalize (numeral 11 10 (Z.abs i)).
    induction l as [|d l IH]; intros Hd; [done|]. apply Forall_cons in Hd as [Hd Hds]. cbn. rewrite (IH Hds).
    f_equal. unfold digit. destruct (Z.ltb_spec d 10); lia.
  - destruct (Z.ltb_spec i 0); [lia|]. rewrite u32_small; lia.
Qed.

Lemma ascii_is_bytes l : Forall (fun d => 0 <= d < 10) l -> is_bytes (ascii_digits l).
Proof. intros H. apply Forall_fmap. eapply Forall_impl; [exact H|]. cbn. lia. Qed.

Lemma text_is_bytes i : is_bytes (text i).
Proof.
  apply Forall_app. split; [destruct (i <? 0); repeat constructor; lia|].
  apply ascii_is_bytes, numeral_digits. lia.
Qed.

(** Numbers survive being written out.  For every int but the least, itoa
    writes the decimal text of the number and a NUL at the place it is given and
    nothing anywhere else; printint, in the kernel and in user programs, prints
    the same text; and atoi reads a number that is not negative back. *)
Theorem number_roundtrip m i s upper : - 2 ^ 31 < i < 2 ^ 31 ->
  exists m', itoa m i s = Some m' /\
    load_bytes m' s (length (text i)) = text i /\ load8 m' (s + Z.of_nat (length (text i))) = 0 /\
    (forall a, a < s \/ s + Z.of_nat (length (text i)) < a -> load8 m' a = load8 m a) /\
    printint upper i 10 true = Some (text i) /\
    (0 <= i -> atoi 12 m' s = Some i).
Proof.
  intros Hi. destruct (itoa_eq m i s Hi) as (m' & E & Hm'). exists m'. split; [done|].
  destruct (stored_string m' m s (text i) Hm' (text_is_bytes i)) as (Hl & H0 & Hout).
  split_and!; [done|done|done|by apply printint_dec|].
  intros Hp. pose proof (numeral_value 11 10 i ltac:(lia) ltac:(lia)) as Hv.
  pose proof (numeral_digits 11 10 i ltac:(lia)) as Hd.
  assert (text i = ascii_digits (numeral 11 10 i)) as Et by (unfold text; destruct (Z.ltb_spec i 0); [lia|]; by rewrite Z.abs_eq).
  rewrite Et in Hl, H0. unfold ascii_digits in Hl at 1, H0. rewrite length_fmap in Hl, H0.
  unfold atoi. rewrite (atoi_eq 12 m' s (numeral 11 10 i) 0); [by f_equal|done|done| | |lia|].
  - rewrite H0. lia.
  - pose proof (numeral_length 11 10 i 11 ltac:(lia) ltac:(lia) ltac:(lia)). lia.
  - unfold value in Hv. lia.
Qed.

(** printint never overruns its buffer of 16 characters, for any int, in
    either base, with or without a sign; and the buffer, read from its end, is
    the sign and the numeral of the number (of the number as an unsigned word
    when it is printed without a sign). *)
Theorem printint_fits upper xx base sgn : base = 10 \/ base = 16 -> - 2 ^ 31 <= xx < 2 ^ 31 ->
  exists buf l, printint_buf upper xx base sgn = Some buf /\ (length buf <= 16)%nat /\
    reverse buf = (if sgn && (xx <? 0) then [45] else []) ++ (digit upper <$> l) /\
    Forall (fun d => 0 <= d < base) l /\ value base l = if sgn then Z.abs xx else u32 xx.
Proof.
  intros Hb Hx. rewrite printint_buf_eq by lia. set (x := if sgn && (xx <? 0) then - xx else u32 xx).
  assert (0 <= u32 xx < 2 ^ 32) by apply u32_range.
  assert (0 <= x < 2 ^ 32 /\ x = if sgn then Z.abs xx else u32 xx) as [Hr Hx'].
  { subst x. destruct sgn; cbn; [|done]. destruct (Z.ltb_spec xx 0); [lia|]. rewrite u32_small; lia. }
  assert (10 ^ 11 <= base ^ Z.of_nat 11) by (apply Z.pow_le_mono_l; lia).
  eexists _, (numeral 11 base x). split; [done|]. split_and!.
  - rewrite length_reverse, length_app, length_fmap.
    pose proof (numeral_length 11 base x 11 ltac:(lia) ltac:(lia) ltac:(lia)). destruct (sgn && _); cbn [length]; lia.
  - by rewrite reverse_involutive.
  - apply numeral_digits. lia.
  - rewrite <- Hx'. apply numeral_value; lia.
Qed.

(** ** Formats

    A format made of pieces, the arguments it takes, and what it is to print. *)
Inductive piece :=
| Text (l : list Z) | Dec (i : Z) | Hex (w : Z) | Str (a : Z) (l : list Z) | Chr (c : Z) | Percent.

Definition piece_format (p : piece) : list Z :=
  match p with
  | Text l => l | Dec _ => [percent; 100] | Hex _ => [percent; 120] | Str _ _ => [percent; 115]
  | Chr _ => [percent; 99] | Percent => [percent; percent]
  end.

Definition piece_args (p : piece) : list Z :=
  match p with
  | Dec i => [u32 i] | Hex w => [w] | Str a _ => [a] | Chr c => [c] | Text _ | Percent => []
  end.

Definition piece_out (upper : bool) (p : piece) : list Z :=
  match p with
  | Text l => l | Dec i => text i | Hex w => digit upper <$> numeral 11 16 w
  | Str a l => if a =? 0 then null_string else l
  | Chr c => [c] | Percent => [percent]
  end.

(** A string of [m] at [a], a number in its range, a text without directives. *)
Definition piece_ok (fuel : nat) (m : mem) (p : piece) : Prop :=
  match p with
  | Text l => percent ∉ l
  | Dec i => - 2 ^ 31 < i < 2 ^ 31
  | Hex w => 0 <= w < 2 ^ 32
  | Str a l => a <> 0 -> load_bytes m a (length l) = l /\ (0 ∉ l) /\ load8 m (a + Z.of_nat (length l)) = 0 /\
                 (length l < fuel)%nat
  | Chr c => 0 <= c < 256
  | Percent => True
  end.

Definition is_chr (p : piece) : bool := match p with Chr _ => true | _ => false end.

Lemma string_at_eq fuel m a l : load_bytes m a (length l) = l -> (0 ∉ l) ->
  load8 m (a + Z.of_nat (length l)) = 0 -> (length l < fuel)%nat -> string_at fuel m a = Some l.
Proof.
  revert fuel a. induction l as [|c l IH]; intros fuel a Hl H0 He Hf; (destruct fuel as [|fuel]; [cbn in Hf; lia|]).
  - cbn in *. rewrite Z.add_0_r in He. by rewrite He.
  - cbn in Hl. injection Hl as H1 Hl. apply not_elem_of_cons in H0 as [Hc H0]. cbn [string_at]. rewrite H1.
    destruct (Z.eqb_spec c 0); [congruence|]. rewrite (IH fuel (a + 1)); [done|done|done| |cbn in Hf; lia].
    cbn [length] in He. by replace (a + 1 + Z.of_nat (length l)) with (a + Z.of_nat (S (length l))) by lia.
Qed.

(** strcmp gives 0 for equal strings and only for them, strlen the length of a string. *)
Lemma ustrcmp_spec fuel m : forall p q l l', string_at fuel m p = Some l -> string_at fuel m q = Some l' ->
  exists d, ustrcmp fuel m p q = Some d /\ (d = 0 <-> l = l').
Proof.
  induction fuel as [|fuel IH]; intros p q l l' Hp Hq; [done|]. cbn [string_at ustrcmp] in *.
  destruct (Z.eqb_spec (load8 m p) 0) as [Ep|Ep]; cbn [negb andb].
  - eexists. split; [done|]. injection Hp as <-. destruct (Z.eqb_spec (load8 m q) 0) as [Eq|Eq]; [injection Hq as <-; split; [done|lia]|].
    destruct (string_at fuel m (q + 1)); [|done]. injection Hq as <-. split; [lia|done].
  - destruct (string_at fuel m (p + 1)) as [l1|] eqn:E1; [|done]. injection Hp as <-.
    destruct (Z.eqb_spec (load8 m p) (load8 m q)) as [Ex|Ex].
    + rewrite <- Ex in Hq. apply Z.eqb_neq in Ep. rewrite Ep in Hq. destruct (string_at fuel m (q + 1)) as [l2|] eqn:E2; [|done]. injection Hq as <-.
      destruct (IH _ _ _ _ E1 E2) as (d & -> & Hd). exists d. split; [done|]. rewrite Hd. split; [by intros ->|by intros [= ->]].
    + eexists. split; [done|]. split; [lia|]. intros <-. destruct (Z.eqb_spec (load8 m q) 0); [done|].
      destruct (string_at fuel m (q + 1)); [|done]. injection Hq as Hq _. congruence.
Qed.

Lemma ustrlen_spec fuel m : forall s n l, string_at fuel m (s + n) = Some l -> ustrlen_loop fuel m s n = Some (n + Z.of_nat (length l)).
Proof.
  induction fuel as [|fuel IH]; intros s n l H; [done|]. cbn [string_at ustrlen_loop] in *. destruct (load8 m (s + n) =? 0); cbn [negb].
  - injection H as <-. cbn. f_equal. lia.
  - rewrite <- Z.add_assoc in H. destruct (string_at fuel m (s + (n + 1))) as [l1|] eqn:E; [|done]. injection H as <-.
    rewrite (IH _ _ _ E). f_equal. cbn [length]. lia.
Qed.

Lemma i32_u32 i : - 2 ^ 31 <= i < 2 ^ 31 -> i32 (u32 i) = i.
Proof. intros H. unfold i32, u32. dlia. Qed.

Lemma u32_i32 w : 0 <= w < 2 ^ 32 -> u32 (i32 w) = w.
Proof. intros H. unfold i32, u32. dlia. Qed.

(** The character after the [%] of a piece prints the piece. *)
Lemma directive_eq user fuel m p ap : piece_ok fuel m p -> (user = false -> is_chr p = false) ->
  match p with
  | Text _ => True
  | _ => directive user fuel m (default 0 (piece_format p !! 1%nat)) (piece_args p ++ ap) = Some (piece_out user p, ap)
  end.
Proof.
  intros Hp Hu. destruct p as [l|i|w|a l|c|]; [done| | | | |by destruct user].
  - cbn [piece_ok] in Hp. change (directive user fuel m 100 (u32 i :: ap) = Some (text i, ap)).
    unfold directive. cbn [Z.eqb Pos.eqb].
    by rewrite i32_u32, printint_dec by lia.
  - cbn [piece_ok] in Hp. change (directive user fuel m 120 (w :: ap) = Some (piece_out user (Hex w), ap)).
    unfold directive. cbn [Z.eqb Pos.eqb orb].
    unfold printint. rewrite printint_buf_eq by (lia || (unfold i32; dlia)). cbn [andb fmap option_fmap option_map].
    by rewrite reverse_involutive, u32_i32 by done.
  - cbn in Hp |- *. destruct (Z.eqb_spec a 0); [done|]. destruct Hp as (H1 & H2 & H3 & H4); [done|].
    by rewrite (string_at_eq fuel m a l).
  - destruct user; [|by specialize (Hu eq_refl)]. cbn in Hp |- *. by rewrite Z.mod_small.
Qed.

Lemma printf_text fuel m l fmt ap : (percent ∉ l) ->
  printf_loop fuel m (l ++ fmt) false ap = app l <$> printf_loop fuel m fmt false ap.
Proof.
  induction l as [|c l IH]; intros Hl; cbn [app printf_loop].
  - by destruct (printf_loop fuel m fmt false ap).
  - apply not_elem_of_cons in Hl as [Hc Hl]. destruct (Z.eqb_spec c percent); [congruence|].
    rewrite IH by done. by destruct (printf_loop fuel m fmt false ap).
Qed.

Lemma cprintf_text fuel m l fmt ap : (percent ∉ l) ->
  cprintf_loop fuel m (l ++ fmt) ap = app l <$> cprintf_loop fuel m fmt ap.
Proof.
  induction l as [|c l IH]; intros Hl; cbn [app cprintf_loop].
  - by destruct (cprintf_loop fuel m fmt ap).
  - apply not_elem_of_cons in Hl as [Hc Hl]. destruct (Z.eqb_spec c percent); [congruence|].
    cbn [negb]. rewrite IH by done. by destruct (cprintf_loop fuel m fmt ap).
Qed.

(** C36. printf and cprintf print what their formats say: for any sequence of
    texts, decimal and hexadecimal numbers, strings (or null pointers),
    characters and per cent signs, the format made of their directives, given
    their values as arguments, prints them one after the other.  (cprintf has no
    directive for characters, and its hexadecimal digits are lower case.) *)
Theorem printf_prints_pieces fuel m ps : Forall (piece_ok fuel m) ps ->
  printf fuel m (concat (piece_format <$> ps)) (concat (piece_args <$> ps)) =
    Some (concat (piece_out true <$> ps)) /\
  (Forall (fun p => is_chr p = false) ps ->
   cprintf fuel m (concat (piece_format <$> ps)) (concat (piece_args <$> ps)) =
    Some (concat (piece_out false <$> ps))).
Proof.
  unfold printf, cprintf. induction ps as [|p ps IH]; intros Hok; [done|].
  apply Forall_cons in Hok as [Hp Hps]. specialize (IH Hps) as [IHu IHk].
  pose proof (directive_eq true fuel m p (concat (piece_args <$> ps)) Hp ltac:(done)) as Hu.
  cbn [fmap list_fmap concat]. split.
  - destruct p as [l|i|w|a l|c|]; cbn [piece_format piece_args app] in *; [by rewrite printf_text, IHu|..];
      cbn [printf_loop Z.eqb Pos.eqb percent]; cbn [lookup list_lookup default from_option id percent] in Hu;
      rewrite Hu; by rewrite IHu.
  - intros [Hc Hcs]%Forall_cons. specialize (IHk Hcs).
    pose proof (directive_eq false fuel m p (concat (piece_args <$> ps)) Hp ltac:(done)) as Hk.
    destruct p as [l|i|w|a l|c|]; cbn [piece_format piece_args app] in *; [by rewrite cprintf_text, IHk|..];
      cbn [cprintf_loop Z.eqb Pos.eqb percent negb]; cbn [lookup list_lookup default from_option id percent] in Hk;
      rewrite Hk; by rewrite IHk.
Qed.

Module PrintfWitness.

Lemma number_roundtrip_witness :
  exists m', itoa ∅ 4096 7 = Some m' /\ load_bytes m' 7 4 = [52; 48; 57; 54] /\ atoi 12 m' 7 = Some 4096.
Proof.
  destruct (number_roundtrip ∅ 4096 7 true) as (m' & H1 & H2 & _ & _ & _ & H3); [lia|].
  exists m'. split; [exact H1|]. split; [exact H2|]. apply H3. lia.
Defined.

Lemma printint_fits_witness :
  exists buf, printint_buf false (- 2 ^ 31) 10 true = Some buf /\ (length buf <= 16)%nat.
Proof.
  destruct (printint_fits false (- 2 ^ 31) 10 true) as (buf & l & H1 & H2 & _); [by left|lia|].
  exists buf. by split.
Defined.

(** printf("%d%%: %s", -7, 0) prints "-7%: (null)". *)
Lemma printf_prints_pieces_witness :
  printf 1 ∅ [37; 100; 37; 37; 58; 32; 37; 115] [2 ^ 32 - 7; 0] =
  Some [45; 55; 37; 58; 32; 40; 110; 117; 108; 108; 41].
Proof.
  refine (proj1 (printf_prints_pieces 1 ∅ [Dec (-7); Percent; Text [58; 32]; Str 0 []] _)).
  apply Forall_cons; split; [cbn; lia|]. apply Forall_cons; split; [exact I|].
  apply Forall_cons; split.
  - intros H. repeat (apply elem_of_cons in H as [H|H]; [discriminate H|]). inversion H.
  - apply Forall_singleton. intros H. by destruct H.
Defined.

End PrintfWitness.
