(* ===== verification/State.v ===== *)
(** The state of the kernel: the structures of src/src/proc.h,
    src/src/VirtualMemory.h, src/src/SharedMemory.h and src/src/kalloc.c.

    - Physical memory is one byte map ([k_phys]): page tables, user pages and
      shared pages live in it, and so do the links of the free list.
    - The tables of VirtualMemory.h are built in pages taken from [kalloc] and
      never given back; their structures are kept in typed stores keyed by
      their address ([k_mte], [k_mtp], [k_ste], [k_stp]).
    - Pointers into the static array of processes are indices.
    - The file system is a parameter [F] of the state; what the virtual memory
      code needs of it is the class [FileSys] of Vm.v. *)

From stdpp Require Import base gmap list strings.
From Stdlib Require Import ZArith Lia.
From S2P Require Import Prelude Mem Str Mmu.

(** ** VirtualMemory.h *)
Definition MEMORY_TABLE_ENTRY_NUM : Z := 340.
Definition MEMORY_TABLE_LENGTH : Z := 25.
Definition MEMORY_TABLE_TOTAL_ENTRYS : Z := MEMORY_TABLE_ENTRY_NUM * MEMORY_TABLE_LENGTH.
Definition SWAP_TABLE_ENTRY_NUM : Z := 1022.
Definition SWAP_TABLE_PAGE_OFFSET : Z := SWAP_TABLE_ENTRY_NUM * PGSIZE.
Definition SWAP_FILE_SIZE : Z := 65536.
Definition SWAP_FILE_MAX_NUM : Z := 6.
Definition SWAP_BUFFER_SIZE : Z := PGSIZE / 4.

Record MemoryTableEntry := {
  e_VirtualAddress : Z;
  e_Next : Z;
  e_Last : Z
}.

(** The two link fields of MemoryTablePage and SwapTablePage; their EntryList
    is kept entry by entry in [k_mte] and [k_ste]. *)
Record TablePage := {
  t_Last : Z;
  t_Next : Z
}.

(** [&(page->EntryList[i])] for the two page types: after two 4-byte links, 12
    bytes per memory-table entry and 4 per swap-table entry. *)
Definition mte_addr (page i : Z) : Z := page + 8 + 12 * i.
Definition ste_addr (page i : Z) : Z := page + 8 + 4 * i.

(** ** SharedMemory.h *)
Definition SHARED_MEMORY_PER_PROC : Z := 8.
Definition SHARED_MEMORY_GLOBAL : Z := 256.

Record SharedMemoryEntry := {
  s_VirtualAddress : Z;
  s_Signature : Z;
  s_UserNumber : Z
}.

(** ** kalloc.c *)
Record kmem := {
  km_lock : bool;
  km_use_lock : bool;
  km_freelist : Z;
  km_PhisicalPageRefCount : gmap Z Z;
  km_PhysicalPageTotal : Z
}.

(** ** x86.h, proc.h *)
Record trapframe := {
  tf_edi : Z; tf_esi : Z; tf_ebp : Z; tf_oesp : Z;
  tf_ebx : Z; tf_edx : Z; tf_ecx : Z; tf_eax : Z;
  tf_gs : Z; tf_fs : Z; tf_es : Z; tf_ds : Z;
  tf_trapno : Z; tf_err : Z; tf_eip : Z; tf_cs : Z; tf_eflags : Z;
  tf_esp : Z; tf_ss : Z
}.

Inductive procstate := UNUSED | EMBRYO | SLEEPING | RUNNABLE | RUNNING | ZOMBIE.

#[global] Instance procstate_eq_dec : EqDecision procstate.
Proof. solve_decision. Defined.

Record proc := {
  p_sz : Z;
  p_pgdir : Z;
  p_kstack : Z;
  p_state : procstate;
  p_pid : Z;
  p_parent : option nat;
  p_tf : trapframe;
  p_chan : Z;
  p_killed : bool;
  p_ofile : list (option nat);
  p_cwd : option nat;
  p_name : list Z;
  p_stackSize : Z;
  p_MemoryTableListHead : Z;
  p_MemoryTableListTail : Z;
  p_SwapTableListHead : Z;
  p_SwapTableListTail : Z;
  p_MemoryListHead : Z;
  p_MemoryListTail : Z;
  p_MemoryEntryNum : Z;
  p_SwapPageNum : Z;
  p_FilesForSwap : list (option nat);
  p_SelfSharedMemory : list Z
}.

(** ** The whole kernel *)
Record kst (F : Type) := {
  k_phys : mem;
  k_mem : kmem;
  k_mte : gmap Z MemoryTableEntry;
  k_mtp : gmap Z TablePage;
  k_ste : gmap Z Z;
  k_stp : gmap Z TablePage;
  k_ptable_lock : bool;
  k_ptable : list proc;
  k_nextpid : Z;
  k_initproc : option nat;
  k_curproc : option nat;
  k_cr3 : Z;
  k_ts_esp0 : Z;
  k_SharedMemoryLock : bool;
  k_GlobalSharedMemoryList : list SharedMemoryEntry;
  k_fs : F
}.
Arguments k_phys {F} _. Arguments k_mem {F} _. Arguments k_mte {F} _.
Arguments k_mtp {F} _. Arguments k_ste {F} _. Arguments k_stp {F} _.
Arguments k_ptable_lock {F} _. Arguments k_ptable {F} _. Arguments k_nextpid {F} _.
Arguments k_initproc {F} _. Arguments k_curproc {F} _. Arguments k_cr3 {F} _.
Arguments k_ts_esp0 {F} _.
Arguments k_SharedMemoryLock {F} _. Arguments k_GlobalSharedMemoryList {F} _.
Arguments k_fs {F} _.

#[global] Instance eta_mte : Eta MemoryTableEntry := fun e =>
  {| e_VirtualAddress := e_VirtualAddress e; e_Next := e_Next e; e_Last := e_Last e |}.
#[global] Instance eta_tablepage : Eta TablePage := fun e =>
  {| t_Last := t_Last e; t_Next := t_Next e |}.
#[global] Instance eta_shm : Eta SharedMemoryEntry := fun e =>
  {| s_VirtualAddress := s_VirtualAddress e; s_Signature := s_Signature e;
     s_UserNumber := s_UserNumber e |}.
#[global] Instance eta_kmem : Eta kmem := fun k =>
  {| km_lock := km_lock k; km_use_lock := km_use_lock k; km_freelist := km_freelist k;
     km_PhisicalPageRefCount := km_PhisicalPageRefCount k;
     km_PhysicalPageTotal := km_PhysicalPageTotal k |}.
#[global] Instance eta_trapframe : Eta trapframe := fun t =>
  {| tf_edi := tf_edi t; tf_esi := tf_esi t; tf_ebp := tf_ebp t; tf_oesp := tf_oesp t;
     tf_ebx := tf_ebx t; tf_edx := tf_edx t; tf_ecx := tf_ecx t; tf_eax := tf_eax t;
     tf_gs := tf_gs t; tf_fs := tf_fs t; tf_es := tf_es t; tf_ds := tf_ds t;
     tf_trapno := tf_trapno t; tf_err := tf_err t; tf_eip := tf_eip t; tf_cs := tf_cs t;
     tf_eflags := tf_eflags t; tf_esp := tf_esp t; tf_ss := tf_ss t |}.
#[global] Instance eta_proc : Eta proc := fun p =>
  {| p_sz := p_sz p; p_pgdir := p_pgdir p; p_kstack := p_kstack p; p_state := p_state p;
     p_pid := p_pid p; p_parent := p_parent p; p_tf := p_tf p; p_chan := p_chan p;
     p_killed := p_killed p; p_ofile := p_ofile p; p_cwd := p_cwd p; p_name := p_name p;
     p_stackSize := p_stackSize p;
     p_MemoryTableListHead := p_MemoryTableListHead p;
     p_MemoryTableListTail := p_MemoryTableListTail p;
     p_SwapTableListHead := p_SwapTableListHead p;
     p_SwapTableListTail := p_SwapTableListTail p;
     p_MemoryListHead := p_MemoryListHead p; p_MemoryListTail := p_MemoryListTail p;
     p_MemoryEntryNum := p_MemoryEntryNum p; p_SwapPageNum := p_SwapPageNum p;
     p_FilesForSwap := p_FilesForSwap p; p_SelfSharedMemory := p_SelfSharedMemory p |}.
#[global] Instance eta_kst F : Eta (kst F) := fun s =>
  {| k_phys := k_phys s; k_mem := k_mem s; k_mte := k_mte s; k_mtp := k_mtp s;
     k_ste := k_ste s; k_stp := k_stp s; k_ptable_lock := k_ptable_lock s;
     k_ptable := k_ptable s; k_nextpid := k_nextpid s; k_initproc := k_initproc s;
     k_curproc := k_curproc s; k_cr3 := k_cr3 s; k_ts_esp0 := k_ts_esp0 s;
     k_SharedMemoryLock := k_SharedMemoryLock s;
     k_GlobalSharedMemoryList := k_GlobalSharedMemoryList s; k_fs := k_fs s |}.

(** The symbols [data] and [end] of the linker script kernel.ld: the first page
    of kernel data and the first address after the kernel. *)
Class KernelImage := {
  kdata : Z;
  kend : Z;
  kdata_aligned : kdata mod 4096 = 0;
  kimage_order : KERNLINK < kdata <= kend;
  kimage_fits : kend <= KERNBASE + 4 * 1024 * 1024
}.

(** ** Locks, processes

    A spin lock is the flag "held by this processor": [acquire] panics when it
    is already held, [release] when it is not. *)
Definition acquire {S} (locked : S -> bool) (set : bool -> S -> S) : M S unit := fun s =>
  if locked s then Panic "acquire" else Ret tt (set true s).

Definition release {S} (locked : S -> bool) (set : bool -> S -> S) : M S unit := fun s =>
  if locked s then Ret tt (set false s) else Panic "release".

(** Reading and writing the process at an index of the table. *)
Definition get_proc {F} (i : nat) : M (kst F) proc := fun s =>
  match k_ptable s !! i with
  | Some p => Ret p s
  | None => Crash "process index"
  end.

Definition upd_proc {F} (i : nat) (g : proc -> proc) : M (kst F) unit := fun s =>
  match k_ptable s !! i with
  | Some p => Ret tt (s <| k_ptable := <[i := g p]> (k_ptable s) |>)
  | None => Crash "process index"
  end.

(** [myproc()] where the code dereferences the result. *)
Definition myproc {F} : M (kst F) nat := fun s =>
  match k_curproc s with
  | Some i => Ret i s
  | None => Crash "myproc() is null"
  end.

Definition lcr3 {F} (v : Z) : M (kst F) unit := modify (fun s => s <| k_cr3 := v |>).

(** ** The state at boot

    Static data starts zeroed: an empty free list, unused processes, no shared
    memory.  [boot_image] is a kernel image of a plausible size. *)
Definition tf0 : trapframe :=
  {| tf_edi := 0; tf_esi := 0; tf_ebp := 0; tf_oesp := 0; tf_ebx := 0; tf_edx := 0;
     tf_ecx := 0; tf_eax := 0; tf_gs := 0; tf_fs := 0; tf_es := 0; tf_ds := 0;
     tf_trapno := 0; tf_err := 0; tf_eip := 0; tf_cs := 0; tf_eflags := 0;
     tf_esp := 0; tf_ss := 0 |}.

Definition proc0 : proc :=
  {| p_sz := 0; p_pgdir := 0; p_kstack := 0; p_state := UNUSED; p_pid := 0;
     p_parent := None; p_tf := tf0; p_chan := 0; p_killed := false;
     p_ofile := replicate 16 None; p_cwd := None; p_name := replicate 16 0;
     p_stackSize := 0; p_MemoryTableListHead := 0; p_MemoryTableListTail := 0;
     p_SwapTableListHead := 0; p_SwapTableListTail := 0; p_MemoryListHead := 0;
     p_MemoryListTail := 0; p_MemoryEntryNum := 0; p_SwapPageNum := 0;
     p_FilesForSwap := replicate 6 None; p_SelfSharedMemory := replicate 8 0 |}.

Definition boot {F} (fs : F) : kst F :=
  {| k_phys := ∅;
     k_mem := {| km_lock := false; km_use_lock := false; km_freelist := 0;
                 km_PhisicalPageRefCount := ∅; km_PhysicalPageTotal := 0 |};
     k_mte := ∅; k_mtp := ∅; k_ste := ∅; k_stp := ∅;
     k_ptable_lock := false; k_ptable := replicate 64 proc0; k_nextpid := 1;
     k_initproc := None; k_curproc := None; k_cr3 := 0; k_ts_esp0 := 0;
     k_SharedMemoryLock := false;
     k_GlobalSharedMemoryList :=
       replicate 256 {| s_VirtualAddress := 0; s_Signature := 0; s_UserNumber := 0 |};
     k_fs := fs |}.

Definition boot_image : KernelImage.
Proof.
  refine {| kdata := 0x80108000; kend := 0x8010A000 |}; [done|klia|klia].
Defined.
