(* ===== verification/Kalloc.v ===== *)
(** The physical page allocator, src/src/kalloc.c.

    Free pages form a list linked through their own first word.  Each page has
    a reference count for copy-on-write.  The invariant [kmem_inv s l] says that
    the list in memory is the list [l] of distinct, aligned pages between the
    end of the kernel and the top of memory, all with count zero. *)

From stdpp Require Import base gmap list strings.
From Stdlib Require Import ZArith Lia.
From S2P Require Import Prelude Mem Str Mmu State.

Section Kalloc.
Context {F : Type} {KI : KernelImage}.
Implicit Types s : kst F.

(** ** Operations *)

Definition kmem_acquire : M (kst F) unit :=
  acquire (fun s => km_lock (k_mem s)) (fun b s => s <| k_mem ::= fun k => k <| km_lock := b |> |>).

Definition kmem_release : M (kst F) unit :=
  release (fun s => km_lock (k_mem s)) (fun b s => s <| k_mem ::= fun k => k <| km_lock := b |> |>).

(** [kmem.PhisicalPageRefCount[idx]], an array of PHYSTOP >> PGSHIFT counts. *)
Definition rc_in_range (idx : Z) : bool :=
  (0 <=? idx) && (idx <? Z.shiftr PHYSTOP PGSHIFT).

Definition rc_get (idx : Z) : M (kst F) Z := fun s =>
  if rc_in_range idx
  then Ret (default 0 (km_PhisicalPageRefCount (k_mem s) !! idx)) s
  else Crash "PhisicalPageRefCount".

Definition rc_set (idx v : Z) : M (kst F) unit := fun s =>
  if rc_in_range idx
  then Ret tt (s <| k_mem ::= fun k =>
         k <| km_PhisicalPageRefCount := <[idx := v]> (km_PhisicalPageRefCount k) |> |>)
  else Crash "PhisicalPageRefCount".

Definition physicalAddrInvalid (physicalAddr : Z) : bool :=
  (physicalAddr <? V2P kend) || (PHYSTOP <=? physicalAddr).

Definition kfree (v : Z) : M (kst F) unit :=
  let physicalAddr := V2P v in
  let physicalPageIdx := Z.shiftr physicalAddr PGSHIFT in
  let addrNoAlignToPage := negb (physicalAddr mod PGSIZE =? 0) in
  let addrInvalid := physicalAddrInvalid physicalAddr in
  if addrNoAlignToPage || addrInvalid then panic "kfree"
  else
    use_lock <- gets (fun s => km_use_lock (k_mem s)) ;;
    when use_lock kmem_acquire ;;;
    count <- rc_get physicalPageIdx ;;
    (if 0 <? count then rc_set physicalPageIdx (count - 1)
     else
       when (count =? 0)
         (modify (fun s =>
            let m := memset (k_phys s) (V2P v) 1 PGSIZE in
            let m := store32 m (V2P v) (km_freelist (k_mem s)) in
            s <| k_phys := m |>
              <| k_mem ::= fun k =>
                   k <| km_freelist := v |>
                     <| km_PhysicalPageTotal ::= fun n => n - 1 |> |>))) ;;;
    use_lock <- gets (fun s => km_use_lock (k_mem s)) ;;
    when use_lock kmem_release.

Definition kalloc : M (kst F) Z :=
  use_lock <- gets (fun s => km_use_lock (k_mem s)) ;;
  when use_lock kmem_acquire ;;;
  r <- gets (fun s => km_freelist (k_mem s)) ;;
  when (negb (r =? 0))
    (modify (fun s =>
       s <| k_mem ::= fun k => k <| km_freelist := load32 (k_phys s) (V2P r) |> |>) ;;;
     rc_set (Z.shiftr (V2P r) PGSHIFT) 1 ;;;
     modify (fun s => s <| k_mem ::= fun k => k <| km_PhysicalPageTotal ::= fun n => n + 1 |> |>)) ;;;
  use_lock <- gets (fun s => km_use_lock (k_mem s)) ;;
  when use_lock kmem_release ;;;
  ret r.

Definition getPhysicalPageRefCount (physicalAddr : Z) : M (kst F) Z :=
  if physicalAddrInvalid physicalAddr
  then panic "physicalAddr overflow in getPhysicalRefCount"
  else
    kmem_acquire ;;;
    count <- rc_get (Z.shiftr physicalAddr PGSHIFT) ;;
    kmem_release ;;;
    ret count.

Definition modifyPhysicalPageRefCount (physicalAddr delta : Z) : M (kst F) unit :=
  if physicalAddrInvalid physicalAddr
  then panic "physicalAddr overflow in _modifyPhysicalPageRefCount"
  else
    kmem_acquire ;;;
    (let physicalPageIdx := Z.shiftr physicalAddr PGSHIFT in
     count <- rc_get physicalPageIdx ;;
     rc_set physicalPageIdx (u32 (count + delta))) ;;;
    kmem_release.

Definition increasePhysicalPageRefCountByOne (physicalAddr : Z) : M (kst F) unit :=
  modifyPhysicalPageRefCount physicalAddr 1.

Definition decreasePhysicalPageRefCountByOne (physicalAddr : Z) : M (kst F) unit :=
  modifyPhysicalPageRefCount physicalAddr (u32 (-1)).

Definition GetPhysicalPageTotal : M (kst F) Z :=
  gets (fun s => km_PhysicalPageTotal (k_mem s)).

(** The loop of [freerange]; [fuel] bounds its iterations. *)
Fixpoint freerange_loop (fuel : nat) (p vend : Z) : M (kst F) unit :=
  if p + PGSIZE <=? vend then
    match fuel with
    | O => no_fuel
    | S fuel =>
        rc_set (Z.shiftr (V2P p) PGSHIFT) 0 ;;;
        kfree p ;;;
        freerange_loop fuel (p + PGSIZE) vend
    end
  else ret tt.

Definition freerange (vstart vend : Z) : M (kst F) unit :=
  freerange_loop (Z.to_nat (vend / PGSIZE)) (PGROUNDUP vstart) vend.

Definition kinit1 (vstart vend : Z) : M (kst F) unit :=
  modify (fun s => s <| k_mem ::= fun k => k <| km_lock := false |> |>) ;;;
  modify (fun s => s <| k_mem ::= fun k => k <| km_use_lock := false |> |>) ;;;
  freerange vstart vend.

Definition kinit2 (vstart vend : Z) : M (kst F) unit :=
  freerange vstart vend ;;;
  modify (fun s => s <| k_mem ::= fun k =>
    k <| km_use_lock := true |> <| km_PhysicalPageTotal := 0 |> |>).

(** ** The free list in memory *)

Fixpoint flist (m : mem) (head : Z) (l : list Z) : Prop :=
  match l with
  | [] => head = 0
  | p :: l => head = p /\ flist m (load32 m (V2P p)) l
  end.

(** A page the allocator may manage, by its kernel address. *)
Definition kpage (p : Z) : Prop :=
  p mod 4096 = 0 /\ V2P kend <= V2P p < PHYSTOP /\ KERNBASE <= p < 2 ^ 32.

(** The reference count of the page at kernel address [p]. *)
Definition refcount (s : kst F) (p : Z) : Z :=
  default 0 (km_PhisicalPageRefCount (k_mem s) !! Z.shiftr (V2P p) PGSHIFT).

Record kmem_inv (s : kst F) (l : list Z) : Prop := {
  ki_list : flist (k_phys s) (km_freelist (k_mem s)) l;
  ki_nodup : NoDup l;
  ki_pages : Forall kpage l;
  ki_count : Forall (fun p => refcount s p = 0) l;
  ki_lock : km_lock (k_mem s) = false
}.


(** ** Pages and counts *)

Lemma V2P_kpage p : kpage p -> V2P p = p - KERNBASE.
Proof. intros (_ & _ & H). by apply V2P_kernel. Qed.

Lemma kend_range : V2P kend = kend - KERNBASE /\ 0 < V2P kend <= 4194304.
Proof.
  pose proof kimage_order. pose proof kimage_fits.
  rewrite V2P_kernel by klia. klia.
Qed.

Lemma kpage_V2P_range p : kpage p -> 0 < V2P p /\ V2P p + 4096 <= PHYSTOP /\ V2P p mod 4096 = 0.
Proof.
  intros Hp. pose proof (V2P_kpage p Hp) as E. destruct kend_range as [_ Hk].
  destruct Hp as (Ha & Hr & Hb). rewrite E in *. kdlia.
Qed.

Lemma kpage_nonzero p : kpage p -> p <> 0.
Proof. intros (_ & _ & H) ->. klia. Qed.

Lemma kpage_V2P_inj p q : kpage p -> kpage q -> V2P p = V2P q -> p = q.
Proof. intros Hp Hq. rewrite !V2P_kpage by done. lia. Qed.

(** Distinct pages do not overlap. *)
Lemma kpage_disjoint p q :
  kpage p -> kpage q -> p <> q -> V2P p + 4096 <= V2P q \/ V2P q + 4096 <= V2P p.
Proof.
  intros Hp Hq Hne. pose proof (kpage_V2P_range p Hp). pose proof (kpage_V2P_range q Hq).
  assert (V2P p <> V2P q) by (intros E; by apply Hne, kpage_V2P_inj). dlia.
Qed.

Lemma page_idx_div a : Z.shiftr a PGSHIFT = a / 4096.
Proof. unfold PGSHIFT. by rewrite Z.shiftr_div_pow2. Qed.

Lemma rc_in_range_page a : 0 <= a < PHYSTOP -> rc_in_range (Z.shiftr a PGSHIFT) = true.
Proof.
  intros. unfold rc_in_range. rewrite !page_idx_div.
  apply andb_true_intro. rewrite Z.leb_le, Z.ltb_lt. kdlia.
Qed.

Lemma rc_in_range_kpage p : kpage p -> rc_in_range (Z.shiftr (V2P p) PGSHIFT) = true.
Proof. intros Hp. apply rc_in_range_page. pose proof (kpage_V2P_range p Hp). lia. Qed.

Lemma kpage_idx_inj p q :
  kpage p -> kpage q -> Z.shiftr (V2P p) PGSHIFT = Z.shiftr (V2P q) PGSHIFT -> p = q.
Proof.
  intros Hp Hq. rewrite !page_idx_div. intros E. apply kpage_V2P_inj; [done..|].
  pose proof (kpage_V2P_range p Hp). pose proof (kpage_V2P_range q Hq). dlia.
Qed.

Lemma kpage_valid p : kpage p -> physicalAddrInvalid (V2P p) = false.
Proof.
  intros (_ & H & _). unfold physicalAddrInvalid.
  apply orb_false_intro; [apply Z.ltb_ge|apply Z.leb_gt]; lia.
Qed.

Lemma refcount_set s p q v m :
  kpage p -> kpage q ->
  refcount (s <| k_phys := m |> <| k_mem ::= fun k =>
    k <| km_PhisicalPageRefCount := <[Z.shiftr (V2P p) PGSHIFT := v]> (km_PhisicalPageRefCount k) |> |>) q
  = if decide (p = q) then v else refcount s q.
Proof.
  intros Hp Hq. unfold refcount. cbn. rewrite lookup_insert.
  case_decide as E.
  - apply kpage_idx_inj in E; [|done..]. by case_decide.
  - case_decide; [|done]. by subst.
Qed.

(** The list only depends on the first word of its pages. *)
Lemma flist_ext m m' head l :
  (forall p, p ∈ l -> load32 m' (V2P p) = load32 m (V2P p)) ->
  flist m head l -> flist m' head l.
Proof.
  revert head. induction l as [|p l IH]; intros head Heq; simpl; [done|].
  intros [-> Hl]. split; [done|]. rewrite Heq by constructor.
  apply IH; [|done]. intros q Hq. apply Heq. by constructor.
Qed.

Lemma flist_head m head l : flist m head l -> head = default 0 (l !! 0%nat).
Proof. destruct l; simpl; [done|]. by intros [-> _]. Qed.

(** Writing outside the free pages keeps the invariant. *)
(** Only physical memory and the allocator matter to it. *)
Lemma kmem_inv_rest s s' l :
  k_phys s' = k_phys s -> k_mem s' = k_mem s -> kmem_inv s l -> kmem_inv s' l.
Proof. intros E1 E2 []. constructor; unfold refcount in *; rewrite ?E1, ?E2; done. Qed.

Lemma kmem_inv_phys s l m :
  kmem_inv s l ->
  (forall p a, p ∈ l -> V2P p <= a < V2P p + 4096 -> load8 m a = load8 (k_phys s) a) ->
  kmem_inv (s <| k_phys := m |>) l.
Proof.
  intros [Hl Hnd Hp Hc Hlk] Heq. constructor; cbn; try done.
  eapply flist_ext; [|done]. intros p Hin. apply load32_ext. intros b Hb.
  apply (Heq p); [done|lia].
Qed.

(** ** What the operations do *)

(** The state after taking the page [p] from the head of the free list. *)
Definition kalloc_post (s : kst F) (p : Z) : kst F :=
  s <| k_mem ::= fun k =>
         k <| km_freelist := load32 (k_phys s) (V2P p) |>
           <| km_PhisicalPageRefCount ::= <[Z.shiftr (V2P p) PGSHIFT := 1]> |>
           <| km_PhysicalPageTotal ::= fun n => n + 1 |> |>.

(** The state after setting the count of the page [p]. *)
Definition set_refcount (s : kst F) (p v : Z) : kst F :=
  s <| k_mem ::= fun k =>
         k <| km_PhisicalPageRefCount ::= <[Z.shiftr (V2P p) PGSHIFT := v]> |> |>.

(** The state after linking the page [v] at the head of the free list. *)
Definition kfree_post (s : kst F) (v : Z) : kst F :=
  s <| k_phys := store32 (memset (k_phys s) (V2P v) 1 PGSIZE) (V2P v) (km_freelist (k_mem s)) |>
    <| k_mem ::= fun k =>
         k <| km_freelist := v |> <| km_PhysicalPageTotal ::= fun n => n - 1 |> |>.

Lemma kalloc_empty s : kmem_inv s [] -> kalloc s = Ret 0 s.
Proof.
  intros [Hl _ _ _ Hlk]. destruct s as [m [lk ul fl rc tot] ????]. cbn in Hl, Hlk. subst.
  unfold kalloc, kmem_acquire, kmem_release, acquire, release, when, gets, bind. cbn.
  by destruct ul.
Qed.

Lemma kalloc_head s p l : kmem_inv s (p :: l) -> kalloc s = Ret p (kalloc_post s p).
Proof.
  intros [Hl _ Hp _ Hlk]. apply Forall_cons in Hp as [Hp _].
  destruct s as [m [lk ul fl rc tot] ????]. destruct Hl as [Hl _]. cbn in Hl, Hlk. subst.
  pose proof (kpage_nonzero p Hp). pose proof (rc_in_range_kpage p Hp) as Hr.
  unfold kalloc, kmem_acquire, kmem_release, acquire, release, when, gets, bind, kalloc_post.
  unfold rc_set, modify, ret.
  destruct ul; cbn; (destruct (Z.eqb_spec p 0); [done|]); cbn; rewrite Hr; done.
Qed.

Lemma kalloc_post_inv s p l : kmem_inv s (p :: l) -> kmem_inv (kalloc_post s p) l.
Proof.
  intros [Hl Hnd Hp Hc Hlk]. destruct Hl as [Hf Hl].
  apply NoDup_cons in Hnd as [Hnin Hnd]. apply Forall_cons in Hp as [Hp1 Hp].
  apply Forall_cons in Hc as [_ Hc]. constructor; cbn; try done.
  apply Forall_forall. intros q Hq.
  rewrite (Forall_forall _ l) in Hc. rewrite (Forall_forall _ l) in Hp.
  unfold refcount. cbn. rewrite lookup_insert_ne; [by apply Hc|].
  intros E%kpage_idx_inj; [by subst|done|by apply Hp].
Qed.

Lemma kalloc_post_refcount s p q :
  kpage p -> kpage q ->
  refcount (kalloc_post s p) q = if decide (p = q) then 1 else refcount s q.
Proof.
  intros Hp Hq. unfold refcount, kalloc_post. cbn. rewrite lookup_insert.
  case_decide as E; case_decide; subst; try done. by apply kpage_idx_inj in E.
Qed.

Lemma set_refcount_refcount s p q v :
  kpage p -> kpage q ->
  refcount (set_refcount s p v) q = if decide (p = q) then v else refcount s q.
Proof.
  intros Hp Hq. unfold refcount, set_refcount. cbn. rewrite lookup_insert.
  case_decide as E; case_decide; subst; try done. by apply kpage_idx_inj in E.
Qed.

Lemma set_refcount_inv s l p v :
  kmem_inv s l -> kpage p -> p ∉ l -> kmem_inv (set_refcount s p v) l.
Proof.
  intros [Hl Hnd Hp Hc Hlk] Hk Hn. constructor; [exact Hl|done|done| |exact Hlk].
  apply Forall_forall. intros q Hq. rewrite (Forall_forall _ l) in Hc.
  rewrite (Forall_forall _ l) in Hp.
  rewrite set_refcount_refcount by auto. case_decide; [by subst|by apply Hc].
Qed.

Lemma kfree_shared s v :
  km_lock (k_mem s) = false -> kpage v -> 0 < refcount s v ->
  kfree v s = Ret tt (set_refcount s v (refcount s v - 1)).
Proof.
  intros Hlk Hp Hc. unfold kfree. rewrite kpage_valid by done.
  destruct (kpage_V2P_range v Hp) as (_ & _ & E). unfold PGSIZE. rewrite E. cbn [negb orb Z.eqb].
  pose proof (rc_in_range_kpage v Hp) as Hr. unfold refcount in Hc.
  destruct s as [m [lk ul fl rc tot] ????]. cbn in *. subst.
  unfold kmem_acquire, kmem_release, acquire, release, when, gets, bind, rc_get, rc_set.
  destruct ul; cbn; rewrite Hr; cbn;
    (destruct (Z.ltb_spec 0 (default 0 (rc !! Z.shiftr (V2P v) PGSHIFT))); [|lia]);
    cbn; rewrite ?Hr; done.
Qed.

Lemma kfree_last s v :
  km_lock (k_mem s) = false -> kpage v -> refcount s v = 0 ->
  kfree v s = Ret tt (kfree_post s v).
Proof.
  intros Hlk Hp Hc. unfold kfree. rewrite kpage_valid by done.
  destruct (kpage_V2P_range v Hp) as (_ & _ & E). unfold PGSIZE at 1. rewrite E. cbn [negb orb Z.eqb].
  pose proof (rc_in_range_kpage v Hp) as Hr. unfold refcount in Hc.
  destruct s as [m [lk ul fl rc tot] ????]. cbn in *. subst.
  unfold kmem_acquire, kmem_release, acquire, release, when, gets, bind, rc_get, rc_set.
  destruct ul; cbn; rewrite Hr; cbn; rewrite Hc; done.
Qed.

Lemma load8_kfree_post s v a :
  a < V2P v \/ V2P v + 4096 <= a ->
  load8 (k_phys (kfree_post s v)) a = load8 (k_phys s) a.
Proof.
  intros Ha. unfold kfree_post. cbn. rewrite load8_store32_ne by lia.
  rewrite load8_memset by klia. by case_decide; [klia|].
Qed.

Lemma freelist_word s l : kmem_inv s l -> 0 <= km_freelist (k_mem s) < 2 ^ 32.
Proof.
  intros [Hl _ Hp _ _]. destruct l as [|p l]; cbn in Hl; [lia|].
  destruct Hl as [-> _]. apply Forall_cons in Hp as [(_ & _ & H) _]. klia.
Qed.

Lemma kfree_post_inv s l v :
  kmem_inv s l -> kpage v -> v ∉ l -> refcount s v = 0 -> kmem_inv (kfree_post s v) (v :: l).
Proof.
  intros Hinv Hk Hn Hc0. pose proof (freelist_word s l Hinv) as Hw.
  destruct Hinv as [Hl Hnd Hp Hc Hlk].
  constructor; try (by constructor); [|done].
  split; [done|]. cbn. rewrite load32_store32_eq by done.
  eapply flist_ext; [|done]. intros p Hin. apply load32_ext. intros b Hb.
  rewrite Forall_forall in Hp.
  assert (v <> p) by (by intros ->).
  pose proof (kpage_disjoint v p Hk (Hp p Hin) ltac:(done)).
  apply (load8_kfree_post s v). lia.
Qed.

Lemma kfree_bad s v :
  V2P v mod PGSIZE <> 0 \/ V2P v < V2P kend \/ PHYSTOP <= V2P v -> kfree v s = Panic "kfree".
Proof.
  intros H. unfold kfree, physicalAddrInvalid.
  destruct (Z.eqb_spec (V2P v mod PGSIZE) 0), (Z.ltb_spec (V2P v) (V2P kend)),
    (Z.leb_spec PHYSTOP (V2P v)); try done. lia.
Qed.

(** ** Initialisation *)

(** The pages [p], [p + 4096], ... of [freerange]. *)
Definition pages (p : Z) (n : nat) : list Z := (fun i => p + 4096 * Z.of_nat i) <$> seq 0 n.

Lemma pages_S p n : pages p (S n) = p :: pages (p + 4096) n.
Proof.
  unfold pages. rewrite <-cons_seq, <-fmap_S_seq, fmap_cons, <-list_fmap_compose.
  f_equal; [lia|]. apply list_fmap_ext. intros. simpl. lia.
Qed.

Lemma elem_of_pages p n q :
  q ∈ pages p n <-> exists i, 0 <= i < Z.of_nat n /\ q = p + 4096 * i.
Proof.
  unfold pages. rewrite list_elem_of_fmap. split.
  - intros (i & -> & Hi). apply elem_of_seq in Hi. exists (Z.of_nat i). lia.
  - intros (i & Hi & ->). exists (Z.to_nat i). rewrite elem_of_seq. lia.
Qed.

Lemma freerange_loop_ok n : forall fuel p vend s l,
  p mod 4096 = 0 -> V2P kend <= p - KERNBASE -> vend <= KERNBASE + PHYSTOP ->
  KERNBASE <= p -> n = Z.to_nat ((vend - p) / 4096) -> (n <= fuel)%nat ->
  kmem_inv s l -> (forall q, q ∈ l -> q < p) ->
  wp (freerange_loop fuel p vend) s (fun _ s' =>
    kmem_inv s' (rev (pages p n) ++ l) /\
    (forall q, kpage q -> refcount s q = 0 -> refcount s' q = 0)).
Proof.
  induction n as [|n IH]; intros fuel p vend s l Ha Hk Hv Hb Hn Hfuel Hinv Hlt.
  - assert ((p + PGSIZE <=? vend) = false) as E by (apply Z.leb_gt; kdlia).
    destruct fuel; simpl; rewrite E; by apply wp_ret.
  - assert (p + 4096 <= vend) by dlia.
    assert ((p + PGSIZE <=? vend) = true) as E by (apply Z.leb_le; klia).
    destruct fuel as [|fuel]; [lia|]. cbn [freerange_loop]. rewrite E.
    assert (kpage p) as Hp.
    { split; [done|]. rewrite (V2P_kernel p) by klia. klia. }
    assert (p ∉ l) as Hnin by (intros Hin; specialize (Hlt p Hin); lia).
    apply wp_bind. eapply (wp_eq _ _ tt (set_refcount s p 0)).
    { unfold rc_set. by rewrite rc_in_range_kpage. }
    pose proof (set_refcount_inv s l p 0 Hinv Hp Hnin) as Hinv1.
    assert (refcount (set_refcount s p 0) p = 0) as Hc.
    { rewrite set_refcount_refcount by done. by case_decide. }
    apply wp_bind. eapply wp_eq; [apply kfree_last; [apply Hinv1|done..]|].
    pose proof (kfree_post_inv _ _ p Hinv1 Hp Hnin Hc) as Hinv2.
    eapply wp_mono; [eapply IH; try exact Hinv2; try klia|].
    + kdlia.
    + replace (vend - (p + PGSIZE)) with (vend - p + -1 * 4096) by klia.
      rewrite Z.div_add by lia. lia.
    + intros q Hq. apply elem_of_cons in Hq as [->|Hq]; [klia|]. specialize (Hlt q Hq). klia.
    + intros ? s' [Hi Ht]. rewrite pages_S. cbn [rev]. rewrite <-app_assoc.
      split; [exact Hi|]. intros q Hq Hq0. apply Ht; [done|].
      change (refcount (set_refcount s p 0) q = 0).
      rewrite set_refcount_refcount by done. by case_decide.
Qed.

Lemma freerange_ok vstart vend s l :
  kend <= vstart -> vstart <= vend -> vend <= KERNBASE + PHYSTOP ->
  kmem_inv s l -> (forall q, q ∈ l -> q < vstart) ->
  wp (freerange vstart vend) s (fun _ s' =>
    let n := Z.to_nat ((vend - PGROUNDUP vstart) / 4096) in
    kmem_inv s' (rev (pages (PGROUNDUP vstart) n) ++ l) /\
    (forall q, kpage q -> refcount s q = 0 -> refcount s' q = 0)).
Proof.
  intros Hs Hsv Hv Hinv Hlt. pose proof kimage_order. pose proof kend_range.
  pose proof (PGROUNDUP_eq vstart ltac:(klia) ltac:(klia)) as E. unfold freerange.
  assert (vstart <= PGROUNDUP vstart < vstart + 4096) by dlia.
  eapply freerange_loop_ok; [|klia|done|klia|done| |done|]; [rewrite E; apply Z.mod_mul; lia| |].
  - unfold PGSIZE. enough ((vend - PGROUNDUP vstart) / 4096 <= vend / 4096) by lia.
    apply Z.div_le_mono; klia.
  - intros q Hq. specialize (Hlt q Hq). lia.
Qed.

(** ** The allocator as an abstract counter machine

    What the allocator promises its clients: a list of free pages and a count
    per page.  A call that breaks the protocol (freeing or counting a free
    page, freeing something that is no page) has no abstract result. *)

#[global] Instance kpage_dec p : Decision (kpage p).
Proof. unfold kpage. apply _. Defined.

Record alloc_spec := { as_free : list Z; as_count : Z -> Z }.

Definition set_count (f : Z -> Z) (p v : Z) : Z -> Z :=
  fun q => if decide (p = q) then v else f q.

Inductive alloc_call :=
| CallKalloc
| CallKfree (v : Z)
| CallIncrease (v : Z)
| CallDecrease (v : Z).

Definition spec_call (c : alloc_call) (a : alloc_spec) : option (Z * alloc_spec) :=
  match c with
  | CallKalloc =>
      match as_free a with
      | [] => Some (0, a)
      | p :: l => Some (p, {| as_free := l; as_count := set_count (as_count a) p 1 |})
      end
  | CallKfree v =>
      if decide (kpage v /\ v ∉ as_free a) then
        if 0 <? as_count a v
        then Some (0, {| as_free := as_free a;
                         as_count := set_count (as_count a) v (as_count a v - 1) |})
        else Some (0, {| as_free := v :: as_free a; as_count := as_count a |})
      else None
  | CallIncrease v =>
      if decide (kpage v /\ (v ∉ as_free a) /\ as_count a v + 1 < 2 ^ 32)
      then Some (0, {| as_free := as_free a;
                       as_count := set_count (as_count a) v (as_count a v + 1) |})
      else None
  | CallDecrease v =>
      if decide (kpage v /\ (v ∉ as_free a) /\ 0 < as_count a v)
      then Some (0, {| as_free := as_free a;
                       as_count := set_count (as_count a) v (as_count a v - 1) |})
      else None
  end.

Fixpoint spec_calls (cs : list alloc_call) (a : alloc_spec) : option (list Z * alloc_spec) :=
  match cs with
  | [] => Some ([], a)
  | c :: cs =>
      match spec_call c a with
      | None => None
      | Some (r, a) =>
          match spec_calls cs a with
          | None => None
          | Some (rs, a) => Some (r :: rs, a)
          end
      end
  end.

Definition run_call (c : alloc_call) : M (kst F) Z :=
  match c with
  | CallKalloc => kalloc
  | CallKfree v => kfree v ;;; ret 0
  | CallIncrease v => increasePhysicalPageRefCountByOne (V2P v) ;;; ret 0
  | CallDecrease v => decreasePhysicalPageRefCountByOne (V2P v) ;;; ret 0
  end.

Fixpoint run_calls (cs : list alloc_call) : M (kst F) (list Z) :=
  match cs with
  | [] => ret []
  | c :: cs => r <- run_call c ;; rs <- run_calls cs ;; ret (r :: rs)
  end.

(** [N] is the number of pages the allocator was given: PhysicalPageTotal is
    how many of them are off the free list. *)
Record alloc_refines (N : Z) (s : kst F) (a : alloc_spec) : Prop := {
  ar_inv : kmem_inv s (as_free a);
  ar_count : forall p, kpage p -> refcount s p = as_count a p;
  ar_count_pos : forall p, kpage p -> 0 <= as_count a p < 2 ^ 32;
  ar_total : km_PhysicalPageTotal (k_mem s) = N - Z.of_nat (length (as_free a))
}.

Lemma modify_refcount s v delta :
  km_lock (k_mem s) = false -> kpage v ->
  modifyPhysicalPageRefCount (V2P v) delta s
  = Ret tt (set_refcount s v (u32 (refcount s v + delta))).
Proof.
  intros Hlk Hp. unfold modifyPhysicalPageRefCount. rewrite kpage_valid by done.
  pose proof (rc_in_range_kpage v Hp) as Hr.
  destruct s as [m [lk ul fl rc tot] ????]. cbn in *. subst.
  unfold kmem_acquire, kmem_release, acquire, release, bind, rc_get, rc_set.
  cbn. rewrite Hr. cbn. done.
Qed.

Lemma set_refcount_refines N s a v c :
  alloc_refines N s a -> kpage v -> v ∉ as_free a -> 0 <= c < 2 ^ 32 ->
  alloc_refines N (set_refcount s v c)
    {| as_free := as_free a; as_count := set_count (as_count a) v c |}.
Proof.
  intros [Hinv Hc Hpos Ht] Hv Hn Hr. constructor; cbn [as_free as_count].
  - by apply set_refcount_inv.
  - intros p Hp. rewrite set_refcount_refcount by done. unfold set_count.
    case_decide; auto.
  - intros p Hp. unfold set_count. case_decide; auto.
  - exact Ht.
Qed.

Lemma run_call_refines N c s a r a' :
  alloc_refines N s a -> spec_call c a = Some (r, a') ->
  exists s', run_call c s = Ret r s' /\ alloc_refines N s' a'.
Proof.
  intros HR Hc. pose proof HR as [Hinv Hcnt Hpos Ht]. pose proof (ki_lock _ _ Hinv) as Hlk.
  destruct c as [|v|v|v]; cbn [spec_call run_call] in *.
  - destruct a as [[|p l] cnt]; cbn [as_free as_count] in *; injection Hc as <- <-.
    + exists s. by rewrite kalloc_empty.
    + pose proof (ki_pages _ _ Hinv) as Hpg. apply Forall_cons in Hpg as [Hp _].
      exists (kalloc_post s p). split; [by eapply kalloc_head|].
      constructor; cbn [as_free as_count].
      * by apply kalloc_post_inv.
      * intros q Hq. rewrite kalloc_post_refcount by done. unfold set_count.
        case_decide; auto.
      * intros q Hq. unfold set_count. case_decide; [lia|auto].
      * cbn. rewrite Ht. cbn. lia.
  - case_decide as Hd; [|done]. destruct Hd as [Hv Hn].
    pose proof (Hpos v Hv). rewrite <-(Hcnt v Hv) in *.
    destruct (Z.ltb_spec 0 (refcount s v)); simplify_eq.
    + eexists. split; [unfold bind; by rewrite kfree_shared|].
      apply set_refcount_refines; auto; lia.
    + exists (kfree_post s v). split; [unfold bind; rewrite kfree_last; auto; lia|].
      constructor; cbn [as_free as_count]; auto.
      * apply kfree_post_inv; auto; lia.
      * cbn. rewrite Ht. cbn. lia.
  - case_decide as Hd; [|done]. destruct Hd as (Hv & Hn & Hlt). simplify_eq.
    pose proof (Hpos v Hv). rewrite <-(Hcnt v Hv) in *.
    eexists. split.
    { unfold bind, increasePhysicalPageRefCountByOne, decreasePhysicalPageRefCountByOne.
      by rewrite modify_refcount. }
    rewrite u32_small by lia. apply set_refcount_refines; auto; lia.
  - case_decide as Hd; [|done]. destruct Hd as (Hv & Hn & Hlt). simplify_eq.
    pose proof (Hpos v Hv). rewrite <-(Hcnt v Hv) in *.
    eexists. split.
    { unfold bind, increasePhysicalPageRefCountByOne, decreasePhysicalPageRefCountByOne.
      by rewrite modify_refcount. }
    replace (u32 (refcount s v + u32 (-1))) with (refcount s v - 1).
    + apply set_refcount_refines; auto; lia.
    + unfold u32. rewrite Z.add_mod_idemp_r by lia.
      symmetry. apply Z.mod_small. lia.
Qed.

Lemma run_calls_refines N cs : forall s a rs a',
  alloc_refines N s a -> spec_calls cs a = Some (rs, a') ->
  exists s', run_calls cs s = Ret rs s' /\ alloc_refines N s' a'.
Proof.
  induction cs as [|c cs IH]; intros s a rs a' HR Hcs; cbn [spec_calls run_calls] in *.
  - injection Hcs as <- <-. by exists s.
  - destruct (spec_call c a) as [[r a1]|] eqn:E1; [|done].
    destruct (spec_calls cs a1) as [[rs1 a2]|] eqn:E2; [|done]. injection Hcs as <- <-.
    destruct (run_call_refines _ _ _ _ _ _ HR E1) as (s1 & Hs1 & HR1).
    destruct (IH _ _ _ _ HR1 E2) as (s2 & Hs2 & HR2).
    exists s2. unfold bind. by rewrite Hs1, Hs2.
Qed.

(** ** Theorems *)

(** C4.  The allocator refines its abstract specification: for every sequence
    of kalloc, kfree and reference-count calls that keeps to the protocol, the
    calls return (no panic, the lock released), with the results of the abstract
    machine; afterwards the linked list in memory is the abstract free list,
    the counts agree and PhysicalPageTotal is the number of pages in use. *)
Theorem kalloc_refinement N cs s a rs a' :
  alloc_refines N s a -> spec_calls cs a = Some (rs, a') ->
  exists s', run_calls cs s = Ret rs s' /\ alloc_refines N s' a'.
Proof. apply run_calls_refines. Qed.

(**  Initialisation.  From the zeroed state of boot, kinit1 leaves exactly
    the whole pages between the end of the kernel and its limit on the free
    list; kinit2 adds the whole pages of its range in front of a list of lower
    pages, turns locking on and resets the page total. *)
Theorem kinit_correct (fs : F) (s : kst F) l vend1 vend2 :
  kend <= vend1 <= KERNBASE + PHYSTOP -> vend1 <= vend2 <= KERNBASE + PHYSTOP ->
  kmem_inv s l -> (forall q, q ∈ l -> q < vend1) ->
  wp (kinit1 kend vend1) (boot fs) (fun _ s1 =>
    kmem_inv s1 (rev (pages (PGROUNDUP kend) (Z.to_nat ((vend1 - PGROUNDUP kend) / 4096)))))
  /\
  wp (kinit2 vend1 vend2) s (fun _ s2 =>
    kmem_inv s2 (rev (pages (PGROUNDUP vend1) (Z.to_nat ((vend2 - PGROUNDUP vend1) / 4096))) ++ l)
    /\ km_use_lock (k_mem s2) = true /\ km_PhysicalPageTotal (k_mem s2) = 0).
Proof.
  intros Hv1 Hv2 Hinv Hlt. split.
  - unfold kinit1. wp_steps. eapply wp_mono.
    + apply (freerange_ok kend vend1 _ []); [lia|lia|lia| |by intros q ?%not_elem_of_nil].
      constructor; [done|constructor|done|done|done].
    + intros ? s' [Hi _]. rewrite app_nil_r in Hi. exact Hi.
  - unfold kinit2. wp_steps. eapply wp_mono; [apply (freerange_ok vend1 vend2 s l); auto; lia|].
    intros ? s' [[Hl Hnd Hp Hc Hk] _]. wp_steps. split; [|done]. by constructor.
Qed.

(**  A page taken by kalloc and given back by one kfree does not return to
    the free list: kalloc sets its count to one and kfree only takes the count
    to zero.  It is back on the list after a second kfree. *)
Theorem kalloc_kfree_leaks s p l :
  kmem_inv s (p :: l) ->
  wp (v <- kalloc ;; kfree v) s (fun _ s1 =>
    kmem_inv s1 l /\ (p ∉ l) /\ refcount s1 p = 0 /\
    km_PhysicalPageTotal (k_mem s1) = km_PhysicalPageTotal (k_mem s) + 1 /\
    wp (kfree p) s1 (fun _ s2 =>
      kmem_inv s2 (p :: l) /\
      km_PhysicalPageTotal (k_mem s2) = km_PhysicalPageTotal (k_mem s))).
Proof.
  intros Hinv. pose proof Hinv as [_ Hnd Hp _ Hlk].
  apply NoDup_cons in Hnd as [Hn _]. apply Forall_cons in Hp as [Hp _].
  pose proof (kalloc_post_inv s p l Hinv) as Hinv1.
  assert (refcount (kalloc_post s p) p = 1) as Hc1.
  { rewrite kalloc_post_refcount by done. by case_decide. }
  pose proof (set_refcount_inv _ l p 0 Hinv1 Hp Hn) as Hinv2.
  assert (refcount (set_refcount (kalloc_post s p) p 0) p = 0) as Hc2.
  { rewrite set_refcount_refcount by done. by case_decide. }
  apply wp_bind. eapply wp_eq; [by eapply kalloc_head|].
  eapply wp_eq; [apply kfree_shared; [apply Hinv1|done|lia]|]. rewrite Hc1.
  split; [done|]. split; [done|]. split; [done|]. split; [done|].
  eapply wp_eq; [apply kfree_last; [apply Hinv2|done..]|].
  split; [by apply kfree_post_inv|]. cbn. lia.
Qed.

End Kalloc.

(** ** Witnesses *)

Module KallocWitness.

#[local] Existing Instance boot_image.

(** A small allocator: two free pages, 0x80200000 before 0x80300000. *)
Definition two_pages : kst unit :=
  (boot tt) <| k_phys := store32 ∅ 0x200000 0x80300000 |>
          <| k_mem ::= fun k => k <| km_freelist := 0x80200000 |> <| km_use_lock := true |> |>.

Lemma two_pages_inv : kmem_inv two_pages [0x80200000; 0x80300000].
Proof.
  constructor.
  - vm_compute. done.
  - apply (bool_decide_unpack _). vm_compute. done.
  - apply (bool_decide_unpack _). vm_compute. done.
  - apply (bool_decide_unpack _). vm_compute. done.
  - done.
Qed.

(** [n] free pages from 0x80200000 on, in any state otherwise. *)
Lemma some_pages (n : nat) (s : kst unit) : Z.of_nat n <= 1024 ->
  exists m k, kmem_inv (s <| k_phys := m |> <| k_mem := k |>) (rev (pages 0x80200000 n)).
Proof.
  intros Hn.
  assert (kmem_inv (boot tt) []) as H0 by (constructor; [done|constructor|done|done|done]).
  pose proof (freerange_ok 0x80200000 (0x80200000 + 4096 * Z.of_nat n) (boot tt) []) as H.
  destruct (wp_elim _ _ _ (H ltac:(cbn; lia) ltac:(lia) ltac:(klia) H0 ltac:(by intros ? ?%elem_of_nil)))
    as (? & s' & _ & Hinv & _).
  change (PGROUNDUP 0x80200000) with 0x80200000 in Hinv.
  replace (Z.to_nat ((0x80200000 + 4096 * Z.of_nat n - 0x80200000) / 4096)) with n in Hinv.
  - rewrite app_nil_r in Hinv. exists (k_phys s'), (k_mem s'). destruct Hinv as [H1 H2 H3 H4 H5]. by constructor.
  - replace (0x80200000 + 4096 * Z.of_nat n - 0x80200000) with (Z.of_nat n * 4096) by lia.
    rewrite Z.div_mul by lia. lia.
Qed.

Lemma two_pages_refines :
  alloc_refines 2 two_pages {| as_free := [0x80200000; 0x80300000]; as_count := fun _ => 0 |}.
Proof. constructor; [apply two_pages_inv|done|done|done]. Qed.

Lemma kalloc_refinement_witness :
  exists s', run_calls [CallKalloc; CallIncrease 0x80200000; CallKfree 0x80200000;
                        CallDecrease 0x80200000; CallKfree 0x80200000] two_pages
             = Ret [0x80200000; 0; 0; 0; 0] s'.
Proof.
  destruct (kalloc_refinement 2
    [CallKalloc; CallIncrease 0x80200000; CallKfree 0x80200000;
     CallDecrease 0x80200000; CallKfree 0x80200000]
    two_pages {| as_free := [0x80200000; 0x80300000]; as_count := fun _ => 0 |}
    [0x80200000; 0; 0; 0; 0]
    {| as_free := [0x80200000; 0x80300000];
       as_count := set_count (set_count (set_count (set_count (fun _ => 0)
         0x80200000 1) 0x80200000 2) 0x80200000 1) 0x80200000 0 |}) as (s' & H & _).
  - apply two_pages_refines.
  - vm_compute. reflexivity.
  - exists s'. exact H.
Defined.

Lemma kinit_correct_witness :
  wp (kinit1 kend 0x80110000) (boot tt) (fun _ s1 =>
    kmem_inv s1 (rev (pages (PGROUNDUP kend) (Z.to_nat ((0x80110000 - PGROUNDUP kend) / 4096))))).
Proof.
  refine (proj1 (kinit_correct tt (boot tt) [] 0x80110000 0x80120000 _ _ _ _)).
  - vm_compute. split; discriminate.
  - vm_compute. split; discriminate.
  - constructor; [done|constructor|done|done|done].
  - intros q Hq. by apply not_elem_of_nil in Hq.
Defined.

Lemma kalloc_kfree_leaks_witness :
  wp (v <- kalloc ;; kfree v) two_pages (fun _ s1 => kmem_inv s1 [0x80300000]).
Proof.
  eapply wp_mono.
  - apply (kalloc_kfree_leaks two_pages 0x80200000 [0x80300000]). apply two_pages_inv.
  - intros ? s1 [H _]. exact H.
Defined.

End KallocWitness.
