(* ===== verification/MemTable.v ===== *)
(** The memory table, the memory list and the swap table of a process:
    src/src/VirtualMemory.c, with RecordInMemory and RecordPage of vm.c.

    The memory table is a chain of pages of entries; the entries in use form a
    doubly linked list in order of arrival, newest first, which is the queue of
    the FIFO page replacement.  The swap table is a chain of pages whose entries
    correspond one to one with page-sized slots of the swap files.

    Loops over a chain take as fuel the number of pages in the store, loops over
    the list the number of entries; both bound the length of any chain without
    repetition. *)

From stdpp Require Import base gmap list strings.
From Stdlib Require Import ZArith Lia.
From S2P Require Import Prelude Mem Str Mmu State Kalloc.

Section MemTable.
Context {F : Type} {KI : KernelImage}.
Implicit Types s : kst F.

(** ** Access to the tables through pointers *)

Definition mte_get (e : Z) : M (kst F) MemoryTableEntry := fun s =>
  match k_mte s !! e with
  | Some x => Ret x s
  | None => Crash "memory table entry"
  end.

Definition mte_upd (e : Z) (g : MemoryTableEntry -> MemoryTableEntry) : M (kst F) unit := fun s =>
  match k_mte s !! e with
  | Some x => Ret tt (s <| k_mte := <[e := g x]> (k_mte s) |>)
  | None => Crash "memory table entry"
  end.

Definition mtp_get (p : Z) : M (kst F) TablePage := fun s =>
  match k_mtp s !! p with
  | Some x => Ret x s
  | None => Crash "memory table page"
  end.

Definition mtp_upd (p : Z) (g : TablePage -> TablePage) : M (kst F) unit := fun s =>
  match k_mtp s !! p with
  | Some x => Ret tt (s <| k_mtp := <[p := g x]> (k_mtp s) |>)
  | None => Crash "memory table page"
  end.

Definition ste_get (e : Z) : M (kst F) Z := fun s =>
  match k_ste s !! e with
  | Some x => Ret x s
  | None => Crash "swap table entry"
  end.

Definition ste_set (e va : Z) : M (kst F) unit := fun s =>
  match k_ste s !! e with
  | Some _ => Ret tt (s <| k_ste := <[e := va]> (k_ste s) |>)
  | None => Crash "swap table entry"
  end.

Definition stp_get (p : Z) : M (kst F) TablePage := fun s =>
  match k_stp s !! p with
  | Some x => Ret x s
  | None => Crash "swap table page"
  end.

Definition stp_upd (p : Z) (g : TablePage -> TablePage) : M (kst F) unit := fun s =>
  match k_stp s !! p with
  | Some x => Ret tt (s <| k_stp := <[p := g x]> (k_stp s) |>)
  | None => Crash "swap table page"
  end.

(** The fuel of the loops over pages, swap pages and entries. *)
Definition mtp_fuel : M (kst F) nat := gets (fun s => S (size (k_mtp s))).
Definition stp_fuel : M (kst F) nat := gets (fun s => S (size (k_stp s))).
Definition mte_fuel : M (kst F) nat := gets (fun s => S (size (k_mte s))).

(** ** The memory list *)

Definition GetMemoryListTail (CurrentProcess : nat) : M (kst F) Z :=
  p <- get_proc CurrentProcess ;;
  let CurrentEntry := p_MemoryListHead p in
  (if CurrentEntry =? 0
   then panic "[ERROR] It is impossible for the memory list used to be full!"
   else
     c <- mte_get CurrentEntry ;;
     when (e_Next c =? 0)
       (panic "[ERROR] It is impossible for the memory list used to be full!")) ;;;
  let ListTail := p_MemoryListTail p in
  if ListTail =? 0
  then panic "[ERROR] The Last of the memory list should not be NULL!"
  else
    t <- mte_get ListTail ;;
    if e_Last t =? 0
    then panic "[ERROR] The Last of the memory list should not be NULL!"
    else
      upd_proc CurrentProcess (fun p => p <| p_MemoryListTail := e_Last t |>) ;;;
      mte_upd (e_Last t) (fun x => x <| e_Next := 0 |>) ;;;
      mte_upd ListTail (fun x => x <| e_Last := 0 |>) ;;;
      ret ListTail.

Definition SetMemoryListHead (CurrentProcess : nat) (TheEntry TheVirtualAddress : Z) : M (kst F) unit :=
  p <- get_proc CurrentProcess ;;
  mte_upd TheEntry (fun x => x <| e_Next := p_MemoryListHead p |>) ;;;
  mte_upd (p_MemoryListHead p) (fun x => x <| e_Last := TheEntry |>) ;;;
  upd_proc CurrentProcess (fun p => p <| p_MemoryListHead := TheEntry |>) ;;;
  mte_upd TheEntry (fun x => x <| e_VirtualAddress := TheVirtualAddress |>).

(** [while (CurrentPlace->Next != TheEntry) CurrentPlace = CurrentPlace->Next] *)
Fixpoint find_previous (fuel : nat) (CurrentPlace TheEntry : Z) : M (kst F) Z :=
  match fuel with
  | O => no_fuel
  | S fuel =>
      c <- mte_get CurrentPlace ;;
      if e_Next c =? TheEntry then ret CurrentPlace
      else find_previous fuel (e_Next c) TheEntry
  end.

Definition RemoveFromMemoryList (CurrentProcess : nat) (TheEntry : Z) : M (kst F) unit :=
  mte_upd TheEntry (fun x => x <| e_VirtualAddress := SLOT_USABLE |>) ;;;
  p <- get_proc CurrentProcess ;;
  (if p_MemoryListHead p =? TheEntry then
     e <- mte_get TheEntry ;;
     when (negb (e_Next e =? 0))
       (mte_upd (e_Next e) (fun x => x <| e_Last := 0 |>)) ;;;
     e <- mte_get TheEntry ;;
     upd_proc CurrentProcess (fun p => p <| p_MemoryListHead := e_Next e |>)
   else
     fuel <- mte_fuel ;;
     CurrentPlace <- find_previous fuel (p_MemoryListHead p) TheEntry ;;
     e <- mte_get TheEntry ;;
     if negb (e_Next e =? 0) then
       mte_upd (e_Next e) (fun x => x <| e_Last := CurrentPlace |>) ;;;
       e <- mte_get TheEntry ;;
       mte_upd CurrentPlace (fun x => x <| e_Next := e_Next e |>)
     else mte_upd CurrentPlace (fun x => x <| e_Next := 0 |>)) ;;;
  mte_upd TheEntry (fun x => x <| e_Next := 0 |>) ;;;
  mte_upd TheEntry (fun x => x <| e_Last := 0 |>) ;;;
  upd_proc CurrentProcess (fun p => p <| p_MemoryEntryNum ::= fun n => n - 1 |>).

(** The scan of one page of entries for a virtual address. *)
Definition find_in_memory_page (page va : Z) : M (kst F) (option Z) :=
  for_find (range 0 (Z.to_nat MEMORY_TABLE_ENTRY_NUM)) (fun i =>
    e <- mte_get (mte_addr page i) ;;
    ret (if e_VirtualAddress e =? va then Some (mte_addr page i) else None)).

Fixpoint GetAddressInMemoryTable_loop (fuel : nat) (CurrentPage va : Z) : M (kst F) Z :=
  if CurrentPage =? 0 then panic "[ERROR] Should find a record in memory table!"
  else
    match fuel with
    | O => no_fuel
    | S fuel =>
        r <- find_in_memory_page CurrentPage va ;;
        match r with
        | Some e => ret e
        | None =>
            pg <- mtp_get CurrentPage ;;
            GetAddressInMemoryTable_loop fuel (t_Next pg) va
        end
    end.

Definition GetAddressInMemoryTable (CurrentProcess : nat) (TheVirtualAddress : Z) : M (kst F) Z :=
  p <- get_proc CurrentProcess ;;
  fuel <- mtp_fuel ;;
  GetAddressInMemoryTable_loop fuel (p_MemoryTableListHead p) TheVirtualAddress.

(** vm.c: the first usable slot takes the new address, at the head of the list. *)
Fixpoint RecordInMemory_loop (fuel : nat) (CurrentPage TheVirtualAddress : Z)
    (CurrentProcess : nat) : M (kst F) unit :=
  if CurrentPage =? 0 then panic "[ERROR] No free slot in memory."
  else
    match fuel with
    | O => no_fuel
    | S fuel =>
        r <- find_in_memory_page CurrentPage SLOT_USABLE ;;
        match r with
        | Some e =>
            p <- get_proc CurrentProcess ;;
            mte_upd e (fun x => x <| e_VirtualAddress := TheVirtualAddress |>) ;;;
            mte_upd e (fun x => x <| e_Next := p_MemoryListHead p |>) ;;;
            if p_MemoryListHead p =? 0 then
              upd_proc CurrentProcess (fun p => p <| p_MemoryListHead := e |>) ;;;
              upd_proc CurrentProcess (fun p => p <| p_MemoryListTail := e |>)
            else
              let OldHead := p_MemoryListHead p in
              mte_upd (p_MemoryListHead p) (fun x => x <| e_Last := e |>) ;;;
              upd_proc CurrentProcess (fun p => p <| p_MemoryListHead := e |>) ;;;
              mte_upd e (fun x => x <| e_Next := OldHead |>)
        | None =>
            pg <- mtp_get CurrentPage ;;
            RecordInMemory_loop fuel (t_Next pg) TheVirtualAddress CurrentProcess
        end
    end.

Definition RecordInMemory (TheVirtualAddress : Z) (CurrentProcess : nat) : M (kst F) unit :=
  p <- get_proc CurrentProcess ;;
  fuel <- mtp_fuel ;;
  RecordInMemory_loop fuel (p_MemoryTableListHead p) TheVirtualAddress CurrentProcess.

Definition RecordPage (TheVirtualAddress : Z) : M (kst F) unit :=
  CurrentProcess <- myproc ;;
  RecordInMemory TheVirtualAddress CurrentProcess ;;;
  upd_proc CurrentProcess (fun p => p <| p_MemoryEntryNum ::= fun n => n + 1 |>).

(** ** The swap table *)

(** The number of the page and the offset are ints. *)
Definition find_in_swap_page (page va : Z) (PageNum : Z) : M (kst F) (option (Z * Z)) :=
  for_find (range 0 (Z.to_nat SWAP_TABLE_ENTRY_NUM)) (fun i =>
    e <- ste_get (ste_addr page i) ;;
    ret (if e =? va
         then Some (ste_addr page i, i32 (PageNum * SWAP_TABLE_PAGE_OFFSET + i * PGSIZE))
         else None)).

Fixpoint swap_table_loop (fuel : nat) (CurrentPage va PageNum : Z) : M (kst F) ((Z * Z) + Z) :=
  if CurrentPage =? 0 then ret (inr PageNum)
  else
    match fuel with
    | O => no_fuel
    | S fuel =>
        r <- find_in_swap_page CurrentPage va PageNum ;;
        match r with
        | Some place => ret (inl place)
        | None =>
            pg <- stp_get CurrentPage ;;
            swap_table_loop fuel (t_Next pg) va (i32 (PageNum + 1))
        end
    end.

Definition ClearSwapPage (CurrentPage : Z) (WhetherClearLink : bool) : M (kst F) unit :=
  for_each (range 0 (Z.to_nat SWAP_TABLE_ENTRY_NUM)) (fun i =>
    modify (fun s => s <| k_ste ::= <[ste_addr CurrentPage i := SLOT_USABLE]> |>)) ;;;
  when WhetherClearLink
    (modify (fun s => s <| k_stp ::= <[CurrentPage := {| t_Last := 0; t_Next := 0 |}]> |>)).

Definition AllocSwapPage : M (kst F) Z :=
  NewPage <- kalloc ;;
  if NewPage =? 0 then ret 0
  else ClearSwapPage NewPage true ;;; ret NewPage.

Definition GrowSwapTable (CurrentProcess : nat) : M (kst F) Z :=
  p <- get_proc CurrentProcess ;;
  if p_SwapTableListHead p =? 0 then
    page <- AllocSwapPage ;;
    upd_proc CurrentProcess (fun p => p <| p_SwapTableListHead := page |>) ;;;
    if page =? 0 then ret (-1)
    else upd_proc CurrentProcess (fun p => p <| p_SwapTableListTail := page |>) ;;; ret 0
  else
    let temp := p_SwapTableListTail p in
    page <- AllocSwapPage ;;
    upd_proc CurrentProcess (fun p => p <| p_SwapTableListTail := page |>) ;;;
    if page =? 0 then ret (-1)
    else
      stp_upd temp (fun x => x <| t_Next := page |>) ;;;
      stp_upd page (fun x => x <| t_Last := temp |>) ;;;
      ret 0.

(** A place in the swap table: the entry and its byte offset in the swap files. *)
Definition GetEmptyInSwapTable (CurrentProcess : nat) : M (kst F) (Z * Z) :=
  p <- get_proc CurrentProcess ;;
  fuel <- stp_fuel ;;
  r <- swap_table_loop fuel (p_SwapTableListHead p) SLOT_USABLE 0 ;;
  match r with
  | inl place => ret place
  | inr PageNum =>
      GrowSwapTable CurrentProcess ;;;
      p <- get_proc CurrentProcess ;;
      r <- find_in_swap_page (p_SwapTableListTail p) SLOT_USABLE PageNum ;;
      match r with
      | Some place => ret place
      | None => panic "[ERROR] Should find an empty place in the swap table!"
      end
  end.

Definition GetAddressInSwapTable (CurrentProcess : nat) (TheVirtualAddress : Z) : M (kst F) (Z * Z) :=
  p <- get_proc CurrentProcess ;;
  fuel <- stp_fuel ;;
  r <- swap_table_loop fuel (p_SwapTableListHead p) TheVirtualAddress 0 ;;
  match r with
  | inl place => ret place
  | inr _ => panic "[ERROR] Should find the place in the swap table!"
  end.

Definition RemoveFromSwapTable (CurrentProcess : nat) (TheVirtualAddress : Z) : M (kst F) unit :=
  ThePlace <- GetAddressInSwapTable CurrentProcess TheVirtualAddress ;;
  ste_set ThePlace.1 SLOT_USABLE.

(** ** Creating, clearing and copying the tables *)

Definition ClearMemoryPage (ThePage : Z) (WhetherClearLink : bool) : M (kst F) unit :=
  for_each (range 0 (Z.to_nat MEMORY_TABLE_ENTRY_NUM)) (fun i =>
    modify (fun s => s <| k_mte ::= <[mte_addr ThePage i :=
      {| e_VirtualAddress := SLOT_USABLE; e_Next := 0; e_Last := 0 |}]> |>)) ;;;
  when WhetherClearLink
    (modify (fun s => s <| k_mtp ::= <[ThePage := {| t_Last := 0; t_Next := 0 |}]> |>)).

Definition AllocMemoryPage : M (kst F) Z :=
  NewPage <- kalloc ;;
  if NewPage =? 0 then ret 0
  else ClearMemoryPage NewPage true ;;; ret NewPage.

Fixpoint ClearMemoryTable_loop (fuel : nat) (CurrentPage : Z) : M (kst F) unit :=
  if CurrentPage =? 0 then ret tt
  else
    match fuel with
    | O => no_fuel
    | S fuel =>
        ClearMemoryPage CurrentPage false ;;;
        pg <- mtp_get CurrentPage ;;
        ClearMemoryTable_loop fuel (t_Next pg)
    end.

Definition ClearMemoryTable (CurrentProcess : nat) : M (kst F) unit :=
  p <- get_proc CurrentProcess ;;
  fuel <- mtp_fuel ;;
  ClearMemoryTable_loop fuel (p_MemoryTableListHead p) ;;;
  upd_proc CurrentProcess (fun p => p <| p_MemoryEntryNum := 0 |>) ;;;
  upd_proc CurrentProcess (fun p => p <| p_MemoryListHead := 0 |>) ;;;
  upd_proc CurrentProcess (fun p => p <| p_MemoryListTail := 0 |>).

(** The iterations of AllocMemoryTable from the second one: [n] pages are left,
    PreviousPage is the page made last. *)
Fixpoint AllocMemoryTable_loop (n : nat) (PreviousPage : Z) : M (kst F) Z :=
  match n with
  | O => ret PreviousPage
  | S n =>
      CurrentPage <- AllocMemoryPage ;;
      if CurrentPage =? 0 then panic "Alloc Memory Table Failure!"
      else
        mtp_upd PreviousPage (fun x => x <| t_Next := CurrentPage |>) ;;;
        mtp_upd CurrentPage (fun x => x <| t_Last := PreviousPage |>) ;;;
        AllocMemoryTable_loop n CurrentPage
  end.

Definition AllocMemoryTable (CurrentProcess : nat) : M (kst F) unit :=
  CurrentPage <- AllocMemoryPage ;;
  if CurrentPage =? 0 then panic "Alloc Memory Table Failure!"
  else
    upd_proc CurrentProcess (fun p => p <| p_MemoryTableListHead := CurrentPage |>) ;;;
    CurrentPage <- AllocMemoryTable_loop (Z.to_nat (MEMORY_TABLE_LENGTH - 1)) CurrentPage ;;
    upd_proc CurrentProcess (fun p => p <| p_MemoryTableListTail := CurrentPage |>).

Fixpoint ClearSwapTable_loop (fuel : nat) (CurrentPage : Z) : M (kst F) unit :=
  if CurrentPage =? 0 then ret tt
  else
    match fuel with
    | O => no_fuel
    | S fuel =>
        ClearSwapPage CurrentPage false ;;;
        pg <- stp_get CurrentPage ;;
        ClearSwapTable_loop fuel (t_Next pg)
    end.

Definition ClearSwapTable (CurrentProcess : nat) : M (kst F) unit :=
  p <- get_proc CurrentProcess ;;
  fuel <- stp_fuel ;;
  ClearSwapTable_loop fuel (p_SwapTableListHead p).

(** Copying the list: the source entries, in order, fill the destination table
    from its first slot.  [page] and [num] are CurrentDestinationPage and
    DestinationEntryNum, [prev] is PreviousDestinationEntry. *)
Fixpoint copy_memory_list (fuel : nat) (src page num prev : Z) : M (kst F) Z :=
  if src =? 0 then ret prev
  else
    match fuel with
    | O => no_fuel
    | S fuel =>
        let dst := mte_addr page num in
        when (negb (prev =? 0)) (mte_upd prev (fun x => x <| e_Next := dst |>)) ;;;
        mte_upd dst (fun x => x <| e_Last := prev |>) ;;;
        e <- mte_get src ;;
        mte_upd dst (fun x => x <| e_VirtualAddress := e_VirtualAddress e |>) ;;;
        e <- mte_get src ;;
        let num := num + 1 in
        if num =? MEMORY_TABLE_ENTRY_NUM then
          pg <- mtp_get page ;;
          copy_memory_list fuel (e_Next e) (t_Next pg) 0 dst
        else copy_memory_list fuel (e_Next e) page num dst
    end.

(** [while (Source->SwapPageNum > Destination->SwapPageNum)]: the loop body
    leaves with -1 when GrowSwapTable returns 0. *)
Fixpoint copy_grow_loop (fuel : nat) (Destination Source : nat) : M (kst F) bool :=
  sp <- get_proc Source ;;
  dp <- get_proc Destination ;;
  if p_SwapPageNum dp <? p_SwapPageNum sp then
    match fuel with
    | O => no_fuel
    | S fuel =>
        r <- GrowSwapTable Destination ;;
        if r =? 0 then ret false
        else
          upd_proc Destination (fun p => p <| p_SwapPageNum ::= fun n => n + 1 |>) ;;;
          copy_grow_loop fuel Destination Source
    end
  else ret true.

Fixpoint copy_swap_pages (fuel : nat) (src dst : Z) : M (kst F) unit :=
  if src =? 0 then ret tt
  else
    match fuel with
    | O => no_fuel
    | S fuel =>
        for_each (range 0 (Z.to_nat SWAP_TABLE_ENTRY_NUM)) (fun i =>
          e <- ste_get (ste_addr src i) ;;
          ste_set (ste_addr dst i) e) ;;;
        dpg <- stp_get dst ;;
        spg <- stp_get src ;;
        copy_swap_pages fuel (t_Next spg) (t_Next dpg)
    end.

(** The first half of CopyVirtualMemoryData: the memory list. *)
Definition copy_list_part (Destination Source : nat) : M (kst F) unit :=
  ClearMemoryTable Destination ;;;
  sp <- get_proc Source ;;
  upd_proc Destination (fun p => p <| p_MemoryEntryNum := p_MemoryEntryNum sp |>) ;;;
  upd_proc Destination (fun p => p <| p_MemoryListHead := 0 |>) ;;;
  upd_proc Destination (fun p => p <| p_MemoryListTail := 0 |>) ;;;
  dp <- get_proc Destination ;;
  let CurrentDestinationPage := p_MemoryTableListHead dp in
  sp <- get_proc Source ;;
  let CurrentSourceEntry := p_MemoryListHead sp in
  when (negb (CurrentSourceEntry =? 0))
    (upd_proc Destination (fun p =>
       p <| p_MemoryListHead := mte_addr CurrentDestinationPage 0 |>)) ;;;
  fuel <- mte_fuel ;;
  last <- copy_memory_list fuel CurrentSourceEntry CurrentDestinationPage 0 0 ;;
  upd_proc Destination (fun p => p <| p_MemoryListTail := last |>).

(** The second half: the swap table. *)
Definition copy_swap_part (Destination Source : nat) : M (kst F) Z :=
  sp <- get_proc Source ;;
  dp <- get_proc Destination ;;
  ok <- copy_grow_loop (Z.to_nat (p_SwapPageNum sp - p_SwapPageNum dp)) Destination Source ;;
  if negb ok then ret (-1)
  else
    sp <- get_proc Source ;;
    dp <- get_proc Destination ;;
    fuel <- stp_fuel ;;
    copy_swap_pages fuel (p_SwapTableListHead sp) (p_SwapTableListHead dp) ;;;
    ret 0.

Definition CopyVirtualMemoryData (Destination Source : nat) : M (kst F) Z :=
  copy_list_part Destination Source ;;;
  copy_swap_part Destination Source.

End MemTable.
