(* ===== verification/MemList.v ===== *)
(** Correctness of the memory list and the memory table (MemTable.v).

    The entries in use form a doubly linked list, [dlseg].  The table invariant
    [mem_table s i pages q] says that the list of process [i] holds the queue of
    virtual addresses [q], newest first, inside the table pages [pages], and
    that every other slot of these pages is usable.  The operations refine the
    abstract FIFO queue [spec_op]. *)

From stdpp Require Import base gmap list strings.
From Stdlib Require Import ZArith Lia.
From S2P Require Import Prelude Mem Str Mmu State Kalloc MemTable.

(** ** Doubly linked list segments

    [dlseg m prev p l last next]: from [p], the entries [l] (address, virtual
    address) are linked by Next and Last; [prev] is the Last of the first one,
    [next] the Next of the last one, [last] the last one. *)
Fixpoint dlseg (m : gmap Z MemoryTableEntry) (prev p : Z) (l : list (Z * Z)) (last next : Z) : Prop :=
  match l with
  | [] => p = next /\ last = prev
  | (e, va) :: l =>
      p = e /\ e <> 0 /\ exists q,
        m !! e = Some {| e_VirtualAddress := va; e_Next := q; e_Last := prev |} /\
        dlseg m e q l last next
  end.

Lemma dlseg_app m l1 : forall prev p l2 last next,
  dlseg m prev p (l1 ++ l2) last next <->
  exists r q, dlseg m prev p l1 r q /\ dlseg m r q l2 last next.
Proof.
  induction l1 as [|[e va] l1 IH]; intros prev p l2 last next; cbn.
  - split; [by exists prev, p|]. by intros (r & q & [-> ->] & H).
  - split.
    + intros (-> & Hn & q & Hm & Hd). apply IH in Hd as (r & q' & H1 & H2). eauto 10.
    + intros (r & q & (-> & Hn & q' & Hm & H1) & H2).
      split; [done|]. split; [done|]. exists q'. split; [done|]. apply IH. eauto.
Qed.

Lemma dlseg_ext m m' prev p l last next :
  (forall e, e ∈ l.*1 -> m' !! e = m !! e) ->
  dlseg m prev p l last next -> dlseg m' prev p l last next.
Proof.
  revert prev p. induction l as [|[e va] l IH]; intros prev p Heq; cbn; [done|].
  intros (-> & Hne & q & Hl & Hr). split; [done|]. split; [done|].
  exists q. split; [by rewrite Heq by constructor|].
  apply IH; [|done]. intros. apply Heq. by constructor.
Qed.

Lemma dlseg_snoc m prev p l c v last next :
  dlseg m prev p (l ++ [(c, v)]) last next <->
  last = c /\ c <> 0 /\ exists r,
    m !! c = Some {| e_VirtualAddress := v; e_Next := next; e_Last := r |} /\
    dlseg m prev p l r c.
Proof.
  rewrite dlseg_app. cbn. split.
  - intros (r & q & Hd & -> & Hn & q' & Hm & -> & ->). eauto.
  - intros (-> & Hn & r & Hm & Hd). exists r, c. eauto 10.
Qed.

(** Another successor of the last entry, another predecessor of the first. *)
Lemma dlseg_exit m m' prev p l c v last next next' r :
  dlseg m prev p (l ++ [(c, v)]) last next ->
  m !! c = Some {| e_VirtualAddress := v; e_Next := next; e_Last := r |} ->
  m' !! c = Some {| e_VirtualAddress := v; e_Next := next'; e_Last := r |} ->
  (forall e, e ∈ l.*1 -> m' !! e = m !! e) ->
  dlseg m' prev p (l ++ [(c, v)]) c next'.
Proof.
  rewrite !dlseg_snoc. intros (-> & Hn & r' & Hm & Hd) Hc Hc' Heq.
  split; [done|]. split; [done|]. exists r. rewrite Hc in Hm. simplify_eq.
  split; [done|]. by eapply dlseg_ext.
Qed.

Lemma dlseg_entry m m' prev prev' q vq l last next :
  dlseg m prev q ((q, vq) :: l) last next ->
  (exists x, m !! q = Some x /\ m' !! q = Some (x <| e_Last := prev' |>)) ->
  (forall e, e ∈ l.*1 -> m' !! e = m !! e) ->
  dlseg m' prev' q ((q, vq) :: l) last next.
Proof.
  cbn. intros (_ & Hn & q' & Hm & Hd) (x & Hx & Hx') Heq.
  rewrite Hx in Hm. simplify_eq. split; [done|]. split; [done|]. exists q'.
  split; [done|]. by eapply dlseg_ext.
Qed.

Lemma dlseg_lookup m prev p l last next e va :
  dlseg m prev p l last next -> (e, va) ∈ l ->
  exists x, m !! e = Some x /\ e_VirtualAddress x = va /\ e <> 0.
Proof.
  revert prev p. induction l as [|[e' va'] l IH]; intros prev p; cbn; [by rewrite elem_of_nil|].
  intros (-> & Hn & q & Hm & Hd) [Heq|Hin]%elem_of_cons; [|by eapply IH].
  injection Heq as <- <-. eauto.
Qed.

Lemma dlseg_length m prev p l last next :
  dlseg m prev p l last next -> NoDup l.*1 -> (length l <= size m)%nat.
Proof.
  intros Hd Hnd.
  assert (list_to_set l.*1 ⊆@{gset Z} dom m) as Hsub.
  { intros e [[e' va] [-> Hin]]%elem_of_list_to_set%list_elem_of_fmap.
    destruct (dlseg_lookup _ _ _ _ _ _ _ _ Hd Hin) as (x & Hx & _).
    apply elem_of_dom. eauto. }
  apply subseteq_size in Hsub. rewrite size_list_to_set in Hsub by done.
  rewrite size_dom, length_fmap in Hsub. done.
Qed.

Lemma dlseg_head m prev p l last next : dlseg m prev p l last next -> l <> [] -> p <> 0.
Proof. by destruct l as [|[e va] l]; cbn; [|intros (-> & Hn & _)]. Qed.

(** ** Access lemmas *)

Section Access.
Context {F : Type} {KI : KernelImage}.
Implicit Types s : kst F.

Lemma wp_mte_get e x s (Q : _ -> kst F -> Prop) :
  k_mte s !! e = Some x -> Q x s -> wp (mte_get e) s Q.
Proof. unfold wp, mte_get. by intros ->. Qed.

Lemma wp_mte_upd e x g s (Q : _ -> kst F -> Prop) :
  k_mte s !! e = Some x -> Q tt (s <| k_mte := <[e := g x]> (k_mte s) |>) -> wp (mte_upd e g) s Q.
Proof. unfold wp, mte_upd. by intros ->. Qed.

Lemma wp_get_proc i p s (Q : _ -> kst F -> Prop) :
  k_ptable s !! i = Some p -> Q p s -> wp (get_proc i) s Q.
Proof. unfold wp, get_proc. by intros ->. Qed.

Lemma wp_upd_proc i p g s (Q : _ -> kst F -> Prop) :
  k_ptable s !! i = Some p ->
  Q tt (s <| k_ptable := <[i := g p]> (k_ptable s) |>) -> wp (upd_proc i g) s Q.
Proof. unfold wp, upd_proc. by intros ->. Qed.

Lemma wp_myproc i s (Q : _ -> kst F -> Prop) :
  k_curproc s = Some i -> Q i s -> wp myproc s Q.
Proof. unfold wp, myproc. by intros ->. Qed.

End Access.

(** Reduces field updates and projections of the state. *)
Ltac kred :=
  cbn beta iota delta [upd
    k_phys k_mem k_mte k_mtp k_ste k_stp k_ptable_lock k_ptable k_nextpid k_initproc k_curproc
    k_cr3 k_ts_esp0 k_SharedMemoryLock k_GlobalSharedMemoryList k_fs
    e_VirtualAddress e_Next e_Last t_Last t_Next
    p_sz p_pgdir p_kstack p_state p_pid p_parent p_tf p_chan p_killed p_ofile p_cwd p_name
    p_stackSize p_MemoryTableListHead p_MemoryTableListTail p_SwapTableListHead
    p_SwapTableListTail p_MemoryListHead p_MemoryListTail p_MemoryEntryNum p_SwapPageNum
    p_FilesForSwap p_SelfSharedMemory negb when].

(** Lookups in updated maps and process tables. *)
Ltac klook :=
  kred;
  repeat first
    [ rewrite list_lookup_insert_eq by (rewrite ?length_insert; eauto using lookup_lt_Some)
    | rewrite list_lookup_insert_ne by congruence
    | rewrite lookup_insert_eq
    | rewrite lookup_insert_ne by congruence ];
  first [ eassumption | reflexivity ].

(** Decides a comparison of pointers from the context. *)
Ltac kif :=
  match goal with
  | |- context [?a =? ?b] =>
      first
        [ replace (a =? b) with true by (symmetry; apply Z.eqb_eq; congruence)
        | replace (a =? b) with false by (symmetry; apply Z.eqb_neq; congruence) ]
  end; cbn beta iota delta [negb when].

(** Executes one operation on the store. *)
Ltac kstep :=
  first
    [ progress wp_step
    | progress (cbn beta iota delta [negb when])
    | lazymatch goal with
      | |- wp (get_proc _) _ _ => eapply wp_get_proc; [klook|kred]
      | |- wp (upd_proc _ _) _ _ => eapply wp_upd_proc; [klook|kred]
      | |- wp (mte_get _) _ _ => eapply wp_mte_get; [klook|kred]
      | |- wp (mte_upd _ _) _ _ => eapply wp_mte_upd; [klook|kred]
      | |- wp myproc _ _ => eapply wp_myproc; [klook|kred]
      end
    | kif ].
Ltac ksteps := repeat kstep.

(** ** The operations on the list *)

Section ListOps.
Context {F : Type} {KI : KernelImage}.
Implicit Types s : kst F.

(** The list store and the process entry are all an operation changes. *)
Definition list_post s (i : nat) (m' : gmap Z MemoryTableEntry) (p' : proc) : kst F :=
  s <| k_mte := m' |> <| k_ptable := <[i := p']> (k_ptable s) |>.

(** GetMemoryListTail takes off the last of at least two entries. *)
Lemma tail_spec s i p l e1 v1 e2 v2 :
  k_ptable s !! i = Some p ->
  dlseg (k_mte s) 0 (p_MemoryListHead p) (l ++ [(e1, v1); (e2, v2)]) (p_MemoryListTail p) 0 ->
  NoDup (l ++ [(e1, v1); (e2, v2)]).*1 ->
  exists m',
    GetMemoryListTail i s = Ret e2 (list_post s i m' (p <| p_MemoryListTail := e1 |>)) /\
    m' !! e2 = Some {| e_VirtualAddress := v2; e_Next := 0; e_Last := 0 |} /\
    dlseg m' 0 (p_MemoryListHead p) (l ++ [(e1, v1)]) e1 0 /\
    (forall e, e <> e1 -> e <> e2 -> m' !! e = k_mte s !! e).
Proof.
  intros Hp Hd Hnd.
  pose proof (dlseg_head _ _ _ _ _ _ Hd ltac:(by destruct l)) as Hh.
  replace (l ++ [(e1, v1); (e2, v2)]) with ((l ++ [(e1, v1)]) ++ [(e2, v2)]) in Hd, Hnd
    by by rewrite <-app_assoc.
  pose proof Hd as (Ht & Hn2 & r2 & Hm2 & Hd1)%dlseg_snoc.
  pose proof Hd1 as (-> & Hn1 & r & Hm1 & Hd0)%dlseg_snoc.
  rewrite fmap_app in Hnd. apply NoDup_app in Hnd as (Hnd & Hdis & _).
  rewrite fmap_app in Hnd. apply NoDup_app in Hnd as (_ & Hdis1 & _).
  assert (e1 <> e2) as Hne.
  { intros ->. apply (Hdis e2); [rewrite fmap_app; apply elem_of_app; right|]; constructor. }
  set (m' := <[e2 := {| e_VirtualAddress := v2; e_Next := 0; e_Last := 0 |}]>
    (<[e1 := {| e_VirtualAddress := v1; e_Next := 0; e_Last := r |}]> (k_mte s))).
  exists m'. split; [|split; [by unfold m'; rewrite lookup_insert_eq|split]].
  - assert (exists x, k_mte s !! p_MemoryListHead p = Some x /\ e_Next x <> 0) as (x & Hx & Hxn).
    { destruct l as [|[e va] l]; cbn in Hd0.
      - destruct Hd0 as [-> _]. rewrite Hm1. by eexists.
      - destruct Hd0 as (-> & _ & q & Hq & Hd0). rewrite Hq. eexists; split; [done|]. cbn.
        eapply (dlseg_head (k_mte s) e q (l ++ [(e1, v1)]) e1 e2); [|by destruct l].
        apply dlseg_snoc. eauto 10. }
    unfold GetMemoryListTail, bind, get_proc, mte_get, upd_proc, mte_upd, when. rewrite Hp.
    destruct (Z.eqb_spec (p_MemoryListHead p) 0); [done|]. rewrite Hx.
    destruct (Z.eqb_spec (e_Next x) 0); [done|]. cbn [ret]. rewrite Ht.
    destruct (Z.eqb_spec e2 0); [done|]. rewrite Hm2. cbn [e_Last].
    destruct (Z.eqb_spec e1 0); [done|]. cbn. rewrite Hp. cbn. rewrite Hm1. cbn.
    rewrite lookup_insert_ne, Hm2 by done. reflexivity.
  - eapply (dlseg_exit (k_mte s)); [apply dlseg_snoc; eauto 10|exact Hm1| |].
    + unfold m'. by rewrite lookup_insert_ne, lookup_insert_eq.
    + intros e He. unfold m'. rewrite !lookup_insert_ne; [done| |]; intros <-.
      * by apply (Hdis1 _ He); constructor.
      * apply (Hdis e2); [|constructor]. rewrite fmap_app. apply elem_of_app. by left.
  - intros e H1 H2. unfold m'. by rewrite !lookup_insert_ne.
Qed.

(** A new head in front of a list that is not empty. *)
Lemma dlseg_push m m' h l t e va :
  dlseg m 0 h l t 0 -> l <> [] -> NoDup l.*1 -> (e ∉ l.*1) -> e <> 0 ->
  m' !! e = Some {| e_VirtualAddress := va; e_Next := h; e_Last := 0 |} ->
  (exists x, m !! h = Some x /\ m' !! h = Some (x <| e_Last := e |>)) ->
  (forall e', e' <> e -> e' <> h -> m' !! e' = m !! e') ->
  dlseg m' 0 e ((e, va) :: l) t 0.
Proof.
  intros Hd Hl Hnd He H0 Hme Hmh Heq. cbn. split; [done|]. split; [done|].
  exists h. split; [done|]. destruct l as [|[q vq] l]; [done|].
  assert (h = q) as -> by (by cbn in Hd; destruct Hd as [-> _]).
  eapply dlseg_entry; [exact Hd|exact Hmh|].
  apply NoDup_cons in Hnd as [Hq _]. intros e' He'. apply Heq; intros ->; [|done].
  apply He. by constructor.
Qed.

Lemma head_spec s i p l e x va :
  k_ptable s !! i = Some p ->
  dlseg (k_mte s) 0 (p_MemoryListHead p) l (p_MemoryListTail p) 0 ->
  l <> [] -> NoDup l.*1 -> (e ∉ l.*1) -> e <> 0 ->
  k_mte s !! e = Some x -> e_Last x = 0 ->
  exists m',
    SetMemoryListHead i e va s = Ret tt (list_post s i m' (p <| p_MemoryListHead := e |>)) /\
    dlseg m' 0 e ((e, va) :: l) (p_MemoryListTail p) 0 /\
    (forall e', e' <> e -> e' <> p_MemoryListHead p -> m' !! e' = k_mte s !! e').
Proof.
  intros Hp Hd Hl Hnd He H0 Hx HxL.
  assert (exists y, k_mte s !! p_MemoryListHead p = Some y /\ p_MemoryListHead p <> e) as (y & Hy & Hne).
  { destruct l as [|[q vq] l]; [done|]. cbn in Hd. destruct Hd as (-> & _ & q' & -> & _).
    eexists; split; [done|]. intros ->. apply He. constructor. }
  set (h := p_MemoryListHead p) in *.
  set (m' := <[e := {| e_VirtualAddress := va; e_Next := h; e_Last := 0 |}]>
    (<[h := y <| e_Last := e |>]>
    (<[e := {| e_VirtualAddress := e_VirtualAddress x; e_Next := h; e_Last := 0 |}]> (k_mte s)))).
  exists m'. split; [|split].
  - unfold SetMemoryListHead, bind, get_proc, mte_upd, upd_proc. rewrite Hp. fold h.
    rewrite Hx. cbn. rewrite lookup_insert_ne, Hy by done. cbn. rewrite Hp. cbn.
    rewrite lookup_insert_ne, lookup_insert_eq by done. cbn. rewrite HxL. reflexivity.
  - eapply dlseg_push; try done.
    + unfold m'. by rewrite lookup_insert_eq.
    + exists y. split; [done|]. unfold m'. by rewrite lookup_insert_ne, lookup_insert_eq.
    + intros e' H1 H2. unfold m'. by rewrite !lookup_insert_ne.
  - intros e' H1 H2. unfold m'. by rewrite !lookup_insert_ne.
Qed.

Lemma find_previous_ok s e c vc : forall l1 fuel prev p last,
  dlseg (k_mte s) prev p (l1 ++ [(c, vc)]) last e ->
  (e ∉ (l1 ++ [(c, vc)]).*1) -> (length l1 < fuel)%nat ->
  find_previous fuel p e s = Ret c s.
Proof.
  induction l1 as [|[e1 v1] l1 IH]; intros fuel prev p last Hd He Hf;
    (destruct fuel as [|fuel]; [by apply Nat.nlt_0_r in Hf|]); cbn in Hd, He;
    destruct Hd as (-> & Hn & q & Hm & Hd);
    cbn [find_previous]; unfold bind, mte_get; rewrite Hm; cbn [e_Next].
  - destruct Hd as [-> _]. by rewrite Z.eqb_refl.
  - apply not_elem_of_cons in He as [_ He].
    destruct (Z.eqb_spec q e) as [->|Hne].
    + destruct l1 as [|[e2 v2] l1]; cbn in Hd; destruct Hd as (<- & _); exfalso; apply He; constructor.
    + eapply IH; [done|done|]. cbn in Hf. lia.
Qed.

(** Taking an entry out of the middle, or off either end. *)
Lemma dlseg_remove m m' h l1 e l2 t r q :
  dlseg m 0 h l1 r e -> dlseg m e q l2 t 0 -> NoDup (l1.*1 ++ e :: l2.*1) ->
  (l1 <> [] -> exists x, m !! r = Some x /\ m' !! r = Some (x <| e_Next := q |>)) ->
  (l2 <> [] -> exists x, m !! q = Some x /\ m' !! q = Some (x <| e_Last := r |>)) ->
  (forall e', e' <> e -> (l1 <> [] -> e' <> r) -> (l2 <> [] -> e' <> q) -> m' !! e' = m !! e') ->
  dlseg m' 0 (match l1 with [] => q | _ => h end) (l1 ++ l2)
    (match l2 with [] => r | _ => t end) 0.
Proof.
  intros Hd1 Hd2 Hnd H1 H2 Heq. apply NoDup_app in Hnd as (Hnd1 & Hdis & Hnd2).
  apply NoDup_cons in Hnd2 as [He2 Hnd2]. apply dlseg_app. exists r, q.
  assert (l2 <> [] -> exists vq l2', l2 = (q, vq) :: l2') as Hl2.
  { destruct l2 as [|[q' vq] l2']; [done|]. destruct Hd2 as [-> _]. eauto. }
  split.
  - destruct l1 as [|x l1] using rev_ind; [destruct Hd1 as [-> ->]; by split|]. clear IHl1.
    destruct x as [c vc].
    pose proof Hd1 as (-> & Hn & rr & Hm & Hd0)%dlseg_snoc.
    destruct H1 as (x & Hx & Hx'); [by destruct l1|].
    assert (match l1 ++ [(c, vc)] with [] => q | _ => h end = h) as -> by by destruct l1.
    rewrite Hm in Hx. injection Hx as <-.
    eapply dlseg_exit; [exact Hd1|exact Hm|exact Hx'|].
    rewrite fmap_app in Hnd1, Hdis. apply NoDup_app in Hnd1 as (_ & Hd & _).
    intros e' He'. apply Heq.
    + intros ->. apply (Hdis e); [apply elem_of_app; by left|constructor].
    + intros _ ->. by apply (Hd _ He'); constructor.
    + intros Hne ->. destruct (Hl2 Hne) as (vq & l2' & ->).
      apply (Hdis q); [apply elem_of_app; by left|]. cbn. constructor. constructor.
  - destruct (decide (l2 = [])) as [->|Hne]; [destruct Hd2 as [-> ->]; by split|].
    destruct (Hl2 Hne) as (vq & l2' & ->).
    eapply dlseg_entry; [exact Hd2|by apply H2|].
    apply NoDup_cons in Hnd2 as [Hq _]. cbn in He2. apply not_elem_of_cons in He2 as [Heq2 He2].
    intros e' He'. apply Heq; [by intros ->| |by intros _ ->].
    intros Hne1 ->. destruct l1 as [|[c vc] l1] using rev_ind; [done|].
    apply dlseg_snoc in Hd1 as (-> & _). apply (Hdis c).
    + rewrite fmap_app. apply elem_of_app. right. constructor.
    + by do 2 constructor.
Qed.

Definition usable : MemoryTableEntry :=
  {| e_VirtualAddress := SLOT_USABLE; e_Next := 0; e_Last := 0 |}.

(** The state after RemoveFromMemoryList: MemoryListTail is not touched. *)
Definition remove_post s i p (m' : gmap Z MemoryTableEntry) (h : Z) : kst F :=
  list_post s i m' (p <| p_MemoryListHead := h |> <| p_MemoryEntryNum ::= fun n => n - 1 |>).

Lemma remove_head s i p e v l2 t :
  k_ptable s !! i = Some p -> p_MemoryListHead p = e ->
  dlseg (k_mte s) 0 e ((e, v) :: l2) t 0 -> NoDup (e :: l2.*1) ->
  exists m' q,
    RemoveFromMemoryList i e s = Ret tt (remove_post s i p m' q) /\
    m' !! e = Some usable /\
    dlseg m' 0 q l2 (match l2 with [] => 0 | _ => t end) 0 /\
    (forall e', e' ∉ e :: l2.*1 -> m' !! e' = k_mte s !! e').
Proof.
  intros Hp Hh (_ & Hn & q & Hm & Hd2) Hnd.
  set (m1 := <[e := {| e_VirtualAddress := SLOT_USABLE; e_Next := q; e_Last := 0 |}]> (k_mte s)).
  assert (exists m2,
    RemoveFromMemoryList i e s = Ret tt (remove_post s i p (<[e := usable]> (<[e := usable]> m2)) q) /\
    m2 !! e = m1 !! e /\
    (l2 <> [] -> exists x, k_mte s !! q = Some x /\ m2 !! q = Some (x <| e_Last := 0 |>)) /\
    (forall e', e' <> e -> (l2 <> [] -> e' <> q) -> m2 !! e' = k_mte s !! e')) as (m2 & Hr & He & Hq & Hf).
  { destruct l2 as [|[q' vq] l2].
    - destruct Hd2 as [-> ->]. exists m1. split; [|split; [done|split; [done|]]].
      + apply wp_run. unfold RemoveFromMemoryList. ksteps. split; [done|]. cbn.
        by rewrite !list_insert_insert_eq.
      + intros e' H1 _. unfold m1. by rewrite lookup_insert_ne.
    - destruct Hd2 as (-> & Hq0 & q2 & Hmq & Hd3). apply NoDup_cons in Hnd as [Hne _].
      assert (q' <> e) as Hqe by (intros ->; apply Hne; constructor).
      exists (<[q' := {| e_VirtualAddress := vq; e_Next := q2; e_Last := 0 |}]> m1).
      split; [|split; [by rewrite lookup_insert_ne|split]].
      + apply wp_run. unfold RemoveFromMemoryList. ksteps. split; [done|]. cbn.
        by rewrite !list_insert_insert_eq.
      + intros _. exists {| e_VirtualAddress := vq; e_Next := q2; e_Last := e |}.
        by rewrite lookup_insert_eq.
      + intros e' H1 H2. unfold m1. rewrite !lookup_insert_ne; try done. by apply not_eq_sym, H2. }
  exists (<[e := usable]> (<[e := usable]> m2)), q. split; [done|]. split; [by rewrite lookup_insert_eq|].
  apply NoDup_cons in Hnd as Hne. destruct Hne as [Hne _]. split.
  - apply (dlseg_remove (k_mte s) _ e [] e l2 t 0 q); [done|done|done|done| |].
    + intros Hl. destruct (Hq Hl) as (x & Hx & Hx'). exists x. split; [done|].
      assert (q <> e); [|by rewrite !lookup_insert_ne].
      destruct l2 as [|[q' vq] l2]; [done|]. destruct Hd2 as [-> _]. intros ->. apply Hne. constructor.
    + intros e' H1 _ H2. rewrite !lookup_insert_ne by done. by apply Hf.
  - intros e' [H1 H2]%not_elem_of_cons. rewrite !lookup_insert_ne by done. apply Hf; [done|].
    intros Hl ->. destruct l2 as [|[q' vq] l2]; [done|]. destruct Hd2 as [-> _]. apply H2. constructor.
Qed.

(** The code's path when the entry has a predecessor [c]. *)
Lemma remove_inner_run s i p c vc e v q rr t l2 :
  k_ptable s !! i = Some p ->
  k_mte s !! e = Some {| e_VirtualAddress := v; e_Next := q; e_Last := c |} ->
  k_mte s !! c = Some {| e_VirtualAddress := vc; e_Next := e; e_Last := rr |} ->
  dlseg (k_mte s) e q l2 t 0 -> (e ∉ l2.*1) -> (c ∉ e :: l2.*1) -> p_MemoryListHead p <> e ->
  let m1 := <[e := {| e_VirtualAddress := SLOT_USABLE; e_Next := q; e_Last := c |}]> (k_mte s) in
  find_previous (S (size m1)) (p_MemoryListHead p) e (s <| k_mte := m1 |>) = Ret c (s <| k_mte := m1 |>) ->
  exists m',
    RemoveFromMemoryList i e s = Ret tt (remove_post s i p m' (p_MemoryListHead p)) /\
    m' !! e = Some usable /\
    m' !! c = Some {| e_VirtualAddress := vc; e_Next := q; e_Last := rr |} /\
    (l2 <> [] -> exists x, k_mte s !! q = Some x /\ m' !! q = Some (x <| e_Last := c |>)) /\
    (forall e', e' <> e -> e' <> c -> (l2 <> [] -> e' <> q) -> m' !! e' = k_mte s !! e').
Proof.
  intros Hp Hm Hmc Hd2 He2 [Hce Hc2]%not_elem_of_cons Hhe m1 Hfp.
  set (h := p_MemoryListHead p) in *.
  set (out := fun m2 : gmap Z MemoryTableEntry => <[e := usable]>
    (<[e := {| e_VirtualAddress := SLOT_USABLE; e_Next := 0; e_Last := c |}]> m2)).
  destruct l2 as [|[q' vq] l2].
  - destruct Hd2 as [-> ->].
    exists (out (<[c := {| e_VirtualAddress := vc; e_Next := 0; e_Last := rr |}]> m1)). unfold out.
    split; [|split; [klook|split; [klook|split; [done|]]]].
    + apply wp_run. unfold RemoveFromMemoryList, mte_fuel. ksteps. fold h. ksteps. fold m1.
      eapply wp_eq; [exact Hfp|]. unfold m1 at 1. ksteps. done.
    + intros e' H1 H2 _. unfold m1. klook.
  - destruct Hd2 as (-> & Hq0 & q2 & Hmq & Hd3). cbn in He2, Hc2.
    apply not_elem_of_cons in He2 as [Hqe _]. apply not_elem_of_cons in Hc2 as [Hcq _].
    exists (out (<[c := {| e_VirtualAddress := vc; e_Next := q'; e_Last := rr |}]>
           (<[q' := {| e_VirtualAddress := vq; e_Next := q2; e_Last := c |}]> m1))). unfold out.
    split; [|split; [klook|split; [klook|split]]].
    + apply wp_run. unfold RemoveFromMemoryList, mte_fuel. ksteps. fold h. ksteps. fold m1.
      eapply wp_eq; [exact Hfp|]. unfold m1 at 1. ksteps. done.
    + intros _. exists {| e_VirtualAddress := vq; e_Next := q2; e_Last := e |}. split; klook.
    + intros e' H1 H2 H3. specialize (H3 ltac:(done)). unfold m1. klook.
Qed.

Lemma remove_inner s i p l1 c vc e v l2 t :
  k_ptable s !! i = Some p ->
  dlseg (k_mte s) 0 (p_MemoryListHead p) ((l1 ++ [(c, vc)]) ++ (e, v) :: l2) t 0 ->
  NoDup ((l1 ++ [(c, vc)]) ++ (e, v) :: l2).*1 ->
  exists m',
    RemoveFromMemoryList i e s = Ret tt (remove_post s i p m' (p_MemoryListHead p)) /\
    m' !! e = Some usable /\
    dlseg m' 0 (p_MemoryListHead p) ((l1 ++ [(c, vc)]) ++ l2) (match l2 with [] => c | _ => t end) 0 /\
    (forall e', e' ∉ ((l1 ++ [(c, vc)]) ++ (e, v) :: l2).*1 -> m' !! e' = k_mte s !! e').
Proof.
  intros Hp Hd Hnd. pose proof (dlseg_length _ _ _ _ _ _ Hd Hnd) as Hlen.
  apply dlseg_app in Hd as (r & e0 & Hd1 & -> & Hn & q & Hm & Hd2).
  pose proof Hd1 as (-> & Hcn & rr & Hmc & Hd0)%dlseg_snoc.
  set (h := p_MemoryListHead p) in *. set (l := l1 ++ [(c, vc)]) in *.
  rewrite fmap_app in Hnd |- *. cbn in Hnd |- *.
  pose proof Hnd as (_ & Hdis & [He2 _]%NoDup_cons)%NoDup_app.
  assert (e ∉ l.*1) as Hel by (intros He; apply (Hdis e He); constructor).
  assert (c ∈ l.*1) as Hcl by (unfold l; rewrite fmap_app; apply elem_of_app; right; constructor).
  assert (h <> e) as Hhe.
  { intros ->. apply Hel. unfold l in Hd1 |- *.
    destruct l1 as [|[e1 v1] l1]; destruct Hd1 as [-> _]; constructor. }
  destruct (remove_inner_run s i p c vc e v q rr t l2 Hp Hm Hmc Hd2 He2 (Hdis _ Hcl) Hhe)
    as (m' & Hr & He & Hc & Hq & Hf).
  { eapply (find_previous_ok _ e c vc l1 _ 0 h c); cbn; [|done|].
    - fold l. eapply dlseg_ext; [|exact Hd1]. intros e' He'. rewrite lookup_insert_ne; [done|].
      by intros <-.
    - rewrite map_size_insert_Some by eauto. unfold l in Hlen. rewrite !length_app in Hlen.
      cbn in Hlen. lia. }
  exists m'. split; [exact Hr|]. split; [done|]. split.
  - pose proof (dlseg_remove (k_mte s) m' h l e l2 t c q) as HR.
    replace (match l with [] => q | _ => h end) with h in HR by (unfold l; by destruct l1).
    apply HR; [done|done|done|by eauto|done|].
    intros e' H1 H2 H3. apply Hf; auto. apply H2. unfold l. by destruct l1.
  - intros e' [H1 [H2 H3]%not_elem_of_cons]%not_elem_of_app. apply Hf; [done|by intros ->|].
    intros Hl2 ->. destruct l2 as [|[q' vq] l2]; [done|]. destruct Hd2 as [-> _]. apply H3. constructor.
Qed.

End ListOps.

(** ** The table: pages, slots and the invariant *)

(** [page_chain m p pages]: the pages linked by Next from [p], each aligned. *)
Fixpoint page_chain (m : gmap Z TablePage) (p : Z) (pages : list Z) : Prop :=
  match pages with
  | [] => p = 0
  | pg :: pages =>
      p = pg /\ 0 < pg /\ pg mod 4096 = 0 /\ exists x, m !! pg = Some x /\ page_chain m (t_Next x) pages
  end.

Definition page_slots (pg : Z) : list Z := mte_addr pg <$> range 0 (Z.to_nat MEMORY_TABLE_ENTRY_NUM).
Definition slots (pages : list Z) : list Z := pages ≫= page_slots.

Lemma page_chain_pages m p pages pg : page_chain m p pages -> pg ∈ pages ->
  0 < pg /\ pg mod 4096 = 0 /\ is_Some (m !! pg).
Proof.
  revert p. induction pages as [|pg' pages IH]; intros p; cbn; [by rewrite elem_of_nil|].
  intros (-> & H1 & H2 & x & Hx & Hc) [->|Hin]%elem_of_cons; eauto.
Qed.

Lemma page_chain_length m p pages :
  page_chain m p pages -> NoDup pages -> (length pages <= size m)%nat.
Proof.
  intros Hc Hnd.
  assert (list_to_set pages ⊆@{gset Z} dom m) as Hsub.
  { intros pg Hin%elem_of_list_to_set. apply elem_of_dom. by eapply page_chain_pages. }
  apply subseteq_size in Hsub. by rewrite size_list_to_set, size_dom in Hsub.
Qed.

Lemma elem_of_page_slots pg e :
  e ∈ page_slots pg <-> exists i, 0 <= i < MEMORY_TABLE_ENTRY_NUM /\ e = mte_addr pg i.
Proof.
  unfold page_slots. rewrite list_elem_of_fmap. setoid_rewrite elem_of_range.
  split; intros (i & H1 & H2); exists i; split; try done; unfold MEMORY_TABLE_ENTRY_NUM in *; lia.
Qed.

Lemma elem_of_slots pages e : e ∈ slots pages <-> exists pg, pg ∈ pages /\ e ∈ page_slots pg.
Proof. unfold slots. rewrite list_elem_of_bind. split; intros (pg & H1 & H2); eauto. Qed.

(** A slot lies inside its page: distinct aligned pages have distinct slots. *)
Lemma slot_page pg e : e ∈ page_slots pg -> pg mod 4096 = 0 -> pg = 4096 * (e / 4096).
Proof.
  intros (i & Hi & ->)%elem_of_page_slots. unfold mte_addr, MEMORY_TABLE_ENTRY_NUM in *. dlia.
Qed.

Lemma slot_pos m p pages e : page_chain m p pages -> e ∈ slots pages -> 0 < e.
Proof.
  intros Hc (pg & Hpg & (j & Hj & ->)%elem_of_page_slots)%elem_of_slots.
  destruct (page_chain_pages _ _ _ _ Hc Hpg) as (Hpos & _). unfold mte_addr. lia.
Qed.

Lemma NoDup_slots m p pages : page_chain m p pages -> NoDup pages -> NoDup (slots pages).
Proof.
  revert p. induction pages as [|pg pages IH]; intros p; cbn; [constructor|].
  intros (-> & H1 & H2 & x & Hx & Hc) [Hpg Hnd]%NoDup_cons.
  apply NoDup_app. split; [|split; [|by eapply IH]].
  - apply NoDup_fmap_2; [|apply NoDup_range]. unfold mte_addr. intros i j. lia.
  - intros e He (pg' & Hpg' & He')%elem_of_slots.
    destruct (page_chain_pages _ _ _ _ Hc Hpg') as (_ & Hmod & _).
    apply Hpg. by rewrite (slot_page _ _ He H2), <-(slot_page _ _ He' Hmod).
Qed.

Lemma length_slots pages : Z.of_nat (length (slots pages)) = 340 * Z.of_nat (length pages).
Proof.
  induction pages as [|pg pages IH]; [done|].
  change (slots (pg :: pages)) with (page_slots pg ++ slots pages).
  rewrite length_app, Nat2Z.inj_add, IH. unfold page_slots. rewrite length_fmap, length_range.
  unfold MEMORY_TABLE_ENTRY_NUM. cbn [length]. lia.
Qed.

(** The virtual address in a slot. *)
Definition slot_va (m : gmap Z MemoryTableEntry) (e : Z) : option Z := e_VirtualAddress <$> m !! e.

Definition find_slot (m : gmap Z MemoryTableEntry) (va : Z) (l : list Z) : option Z :=
  head (omap (fun e => if decide (slot_va m e = Some va) then Some e else None) l).

Lemma find_slot_Some m va l e :
  find_slot m va l = Some e -> e ∈ l /\ slot_va m e = Some va.
Proof.
  unfold find_slot. intros H%head_Some_elem_of%list_elem_of_omap.
  destruct H as (e' & Hin & H). case_decide; by simplify_eq.
Qed.

Lemma find_slot_None m va l e : find_slot m va l = None -> e ∈ l -> slot_va m e <> Some va.
Proof.
  unfold find_slot. induction l as [|e' l IH]; cbn; [by rewrite elem_of_nil|].
  case_decide; [done|]. intros Hn [->|Hin]%elem_of_cons; auto.
Qed.

Lemma find_slot_app m va l1 l2 :
  find_slot m va (l1 ++ l2) =
  match find_slot m va l1 with Some e => Some e | None => find_slot m va l2 end.
Proof.
  unfold find_slot. rewrite omap_app. by destruct (omap _ l1).
Qed.

Lemma head_omap_fmap {A B C} (f : B -> option C) (g : A -> B) l :
  head (omap f (g <$> l)) = head (omap (fun x => f (g x)) l).
Proof. induction l as [|x l IH]; [done|]. cbn. by destruct (f (g x)). Qed.

Section TableOps.
Context {F : Type} {KI : KernelImage}.
Implicit Types s : kst F.

Lemma find_in_memory_page_ok s pg va :
  (forall e, e ∈ page_slots pg -> is_Some (k_mte s !! e)) ->
  find_in_memory_page pg va s = Ret (find_slot (k_mte s) va (page_slots pg)) s.
Proof.
  intros Hs. unfold find_in_memory_page.
  rewrite (for_find_pure _ _ (fun i =>
    if decide (slot_va (k_mte s) (mte_addr pg i) = Some va) then Some (mte_addr pg i) else None)).
  - unfold find_slot, page_slots. by rewrite head_omap_fmap.
  - intros i Hi. unfold bind, mte_get, slot_va.
    destruct (Hs (mte_addr pg i)) as [x ->]; [by apply list_elem_of_fmap_2|]. cbn.
    destruct (Z.eqb_spec (e_VirtualAddress x) va); case_decide; by simplify_eq.
Qed.

Lemma GetAddress_loop_ok s va : forall pages fuel p,
  page_chain (k_mtp s) p pages ->
  (forall e, e ∈ slots pages -> is_Some (k_mte s !! e)) -> (length pages <= fuel)%nat ->
  GetAddressInMemoryTable_loop fuel p va s =
  match find_slot (k_mte s) va (slots pages) with
  | Some e => Ret e s
  | None => Panic "[ERROR] Should find a record in memory table!"
  end.
Proof.
  induction pages as [|pg pages IH]; intros fuel p Hc Hs Hf; cbn in Hc.
  - subst p. by destruct fuel.
  - destruct Hc as (-> & Hpos & _ & x & Hx & Hc).
    destruct fuel as [|fuel]; [cbn in Hf; lia|]. cbn [GetAddressInMemoryTable_loop].
    destruct (Z.eqb_spec pg 0); [lia|]. unfold bind.
    rewrite find_in_memory_page_ok
      by (intros e He; apply Hs; cbn; apply elem_of_app; by left).
    change (slots (pg :: pages)) with (page_slots pg ++ slots pages). rewrite find_slot_app.
    destruct (find_slot (k_mte s) va (page_slots pg)) as [e|]; [done|].
    unfold mtp_get. rewrite Hx. apply IH; [done| |cbn in Hf; lia].
    intros e He. apply Hs. cbn. apply elem_of_app. by right.
Qed.

End TableOps.

(** ** The table invariant *)

Section Table.
Context {F : Type} {KI : KernelImage}.
Implicit Types s : kst F.

(** [l] is the list of entries of process [i]; see the head of the file.  An
    empty list leaves MemoryListTail free: RecordInMemory sets it. *)
Record table_inv s (i : nat) (p : proc) (pages : list Z) (l : list (Z * Z)) : Prop := {
  ti_proc : k_ptable s !! i = Some p;
  ti_chain : page_chain (k_mtp s) (p_MemoryTableListHead p) pages;
  ti_pages : NoDup pages;
  ti_list : exists t, dlseg (k_mte s) 0 (p_MemoryListHead p) l t 0 /\ (l <> [] -> p_MemoryListTail p = t);
  ti_entries : NoDup l.*1;
  ti_inside : l.*1 ⊆ slots pages;
  ti_vas : NoDup l.*2;
  ti_used : SLOT_USABLE ∉ l.*2;
  ti_free : forall e, e ∈ slots pages -> e ∉ l.*1 -> k_mte s !! e = Some usable;
  ti_count : p_MemoryEntryNum p = Z.of_nat (length l)
}.

Definition mem_table s i (pages q : list Z) : Prop :=
  exists p l, table_inv s i p pages l /\ l.*2 = q.

Lemma table_slots s i p pages l e :
  table_inv s i p pages l -> e ∈ slots pages -> is_Some (k_mte s !! e).
Proof.
  intros I He. destruct (decide (e ∈ l.*1)) as [Hin|Hin]; [|by rewrite (ti_free _ _ _ _ _ I)].
  apply list_elem_of_fmap in Hin as ([e' va] & -> & Hin).
  destruct (ti_list _ _ _ _ _ I) as (t & Hd & _).
  destruct (dlseg_lookup _ _ _ _ _ _ _ _ Hd Hin) as (x & Hx & _). cbn [fst]. eauto.
Qed.

Lemma slot_va_used s i p pages l e va :
  table_inv s i p pages l -> (e, va) ∈ l -> slot_va (k_mte s) e = Some va.
Proof.
  intros I Hin. destruct (ti_list _ _ _ _ _ I) as (t & Hd & _).
  destruct (dlseg_lookup _ _ _ _ _ _ _ _ Hd Hin) as (x & Hx & <- & _).
  unfold slot_va. by rewrite Hx.
Qed.

(** A slot holds the address [va] when it is the entry of [va] in the list. *)
Lemma slot_va_inv s i p pages l e va :
  table_inv s i p pages l -> e ∈ slots pages -> va <> SLOT_USABLE ->
  slot_va (k_mte s) e = Some va -> (e, va) ∈ l.
Proof.
  intros I He Hva Hs. destruct (decide (e ∈ l.*1)) as [Hin|Hin].
  - apply list_elem_of_fmap in Hin as ([e' va'] & -> & Hin).
    cbn [fst] in Hs. rewrite (slot_va_used _ _ _ _ _ _ _ I Hin) in Hs. by simplify_eq.
  - unfold slot_va in Hs. rewrite (ti_free _ _ _ _ _ I) in Hs by done. cbn in Hs. congruence.
Qed.

Lemma usable_slot s i p pages l e :
  table_inv s i p pages l -> e ∈ slots pages ->
  slot_va (k_mte s) e = Some SLOT_USABLE -> e ∉ l.*1.
Proof.
  intros I He Hs ([e' va] & -> & Hin)%list_elem_of_fmap.
  cbn [fst] in Hs. rewrite (slot_va_used _ _ _ _ _ _ _ I Hin) in Hs. injection Hs as ->.
  apply (ti_used _ _ _ _ _ I). apply list_elem_of_fmap. by exists (e', SLOT_USABLE).
Qed.

Lemma table_fuel s i p pages l :
  table_inv s i p pages l -> (length pages <= S (size (k_mtp s)))%nat.
Proof.
  intros I. pose proof (page_chain_length _ _ _ (ti_chain _ _ _ _ _ I) (ti_pages _ _ _ _ _ I)). lia.
Qed.

(** GetAddressInMemoryTable returns the entry of [va], or panics. *)
Lemma GetAddress_found s i p pages l e va :
  table_inv s i p pages l -> (e, va) ∈ l -> GetAddressInMemoryTable i va s = Ret e s.
Proof.
  intros I Hin. unfold GetAddressInMemoryTable, bind, get_proc, mtp_fuel, gets.
  rewrite (ti_proc _ _ _ _ _ I).
  rewrite (GetAddress_loop_ok s va pages)
    by eauto using ti_chain, table_slots, table_fuel.
  assert (va <> SLOT_USABLE) as Hva.
  { intros ->. apply (ti_used _ _ _ _ _ I), list_elem_of_fmap. by exists (e, SLOT_USABLE). }
  destruct (find_slot _ va (slots pages)) as [e'|] eqn:Hf.
  - apply find_slot_Some in Hf as [Hs Hv].
    pose proof (slot_va_inv _ _ _ _ _ _ _ I Hs Hva Hv) as Hin'. f_equal.
    apply list_elem_of_lookup in Hin as [n Hn]. apply list_elem_of_lookup in Hin' as [n' Hn'].
    assert (n = n') as ->; [|congruence].
    eapply (NoDup_lookup _ _ _ va (ti_vas _ _ _ _ _ I)); rewrite list_lookup_fmap, ?Hn, ?Hn'; done.
  - exfalso. apply (find_slot_None _ _ _ e Hf); [|by eapply slot_va_used].
    apply (ti_inside _ _ _ _ _ I), list_elem_of_fmap. by exists (e, va).
Qed.

Lemma GetAddress_missing s i p pages l va :
  table_inv s i p pages l -> va <> SLOT_USABLE -> (va ∉ l.*2) ->
  GetAddressInMemoryTable i va s = Panic "[ERROR] Should find a record in memory table!".
Proof.
  intros I Hva Hin. unfold GetAddressInMemoryTable, bind, get_proc, mtp_fuel, gets.
  rewrite (ti_proc _ _ _ _ _ I).
  rewrite (GetAddress_loop_ok s va pages)
    by eauto using ti_chain, table_slots, table_fuel.
  destruct (find_slot _ va (slots pages)) as [e|] eqn:Hf; [|done].
  apply find_slot_Some in Hf as [Hs Hv]. exfalso. apply Hin, list_elem_of_fmap.
  exists (e, va). split; [done|]. by eapply slot_va_inv.
Qed.

(** ** RecordInMemory *)

(** The body run at the first usable slot [e]. *)
Definition record_at (e TheVirtualAddress : Z) (i : nat) : M (kst F) unit :=
  p <- get_proc i ;;
  mte_upd e (fun x => x <| e_VirtualAddress := TheVirtualAddress |>) ;;;
  mte_upd e (fun x => x <| e_Next := p_MemoryListHead p |>) ;;;
  if p_MemoryListHead p =? 0 then
    upd_proc i (fun p => p <| p_MemoryListHead := e |>) ;;;
    upd_proc i (fun p => p <| p_MemoryListTail := e |>)
  else
    mte_upd (p_MemoryListHead p) (fun x => x <| e_Last := e |>) ;;;
    upd_proc i (fun p => p <| p_MemoryListHead := e |>) ;;;
    mte_upd e (fun x => x <| e_Next := p_MemoryListHead p |>).

Lemma Record_loop_ok s va i : forall pages fuel p,
  page_chain (k_mtp s) p pages ->
  (forall e, e ∈ slots pages -> is_Some (k_mte s !! e)) -> (length pages <= fuel)%nat ->
  RecordInMemory_loop fuel p va i s =
  match find_slot (k_mte s) SLOT_USABLE (slots pages) with
  | Some e => record_at e va i s
  | None => Panic "[ERROR] No free slot in memory."
  end.
Proof.
  induction pages as [|pg pages IH]; intros fuel p Hc Hs Hf; cbn in Hc.
  - subst p. by destruct fuel.
  - destruct Hc as (-> & Hpos & _ & x & Hx & Hc).
    destruct fuel as [|fuel]; [cbn in Hf; lia|]. cbn [RecordInMemory_loop].
    destruct (Z.eqb_spec pg 0); [lia|].
    rewrite (bind_ret_eq _ _ _ _ _ (find_in_memory_page_ok s pg SLOT_USABLE
      ltac:(intros e He; apply Hs; cbn; apply elem_of_app; by left))).
    change (slots (pg :: pages)) with (page_slots pg ++ slots pages). rewrite find_slot_app.
    destruct (find_slot (k_mte s) SLOT_USABLE (page_slots pg)) as [e|]; [done|].
    unfold bind at 1, mtp_get. rewrite Hx. apply IH; [done| |cbn in Hf; lia].
    intros e He. apply Hs. cbn. apply elem_of_app. by right.
Qed.

Lemma RecordInMemory_eq s i p pages l va :
  table_inv s i p pages l ->
  RecordInMemory va i s =
  match find_slot (k_mte s) SLOT_USABLE (slots pages) with
  | Some e => record_at e va i s
  | None => Panic "[ERROR] No free slot in memory."
  end.
Proof.
  intros I. unfold RecordInMemory. unfold bind at 1, get_proc, mtp_fuel.
  rewrite (ti_proc _ _ _ _ _ I). unfold bind at 1, gets.
  rewrite (Record_loop_ok s va i pages); eauto using ti_chain, table_slots, table_fuel.
Qed.

Lemma table_step s i p pages l m' p' l' t :
  table_inv s i p pages l ->
  p_MemoryTableListHead p' = p_MemoryTableListHead p ->
  dlseg m' 0 (p_MemoryListHead p') l' t 0 -> (l' <> [] -> p_MemoryListTail p' = t) ->
  NoDup l'.*1 -> l'.*1 ⊆ slots pages -> NoDup l'.*2 -> (SLOT_USABLE ∉ l'.*2) ->
  (forall e, e ∈ slots pages -> e ∉ l'.*1 -> m' !! e = Some usable) ->
  p_MemoryEntryNum p' = Z.of_nat (length l') ->
  table_inv (list_post s i m' p') i p' pages l'.
Proof.
  intros I Hhd Hd Ht H1 H2 H3 H4 H5 H6. pose proof (ti_proc _ _ _ _ _ I) as Hp.
  constructor; cbn; try done; [| |by apply I|by exists t].
  - by rewrite list_lookup_insert_eq by eauto using lookup_lt_Some.
  - rewrite Hhd. apply I.
Qed.

Lemma record_at_ok s i p pages l va e :
  table_inv s i p pages l -> e ∈ slots pages -> (e ∉ l.*1) -> (va ∉ l.*2) -> va <> SLOT_USABLE ->
  exists m' t,
    record_at e va i s =
      Ret tt (list_post s i m' (p <| p_MemoryListHead := e |> <| p_MemoryListTail := t |>)) /\
    dlseg m' 0 e ((e, va) :: l) t 0 /\
    (forall e', e' ∉ e :: l.*1 -> m' !! e' = k_mte s !! e').
Proof.
  intros I He Hel Hva Hu. pose proof (ti_proc _ _ _ _ _ I) as Hp.
  pose proof (ti_free _ _ _ _ _ I _ He Hel) as Hm.
  pose proof (slot_pos _ _ _ _ (ti_chain _ _ _ _ _ I) He) as Hpos.
  assert (e <> 0) as He0 by lia.
  destruct (ti_list _ _ _ _ _ I) as (t & Hd & Ht).
  destruct l as [|[h vh] l].
  - destruct Hd as [Hh ->].
    exists (<[e := {| e_VirtualAddress := va; e_Next := 0; e_Last := 0 |}]>
      (<[e := {| e_VirtualAddress := va; e_Next := 0; e_Last := 0 |}]> (k_mte s))), e. split; [|split].
    + apply wp_run. unfold record_at. unfold usable in Hm. ksteps. rewrite Hh.
      split; [done|]. unfold list_post. kred. by rewrite list_insert_insert_eq.
    + cbn. repeat (split; [done|]). exists 0. split; [klook|done].
    + intros e' [H1 _]%not_elem_of_cons. klook.
  - pose proof Hd as (Hh & Hh0 & q & Hmh & _). specialize (Ht ltac:(done)).
    cbn in Hel. apply not_elem_of_cons in Hel as [Heh Hel].
    set (n := {| e_VirtualAddress := va; e_Next := h; e_Last := 0 |}).
    set (m' := <[e := n]> (<[h := {| e_VirtualAddress := vh; e_Next := q; e_Last := e |}]>
      (<[e := n]> (<[e := {| e_VirtualAddress := va; e_Next := 0; e_Last := 0 |}]> (k_mte s))))).
    exists m', t. split; [|split].
    + apply wp_run. unfold record_at. unfold usable in Hm. ksteps. rewrite Hh. ksteps. split; [done|]. by rewrite <-Ht.
    + rewrite Hh in Hd. eapply dlseg_push; [exact Hd|done|apply I| |done| | |].
      * cbn. by apply not_elem_of_cons.
      * unfold m'. klook.
      * eexists. split; [exact Hmh|]. unfold m'. klook.
      * intros e' H1 H2. unfold m'. klook.
    + intros e' [H1 [H2 H3]%not_elem_of_cons]%not_elem_of_cons. cbn in H2. unfold m'. klook.
Qed.

Lemma table_record s i p pages l va :
  table_inv s i p pages l -> k_curproc s = Some i ->
  (va ∉ l.*2) -> va <> SLOT_USABLE -> Z.of_nat (length l) < 340 * Z.of_nat (length pages) ->
  exists e t m',
    let p' := p <| p_MemoryListHead := e |> <| p_MemoryListTail := t |> <| p_MemoryEntryNum ::= fun n => n + 1 |> in
    RecordPage va s = Ret tt (list_post s i m' p') /\
    table_inv (list_post s i m' p') i p' pages ((e, va) :: l).
Proof.
  intros I Hcur Hva Hu Hroom. pose proof (ti_proc _ _ _ _ _ I) as Hp.
  destruct (find_slot (k_mte s) SLOT_USABLE (slots pages)) as [e|] eqn:Hf.
  - pose proof Hf as [Hs Hv]%find_slot_Some. pose proof (usable_slot _ _ _ _ _ _ I Hs Hv) as Hel.
    destruct (record_at_ok s i p pages l va e I Hs Hel Hva Hu) as (m' & t & Hr & Hd & Hfr).
    exists e, t, m'. intros p'. split.
    + apply wp_run. unfold RecordPage. ksteps. eapply wp_eq; [rewrite (RecordInMemory_eq s i p pages l va I), Hf; exact Hr|].
      unfold list_post. ksteps. split; [done|]. by rewrite list_insert_insert_eq.
    + eapply table_step; [exact I|done|exact Hd|done| | | | | |].
      * cbn. apply NoDup_cons. split; [done|apply I].
      * cbn. intros e' [->|He']%elem_of_cons; [done|by apply (ti_inside _ _ _ _ _ I)].
      * cbn. apply NoDup_cons. split; [done|apply I].
      * cbn. apply not_elem_of_cons. split; [done|apply I].
      * intros e' H1 H2. rewrite Hfr by done. apply (ti_free _ _ _ _ _ I); [done|].
        intros H3. apply H2. by constructor.
      * cbn. rewrite (ti_count _ _ _ _ _ I). lia.
  - exfalso. pose proof (length_slots pages) as Hls.
    pose proof (NoDup_slots _ _ _ (ti_chain _ _ _ _ _ I) (ti_pages _ _ _ _ _ I)) as Hnd.
    assert (slots pages ⊆ l.*1) as Hsub.
    { intros e He. destruct (decide (e ∈ l.*1)) as [|Hn]; [done|].
      exfalso. apply (find_slot_None _ _ _ e Hf He). unfold slot_va. by rewrite (ti_free _ _ _ _ _ I). }
    apply (NoDup_submseteq _ _ Hnd), submseteq_length in Hsub. rewrite length_fmap in Hsub. lia.
Qed.

Lemma table_full s i p pages l va :
  table_inv s i p pages l -> k_curproc s = Some i ->
  Z.of_nat (length l) = 340 * Z.of_nat (length pages) ->
  RecordPage va s = Panic "[ERROR] No free slot in memory.".
Proof.
  intros I Hcur Hfull. unfold RecordPage, bind, myproc. rewrite Hcur.
  rewrite (RecordInMemory_eq s i p pages l va I).
  destruct (find_slot (k_mte s) SLOT_USABLE (slots pages)) as [e|] eqn:Hf; [exfalso|done].
  apply find_slot_Some in Hf as [Hs Hv]. apply (usable_slot _ _ _ _ _ _ I Hs Hv).
  pose proof (NoDup_submseteq _ _ (ti_entries _ _ _ _ _ I) (ti_inside _ _ _ _ _ I)) as Hsub.
  apply submseteq_length_Permutation in Hsub; [by rewrite Hsub|].
  pose proof (length_slots pages). rewrite length_fmap. lia.
Qed.

(** FIFO replacement: the oldest entry is reused for a new address.  RecordFile
    and SwapMemoryAndFile of vm.c do this around the transfer to the swap files;
    the result is the address evicted. *)
Definition replace (i : nat) (va : Z) : M (kst F) Z :=
  e <- GetMemoryListTail i ;;
  x <- mte_get e ;;
  SetMemoryListHead i e va ;;;
  ret (e_VirtualAddress x).

Lemma table_replace s i p pages l e1 v1 e2 v2 va :
  table_inv s i p pages (l ++ [(e1, v1); (e2, v2)]) ->
  (va ∉ (l ++ [(e1, v1); (e2, v2)]).*2) -> va <> SLOT_USABLE ->
  exists m' p',
    replace i va s = Ret v2 (list_post s i m' p') /\
    table_inv (list_post s i m' p') i p' pages ((e2, va) :: l ++ [(e1, v1)]).
Proof.
  intros I Hva Hu. pose proof (ti_proc _ _ _ _ _ I) as Hp.
  destruct (ti_list _ _ _ _ _ I) as (t & Hd & Ht). rewrite <-Ht in Hd by by destruct l.
  destruct (tail_spec s i p l e1 v1 e2 v2 Hp Hd (ti_entries _ _ _ _ _ I)) as (m1 & Hr1 & Hm2 & Hd1 & Hf1).
  set (p1 := p <| p_MemoryListTail := e1 |>) in *. set (s1 := list_post s i m1 p1) in *.
  assert (l ++ [(e1, v1); (e2, v2)] = (l ++ [(e1, v1)]) ++ [(e2, v2)]) as El by by rewrite <-app_assoc.
  pose proof (ti_entries _ _ _ _ _ I) as Hnd. rewrite El, fmap_app in Hnd.
  apply NoDup_app in Hnd as (Hnd1 & Hdis & _). cbn in Hdis.
  assert (e2 ∉ (l ++ [(e1, v1)]).*1) as He2 by (intros H; apply (Hdis _ H); constructor).
  assert (k_ptable s1 !! i = Some p1) as Hp1
    by (unfold s1; cbn; by rewrite list_lookup_insert_eq by eauto using lookup_lt_Some).
  assert (e2 <> 0) as Hz.
  { destruct (dlseg_lookup _ _ _ _ _ _ e2 v2 Hd) as (x & _ & _ & ?); [|done].
    apply elem_of_app. right. by right; left. }
  destruct (head_spec s1 i p1 (l ++ [(e1, v1)]) e2 _ va Hp1 Hd1 ltac:(by destruct l) Hnd1 He2 Hz Hm2 eq_refl)
    as (m2 & Hr2 & Hd2 & Hf2).
  set (p2 := p1 <| p_MemoryListHead := e2 |>) in *.
  exists m2, p2. split.
  - unfold replace. rewrite (bind_ret_eq _ _ _ _ _ Hr1).
    unfold bind, mte_get. change (k_mte s1) with m1. rewrite Hm2, Hr2. unfold ret, list_post, s1, list_post.
    kred. by rewrite list_insert_insert_eq.
  - assert (p_MemoryListHead p ∈ (l ++ [(e1, v1)]).*1) as Hhd.
    { destruct l as [|[e v] l]; cbn in Hd; destruct Hd as [-> _]; cbn; constructor. }
    pose proof (ti_vas _ _ _ _ _ I) as Hv. pose proof (ti_used _ _ _ _ _ I) as Hus.
    rewrite El, fmap_app in Hv, Hus, Hva. apply NoDup_app in Hv as (Hv & _ & _).
    apply not_elem_of_app in Hus as [Hus _]. apply not_elem_of_app in Hva as [Hva _].
    pose proof (ti_inside _ _ _ _ _ I) as Hin. rewrite El, fmap_app in Hin.
    eapply table_step; [exact I|done|exact Hd2|done| | | | | |].
    + cbn. by apply NoDup_cons.
    + cbn. intros e [->|He]%elem_of_cons; apply Hin, elem_of_app; [right; constructor|by left].
    + cbn. by apply NoDup_cons.
    + cbn. by apply not_elem_of_cons.
    + cbn. intros e H1 [H2 H3]%not_elem_of_cons.
      assert (e <> e1) by (intros ->; apply H3; rewrite fmap_app; apply elem_of_app; right; constructor).
      assert (e <> p_MemoryListHead p) by (by intros ->).
      rewrite Hf2 by done. change (k_mte s1) with m1. rewrite Hf1 by done.
      apply (ti_free _ _ _ _ _ I); [done|]. rewrite El, fmap_app. intros [H'|H']%elem_of_app; [done|].
      by apply list_elem_of_singleton in H'.
    + cbn. rewrite (ti_count _ _ _ _ _ I), El, length_app. cbn. lia.
Qed.

(** The entry of [va] leaves the list.  The last entry of the new list is the
    predecessor when the entry was the last one. *)
Lemma remove_run s i p pages l1 e va l2 :
  table_inv s i p pages (l1 ++ (e, va) :: l2) ->
  exists m' h,
    RemoveFromMemoryList i e s = Ret tt (remove_post s i p m' h) /\
    m' !! e = Some usable /\
    dlseg m' 0 h (l1 ++ l2)
      (match l2 with [] => from_option fst 0 (last l1) | _ => p_MemoryListTail p end) 0 /\
    (forall e', e' ∉ (l1 ++ (e, va) :: l2).*1 -> m' !! e' = k_mte s !! e').
Proof.
  intros I. pose proof (ti_proc _ _ _ _ _ I) as Hp. pose proof (ti_entries _ _ _ _ _ I) as Hnd.
  destruct (ti_list _ _ _ _ _ I) as (t & Hd & Ht). rewrite (Ht ltac:(by destruct l1)).
  destruct l1 as [|[c vc] l1 _] using rev_ind.
  - pose proof Hd as (Hh & _). rewrite Hh in Hd.
    destruct (remove_head s i p e va l2 t Hp Hh Hd Hnd) as (m' & q & Hr & He & Hd' & Hf).
    exists m', q. split; [exact Hr|]. split; [done|]. split; [|done]. by destruct l2.
  - destruct (remove_inner s i p l1 c vc e va l2 t Hp Hd Hnd) as (m' & Hr & He & Hd' & Hf).
    exists m', (p_MemoryListHead p). rewrite last_snoc. auto.
Qed.

Lemma table_remove s i p pages l1 e va l2 :
  table_inv s i p pages (l1 ++ (e, va) :: l2) -> l1 = [] \/ l2 <> [] ->
  exists m' p',
    RemoveFromMemoryList i e s = Ret tt (list_post s i m' p') /\
    table_inv (list_post s i m' p') i p' pages (l1 ++ l2).
Proof.
  intros I Hcase. destruct (remove_run s i p pages l1 e va l2 I) as (m' & h & Hr & He & Hd & Hf).
  eexists m', _. split; [exact Hr|].
  pose proof (ti_entries _ _ _ _ _ I) as H1. pose proof (ti_vas _ _ _ _ _ I) as H2.
  pose proof (ti_used _ _ _ _ _ I) as H3. pose proof (ti_inside _ _ _ _ _ I) as H4.
  pose proof (ti_count _ _ _ _ _ I) as H5.
  rewrite <-Permutation_middle in H1, H2, H3, H4, H5. cbn in H1, H2, H3, H4, H5.
  apply NoDup_cons in H1 as [He1 H1]. apply NoDup_cons in H2 as [_ H2].
  apply not_elem_of_cons in H3 as [_ H3].
  eapply table_step; [exact I|done|exact Hd| |done| |done|done| |]; cbn.
  - intros Hne. destruct l2; [|done]. by destruct Hcase as [->|].
  - intros e' He'. apply H4. by constructor.
  - intros e' Hs He'. destruct (decide (e' = e)) as [->|Hne]; [done|].
    assert (e' ∉ (l1 ++ (e, va) :: l2).*1).
    { rewrite <-Permutation_middle. cbn. by apply not_elem_of_cons. }
    rewrite Hf by done. by apply (ti_free _ _ _ _ _ I).
  - lia.
Qed.

(** Removing the last of three or more entries leaves MemoryListTail pointing
    at the removed entry. *)
Lemma remove_last_dangling s i p pages l e va :
  table_inv s i p pages (l ++ [(e, va)]) -> (2 <= length l)%nat ->
  (RemoveFromMemoryList i e ;;; GetMemoryListTail i) s =
  Panic "[ERROR] The Last of the memory list should not be NULL!".
Proof.
  intros I Hlen. pose proof (ti_proc _ _ _ _ _ I) as Hp.
  destruct (remove_run s i p pages l e va [] I) as (m' & h & Hr & He & Hd & _).
  destruct (ti_list _ _ _ _ _ I) as (t & Hd0 & Ht). specialize (Ht ltac:(by destruct l)).
  apply dlseg_snoc in Hd0 as (-> & He0 & _).
  rewrite (bind_ret_eq _ _ _ _ _ Hr), app_nil_r in *. unfold remove_post, list_post.
  destruct l as [|[e1 v1] [|[e2 v2] l]]; [cbn in Hlen; lia..|].
  cbn in Hd. destruct Hd as (-> & H1 & q & Hm & -> & H2 & _).
  unfold GetMemoryListTail, bind, get_proc, mte_get. kred.
  rewrite list_lookup_insert_eq by eauto using lookup_lt_Some. kred.
  destruct (Z.eqb_spec e1 0); [done|]. kred. rewrite Hm. kred.
  destruct (Z.eqb_spec e2 0); [done|]. rewrite Ht. unfold when, ret.
  destruct (Z.eqb_spec e 0); [done|]. kred. by rewrite He.
Qed.

End Table.

(** ** The abstract queue

    The virtual addresses in memory, newest first.  [cap] is the number of
    slots of the table.  [None] marks the calls the code does not support. *)
Inductive queue_op :=
| QRecord (va : Z)
| QReplace (va : Z)
| QRemove (va : Z).

Definition spec_op (cap : Z) (o : queue_op) (q : list Z) : option (Z * list Z) :=
  match o with
  | QRecord va =>
      if decide (va ∉ q) then
        if decide (va <> SLOT_USABLE /\ Z.of_nat (length q) < cap) then Some (0, va :: q) else None
      else None
  | QReplace va =>
      if decide (va ∉ q) then
        if decide (va <> SLOT_USABLE /\ (2 <= length q)%nat) then
          match last q with
          | Some old => Some (old, va :: removelast q)
          | None => None
          end
        else None
      else None
  | QRemove va =>
      if decide (va ∈ q) then
        if decide (q = [va] \/ last q <> Some va) then Some (0, base.filter (fun x => x <> va) q) else None
      else None
  end.

Fixpoint spec_ops (cap : Z) (os : list queue_op) (q : list Z) : option (list Z * list Z) :=
  match os with
  | [] => Some ([], q)
  | o :: os =>
      match spec_op cap o q with
      | Some (r, q) =>
          match spec_ops cap os q with
          | Some (rs, q) => Some (r :: rs, q)
          | None => None
          end
      | None => None
      end
  end.

Section Queue.
Context {F : Type} {KI : KernelImage}.
Implicit Types s : kst F.

Definition run_op (i : nat) (o : queue_op) : M (kst F) Z :=
  match o with
  | QRecord va => RecordPage va ;;; ret 0
  | QReplace va => replace i va
  | QRemove va => e <- GetAddressInMemoryTable i va ;; RemoveFromMemoryList i e ;;; ret 0
  end.

Fixpoint run_ops (i : nat) (os : list queue_op) : M (kst F) (list Z) :=
  match os with
  | [] => ret []
  | o :: os => r <- run_op i o ;; rs <- run_ops i os ;; ret (r :: rs)
  end.

Lemma filter_ne_middle (va : Z) q1 q2 :
  NoDup (q1 ++ va :: q2) -> base.filter (fun x => x <> va) (q1 ++ va :: q2) = q1 ++ q2.
Proof.
  intros (H1 & Hd & [H2 H3]%NoDup_cons)%NoDup_app.
  assert (forall l : list Z, (va ∉ l) -> base.filter (fun x => x <> va) l = l) as Hid.
  { intros l Hl. induction l as [|x l IH]; [done|]. apply not_elem_of_cons in Hl as [Hx Hl].
    rewrite filter_cons_True by congruence. by rewrite IH. }
  rewrite filter_app, filter_cons_False by (intros H; by apply H).
  rewrite !Hid; [done|done|]. intros Hin. apply (Hd va Hin). constructor.
Qed.

Lemma fmap_snd_split (l : list (Z * Z)) q1 va q2 :
  l.*2 = q1 ++ va :: q2 -> exists l1 e l2, l = l1 ++ (e, va) :: l2 /\ l1.*2 = q1 /\ l2.*2 = q2.
Proof.
  intros (l1 & l' & -> & H & ->)%fmap_app_inv. destruct l' as [|[e v] l2]; [done|].
  cbn in H. injection H as -> ->. eauto 10.
Qed.

(** Each call refines its specification. *)
Lemma op_refines s i pages q o r q' :
  mem_table s i pages q -> k_curproc s = Some i ->
  spec_op (340 * Z.of_nat (length pages)) o q = Some (r, q') ->
  exists s', run_op i o s = Ret r s' /\ mem_table s' i pages q' /\ k_curproc s' = Some i.
Proof.
  intros (p & l & I & Hq) Hcur Hspec. destruct o as [va|va|va]; cbn in Hspec.
  - case_decide as Hva; [|done]. case_decide as H; [|done]. destruct H as [Hu Hc]. simplify_eq.
    rewrite length_fmap in Hc.
    destruct (table_record s i p pages l va I Hcur Hva Hu Hc) as (e & t & m' & Hr & I').
    eexists. split; [cbn; by rewrite (bind_ret_eq _ _ _ _ _ Hr)|].
    split; [|done]. eexists _, ((e, va) :: l). split; [exact I'|done].
  - case_decide as Hva; [|done]. case_decide as H; [|done]. destruct H as [Hu Hc].
    destruct l as [|[e2 v2] l _] using rev_ind; [by subst q; cbn in Hc; lia|].
    destruct l as [|[e1 v1] l _] using rev_ind; [by subst q; cbn in Hc; lia|].
    subst q. rewrite <-app_assoc in I. cbn in I.
    rewrite fmap_app in Hspec. cbn in Hspec. rewrite last_snoc, removelast_last in Hspec. simplify_eq.
    rewrite <-app_assoc in Hva.
    destruct (table_replace s i p pages l e1 v1 e2 r va I Hva Hu) as (m' & p' & Hr & I').
    exists (list_post s i m' p'). split; [done|]. split; [|done].
    by exists p', ((e2, va) :: l ++ [(e1, v1)]).
  - case_decide as Hva; [|done]. case_decide as Hc; [|done]. simplify_eq.
    apply list_elem_of_split in Hva as (q1 & q2 & Hq).
    pose proof Hq as (l1 & e & l2 & -> & <- & <-)%fmap_snd_split.
    destruct (table_remove s i p pages l1 e va l2 I) as (m' & p' & Hr & I').
    { destruct l2 as [|x l2] using rev_ind; [|right; by destruct l2]. left.
      rewrite Hq in Hc. cbn in Hc. destruct Hc as [Hc|Hc]; [|by rewrite last_snoc in Hc].
      destruct l1 as [|y l1]; [done|]. cbn in Hc. injection Hc as _ Hc. by destruct l1. }
    exists (list_post s i m' p'). split; [|split; [|done]].
    + cbn. rewrite (bind_ret_eq _ _ _ _ _ (GetAddress_found s i p pages _ e va I
        ltac:(apply elem_of_app; right; constructor))). by rewrite (bind_ret_eq _ _ _ _ _ Hr).
    + exists p', (l1 ++ l2). split; [done|]. rewrite Hq, filter_ne_middle, fmap_app; [done|].
      rewrite <-Hq. apply I.
Qed.

Lemma ops_refine os : forall s i pages q rs q',
  mem_table s i pages q -> k_curproc s = Some i ->
  spec_ops (340 * Z.of_nat (length pages)) os q = Some (rs, q') ->
  exists s', run_ops i os s = Ret rs s' /\ mem_table s' i pages q' /\ k_curproc s' = Some i.
Proof.
  induction os as [|o os IH]; intros s i pages q rs q' Ht Hcur Hspec; cbn in Hspec.
  - simplify_eq. by exists s.
  - destruct (spec_op _ o q) as [[r q1]|] eqn:Ho; [|done].
    destruct (spec_ops _ os q1) as [[rs1 q2]|] eqn:Hos; [|done]. simplify_eq.
    destruct (op_refines s i pages q o r q1 Ht Hcur Ho) as (s1 & Hr1 & Ht1 & Hc1).
    destruct (IH s1 i pages q1 rs1 q' Ht1 Hc1 Hos) as (s2 & Hr2 & Ht2 & Hc2).
    exists s2. split; [|done]. cbn. rewrite (bind_ret_eq _ _ _ _ _ Hr1).
    by rewrite (bind_ret_eq _ _ _ _ _ Hr2).
Qed.

(** C15.  The memory table refines a queue.  For any sequence of recordings,
    replacements and removals that the abstract queue allows, the code returns
    (it neither panics nor runs out of fuel), its results are those of the
    queue, the addresses recorded are the queue's, newest first, every other
    slot stays usable, and MemoryEntryNum is the length of the queue. *)
Theorem memory_table_refines_queue s i pages q os rs q' :
  mem_table s i pages q -> k_curproc s = Some i ->
  spec_ops (340 * Z.of_nat (length pages)) os q = Some (rs, q') ->
  exists s', run_ops i os s = Ret rs s' /\ mem_table s' i pages q'.
Proof.
  intros Ht Hc Ho. destruct (ops_refine os s i pages q rs q' Ht Hc Ho) as (s' & Hr & Ht' & _). eauto.
Qed.

Lemma spec_replace_all cap vas : forall q,
  (2 <= length q)%nat -> NoDup (vas ++ q) -> (SLOT_USABLE ∉ vas) ->
  spec_ops cap (QReplace <$> vas) q =
  Some (take (length vas) (rev q ++ vas), take (length q) (rev vas ++ q)).
Proof.
  induction vas as [|va vas IH]; intros q Hq Hnd Hu; [cbn; by rewrite firstn_all|].
  cbn in Hnd. apply NoDup_cons in Hnd as [Hva Hnd]. apply not_elem_of_cons in Hu as [Hu0 Hu].
  apply not_elem_of_app in Hva as [Hva1 Hva2].
  cbn [fmap list_fmap spec_ops spec_op]. rewrite decide_True by done.
  rewrite decide_True by (split; [congruence|done]).
  destruct q as [|v q _] using rev_ind; [cbn in Hq; lia|].
  rewrite last_snoc, removelast_last. rewrite length_app in Hq. cbn in Hq.
  rewrite IH; [|cbn; lia| |done].
  - rewrite rev_app_distr. cbn [rev app length take]. f_equal. f_equal.
    + f_equal. by rewrite <-app_assoc.
    + rewrite length_app. cbn [length]. rewrite Nat.add_1_r.
      rewrite <-app_assoc. cbn [app]. rewrite (app_comm_cons q [v] va), app_assoc.
      rewrite (take_app_le (rev vas ++ va :: q) [v]); [done|]. rewrite length_app, length_rev. cbn. lia.
  - rewrite app_assoc in Hnd. apply NoDup_app in Hnd as (Hnd & _ & _).
    rewrite <-Permutation_middle. apply NoDup_cons. split; [|done].
    intros [?|?]%elem_of_app; [done|]. apply Hva2. apply elem_of_app. by left.
Qed.

(**  Replacement is first in, first out.  Replacing, one after the other,
    by the new addresses [vas] evicts the addresses in order of arrival: first
    those of the table from the oldest on, then the new ones; the table keeps
    the addresses that arrived last. *)
Theorem replacement_is_fifo s i pages q vas :
  mem_table s i pages q -> k_curproc s = Some i ->
  (2 <= length q)%nat -> NoDup (vas ++ q) -> (SLOT_USABLE ∉ vas) ->
  exists s', run_ops i (QReplace <$> vas) s = Ret (take (length vas) (rev q ++ vas)) s' /\
    mem_table s' i pages (take (length q) (rev vas ++ q)).
Proof.
  intros Ht Hc Hq Hnd Hu.
  destruct (ops_refine _ s i pages q _ _ Ht Hc (spec_replace_all _ vas q Hq Hnd Hu))
    as (s' & Hr & Ht' & _). eauto.
Qed.

(** A table that is full (340 entries per page) panics on a new page
    instead of losing a record. *)
Theorem record_full_panics s i pages q va :
  mem_table s i pages q -> k_curproc s = Some i ->
  Z.of_nat (length q) = 340 * Z.of_nat (length pages) ->
  RecordPage va s = Panic "[ERROR] No free slot in memory.".
Proof.
  intros (p & l & I & <-) Hcur Hf. rewrite length_fmap in Hf. by eapply table_full.
Qed.

(**  A defect of RemoveFromMemoryList: it never moves MemoryListTail.  After
    the oldest of three or more addresses is removed, the next request for a
    page to evict panics, although the list still has entries to give. *)
Theorem remove_oldest_breaks_eviction s i pages q va :
  mem_table s i pages (q ++ [va]) -> (2 <= length q)%nat ->
  (e <- GetAddressInMemoryTable i va ;; RemoveFromMemoryList i e ;;; GetMemoryListTail i) s =
  Panic "[ERROR] The Last of the memory list should not be NULL!".
Proof.
  intros (p & l & I & Hl) Hq.
  destruct (fmap_snd_split l q va [] Hl) as (l1 & e & l2 & -> & <- & Hl2).
  apply fmap_nil_inv in Hl2 as ->. rewrite length_fmap in Hq.
  rewrite (bind_ret_eq _ _ _ _ _ (GetAddress_found s i p pages _ e va I
    ltac:(apply elem_of_app; right; constructor))).
  by eapply remove_last_dangling.
Qed.

End Queue.

(** ** Witnesses *)

Module MemListWitness.

#[local] Existing Instance boot_image.

(** A process with a table of one page, all slots usable. *)
Definition tpage : Z := 0x80400000.
Definition fresh : kst unit :=
  (boot tt) <| k_ptable := [proc0 <| p_MemoryTableListHead := tpage |>] |>
    <| k_curproc := Some 0%nat |>
    <| k_mtp := {[tpage := {| t_Last := 0; t_Next := 0 |}]} |>
    <| k_mte := list_to_map ((fun e => (e, usable)) <$> page_slots tpage) |>.

Lemma fresh_table : mem_table fresh 0 [tpage] [].
Proof.
  eexists _, []. split; [|done]. constructor; try done.
  - cbn. repeat (split; [done|]). exists {| t_Last := 0; t_Next := 0 |}. split; [by rewrite lookup_insert_eq|done].
  - apply NoDup_singleton.
  - by exists 0.
  - constructor.
  - by intros e ?%elem_of_nil.
  - constructor.
  - by intros ?%elem_of_nil.
  - intros e He _. change (slots [tpage]) with (page_slots tpage ++ []) in He. rewrite app_nil_r in He.
    cbn [k_mte fresh upd]. apply elem_of_list_to_map_1.
    + rewrite <-list_fmap_compose. cbn. apply NoDup_fmap_2; [by intros x y|].
      apply NoDup_fmap_2; [|apply NoDup_range]. unfold mte_addr. intros x y. lia.
    + apply list_elem_of_fmap. by exists e.
Qed.

Lemma spec_record_all cap vas : forall q,
  NoDup (vas ++ q) -> (SLOT_USABLE ∉ vas) -> Z.of_nat (length vas + length q) <= cap ->
  spec_ops cap (QRecord <$> vas) q = Some (replicate (length vas) 0, rev vas ++ q).
Proof.
  induction vas as [|va vas IH]; intros q Hnd Hu Hc; [done|]. cbn in Hnd, Hc.
  apply NoDup_cons in Hnd as [[Hv1 Hv2]%not_elem_of_app Hnd]. apply not_elem_of_cons in Hu as [Hu0 Hu].
  cbn [fmap list_fmap spec_ops spec_op length replicate rev]. rewrite decide_True by done.
  rewrite decide_True by (split; [congruence|lia]).
  change (list_fmap _ _ QRecord vas) with (QRecord <$> vas).
  rewrite IH; [by rewrite <-app_assoc| |done|cbn; lia].
  rewrite <-Permutation_middle. apply NoDup_cons. by rewrite not_elem_of_app.
Qed.

(** The first [n] pages of a program recorded in order. *)
Lemma recorded (n : nat) : (n <= 340)%nat ->
  exists s : kst unit, mem_table s 0 [tpage] (rev (Z.mul 4096 <$> range 1 n)) /\ k_curproc s = Some 0%nat.
Proof.
  intros Hn.
  assert (forall x, x ∈ Z.mul 4096 <$> range 1 n -> 4096 <= x <= 4096 * 340) as Hr.
  { intros x (y & -> & Hy%elem_of_range)%list_elem_of_fmap. lia. }
  destruct (ops_refine (QRecord <$> (Z.mul 4096 <$> range 1 n)) fresh 0 [tpage] []
    (replicate (length (Z.mul 4096 <$> range 1 n)) 0) (rev (Z.mul 4096 <$> range 1 n) ++ [])) as (s & _ & Ht & Hc).
  - apply fresh_table.
  - done.
  - apply spec_record_all.
    + rewrite app_nil_r. apply NoDup_fmap_2; [intros x y; lia|apply NoDup_range].
    + intros Hx%Hr. unfold SLOT_USABLE in Hx. lia.
    + rewrite length_fmap, length_range. cbn. lia.
  - rewrite app_nil_r in Ht. eauto.
Qed.

Lemma memory_table_refines_queue_witness : exists s',
  run_ops 0 [QRecord 0x1000; QRecord 0x2000; QRecord 0x3000; QReplace 0x4000; QRemove 0x3000] fresh =
    Ret [0; 0; 0; 0x1000; 0] s' /\ mem_table s' 0 [tpage] [0x4000; 0x2000].
Proof.
  apply (memory_table_refines_queue fresh 0 [tpage] []
    [QRecord 0x1000; QRecord 0x2000; QRecord 0x3000; QReplace 0x4000; QRemove 0x3000]).
  - apply fresh_table.
  - reflexivity.
  - vm_compute. reflexivity.
Defined.

Lemma replacement_is_fifo_witness : exists s s' : kst unit,
  run_ops 0 (QReplace <$> [0x10000; 0x11000; 0x12000]) s = Ret [0x1000; 0x2000; 0x10000] s' /\
  mem_table s' 0 [tpage] [0x12000; 0x11000].
Proof.
  destruct (recorded 2 ltac:(lia)) as (s & Ht & Hc). exists s.
  apply (replacement_is_fifo s 0 [tpage] [0x2000; 0x1000] [0x10000; 0x11000; 0x12000] Ht Hc).
  - cbn. lia.
  - apply (bool_decide_unpack _). vm_compute. done.
  - apply (bool_decide_unpack _). vm_compute. done.
Defined.

Lemma record_full_panics_witness : exists s : kst unit,
  RecordPage 0x200000 s = Panic "[ERROR] No free slot in memory.".
Proof.
  destruct (recorded 340 ltac:(lia)) as (s & Ht & Hc). exists s.
  apply (record_full_panics s 0 [tpage] _ 0x200000 Ht Hc).
  rewrite length_rev, length_fmap, length_range. reflexivity.
Defined.

Lemma remove_oldest_breaks_eviction_witness : exists s : kst unit,
  (e <- GetAddressInMemoryTable 0 0x1000 ;; RemoveFromMemoryList 0 e ;;; GetMemoryListTail 0) s =
  Panic "[ERROR] The Last of the memory list should not be NULL!".
Proof.
  destruct (recorded 3 ltac:(lia)) as (s & Ht & Hc). exists s.
  apply (remove_oldest_breaks_eviction s 0 [tpage] [0x3000; 0x2000] 0x1000 Ht). cbn. lia.
Defined.

End MemListWitness.
