(* ===== verification/MemCopy.v ===== *)
(** Creating, clearing and copying the memory table (MemTable.v): AllocMemoryTable
    makes an empty table of 25 pages, ClearMemoryTable empties a table, and
    CopyVirtualMemoryData gives a child the queue of its parent. *)

From stdpp Require Import base gmap list strings.
From Stdlib Require Import ZArith Lia.
From S2P Require Import Prelude Mem Str Mmu State Kalloc MemTable MemList.

Section MemCopy.
Context {F : Type} {KI : KernelImage}.
Implicit Types s : kst F.

(** ** Clearing a page *)

Definition cleared (pg : Z) (l : list Z) (m : gmap Z MemoryTableEntry) : gmap Z MemoryTableEntry :=
  foldl (fun m i => <[mte_addr pg i := usable]> m) m l.

Lemma cleared_lookup pg l : forall m e,
  cleared pg l m !! e = if decide (e ∈ mte_addr pg <$> l) then Some usable else m !! e.
Proof.
  induction l as [|i l IH]; intros m e; cbn; [done|].
  unfold cleared in IH. rewrite IH.
  destruct (decide (e ∈ mte_addr pg <$> l)) as [Hin|Hin].
  - rewrite decide_True; [done|by constructor].
  - destruct (decide (e = mte_addr pg i)) as [->|Hne].
    + rewrite lookup_insert_eq, decide_True; [done|constructor].
    + rewrite lookup_insert_ne, decide_False; [done| |done].
      intros [|]%elem_of_cons; done.
Qed.

Lemma clear_entries pg l : forall s,
  for_each l (fun i => modify (fun s : kst F => s <| k_mte ::= <[mte_addr pg i :=
      {| e_VirtualAddress := SLOT_USABLE; e_Next := 0; e_Last := 0 |}]> |>)) s =
  Ret tt (s <| k_mte := cleared pg l (k_mte s) |>).
Proof.
  induction l as [|i l IH]; intros s; cbn [for_each]; [by destruct s|].
  unfold bind, modify. by rewrite IH.
Qed.

Definition page_cleared (pg : Z) : gmap Z MemoryTableEntry -> gmap Z MemoryTableEntry :=
  cleared pg (range 0 (Z.to_nat MEMORY_TABLE_ENTRY_NUM)).

Lemma page_cleared_lookup pg m e :
  page_cleared pg m !! e = if decide (e ∈ page_slots pg) then Some usable else m !! e.
Proof. apply cleared_lookup. Qed.

Lemma ClearMemoryPage_eq pg b s :
  ClearMemoryPage pg b s = Ret tt
    (s <| k_mte ::= page_cleared pg |>
       <| k_mtp ::= fun m => if b then <[pg := {| t_Last := 0; t_Next := 0 |}]> m else m |>).
Proof.
  unfold ClearMemoryPage. rewrite (bind_ret_eq _ _ _ _ _ (clear_entries pg _ s)).
  destruct b; [done|]. by destruct s.
Qed.

(** ** Making a table *)

(** What making table pages changes. *)
Definition alloc_post s (km : kmem) (mt : gmap Z MemoryTableEntry) (mp : gmap Z TablePage) : kst F :=
  s <| k_mem := km |> <| k_mte := mt |> <| k_mtp := mp |>.

Lemma AllocMemoryPage_ok s pg l :
  kmem_inv s (pg :: l) ->
  exists km, let s' := alloc_post s km (page_cleared pg (k_mte s))
                         (<[pg := {| t_Last := 0; t_Next := 0 |}]> (k_mtp s)) in
    AllocMemoryPage s = Ret pg s' /\ kmem_inv s' l.
Proof.
  intros Hinv. pose proof (kalloc_post_inv s pg l Hinv) as [H1 H2 H3 H4 H5].
  exists (k_mem (kalloc_post s pg)). split.
  - unfold AllocMemoryPage. rewrite (bind_ret_eq _ _ _ _ _ (kalloc_head s pg l Hinv)).
    pose proof (ki_pages _ _ Hinv) as [Hp _]%Forall_cons. pose proof (kpage_nonzero pg Hp).
    destruct (Z.eqb_spec pg 0); [done|].
    by rewrite (bind_ret_eq _ _ _ _ _ (ClearMemoryPage_eq pg true _)).
  - by constructor.
Qed.

Lemma page_chain_ext m m' pages : forall p,
  (forall pg, pg ∈ pages -> m' !! pg = m !! pg) -> page_chain m p pages -> page_chain m' p pages.
Proof.
  induction pages as [|pg pages IH]; intros p Heq; cbn; [done|].
  intros (-> & H1 & H2 & x & Hx & Hc). repeat (split; [done|]).
  exists x. split; [rewrite Heq; [done|constructor]|]. apply IH; [|done].
  intros. apply Heq. by constructor.
Qed.

Lemma kpage_page p : kpage p -> 0 < p /\ p mod 4096 = 0.
Proof. intros (H1 & _ & H2). split; [klia|done]. Qed.

Lemma AllocMemoryTable_loop_ok rest : forall fp s prev lst,
  kmem_inv s (fp ++ rest) -> (prev ∉ fp) -> 0 < prev -> prev mod 4096 = 0 ->
  k_mtp s !! prev = Some {| t_Last := lst; t_Next := 0 |} ->
  exists km mt mp, let s' := alloc_post s km mt mp in
    AllocMemoryTable_loop (length fp) prev s = Ret (List.last fp prev) s' /\
    kmem_inv s' rest /\ page_chain mp prev (prev :: fp) /\
    (forall e, mt !! e = if decide (e ∈ slots fp) then Some usable else k_mte s !! e) /\
    (forall pg, pg <> prev -> (pg ∉ fp) -> mp !! pg = k_mtp s !! pg).
Proof.
  induction fp as [|pg fp IH]; intros s prev lst Hinv Hprev Hpos Hal Hmtp.
  - exists (k_mem s), (k_mte s), (k_mtp s). split; [by destruct s|].
    split; [by destruct s|]. split; [|done]. cbn. repeat (split; [done|]). eauto.
  - destruct (AllocMemoryPage_ok s pg (fp ++ rest) Hinv) as (km1 & Hr1 & Hinv1).
    set (s1 := alloc_post s km1 _ _) in *. apply not_elem_of_cons in Hprev as [Hne Hprev].
    pose proof (ki_pages _ _ Hinv) as [Hp _]%Forall_cons. destruct (kpage_page _ Hp) as [Hpg Hpga].
    pose proof (ki_nodup _ _ Hinv) as [[Hpgf _]%not_elem_of_app _]%NoDup_cons.
    set (s2 := s1 <| k_mtp := <[pg := {| t_Last := prev; t_Next := 0 |}]>
                 (<[prev := {| t_Last := lst; t_Next := pg |}]> (k_mtp s1)) |>).
    destruct (IH s2 pg prev) as (km & mt & mp & Hr & Hi & Hc & Hmt & Hmp); try done.
    { destruct Hinv1 as [H1 H2 H3 H4 H5]. by constructor. }
    { unfold s2. cbn. by rewrite lookup_insert_eq. }
    exists km, mt, mp. split; [|split; [exact Hi|split; [|split]]].
    + change (length (pg :: fp)) with (S (length fp)). cbn [AllocMemoryTable_loop].
      rewrite (bind_ret_eq _ _ _ _ _ Hr1). destruct (Z.eqb_spec pg 0); [lia|].
      unfold bind, mtp_upd. unfold s1 at 1. kred. cbn.
      rewrite lookup_insert_ne, Hmtp by done. kred.
      rewrite lookup_insert_ne, lookup_insert_eq by done. kred.
      change (List.last (pg :: fp) prev) with (match fp with [] => pg | _ => List.last fp prev end).
      replace (match fp with [] => pg | _ => List.last fp prev end) with (List.last fp pg); [exact Hr|].
      clear. revert pg prev. induction fp as [|a fp IH]; intros; [done|]. cbn. by destruct fp.
    + cbn [page_chain]. repeat (split; [done|]). exists {| t_Last := lst; t_Next := pg |}.
      split; [|exact Hc]. rewrite Hmp by done.
      unfold s2. cbn. by rewrite lookup_insert_ne, lookup_insert_eq.
    + intros e. rewrite Hmt. unfold s2, s1. cbn. rewrite page_cleared_lookup.
      change (slots (pg :: fp)) with (page_slots pg ++ slots fp).
      repeat case_decide; try done; rewrite elem_of_app in *; tauto.
    + intros pg' H1 [H2 H3]%not_elem_of_cons. rewrite Hmp by done. unfold s2, s1. cbn.
      by rewrite !lookup_insert_ne.
Qed.

Lemma AllocMemoryTable_ok s i p fp rest :
  k_ptable s !! i = Some p -> kmem_inv s (fp ++ rest) -> length fp = Z.to_nat MEMORY_TABLE_LENGTH ->
  exists km mt mp p', let s' := (alloc_post s km mt mp) <| k_ptable := <[i := p']> (k_ptable s) |> in
    AllocMemoryTable i s = Ret tt s' /\ kmem_inv s' rest /\
    p' = p <| p_MemoryTableListHead := p_MemoryTableListHead p' |>
           <| p_MemoryTableListTail := p_MemoryTableListTail p' |> /\
    page_chain mp (p_MemoryTableListHead p') fp /\
    (forall e, mt !! e = if decide (e ∈ slots fp) then Some usable else k_mte s !! e) /\
    (forall pg, (pg ∉ fp) -> mp !! pg = k_mtp s !! pg).
Proof.
  intros Hp Hinv Hlen. destruct fp as [|pg fp]; [done|].
  destruct (AllocMemoryPage_ok s pg (fp ++ rest) Hinv) as (km1 & Hr1 & Hinv1).
  set (s1 := alloc_post s km1 _ _) in *.
  pose proof (ki_pages _ _ Hinv) as [Hk _]%Forall_cons. destruct (kpage_page _ Hk) as [Hpg Hpga].
  pose proof (ki_nodup _ _ Hinv) as [[Hpgf _]%not_elem_of_app _]%NoDup_cons.
  set (p1 := p <| p_MemoryTableListHead := pg |>).
  set (s2 := s1 <| k_ptable := <[i := p1]> (k_ptable s) |>).
  destruct (AllocMemoryTable_loop_ok rest fp s2 pg 0) as (km & mt & mp & Hr & Hi & Hc & Hmt & Hmp); try done.
  { destruct Hinv1 as [H1 H2 H3 H4 H5]. by constructor. }
  { unfold s2. cbn. by rewrite lookup_insert_eq. }
  exists km, mt, mp, (p1 <| p_MemoryTableListTail := List.last fp pg |>).
  split; [|split; [|split; [done|split; [exact Hc|split]]]].
  - assert (Z.to_nat (MEMORY_TABLE_LENGTH - 1) = length fp) as E
      by (unfold MEMORY_TABLE_LENGTH in *; cbn [length] in Hlen; lia).
    apply wp_run. unfold AllocMemoryTable. rewrite E. wp_step. eapply wp_eq; [exact Hr1|].
    destruct (Z.eqb_spec pg 0); [lia|]. unfold s1, alloc_post. ksteps. eapply wp_eq; [exact Hr|].
    unfold s2, s1, alloc_post. ksteps. split; [done|]. cbn. by rewrite list_insert_insert_eq.
  - destruct Hi as [H1 H2 H3 H4 H5]. by constructor.
  - intros e. rewrite Hmt. unfold s2, s1. cbn. rewrite page_cleared_lookup.
    change (slots (pg :: fp)) with (page_slots pg ++ slots fp).
    repeat case_decide; try done; rewrite elem_of_app in *; tauto.
  - intros pg' [H2 H3]%not_elem_of_cons. rewrite Hmp by done. unfold s2, s1. cbn.
    by rewrite lookup_insert_ne.
Qed.

(** ** Clearing a table *)

Lemma ClearMemoryTable_loop_ok pages : forall fuel s p,
  page_chain (k_mtp s) p pages -> (length pages <= fuel)%nat ->
  exists mt, ClearMemoryTable_loop fuel p s = Ret tt (s <| k_mte := mt |>) /\
    (forall e, mt !! e = if decide (e ∈ slots pages) then Some usable else k_mte s !! e).
Proof.
  induction pages as [|pg pages IH]; intros fuel s p Hc Hf; cbn in Hc.
  - subst p. exists (k_mte s). split; [|done]. by destruct fuel, s.
  - destruct Hc as (-> & Hpos & _ & x & Hx & Hc). destruct fuel as [|fuel]; [cbn in Hf; lia|].
    destruct (IH fuel (s <| k_mte ::= page_cleared pg |>) (t_Next x)) as (mt & Hr & Hmt); [done|cbn in Hf; lia|].
    exists mt. split.
    + cbn [ClearMemoryTable_loop]. destruct (Z.eqb_spec pg 0); [lia|].
      rewrite (bind_ret_eq _ _ _ _ _ (ClearMemoryPage_eq pg false s)).
      unfold bind, mtp_get. cbn. rewrite Hx. exact Hr.
    + intros e. rewrite Hmt. cbn. rewrite page_cleared_lookup.
      repeat case_decide; try done; rewrite elem_of_app in *; tauto.
Qed.

(** Clearing leaves an empty table on the same pages. *)
Lemma ClearMemoryTable_ok s i p pages :
  k_ptable s !! i = Some p -> page_chain (k_mtp s) (p_MemoryTableListHead p) pages -> NoDup pages ->
  exists mt p', let s' := list_post s i mt p' in
    ClearMemoryTable i s = Ret tt s' /\ table_inv s' i p' pages [] /\
    p' = p <| p_MemoryEntryNum := 0 |> <| p_MemoryListHead := 0 |> <| p_MemoryListTail := 0 |> /\
    (forall e, mt !! e = if decide (e ∈ slots pages) then Some usable else k_mte s !! e).
Proof.
  intros Hp Hc Hnd. pose proof (page_chain_length _ _ _ Hc Hnd) as Hlen.
  destruct (ClearMemoryTable_loop_ok pages (S (size (k_mtp s))) s _ Hc ltac:(lia)) as (mt & Hr & Hmt).
  eexists mt, _. split; [|split; [|split; [reflexivity|done]]].
  - apply wp_run. unfold ClearMemoryTable, mtp_fuel. ksteps. eapply wp_eq; [exact Hr|].
    ksteps. split; [done|]. unfold list_post. kred. by rewrite !list_insert_insert_eq.
  - constructor; cbn; try done.
    + by rewrite list_lookup_insert_eq by eauto using lookup_lt_Some.
    + by exists 0.
    + constructor.
    + by intros e ?%elem_of_nil.
    + constructor.
    + by intros ?%elem_of_nil.
    + intros e He _. by rewrite Hmt, decide_True.
Qed.

(** ** Copying the list *)

(** The slots from number [num] of the page [page] on. *)
Definition slots_from (num : Z) (pages : list Z) : list Z := drop (Z.to_nat num) (slots pages).

Lemma range_drop n : forall k lo, (k <= n)%nat -> drop k (range lo n) = range (lo + Z.of_nat k) (n - k).
Proof.
  induction n as [|n IH]; intros k lo Hk.
  - assert (k = 0%nat) as -> by lia. done.
  - destruct k as [|k]; [cbn; f_equal; [lia|f_equal; lia]|].
    cbn [range drop]. rewrite IH by lia. cbn [Nat.sub]. f_equal. lia.
Qed.

Lemma slots_from_cons num pg pages d ds :
  0 <= num < MEMORY_TABLE_ENTRY_NUM -> slots_from num (pg :: pages) = d :: ds ->
  d = mte_addr pg num /\
  ds = (if num + 1 =? MEMORY_TABLE_ENTRY_NUM then slots_from 0 pages else slots_from (num + 1) (pg :: pages)).
Proof.
  intros Hn. unfold slots_from. change (slots (pg :: pages)) with (page_slots pg ++ slots pages).
  assert (length (page_slots pg) = 340%nat) as Hl by (unfold page_slots; by rewrite length_fmap, length_range).
  unfold MEMORY_TABLE_ENTRY_NUM in *. rewrite drop_app_le by lia.
  unfold page_slots at 1. rewrite <-fmap_drop, range_drop by (unfold MEMORY_TABLE_ENTRY_NUM; lia).
  unfold MEMORY_TABLE_ENTRY_NUM. destruct (Z.to_nat 340 - Z.to_nat num)%nat as [|k] eqn:Hk; [lia|].
  cbn [range fmap list_fmap app]. intros [= <- <-]. split; [f_equal; lia|].
  destruct (Z.eqb_spec (num + 1) 340) as [E|E].
  - assert (k = 0%nat) as -> by lia. done.
  - rewrite drop_app_le by lia. unfold page_slots. rewrite <-fmap_drop, range_drop by (unfold MEMORY_TABLE_ENTRY_NUM; lia).
    f_equal. change (mte_addr pg <$> range (0 + Z.of_nat (Z.to_nat num) + 1) k =
      mte_addr pg <$> range (0 + Z.of_nat (Z.to_nat (num + 1))) (Z.to_nat MEMORY_TABLE_ENTRY_NUM - Z.to_nat (num + 1))).
    f_equal. f_equal; unfold MEMORY_TABLE_ENTRY_NUM; lia.
Qed.

(** The first of the copied entries, and the last. *)
Definition copy_head (l : list (Z * Z)) (ds : list Z) : Z :=
  match l, ds with _ :: _, d :: _ => d | _, _ => 0 end.

(** One turn of the loop: [d] is linked behind [prev] and takes the address. *)
Lemma copy_step fuel src page num prev s va nx lst :
  let d := mte_addr page num in
  src <> 0 -> k_mte s !! src = Some {| e_VirtualAddress := va; e_Next := nx; e_Last := lst |} ->
  k_mte s !! d = Some usable -> src <> d -> prev <> d -> prev <> src ->
  (prev <> 0 -> is_Some (k_mte s !! prev)) ->
  exists m1,
    copy_memory_list (S fuel) src page num prev s =
      (if num + 1 =? MEMORY_TABLE_ENTRY_NUM
       then pg <- mtp_get page ;; copy_memory_list fuel nx (t_Next pg) 0 d
       else copy_memory_list fuel nx page (num + 1) d) (s <| k_mte := m1 |>) /\
    m1 !! d = Some {| e_VirtualAddress := va; e_Next := 0; e_Last := prev |} /\
    (prev <> 0 -> forall x, k_mte s !! prev = Some x -> m1 !! prev = Some (x <| e_Next := d |>)) /\
    (forall e, e <> d -> (prev <> 0 -> e <> prev) -> m1 !! e = k_mte s !! e).
Proof.
  intros d Hsrc Hs Hd Hsd Hpd Hps Hprev. unfold usable in Hd. fold d.
  assert (forall m2 : gmap Z MemoryTableEntry,
    m2 !! d = k_mte s !! d -> m2 !! src = k_mte s !! src ->
    let m1 := <[d := {| e_VirtualAddress := va; e_Next := 0; e_Last := prev |}]>
      (<[d := {| e_VirtualAddress := SLOT_USABLE; e_Next := 0; e_Last := prev |}]> m2) in
    (mte_upd d (fun x => x <| e_Last := prev |>) ;;;
     e <- mte_get src ;;
     mte_upd d (fun x => x <| e_VirtualAddress := e_VirtualAddress e |>) ;;;
     e <- mte_get src ;;
     let num := num + 1 in
     if num =? MEMORY_TABLE_ENTRY_NUM then
       pg <- mtp_get page ;;
       copy_memory_list fuel (e_Next e) (t_Next pg) 0 d
     else copy_memory_list fuel (e_Next e) page num d) (s <| k_mte := m2 |>) =
    (if num + 1 =? MEMORY_TABLE_ENTRY_NUM
     then pg <- mtp_get page ;; copy_memory_list fuel nx (t_Next pg) 0 d
     else copy_memory_list fuel nx page (num + 1) d) (s <| k_mte := m1 |>)) as Hrun.
  { intros m2 H2d H2s m1. unfold bind at 1 2 3 4, mte_upd, mte_get. kred. rewrite H2d, Hd. kred.
    rewrite lookup_insert_ne, H2s, Hs by congruence. kred. rewrite lookup_insert_eq. kred.
    rewrite !lookup_insert_ne, H2s, Hs by congruence. done. }
  cbn [copy_memory_list]. destruct (Z.eqb_spec src 0); [done|]. fold d. cbv zeta.
  destruct (Z.eqb_spec prev 0) as [H0|H0].
  - eexists. split; [|split; [|split]].
    + unfold bind at 1. unfold when. cbn [negb ret].
      pose proof (Hrun (k_mte s) eq_refl eq_refl) as HR. replace (s <| k_mte := k_mte s |>) with s in HR by by destruct s.
      exact HR.
    + klook.
    + done.
    + intros e H1 H2. klook.
  - destruct (Hprev H0) as [x Hx]. eexists. split; [|split; [|split]].
    + unfold bind at 1. unfold when, mte_upd at 1. cbn [negb]. rewrite Hx.
      apply (Hrun (<[prev := x <| e_Next := d |>]> (k_mte s))); by rewrite lookup_insert_ne.
    + klook.
    + intros _ x' Hx'. rewrite Hx in Hx'. injection Hx' as <-. klook.
    + intros e H1 H2. specialize (H2 H0). klook.
Qed.

Lemma copy_list_ok t : forall l fuel src sprev page num pages s prev,
  dlseg (k_mte s) sprev src l t 0 -> (length l <= fuel)%nat ->
  0 <= num < MEMORY_TABLE_ENTRY_NUM -> page_chain (k_mtp s) page pages ->
  let ds := slots_from num pages in
  NoDup ds -> (length l <= length ds)%nat -> NoDup l.*1 ->
  (forall d, d ∈ ds -> k_mte s !! d = Some usable /\ (d ∉ l.*1) /\ d <> prev) ->
  (prev <> 0 -> is_Some (k_mte s !! prev)) -> (prev ∉ l.*1) ->
  exists m' last,
    copy_memory_list fuel src page num prev s = Ret last (s <| k_mte := m' |>) /\
    dlseg m' prev (copy_head l ds) (zip (take (length l) ds) l.*2) last 0 /\
    (l <> [] -> prev <> 0 -> forall x, k_mte s !! prev = Some x ->
       m' !! prev = Some (x <| e_Next := copy_head l ds |>)) /\
    (forall e, (e ∉ take (length l) ds) -> (l <> [] -> prev <> 0 -> e <> prev) -> m' !! e = k_mte s !! e).
Proof.
  induction l as [|[src va] l IH]; intros fuel p sprev page num pages s prev Hd Hf Hn Hc ds Hnd Hroom Hl Hds Hp Hpl.
  - destruct Hd as [-> ->]. exists (k_mte s), prev. split; [by destruct fuel, s|]. done.
  - destruct Hd as (-> & Hsrc & nx & Hs & Hd). destruct fuel as [|fuel]; [cbn in Hf; lia|].
    destruct ds as [|d ds'] eqn:Eds; [cbn in Hroom; lia|].
    destruct pages as [|pg pages]; [by unfold ds, slots_from in Eds; cbn in Eds; rewrite drop_nil in Eds|].
    destruct Hc as (-> & Hpg & Hal & xp & Hxp & Hc).
    destruct (slots_from_cons num pg pages d ds' Hn Eds) as [Ed Eds']. cbn in Hpl.
    apply not_elem_of_cons in Hpl as [Hps Hpl]. cbn in Hl. apply NoDup_cons in Hl as [Hsl Hl].
    apply NoDup_cons in Hnd as [Hdd Hnd].
    destruct (Hds d ltac:(constructor)) as (Hud & [Hds1 Hds2]%not_elem_of_cons & Hdp).
    destruct (copy_step fuel src pg num prev s va nx sprev) as (m1 & Hr1 & Hm1d & Hm1p & Hm1f);
      [rewrite <-?Ed; first [done|congruence]..|]. rewrite <-Ed in Hr1, Hm1d, Hm1p, Hm1f.
    set (s1 := s <| k_mte := m1 |>) in *.
    assert (forall page' num' pages', page_chain (k_mtp s) page' pages' -> 0 <= num' < MEMORY_TABLE_ENTRY_NUM ->
      slots_from num' pages' = ds' ->
      exists m' last,
        copy_memory_list fuel nx page' num' d s1 = Ret last (s1 <| k_mte := m' |>) /\
        dlseg m' d (copy_head l ds') (zip (take (length l) ds') l.*2) last 0 /\
        m' !! d = Some {| e_VirtualAddress := va; e_Next := copy_head l ds'; e_Last := prev |} /\
        (forall e, (e ∉ take (length l) ds') -> e <> d -> m' !! e = m1 !! e)) as HIH.
    { intros page' num' pages' Hc' Hn' E'.
      assert (d <> 0) as Hd0 by (rewrite Ed; unfold mte_addr; lia).
      destruct (IH fuel nx src page' num' pages' s1 d) as (m' & last & Hr & Hdl & Hpx & Hfr);
        rewrite ?E'; [| |exact Hn'|exact Hc'|exact Hnd| |exact Hl| | |exact Hds2|].
      - eapply dlseg_ext; [|exact Hd]. intros e He. apply Hm1f; intros; by intros ->.
      - cbn in Hf. lia.
      - cbn in Hroom. lia.
      - intros d0 Hd0s. destruct (Hds d0 ltac:(by constructor)) as (H1 & [H2 H3]%not_elem_of_cons & H4).
        assert (d0 <> d) by (by intros ->). split; [|done]. unfold s1. kred. by rewrite Hm1f.
      - intros _. unfold s1. kred. by rewrite Hm1d.
      - rewrite E' in *. exists m', last. repeat (split; [done|]). split.
        + destruct l as [|y l]; [rewrite Hfr; [exact Hm1d|by intros ?%elem_of_nil|done]|].
          exact (Hpx ltac:(done) Hd0 _ Hm1d).
        + intros e H1 H2. apply Hfr; [done|]. by intros _ _. }
    assert (exists m' last, copy_memory_list (S fuel) src pg num prev s = Ret last (s <| k_mte := m' |>) /\
        dlseg m' d (copy_head l ds') (zip (take (length l) ds') l.*2) last 0 /\
        m' !! d = Some {| e_VirtualAddress := va; e_Next := copy_head l ds'; e_Last := prev |} /\
        (forall e, (e ∉ take (length l) ds') -> e <> d -> m' !! e = m1 !! e)) as (m' & last & Hr & Hdl & Hmd & Hfr).
    { rewrite Hr1. unfold MEMORY_TABLE_ENTRY_NUM in *. destruct (Z.eqb_spec (num + 1) 340) as [E|E].
      - destruct (HIH (t_Next xp) 0 pages) as (m' & last & Hr & H); [done|lia|done|].
        exists m', last. split; [|done]. unfold bind, mtp_get. unfold s1 at 1. kred. by rewrite Hxp.
      - destruct (HIH pg (num + 1) (pg :: pages)) as (m' & last & Hr & H); [cbn; eauto 10|lia|done|].
        by exists m', last. }
    exists m', last. split; [exact Hr|]. cbn [copy_head length take zip zip_with fmap list_fmap].
    split; [cbn; split; [done|split; [rewrite Ed; unfold mte_addr; lia|eauto]]|].
    assert (forall e, (e ∉ d :: take (length l) ds') -> m' !! e = m1 !! e) as Hfr'.
    { intros e [H1 H2]%not_elem_of_cons. by apply Hfr. }
    split.
    + intros _ Hp0 x Hx. rewrite Hfr'; [by apply Hm1p|]. apply not_elem_of_cons. split; [done|].
      intros Hin%elem_of_take. destruct Hin as (k & Hk & _).
      destruct (Hds prev) as (_ & _ & ?); [|done]. constructor. by eapply list_elem_of_lookup_2.
    + intros e H1 H2. rewrite Hfr' by done. apply not_elem_of_cons in H1 as [H1 _]. apply Hm1f; auto.
Qed.

Definition copied_proc (pd : proc) (n h t : Z) : proc :=
  pd <| p_MemoryEntryNum := n |> <| p_MemoryListHead := h |> <| p_MemoryListTail := t |>.

(** Another process's table is not affected by a change outside its slots. *)
Lemma table_inv_frame s i p pages l j m' pj :
  table_inv s i p pages l -> i <> j -> (forall e, e ∈ slots pages -> m' !! e = k_mte s !! e) ->
  table_inv (list_post s j m' pj) i p pages l.
Proof.
  intros [H1 H2 H3 (t & H4 & H4') H5 H6 H7 H8 H9 H10] Hij Heq. constructor; cbn; try done.
  - by rewrite list_lookup_insert_ne.
  - exists t. split; [|done]. eapply dlseg_ext; [|exact H4]. intros e He. by apply Heq, H6.
  - intros e He Hn. rewrite Heq by done. by apply H9.
Qed.

Lemma slots_disjoint m p1 p2 pages dpages e :
  page_chain m p1 pages -> page_chain m p2 dpages -> (forall pg, pg ∈ pages -> pg ∉ dpages) ->
  e ∈ slots pages -> e ∉ slots dpages.
Proof.
  intros H1 H2 Hd (pg & Hpg & He)%elem_of_slots (pg' & Hpg' & He')%elem_of_slots.
  destruct (page_chain_pages _ _ _ _ H1 Hpg) as (_ & Ha & _).
  destruct (page_chain_pages _ _ _ _ H2 Hpg') as (_ & Hb & _).
  apply (Hd pg Hpg). by rewrite (slot_page _ _ He Ha), <-(slot_page _ _ He' Hb).
Qed.

(** The copied list is a table of its own. *)
Lemma copied_table s j (m' mt : gmap Z MemoryTableEntry) pd dpages (l : list (Z * Z)) q last n :
  k_ptable s !! j = Some pd -> page_chain (k_mtp s) (p_MemoryTableListHead pd) dpages -> NoDup dpages ->
  length l = length q -> (length l <= length (slots dpages))%nat ->
  NoDup q -> (SLOT_USABLE ∉ q) -> n = Z.of_nat (length l) ->
  let cp := zip (take (length l) (slots dpages)) q in
  dlseg m' 0 (copy_head l (slots dpages)) cp last 0 ->
  (forall e, e ∈ slots dpages -> mt !! e = Some usable) ->
  (forall e, (e ∉ take (length l) (slots dpages)) -> m' !! e = mt !! e) ->
  let pd' := copied_proc pd n (copy_head l (slots dpages)) last in
  table_inv (list_post s j m' pd') j pd' dpages cp.
Proof.
  intros Hpd Hc Hnd Hlq Hroom Hq Hu Hn cp Hd Hmt Hfr pd'.
  assert (length (take (length l) (slots dpages)) = length q) as El by (rewrite length_take; lia).
  assert (cp.*1 = take (length l) (slots dpages)) as E1 by (apply fst_zip; lia).
  assert (cp.*2 = q) as E2 by (apply snd_zip; lia).
  constructor; cbn; rewrite ?E1, ?E2; try done.
  - by rewrite list_lookup_insert_eq by eauto using lookup_lt_Some.
  - by exists last.
  - pose proof (NoDup_slots _ _ _ Hc Hnd) as H. rewrite <-(take_drop (length l)) in H.
    by apply NoDup_app in H as [H _].
  - intros e (k & Hk & _)%elem_of_take. by eapply list_elem_of_lookup_2.
  - intros e He Hn'. rewrite Hfr by done. by apply Hmt.
  - rewrite <-(length_fmap snd), E2. lia.
Qed.

Lemma copy_list_part_ok s i p pages l j pd dpages :
  table_inv s i p pages l -> k_ptable s !! j = Some pd -> i <> j ->
  page_chain (k_mtp s) (p_MemoryTableListHead pd) dpages -> NoDup dpages ->
  (forall pg, pg ∈ pages -> pg ∉ dpages) -> (length l <= length (slots dpages))%nat ->
  exists m' h t, let s' := list_post s j m' (copied_proc pd (p_MemoryEntryNum p) h t) in
    copy_list_part j i s = Ret tt s' /\
    table_inv s' i p pages l /\
    table_inv s' j (copied_proc pd (p_MemoryEntryNum p) h t) dpages
      (zip (take (length l) (slots dpages)) l.*2).
Proof.
  intros I Hpd Hij Hc Hnd Hdis Hroom. pose proof (ti_proc _ _ _ _ _ I) as Hp.
  destruct (ClearMemoryTable_ok s j pd dpages Hpd Hc Hnd) as (mt & p1 & Hr1 & I1 & Ep1 & Hmt).
  assert (forall e, e ∈ slots pages -> e ∉ slots dpages) as Hout.
  { intros e. eapply slots_disjoint; [exact (ti_chain _ _ _ _ _ I)|exact Hc|done]. }
  assert (forall e, e ∈ slots pages -> mt !! e = k_mte s !! e) as Hsame
    by (intros e He; rewrite Hmt, decide_False; auto).
  pose proof (table_inv_frame s i p pages l j mt p1 I Hij Hsame) as I2.
  destruct (ti_list _ _ _ _ _ I2) as (t0 & Hd & _).
  set (h0 := if p_MemoryListHead p =? 0 then 0 else mte_addr (p_MemoryTableListHead pd) 0).
  set (s2 := list_post s j mt (copied_proc pd (p_MemoryEntryNum p) h0 0)).
  destruct (copy_list_ok t0 l (S (size mt)) (p_MemoryListHead p) 0 (p_MemoryTableListHead pd) 0 dpages s2 0)
    as (m' & last & Hr & Hdl & _ & Hfr).
  - exact Hd.
  - pose proof (dlseg_length _ _ _ _ _ _ Hd (ti_entries _ _ _ _ _ I)). cbn in *. lia.
  - unfold MEMORY_TABLE_ENTRY_NUM. lia.
  - exact Hc.
  - by eapply NoDup_slots.
  - exact Hroom.
  - apply I.
  - intros d Hds. unfold slots_from in Hds. cbn in Hds. rewrite drop_0 in Hds. split; [|split].
    + cbn. by rewrite Hmt, decide_True.
    + intros Hin%(ti_inside _ _ _ _ _ I). by eapply Hout.
    + pose proof (slot_pos _ _ _ _ Hc Hds). lia.
  - done.
  - intros Hin%(ti_inside _ _ _ _ _ I). pose proof (slot_pos _ _ _ _ (ti_chain _ _ _ _ _ I) Hin). lia.
  - change (slots_from 0 dpages) with (slots dpages) in *.
    assert (h0 = copy_head l (slots dpages)) as Eh.
    { unfold h0. cbn in Hd. destruct l as [|[e va] l]; cbn in Hd.
      - destruct Hd as [-> _]. done.
      - destruct Hd as (-> & He0 & _). destruct (Z.eqb_spec e 0); [done|].
        destruct dpages as [|dp dpages]; [cbn in Hroom; lia|]. cbn in Hc. by destruct Hc as [-> _]. }
    exists m', h0, last. split; [|split].
    + apply wp_run. unfold copy_list_part, mte_fuel. wp_step. eapply wp_eq; [exact Hr1|].
      unfold list_post. subst p1. ksteps.
      match goal with |- wp _ ?st _ => set (st1 := st) end.
      assert (wp (when (negb (p_MemoryListHead p =? 0)) (upd_proc j (fun p0 : proc =>
        p0 <| p_MemoryListHead := mte_addr (p_MemoryTableListHead pd) 0 |>))) st1 (fun _ st => st = s2)) as Hw.
      { unfold st1, s2, h0, list_post, copied_proc.
        destruct (p_MemoryListHead p =? 0); ksteps; by rewrite ?list_insert_insert_eq. }
      eapply wp_mono; [exact Hw|]. intros ? st ->. ksteps. eapply wp_eq; [exact Hr|].
      unfold s2, list_post, copied_proc. ksteps. split; [done|]. by rewrite list_insert_insert_eq.
    + apply (table_inv_frame s i p pages l j m' _ I Hij). intros e He.
      rewrite Hfr; [by apply Hsame| |done]. intros Hin%elem_of_take.
      destruct Hin as (k & Hk & _). apply (Hout e He). by eapply list_elem_of_lookup_2.
    + rewrite Eh. eapply (copied_table s j m' mt pd dpages l l.*2); try done; try apply I.
      * by rewrite length_fmap.
      * intros e He. by rewrite Hmt, decide_True.
      * intros e He. by apply Hfr.
Qed.

(** ** Properties *)

(** AllocMemoryTable, for a process whose list is empty (as allocproc
    leaves it) and with 25 pages free, makes an empty table of exactly these 25
    pages: 8500 usable slots, disjoint from every other allocated page. *)
Theorem alloc_memory_table_empty s i p fp rest :
  k_ptable s !! i = Some p -> p_MemoryListHead p = 0 -> p_MemoryEntryNum p = 0 ->
  kmem_inv s (fp ++ rest) -> length fp = Z.to_nat MEMORY_TABLE_LENGTH ->
  exists s', AllocMemoryTable i s = Ret tt s' /\ mem_table s' i fp [] /\ kmem_inv s' rest /\
    Z.of_nat (length (slots fp)) = MEMORY_TABLE_TOTAL_ENTRYS.
Proof.
  intros Hp Hh Hn Hinv Hlen.
  destruct (AllocMemoryTable_ok s i p fp rest Hp Hinv Hlen) as (km & mt & mp & p' & Hr & Hi & Ep & Hc & Hmt & _).
  eexists. split; [exact Hr|]. split; [|split; [exact Hi|]].
  - exists p', []. split; [|done]. rewrite Ep in Hc |- *. constructor; cbn in *; try done.
    + by rewrite list_lookup_insert_eq by eauto using lookup_lt_Some.
    + by pose proof (ki_nodup _ _ Hinv) as [H _]%NoDup_app.
    + by exists 0.
    + constructor.
    + by intros e ?%elem_of_nil.
    + constructor.
    + by intros ?%elem_of_nil.
    + intros e He _. by rewrite Hmt, decide_True.
  - rewrite length_slots, Hlen. reflexivity.
Qed.

(** C32.  CopyVirtualMemoryData, for a parent without swap table, returns 0 and
    gives the child the parent's queue: the same addresses in the same order,
    in the child's own slots.  The parent's table is unchanged. *)
Theorem copy_memory_table s i p pages q j pd dpages :
  mem_table s i pages q -> k_ptable s !! i = Some p -> k_ptable s !! j = Some pd -> i <> j ->
  page_chain (k_mtp s) (p_MemoryTableListHead pd) dpages -> NoDup dpages ->
  (forall pg, pg ∈ pages -> pg ∉ dpages) -> (length q <= length (slots dpages))%nat ->
  p_SwapTableListHead p = 0 -> p_SwapPageNum p <= p_SwapPageNum pd ->
  exists s', CopyVirtualMemoryData j i s = Ret 0 s' /\ mem_table s' i pages q /\ mem_table s' j dpages q.
Proof.
  intros (p' & l & I & <-) Hp Hpd Hij Hc Hnd Hdis Hroom Hsw Hnum. rewrite length_fmap in Hroom.
  pose proof (ti_proc _ _ _ _ _ I) as E. rewrite Hp in E. injection E as <-.
  destruct (copy_list_part_ok s i p pages l j pd dpages I Hpd Hij Hc Hnd Hdis Hroom)
    as (m' & h & t & Hr & I1 & I2).
  set (s' := list_post s j m' _) in *. exists s'. split; [|split; [by exists p, l|]].
  - unfold CopyVirtualMemoryData. rewrite (bind_ret_eq _ _ _ _ _ Hr).
    apply wp_run. unfold copy_swap_part. unfold s', list_post, copied_proc. ksteps.
    rewrite Z2Nat.nonpos by lia. cbn [copy_grow_loop]. ksteps.
    destruct (Z.ltb_spec (p_SwapPageNum pd) (p_SwapPageNum p)); [lia|]. ksteps.
    rewrite Hsw. unfold stp_fuel. ksteps. eapply wp_eq; [reflexivity|]. by ksteps.
  - eexists _, _. split; [exact I2|]. apply snd_zip. rewrite length_take, length_fmap. lia.
Qed.

(**  A defect of CopyVirtualMemoryData.  The loop that should give the
    child as many swap pages as the parent is driven by SwapPageNum, which no
    code increments when a swap page is added.  With equal counters, a parent
    that has a swap page and a child that has none, the copy writes through the
    child's null page pointer. *)
Theorem copy_swap_table_null s i p pages q j pd dpages :
  mem_table s i pages q -> k_ptable s !! i = Some p -> k_ptable s !! j = Some pd -> i <> j ->
  page_chain (k_mtp s) (p_MemoryTableListHead pd) dpages -> NoDup dpages ->
  (forall pg, pg ∈ pages -> pg ∉ dpages) -> (length q <= length (slots dpages))%nat ->
  p_SwapTableListHead p <> 0 -> p_SwapTableListHead pd = 0 -> p_SwapPageNum p = p_SwapPageNum pd ->
  is_Some (k_ste s !! ste_addr (p_SwapTableListHead p) 0) -> k_ste s !! ste_addr 0 0 = None ->
  CopyVirtualMemoryData j i s = Crash "swap table entry".
Proof.
  intros (p' & l & I & <-) Hp Hpd Hij Hc Hnd Hdis Hroom Hsw Hsd Hnum [v Hv] Hnull.
  rewrite length_fmap in Hroom. pose proof (ti_proc _ _ _ _ _ I) as E. rewrite Hp in E. injection E as <-.
  destruct (copy_list_part_ok s i p pages l j pd dpages I Hpd Hij Hc Hnd Hdis Hroom)
    as (m' & h & t & Hr & _ & _).
  unfold CopyVirtualMemoryData. rewrite (bind_ret_eq _ _ _ _ _ Hr).
  set (s' := list_post s j m' _) in *.
  assert (get_proc i s' = Ret p s') as Gi.
  { unfold get_proc, s', list_post. kred. by rewrite list_lookup_insert_ne, Hp. }
  assert (get_proc j s' = Ret (copied_proc pd (p_MemoryEntryNum p) h t) s') as Gj.
  { unfold get_proc, s', list_post. kred. by rewrite list_lookup_insert_eq by eauto using lookup_lt_Some. }
  assert (copy_grow_loop 0 j i s' = Ret true s') as Gl.
  { cbn [copy_grow_loop]. unfold bind. rewrite Gi, Gj. cbn. by rewrite Hnum, Z.ltb_irrefl. }
  unfold copy_swap_part, bind. rewrite Gi, Gj. cbn [copied_proc]. kred.
  change (p_SwapPageNum (copied_proc pd (p_MemoryEntryNum p) h t)) with (p_SwapPageNum pd).
  rewrite Hnum, Z.sub_diag. change (Z.to_nat 0) with 0%nat. rewrite Gl. cbn [negb]. rewrite Gi, Gj.
  unfold stp_fuel, gets. kred. cbn [copy_swap_pages]. destruct (Z.eqb_spec (p_SwapTableListHead p) 0); [done|].
  change (p_SwapTableListHead (copied_proc pd (p_MemoryEntryNum p) h t)) with (p_SwapTableListHead pd).
  rewrite Hsd. assert (exists n, Z.to_nat SWAP_TABLE_ENTRY_NUM = S n) as [k ->]
    by (exists (Z.to_nat 1021); unfold SWAP_TABLE_ENTRY_NUM; lia).
  cbn [range for_each]. unfold bind, ste_get, ste_set, s', list_post. kred. rewrite Hv. kred. by rewrite Hnull.
Qed.

End MemCopy.

(** ** Witnesses *)

Module MemCopyWitness.
Import MemListWitness.

#[local] Existing Instance boot_image.

Lemma alloc_memory_table_empty_witness : exists (s s' : kst unit) fp,
  AllocMemoryTable 0 s = Ret tt s' /\ mem_table s' 0 fp [].
Proof.
  destruct (KallocWitness.some_pages 25 (boot tt) ltac:(lia)) as (m & k & Hinv).
  destruct (alloc_memory_table_empty ((boot tt) <| k_phys := m |> <| k_mem := k |>) 0 proc0
    (rev (pages 0x80200000 25)) []) as (s' & Hr & Ht & _).
  - reflexivity.
  - reflexivity.
  - reflexivity.
  - rewrite app_nil_r. exact Hinv.
  - reflexivity.
  - by eexists _, s', _.
Defined.

(** A second process, with a table page of its own, behind the others. *)
Definition dpage : Z := 0x80500000.
Definition with_child (s : kst unit) (p0 : proc) (head : Z) : kst unit :=
  s <| k_ptable := <[0%nat := p0 <| p_SwapTableListHead := head |>]> (k_ptable s) ++ [proc0 <| p_MemoryTableListHead := dpage |>] |>
    <| k_mtp := <[dpage := {| t_Last := 0; t_Next := 0 |}]> (k_mtp s) |>.

Lemma with_child_table s p0 l head : table_inv s 0 p0 [tpage] l ->
  table_inv (with_child s p0 head) 0 (p0 <| p_SwapTableListHead := head |>) [tpage] l.
Proof.
  intros [H1 H2 H3 H4 H5 H6 H7 H8 H9 H10]. constructor; try done.
  - cbn. rewrite lookup_app_l by (rewrite length_insert; by eapply lookup_lt_Some).
    by rewrite list_lookup_insert_eq by eauto using lookup_lt_Some.
  - eapply page_chain_ext; [|exact H2]. intros pg ->%list_elem_of_singleton. cbn.
    by rewrite lookup_insert_ne.
Qed.

Lemma with_child_facts s p0 head :
  k_ptable (with_child s p0 head) !! length (k_ptable s) = Some (proc0 <| p_MemoryTableListHead := dpage |>) /\
  page_chain (k_mtp (with_child s p0 head)) dpage [dpage].
Proof.
  split.
  - cbn. rewrite lookup_app_r by by rewrite length_insert. by rewrite length_insert, Nat.sub_diag.
  - cbn. repeat (split; [done|]). exists {| t_Last := 0; t_Next := 0 |}.
    split; [by rewrite lookup_insert_eq|done].
Qed.

Lemma copy_memory_table_witness : exists (s s' : kst unit) j,
  CopyVirtualMemoryData j 0 s = Ret 0 s' /\
  mem_table s' 0 [tpage] [0x3000; 0x2000; 0x1000] /\ mem_table s' j [dpage] [0x3000; 0x2000; 0x1000].
Proof.
  destruct (recorded 3 ltac:(lia)) as (s & (p0 & l & I & Hl) & _).
  destruct (with_child_facts s p0 0) as [Hj Hc]. pose proof (with_child_table s p0 l 0 I) as I'.
  pose proof (lookup_lt_Some _ _ _ (ti_proc _ _ _ _ _ I)) as Hlt.
  exists (with_child s (p0 <| p_SwapPageNum := 0 |>) 0).
  destruct (copy_memory_table (with_child s (p0 <| p_SwapPageNum := 0 |>) 0) 0
    (p0 <| p_SwapPageNum := 0 |> <| p_SwapTableListHead := 0 |>) [tpage]
    [0x3000; 0x2000; 0x1000] (length (k_ptable s)) (proc0 <| p_MemoryTableListHead := dpage |>) [dpage]) as (s' & H).
  - exists (p0 <| p_SwapPageNum := 0 |> <| p_SwapTableListHead := 0 |>), l. split; [|done].
    destruct I' as [H1 H2 H3 H4 H5 H6 H7 H8 H9 H10]. constructor; try done.
    cbn. rewrite lookup_app_l by by rewrite length_insert. by rewrite list_lookup_insert_eq.
  - cbn. rewrite lookup_app_l by by rewrite length_insert. by rewrite list_lookup_insert_eq.
  - exact (proj1 (with_child_facts s (p0 <| p_SwapPageNum := 0 |>) 0)).
  - lia.
  - exact Hc.
  - apply NoDup_singleton.
  - intros pg ->%list_elem_of_singleton. by intros ?%list_elem_of_singleton.
  - apply Nat.leb_le. vm_compute. reflexivity.
  - reflexivity.
  - reflexivity.
  - eauto.
Defined.

Lemma copy_swap_table_null_witness : exists (s : kst unit) j,
  CopyVirtualMemoryData j 0 s = Crash "swap table entry".
Proof.
  destruct (recorded 3 ltac:(lia)) as (s & (p0 & l & I & Hl) & _).
  pose proof (lookup_lt_Some _ _ _ (ti_proc _ _ _ _ _ I)) as Hlt.
  set (p1 := p0 <| p_SwapPageNum := 0 |>). set (sp := 0x80600000).
  set (s1 := (with_child s p1 sp) <| k_ste := {[ste_addr sp 0 := 0x4000]} |>).
  exists s1, (length (k_ptable s)).
  apply (copy_swap_table_null s1 0 (p1 <| p_SwapTableListHead := sp |>) [tpage]
    [0x3000; 0x2000; 0x1000] (length (k_ptable s)) (proc0 <| p_MemoryTableListHead := dpage |>) [dpage]).
  - exists (p1 <| p_SwapTableListHead := sp |>), l. split; [|done].
    pose proof (with_child_table s p0 l sp I) as [H1 H2 H3 H4 H5 H6 H7 H8 H9 H10]. constructor; try done.
    cbn. rewrite lookup_app_l by by rewrite length_insert. by rewrite list_lookup_insert_eq.
  - cbn. rewrite lookup_app_l by by rewrite length_insert. by rewrite list_lookup_insert_eq.
  - exact (proj1 (with_child_facts s p1 sp)).
  - lia.
  - exact (proj2 (with_child_facts s p1 sp)).
  - apply NoDup_singleton.
  - intros pg ->%list_elem_of_singleton. by intros ?%list_elem_of_singleton.
  - apply Nat.leb_le. vm_compute. reflexivity.
  - done.
  - reflexivity.
  - reflexivity.
  - vm_compute. eauto.
  - reflexivity.
Defined.

End MemCopyWitness.
