(* ===== verification/MemSwap.v ===== *)
(** The swap table (MemTable.v): its entries are numbered page after page, and
    entry number [n] stands for the bytes from [4096 * n] on in the swap files, the
    offset being an int. *)

From stdpp Require Import base gmap list strings.
From Stdlib Require Import ZArith Lia.
From S2P Require Import Prelude Mem Str Mmu State Kalloc MemTable MemList MemCopy.

Lemma i32_inj a b : i32 a = i32 b -> exists z, a = b + 2 ^ 32 * z.
Proof. unfold i32. intros E. exists ((a + 2 ^ 31) / 2 ^ 32 - (b + 2 ^ 31) / 2 ^ 32). dlia. Qed.

Lemma i32_cong a z : i32 (a + 2 ^ 32 * z) = i32 a.
Proof. unfold i32. replace (a + 2 ^ 32 * z + 2 ^ 31) with (a + 2 ^ 31 + z * 2 ^ 32) by lia. by rewrite Z.mod_add. Qed.

(** Arithmetic on wrapped ints is arithmetic that wraps at the end. *)
Lemma i32_mul_add a b c : i32 (i32 a * b + c) = i32 (a * b + c).
Proof.
  assert (exists z, i32 a = a + 2 ^ 32 * z) as (z & ->) by (unfold i32; exists (- ((a + 2 ^ 31) / 2 ^ 32)); dlia).
  replace ((a + 2 ^ 32 * z) * b + c) with (a * b + c + 2 ^ 32 * (z * b)) by lia. apply i32_cong.
Qed.

Lemma i32_add a b : i32 (i32 a + b) = i32 (a + b).
Proof. rewrite <- (Z.mul_1_r (i32 a)), i32_mul_add. f_equal. lia. Qed.

(** A place: the address of an entry and its offset in the swap files. *)
Definition page_places (num pg : Z) : list (Z * Z) :=
  (fun i => (ste_addr pg i, i32 (num * SWAP_TABLE_PAGE_OFFSET + i * PGSIZE))) <$>
    range 0 (Z.to_nat SWAP_TABLE_ENTRY_NUM).

Fixpoint places (num : Z) (pages : list Z) : list (Z * Z) :=
  match pages with
  | [] => []
  | pg :: pages => page_places num pg ++ places (num + 1) pages
  end.

Definition find_place (m : gmap Z Z) (va : Z) (l : list (Z * Z)) : option (Z * Z) :=
  head (omap (fun pl : Z * Z => if decide (m !! pl.1 = Some va) then Some pl else None) l).

Lemma find_place_Some m va l pl : find_place m va l = Some pl -> pl ∈ l /\ m !! pl.1 = Some va.
Proof.
  unfold find_place. intros H%head_Some_elem_of%list_elem_of_omap.
  destruct H as (pl' & Hin & H). case_decide; by simplify_eq.
Qed.

Lemma find_place_None m va l pl : find_place m va l = None -> pl ∈ l -> m !! pl.1 <> Some va.
Proof.
  unfold find_place. induction l as [|pl' l IH]; cbn; [by rewrite elem_of_nil|].
  case_decide; [done|]. intros Hn [->|Hin]%elem_of_cons; auto.
Qed.

Lemma find_place_app m va l1 l2 :
  find_place m va (l1 ++ l2) =
  match find_place m va l1 with Some e => Some e | None => find_place m va l2 end.
Proof. unfold find_place. rewrite omap_app. by destruct (omap _ l1). Qed.

Lemma places_app num p1 p2 :
  places num (p1 ++ p2) = places num p1 ++ places (num + Z.of_nat (length p1)) p2.
Proof.
  revert num. induction p1 as [|pg p1 IH]; intros num; cbn [places app length].
  - by rewrite Z.add_0_r.
  - rewrite IH, <-app_assoc. do 3 f_equal. lia.
Qed.

(** The place number [i] of page number [k]. *)
Lemma elem_of_places num pages e o :
  (e, o) ∈ places num pages <->
  exists k pg i, pages !! k = Some pg /\ 0 <= i < SWAP_TABLE_ENTRY_NUM /\
    e = ste_addr pg i /\ o = i32 (PGSIZE * (SWAP_TABLE_ENTRY_NUM * (num + Z.of_nat k) + i)).
Proof.
  revert num. induction pages as [|pg pages IH]; intros num; cbn [places].
  - rewrite elem_of_nil. split; [done|]. by intros (k & pg & i & H & _).
  - rewrite elem_of_app, IH. unfold page_places. rewrite list_elem_of_fmap. setoid_rewrite elem_of_range.
    unfold SWAP_TABLE_PAGE_OFFSET, SWAP_TABLE_ENTRY_NUM, PGSIZE. split.
    + intros [(i & [= -> ->] & Hi)|(k & pg' & i & Hk & Hi & -> & ->)].
      * exists 0%nat, pg, i. repeat split; try done; try lia. f_equal. lia.
      * exists (S k), pg', i. repeat split; try done; try lia. f_equal. lia.
    + intros (k & pg' & i & Hk & Hi & -> & ->). destruct k as [|k].
      * left. cbn in Hk. injection Hk as ->. exists i. split; [do 2 f_equal; lia|lia].
      * right. exists k, pg', i. repeat split; try done; try lia. f_equal. lia.
Qed.

(** Distinct places have distinct offsets, one page apart, as long as the table has
    at most 1026 pages, for 4 GB. *)
Definition offsets_fit (pages : list Z) : Prop := (length pages <= 1026)%nat.

Lemma places_offset_inj num pages e1 e2 o : offsets_fit pages ->
  (e1, o) ∈ places num pages -> (e2, o) ∈ places num pages -> e1 = e2.
Proof.
  unfold offsets_fit. rewrite !elem_of_places.
  intros Hfit (k1 & p1 & i1 & H1 & Hi1 & -> & ->) (k2 & p2 & i2 & H2 & Hi2 & -> & E).
  pose proof (lookup_lt_Some _ _ _ H1). pose proof (lookup_lt_Some _ _ _ H2). apply i32_inj in E as [z E].
  unfold PGSIZE, SWAP_TABLE_ENTRY_NUM in *. assert (z = 0) as -> by lia. assert (k1 = k2) as -> by lia. assert (i1 = i2) as -> by lia.
  congruence.
Qed.

Lemma places_entry_inj num pages e o1 o2 :
  NoDup pages -> Forall (fun pg => pg mod 4096 = 0) pages ->
  (e, o1) ∈ places num pages -> (e, o2) ∈ places num pages -> o1 = o2.
Proof.
  intros Hnd Hal. rewrite !elem_of_places.
  intros (k1 & p1 & i1 & H1 & Hi1 & -> & ->) (k2 & p2 & i2 & H2 & Hi2 & E & ->).
  pose proof (Forall_lookup_1 _ _ _ _ Hal H1) as A1. pose proof (Forall_lookup_1 _ _ _ _ Hal H2) as A2.
  unfold ste_addr, SWAP_TABLE_ENTRY_NUM in *. cbn in A1, A2.
  assert (p1 = p2) as -> by dlia. pose proof (NoDup_lookup _ _ _ _ Hnd H1 H2) as ->. f_equal. lia.
Qed.

Section MemSwap.
Context {F : Type} {KI : KernelImage}.
Implicit Types s : kst F.

Lemma find_in_swap_page_ok s pg va num :
  (forall pl, pl ∈ page_places num pg -> is_Some (k_ste s !! pl.1)) ->
  find_in_swap_page pg va (i32 num) s = Ret (find_place (k_ste s) va (page_places num pg)) s.
Proof.
  intros Hs. unfold find_in_swap_page.
  rewrite (for_find_pure _ _ (fun i =>
    if decide (k_ste s !! ste_addr pg i = Some va)
    then Some (ste_addr pg i, i32 (num * SWAP_TABLE_PAGE_OFFSET + i * PGSIZE)) else None)).
  - unfold find_place, page_places. by rewrite head_omap_fmap.
  - intros i Hi. unfold bind, ste_get.
    rewrite i32_mul_add. destruct (Hs (ste_addr pg i, i32 (num * SWAP_TABLE_PAGE_OFFSET + i * PGSIZE))) as [x Hx].
    { unfold page_places. apply list_elem_of_fmap. by exists i. }
    cbn in Hx. rewrite Hx. cbn. destruct (Z.eqb_spec x va); case_decide; by simplify_eq.
Qed.

Lemma swap_table_loop_ok s va : forall pages fuel p num,
  page_chain (k_stp s) p pages ->
  (forall pl, pl ∈ places num pages -> is_Some (k_ste s !! pl.1)) -> (length pages <= fuel)%nat ->
  swap_table_loop fuel p va (i32 num) s =
  Ret (match find_place (k_ste s) va (places num pages) with
       | Some pl => inl pl
       | None => inr (i32 (num + Z.of_nat (length pages)))
       end) s.
Proof.
  induction pages as [|pg pages IH]; intros fuel p num Hc Hs Hf; cbn in Hc.
  - subst p. rewrite Z.add_0_r. by destruct fuel.
  - destruct Hc as (-> & Hpos & _ & x & Hx & Hc).
    destruct fuel as [|fuel]; [cbn in Hf; lia|]. cbn [swap_table_loop].
    destruct (Z.eqb_spec pg 0); [lia|]. unfold bind.
    rewrite find_in_swap_page_ok by (intros pl Hpl; apply Hs; cbn; apply elem_of_app; by left).
    cbn [places]. rewrite find_place_app.
    destruct (find_place (k_ste s) va (page_places num pg)) as [pl|]; [done|].
    unfold stp_get. rewrite Hx, i32_add. rewrite IH; [|done| |cbn in Hf; lia].
    + replace (num + 1 + Z.of_nat (length pages)) with (num + Z.of_nat (length (pg :: pages))); [done|].
      cbn [length]. lia.
    + intros pl Hpl. apply Hs. cbn. apply elem_of_app. by right.
Qed.

(** The swap table of process [i]: its pages and their entries. *)
Record swap_inv s (i : nat) (p : proc) (pages : list Z) : Prop := {
  sw_proc : k_ptable s !! i = Some p;
  sw_chain : page_chain (k_stp s) (p_SwapTableListHead p) pages;
  sw_tail : pages <> [] -> last pages = Some (p_SwapTableListTail p);
  sw_nodup : NoDup pages;
  sw_entries : forall pl, pl ∈ places 0 pages -> is_Some (k_ste s !! pl.1)
}.

Lemma swap_pages_aligned s i p pages : swap_inv s i p pages -> Forall (fun pg => pg mod 4096 = 0) pages.
Proof.
  intros I. apply Forall_forall. intros pg Hpg.
  by destruct (page_chain_pages _ _ _ _ (sw_chain _ _ _ _ I) Hpg) as (_ & H & _).
Qed.

Lemma GetAddressInSwapTable_ok s i p pages va :
  swap_inv s i p pages ->
  GetAddressInSwapTable i va s =
  match find_place (k_ste s) va (places 0 pages) with
  | Some pl => Ret pl s
  | None => Panic "[ERROR] Should find the place in the swap table!"
  end.
Proof.
  intros I. unfold GetAddressInSwapTable, bind, get_proc, stp_fuel, gets. rewrite (sw_proc _ _ _ _ I).
  rewrite (swap_table_loop_ok s va pages _ _ 0); [|apply I|apply I|].
  - by destruct (find_place _ va _).
  - pose proof (page_chain_length _ _ _ (sw_chain _ _ _ _ I) (sw_nodup _ _ _ _ I)). lia.
Qed.

(** A virtual address at one place only is found there. *)
Lemma GetAddress_unique s i p pages va e o :
  swap_inv s i p pages -> (e, o) ∈ places 0 pages -> k_ste s !! e = Some va ->
  (forall e' o', (e', o') ∈ places 0 pages -> k_ste s !! e' = Some va -> e' = e) ->
  GetAddressInSwapTable i va s = Ret (e, o) s.
Proof.
  intros I Hin He Hu. rewrite (GetAddressInSwapTable_ok s i p pages va I).
  destruct (find_place (k_ste s) va (places 0 pages)) as [[e' o']|] eqn:Hf.
  - apply find_place_Some in Hf as [Hin' He']. cbn in He'. pose proof (Hu _ _ Hin' He') as ->.
    by rewrite (places_entry_inj 0 pages e o' o (sw_nodup _ _ _ _ I) (swap_pages_aligned _ _ _ _ I) Hin' Hin).
  - by destruct (find_place_None _ _ _ _ Hf Hin).
Qed.

(** A usable entry is handed out without a change of the state. *)
Lemma GetEmpty_found s i p pages pl :
  swap_inv s i p pages -> find_place (k_ste s) SLOT_USABLE (places 0 pages) = Some pl ->
  GetEmptyInSwapTable i s = Ret pl s.
Proof.
  intros I Hf. unfold GetEmptyInSwapTable, bind, get_proc, stp_fuel, gets. rewrite (sw_proc _ _ _ _ I).
  rewrite (swap_table_loop_ok s SLOT_USABLE pages _ _ 0); [|apply I|apply I|].
  - by rewrite Hf.
  - pose proof (page_chain_length _ _ _ (sw_chain _ _ _ _ I) (sw_nodup _ _ _ _ I)). lia.
Qed.

(** ** Growing the table *)

Definition swap_cleared (pg : Z) (l : list Z) (m : gmap Z Z) : gmap Z Z :=
  foldl (fun m i => <[ste_addr pg i := SLOT_USABLE]> m) m l.

Lemma swap_cleared_lookup pg l : forall m e,
  swap_cleared pg l m !! e = if decide (e ∈ ste_addr pg <$> l) then Some SLOT_USABLE else m !! e.
Proof.
  induction l as [|i l IH]; intros m e; cbn; [done|].
  unfold swap_cleared in IH. rewrite IH.
  destruct (decide (e ∈ ste_addr pg <$> l)) as [Hin|Hin].
  - rewrite decide_True; [done|by constructor].
  - destruct (decide (e = ste_addr pg i)) as [->|Hne].
    + rewrite lookup_insert_eq, decide_True; [done|constructor].
    + rewrite lookup_insert_ne, decide_False; [done| |done].
      intros [|]%elem_of_cons; done.
Qed.

Lemma clear_swap_entries pg l : forall s,
  for_each l (fun i => modify (fun s : kst F => s <| k_ste ::= <[ste_addr pg i := SLOT_USABLE]> |>)) s =
  Ret tt (s <| k_ste := swap_cleared pg l (k_ste s) |>).
Proof.
  induction l as [|i l IH]; intros s; cbn [for_each]; [by destruct s|].
  unfold bind, modify. by rewrite IH.
Qed.

(** The state after AllocSwapPage made the page [pg]. *)
Definition swap_page_post s (pg : Z) : kst F :=
  (kalloc_post s pg)
    <| k_ste := swap_cleared pg (range 0 (Z.to_nat SWAP_TABLE_ENTRY_NUM)) (k_ste s) |>
    <| k_stp := <[pg := {| t_Last := 0; t_Next := 0 |}]> (k_stp s) |>.

Lemma AllocSwapPage_ok s pg l : kmem_inv s (pg :: l) -> AllocSwapPage s = Ret pg (swap_page_post s pg).
Proof.
  intros Hinv. unfold AllocSwapPage. rewrite (bind_ret_eq _ _ _ _ _ (kalloc_head s pg l Hinv)).
  pose proof (ki_pages _ _ Hinv) as [Hp _]%Forall_cons. pose proof (kpage_nonzero pg Hp).
  destruct (Z.eqb_spec pg 0); [done|]. unfold ClearSwapPage. rewrite bind_assoc.
  by rewrite (bind_ret_eq _ _ _ _ _ (clear_swap_entries pg _ _)).
Qed.

Lemma page_chain_snoc m m' pages : forall p pg x,
  page_chain m p pages -> NoDup pages -> (pg ∉ pages) -> 0 < pg -> pg mod 4096 = 0 ->
  m' !! pg = Some x -> t_Next x = 0 ->
  (forall q, q ∈ pages -> exists y, m !! q = Some y /\
     exists y', m' !! q = Some y' /\ t_Next y' = if decide (last pages = Some q) then pg else t_Next y) ->
  pages <> [] -> page_chain m' p (pages ++ [pg]).
Proof.
  induction pages as [|q pages IH]; intros p pg x Hc Hnd Hn Hpos Hal Hx Hx0 Hm Hne; [done|].
  destruct Hc as (-> & Hq & Hqa & y & Hy & Hc). apply NoDup_cons in Hnd as [Hqn Hnd].
  apply not_elem_of_cons in Hn as [Hne' Hn].
  destruct (Hm q ltac:(constructor)) as (y0 & Hy0 & y' & Hy' & Hnx). rewrite Hy in Hy0. injection Hy0 as <-.
  cbn [app page_chain]. repeat (split; [done|]). exists y'. split; [done|]. rewrite Hnx.
  destruct pages as [|q' pages].
  - rewrite decide_True by done. cbn. repeat (split; [done|]). exists x. split; [done|by rewrite Hx0].
  - rewrite decide_False.
    + eapply IH; try done. intros q0 Hq0. destruct (Hm q0 ltac:(by constructor)) as (z & Hz & z' & Hz' & E).
      exists z. split; [done|]. exists z'. split; [done|]. by rewrite E, last_cons_cons.
    + rewrite last_cons_cons. intros Hl%last_Some_elem_of. done.
Qed.

Lemma wp_stp_upd e x g s (Q : _ -> kst F -> Prop) :
  k_stp s !! e = Some x -> Q tt (s <| k_stp := <[e := g x]> (k_stp s) |>) -> wp (stp_upd e g) s Q.
Proof. unfold wp, stp_upd. by intros ->. Qed.

(** What growing the table by [pg] changes. *)
Definition grow_post s (pg : Z) (i : nat) (p' : proc) (mp : gmap Z TablePage) : kst F :=
  (swap_page_post s pg) <| k_stp := mp |> <| k_ptable := <[i := p']> (k_ptable s) |>.

Lemma GrowSwapTable_run s i p pages pg l :
  swap_inv s i p pages -> kmem_inv s (pg :: l) -> (pg ∉ pages) ->
  exists p' mp,
    GrowSwapTable i s = Ret 0 (grow_post s pg i p' mp) /\
    page_chain mp (p_SwapTableListHead p') (pages ++ [pg]) /\ p_SwapTableListTail p' = pg.
Proof.
  intros I Hinv Hn. pose proof (sw_proc _ _ _ _ I) as Hp.
  pose proof (ki_pages _ _ Hinv) as [Hk _]%Forall_cons. destruct (kpage_page _ Hk) as [Hpos Hal].
  pose proof (AllocSwapPage_ok s pg l Hinv) as Ha.
  pose proof (sw_chain _ _ _ _ I) as Hc.
  destruct pages as [|q pages].
  - cbn in Hc. eexists (p <| p_SwapTableListHead := pg |> <| p_SwapTableListTail := pg |>), _. split; [|split; [|done]].
    + apply wp_run. unfold GrowSwapTable. ksteps. eapply wp_eq; [exact Ha|]. unfold swap_page_post, kalloc_post.
      ksteps. destruct (Z.eqb_spec pg 0); [lia|]. ksteps. split; [done|].
      unfold grow_post, swap_page_post, kalloc_post. kred. by rewrite list_insert_insert_eq.
    + cbn. repeat (split; [done|]). eexists. split; [apply lookup_insert_eq|done].
  - assert (p_SwapTableListHead p <> 0) as Hh by (destruct Hc as (-> & ? & _); lia).
    pose proof (sw_tail _ _ _ _ I ltac:(done)) as Ht. set (tl := p_SwapTableListTail p) in *.
    assert (tl ∈ q :: pages) as Htl by by apply last_Some_elem_of.
    assert (tl <> pg) as Hne by (by intros <-).
    destruct (page_chain_pages _ _ _ _ Hc Htl) as (_ & _ & y & Hy).
    set (mp := <[pg := {| t_Last := tl; t_Next := 0 |}]> (<[tl := y <| t_Next := pg |>]>
      (<[pg := {| t_Last := 0; t_Next := 0 |}]> (k_stp s)))).
    exists (p <| p_SwapTableListTail := pg |>), mp. split; [|split; [|done]].
    + apply wp_run. unfold GrowSwapTable. ksteps. eapply wp_eq; [exact Ha|]. unfold swap_page_post, kalloc_post.
      ksteps. destruct (Z.eqb_spec pg 0); [lia|]. fold tl. ksteps.
      eapply wp_stp_upd; [klook|]. kred. ksteps. eapply wp_stp_upd; [klook|]. by ksteps.
    + eapply (page_chain_snoc (k_stp s)); [exact Hc|apply I|done|done|done|apply lookup_insert_eq|done| |done].
      intros q0 Hq0. destruct (page_chain_pages _ _ _ _ Hc Hq0) as (_ & _ & z & Hz).
      exists z. split; [done|]. assert (pg <> q0) by (by intros ->). unfold mp. rewrite Ht.
      destruct (decide (tl = q0)) as [->|Htq].
      * exists (y <| t_Next := pg |>). split; [klook|]. by rewrite decide_True.
      * exists z. split; [klook|]. rewrite decide_False; congruence.
Qed.

Lemma page_places_fst num pg : (page_places num pg).*1 = ste_addr pg <$> range 0 (Z.to_nat SWAP_TABLE_ENTRY_NUM).
Proof. unfold page_places. rewrite <-list_fmap_compose. done. Qed.

(** Growing adds a page of usable entries behind the others. *)
Lemma GrowSwapTable_ok s i p pages pg l :
  swap_inv s i p pages -> kmem_inv s (pg :: l) -> (pg ∉ pages) ->
  exists s' p', GrowSwapTable i s = Ret 0 s' /\ swap_inv s' i p' (pages ++ [pg]) /\
    p_SwapTableListTail p' = pg /\
    (forall pl, pl ∈ places 0 pages -> k_ste s' !! pl.1 = k_ste s !! pl.1) /\
    (forall num pl, pl ∈ page_places num pg -> k_ste s' !! pl.1 = Some SLOT_USABLE).
Proof.
  intros I Hinv Hn. destruct (GrowSwapTable_run s i p pages pg l I Hinv Hn) as (p' & mp & Hr & Hc & Ht).
  pose proof (ki_pages _ _ Hinv) as [Hk _]%Forall_cons. destruct (kpage_page _ Hk) as [Hpos Hal].
  set (s' := grow_post s pg i p' mp) in *.
  assert (forall pl, pl ∈ places 0 pages -> k_ste s' !! pl.1 = k_ste s !! pl.1) as Hold.
  { intros [e o] (k & q & j & Hq & Hj & -> & ->)%elem_of_places. cbn. rewrite swap_cleared_lookup, decide_False; [done|].
    intros (j' & E & Hj'%elem_of_range)%list_elem_of_fmap.
    pose proof (Forall_lookup_1 _ _ _ _ (swap_pages_aligned _ _ _ _ I) Hq) as Ha. cbn in Ha.
    unfold ste_addr, SWAP_TABLE_ENTRY_NUM in *. apply Hn. assert (pg = q) as -> by dlia.
    by eapply list_elem_of_lookup_2. }
  assert (forall num pl, pl ∈ page_places num pg -> k_ste s' !! pl.1 = Some SLOT_USABLE) as Hnew.
  { intros num pl Hpl. cbn. rewrite swap_cleared_lookup, decide_True; [done|].
    rewrite <-(page_places_fst num pg). by apply list_elem_of_fmap_2. }
  exists s', p'. split; [done|]. split; [|done]. constructor.
  - cbn. by rewrite list_lookup_insert_eq by eauto using lookup_lt_Some, sw_proc.
  - exact Hc.
  - intros _. by rewrite last_snoc, Ht.
  - apply NoDup_app. split; [apply I|]. split; [|apply NoDup_singleton].
    intros q Hq ->%list_elem_of_singleton. done.
  - intros pl. rewrite places_app, elem_of_app. cbn [places]. rewrite app_nil_r.
    intros [Hpl|Hpl]; [rewrite Hold by done; by apply (sw_entries _ _ _ _ I)|].
    rewrite (Hnew _ _ Hpl). eauto.
Qed.

(** The place GetEmptyInSwapTable returns, in a table that still has every
    entry that was in use. *)
Lemma GetEmpty_ok s i p pages pg l :
  swap_inv s i p pages -> kmem_inv s (pg :: l) -> (pg ∉ pages) ->
  exists e o s' p' pages', GetEmptyInSwapTable i s = Ret (e, o) s' /\
    swap_inv s' i p' pages' /\ (length pages' <= S (length pages))%nat /\
    (e, o) ∈ places 0 pages' /\ k_ste s' !! e = Some SLOT_USABLE /\
    (forall pl, pl ∈ places 0 pages -> pl ∈ places 0 pages' /\ k_ste s' !! pl.1 = k_ste s !! pl.1) /\
    (forall pl, pl ∈ places 0 pages' -> pl ∈ places 0 pages \/ k_ste s' !! pl.1 = Some SLOT_USABLE).
Proof.
  intros I Hinv Hn. destruct (find_place (k_ste s) SLOT_USABLE (places 0 pages)) as [[e o]|] eqn:Hf.
  - exists e, o, s, p, pages. pose proof Hf as [Hin He]%find_place_Some.
    split; [by eapply GetEmpty_found|]. repeat split; try done; [by apply I..|lia|]. by left.
  - destruct (GrowSwapTable_ok s i p pages pg l I Hinv Hn) as (s' & p' & Hr & I' & Ht & Hold & Hnew).
    set (n := Z.of_nat (length pages)).
    assert (places 0 (pages ++ [pg]) = places 0 pages ++ page_places n pg) as Epl
      by (rewrite places_app; cbn [places]; by rewrite app_nil_r).
    destruct (find_place (k_ste s') SLOT_USABLE (page_places n pg)) as [[e o]|] eqn:Hf'.
    + pose proof Hf' as [Hin He]%find_place_Some. exists e, o, s', p', (pages ++ [pg]).
      split; [|split; [done|split; [rewrite length_app; cbn; lia|split; [|split; [done|split]]]]].
      * unfold GetEmptyInSwapTable, stp_fuel. unfold bind at 1, get_proc. rewrite (sw_proc _ _ _ _ I).
        unfold bind at 1, gets. erewrite (bind_ret_eq (swap_table_loop _ _ _ _)).
        2: { apply (swap_table_loop_ok s SLOT_USABLE pages _ _ 0); [apply I|apply I|].
             pose proof (page_chain_length _ _ _ (sw_chain _ _ _ _ I) (sw_nodup _ _ _ _ I)). lia. }
        rewrite Hf. rewrite (bind_ret_eq _ _ _ _ _ Hr). unfold bind at 1. rewrite (sw_proc _ _ _ _ I').
        rewrite Ht. rewrite (bind_ret_eq _ _ _ _ _ (find_in_swap_page_ok s' pg SLOT_USABLE _ ltac:(intros pl Hpl; rewrite (Hnew _ _ Hpl); eauto))).
        change (0 + Z.of_nat (length pages)) with n. by rewrite Hf'.
      * rewrite Epl. apply elem_of_app. by right.
      * intros pl Hpl. split; [rewrite Epl; apply elem_of_app; by left|by apply Hold].
      * intros pl. rewrite Epl. intros [Hpl|Hpl]%elem_of_app; [by left|right; by eapply Hnew].
    + exfalso. eapply (find_place_None _ _ _ (ste_addr pg 0, i32 (n * SWAP_TABLE_PAGE_OFFSET + 0 * PGSIZE)) Hf').
      * unfold page_places. apply list_elem_of_fmap. exists 0. split; [done|]. apply elem_of_range.
        unfold SWAP_TABLE_ENTRY_NUM. lia.
      * eapply (Hnew n). unfold page_places. apply list_elem_of_fmap. exists 0. split; [done|]. apply elem_of_range.
        unfold SWAP_TABLE_ENTRY_NUM. lia.
Qed.

(** C31.  Swap slots.  An address recorded at the place GetEmptyInSwapTable
    gives is found again at that place; its offset in the swap files is page
    aligned and, as long as the table has fewer than 1026 pages (4 GB of swapped
    pages, where the int wraps around), differs from the offset of every other
    entry in use; and these entries keep their address and their offset, also
    when the table grows. *)
Theorem swap_slot_roundtrip s i p pages pg l va :
  swap_inv s i p pages -> kmem_inv s (pg :: l) -> (pg ∉ pages) ->
  va <> SLOT_USABLE -> (forall pl, pl ∈ places 0 pages -> k_ste s !! pl.1 <> Some va) ->
  exists e o s',
    (pl <- GetEmptyInSwapTable i ;; ste_set pl.1 va ;;; GetAddressInSwapTable i va) s = Ret (e, o) s' /\
    o mod PGSIZE = 0 /\ k_ste s' !! e = Some va /\
    forall va' e' o', va' <> SLOT_USABLE -> (e', o') ∈ places 0 pages -> k_ste s !! e' = Some va' ->
      k_ste s' !! e' = Some va' /\ ((length pages < 1026)%nat -> o' <> o).
Proof.
  intros I Hinv Hn Hva Hfresh.
  destruct (GetEmpty_ok s i p pages pg l I Hinv Hn) as (e & o & s1 & p1 & pages1 & Hr & I1 & Hlen & Hin & He & Hold & Hnew).
  set (s' := s1 <| k_ste := <[e := va]> (k_ste s1) |>).
  assert (swap_inv s' i p1 pages1) as I'.
  { destruct I1 as [H1 H2 H3 H4 H5]. constructor; try done. intros pl Hpl. cbn.
    destruct (decide (e = pl.1)) as [<-|]; [rewrite lookup_insert_eq; eauto|].
    rewrite lookup_insert_ne by done. by apply H5. }
  assert (GetAddressInSwapTable i va s' = Ret (e, o) s') as HG.
  { eapply GetAddress_unique; [exact I'|done|cbn; apply lookup_insert_eq|].
    intros e' o' Hpl. cbn. destruct (decide (e = e')) as [<-|Hne]; [done|]. rewrite lookup_insert_ne by done.
    intros Hx. exfalso. destruct (Hnew _ Hpl) as [Hp|Hp]; cbn in Hp; [|congruence].
    destruct (Hold _ Hp) as [_ E]. cbn in E. apply (Hfresh _ Hp). cbn. congruence. }
  exists e, o, s'. split; [|split; [|split]].
  - rewrite (bind_ret_eq _ _ _ _ _ Hr). unfold bind, ste_set. cbn [fst]. rewrite He. exact HG.
  - apply elem_of_places in Hin as (k & q & j & _ & _ & _ & ->). unfold PGSIZE, i32. dlia.
  - cbn. apply lookup_insert_eq.
  - intros va' e' o' Hva' Hpl He'. destruct (Hold _ Hpl) as [Hpl' E]. cbn in E.
    assert (e <> e') as Hne by (intros <-; congruence).
    split; [cbn; rewrite lookup_insert_ne by done; congruence|].
    intros Hl ->. apply Hne. eapply places_offset_inj; [|done|done]. unfold offsets_fit. lia.
Qed.

End MemSwap.

(** ** Witnesses *)

Module MemSwapWitness.

#[local] Existing Instance boot_image.

(** A process without swap table and one free page: the table grows. *)
Lemma swap_slot_roundtrip_witness : exists (s : kst unit) e o s',
  (pl <- GetEmptyInSwapTable 0 ;; ste_set pl.1 0x3000 ;;; GetAddressInSwapTable 0 0x3000) s = Ret (e, o) s'.
Proof.
  destruct (KallocWitness.some_pages 1 (boot tt) ltac:(lia)) as (m & k & Hinv).
  destruct (swap_slot_roundtrip ((boot tt) <| k_phys := m |> <| k_mem := k |>) 0 proc0 [] 0x80200000 [] 0x3000)
    as (e & o & s' & H & _).
  - constructor; [done|done|done|constructor|by intros pl ?%elem_of_nil].
  - exact Hinv.
  - by intros ?%elem_of_nil.
  - done.
  - by intros pl ?%elem_of_nil.
  - by eexists _, e, o, s'.
Defined.

End MemSwapWitness.
