(* ===== verification/Vm.v ===== *)
(** Page tables and user memory, src/src/vm.c.

    A page table lives in physical memory: a page of 1024 directory entries and
    pages of 1024 entries.  Kernel pointers are virtual addresses above
    KERNBASE, translated by subtracting KERNBASE; user pointers go through the
    page table in cr3.  The TLB is not modelled: [lcr3] only sets cr3.  Messages
    printed with cprintf are not part of the state. *)

From stdpp Require Import base gmap list strings.
From Stdlib Require Import ZArith Lia.
From S2P Require Import Prelude Mem Str Mmu State Kalloc MemTable.

(** What the virtual memory code needs of the file system: reading an inode,
    and the swap files of a process (ReadSwapFile and WriteSwapFile of fs.c,
    for the process given).  A read returns the C result and the bytes it put in
    the buffer; a write takes the bytes of its buffer. *)
Class FileSys (F : Type) := {
  fs_readi : nat -> Z -> Z -> M (kst F) (Z * list Z);
  fs_ReadSwapFile : nat -> Z -> Z -> M (kst F) (Z * list Z);
  fs_WriteSwapFile : nat -> list Z -> Z -> M (kst F) Z
}.

Section Vm.
Context {F : Type} {KI : KernelImage} {FS : FileSys F}.
Implicit Types s : kst F.

(** ** Pointers *)

(** A kernel pointer to physical memory. *)
Definition kernel_ptr (p : Z) : bool := (KERNBASE <=? p) && (p <? KERNBASE + PHYSTOP).

Definition kload32 (p : Z) : M (kst F) Z := fun s =>
  if kernel_ptr p then Ret (load32 (k_phys s) (V2P p)) s else Crash "kernel pointer".

Definition kstore32 (p v : Z) : M (kst F) unit := fun s =>
  if kernel_ptr p then Ret tt (s <| k_phys ::= fun m => store32 m (V2P p) v |>)
  else Crash "kernel pointer".

(** What an entry of the directory or of a table allows: writes (CR0_WP is set,
    so also those of the kernel) need PTE_W, and accesses of user code PTE_U. *)
Definition allows (user write : bool) (e : Z) : bool :=
  has e PTE_P && (negb write || has e PTE_W) && (negb user || has e PTE_U).

(** Translation of an address by the page table in cr3: the entries of both levels
    must allow the access. *)
Definition access (user write : bool) (m : mem) (cr3 va : Z) : option Z :=
  let pde := load32 m (PTE_ADDR cr3 + 4 * PDX va) in
  if allows user write pde then
    let pte := load32 m (PTE_ADDR pde + 4 * PTX va) in
    if allows user write pte then Some (PTE_ADDR pte + va mod PGSIZE) else None
  else None.

(** The accesses of the kernel. *)
Definition translate (m : mem) (cr3 va : Z) (write : bool) : option Z := access false write m cr3 va.

Definition uload8 (va : Z) : M (kst F) Z := fun s =>
  match translate (k_phys s) (k_cr3 s) va false with
  | Some pa => Ret (load8 (k_phys s) pa) s
  | None => Crash "page fault in the kernel"
  end.

Definition ustore8 (va v : Z) : M (kst F) unit := fun s =>
  match translate (k_phys s) (k_cr3 s) va true with
  | Some pa => Ret tt (s <| k_phys := store8 (k_phys s) pa v |>)
  | None => Crash "page fault in the kernel"
  end.

Fixpoint uload_bytes (va : Z) (n : nat) : M (kst F) (list Z) :=
  match n with
  | O => ret []
  | S n => b <- uload8 va ;; l <- uload_bytes (va + 1) n ;; ret (b :: l)
  end.

Fixpoint ustore_bytes (va : Z) (l : list Z) : M (kst F) unit :=
  match l with
  | [] => ret tt
  | b :: l => ustore8 va b ;;; ustore_bytes (va + 1) l
  end.

(** ** Page tables *)

Definition walkpgdir (pgdir va : Z) (alloc : bool) : M (kst F) Z :=
  let pde := pgdir + 4 * PDX va in
  e <- kload32 pde ;;
  if has e PTE_P then ret (P2V (PTE_ADDR e) + 4 * PTX va)
  else if negb alloc then ret 0
  else
    pgtab <- kalloc ;;
    if pgtab =? 0 then ret 0
    else
      modify (fun s => s <| k_phys ::= fun m => memset m (V2P pgtab) 0 PGSIZE |>) ;;;
      kstore32 pde (Z.lor (Z.lor (Z.lor (V2P pgtab) PTE_P) PTE_W) PTE_U) ;;;
      ret (pgtab + 4 * PTX va).

(** The loop of mappages; [fuel] is the number of pages after this one. *)
Fixpoint mappages_loop (fuel : nat) (pgdir a last pa perm : Z) : M (kst F) Z :=
  pte <- walkpgdir pgdir a true ;;
  if pte =? 0 then ret (-1)
  else
    e <- kload32 pte ;;
    if has e PTE_P then panic "remap"
    else
      kstore32 pte (Z.lor (Z.lor pa perm) PTE_P) ;;;
      if a =? last then ret 0
      else
        match fuel with
        | O => no_fuel
        | S fuel => mappages_loop fuel pgdir (u32 (a + PGSIZE)) last (u32 (pa + PGSIZE)) perm
        end.

Definition mappages (pgdir va size pa perm : Z) : M (kst F) Z :=
  let a := PGROUNDDOWN va in
  let last := PGROUNDDOWN (u32 (va + size - 1)) in
  mappages_loop (Z.to_nat (u32 (last - a) / PGSIZE)) pgdir a last pa perm.

(** ** Shrinking *)

Definition deref_proc (p : option nat) : M (kst F) nat :=
  match p with
  | Some i => ret i
  | None => crash "null process"
  end.

(** [CurrentProcess->pgdir == pgdir] *)
Definition is_current_pgdir (CurrentProcess : option nat) (pgdir : Z) : M (kst F) bool :=
  i <- deref_proc CurrentProcess ;;
  p <- get_proc i ;;
  ret (p_pgdir p =? pgdir).

Fixpoint deallocuvm_loop (fuel : nat) (CurrentProcess : option nat) (pgdir a oldsz : Z) : M (kst F) unit :=
  if a <? oldsz then
    match fuel with
    | O => no_fuel
    | S fuel =>
        pte <- walkpgdir pgdir a false ;;
        (if pte =? 0 then
           deallocuvm_loop fuel CurrentProcess pgdir
             (u32 (u32 (a + (NPTENTRIES - 1) * PGSIZE) + PGSIZE)) oldsz
         else
           e <- kload32 pte ;;
           (if has e PTE_P then
              let pa := PTE_ADDR e in
              if pa =? 0 then panic "kfree"
              else
                mine <- is_current_pgdir CurrentProcess pgdir ;;
                when mine
                  (i <- deref_proc CurrentProcess ;;
                   CurrentEntry <- GetAddressInMemoryTable i a ;;
                   RemoveFromMemoryList i CurrentEntry ;;;
                   upd_proc i (fun p => p <| p_MemoryEntryNum ::= fun n => n - 1 |>)) ;;;
                kfree (P2V pa) ;;;
                kstore32 pte 0
            else if has e PTE_PG then
              mine <- is_current_pgdir CurrentProcess pgdir ;;
              when mine
                (i <- deref_proc CurrentProcess ;;
                 RemoveFromSwapTable i a ;;;
                 upd_proc i (fun p => p <| p_SwapPageNum ::= fun n => n - 1 |>))
            else ret tt) ;;;
           deallocuvm_loop fuel CurrentProcess pgdir (u32 (a + PGSIZE)) oldsz)
    end
  else ret tt.

Definition deallocuvm (pgdir oldsz newsz : Z) : M (kst F) Z :=
  CurrentProcess <- gets k_curproc ;;
  if oldsz <=? newsz then ret oldsz
  else
    let a := PGROUNDUP newsz in
    deallocuvm_loop (Z.to_nat ((oldsz - a) / PGSIZE + 1)) CurrentProcess pgdir a oldsz ;;;
    ret newsz.

Definition freevm (pgdir : Z) : M (kst F) unit :=
  if pgdir =? 0 then panic "freevm: no pgdir"
  else
    deallocuvm pgdir KERNBASE 0 ;;;
    for_each (range 0 (Z.to_nat NPDENTRIES)) (fun i =>
      e <- kload32 (pgdir + 4 * i) ;;
      when (has e PTE_P) (kfree (P2V (PTE_ADDR e)))) ;;;
    kfree pgdir.

(** ** The kernel part of a page table *)

Record kmap := { km_virt : Z; km_phys_start : Z; km_phys_end : Z; km_perm : Z }.

Definition kmap_table : list kmap :=
  [ {| km_virt := KERNBASE; km_phys_start := 0; km_phys_end := EXTMEM; km_perm := PTE_W |};
    {| km_virt := KERNLINK; km_phys_start := V2P KERNLINK; km_phys_end := V2P kdata; km_perm := 0 |};
    {| km_virt := kdata; km_phys_start := V2P kdata; km_phys_end := PHYSTOP; km_perm := PTE_W |};
    {| km_virt := DEVSPACE; km_phys_start := DEVSPACE; km_phys_end := 0; km_perm := PTE_W |} ].

Definition setupkvm : M (kst F) Z :=
  pgdir <- kalloc ;;
  if pgdir =? 0 then ret 0
  else
    modify (fun s => s <| k_phys ::= fun m => memset m (V2P pgdir) 0 PGSIZE |>) ;;;
    if DEVSPACE <? P2V PHYSTOP then panic "PHYSTOP too high"
    else
      failed <- for_find kmap_table (fun k =>
        r <- mappages pgdir (km_virt k) (u32 (km_phys_end k - km_phys_start k))
               (km_phys_start k) (km_perm k) ;;
        ret (if r <? 0 then Some tt else None)) ;;
      match failed with
      | Some _ => freevm pgdir ;;; ret 0
      | None => ret pgdir
      end.

(** kpgdir is returned to the caller here instead of stored in a global. *)
Definition switchkvm (kpgdir : Z) : M (kst F) unit := lcr3 (V2P kpgdir).

Definition kvmalloc : M (kst F) Z :=
  kpgdir <- setupkvm ;;
  switchkvm kpgdir ;;;
  ret kpgdir.

Definition switchuvm (p : option nat) : M (kst F) unit :=
  match p with
  | None => panic "switchuvm: no process"
  | Some i =>
      p <- get_proc i ;;
      if p_kstack p =? 0 then panic "switchuvm: no kstack"
      else if p_pgdir p =? 0 then panic "switchuvm: no pgdir"
      else
        modify (fun s => s <| k_ts_esp0 := u32 (p_kstack p + KSTACKSIZE) |>) ;;;
        lcr3 (V2P (p_pgdir p))
  end.

Definition inituvm (pgdir : Z) (init : list Z) : M (kst F) unit :=
  if PGSIZE <=? Z.of_nat (length init) then panic "inituvm: more than a page"
  else
    mem <- kalloc ;;
    (if kernel_ptr mem then
       modify (fun s => s <| k_phys ::= fun m => memset m (V2P mem) 0 PGSIZE |>)
     else crash "kernel pointer") ;;;
    mappages pgdir 0 PGSIZE (V2P mem) (Z.lor PTE_W PTE_U) ;;;
    modify (fun s => s <| k_phys ::= fun m => store_bytes m (V2P mem) init |>).

(** The loop of loaduvm from offset [i] of the segment. *)
Fixpoint loaduvm_loop (fuel : nat) (pgdir addr : Z) (ip : nat) (offset sz i : Z) : M (kst F) Z :=
  if i <? sz then
    match fuel with
    | O => no_fuel
    | S fuel =>
        pte <- walkpgdir pgdir (u32 (addr + i)) false ;;
        if pte =? 0 then panic "loaduvm: address should exist"
        else
          e <- kload32 pte ;;
          let pa := PTE_ADDR e in
          let n := if sz - i <? PGSIZE then sz - i else PGSIZE in
          let* (r, bytes) := fs_readi ip (u32 (offset + i)) n ;;
          modify (fun s => s <| k_phys ::= fun m => store_bytes m pa bytes |>) ;;;
          if negb (r =? n) then ret (-1)
          else loaduvm_loop fuel pgdir addr ip offset sz (u32 (i + PGSIZE))
    end
  else ret 0.

Definition loaduvm (pgdir addr : Z) (ip : nat) (offset sz : Z) : M (kst F) Z :=
  if negb (addr mod PGSIZE =? 0) then panic "loaduvm: addr must be page aligned"
  else loaduvm_loop (Z.to_nat (sz / PGSIZE + 1)) pgdir addr ip offset sz 0.

Definition clearpteu (pgdir uva : Z) : M (kst F) unit :=
  pte <- walkpgdir pgdir uva false ;;
  if pte =? 0 then panic "clearpteu"
  else
    e <- kload32 pte ;;
    kstore32 pte (Z.land e (Z.lnot PTE_U)).

(** ** Copying an address space *)

(** One page of copyuvm; [false] is the jump to [bad]. *)
Definition copyuvm_page (pgdir d i : Z) : M (kst F) bool :=
  pte <- walkpgdir pgdir i false ;;
  if pte =? 0 then panic "copyuvm: pte should exist"
  else
    e <- kload32 pte ;;
    if negb (has e PTE_P) then panic "copyuvm: page not present"
    else
      kstore32 pte (Z.land e (Z.lnot PTE_W)) ;;;
      e <- kload32 pte ;;
      let pa := PTE_ADDR e in
      r <- mappages d i PGSIZE pa (PTE_FLAGS e) ;;
      if r <? 0 then ret false
      else increasePhysicalPageRefCountByOne pa ;;; ret true.

Fixpoint copyuvm_loop (fuel : nat) (pgdir d i limit : Z) : M (kst F) bool :=
  if i <? limit then
    match fuel with
    | O => no_fuel
    | S fuel =>
        ok <- copyuvm_page pgdir d i ;;
        if ok then copyuvm_loop fuel pgdir d (u32 (i + PGSIZE)) limit else ret false
    end
  else ret true.

Definition copyuvm (pgdir sz : Z) : M (kst F) Z :=
  d <- setupkvm ;;
  if d =? 0 then ret 0
  else
    ok <- copyuvm_loop (Z.to_nat (sz / PGSIZE)) pgdir d PGSIZE sz ;;
    ok <- (if ok then
             i <- myproc ;;
             p <- get_proc i ;;
             copyuvm_loop (Z.to_nat (p_stackSize p / PGSIZE + 1)) pgdir d
               (u32 (USERTOP - p_stackSize p)) USERTOP
           else ret false) ;;
    if ok then lcr3 (V2P pgdir) ;;; ret d
    else freevm d ;;; lcr3 (V2P pgdir) ;;; ret 0.

Definition uva2ka (pgdir uva : Z) : M (kst F) Z :=
  pte <- walkpgdir pgdir uva false ;;
  e <- kload32 pte ;;
  if negb (has e PTE_P) then ret 0
  else if negb (has e PTE_U) then ret 0
  else ret (P2V (PTE_ADDR e)).

(** [buf] holds the bytes at [p] still to be copied. *)
Fixpoint copyout_loop (fuel : nat) (pgdir va : Z) (buf : list Z) : M (kst F) Z :=
  if 0 <? Z.of_nat (length buf) then
    match fuel with
    | O => no_fuel
    | S fuel =>
        let va0 := PGROUNDDOWN va in
        pa0 <- uva2ka pgdir va0 ;;
        if pa0 =? 0 then ret (-1)
        else
          let n := PGSIZE - (va - va0) in
          let n := if Z.of_nat (length buf) <? n then Z.of_nat (length buf) else n in
          modify (fun s => s <| k_phys ::= fun m =>
            store_bytes m (V2P (pa0 + (va - va0))) (take (Z.to_nat n) buf) |>) ;;;
          copyout_loop fuel pgdir (u32 (va0 + PGSIZE)) (drop (Z.to_nat n) buf)
    end
  else ret 0.

Definition copyout (pgdir va : Z) (p : list Z) : M (kst F) Z :=
  copyout_loop (length p) pgdir va p.

(** ** Swapping *)

(** [kstrcmp(name, lit) == 0] for the name of a process. *)
Fixpoint name_is (name lit : list Z) : bool :=
  match name, lit with
  | c :: name, d :: lit => (c =? d) && name_is name lit
  | c :: _, [] => c =? 0
  | [], _ => false
  end.

Definition name_init : list Z := [105; 110; 105; 116].
Definition name_sh : list Z := [115; 104].

Definition RecordInSwapTable (CurrentProcess : nat) : M (kst F) Z :=
  ListTail <- GetMemoryListTail CurrentProcess ;;
  let* (SwapPlace, FileOffset) := GetEmptyInSwapTable CurrentProcess ;;
  t <- mte_get ListTail ;;
  let va := e_VirtualAddress t in
  ste_set SwapPlace va ;;;
  buf <- uload_bytes (PTE_ADDR va) (Z.to_nat PGSIZE) ;;
  p <- get_proc CurrentProcess ;;
  r <- fs_WriteSwapFile CurrentProcess buf FileOffset ;;
  if r =? 0 then ret 0
  else
    PageTablePlace <- walkpgdir (p_pgdir p) va false ;;
    e <- kload32 PageTablePlace ;;
    if e =? 0 then panic "[ERROR] [fifo_write] PTE empty."
    else
      kfree (P2V (PTE_ADDR e)) ;;;
      kstore32 PageTablePlace (Z.lor (Z.lor PTE_W PTE_U) PTE_PG) ;;;
      lcr3 (V2P (p_pgdir p)) ;;;
      ret ListTail.

(** One round of the copying loop of SwapMemoryAndFile.  [SwapBuffer] is
    cleared, then filled with what could be read. *)
Definition swap_round (CurrentProcess : nat) (PageTableMemory TheVirtualAddress FileOffset FileNum : Z) : M (kst F) unit :=
  let FileStartPlace := u32 (FileOffset + SWAP_BUFFER_SIZE * FileNum) in
  let CurrentWritingOffset := SWAP_BUFFER_SIZE * FileNum in
  let* (_, bytes) := fs_ReadSwapFile CurrentProcess FileStartPlace SWAP_BUFFER_SIZE ;;
  let SwapBuffer := bytes ++ replicate (Z.to_nat SWAP_BUFFER_SIZE - length bytes) 0 in
  e <- kload32 PageTableMemory ;;
  out <- gets (fun s => load_bytes (k_phys s) (PTE_ADDR e + CurrentWritingOffset) (Z.to_nat SWAP_BUFFER_SIZE)) ;;
  fs_WriteSwapFile CurrentProcess out FileStartPlace ;;;
  ustore_bytes (PTE_ADDR TheVirtualAddress + CurrentWritingOffset) SwapBuffer.

Definition SwapMemoryAndFile (TheVirtualAddress : Z) (CurrentProcess : nat) : M (kst F) unit :=
  EntryMemory <- GetMemoryListTail CurrentProcess ;;
  let* (EntryFile, FileOffset) := GetAddressInSwapTable CurrentProcess (PTE_ADDR TheVirtualAddress) ;;
  p <- get_proc CurrentProcess ;;
  x <- mte_get EntryMemory ;;
  PageTableMemory <- walkpgdir (p_pgdir p) (e_VirtualAddress x) false ;;
  em <- kload32 PageTableMemory ;;
  if em =? 0 then panic "[ERROR] A record is in memstab but not in pgdir."
  else
    PageTableFile <- walkpgdir (p_pgdir p) TheVirtualAddress false ;;
    ef <- kload32 PageTableFile ;;
    if ef =? 0 then panic "[ERROR] A record should be in pgdir!"
    else
      kstore32 PageTableFile (Z.lor (Z.lor (Z.lor (PTE_ADDR em) PTE_U) PTE_W) PTE_P) ;;;
      for_each [0; 1; 2; 3]
        (swap_round CurrentProcess PageTableMemory TheVirtualAddress FileOffset) ;;;
      ste_set EntryFile (e_VirtualAddress x) ;;;
      SetMemoryListHead CurrentProcess EntryMemory (PTE_ADDR TheVirtualAddress) ;;;
      kstore32 PageTableMemory (Z.lor (Z.lor PTE_U PTE_W) PTE_PG) ;;;
      lcr3 (V2P (p_pgdir p)).

Definition RecordFile : M (kst F) Z :=
  CurrentProcess <- myproc ;;
  RecordInSwapTable CurrentProcess.

Definition SwapPage (TheVirtualAddress : Z) : M (kst F) unit :=
  CurrentProcess <- myproc ;;
  p <- get_proc CurrentProcess ;;
  if name_is (p_name p) name_init || name_is (p_name p) name_sh then
    upd_proc CurrentProcess (fun p => p <| p_MemoryEntryNum ::= fun n => n + 1 |>)
  else SwapMemoryAndFile TheVirtualAddress CurrentProcess.

(** ** Growing *)

(** Record a new page: evict the oldest one when the table is full. *)
Definition record_new_page (CurrentProcess : nat) (a : Z) : M (kst F) unit :=
  p <- get_proc CurrentProcess ;;
  if MEMORY_TABLE_TOTAL_ENTRYS <=? p_MemoryEntryNum p then
    ListTail <- RecordFile ;;
    SetMemoryListHead CurrentProcess ListTail a
  else RecordPage a.

Fixpoint allocuvm_loop (fuel : nat) (CurrentProcess : nat) (pgdir a oldsz newsz : Z) : M (kst F) Z :=
  if a <? newsz then
    match fuel with
    | O => no_fuel
    | S fuel =>
        record_new_page CurrentProcess a ;;;
        mem <- kalloc ;;
        if mem =? 0 then deallocuvm pgdir newsz oldsz ;;; ret 0
        else
          modify (fun s => s <| k_phys ::= fun m => memset m (V2P mem) 0 PGSIZE |>) ;;;
          r <- mappages pgdir a PGSIZE (V2P mem) (Z.lor PTE_W PTE_U) ;;
          if r <? 0 then deallocuvm pgdir newsz oldsz ;;; kfree mem ;;; ret 0
          else allocuvm_loop fuel CurrentProcess pgdir (u32 (a + PGSIZE)) oldsz newsz
    end
  else ret newsz.

Definition allocuvm (pgdir oldsz newsz : Z) : M (kst F) Z :=
  CurrentProcess <- myproc ;;
  p <- get_proc CurrentProcess ;;
  let stack_reserved := u32 (USERTOP - p_stackSize p - PGSIZE) in
  if stack_reserved <? newsz then ret 0
  else if KERNBASE <? newsz then ret 0
  else if newsz <? oldsz then ret oldsz
  else
    let a := PGROUNDUP oldsz in
    allocuvm_loop (Z.to_nat ((newsz - a) / PGSIZE + 1)) CurrentProcess pgdir a oldsz newsz.

Definition stackGrow (pgdir : Z) : M (kst F) Z :=
  curproc <- myproc ;;
  p <- get_proc curproc ;;
  let stackBorder := u32 (USERTOP - p_stackSize p) in
  let heapBorder := p_sz p in
  if stackBorder <? u32 (heapBorder + PGSIZE) then ret 0
  else
    newPageVirtualAddr <- kalloc ;;
    if newPageVirtualAddr =? 0 then ret 0
    else
      let newPagePhysicalAddr := V2P newPageVirtualAddr in
      let newStackBorder := u32 (stackBorder - PGSIZE) in
      r <- mappages pgdir newStackBorder PGSIZE newPagePhysicalAddr (Z.lor PTE_W PTE_U) ;;
      if r <? 0 then
        deallocuvm pgdir newStackBorder stackBorder ;;;
        kfree newPageVirtualAddr ;;;
        ret 0
      else
        record_new_page curproc newStackBorder ;;;
        modify (fun s => s <| k_phys ::= fun m => memset m (V2P newPageVirtualAddr) 0 PGSIZE |>) ;;;
        upd_proc curproc (fun p => p <| p_stackSize ::= fun n => u32 (n + PGSIZE) |>) ;;;
        ret 1.

(** ** Page faults *)

(** traps.h: the fault was caused by a page that is present. *)
Definition PGFLT_P : Z := 1.
Definition PGFLT_WR : Z := 2.
Definition PGFLT_US : Z := 4.

Definition kill_proc (i : nat) : M (kst F) unit :=
  upd_proc i (fun p => p <| p_killed := true |>).

(** Is the page of [va] marked as swapped out? *)
Definition fault_swapped (pgdir va : Z) : M (kst F) bool :=
  pde <- kload32 (pgdir + 4 * PDX va) ;;
  if has pde PTE_P then
    pte <- kload32 (PTE_ADDR (P2V pde) + 4 * PTX va) ;;
    ret (has pte PTE_PG)
  else ret false.

(** A fault on a page that is not present. *)
Definition fault_not_present (curproc : nat) (va : Z) : M (kst F) unit :=
  p <- get_proc curproc ;;
  swapped <- fault_swapped (p_pgdir p) va ;;
  if swapped then SwapPage (PTE_ADDR va)
  else if va <? PGSIZE then kill_proc curproc
  else
    let heapBorder := u32 (p_sz p + PGSIZE) in
    let stackBorder := u32 (USERTOP - p_stackSize p) in
    if (heapBorder <=? va) && (va <? stackBorder) then
      stackGrowResult <- stackGrow (p_pgdir p) ;;
      when (stackGrowResult =? 0) (kill_proc curproc)
    else
      mem <- kalloc ;;
      if mem =? 0 then kill_proc curproc
      else
        let va := PGROUNDDOWN va in
        modify (fun s => s <| k_phys ::= fun m => memset m (V2P mem) 0 PGSIZE |>) ;;;
        r <- mappages (p_pgdir p) va PGSIZE (V2P mem) (Z.lor PTE_W PTE_U) ;;
        when (r <? 0) (kill_proc curproc).

(** A write to a read-only page: copy on write. *)
Definition fault_cow (curproc : nat) (pgdir pte e : Z) : M (kst F) unit :=
  if has e PTE_W then panic "[PageFault] This is not a copy on write pagefault. You must missed handling it above."
  else
    let pageAddr := PTE_ADDR e in
    physicalPageRefCount <- getPhysicalPageRefCount pageAddr ;;
    if physicalPageRefCount <? 1 then panic "[PageFault:copy on write] The page isn't used by any process. You make some wrong somewhere else."
    else if physicalPageRefCount =? 1 then
      kstore32 pte (Z.lor e PTE_W) ;;;
      lcr3 (V2P pgdir)
    else
      newPage <- kalloc ;;
      if newPage =? 0 then kill_proc curproc
      else
        modify (fun s => s <| k_phys ::= fun m => memmove m (V2P newPage) pageAddr PGSIZE |>) ;;;
        kstore32 pte (Z.lor (Z.lor (Z.lor (V2P newPage) PTE_P) PTE_U) PTE_W) ;;;
        decreasePhysicalPageRefCountByOne pageAddr ;;;
        lcr3 (V2P pgdir).

(** [va] is the faulting address, rcr2(). *)
Definition PageFault (va err_code : Z) : M (kst F) unit :=
  cur <- gets k_curproc ;;
  if negb (has err_code PGFLT_P) then
    curproc <- deref_proc cur ;;
    fault_not_present curproc va
  else
    match cur with
    | None => panic "Pagefault. No process."
    | Some curproc =>
        p <- get_proc curproc ;;
        if KERNBASE <=? va then kill_proc curproc
        else
          pte <- walkpgdir (p_pgdir p) va false ;;
          if pte =? 0 then kill_proc curproc
          else
            e <- kload32 pte ;;
            if negb (has e PTE_P) || negb (has e PTE_U) then kill_proc curproc
            else fault_cow curproc (p_pgdir p) pte e
    end.

End Vm.
