(* ===== verification/PageTable.v ===== *)
(** Page tables as functions: what walkpgdir and mappages (src/src/vm.c) do to
    the mapping a page table in physical memory represents.

    [pte m pgdir va] is the entry the processor finds for [va], 0 when the
    directory has no table for it.  [pt_wf m pgdir l]: the directory and its
    tables are distinct pages, none of them on the free list [l].  [pt_grow]
    relates the states before and after code that only adds to one page table:
    it takes pages from the free list and leaves every other page alone. *)

From stdpp Require Import base gmap list strings.
From Stdlib Require Import ZArith Lia.
From S2P Require Import Prelude Mem Str Mmu State Kalloc MemTable MemList Vm.

(** ** Arithmetic of entries and kernel pointers *)

Lemma V2P_P2V_word x : 0 <= x < 2 ^ 32 -> V2P (P2V x) = x.
Proof.
  intros Hx. unfold V2P, P2V, u32. rewrite Zminus_mod_idemp_l.
  replace (x + KERNBASE - KERNBASE) with x by lia. by apply Z.mod_small.
Qed.

Lemma lor_bound a b k : 0 <= k -> 0 <= a < 2 ^ k -> 0 <= b < 2 ^ k -> 0 <= Z.lor a b < 2 ^ k.
Proof.
  intros Hk Ha Hb.
  assert (Z.lor a b = Z.lor a b mod 2 ^ k) as ->; [|apply Z.mod_pos_bound; lia].
  rewrite <-Z.land_ones, Z.land_lor_distr_l, !Z.land_ones by done.
  by rewrite !Z.mod_small by done.
Qed.

(** The entry for a page at [pa] with permissions [perm]. *)
Definition make_pte (pa perm : Z) : Z := Z.lor (Z.lor pa perm) PTE_P.

Lemma make_pte_eq pa perm :
  pa mod 4096 = 0 -> 0 <= perm < 4096 -> make_pte pa perm = pa + Z.lor perm 1.
Proof.
  intros Ha Hp. unfold make_pte, PTE_P. rewrite <-Z.lor_assoc. apply pte_join; [done|].
  apply (lor_bound perm 1 12); lia.
Qed.

Lemma make_pte_range pa perm :
  pa mod 4096 = 0 -> 0 <= pa < 2 ^ 32 -> 0 <= perm < 4096 -> 0 <= make_pte pa perm < 2 ^ 32.
Proof.
  intros Ha Hr Hp. rewrite make_pte_eq by done.
  pose proof (lor_bound perm 1 12 ltac:(lia) ltac:(lia) ltac:(lia)). dlia.
Qed.

Lemma PTE_ADDR_make pa perm :
  pa mod 4096 = 0 -> 0 <= perm < 4096 -> PTE_ADDR (make_pte pa perm) = pa.
Proof.
  intros. rewrite make_pte_eq by done. apply PTE_ADDR_join; [done|].
  apply (lor_bound perm 1 12); lia.
Qed.

Lemma has_make_P pa perm :
  pa mod 4096 = 0 -> 0 <= perm < 4096 -> has (make_pte pa perm) PTE_P = true.
Proof.
  intros. rewrite make_pte_eq by done.
  rewrite has_join; [|done|apply (lor_bound perm 1 12); lia|klia].
  unfold has, PTE_P. rewrite Z.land_lor_distr_l. change (Z.land 1 1) with 1.
  destruct (Z.eqb_spec (Z.lor (Z.land perm 1) 1) 0) as [E|]; [|done].
  apply Z.lor_eq_0_iff in E. lia.
Qed.

Lemma has_make pa perm f :
  pa mod 4096 = 0 -> 0 <= perm < 4096 -> 0 <= f < 4096 -> Z.land 1 f = 0 ->
  has (make_pte pa perm) f = has perm f.
Proof.
  intros Ha Hp Hf H1. rewrite make_pte_eq by done.
  rewrite has_join; [|done|apply (lor_bound perm 1 12); lia|done].
  unfold has. by rewrite Z.land_lor_distr_l, H1, Z.lor_0_r.
Qed.

Section PageTable.
Context {F : Type} {KI : KernelImage} {FS : FileSys F}.
Implicit Types s : kst F.

(** ** Kernel pointers into pages *)

Lemma kpage_kernel_ptr p o : kpage p -> 0 <= o < 4096 -> kernel_ptr (p + o) = true.
Proof.
  intros Hp Ho. pose proof (kpage_V2P_range p Hp) as (_ & H & _).
  rewrite (V2P_kpage p Hp) in H. destruct Hp as (_ & _ & Hr).
  unfold kernel_ptr. apply andb_true_intro. rewrite Z.leb_le, Z.ltb_lt. klia.
Qed.

Lemma V2P_offset p o : kpage p -> 0 <= o < 4096 -> V2P (p + o) = V2P p + o.
Proof.
  intros Hp Ho. pose proof (kpage_V2P_range p Hp) as (_ & H & _).
  rewrite (V2P_kpage p Hp) in *. destruct Hp as (_ & _ & Hr). rewrite V2P_kernel by klia. lia.
Qed.

Lemma kload_page p o s :
  kpage p -> 0 <= o < 4096 -> kload32 (p + o) s = Ret (load32 (k_phys s) (V2P p + o)) s.
Proof. intros Hp Ho. unfold kload32. by rewrite kpage_kernel_ptr, V2P_offset. Qed.

Lemma kstore_page p o v s :
  kpage p -> 0 <= o < 4096 ->
  kstore32 (p + o) v s = Ret tt (s <| k_phys := store32 (k_phys s) (V2P p + o) v |>).
Proof. intros Hp Ho. unfold kstore32. by rewrite kpage_kernel_ptr, V2P_offset. Qed.

(** ** The mapping of a page table *)

(** The table page for a directory index, by its kernel address. *)
Definition pd_tab (m : mem) (pgdir d : Z) : option Z :=
  let e := load32 m (V2P pgdir + 4 * d) in
  if has e PTE_P then Some (P2V (PTE_ADDR e)) else None.

Definition pte (m : mem) (pgdir va : Z) : Z :=
  match pd_tab m pgdir (PDX va) with
  | Some t => load32 m (V2P t + 4 * PTX va)
  | None => 0
  end.

(** An entry of the directory leaves the permissions to the table. *)
Definition open_pde (e : Z) : Prop := has e PTE_W = true /\ has e PTE_U = true.

Record pt_wf (m : mem) (pgdir : Z) (l : list Z) : Prop := {
  pw_dir : kpage pgdir;
  pw_dir_free : pgdir ∉ l;
  pw_tab : forall d t, 0 <= d < 1024 -> pd_tab m pgdir d = Some t -> kpage t /\ (t ∉ l) /\ t <> pgdir;
  pw_inj : forall d d' t, 0 <= d < 1024 -> 0 <= d' < 1024 ->
    pd_tab m pgdir d = Some t -> pd_tab m pgdir d' = Some t -> d = d';
  pw_open : forall d, 0 <= d < 1024 -> is_Some (pd_tab m pgdir d) -> open_pde (load32 m (V2P pgdir + 4 * d))
}.

(** The pages a page table occupies. *)
Definition pt_page (m : mem) (pgdir q : Z) : Prop :=
  q = pgdir \/ exists d, 0 <= d < 1024 /\ pd_tab m pgdir d = Some q.

(** Two memories hold the same bytes in a page. *)
Definition same_page (m m' : mem) (q : Z) : Prop :=
  forall a, V2P q <= a < V2P q + 4096 -> load8 m' a = load8 m a.

Lemma same_page_refl m q : same_page m m q.
Proof. by intros a _. Qed.

Lemma same_page_trans m m1 m2 q : same_page m m1 q -> same_page m1 m2 q -> same_page m m2 q.
Proof. intros H1 H2 a Ha. by rewrite H2, H1. Qed.

Lemma same_page_load32 m m' q o :
  same_page m m' q -> 0 <= o <= 4092 -> load32 m' (V2P q + o) = load32 m (V2P q + o).
Proof. intros H Ho. apply load32_ext. intros b Hb. apply H. lia. Qed.

(** A store into one page leaves the others alone. *)
Lemma same_page_store32 m p o v q :
  kpage p -> kpage q -> p <> q -> 0 <= o <= 4092 -> same_page m (store32 m (V2P p + o) v) q.
Proof.
  intros Hp Hq Hne Ho a Ha. apply load8_store32_ne.
  pose proof (kpage_disjoint p q Hp Hq Hne). lia.
Qed.

Lemma same_page_memset m p c q :
  kpage p -> kpage q -> p <> q -> same_page m (memset m (V2P p) c PGSIZE) q.
Proof.
  intros Hp Hq Hne a Ha. rewrite load8_memset by klia.
  pose proof (kpage_disjoint p q Hp Hq Hne). by case_decide; [klia|].
Qed.

(** The processor's translation only looks at the entry. *)
Lemma access_pte m pgdir l va u w :
  pt_wf m pgdir l ->
  access u w m (V2P pgdir) va =
  if allows u w (pte m pgdir va) then Some (PTE_ADDR (pte m pgdir va) + va mod PGSIZE) else None.
Proof.
  intros Hw. pose proof (kpage_V2P_range pgdir (pw_dir _ _ _ Hw)) as (_ & _ & Ha).
  pose proof (pw_open _ _ _ Hw (PDX va) (PDX_range va)) as Ho. revert Ho.
  unfold access, pte, pd_tab. cbv zeta. rewrite (PTE_ADDR_eq (V2P pgdir)), Ha, Z.sub_0_r.
  pose proof (load32_range m (V2P pgdir + 4 * PDX va)) as Hr. unfold allows at 1.
  destruct (has _ PTE_P); [|done]. intros Ho. destruct Ho as [-> ->]; [by eexists|]. rewrite !orb_true_r. cbn [andb].
  pose proof (PTE_ADDR_le _ (proj1 Hr)). rewrite V2P_P2V_word by lia. done.
Qed.

Lemma translate_pte m pgdir l va w :
  pt_wf m pgdir l ->
  translate m (V2P pgdir) va w =
  let e := pte m pgdir va in
  if has e PTE_P && (negb w || has e PTE_W) then Some (PTE_ADDR e + va mod PGSIZE) else None.
Proof.
  intros Hp. unfold translate. rewrite (access_pte _ _ l) by done. unfold allows. cbn [negb orb]. by rewrite andb_true_r.
Qed.

(** ** What other stores do to the mapping *)

Lemma pd_tab_same m m' pgdir d :
  same_page m m' pgdir -> 0 <= d < 1024 -> pd_tab m' pgdir d = pd_tab m pgdir d.
Proof. intros H Hd. unfold pd_tab. by rewrite (same_page_load32 m m') by (done || lia). Qed.

Lemma pte_same m m' pgdir va :
  (forall q, pt_page m pgdir q -> same_page m m' q) -> pte m' pgdir va = pte m pgdir va.
Proof.
  intros H. pose proof (PDX_range va). pose proof (PTX_range va). unfold pte.
  rewrite (pd_tab_same m m') by (try lia; apply H; by left).
  destruct (pd_tab m pgdir (PDX va)) as [t|] eqn:Et; [|done].
  apply (same_page_load32 m m'); [|lia]. apply H. right. by exists (PDX va).
Qed.

Lemma pt_page_same m m' pgdir q :
  same_page m m' pgdir -> pt_page m' pgdir q <-> pt_page m pgdir q.
Proof.
  intros H. unfold pt_page. split; (intros [->|(d & Hd & E)]; [by left|]); right; exists d;
    (split; [done|]); [rewrite <-(pd_tab_same m m')|rewrite (pd_tab_same m m')]; done.
Qed.

Lemma pt_wf_same m m' pgdir l :
  same_page m m' pgdir -> pt_wf m pgdir l -> pt_wf m' pgdir l.
Proof.
  intros H [H1 H2 H3 H4 H5]. constructor; [done|done| | |].
  - intros d t Hd. rewrite (pd_tab_same m m') by done. by apply H3.
  - intros d d' t Hd Hd'. rewrite !(pd_tab_same m m') by done. by apply H4.
  - intros d Hd. rewrite (pd_tab_same m m'), (same_page_load32 m m') by (done || lia). by apply H5.
Qed.

Lemma pt_wf_sublist m pgdir l l' : l' ⊆ l -> pt_wf m pgdir l -> pt_wf m pgdir l'.
Proof.
  intros Hs [H1 H2 H3 H4 H5]. constructor; [done|by intros ?%Hs| |done|done].
  intros d t Hd Ht. destruct (H3 d t Hd Ht) as (?&?&?).
  split; [done|]. split; [by intros ?%Hs|done].
Qed.

Lemma pt_page_kpage m pgdir l q : pt_wf m pgdir l -> pt_page m pgdir q -> kpage q /\ q ∉ l.
Proof.
  intros [H1 H2 H3 H4 _] [->|(d & Hd & E)]; [done|]. destruct (H3 d q Hd E) as (?&?&?). done.
Qed.

(** The entry only depends on the page of the address. *)
Lemma pte_page m pgdir va va' : va / 4096 = va' / 4096 -> pte m pgdir va = pte m pgdir va'.
Proof.
  intros E. unfold pte. rewrite !PDX_eq, !PTX_eq. change 4194304 with (4096 * 1024).
  rewrite <-!Z.div_div by lia. by rewrite E.
Qed.

(** Setting one entry. *)
Lemma pte_store m pgdir l t va v :
  pt_wf m pgdir l -> 0 <= va < 2 ^ 32 -> 0 <= v < 2 ^ 32 -> pd_tab m pgdir (PDX va) = Some t ->
  let m' := store32 m (V2P t + 4 * PTX va) v in
  (forall d, 0 <= d < 1024 -> pd_tab m' pgdir d = pd_tab m pgdir d) /\
  pt_wf m' pgdir l /\
  (forall va', 0 <= va' < 2 ^ 32 ->
     pte m' pgdir va' = if decide (va' / 4096 = va / 4096) then v else pte m pgdir va').
Proof.
  intros Hwf Hva Hv Ht m'. pose proof (PDX_range va) as Hd. pose proof (PTX_range va) as Hx.
  destruct (pw_tab _ _ _ Hwf _ _ Hd Ht) as (Hk & Hn & Hne).
  assert (same_page m m' pgdir) as Hs.
  { apply same_page_store32; [done|apply Hwf|done|lia]. }
  split; [intros; by apply pd_tab_same|]. split; [by eapply pt_wf_same|].
  intros va' Hva'. pose proof (PDX_range va') as Hd'. pose proof (PTX_range va') as Hx'.
  unfold pte. rewrite (pd_tab_same m m') by done.
  case_decide as E.
  - assert (PDX va' = PDX va /\ PTX va' = PTX va) as [-> ->].
    { rewrite !PDX_eq, !PTX_eq. change 4194304 with (4096 * 1024).
      rewrite <-!Z.div_div by lia. by rewrite E. }
    rewrite Ht. by apply load32_store32_eq.
  - destruct (pd_tab m pgdir (PDX va')) as [t'|] eqn:Et'; [|done].
    destruct (decide (t = t')) as [->|Hne'].
    + assert (PDX va = PDX va') as Ed by (by eapply (pw_inj _ _ _ Hwf)).
      apply load32_store32_ne. assert (PTX va <> PTX va'); [|lia].
      intros Ex. apply E. symmetry. by apply PDX_PTX_page.
    + destruct (pw_tab _ _ _ Hwf _ _ Hd' Et') as (Hk' & _ & _).
      apply (same_page_load32 m m'); [|lia]. apply same_page_store32; done || lia.
Qed.

(** ** walkpgdir *)

Lemma walk_hit s pgdir l va alloc t :
  pt_wf (k_phys s) pgdir l -> pd_tab (k_phys s) pgdir (PDX va) = Some t ->
  walkpgdir pgdir va alloc s = Ret (t + 4 * PTX va) s.
Proof.
  intros Hwf Ht. pose proof (PDX_range va) as Hd. apply wp_run. unfold walkpgdir. wp_steps.
  eapply wp_eq; [apply kload_page; [apply Hwf|lia]|].
  unfold pd_tab in Ht. destruct (has _ PTE_P); [|done]. injection Ht as <-. by wp_steps.
Qed.

Lemma walk_miss s pgdir l va :
  pt_wf (k_phys s) pgdir l -> pd_tab (k_phys s) pgdir (PDX va) = None ->
  walkpgdir pgdir va false s = Ret 0 s.
Proof.
  intros Hwf Ht. pose proof (PDX_range va) as Hd. apply wp_run. unfold walkpgdir. wp_steps.
  eapply wp_eq; [apply kload_page; [apply Hwf|lia]|].
  unfold pd_tab in Ht. destruct (has _ PTE_P); [done|]. cbn [negb]. by wp_steps.
Qed.

(** ** Growing a page table *)

(** From [s] to [s'], [n] pages were taken from the free list [l] for the page
    table [pgdir]; pages of no concern to it kept their bytes and counts. *)
Record pt_grow (n : nat) s (l : list Z) (pgdir : Z) s' (l' : list Z) : Prop := {
  pg_free : l' = drop n l;
  pg_inv : kmem_inv s' l';
  pg_wf : pt_wf (k_phys s') pgdir l';
  pg_pages : forall q, pt_page (k_phys s') pgdir q -> pt_page (k_phys s) pgdir q \/ q ∈ l;
  pg_other : forall q, kpage q -> q ∉ l -> ~ pt_page (k_phys s) pgdir q ->
    same_page (k_phys s) (k_phys s') q;
  pg_count : forall q, kpage q -> q ∉ l -> refcount s' q = refcount s q;
  pg_rest : s' = s <| k_phys := k_phys s' |> <| k_mem := k_mem s' |>
}.

Lemma pt_grow_refl s l pgdir :
  kmem_inv s l -> pt_wf (k_phys s) pgdir l -> pt_grow 0 s l pgdir s l.
Proof.
  intros. constructor; [done|done|done|by left|by intros ????|done|by destruct s].
Qed.

Lemma pt_grow_trans n1 n2 s l pgdir s1 l1 s2 l2 :
  pt_grow n1 s l pgdir s1 l1 -> pt_grow n2 s1 l1 pgdir s2 l2 ->
  pt_grow (n1 + n2) s l pgdir s2 l2.
Proof.
  intros H1 H2.
  assert (forall q, q ∉ l -> q ∉ l1) as Hsub.
  { intros q Hq Hin. apply Hq. rewrite (pg_free _ _ _ _ _ _ H1) in Hin.
    rewrite <-(take_drop n1 l). apply elem_of_app. by right. }
  constructor.
  - rewrite (pg_free _ _ _ _ _ _ H2), (pg_free _ _ _ _ _ _ H1). apply drop_drop.
  - apply H2.
  - apply H2.
  - intros q Hq. destruct (pg_pages _ _ _ _ _ _ H2 q Hq) as [Hq1|Hq1].
    + by apply (pg_pages _ _ _ _ _ _ H1).
    + right. destruct (decide (q ∈ l)); [done|]. by apply Hsub in Hq1.
  - intros q Hk Hn Hnp. eapply same_page_trans; [by apply H1|].
    apply H2; [done|by apply Hsub|]. intros Hq.
    by destruct (pg_pages _ _ _ _ _ _ H1 q Hq).
  - intros q Hk Hn. rewrite (pg_count _ _ _ _ _ _ H2) by auto. by apply H1.
  - rewrite (pg_rest _ _ _ _ _ _ H2) at 1. rewrite (pg_rest _ _ _ _ _ _ H1) at 1. done.
Qed.

(** The state after walkpgdir has put the page [p] into the directory. *)
Definition walk_post s (pgdir va p : Z) : kst F :=
  (kalloc_post s p) <| k_phys := store32 (memset (k_phys s) (V2P p) 0 PGSIZE)
    (V2P pgdir + 4 * PDX va) (make_pte (V2P p) (Z.lor PTE_W PTE_U)) |>.

Lemma walk_alloc_run s pgdir p l va :
  kmem_inv s (p :: l) -> pt_wf (k_phys s) pgdir (p :: l) ->
  pd_tab (k_phys s) pgdir (PDX va) = None ->
  walkpgdir pgdir va true s = Ret (p + 4 * PTX va) (walk_post s pgdir va p).
Proof.
  intros Hinv Hwf Ht. pose proof (PDX_range va) as Hd. apply wp_run. unfold walkpgdir. wp_steps.
  eapply wp_eq; [apply kload_page; [apply Hwf|lia]|].
  unfold pd_tab in Ht. destruct (has _ PTE_P); [done|]. cbn [negb]. wp_steps.
  eapply wp_eq; [by eapply kalloc_head|].
  pose proof (ki_pages _ _ Hinv) as [Hk _]%Forall_cons.
  destruct (Z.eqb_spec p 0) as [->|_]; [by apply kpage_nonzero in Hk|]. wp_steps.
  eapply wp_eq; [apply kstore_page; [apply Hwf|lia]|]. wp_steps. split; [done|].
  unfold walk_post, make_pte.
  replace (Z.lor (Z.lor (Z.lor (V2P p) PTE_P) PTE_W) PTE_U)
    with (Z.lor (Z.lor (V2P p) (Z.lor PTE_W PTE_U)) PTE_P); [done|].
  rewrite <-!Z.lor_assoc. done.
Qed.

Section WalkAlloc.
Context (s : kst F) (pgdir p va : Z) (l : list Z).
Context (Hinv : kmem_inv s (p :: l)) (Hwf : pt_wf (k_phys s) pgdir (p :: l)).
Context (Hmiss : pd_tab (k_phys s) pgdir (PDX va) = None).
Let m' := k_phys (walk_post s pgdir va p).

#[local] Lemma new_kpage : kpage p.
Proof. by pose proof (ki_pages _ _ Hinv) as [Hk _]%Forall_cons. Qed.

#[local] Lemma new_not_dir : pgdir <> p.
Proof. intros ->. apply (pw_dir_free _ _ _ Hwf). by left. Qed.

#[local] Lemma walk_other q : kpage q -> q <> p -> q <> pgdir -> same_page (k_phys s) m' q.
Proof.
  intros Hq H1 H2. pose proof (PDX_range va).
  eapply same_page_trans; [apply (same_page_memset _ p 0); [apply new_kpage|done..]|].
  apply same_page_store32; [apply Hwf|done|done|lia].
Qed.

#[local] Lemma walk_tab d : 0 <= d < 1024 ->
  pd_tab m' pgdir d = if decide (d = PDX va) then Some p else pd_tab (k_phys s) pgdir d.
Proof.
  intros Hd. pose proof (PDX_range va). pose proof (kpage_V2P_range p new_kpage) as (H1 & H2 & H3).
  unfold pd_tab, m', walk_post. kred. case_decide as E.
  - subst d. rewrite load32_store32_eq by (apply make_pte_range; vm_compute PTE_W; klia || done).
    rewrite has_make_P, PTE_ADDR_make by (done || (vm_compute; split; done)).
    f_equal. rewrite P2V_small by lia. rewrite (V2P_kpage p new_kpage). lia.
  - rewrite load32_store32_ne by lia.
    erewrite (same_page_load32 (k_phys s) _ pgdir); [done| |lia].
    apply same_page_memset; [apply new_kpage|apply Hwf|apply not_eq_sym, new_not_dir].
Qed.

#[local] Lemma walk_new_zero o : 0 <= o <= 4092 -> load32 m' (V2P p + o) = 0.
Proof.
  intros Ho. pose proof (PDX_range va). unfold m', walk_post. kred.
  erewrite (same_page_load32 (memset (k_phys s) (V2P p) 0 PGSIZE) _ p); [|apply same_page_store32|done].
  - apply load32_zero. intros b Hb. rewrite load8_memset by klia. by case_decide; [|klia].
  - apply Hwf.
  - apply new_kpage.
  - apply new_not_dir.
  - lia.
Qed.

Lemma walk_pte va' : pte m' pgdir va' = pte (k_phys s) pgdir va'.
Proof.
  pose proof (PDX_range va') as Hd. pose proof (PTX_range va'). unfold pte. rewrite walk_tab by done.
  case_decide as E.
  - rewrite E, Hmiss. apply walk_new_zero. lia.
  - destruct (pd_tab (k_phys s) pgdir (PDX va')) as [t|] eqn:Et; [|done].
    destruct (pw_tab _ _ _ Hwf _ _ Hd Et) as (Hk & Hn & Hne).
    apply (same_page_load32 (k_phys s) m'); [|lia].
    apply walk_other; [done|intros ->; apply Hn; by left|done].
Qed.

Lemma walk_wf : pt_wf m' pgdir l.
Proof.
  pose proof (NoDup_cons_1_1 _ _ (ki_nodup _ _ Hinv)) as Hpl. constructor.
  - apply Hwf.
  - intros Hin. apply (pw_dir_free _ _ _ Hwf). by right.
  - intros d t Hd. rewrite walk_tab by done. case_decide.
    + intros [= <-]. split; [apply new_kpage|]. split; [done|apply not_eq_sym, new_not_dir].
    + intros Ht. destruct (pw_tab _ _ _ Hwf _ _ Hd Ht) as (? & Hn & ?).
      split; [done|]. split; [|done]. intros Hin. apply Hn. by right.
  - intros d d' t Hd Hd'. rewrite !walk_tab by done.
    do 2 case_decide; subst; try done.
    + intros [= <-] Ht. destruct (pw_tab _ _ _ Hwf _ _ Hd' Ht) as (_ & Hn & _).
      exfalso. apply Hn. by left.
    + intros Ht [= <-]. destruct (pw_tab _ _ _ Hwf _ _ Hd Ht) as (_ & Hn & _).
      exfalso. apply Hn. by left.
    + by apply (pw_inj _ _ _ Hwf).
  - intros d Hd. rewrite walk_tab by done. unfold m', walk_post. kred. pose proof (kpage_V2P_range p new_kpage) as (? & ? & ?).
    pose proof (PDX_range va). case_decide as E; [subst d; intros _|].
    + rewrite load32_store32_eq by (apply make_pte_range; vm_compute PTE_W; klia || done). unfold open_pde. by rewrite !has_make by (done || (vm_compute; split; done)).
    + rewrite load32_store32_ne by lia. erewrite (same_page_load32 (k_phys s) _ pgdir); [by apply (pw_open _ _ _ Hwf)| |lia].
      apply same_page_memset; [apply new_kpage|apply Hwf|apply not_eq_sym, new_not_dir].
Qed.

Lemma walk_grow : pt_grow 1 s (p :: l) pgdir (walk_post s pgdir va p) l.
Proof.
  pose proof (NoDup_cons_1_1 _ _ (ki_nodup _ _ Hinv)) as Hpl. constructor.
  - done.
  - change (walk_post s pgdir va p) with ((kalloc_post s p) <| k_phys := m' |>).
    apply kmem_inv_phys; [by apply kalloc_post_inv|].
    intros q a Hq Ha. apply (walk_other q); [|intros ->; done| |done].
    + pose proof (ki_pages _ _ Hinv) as [_ Hp]%Forall_cons. rewrite Forall_forall in Hp. by apply Hp.
    + intros ->. apply (pw_dir_free _ _ _ Hwf). by right.
  - apply walk_wf.
  - intros q [->|(d & Hd & Ht)]; [left; by left|].
    change (pd_tab m' pgdir d = Some q) in Ht. rewrite walk_tab in Ht by done. case_decide.
    + injection Ht as <-. right. by left.
    + left. right. by exists d.
  - intros q Hq Hn Hnp. apply walk_other; [done| |].
    + intros ->. apply Hn. by left.
    + intros ->. apply Hnp. by left.
  - intros q Hq Hn. change (refcount (kalloc_post s p) q = refcount s q).
    rewrite kalloc_post_refcount by (done || apply new_kpage).
    case_decide; [|done]. subst. exfalso. apply Hn. by left.
  - by destruct s.
Qed.

End WalkAlloc.

(** walkpgdir with allocation: the entry of [va] and at most one new page, or 0
    when there is no table and no free page. *)
Lemma walk_spec s pgdir l va :
  kmem_inv s l -> pt_wf (k_phys s) pgdir l ->
  wp (walkpgdir pgdir va true) s (fun r s' => exists n l',
    pt_grow n s l pgdir s' l' /\
    (forall va', pte (k_phys s') pgdir va' = pte (k_phys s) pgdir va') /\
    ((exists t, r = t + 4 * PTX va /\ pd_tab (k_phys s') pgdir (PDX va) = Some t /\
        n = match pd_tab (k_phys s) pgdir (PDX va) with Some _ => 0%nat | None => 1%nat end)
     \/ (r = 0 /\ l' = [] /\ s' = s /\ n = 0%nat /\ pd_tab (k_phys s) pgdir (PDX va) = None))).
Proof.
  intros Hinv Hwf. destruct (pd_tab (k_phys s) pgdir (PDX va)) as [t|] eqn:Ht.
  - eapply wp_eq; [by eapply walk_hit|]. exists 0%nat, l.
    split; [by apply pt_grow_refl|]. split; [done|]. left. by exists t.
  - destruct l as [|p l].
    + eapply wp_eq; [|exists 0%nat, []; split; [by apply pt_grow_refl|]; split; [done|]; by right].
      pose proof (PDX_range va) as Hd. apply wp_run. unfold walkpgdir. wp_steps.
      eapply wp_eq; [apply kload_page; [apply Hwf|lia]|].
      unfold pd_tab in Ht. destruct (has _ PTE_P); [done|]. cbn [negb]. wp_steps.
      eapply wp_eq; [by apply kalloc_empty|]. by wp_steps.
    + eapply wp_eq; [by eapply walk_alloc_run|]. exists 1%nat, l.
      split; [by apply walk_grow|]. split; [intros; by eapply walk_pte|].
      left. exists p. split; [done|]. split; [|done].
      pose proof (PDX_range va). erewrite walk_tab by eauto. by case_decide.
Qed.

(** Setting an entry that walkpgdir returned, as a step of growing. *)
Lemma store_entry s pgdir l t va v :
  kmem_inv s l -> pt_wf (k_phys s) pgdir l -> 0 <= va < 2 ^ 32 -> 0 <= v < 2 ^ 32 ->
  pd_tab (k_phys s) pgdir (PDX va) = Some t ->
  wp (kstore32 (t + 4 * PTX va) v) s (fun _ s' =>
    pt_grow 0 s l pgdir s' l /\
    (forall d, 0 <= d < 1024 -> pd_tab (k_phys s') pgdir d = pd_tab (k_phys s) pgdir d) /\
    (forall va', 0 <= va' < 2 ^ 32 -> pte (k_phys s') pgdir va' =
       if decide (va' / 4096 = va / 4096) then v else pte (k_phys s) pgdir va')).
Proof.
  intros Hinv Hwf Hva Hv Ht. pose proof (PDX_range va) as Hd. pose proof (PTX_range va) as Hx.
  destruct (pw_tab _ _ _ Hwf _ _ Hd Ht) as (Hk & Hn & Hne).
  eapply wp_eq; [apply kstore_page; [done|lia]|].
  destruct (pte_store _ _ _ _ va v Hwf Hva Hv Ht) as (H1 & H2 & H3). kred.
  split; [|done]. constructor; kred; try done.
  - apply kmem_inv_phys; [done|]. intros q a Hq Ha.
    apply (same_page_store32 _ t (4 * PTX va) v q); [done| |by intros ->|lia|done].
    pose proof (ki_pages _ _ Hinv) as Hp. rewrite Forall_forall in Hp. by apply Hp.
  - intros q [->|(d & Hdr & E)]; left; [by left|right]. exists d. by rewrite <-H1.
  - intros q Hq Hnl Hnp. apply same_page_store32; [done|done| |lia].
    intros ->. apply Hnp. right. by exists (PDX va).
Qed.

(** Loading an entry that walkpgdir returned. *)
Lemma load_entry s pgdir l t va :
  pt_wf (k_phys s) pgdir l -> pd_tab (k_phys s) pgdir (PDX va) = Some t ->
  kload32 (t + 4 * PTX va) s = Ret (pte (k_phys s) pgdir va) s.
Proof.
  intros Hwf Ht. pose proof (PDX_range va) as Hd. pose proof (PTX_range va) as Hx.
  destruct (pw_tab _ _ _ Hwf _ _ Hd Ht) as (Hk & _ & _).
  rewrite kload_page by (done || lia). unfold pte. by rewrite Ht.
Qed.

Lemma entry_nonzero m pgdir l t va :
  pt_wf m pgdir l -> pd_tab m pgdir (PDX va) = Some t -> (t + 4 * PTX va =? 0) = false.
Proof.
  intros Hwf Ht. pose proof (PDX_range va) as Hd. pose proof (PTX_range va) as Hx.
  destruct (pw_tab _ _ _ Hwf _ _ Hd Ht) as (Hk & _ & _). apply Z.eqb_neq.
  destruct Hk as (_ & _ & Hk). klia.
Qed.

(** ** mappages *)

(** The mapping after the first [k] pages from [a] on have been mapped. *)
Definition mapped_pages (f : Z -> Z) (a pa perm : Z) (k : nat) (va : Z) : Z :=
  if decide (a <= va < a + 4096 * Z.of_nat k)
  then make_pte (pa + (va / 4096 * 4096 - a)) perm else f va.

(** The pages needed for the tables of a range: one for each directory index
    after the first, and one for the first if it has no table. *)
Definition tables_bound (m : mem) (pgdir a last : Z) : Z :=
  PDX last - PDX a + match pd_tab m pgdir (PDX a) with Some _ => 0 | None => 1 end.

Lemma PDX_small va : 0 <= va < 2 ^ 32 -> PDX va = va / 4194304.
Proof. intros. rewrite PDX_eq. apply Z.mod_small. dlia. Qed.

Lemma mappages_loop_ok fuel : forall s l pgdir a last pa perm,
  kmem_inv s l -> pt_wf (k_phys s) pgdir l ->
  a mod 4096 = 0 -> 0 <= a -> last = a + 4096 * Z.of_nat fuel -> last < 2 ^ 32 ->
  pa mod 4096 = 0 -> 0 <= pa -> pa + 4096 * Z.of_nat fuel < 2 ^ 32 -> 0 <= perm < 4096 ->
  (forall va, a <= va < last + 4096 -> has (pte (k_phys s) pgdir va) PTE_P = false) ->
  wp (mappages_loop fuel pgdir a last pa perm) s (fun r s' => exists n l' k,
    pt_grow n s l pgdir s' l' /\
    (forall va, 0 <= va < 2 ^ 32 ->
       pte (k_phys s') pgdir va = mapped_pages (pte (k_phys s) pgdir) a pa perm k va) /\
    ((r = 0 /\ k = S fuel /\ Z.of_nat n <= tables_bound (k_phys s) pgdir a last)
     \/ (r = -1 /\ (k <= fuel)%nat /\ l' = [] /\ Z.of_nat n < tables_bound (k_phys s) pgdir a last))).
Proof.
  induction fuel as [|fuel IH]; intros s l pgdir a last pa perm Hinv Hwf Ha Ha0 Hl Hlast
    Hpa Hpa0 Hpalast Hperm Hfree;
    assert (last + 4096 <= 2 ^ 32) by dlia; cbn [mappages_loop]; wp_steps.
  all: eapply wp_mono; [by apply walk_spec|]; cbn beta.
  all: intros r s1 (n1 & l1 & Hg1 & Hp1 & [(t & -> & Ht & Hn1)|(-> & -> & -> & -> & Hnone)]).
  2,4: (rewrite Z.eqb_refl; wp_steps; exists 0%nat, [], 0%nat; split; [done|];
        split; [intros va Hva; unfold mapped_pages; by case_decide; [lia|]|];
        right; split; [done|]; split; [lia|]; split; [done|];
        unfold tables_bound; rewrite Hnone, !PDX_small by lia; dlia).
  all: rewrite (entry_nonzero _ _ _ _ _ (pg_wf _ _ _ _ _ _ Hg1) Ht); wp_steps.
  all: (eapply wp_eq; [by eapply load_entry; [apply Hg1|]|]).
  all: rewrite Hp1, Hfree by lia; wp_steps; fold (make_pte pa perm).
  all: (eapply wp_mono; [eapply store_entry; [apply Hg1|apply Hg1|lia|by apply make_pte_range; [|lia|]|done]|]).
  all: cbn beta; intros [] s2 (Hg2 & Ht2 & Hp2); pose proof (pt_grow_trans _ _ _ _ _ _ _ _ _ Hg1 Hg2) as Hg.
  - (* the last page *)
    destruct (Z.eqb_spec a last) as [_|]; [|lia]. wp_steps. exists (n1 + 0)%nat, l1, 1%nat.
    split; [done|]. split.
    + intros va Hva. rewrite Hp2, Hp1 by done. unfold mapped_pages.
      repeat case_decide; try dlia; try done; f_equal; dlia.
    + left. split; [done|]. split; [done|]. unfold tables_bound. rewrite Hn1.
      replace last with a by lia. destruct (pd_tab (k_phys s) pgdir (PDX a)); lia.
  - destruct (Z.eqb_spec a last) as [|_]; [lia|]. wp_steps.
    unfold u32, PGSIZE. rewrite !Z.mod_small by lia.
    eapply wp_mono; [apply (IH s2 l1 pgdir (a + 4096) last (pa + 4096) perm)|].
    1-2: apply Hg2.
    1-8: lia || dlia.
    + intros va Hva. rewrite Hp2, Hp1 by lia. case_decide; [dlia|]. apply Hfree. lia.
    + cbn beta. intros r s3 (n3 & l3 & k & Hg3 & Hp3 & Hr).
      exists (n1 + 0 + n3)%nat, l3, (S k).
      split; [by eapply pt_grow_trans|]. split.
      * intros va Hva. rewrite Hp3 by done. unfold mapped_pages. rewrite Hp2, Hp1 by done.
        repeat case_decide; try dlia; try done; f_equal; dlia.
      * assert (Z.of_nat n3 < tables_bound (k_phys s2) pgdir (a + 4096) last + (if decide (r = 0) then 1 else 0)
                -> Z.of_nat (n1 + 0 + n3) < tables_bound (k_phys s) pgdir a last + (if decide (r = 0) then 1 else 0)) as Hbound.
        {
          pose proof (PDX_range (a + 4096)) as Hda. unfold tables_bound. rewrite Ht2 by done.
          assert (PDX (a + 4096) = PDX a \/ PDX (a + 4096) = PDX a + 1) as [E|E]
            by (rewrite !PDX_small by lia; dlia); rewrite E, Hn1.
          - rewrite Ht. destruct (pd_tab (k_phys s) pgdir (PDX a)); lia.
          - destruct (pd_tab (k_phys s1) pgdir (PDX a + 1)), (pd_tab (k_phys s) pgdir (PDX a)); lia. }
        destruct Hr as [(-> & -> & Hb)|(-> & Hk & -> & Hb)]; [left|right]; revert Hbound;
          case_decide; try lia; intros; repeat split; lia.
Qed.

(** A range given by its first address and its size. *)
Lemma mappages_ok s l pgdir va size pa perm :
  kmem_inv s l -> pt_wf (k_phys s) pgdir l ->
  0 <= va -> 0 < size -> va + size <= 2 ^ 32 ->
  pa mod 4096 = 0 -> 0 <= pa -> pa + (va mod 4096 + size) <= 2 ^ 32 -> 0 <= perm < 4096 ->
  let a := PGROUNDDOWN va in let last := PGROUNDDOWN (va + size - 1) in
  (forall va', a <= va' < last + 4096 -> has (pte (k_phys s) pgdir va') PTE_P = false) ->
  wp (mappages pgdir va size pa perm) s (fun r s' => exists n l' k,
    pt_grow n s l pgdir s' l' /\
    (forall va', 0 <= va' < 2 ^ 32 ->
       pte (k_phys s') pgdir va' = mapped_pages (pte (k_phys s) pgdir) a pa perm k va') /\
    ((r = 0 /\ a + 4096 * Z.of_nat k = last + 4096 /\ Z.of_nat n <= tables_bound (k_phys s) pgdir a last)
     \/ (r = -1 /\ a + 4096 * Z.of_nat k <= last /\ l' = [] /\ Z.of_nat n < tables_bound (k_phys s) pgdir a last))).
Proof.
  intros Hinv Hwf Hva Hsz Hend Hpa Hpa0 Hpal Hperm a last Hfree.
  assert (a = va - va mod 4096) as Ea by apply PGROUNDDOWN_eq.
  assert (last = va + size - 1 - (va + size - 1) mod 4096) as El by apply PGROUNDDOWN_eq.
  unfold mappages. rewrite (u32_small (va + size - 1)) by lia. fold a. fold last.
  rewrite (u32_small (last - a)) by dlia. unfold PGSIZE.
  set (fuel := Z.to_nat ((last - a) / 4096)).
  assert (last = a + 4096 * Z.of_nat fuel) as Hf by (subst fuel; rewrite Z2Nat.id; dlia).
  eapply wp_mono.
  - apply (mappages_loop_ok fuel s l pgdir a last pa perm); try done; try dlia.
  - cbn beta. intros r s' (n & l' & k & Hg & Hp & Hr). exists n, l', k.
    split; [done|]. split; [done|].
    destruct Hr as [(-> & -> & Hb)|(-> & Hk & -> & Hb)]; [left|right]; repeat split; try done; lia.
Qed.

(** Mapping a single page. *)
Lemma mappages_page s l pgdir va pa perm :
  kmem_inv s l -> pt_wf (k_phys s) pgdir l ->
  va mod 4096 = 0 -> 0 <= va < 2 ^ 32 -> pa mod 4096 = 0 -> 0 <= pa < 2 ^ 32 -> 0 <= perm < 4096 ->
  has (pte (k_phys s) pgdir va) PTE_P = false ->
  wp (mappages pgdir va PGSIZE pa perm) s (fun r s' => exists n l',
    pt_grow n s l pgdir s' l' /\
    ((r = 0 /\ (forall va', 0 <= va' < 2 ^ 32 -> pte (k_phys s') pgdir va' =
        if decide (va' / 4096 = va / 4096) then make_pte pa perm else pte (k_phys s) pgdir va'))
     \/ (r = -1 /\ l' = [] /\
         forall va', 0 <= va' < 2 ^ 32 -> pte (k_phys s') pgdir va' = pte (k_phys s) pgdir va'))).
Proof.
  intros Hinv Hwf Hva Hvr Hpa Hpr Hperm Hfree.
  eapply wp_mono.
  - apply (mappages_ok s l pgdir va PGSIZE pa perm); try done; try kdlia.
    rewrite !PGROUNDDOWN_eq. intros va' Hva'. rewrite (pte_page _ _ va' va); [done|kdlia].
  - cbn beta. rewrite !PGROUNDDOWN_eq. intros r s' (n & l' & k & Hg & Hp & Hr). exists n, l'.
    split; [done|]. destruct Hr as [(-> & Hk & _)|(-> & Hk & -> & _)]; [left|right].
    + split; [done|]. intros va' Hva'. rewrite Hp by done. unfold mapped_pages.
      repeat case_decide; try done; try kdlia. f_equal. kdlia.
    + split; [done|]. split; [done|]. intros va' Hva'. rewrite Hp by done. unfold mapped_pages.
      by case_decide; [kdlia|].
Qed.

(** ** The kernel part of a page table *)

(** Every mapping setupkvm makes: the direct map, read-only for the text, and
    the devices; nothing below KERNBASE, and no entry for user code. *)
Definition kernel_map (va : Z) : Z :=
  let page := va / 4096 * 4096 in
  if decide (KERNBASE <= va < KERNLINK) then make_pte (page - KERNBASE) PTE_W
  else if decide (KERNLINK <= va < kdata) then make_pte (page - KERNBASE) 0
  else if decide (kdata <= va < KERNBASE + PHYSTOP) then make_pte (page - KERNBASE) PTE_W
  else if decide (DEVSPACE <= va) then make_pte page PTE_W
  else 0.

(** The state after a page was taken for a directory and cleared. *)
Definition new_pgdir s (p : Z) : kst F :=
  (kalloc_post s p) <| k_phys := memset (k_phys s) (V2P p) 0 PGSIZE |>.

Lemma new_pgdir_ok s p l :
  kmem_inv s (p :: l) ->
  let s1 := new_pgdir s p in
  kmem_inv s1 l /\ pt_wf (k_phys s1) p l /\ (forall d, 0 <= d < 1024 -> pd_tab (k_phys s1) p d = None) /\
  (forall va, pte (k_phys s1) p va = 0) /\
  (forall q, kpage q -> q <> p -> same_page (k_phys s) (k_phys s1) q /\ refcount s1 q = refcount s q).
Proof.
  intros Hinv s1. pose proof (ki_pages _ _ Hinv) as [Hk Hp]%Forall_cons.
  pose proof (NoDup_cons_1_1 _ _ (ki_nodup _ _ Hinv)) as Hpl.
  assert (forall d, 0 <= d < 1024 -> pd_tab (k_phys s1) p d = None) as Ht.
  { intros d Hd. unfold pd_tab. rewrite load32_zero; [done|]. intros b Hb.
    change (load8 (memset (k_phys s) (V2P p) 0 PGSIZE) b = 0).
    rewrite load8_memset by klia. by case_decide; [|klia]. }
  split; [|split; [|split; [done|split]]].
  - apply kmem_inv_phys; [by apply kalloc_post_inv|]. intros q a Hq Ha.
    rewrite Forall_forall in Hp.
    apply (same_page_memset (k_phys s) p 0 q); [done|by apply Hp|by intros ->|done].
  - constructor; [done|done|intros d; intros; by rewrite Ht in *..|]. intros d Hd [t E]. by rewrite Ht in E.
  - intros va. unfold pte. by rewrite Ht by apply PDX_range.
  - intros q Hq Hne. split; [by apply same_page_memset|].
    change (refcount (kalloc_post s p) q = refcount s q).
    rewrite kalloc_post_refcount by done. by case_decide.
Qed.

(** One line of kmap[], whole. *)
Lemma map_region s l pgdir va size pa perm :
  kmem_inv s l -> pt_wf (k_phys s) pgdir l ->
  va mod 4096 = 0 -> size mod 4096 = 0 -> 0 <= va -> 0 < size -> va + size <= 2 ^ 32 ->
  pa mod 4096 = 0 -> 0 <= pa -> pa + size <= 2 ^ 32 -> 0 <= perm < 4096 ->
  (forall va', va <= va' < va + size -> has (pte (k_phys s) pgdir va') PTE_P = false) ->
  tables_bound (k_phys s) pgdir va (va + size - 4096) <= Z.of_nat (length l) ->
  wp (mappages pgdir va size pa perm) s (fun r s' => exists n l',
    r = 0 /\ pt_grow n s l pgdir s' l' /\
    Z.of_nat n <= tables_bound (k_phys s) pgdir va (va + size - 4096) /\
    (forall va', 0 <= va' < 2 ^ 32 -> pte (k_phys s') pgdir va' =
       if decide (va <= va' < va + size) then make_pte (pa + (va' / 4096 * 4096 - va)) perm
       else pte (k_phys s) pgdir va')).
Proof.
  intros Hinv Hwf Hva Hsz Hva0 Hsz0 Hend Hpa Hpa0 Hpal Hperm Hfree Hlen.
  eapply wp_mono.
  - apply (mappages_ok s l pgdir va size pa perm); try done; try dlia.
    rewrite !PGROUNDDOWN_eq. intros va' Hva'. apply Hfree. dlia.
  - cbn beta. rewrite !PGROUNDDOWN_eq.
    replace (va - va mod 4096) with va by lia.
    replace (va + size - 1 - (va + size - 1) mod 4096) with (va + size - 4096) by dlia.
    intros r s' (n & l' & k & Hg & Hp & [(-> & Hk & Hb)|(-> & Hk & -> & Hb)]); exists n.
    + exists l'. split; [done|]. split; [done|]. split; [done|].
      intros va' Hva'. rewrite Hp by done. unfold mapped_pages. by replace (va + 4096 * Z.of_nat k) with (va + size) by lia.
    + exfalso. pose proof (f_equal length (pg_free _ _ _ _ _ _ Hg)) as E.
      rewrite length_drop in E. cbn in E. lia.
Qed.

End PageTable.
