(* ===== verification/AddressSpace.v ===== *)
(** setupkvm of src/src/vm.c: the kernel part of an address space, in terms of
    the mapping of a page table (PageTable.v). *)

From stdpp Require Import base gmap list strings.
From Stdlib Require Import ZArith Lia.
From S2P Require Import Prelude Mem Str Mmu State Kalloc MemTable MemList Vm PageTable.

Section AddressSpace.
Context {F : Type} {KI : KernelImage} {FS : FileSys F}.
Implicit Types s : kst F.

(** ** setupkvm *)

Lemma present_tab m pgdir va :
  has (pte m pgdir va) PTE_P = true -> exists t, pd_tab m pgdir (PDX va) = Some t.
Proof. unfold pte. destruct (pd_tab m pgdir (PDX va)) as [t|]; [by exists t|done]. Qed.

Lemma kdata_range : kdata mod 4096 = 0 /\ KERNLINK + 4096 <= kdata <= KERNBASE + 4194304.
Proof.
  pose proof kdata_aligned. pose proof kimage_order. pose proof kimage_fits. kdlia.
Qed.

(** The four lines of kmap[] in numbers. *)
Lemma kmap_sizes :
  u32 (EXTMEM - 0) = EXTMEM /\ V2P KERNLINK = EXTMEM /\ V2P kdata = kdata - KERNBASE /\
  u32 (V2P kdata - V2P KERNLINK) = kdata - KERNLINK /\
  u32 (PHYSTOP - V2P kdata) = KERNBASE + PHYSTOP - kdata /\ u32 (0 - DEVSPACE) = 2 ^ 32 - DEVSPACE.
Proof.
  destruct kdata_range as [_ Hk].
  assert (V2P kdata = kdata - KERNBASE) as E by (apply V2P_kernel; klia).
  change (V2P KERNLINK) with EXTMEM. rewrite E. repeat split; try done; rewrite u32_small; klia.
Qed.

Lemma tables_bound_present m pgdir a last va :
  PDX va = PDX a -> has (pte m pgdir va) PTE_P = true -> tables_bound m pgdir a last = PDX last - PDX a.
Proof.
  intros E H. destruct (present_tab _ _ _ H) as [t Ht]. rewrite E in Ht.
  unfold tables_bound. rewrite Ht. lia.
Qed.

Lemma tables_bound_le m pgdir a last : tables_bound m pgdir a last <= PDX last - PDX a + 1.
Proof. unfold tables_bound. destruct (pd_tab _ _ _); lia. Qed.

(** Mapping one line of kmap[] when enough pages are free, the mapping so far
    being [f]. *)
Lemma kmap_line s l pgdir f g k b :
  kmem_inv s l -> pt_wf (k_phys s) pgdir l ->
  (forall va, 0 <= va < 2 ^ 32 -> pte (k_phys s) pgdir va = f va) ->
  let va := km_virt k in let size := u32 (km_phys_end k - km_phys_start k) in
  va mod 4096 = 0 -> size mod 4096 = 0 -> 0 <= va -> 0 < size -> va + size <= 2 ^ 32 ->
  km_phys_start k mod 4096 = 0 -> 0 <= km_phys_start k -> km_phys_start k + size <= 2 ^ 32 ->
  0 <= km_perm k < 4096 ->
  (forall va', va <= va' < va + size -> has (f va') PTE_P = false) ->
  tables_bound (k_phys s) pgdir va (va + size - 4096) <= b -> b <= Z.of_nat (length l) ->
  (forall va', 0 <= va' < 2 ^ 32 -> g va' =
     if decide (va <= va' < va + size)
     then make_pte (km_phys_start k + (va' / 4096 * 4096 - va)) (km_perm k) else f va') ->
  wp (r <- mappages pgdir (km_virt k) size (km_phys_start k) (km_perm k) ;;
      ret (if r <? 0 then Some tt else None)) s
    (fun r s' => exists n l', r = None /\ pt_grow n s l pgdir s' l' /\ Z.of_nat n <= b /\
       (forall va, 0 <= va < 2 ^ 32 -> pte (k_phys s') pgdir va = g va)).
Proof.
  intros Hinv Hwf Hf va size Hv Hs Hv0 Hs0 Hvs Hp Hp0 Hps Hpm Hfree Hb Hl Hg.
  wp_steps. eapply wp_mono.
  - apply (map_region s l pgdir va size (km_phys_start k) (km_perm k)); try done; [|lia]. intros va' Hva'. rewrite Hf by lia. by apply Hfree.
  - cbn beta. intros r s' (n & l' & -> & Hgr & Hn & Hp'). wp_steps. exists n, l'.
    split; [done|]. split; [done|]. split; [lia|].
    intros va' Hva'. rewrite Hp', Hg by done. case_decide; [done|by apply Hf].
Qed.

(** The mapping after the first three lines of kmap[]. *)
Definition kernel_map_to (n : nat) (va : Z) : Z :=
  let page := va / 4096 * 4096 in
  if decide (KERNBASE <= va < KERNLINK) then make_pte (page - KERNBASE) PTE_W
  else if decide ((1 < n)%nat /\ KERNLINK <= va < kdata) then make_pte (page - KERNBASE) 0
  else if decide ((2 < n)%nat /\ kdata <= va < KERNBASE + PHYSTOP) then make_pte (page - KERNBASE) PTE_W
  else 0.

Ltac kmap_cbn := cbn [km_virt km_phys_start km_phys_end km_perm].
Ltac kmap_facts :=
  destruct kmap_sizes as (E1 & E2 & E3 & E4 & E5 & E6); destruct kdata_range as [Hka Hkr].

(** What one line of kmap[] achieves: the mapping becomes [g], with at most [b]
    new table pages. *)
Definition line_done s l pgdir (g : Z -> Z) (b : Z) : option unit -> kst F -> Prop := fun r s' =>
  exists n l', r = None /\ pt_grow n s l pgdir s' l' /\ Z.of_nat n <= b /\
    (forall va, 0 <= va < 2 ^ 32 -> pte (k_phys s') pgdir va = g va).

Section Lines.
Context (s : kst F) (l : list Z) (p : Z) (Hinv : kmem_inv s l) (Hwf : pt_wf (k_phys s) p l).
Abbreviation map_line k := (r <- mappages p (km_virt k) (u32 (km_phys_end k - km_phys_start k)) (km_phys_start k) (km_perm k) ;;
  ret (if r <? 0 then Some tt else None)).

#[local] Lemma line_io : (forall va, pte (k_phys s) p va = 0) -> 1 <= Z.of_nat (length l) ->
  wp (map_line {| km_virt := KERNBASE; km_phys_start := 0; km_phys_end := EXTMEM; km_perm := PTE_W |}) s
    (line_done s l p (kernel_map_to 1) 1).
Proof.
  intros Hf Hl. kmap_facts.
  apply (kmap_line _ l p (fun _ => 0) (kernel_map_to 1) _ 1 Hinv Hwf); kmap_cbn; rewrite ?E1; try done; try klia.
  etransitivity; [apply tables_bound_le|]. vm_compute. done.
Qed.

#[local] Lemma line_text : (forall va, 0 <= va < 2 ^ 32 -> pte (k_phys s) p va = kernel_map_to 1 va) ->
  wp (map_line {| km_virt := KERNLINK; km_phys_start := V2P KERNLINK; km_phys_end := V2P kdata; km_perm := 0 |}) s
    (line_done s l p (kernel_map_to 2) 0).
Proof.
  intros Hf. kmap_facts.
  apply (kmap_line s l p (kernel_map_to 1) (kernel_map_to 2) _ 0 Hinv Hwf Hf); kmap_cbn;
    rewrite ?E4, ?E2; try done; try klia; [kdlia| |..].
  - intros va Hva. unfold kernel_map_to. repeat case_decide; try done; klia.
  - rewrite (tables_bound_present _ _ _ _ KERNBASE); [|done|].
    + rewrite !PDX_small by klia. kdlia.
    + rewrite Hf by klia. vm_compute. done.
  - intros va Hva. unfold kernel_map_to. replace (KERNLINK + (kdata - KERNLINK)) with kdata by lia.
    repeat case_decide; try done; try (f_equal; klia); klia.
Qed.

#[local] Lemma line_data : (forall va, 0 <= va < 2 ^ 32 -> pte (k_phys s) p va = kernel_map_to 2 va) ->
  55 <= Z.of_nat (length l) ->
  wp (map_line {| km_virt := kdata; km_phys_start := V2P kdata; km_phys_end := PHYSTOP; km_perm := PTE_W |}) s
    (line_done s l p (kernel_map_to 3) 55).
Proof.
  intros Hf Hl. kmap_facts.
  apply (kmap_line s l p (kernel_map_to 2) (kernel_map_to 3) _ 55 Hinv Hwf Hf); kmap_cbn;
    rewrite ?E5, ?E3; try done; try klia; [kdlia|kdlia| |..].
  - intros va Hva. unfold kernel_map_to. repeat case_decide; try done; klia.
  - replace (kdata + (KERNBASE + PHYSTOP - kdata) - 4096) with (KERNBASE + PHYSTOP - 4096) by lia.
    destruct (decide (kdata < KERNBASE + 4194304)).
    + rewrite (tables_bound_present _ _ _ _ KERNBASE).
      * rewrite !PDX_small by klia. kdlia.
      * rewrite !PDX_small by klia. kdlia.
      * rewrite Hf by klia. vm_compute. done.
    + etransitivity; [apply tables_bound_le|]. rewrite !PDX_small by klia. kdlia.
  - intros va Hva. unfold kernel_map_to. replace (kdata + (KERNBASE + PHYSTOP - kdata)) with (KERNBASE + PHYSTOP) by lia.
    repeat case_decide; try done; try (f_equal; klia); klia.
Qed.

#[local] Lemma line_devices : (forall va, 0 <= va < 2 ^ 32 -> pte (k_phys s) p va = kernel_map_to 3 va) ->
  8 <= Z.of_nat (length l) ->
  wp (map_line {| km_virt := DEVSPACE; km_phys_start := DEVSPACE; km_phys_end := 0; km_perm := PTE_W |}) s
    (line_done s l p kernel_map 8).
Proof.
  intros Hf Hl. kmap_facts.
  apply (kmap_line s l p (kernel_map_to 3) kernel_map _ 8 Hinv Hwf Hf); kmap_cbn;
    rewrite ?E6; try done; try klia.
  - intros va Hva. unfold kernel_map_to. repeat case_decide; try done; klia.
  - etransitivity; [apply tables_bound_le|]. vm_compute. done.
  - intros va Hva. unfold kernel_map_to, kernel_map.
    repeat case_decide; try done; try (f_equal; klia); klia.
Qed.

End Lines.

(** With 64 free pages besides the one for the directory, setupkvm succeeds and
    maps exactly the kernel. *)
Lemma setupkvm_ok s p l :
  kmem_inv s (p :: l) -> (64 <= length l)%nat ->
  wp setupkvm s (fun r s' => r = p /\ exists n l',
    pt_grow n (new_pgdir s p) l p s' l' /\ (n <= 64)%nat /\
    (forall va, 0 <= va < 2 ^ 32 -> pte (k_phys s') p va = kernel_map va)).
Proof.
  intros Hinv Hlen. destruct (new_pgdir_ok s p l Hinv) as (Hi1 & Hw1 & _ & Hz & _).
  pose proof (ki_pages _ _ Hinv) as [Hk _]%Forall_cons.
  unfold setupkvm. wp_steps. eapply wp_eq; [by eapply kalloc_head|].
  destruct (Z.eqb_spec p 0) as [->|_]; [by apply kpage_nonzero in Hk|]. wp_steps.
  change (DEVSPACE <? P2V PHYSTOP) with false. cbn beta iota. apply wp_bind.
  match goal with |- wp _ ?x _ => change x with (new_pgdir s p) end.
  unfold kmap_table. cbn [for_find].
  apply wp_bind. eapply wp_mono; [apply (line_io _ l p); done || lia|].
  cbn beta. intros r1 s1 (n1 & l1 & -> & G1 & B1 & P1).
  assert (length l1 = length l - n1)%nat as L1 by (rewrite (pg_free _ _ _ _ _ _ G1); apply length_drop).
  apply wp_bind. eapply wp_mono; [by apply (line_text s1 l1 p); [apply G1|apply G1|]|].
  cbn beta. intros r2 s2 (n2 & l2 & -> & G2 & B2 & P2).
  assert (length l2 = length l1 - n2)%nat as L2 by (rewrite (pg_free _ _ _ _ _ _ G2); apply length_drop).
  apply wp_bind. eapply wp_mono; [apply (line_data s2 l2 p); [apply G2|apply G2|done|lia]|].
  cbn beta. intros r3 s3 (n3 & l3 & -> & G3 & B3 & P3).
  assert (length l3 = length l2 - n3)%nat as L3 by (rewrite (pg_free _ _ _ _ _ _ G3); apply length_drop).
  apply wp_bind. eapply wp_mono; [apply (line_devices s3 l3 p); [apply G3|apply G3|done|lia]|].
  cbn beta. intros r4 s4 (n4 & l4 & -> & G4 & B4 & P4). wp_steps.
  split; [done|]. exists (n1 + (n2 + (n3 + n4)))%nat, l4.
  split; [|split; [lia|done]]. by repeat (eapply pt_grow_trans; [eassumption|]).
Qed.

(** ** The kernel's address space, as the processor sees it *)

(** Where a virtual address leads: physical memory at KERNBASE, all of it
    writable but the kernel's text and read-only data, and the devices at their
    own addresses. *)
Definition kernel_space (va : Z) (write : bool) : option Z :=
  if (KERNBASE <=? va) && (va <? KERNBASE + PHYSTOP) then
    if write && (KERNLINK <=? va) && (va <? kdata) then None else Some (va - KERNBASE)
  else if DEVSPACE <=? va then Some va else None.

Lemma kernel_map_space va w :
  0 <= va < 2 ^ 32 ->
  (if has (kernel_map va) PTE_P && (negb w || has (kernel_map va) PTE_W)
   then Some (PTE_ADDR (kernel_map va) + va mod PGSIZE) else None) = kernel_space va w.
Proof.
  intros Hva. destruct kdata_range as [Hka Hkr].
  assert (forall pa perm, pa mod 4096 = 0 -> 0 <= perm < 4096 ->
    has (make_pte pa perm) PTE_P = true /\ has (make_pte pa perm) PTE_W = has perm PTE_W /\
    PTE_ADDR (make_pte pa perm) = pa) as Hm.
  { intros pa perm Ha Hp. split; [by apply has_make_P|].
    split; [by apply has_make; vm_compute|by apply PTE_ADDR_make]. }
  assert (va / 4096 * 4096 + va mod 4096 = va) as Epg by dlia.
  assert ((va / 4096 * 4096 - KERNBASE) mod 4096 = 0 /\ (va / 4096 * 4096) mod 4096 = 0) as [A1 A2] by (split; kdlia).
  destruct (Hm _ PTE_W A1 ltac:(klia)) as (M1 & M2 & M3). destruct (Hm _ 0 A1 ltac:(klia)) as (M4 & M5 & M6).
  destruct (Hm _ PTE_W A2 ltac:(klia)) as (M7 & M8 & M9).
  change (has PTE_W PTE_W) with true in *. change (has 0 PTE_W) with false in *.
  unfold kernel_map, kernel_space. repeat case_decide;
    rewrite ?M1, ?M2, ?M3, ?M4, ?M5, ?M6, ?M7, ?M8, ?M9; change (has 0 PTE_P) with false;
    repeat (match goal with |- context [?a <=? ?b] => destruct (Z.leb_spec a b); try klia
                          | |- context [?a <? ?b] => destruct (Z.ltb_spec a b); try klia end);
    destruct w; cbn [negb orb andb]; try done; f_equal; klia.
Qed.

Lemma kernel_map_no_user va : 0 <= va < 2 ^ 32 -> has (kernel_map va) PTE_U = false.
Proof.
  intros Hva. unfold kernel_map. pose proof kdata_range.
  repeat case_decide; rewrite ?has_make by (kdlia || (vm_compute; split; done)); done.
Qed.

(** C21. setupkvm, with 65 free pages, returns a page table under which the
    processor reaches exactly the kernel: physical memory at KERNBASE, the
    kernel's text not writable, the devices, and nothing below KERNBASE; user
    code reaches nothing at all; it takes at most 65 pages and leaves the free list
    well formed. *)
Theorem setupkvm_maps_kernel s p l :
  kmem_inv s (p :: l) -> (64 <= length l)%nat ->
  wp setupkvm s (fun r s' => r = p /\
    (forall va w, 0 <= va < 2 ^ 32 -> translate (k_phys s') (V2P r) va w = kernel_space va w /\
       access true w (k_phys s') (V2P r) va = None) /\
    exists l', kmem_inv s' l' /\ (length l <= length l' + 64)%nat).
Proof.
  intros Hinv Hlen. eapply wp_mono; [by apply setupkvm_ok|].
  cbn beta. intros r s' (-> & n & l' & G & Hn & Hp). split; [done|]. split.
  - intros va w Hva. pose proof (pg_wf _ _ _ _ _ _ G) as Hw.
    rewrite (translate_pte _ _ l' va w Hw), (access_pte _ _ l' va true w Hw). cbv zeta. rewrite Hp by done.
    split; [by apply kernel_map_space|]. unfold allows. by rewrite kernel_map_no_user, andb_false_r.
  - exists l'. split; [apply G|]. rewrite (pg_free _ _ _ _ _ _ G), length_drop. lia.
Qed.

End AddressSpace.

Module AddressSpaceWitness.

#[local] Existing Instance boot_image.

Lemma setupkvm_maps_kernel_witness : exists s : kst unit,
  wp setupkvm s (fun r s' =>
    translate (k_phys s') (V2P r) 0x80200000 true = Some 0x200000 /\
    translate (k_phys s') (V2P r) 0x80100000 true = None /\ translate (k_phys s') (V2P r) 4096 false = None).
Proof.
  destruct (KallocWitness.some_pages 65 (boot tt) ltac:(lia)) as (m & k & Hinv).
  eexists. eapply wp_mono.
  - eapply setupkvm_maps_kernel; [exact Hinv|vm_compute; lia].
  - intros r s' (-> & Ht & _). split; [|split].
    + destruct (Ht 0x80200000 true) as [-> _]; [split; [discriminate|reflexivity]|reflexivity].
    + destruct (Ht 0x80100000 true) as [-> _]; [split; [discriminate|reflexivity]|reflexivity].
    + destruct (Ht 4096 false) as [-> _]; [split; [discriminate|reflexivity]|reflexivity].
Defined.

End AddressSpaceWitness.
