(* ===== verification/CopyUvm.v ===== *)
(** copyuvm of src/src/vm.c: the copy-on-write copy of an address space.

    The two page tables are followed as functions: [two_pt s l P fP D fD] says
    that the distinct page tables [P] and [D] map what [fP] and [fD] say. *)

From stdpp Require Import base gmap list strings.
From Stdlib Require Import ZArith Lia.
From S2P Require Import Prelude Mem Str Mmu State Kalloc MemTable MemList Vm PageTable AddressSpace.

(** ** Entries without the write permission *)

Definition clearW (e : Z) : Z := Z.land e (Z.lnot PTE_W).

Lemma clearW_has e f : Z.land (Z.lnot PTE_W) f = f -> has (clearW e) f = has e f.
Proof. intros H. unfold has, clearW. by rewrite <-Z.land_assoc, H. Qed.

Lemma clearW_P e : has (clearW e) PTE_P = has e PTE_P.
Proof. by apply clearW_has. Qed.

Lemma clearW_U e : has (clearW e) PTE_U = has e PTE_U.
Proof. by apply clearW_has. Qed.

Lemma clearW_W e : has (clearW e) PTE_W = false.
Proof.
  unfold has, clearW. rewrite <-Z.land_assoc. change (Z.land (Z.lnot PTE_W) PTE_W) with 0.
  by rewrite Z.land_0_r.
Qed.

Lemma clearW_addr e : PTE_ADDR (clearW e) = PTE_ADDR e.
Proof. unfold PTE_ADDR, clearW. rewrite <-Z.land_assoc. done. Qed.

Lemma clearW_range e : 0 <= e < 2 ^ 32 -> 0 <= clearW e < 2 ^ 32.
Proof.
  intros H. unfold clearW. split; [apply Z.land_nonneg; lia|].
  assert (Z.land e (Z.lnot PTE_W) <= e); [|lia].
  rewrite <-Z.ldiff_land. apply Z.ldiff_le; [lia|]. apply Z.bits_inj'. intros n Hn.
  rewrite !Z.ldiff_spec, Z.bits_0. by destruct (Z.testbit e n), (Z.testbit PTE_W n).
Qed.

(** An entry rebuilt from its address and flags. *)
Lemma make_pte_split e : has e PTE_P = true -> make_pte (PTE_ADDR e) (PTE_FLAGS e) = e.
Proof.
  intros H. unfold make_pte, PTE_ADDR, PTE_FLAGS.
  apply Z.bits_inj'. intros n Hn. rewrite !Z.lor_spec, !Z.land_spec, Z.lnot_spec by done.
  assert (Z.testbit e 0 = true) as H0.
  { unfold has, PTE_P in H. change 1 with (Z.ones 1) in H. rewrite Z.land_ones in H by lia.
    rewrite Z.bit0_odd, Zodd_mod. change (2 ^ 1) with 2 in H.
    destruct (Z.eqb_spec (e mod 2) 0); [done|]. apply Z.eqb_eq. dlia. }
  unfold PTE_P. destruct (decide (n = 0)) as [->|Hne].
  - rewrite H0. by rewrite !orb_true_r.
  - replace (Z.testbit 1 n) with false; [by destruct (Z.testbit e n), (Z.testbit 4095 n)|].
    symmetry. change 1 with (2 ^ 0). by rewrite Z.pow2_bits_false.
Qed.

Section CopyUvm.
Context {F : Type} {KI : KernelImage} {FS : FileSys F}.
Implicit Types s : kst F.

(** ** Two page tables *)

Record two_pt s (l : list Z) (P : Z) (fP : Z -> Z) (D : Z) (fD : Z -> Z) : Prop := {
  tp_inv : kmem_inv s l;
  tp_P : pt_wf (k_phys s) P l;
  tp_D : pt_wf (k_phys s) D l;
  tp_disj : forall q, pt_page (k_phys s) P q -> ~ pt_page (k_phys s) D q;
  tp_fP : forall va, 0 <= va < 2 ^ 32 -> pte (k_phys s) P va = fP va;
  tp_fD : forall va, 0 <= va < 2 ^ 32 -> pte (k_phys s) D va = fD va
}.

Lemma two_pt_sym s l P fP D fD : two_pt s l P fP D fD -> two_pt s l D fD P fP.
Proof. intros [H1 H2 H3 H4 H5 H6]. constructor; try done. intros q HD HP. by apply (H4 q). Qed.

(** Growing one of them leaves the other as it is. *)
Lemma two_pt_grow s l P fP D fD n s' l' fD' :
  two_pt s l P fP D fD -> pt_grow n s l D s' l' ->
  (forall va, 0 <= va < 2 ^ 32 -> pte (k_phys s') D va = fD' va) ->
  two_pt s' l' P fP D fD' /\ (forall q, pt_page (k_phys s') P q <-> pt_page (k_phys s) P q).
Proof.
  intros [H1 H2 H3 H4 H5 H6] Hg HD.
  assert (forall q, pt_page (k_phys s) P q -> same_page (k_phys s) (k_phys s') q) as Hs.
  { intros q Hq. destruct (pt_page_kpage _ _ _ _ H2 Hq). by apply Hg; auto. }
  assert (forall q, pt_page (k_phys s') P q <-> pt_page (k_phys s) P q) as Hpp.
  { intros q. apply pt_page_same. apply Hs. by left. }
  split; [|done]. constructor; [apply Hg| |apply Hg| | |done].
  - apply (pt_wf_sublist _ _ l); [|eapply pt_wf_same; [apply Hs; by left|done]].
    rewrite (pg_free _ _ _ _ _ _ Hg). intros x Hx. rewrite <-(take_drop n l). apply elem_of_app. by right.
  - intros q Hq%Hpp HqD. destruct (pg_pages _ _ _ _ _ _ Hg q HqD); [by apply (H4 q)|].
    by destruct (pt_page_kpage _ _ _ _ H2 Hq).
  - intros va Hva. rewrite (pte_same (k_phys s)) by done. by apply H5.
Qed.

(** Taking from the free list does not matter to a page outside of everything. *)
Definition outside s (l : list Z) (P D q : Z) : Prop :=
  kpage q /\ (q ∉ l) /\ ~ pt_page (k_phys s) P q /\ ~ pt_page (k_phys s) D q.

(** The mapping with one page changed. *)
Definition set_map (f : Z -> Z) (a e : Z) : Z -> Z :=
  fun va => if decide (va / 4096 = a / 4096) then e else f va.

(** The kernel address of the frame an entry points to. *)
Definition frame_of (e : Z) : Z := P2V (PTE_ADDR e).

Lemma frame_pa e : 0 <= e < 2 ^ 32 -> V2P (frame_of e) = PTE_ADDR e.
Proof. intros H. apply V2P_P2V_word. pose proof (PTE_ADDR_le e). lia. Qed.

(** ** One page *)

(** An entry of one of them is set. *)
Lemma set_entry s l P fP D fD t i v :
  two_pt s l P fP D fD -> 0 <= i < 2 ^ 32 -> 0 <= v < 2 ^ 32 -> pd_tab (k_phys s) P (PDX i) = Some t ->
  wp (kstore32 (t + 4 * PTX i) v) s (fun _ s' =>
    two_pt s' l P (set_map fP i v) D fD /\ pt_grow 0 s l P s' l /\
    pd_tab (k_phys s') P (PDX i) = Some t /\
    (forall q, pt_page (k_phys s') D q <-> pt_page (k_phys s) D q)).
Proof.
  intros H2 Hi Hv Ht. pose proof (tp_inv _ _ _ _ _ _ H2). pose proof (tp_P _ _ _ _ _ _ H2).
  eapply wp_mono; [by apply (store_entry s P l t i v)|].
  cbn beta. intros [] s' (Hg & Htab & Hp).
  destruct (two_pt_grow s l D fD P fP 0 s' l (set_map fP i v)) as [H2' Hpp]; [by apply two_pt_sym|done| |].
  - intros va Hva. rewrite Hp by done. unfold set_map. case_decide; [done|by apply H2].
  - split; [by apply two_pt_sym|]. split; [done|]. split; [|done]. by rewrite Htab by apply PDX_range.
Qed.

Lemma two_pt_range s l P fP D fD i : two_pt s l P fP D fD -> 0 <= i < 2 ^ 32 -> 0 <= fP i < 2 ^ 32.
Proof.
  intros H2 Hi. rewrite <-(tp_fP _ _ _ _ _ _ H2) by done. unfold pte.
  destruct (pd_tab _ _ _); [apply load32_range|lia].
Qed.

(** A new page of the child. *)
Lemma map_child s l P fP D fD i e :
  two_pt s l P fP D fD -> i mod 4096 = 0 -> 0 <= i < 2 ^ 32 -> 0 <= e < 2 ^ 32 ->
  has e PTE_P = true -> has (fD i) PTE_P = false -> l <> [] ->
  wp (mappages D i PGSIZE (PTE_ADDR e) (PTE_FLAGS e)) s (fun r s' => r = 0 /\ exists n l', l' = drop n l /\
    (n <= 1)%nat /\ two_pt s' l' P fP D (set_map fD i e) /\ pt_grow n s l D s' l' /\
    (forall q, pt_page (k_phys s') P q <-> pt_page (k_phys s) P q)).
Proof.
  intros H2 Hi Hir He HP HD Hl. pose proof (PTE_ADDR_aligned e). pose proof (PTE_ADDR_le e).
  assert (0 <= PTE_FLAGS e < 4096) by (rewrite PTE_FLAGS_eq; by apply Z.mod_pos_bound).
  assert (forall va, i <= va < i + PGSIZE -> va / 4096 = i / 4096) as Hpage by (intros; kdlia).
  assert (tables_bound (k_phys s) D i (i + PGSIZE - 4096) <= 1) as Hb.
  { etransitivity; [apply tables_bound_le|]. unfold PGSIZE. rewrite Z.add_simpl_r. lia. }
  eapply wp_mono; [apply (map_region s l D i PGSIZE); try done; try kdlia; try apply H2|].
  - intros va Hva. rewrite (pte_page _ _ va i) by auto. by rewrite (tp_fD _ _ _ _ _ _ H2).
  - destruct l; cbn [length] in *; [done|lia].
  - cbn beta. intros r s' (n & l' & -> & G & Hn & Hp). split; [done|].
    destruct (two_pt_grow s l P fP D fD n s' l' (set_map fD i e)) as [H2' Hpp]; [done|done| |].
    { intros va Hva. rewrite Hp by done. unfold set_map. do 2 case_decide; try kdlia.
      - replace (PTE_ADDR e + (va / 4096 * 4096 - i)) with (PTE_ADDR e) by dlia. by apply make_pte_split.
      - by apply H2. }
    exists n, l'. split; [apply G|]. split; [lia|]. done.
Qed.

(** Pages outside of both tables stay there while one of them grows. *)
Lemma outside_grow s l P D n s' l' r :
  pt_grow n s l D s' l' -> (forall q, pt_page (k_phys s') P q <-> pt_page (k_phys s) P q) ->
  outside s l P D r ->
  outside s' l' P D r /\ same_page (k_phys s) (k_phys s') r /\ refcount s' r = refcount s r.
Proof.
  intros G Hpp (Hk & Hl & HP & HD). split; [|split; [by apply G|by apply G]].
  split; [done|]. split; [|split].
  - rewrite (pg_free _ _ _ _ _ _ G). intros Hin. apply Hl. rewrite <-(take_drop n l). apply elem_of_app. by right.
  - by rewrite Hpp.
  - intros Hq. by destruct (pg_pages _ _ _ _ _ _ G r Hq).
Qed.

Lemma outside_sym s l P D r : outside s l P D r -> outside s l D P r.
Proof. unfold outside. tauto. Qed.

Lemma two_pt_refcount s l P fP D fD q v :
  two_pt s l P fP D fD -> kpage q -> q ∉ l -> two_pt (set_refcount s q v) l P fP D fD.
Proof. intros [H1 H2 H3 H4 H5 H6] Hk Hn. constructor; try done. by apply set_refcount_inv. Qed.

Lemma copy_page_ok s l P fP D fD i :
  two_pt s l P fP D fD ->
  i mod 4096 = 0 -> 0 <= i < 2 ^ 32 -> has (fP i) PTE_P = true -> has (fD i) PTE_P = false ->
  let q := frame_of (fP i) in
  outside s l P D q -> 0 <= refcount s q < 2 ^ 32 - 1 -> l <> [] ->
  wp (copyuvm_page P D i) s (fun b s' => b = true /\ exists n l', l' = drop n l /\ (n <= 1)%nat /\
    two_pt s' l' P (set_map fP i (clearW (fP i))) D (set_map fD i (clearW (fP i))) /\
    s' = s <| k_phys := k_phys s' |> <| k_mem := k_mem s' |> /\
    (forall r, outside s l P D r -> outside s' l' P D r /\ same_page (k_phys s) (k_phys s') r /\
       refcount s' r = refcount s r + if decide (r = q) then 1 else 0)).
Proof.
  intros H2 Hi Hir HP HD q Hq Hrc Hl.
  pose proof (tp_P _ _ _ _ _ _ H2) as HwP.
  pose proof (two_pt_range _ _ _ _ _ _ i H2 Hir) as Her.
  destruct (present_tab (k_phys s) P i) as [t Ht]; [by rewrite (tp_fP _ _ _ _ _ _ H2)|].
  unfold copyuvm_page. wp_steps. eapply wp_eq; [by eapply walk_hit|].
  rewrite (entry_nonzero _ _ _ _ _ HwP Ht). wp_steps.
  eapply wp_eq; [by eapply load_entry|]. rewrite (tp_fP _ _ _ _ _ _ H2), HP by done. cbn [negb]. wp_steps.
  eapply wp_mono; [apply (set_entry s l P fP D fD t i (clearW (fP i))); [done|done|by apply clearW_range|done]|].
  cbn beta. intros [] s1 (H21 & G1 & Ht1 & Hpp1). wp_steps.
  eapply wp_eq; [eapply load_entry; [apply H21|done]|].
  rewrite (tp_fP _ _ _ _ _ _ H21) by done. unfold set_map at 1 2 3. rewrite decide_True by done. wp_steps.
  eapply wp_mono; [apply (map_child s1 l P _ D fD i (clearW (fP i)) H21); try done|].
  { by apply clearW_range. }
  { by rewrite clearW_P. }
  cbn beta. intros r s2 (-> & n & l2 & -> & Hn & H22 & G2 & HppP).
  change (0 <? 0) with false. wp_steps. rewrite clearW_addr.
  replace (PTE_ADDR (fP i)) with (V2P q) by (by apply frame_pa).
  assert (forall r, outside s l P D r -> outside s2 (drop n l) P D r /\
    same_page (k_phys s) (k_phys s2) r /\ refcount s2 r = refcount s r) as Hout.
  { intros r Hr. destruct (outside_grow s l D P 0 s1 l r G1 Hpp1) as (Ho1 & Hs1 & Hc1); [by apply outside_sym|].
    destruct (outside_grow s1 l P D n s2 (drop n l) r G2 HppP) as (Ho2 & Hs2 & Hc2); [by apply outside_sym|].
    split; [done|]. split; [by eapply same_page_trans|congruence]. }
  destruct (Hout q Hq) as ((_ & Hq2 & _ & _) & _ & Hcq).
  eapply wp_eq; [apply modify_refcount; [apply H22|apply Hq]|]. wp_steps. split; [done|].
  exists n, (drop n l). split; [done|]. split; [done|]. split; [apply two_pt_refcount; [done|apply Hq|done]|].
  split; [rewrite (pg_rest _ _ _ _ _ _ G2), (pg_rest _ _ _ _ _ _ G1); done|].
  intros r Hr. destruct (Hout r Hr) as (Hr2 & Hsr & Hcr). split; [exact Hr2|]. split; [exact Hsr|].
  rewrite set_refcount_refcount by (apply Hq || apply Hr). rewrite Hcr, Hcq.
  do 2 case_decide; subst; try done; [rewrite u32_small; lia|lia].
Qed.

(** ** A range of pages *)

(** The mapping [f] with the [n] pages from [i] on replaced by [g]. *)
Definition set_range (f g : Z -> Z) (i : Z) (n : nat) : Z -> Z :=
  fun va => if decide (i <= va < i + 4096 * Z.of_nat n) then g va else f va.

(** How many of the pages [ps] are mapped to the frame [q]. *)
Definition mapped_to (f : Z -> Z) (ps : list Z) (q : Z) : Z :=
  Z.of_nat (length (filter (fun a => frame_of (f a) = q) ps)).

Lemma mapped_to_cons f a ps q :
  mapped_to f (a :: ps) q = (if decide (q = frame_of (f a)) then 1 else 0) + mapped_to f ps q.
Proof.
  unfold mapped_to. rewrite filter_cons. do 2 case_decide; subst; try done; cbn [length]; lia.
Qed.

Lemma mapped_to_app f ps ps' q : mapped_to f (ps ++ ps') q = mapped_to f ps q + mapped_to f ps' q.
Proof. unfold mapped_to. rewrite filter_app, length_app. lia. Qed.

Lemma mapped_to_pos f ps q : 0 <= mapped_to f ps q.
Proof. unfold mapped_to. lia. Qed.

Lemma mapped_to_ext f g ps q : (forall a, a ∈ ps -> g a = f a) -> mapped_to g ps q = mapped_to f ps q.
Proof.
  induction ps as [|a ps IH]; intros H; [done|]. rewrite !mapped_to_cons, (H a), IH; [done| |by left].
  intros b Hb. apply H. by right.
Qed.

Lemma two_pt_ext s l P fP D fD fP' fD' :
  two_pt s l P fP D fD -> (forall va, 0 <= va < 2 ^ 32 -> fP va = fP' va) ->
  (forall va, 0 <= va < 2 ^ 32 -> fD va = fD' va) -> two_pt s l P fP' D fD'.
Proof.
  intros [H1 H2 H3 H4 H5 H6] HP HD. constructor; try done; intros va Hva.
  - by rewrite H5, HP.
  - by rewrite H6, HD.
Qed.

(** What makes a range of pages of the parent ready to be copied. *)
Record copyable s (l : list Z) (P : Z) (fP : Z -> Z) (D : Z) (fD : Z -> Z) (ps : list Z) : Prop := {
  cp_present : forall a, a ∈ ps -> has (fP a) PTE_P = true;
  cp_absent : forall a, a ∈ ps -> has (fD a) PTE_P = false;
  cp_frame : forall a, a ∈ ps -> outside s l P D (frame_of (fP a));
  cp_count : forall a, a ∈ ps -> let q := frame_of (fP a) in
    0 <= refcount s q /\ refcount s q + mapped_to fP ps q < 2 ^ 32
}.

(** The effect of copying the pages [ps] from [s]. *)
Definition copied_from s (l : list Z) (P : Z) (fP : Z -> Z) (D : Z) (ps : list Z) s' (l' : list Z) : Prop :=
  s' = s <| k_phys := k_phys s' |> <| k_mem := k_mem s' |> /\
  (forall r, outside s l P D r -> outside s' l' P D r /\ same_page (k_phys s) (k_phys s') r /\
     refcount s' r = refcount s r + mapped_to fP ps r).

Lemma copyuvm_loop_ok n : forall fuel s l P fP D fD i limit,
  (n <= fuel)%nat -> two_pt s l P fP D fD -> i mod 4096 = 0 -> 0 <= i ->
  i + 4096 * Z.of_nat n < 2 ^ 32 ->
  (i < limit <-> (0 < n)%nat) -> i + 4096 * (Z.of_nat n - 1) < limit \/ n = 0%nat ->
  limit <= i + 4096 * Z.of_nat n \/ n = 0%nat ->
  copyable s l P fP D fD (pages i n) -> (n <= length l)%nat ->
  wp (copyuvm_loop fuel P D i limit) s (fun b s' => b = true /\ exists k l', l' = drop k l /\ (k <= n)%nat /\
    two_pt s' l' P (set_range fP (fun va => clearW (fP va)) i n) D (set_range fD (fun va => clearW (fP va)) i n) /\
    copied_from s l P fP D (pages i n) s' l').
Proof.
  induction n as [|n IH]; intros fuel s l P fP D fD i limit Hf H2 Hi Hi0 Hir Hlt Hlo Hhi Hc Hlen.
  - destruct fuel as [|fuel]; cbn [copyuvm_loop]; (destruct (Z.ltb_spec i limit); [lia|]); wp_steps;
      (split; [done|]); exists 0%nat, l; (split; [done|]); (split; [lia|]); split.
    all: try (eapply two_pt_ext; [done|..]; intros va Hva; unfold set_range; by case_decide; [lia|]).
    all: split; [by destruct s|]; intros r Hr; split; [done|]; split; [apply same_page_refl|];
      change (mapped_to fP (pages i 0) r) with 0; lia.
  - destruct fuel as [|fuel]; [lia|]. cbn [copyuvm_loop].
    destruct (Z.ltb_spec i limit); [|lia]. wp_steps.
    assert (i ∈ pages i (S n)) as Hin by (rewrite pages_S; by left).
    destruct Hc as [Hc1 Hc2 Hc3 Hc4].
    eapply wp_mono; [apply (copy_page_ok s l P fP D fD i H2 Hi); auto; [lia| |]|].
    { destruct (Hc4 i Hin) as [Ha Hb]. rewrite pages_S, mapped_to_cons in Hb.
      rewrite decide_True in Hb by done. pose proof (mapped_to_pos fP (pages (i + 4096) n) (frame_of (fP i))). lia. }
    { destruct l; [cbn in Hlen; lia|done]. }
    cbn beta. intros b s1 (-> & k1 & l1 & Hl1 & Hk1 & H21 & Hrest1 & Hout1). cbn beta iota.
    rewrite u32_small by klia.
    assert (forall va, va / 4096 <> i / 4096 -> set_map fP i (clearW (fP i)) va = fP va) as Hother.
    { intros va Hva. unfold set_map. by case_decide. }
    assert (forall a, a ∈ pages (i + 4096) n -> a / 4096 <> i / 4096 /\ a ∈ pages i (S n)) as Hps.
    { intros a Ha. split; [|rewrite pages_S; by right].
      apply elem_of_pages in Ha as (k & Hk & ->). dlia. }
    eapply wp_mono.
    + apply (IH fuel s1 l1 P (set_map fP i (clearW (fP i))) D (set_map fD i (clearW (fP i))) (i + PGSIZE) limit);
        unfold PGSIZE; try lia; try dlia; [done| |].
      * constructor; intros a Ha; destruct (Hps a Ha) as [Hne Ha']; rewrite ?Hother by done; auto.
        -- unfold set_map. by case_decide; [|auto].
        -- by apply Hout1, Hc3.
        -- cbv zeta. rewrite ?Hother by done.
           destruct (Hc4 a Ha') as [Hb1 Hb2]. rewrite pages_S, mapped_to_cons in Hb2.
           destruct (Hout1 _ (Hc3 a Ha')) as (_ & _ & ->).
           rewrite (mapped_to_ext fP) by (intros b Hb; apply Hother, Hps, Hb).
           repeat case_decide; lia.
      * rewrite Hl1, length_drop. lia.
    + cbn beta. unfold PGSIZE. intros b s2 (-> & k2 & l2 & Hl2 & Hk2 & H22 & Hrest2 & Hout2). split; [done|].
      exists (k1 + k2)%nat, l2. split; [by rewrite Hl2, Hl1, drop_drop|]. split; [lia|]. split.
      * eapply two_pt_ext; [exact H22| |]; intros va Hva; unfold set_range, set_map;
          repeat case_decide; try done; try dlia; f_equal.
        all: rewrite <-!(tp_fP _ _ _ _ _ _ H2) by dlia; apply pte_page; dlia.
      * split; [rewrite Hrest2, Hrest1; done|]. intros r Hr.
        destruct (Hout1 r Hr) as (Hr1 & Hs1 & Hn1). destruct (Hout2 r Hr1) as (Hr2 & Hs2 & Hn2).
        split; [done|]. split; [by eapply same_page_trans|].
        rewrite Hn2, Hn1, pages_S, mapped_to_cons.
        rewrite (mapped_to_ext fP) by (intros b Hb; apply Hother, Hps, Hb). lia.
Qed.

(** ** The whole address space *)

(** A new directory next to the parent's page table. *)
Lemma two_pt_new s P d l :
  kmem_inv s (d :: l) -> pt_wf (k_phys s) P (d :: l) ->
  two_pt (new_pgdir s d) l P (pte (k_phys s) P) d (fun _ => 0) /\
  (forall r, kpage r -> r ∉ d :: l -> ~ pt_page (k_phys s) P r ->
     outside (new_pgdir s d) l P d r /\ same_page (k_phys s) (k_phys (new_pgdir s d)) r /\
     refcount (new_pgdir s d) r = refcount s r).
Proof.
  intros Hinv HwP. destruct (new_pgdir_ok s d l Hinv) as (Hi & Hw & Htab & Hz & Hsame).
  assert (forall q, pt_page (k_phys s) P q -> kpage q /\ q <> d) as HPd.
  { intros q Hq. destruct (pt_page_kpage _ _ _ _ HwP Hq) as [Hk Hn].
    split; [done|]. intros ->. apply Hn. by left. }
  assert (forall q, pt_page (k_phys s) P q -> same_page (k_phys s) (k_phys (new_pgdir s d)) q) as HsP.
  { intros q Hq. by apply Hsame; apply HPd. }
  assert (forall q, pt_page (k_phys (new_pgdir s d)) P q <-> pt_page (k_phys s) P q) as Hpp.
  { intros q. apply pt_page_same. apply HsP. by left. }
  assert (forall q, pt_page (k_phys (new_pgdir s d)) d q -> q = d) as Hd.
  { intros q [->|(x & Hx & E)]; [done|]. by rewrite Htab in E. }
  split.
  - constructor; [done| |done| | |by intros; apply Hz].
    + apply (pt_wf_sublist _ _ (d :: l)); [by intros x Hx; right|]. eapply pt_wf_same; [apply HsP; by left|done].
    + intros q Hq%Hpp ->%Hd. by apply HPd in Hq as [_ Hq].
    + intros va Hva. by apply pte_same.
  - intros r Hk Hn HnP.
    assert (r <> d) as Hrd by (intros ->; apply Hn; by left).
    split; [|by apply Hsame]. split; [done|]. split; [intros Hin; apply Hn; by right|].
    split; [by rewrite Hpp|]. by intros ->%Hd.
Qed.

(** The user part of an address space: the pages below [sz] but the first, and
    [stack] bytes below USERTOP. *)
Definition heap_pages (sz : Z) : nat := Z.to_nat ((sz - 1) / 4096).
Definition stack_pages (stack : Z) : nat := Z.to_nat (stack / 4096).
Definition user_pages (sz stack : Z) : list Z :=
  pages 4096 (heap_pages sz) ++ pages (USERTOP - stack) (stack_pages stack).
Definition in_user (sz stack va : Z) : Prop :=
  4096 <= va < 4096 + 4096 * Z.of_nat (heap_pages sz) \/ USERTOP - stack <= va < USERTOP.

#[global] Instance in_user_dec sz stack va : Decision (in_user sz stack va).
Proof. unfold in_user. apply _. Defined.

Lemma copied_from_trans s l P fP fP' D ps ps' s1 l1 s2 l2 :
  copied_from s l P fP D ps s1 l1 -> copied_from s1 l1 P fP' D ps' s2 l2 ->
  (forall a, a ∈ ps' -> fP' a = fP a) -> copied_from s l P fP D (ps ++ ps') s2 l2.
Proof.
  intros [R1 H1] [R2 H2] Hf. split; [rewrite R2, R1; done|]. intros r Hr.
  destruct (H1 r Hr) as (Hr1 & Hs1 & Hc1). destruct (H2 r Hr1) as (Hr2 & Hs2 & Hc2).
  split; [done|]. split; [by eapply same_page_trans|].
  rewrite Hc2, Hc1, mapped_to_app, (mapped_to_ext fP fP' ps') by done. lia.
Qed.

Lemma kernel_map_user va : va < KERNBASE -> kernel_map va = 0.
Proof.
  intros H. destruct kdata_range as [_ Hk]. unfold kernel_map. repeat case_decide; done || klia.
Qed.

(** Every page of the user part is present, in a frame of its own kind, and its
    count has room for the copy. *)
Definition user_ready s (l : list Z) (P D : Z) (fP : Z -> Z) (ps : list Z) : Prop :=
  forall a, a ∈ ps -> let q := frame_of (fP a) in
    has (fP a) PTE_P = true /\ outside s l P D q /\
    0 <= refcount s q /\ refcount s q + mapped_to fP ps q < 2 ^ 32.

Section CopyUser.
Context (s : kst F) (l : list Z) (P D : Z) (fP : Z -> Z) (sz stack : Z).
Let ps := user_pages sz stack.
Context (H2 : two_pt s l P fP D kernel_map) (Hready : user_ready s l P D fP ps).
Context (Hst : stack mod 4096 = 0) (Hst0 : 0 <= stack) (Hst4 : 4096 <= USERTOP - stack).
Context (Hsz : 0 <= sz <= USERTOP - stack) (Hlen : (length ps <= length l)%nat).

#[local] Lemma length_user_pages : length ps = (heap_pages sz + stack_pages stack)%nat.
Proof. unfold ps, user_pages, pages. by rewrite length_app, !length_fmap, !length_seq. Qed.

#[local] Lemma heap_end : 4096 + 4096 * Z.of_nat (heap_pages sz) <= USERTOP - stack.
Proof. unfold heap_pages. kdlia. Qed.

#[local] Lemma stack_size : Z.of_nat (stack_pages stack) * 4096 = stack.
Proof. unfold stack_pages. kdlia. Qed.

#[local] Lemma user_count q : mapped_to fP ps q =
  mapped_to fP (pages 4096 (heap_pages sz)) q + mapped_to fP (pages (USERTOP - stack) (stack_pages stack)) q.
Proof. apply mapped_to_app. Qed.

#[local] Lemma heap_page a : a ∈ pages 4096 (heap_pages sz) -> a ∈ ps /\ 4096 <= a < USERTOP - stack.
Proof.
  intros Ha. split; [apply elem_of_app; by left|]. pose proof heap_end.
  apply elem_of_pages in Ha as (k & Hk & ->). lia.
Qed.

#[local] Lemma stack_page a :
  a ∈ pages (USERTOP - stack) (stack_pages stack) -> a ∈ ps /\ USERTOP - stack <= a < USERTOP.
Proof.
  intros Ha. split; [apply elem_of_app; by right|]. pose proof stack_size.
  apply elem_of_pages in Ha as (k & Hk & ->). lia.
Qed.

(** The mappings after the first loop. *)
Let fP2 := set_range fP (fun va => clearW (fP va)) 4096 (heap_pages sz).
Let fD2 := set_range kernel_map (fun va => clearW (fP va)) 4096 (heap_pages sz).

Lemma copy_heap :
  wp (copyuvm_loop (Z.to_nat (sz / PGSIZE)) P D PGSIZE sz) s (fun b s' => b = true /\ exists k l',
    l' = drop k l /\ (k <= heap_pages sz)%nat /\ two_pt s' l' P fP2 D fD2 /\
    copied_from s l P fP D (pages 4096 (heap_pages sz)) s' l').
Proof.
  pose proof length_user_pages. pose proof heap_end.
  apply (copyuvm_loop_ok (heap_pages sz) (Z.to_nat (sz / PGSIZE)) s l P fP D kernel_map PGSIZE sz);
    try done; try (unfold heap_pages; kdlia); [|lia].
  constructor; intros a Ha; destruct (heap_page a Ha) as [Ha' Har].
  - by apply Hready.
  - rewrite kernel_map_user; [done|klia].
  - by apply Hready.
  - cbv zeta. destruct (Hready a Ha') as (_&_&?&Hm). rewrite user_count in Hm.
    pose proof (mapped_to_pos fP (pages (USERTOP - stack) (stack_pages stack)) (frame_of (fP a))).
    unfold PGSIZE. lia.
Qed.

Lemma copy_stack s2 l2 k :
  l2 = drop k l -> (k <= heap_pages sz)%nat -> two_pt s2 l2 P fP2 D fD2 ->
  copied_from s l P fP D (pages 4096 (heap_pages sz)) s2 l2 ->
  wp (copyuvm_loop (Z.to_nat (stack / PGSIZE + 1)) P D (USERTOP - stack) USERTOP) s2 (fun b s' =>
    b = true /\ exists l', (length l <= length l' + length ps)%nat /\
    two_pt s' l' P (fun va => if decide (in_user sz stack va) then clearW (fP va) else fP va)
           D (fun va => if decide (in_user sz stack va) then clearW (fP va) else kernel_map va) /\
    copied_from s l P fP D ps s' l').
Proof.
  intros Hl2 Hk H22 Hc2. pose proof length_user_pages. pose proof stack_size as Hss. pose proof heap_end.
  assert (forall a, USERTOP - stack <= a -> fP2 a = fP a) as HfP2.
  { intros a Ha. unfold fP2, set_range. case_decide; [klia|done]. }
  eapply wp_mono.
  - eapply (copyuvm_loop_ok (stack_pages stack) _ s2 l2 P fP2 D fD2 (USERTOP - stack) USERTOP);
      try done; try (unfold stack_pages; kdlia); [|rewrite Hl2, length_drop; lia].
    constructor; intros a Ha; destruct (stack_page a Ha) as [Ha' Har]; cbv zeta; rewrite ?HfP2 by lia.
    + by apply Hready.
    + unfold fD2, set_range. case_decide; [klia|]. rewrite kernel_map_user; [done|klia].
    + by apply (proj2 Hc2), Hready.
    + destruct (Hready a Ha') as (_ & Ho & ? & Hm). destruct (proj2 Hc2 _ Ho) as (_ & _ & ->).
      rewrite user_count in Hm.
      rewrite (mapped_to_ext fP fP2) by (intros c Hc; apply HfP2; apply stack_page in Hc; lia).
      pose proof (mapped_to_pos fP (pages 4096 (heap_pages sz)) (frame_of (fP a))). lia.
  - cbn beta. intros b s3 (-> & k3 & l3 & Hl3 & Hk3 & H23 & Hc3). split; [done|]. exists l3.
    split; [rewrite Hl3, Hl2, !length_drop; lia|]. split.
    + eapply two_pt_ext; [exact H23| |]; intros va Hva; unfold set_range, fP2, fD2, set_range, in_user;
        repeat case_decide; try done; klia.
    + eapply copied_from_trans; [done|done|]. intros a Ha. apply HfP2. apply stack_page in Ha. lia.
Qed.

End CopyUser.

Lemma two_pt_cr3 s l P fP D fD v : two_pt s l P fP D fD -> two_pt (s <| k_cr3 := v |>) l P fP D fD.
Proof. intros [[] ? ? ? ? ?]. by constructor. Qed.

(** A process [i] whose page table [P] has its user part in place, with [d] the
    next free page and enough pages after it for a second page table. *)
Record forkable s (P d : Z) (l : list Z) (i : nat) (pr : proc) (sz : Z) : Prop := {
  fk_inv : kmem_inv s (d :: l);
  fk_wf : pt_wf (k_phys s) P (d :: l);
  fk_cur : k_curproc s = Some i;
  fk_proc : k_ptable s !! i = Some pr;
  fk_stack : p_stackSize pr mod 4096 = 0 /\ 0 <= p_stackSize pr <= USERTOP - 4096;
  fk_sz : 0 <= sz <= USERTOP - p_stackSize pr;
  fk_user : forall a, a ∈ user_pages sz (p_stackSize pr) ->
    let q := frame_of (pte (k_phys s) P a) in
    has (pte (k_phys s) P a) PTE_P = true /\ kpage q /\ (q ∉ d :: l) /\ ~ pt_page (k_phys s) P q /\
    1 <= refcount s q /\
    refcount s q + mapped_to (pte (k_phys s) P) (user_pages sz (p_stackSize pr)) q < 2 ^ 32;
  fk_room : (64 + length (user_pages sz (p_stackSize pr)) <= length l)%nat
}.

(** The mappings of the two processes after the copy. *)
Definition parent_map s P sz stack va : Z :=
  if decide (in_user sz stack va) then clearW (pte (k_phys s) P va) else pte (k_phys s) P va.
Definition child_map s P sz stack va : Z :=
  if decide (in_user sz stack va) then clearW (pte (k_phys s) P va) else kernel_map va.

Lemma copyuvm_ok s P d l i pr sz :
  forkable s P d l i pr sz ->
  let stack := p_stackSize pr in let ps := user_pages sz stack in
  wp (copyuvm P sz) s (fun r s' => r = d /\ k_cr3 s' = V2P P /\
    k_curproc s' = k_curproc s /\ k_ptable s' = k_ptable s /\ exists l',
    (length l <= length l' + 64 + length ps)%nat /\
    two_pt s' l' P (parent_map s P sz stack) d (child_map s P sz stack) /\
    (forall q, kpage q -> q ∉ d :: l -> ~ pt_page (k_phys s) P q ->
       outside s' l' P d q /\ same_page (k_phys s) (k_phys s') q /\
       refcount s' q = refcount s q + mapped_to (pte (k_phys s) P) ps q)).
Proof.
  intros [Hinv HwP Hcur Hpr [Hst Hst0] Hsz Hps Hlen] stack ps. set (fP := pte (k_phys s) P) in *.
  destruct (two_pt_new s P d l Hinv HwP) as [H20 Hout0].
  pose proof (ki_pages _ _ Hinv) as [Hkd _]%Forall_cons.
  unfold copyuvm. wp_steps. eapply wp_mono; [apply (setupkvm_ok s d l Hinv); lia|].
  cbn beta. intros r s1 (-> & n & l1 & G1 & Hn & Hp1).
  destruct (Z.eqb_spec d 0) as [->|_]; [by apply kpage_nonzero in Hkd|]. wp_steps.
  destruct (two_pt_grow _ _ _ _ _ _ _ _ _ kernel_map H20 G1 Hp1) as [H21 Hpp1].
  assert (forall q, kpage q -> q ∉ d :: l -> ~ pt_page (k_phys s) P q ->
    outside s1 l1 P d q /\ same_page (k_phys s) (k_phys s1) q /\ refcount s1 q = refcount s q) as Hout1.
  { intros q Hk Hq HqP. destruct (Hout0 q Hk Hq HqP) as (Ho & Hs & Hc).
    destruct (outside_grow _ _ _ _ _ _ _ _ G1 Hpp1 Ho) as (Ho1 & Hs1 & Hc1).
    split; [done|]. split; [by eapply same_page_trans|congruence]. }
  assert (user_ready s1 l1 P d fP ps) as Hready.
  { intros a Ha. destruct (Hps a Ha) as (H1 & H3 & H4 & H5 & H6).
    destruct (Hout1 _ H3 H4 H5) as (Ho & _ & Hc). cbv zeta. rewrite Hc. fold fP ps in H6. destruct H6 as [H6 H7]. split_and!; [done..|lia|exact H7]. }
  assert (length l <= length l1 + 64)%nat as Hl1' by (rewrite (pg_free _ _ _ _ _ _ G1), length_drop; lia).
  assert (length ps <= length l1)%nat as Hl1 by (fold stack ps in Hlen; lia).
  eapply wp_mono; [apply (copy_heap s1 l1 P d fP sz stack); done || lia|].
  cbn beta. intros b s2 (-> & k2 & l2 & Hl2 & Hk2 & H22 & Hc2). wp_steps.
  assert (s2 = s <| k_phys := k_phys s2 |> <| k_mem := k_mem s2 |>) as R2.
  { rewrite (proj1 Hc2), (pg_rest _ _ _ _ _ _ G1). done. }
  eapply wp_myproc; [rewrite R2; exact Hcur|]. wp_steps.
  eapply wp_get_proc; [rewrite R2; exact Hpr|]. fold stack. rewrite u32_small by klia.
  eapply wp_mono; [eapply (copy_stack s1 l1 P d fP sz stack); done || lia|].
  cbn beta. intros b s3 (-> & l3 & Hl3 & H23 & Hc3). unfold lcr3. wp_steps.
  assert (s3 = s <| k_phys := k_phys s3 |> <| k_mem := k_mem s3 |>) as R3.
  { rewrite (proj1 Hc3), (pg_rest _ _ _ _ _ _ G1). done. }
  split; [done|]. split; [done|]. split; [by rewrite R3|]. split; [by rewrite R3|]. exists l3.
  split; [unfold ps; lia|]. split; [by apply two_pt_cr3|].
  intros q Hk Hq HqP. destruct (Hout1 q Hk Hq HqP) as (Ho & Hs & Hc).
  destruct (proj2 Hc3 q Ho) as (Ho3 & Hs3 & Hc3'). split; [exact Ho3|].
  split; [by eapply same_page_trans|]. change (refcount s3 q = refcount s q + mapped_to fP ps q).
  by rewrite Hc3', Hc.
Qed.

End CopyUvm.
