(* ===== verification/CopyOnWrite.v ===== *)
(** Copy-on-write faults: PageFault of src/src/vm.c on a page that is present
    and read-only, and what two address spaces that share pages can see of each
    other. *)

From stdpp Require Import base gmap list strings.
From Stdlib Require Import ZArith Lia.
From S2P Require Import Prelude Mem Str Mmu State Kalloc MemTable MemList Vm PageTable AddressSpace CopyUvm.

Section CopyOnWrite.
Context {F : Type} {KI : KernelImage} {FS : FileSys F}.
Implicit Types s : kst F.

(** ** Taking a page *)

(** A page leaves the free list and gets any bytes. *)
Definition filled s (n : Z) (m' : mem) : kst F := (kalloc_post s n) <| k_phys := m' |>.

Section Filled.
Context (s : kst F) (n : Z) (l : list Z) (P D : Z) (fP fD : Z -> Z) (m' : mem).
Context (H2 : two_pt s (n :: l) P fP D fD).
Context (Hm : forall q, kpage q -> q <> n -> same_page (k_phys s) m' q).

#[local] Lemma filled_page : kpage n /\ n ∉ l.
Proof.
  pose proof (tp_inv _ _ _ _ _ _ H2) as Hinv. split.
  - by pose proof (ki_pages _ _ Hinv) as [Hk _]%Forall_cons.
  - apply (NoDup_cons_1_1 _ _ (ki_nodup _ _ Hinv)).
Qed.

#[local] Lemma table_not_new Q q : pt_wf (k_phys s) Q (n :: l) -> pt_page (k_phys s) Q q ->
  kpage q /\ q <> n /\ same_page (k_phys s) m' q.
Proof.
  intros Hw Hq. destruct (pt_page_kpage _ _ _ _ Hw Hq) as [Hk Hn].
  assert (q <> n) by (intros ->; apply Hn; by left). auto.
Qed.

Lemma filled_tables Q : pt_wf (k_phys s) Q (n :: l) ->
  pt_wf m' Q l /\ (forall va, pte m' Q va = pte (k_phys s) Q va) /\
  (forall q, pt_page m' Q q <-> pt_page (k_phys s) Q q).
Proof.
  intros Hw.
  assert (same_page (k_phys s) m' Q) as HQ by (eapply (table_not_new Q); [done|by left]).
  split; [|split].
  - apply (pt_wf_sublist _ _ (n :: l)); [by intros x Hx; right|by eapply pt_wf_same].
  - intros va. apply pte_same. intros q Hq. by eapply table_not_new.
  - intros q. by apply pt_page_same.
Qed.

Lemma filled_two : two_pt (filled s n m') l P fP D fD.
Proof.
  destruct (filled_tables P (tp_P _ _ _ _ _ _ H2)) as (HP & HpP & HqP).
  destruct (filled_tables D (tp_D _ _ _ _ _ _ H2)) as (HD & HpD & HqD).
  destruct filled_page as [Hk Hn]. pose proof (tp_inv _ _ _ _ _ _ H2) as Hinv.
  constructor; [|done|done| | |].
  - apply kmem_inv_phys; [by apply kalloc_post_inv|]. intros p a Hp Ha.
    pose proof (ki_pages _ _ Hinv) as [_ Hps]%Forall_cons. rewrite Forall_forall in Hps.
    apply (Hm p); [by apply Hps|by intros ->|done].
  - intros q HqP' HqD'. by apply (tp_disj _ _ _ _ _ _ H2 q); [apply HqP|apply HqD].
  - intros va Hva. rewrite <-(tp_fP _ _ _ _ _ _ H2) by done. apply HpP.
  - intros va Hva. rewrite <-(tp_fD _ _ _ _ _ _ H2) by done. apply HpD.
Qed.

Lemma filled_outside r : outside s (n :: l) P D r ->
  r <> n /\ outside (filled s n m') l P D r /\ same_page (k_phys s) m' r /\
  refcount (filled s n m') r = refcount s r.
Proof.
  intros (Hk & Hl & HP & HD). destruct filled_page as [Hkn Hn].
  assert (r <> n) as Hne by (intros ->; apply Hl; by left).
  destruct (filled_tables P (tp_P _ _ _ _ _ _ H2)) as (_ & _ & HqP).
  destruct (filled_tables D (tp_D _ _ _ _ _ _ H2)) as (_ & _ & HqD).
  split; [done|]. split; [|split; [by apply Hm|]].
  - split; [done|]. split; [intros Hr; apply Hl; by right|]. split; [intros Hr%HqP|intros Hr%HqD]; auto.
  - change (refcount (kalloc_post s n) r = refcount s r). rewrite kalloc_post_refcount by done.
    by case_decide; [congruence|].
Qed.

Lemma filled_new : outside (filled s n m') l P D n /\ refcount (filled s n m') n = 1.
Proof.
  destruct filled_page as [Hkn Hn].
  destruct (filled_tables P (tp_P _ _ _ _ _ _ H2)) as (_ & _ & HqP).
  destruct (filled_tables D (tp_D _ _ _ _ _ _ H2)) as (_ & _ & HqD).
  split.
  - split; [done|]. split; [done|]. split.
    + intros Hq%HqP. by destruct (table_not_new P n (tp_P _ _ _ _ _ _ H2) Hq) as (_ & ? & _).
    + intros Hq%HqD. by destruct (table_not_new D n (tp_D _ _ _ _ _ _ H2) Hq) as (_ & ? & _).
  - change (refcount (kalloc_post s n) n = 1). rewrite kalloc_post_refcount by done. by case_decide.
Qed.

End Filled.

(** ** The fault *)

Lemma getcount s l q :
  kmem_inv s l -> kpage q -> getPhysicalPageRefCount (V2P q) s = Ret (refcount s q) s.
Proof.
  intros [_ _ _ _ Hlk] Hp. unfold getPhysicalPageRefCount. rewrite kpage_valid by done.
  pose proof (rc_in_range_kpage q Hp) as Hr.
  destruct s as [m [lk ul fl rc tot] ????]. cbn in Hlk. subst.
  unfold kmem_acquire, kmem_release, acquire, release, rc_get, gets, modify, bind, ret. cbn.
  by rewrite Hr.
Qed.

(** A process writes to a page that is present and read-only, and its page
    table is [P]; [D] is another one. *)
Section Fault.
Context (s : kst F) (l : list Z) (P D : Z) (fP fD : Z -> Z) (i : nat) (pr : proc) (va err : Z).
Let q := frame_of (fP va).
Context (H2 : two_pt s l P fP D fD).
Context (Hcur : k_curproc s = Some i) (Hpr : k_ptable s !! i = Some pr) (HP : p_pgdir pr = P).
Context (Hva : 0 <= va < KERNBASE) (Herr : has err PGFLT_P = true).
Context (Hpres : has (fP va) PTE_P = true) (Huser : has (fP va) PTE_U = true) (Hro : has (fP va) PTE_W = false).
Context (Hq : outside s l P D q).

#[local] Lemma fault_table : exists t, pd_tab (k_phys s) P (PDX va) = Some t.
Proof. apply present_tab. rewrite (tp_fP _ _ _ _ _ _ H2); [done|klia]. Qed.

#[local] Lemma fault_frame : PTE_ADDR (fP va) = V2P q.
Proof. symmetry. apply frame_pa. eapply two_pt_range; [done|klia]. Qed.

#[local] Lemma fault_reaches_cow t Q :
  pd_tab (k_phys s) P (PDX va) = Some t ->
  wp (fault_cow i P (t + 4 * PTX va) (fP va)) s Q -> wp (PageFault va err) s Q.
Proof.
  intros Ht HQ. unfold PageFault. wp_steps. rewrite Hcur, Herr. cbn [negb]. wp_steps.
  eapply wp_get_proc; [done|]. rewrite HP. destruct (Z.leb_spec KERNBASE va); [lia|]. wp_steps.
  eapply wp_eq; [eapply walk_hit; [apply H2|done]|].
  rewrite (entry_nonzero _ _ _ _ _ (tp_P _ _ _ _ _ _ H2) Ht). wp_steps.
  eapply wp_eq; [eapply load_entry; [apply H2|done]|].
  rewrite (tp_fP _ _ _ _ _ _ H2) by klia. rewrite Hpres, Huser. exact HQ.
Qed.

(** Nobody else uses the frame: it becomes writable. *)
Lemma fault_last_user : refcount s q = 1 ->
  wp (PageFault va err) s (fun _ s' =>
    two_pt s' l P (set_map fP va (Z.lor (fP va) PTE_W)) D fD /\ k_cr3 s' = V2P P /\
    (forall r, outside s l P D r -> outside s' l P D r /\ same_page (k_phys s) (k_phys s') r /\
       refcount s' r = refcount s r)).
Proof.
  intros Hone. destruct fault_table as [t Ht]. eapply fault_reaches_cow; [done|].
  pose proof (two_pt_range _ _ _ _ _ _ va H2 ltac:(klia)) as Her.
  unfold fault_cow. rewrite Hro. wp_steps. rewrite fault_frame.
  eapply wp_eq; [eapply getcount; [apply H2|apply Hq]|]. rewrite Hone. cbn [Z.ltb Z.eqb Z.compare Pos.compare Pos.compare_cont Pos.eqb]. wp_steps.
  eapply wp_mono; [apply (set_entry s l P fP D fD t va (Z.lor (fP va) PTE_W)); [done|klia| |done]|].
  { apply (lor_bound _ _ 32); unfold PTE_W; lia. }
  cbn beta. intros [] s1 (H21 & G1 & Ht1 & Hpp1). unfold lcr3. wp_steps.
  split; [by apply two_pt_cr3|]. split; [done|]. intros r Hr.
  destruct (outside_grow s l D P 0 s1 l r G1 Hpp1 (outside_sym _ _ _ _ _ Hr)) as (Ho & Hs & Hc).
  split; [by apply outside_sym|]. done.
Qed.

(** The page's entry after it has been copied to the page [n]. *)
Definition cow_pte (n : Z) : Z := make_pte (V2P n) (Z.lor PTE_W PTE_U).

(** The frame is shared: a new page is filled with its bytes, and the entry and
    the counts are updated. *)
#[local] Lemma fault_copies n l' t Q :
  l = n :: l' -> 2 <= refcount s q -> pd_tab (k_phys s) P (PDX va) = Some t ->
  wp (kstore32 (t + 4 * PTX va) (cow_pte n) ;;;
      decreasePhysicalPageRefCountByOne (V2P q) ;;;
      lcr3 (V2P P)) (filled s n (memmove (k_phys s) (V2P n) (V2P q) PGSIZE)) Q ->
  wp (PageFault va err) s Q.
Proof.
  intros El Hcnt Ht HQ. eapply fault_reaches_cow; [done|].
  pose proof (tp_inv _ _ _ _ _ _ H2) as Hinv. rewrite El in Hinv.
  pose proof (ki_pages _ _ Hinv) as [Hkn _]%Forall_cons.
  unfold fault_cow. rewrite Hro. apply wp_bind. rewrite fault_frame.
  eapply wp_eq; [eapply getcount; [done|apply Hq]|].
  destruct (Z.ltb_spec (refcount s q) 1); [lia|]. destruct (Z.eqb_spec (refcount s q) 1); [lia|].
  apply wp_bind. eapply wp_eq; [by eapply kalloc_head|].
  destruct (Z.eqb_spec n 0) as [E|_]; [rewrite E in Hkn; by apply kpage_nonzero in Hkn|].
  replace (Z.lor (Z.lor (Z.lor (V2P n) PTE_P) PTE_U) PTE_W) with (cow_pte n)
    by (unfold cow_pte, make_pte; rewrite <-!Z.lor_assoc; done).
  apply wp_bind. apply wp_modify. exact HQ.
Qed.

#[local] Lemma copied_page n : kpage n ->
  let m' := memmove (k_phys s) (V2P n) (V2P q) PGSIZE in
  (forall r, kpage r -> r <> n -> same_page (k_phys s) m' r) /\
  (forall o, 0 <= o < 4096 -> load8 m' (V2P n + o) = load8 (k_phys s) (V2P q + o)).
Proof.
  intros Hkn m'. split.
  - intros r Hr Hne a Ha. unfold m'. rewrite load8_memmove by klia.
    pose proof (kpage_disjoint n r Hkn Hr ltac:(done)). by case_decide; [klia|].
  - intros o Ho. unfold m'. rewrite load8_memmove by klia. case_decide; [|klia]. f_equal. lia.
Qed.

#[local] Lemma count_minus_one c : 1 <= c < 2 ^ 32 -> u32 (c + u32 (-1)) = c - 1.
Proof.
  intros. unfold u32. change (-1 mod 2 ^ 32) with (2 ^ 32 - 1).
  replace (c + (2 ^ 32 - 1)) with (c - 1 + 1 * 2 ^ 32) by lia.
  rewrite Z.mod_add by lia. apply Z.mod_small. lia.
Qed.

Lemma fault_shared n l' : l = n :: l' -> 2 <= refcount s q < 2 ^ 32 ->
  wp (PageFault va err) s (fun _ s' =>
    two_pt s' l' P (set_map fP va (cow_pte n)) D fD /\ k_cr3 s' = V2P P /\
    outside s' l' P D n /\ refcount s' n = 1 /\
    (forall o, 0 <= o < 4096 -> load8 (k_phys s') (V2P n + o) = load8 (k_phys s) (V2P q + o)) /\
    (forall r, outside s l P D r -> outside s' l' P D r /\ same_page (k_phys s) (k_phys s') r /\
       refcount s' r = refcount s r - if decide (r = q) then 1 else 0)).
Proof.
  intros El Hcnt. destruct fault_table as [t Ht]. eapply fault_copies; [done|lia|done|].
  pose proof H2 as H2'. rewrite El in H2'. destruct (filled_page _ _ _ _ _ _ _ H2') as [Hkn Hnl].
  destruct (copied_page n Hkn) as [Hm Hbytes]. set (m' := memmove _ _ _ _) in *.
  pose proof (filled_two s n l' P D fP fD m' H2' Hm) as H21.
  destruct (filled_new s n l' P D fP fD m' H2' Hm) as [Hon Hcn].
  assert (pd_tab (k_phys (filled s n m')) P (PDX va) = Some t) as Ht1.
  { rewrite (pd_tab_same (k_phys s)); [done| |apply PDX_range]. apply Hm; [apply H2'|].
    intros E. apply (pw_dir_free _ _ _ (tp_P _ _ _ _ _ _ H2')). rewrite E. by left. }
  apply wp_bind.
  eapply wp_mono; [apply (set_entry (filled s n m') l' P fP D fD t va (cow_pte n)); [done|klia| |done]|].
  { pose proof (kpage_V2P_range n Hkn) as (? & ? & ?). apply make_pte_range; [done|klia|vm_compute; split; done]. }
  cbn beta. intros [] s1 (H22 & G1 & Ht2 & Hpp1).
  assert (forall r, outside (filled s n m') l' P D r -> outside s1 l' P D r /\
    same_page (k_phys (filled s n m')) (k_phys s1) r /\ refcount s1 r = refcount (filled s n m') r) as Hout1.
  { intros r Hr. destruct (outside_grow _ l' D P 0 s1 l' r G1 Hpp1 (outside_sym _ _ _ _ _ Hr)) as (Ho & Hs & Hc).
    split; [by apply outside_sym|done]. }
  destruct (filled_outside s n l' P D fP fD m' H2' Hm q) as (Hqn & Hq1 & _ & Hqc); [by rewrite <-El|].
  destruct (Hout1 q Hq1) as ((_ & Hql & _) & _ & Hqc1). destruct (Hout1 n Hon) as (Hon1 & Hsn & Hcn1).
  apply wp_bind. eapply wp_eq; [apply modify_refcount; [apply H22|apply Hq]|]. unfold lcr3. wp_steps.
  rewrite Hqc1, Hqc, count_minus_one by lia.
  split; [apply two_pt_cr3, two_pt_refcount; [done|apply Hq|done]|]. split; [done|].
  split; [exact Hon1|]. split; [|split].
  - change (refcount (set_refcount s1 q (refcount s q - 1)) n = 1).
    rewrite set_refcount_refcount by (done || apply Hq). case_decide; [done|]. by rewrite Hcn1.
  - intros o Ho. rewrite <-Hbytes by done. apply Hsn. lia.
  - intros r Hr. rewrite El in Hr. destruct (filled_outside s n l' P D fP fD m' H2' Hm r Hr) as (_ & Hr1 & Hs1 & Hc1).
    destruct (Hout1 r Hr1) as (Hr2 & Hs2 & Hc2). split; [exact Hr2|]. split; [by eapply same_page_trans|].
    change (refcount (set_refcount s1 q (refcount s q - 1)) r = refcount s r - if decide (r = q) then 1 else 0).
    rewrite set_refcount_refcount by (apply Hr || apply Hq). rewrite Hc2, Hc1.
    do 2 case_decide; subst; try done; lia.
Qed.

End Fault.

(** ** What a process sees *)

(** The byte a process with the page table [pgdir] reads at [va], if it can. *)
Definition user_read (m : mem) (pgdir va : Z) : option Z :=
  match access true false m (V2P pgdir) va with
  | Some pa => Some (load8 m pa)
  | None => None
  end.

(** The error code of a fault of user code: whether the page is present, the access
    a write. *)
Definition user_fault_code (m : mem) (cr3 va : Z) (write : bool) : Z :=
  Z.lor (match access false false m cr3 va with Some _ => PGFLT_P | None => 0 end)
    (Z.lor (if write then PGFLT_WR else 0) PGFLT_US).

(** A process stores a byte at [va]; after a fault the store is tried again, and
    [fuel] faults are handled. *)
Fixpoint user_store (fuel : nat) (va b : Z) : M (kst F) unit := fun s =>
  match access true true (k_phys s) (k_cr3 s) va with
  | Some pa => Ret tt (s <| k_phys := store8 (k_phys s) pa b |>)
  | None =>
      match fuel with
      | O => NoFuel
      | S fuel => (PageFault va (user_fault_code (k_phys s) (k_cr3 s) va true) ;;; user_store fuel va b) s
      end
  end.

Lemma user_read_pte m pgdir l va :
  pt_wf m pgdir l -> user_read m pgdir va =
  if has (pte m pgdir va) PTE_P && has (pte m pgdir va) PTE_U then Some (load8 m (PTE_ADDR (pte m pgdir va) + va mod 4096)) else None.
Proof.
  intros Hw. unfold user_read. rewrite (access_pte _ _ l) by done. unfold allows. cbn [negb orb].
  rewrite andb_true_r. by destruct (_ && _).
Qed.

(** A fault on a page whose entry does not allow the access. *)
Lemma user_store_fault fuel va b s l P Q :
  pt_wf (k_phys s) P l -> k_cr3 s = V2P P -> let e := pte (k_phys s) P va in
  allows true true e = false ->
  (forall err, has err PGFLT_P = has e PTE_P -> wp (PageFault va err ;;; user_store fuel va b) s Q) ->
  wp (user_store (S fuel) va b) s Q.
Proof.
  intros Hw Hcr3 e He HQ. unfold wp. cbn [user_store]. rewrite Hcr3, (access_pte _ _ l) by done. fold e. rewrite He.
  apply HQ. unfold user_fault_code. rewrite (access_pte _ _ l) by done. fold e. unfold allows. cbn [negb orb].
  rewrite !andb_true_r. by destruct (has e PTE_P).
Qed.

Lemma user_store_hit fuel va b s l P (Q : unit -> kst F -> Prop) :
  pt_wf (k_phys s) P l -> k_cr3 s = V2P P -> let e := pte (k_phys s) P va in
  allows true true e = true -> Q tt (s <| k_phys := store8 (k_phys s) (PTE_ADDR e + va mod 4096) b |>) ->
  wp (user_store fuel va b) s Q.
Proof.
  intros Hw Hcr3 e He HQ. unfold wp. destruct fuel; cbn [user_store]; rewrite Hcr3, (access_pte _ _ l) by done; fold e; by rewrite He.
Qed.

(** The frames of the user part of a page table hold neither tables nor free
    pages. *)
Definition user_frames s (l : list Z) (P D : Z) (f : Z -> Z) : Prop :=
  forall va, 0 <= va < KERNBASE -> has (f va) PTE_P = true -> outside s l P D (frame_of (f va)).

(** Reading the same frame gives the same byte. *)
Lemma read_frame m m' e va :
  0 <= e < 2 ^ 32 -> same_page m m' (frame_of e) ->
  load8 m' (PTE_ADDR e + va mod 4096) = load8 m (PTE_ADDR e + va mod 4096).
Proof. intros He Hs. apply Hs. rewrite frame_pa by done. dlia. Qed.

(** An address keeps its byte when its entry and its frame stay. *)
Lemma user_read_same s s' l l' P fP D fD fP' fD' va :
  two_pt s l P fP D fD -> two_pt s' l' P fP' D fD' -> 0 <= va < KERNBASE -> fP' va = fP va ->
  (has (fP va) PTE_P = true -> same_page (k_phys s) (k_phys s') (frame_of (fP va))) ->
  user_read (k_phys s') P va = user_read (k_phys s) P va.
Proof.
  intros H2 H2' Hva E Hs. rewrite (user_read_pte _ _ l' va (tp_P _ _ _ _ _ _ H2')), (user_read_pte _ _ l va (tp_P _ _ _ _ _ _ H2)).
  rewrite (tp_fP _ _ _ _ _ _ H2'), (tp_fP _ _ _ _ _ _ H2), E by klia.
  destruct (has (fP va) PTE_P); [|done]. destruct (has (fP va) PTE_U); [|done]. cbn [andb]. f_equal. apply read_frame; [|by apply Hs].
  eapply two_pt_range; [done|klia].
Qed.

(** ** A store of the process *)

(** A byte of a frame changes. *)
Lemma two_pt_store s l P fP D fD r o b :
  two_pt s l P fP D fD -> outside s l P D r -> 0 <= o < 4096 ->
  two_pt (s <| k_phys := store8 (k_phys s) (V2P r + o) b |>) l P fP D fD /\
  (forall q, kpage q -> q <> r -> same_page (k_phys s) (store8 (k_phys s) (V2P r + o) b) q).
Proof.
  intros H2 (Hk & Hl & HP & HD) Ho. set (m' := store8 _ _ _).
  assert (forall q, kpage q -> q <> r -> same_page (k_phys s) m' q) as Hs.
  { intros q Hq Hne a Ha. pose proof (kpage_disjoint r q Hk Hq ltac:(done)). apply load8_store8_ne. lia. }
  assert (forall Q q, pt_wf (k_phys s) Q l -> ~ pt_page (k_phys s) Q r -> pt_page (k_phys s) Q q ->
    same_page (k_phys s) m' q) as Ht.
  { intros Q q Hw Hn Hq. apply Hs; [by eapply pt_page_kpage|by intros ->]. }
  split; [|done]. pose proof H2 as [H1 HwP HwD Hdis HfP HfD]. constructor.
  - apply kmem_inv_phys; [done|]. intros p a Hp Ha. apply (Hs p); [|by intros ->|done].
    pose proof (ki_pages _ _ H1) as Hps. rewrite Forall_forall in Hps. by apply Hps.
  - eapply pt_wf_same; [|done]. apply (Ht P); [done|done|by left].
  - eapply pt_wf_same; [|done]. apply (Ht D); [done|done|by left].
  - intros q. rewrite (pt_page_same (k_phys s) m' P), (pt_page_same (k_phys s) m' D); [by apply Hdis|..].
    + apply (Ht D); [done|done|by left].
    + apply (Ht P); [done|done|by left].
  - intros va Hva. rewrite <-HfP by done. apply pte_same. intros q. by apply (Ht P).
  - intros va Hva. rewrite <-HfD by done. apply pte_same. intros q. by apply (Ht D).
Qed.

(** A process stores a byte through its own page table, into a frame that no
    other page is mapped to: only that byte changes for it, and nothing for the
    other process. *)
Lemma user_store_two s l P fP D fD va b :
  two_pt s l P fP D fD -> k_cr3 s = V2P P -> 0 <= va < KERNBASE ->
  has (fP va) PTE_P = true -> has (fP va) PTE_W = true -> has (fP va) PTE_U = true ->
  user_frames s l P D fP -> user_frames s l P D fD ->
  (forall va', 0 <= va' < KERNBASE -> has (fP va') PTE_P = true ->
     frame_of (fP va') = frame_of (fP va) -> va' / 4096 = va / 4096) ->
  (forall va', 0 <= va' < KERNBASE -> has (fD va') PTE_P = true -> frame_of (fD va') <> frame_of (fP va)) ->
  wp (user_store 0 va b) s (fun _ s' =>
    (forall va', 0 <= va' < KERNBASE -> user_read (k_phys s') D va' = user_read (k_phys s) D va') /\
    (forall va', 0 <= va' < KERNBASE -> user_read (k_phys s') P va' =
       if decide (va' = va) then Some (b mod 256) else user_read (k_phys s) P va')).
Proof.
  intros H2 Hcr3 Hva HP HW HU HuP HuD HoP HoD. set (r := frame_of (fP va)) in *.
  pose proof (two_pt_range _ _ _ _ _ _ va H2 ltac:(klia)) as Her.
  assert (V2P r = PTE_ADDR (fP va)) as Hr by (by apply frame_pa).
  destruct (two_pt_store s l P fP D fD r (va mod 4096) b H2) as [H2' Hs]; [by apply HuP|dlia|].
  eapply user_store_hit; [apply H2|done|..]; rewrite (tp_fP _ _ _ _ _ _ H2) by klia; [unfold allows; by rewrite HP, HW, HU|].
  rewrite <-Hr. split.
  - intros va' Hva'. eapply (user_read_same s _ l l D fD P fP); [by apply two_pt_sym|by apply two_pt_sym|done|done|].
    intros Hp. apply Hs; [by apply HuD|by apply HoD].
  - intros va' Hva'. destruct (decide (va' / 4096 = va / 4096)) as [Epg|Hpg].
    + rewrite (user_read_pte _ _ l va' (tp_P _ _ _ _ _ _ H2')), (user_read_pte _ _ l va' (tp_P _ _ _ _ _ _ H2)).
      rewrite (tp_fP _ _ _ _ _ _ H2'), (tp_fP _ _ _ _ _ _ H2) by klia. replace (fP va') with (fP va).
      2:{ rewrite <-!(tp_fP _ _ _ _ _ _ H2) by klia. apply pte_page. lia. }
      rewrite HP, HU, <-Hr. kred. cbn [andb]. rewrite load8_store8. repeat case_decide; try done; dlia.
    + rewrite decide_False by (intros ->; done).
      eapply (user_read_same s _ l l P fP D fD); [done|done|done|done|].
      intros Hp. apply Hs; [by apply HuP|]. intros E. by apply Hpg, HoP.
Qed.

(** ** The fault and the store that is tried again *)

Lemma orW_has e f : has e f = true -> has (Z.lor e PTE_W) f = true.
Proof.
  unfold has. rewrite !negb_true_iff, !Z.eqb_neq, Z.land_lor_distr_l.
  intros H E. by apply Z.lor_eq_0_iff in E as [? _].
Qed.

Lemma orW_W e : has (Z.lor e PTE_W) PTE_W = true.
Proof.
  unfold has. rewrite negb_true_iff, Z.eqb_neq, Z.land_lor_distr_l.
  intros E. by apply Z.lor_eq_0_iff in E as [_ E].
Qed.

Lemma orW_frame e : frame_of (Z.lor e PTE_W) = frame_of e.
Proof. unfold frame_of, PTE_ADDR. by rewrite Z.land_lor_distr_l, Z.lor_0_r. Qed.

Lemma cow_pte_facts n : kpage n ->
  has (cow_pte n) PTE_P = true /\ has (cow_pte n) PTE_W = true /\ has (cow_pte n) PTE_U = true /\ frame_of (cow_pte n) = n.
Proof.
  intros Hk. pose proof (kpage_V2P_range n Hk) as (? & ? & ?). unfold cow_pte.
  assert (0 <= Z.lor PTE_W PTE_U < 4096) as Hf by (vm_compute; split; done).
  split; [by apply has_make_P|]. split; [by rewrite has_make by (done || (vm_compute; split; done))|].
  split; [by rewrite has_make by (done || (vm_compute; split; done))|]. unfold frame_of. rewrite PTE_ADDR_make by done.
  rewrite P2V_small by klia. rewrite V2P_kpage by done. lia.
Qed.

Section CowWrite.
Context (s : kst F) (l : list Z) (P D : Z) (fP fD : Z -> Z) (i : nat) (pr : proc) (va b : Z).
Let q := frame_of (fP va).
Context (H2 : two_pt s l P fP D fD) (Hcr3 : k_cr3 s = V2P P).
Context (HuP : user_frames s l P D fP) (HuD : user_frames s l P D fD).
Context (Hcur : k_curproc s = Some i) (Hpr : k_ptable s !! i = Some pr) (HP : p_pgdir pr = P).
Context (Hva : 0 <= va < KERNBASE).
Context (Hpres : has (fP va) PTE_P = true) (Huser : has (fP va) PTE_U = true) (Hro : has (fP va) PTE_W = false).

(** What the store does, with the page tables before it. *)
Definition store_seen (s' : kst F) : Prop :=
  (forall va', 0 <= va' < KERNBASE -> user_read (k_phys s') D va' = user_read (k_phys s) D va') /\
  (forall va', 0 <= va' < KERNBASE -> user_read (k_phys s') P va' =
     if decide (va' = va) then Some (b mod 256) else user_read (k_phys s) P va').

#[local] Lemma same_entry va' : 0 <= va' < KERNBASE -> va' / 4096 = va / 4096 -> fP va' = fP va.
Proof. intros Hr E. rewrite <-!(tp_fP _ _ _ _ _ _ H2) by klia. by apply pte_page. Qed.

(** After the fault both processes still read what they read before, and the
    page is mapped to a frame of the process's own. *)
#[local] Lemma store_after s1 l1 v :
  two_pt s1 l1 P (set_map fP va v) D fD -> k_cr3 s1 = V2P P ->
  has v PTE_P = true -> has v PTE_W = true -> has v PTE_U = true -> outside s1 l1 P D (frame_of v) ->
  (forall r, outside s l P D r -> outside s1 l1 P D r /\ same_page (k_phys s) (k_phys s1) r) ->
  (forall o, 0 <= o < 4096 -> load8 (k_phys s1) (V2P (frame_of v) + o) = load8 (k_phys s) (V2P q + o)) ->
  (forall va', 0 <= va' < KERNBASE -> has (fP va') PTE_P = true -> frame_of (fP va') = frame_of v -> va' / 4096 = va / 4096) ->
  (forall va', 0 <= va' < KERNBASE -> has (fD va') PTE_P = true -> frame_of (fD va') <> frame_of v) ->
  wp (user_store 0 va b) s1 (fun _ => store_seen).
Proof.
  intros H21 Hcr3' HvP HvW HvU Hov Hout Hbytes HoP HoD. set (fP' := set_map fP va v) in *.
  assert (forall va', va' / 4096 = va / 4096 -> fP' va' = v) as Hin by (intros; unfold fP', set_map; by case_decide).
  assert (forall va', va' / 4096 <> va / 4096 -> fP' va' = fP va') as Hnin by (intros; unfold fP', set_map; by case_decide).
  eapply wp_mono; [apply (user_store_two s1 l1 P fP' D fD va b H21 Hcr3' Hva); rewrite ?(Hin va) by done; try done|].
  - intros va' Hr Hp. destruct (decide (va' / 4096 = va / 4096)); [by rewrite Hin|].
    rewrite Hnin in * by done. by apply Hout, HuP.
  - intros va' Hr Hp. by apply Hout, HuD.
  - intros va' Hr Hp E. destruct (decide (va' / 4096 = va / 4096)); [done|].
    rewrite Hnin in * by done. by apply HoP.
  - cbn beta. intros [] s2 [HD' HP']. split; intros va' Hr; [rewrite HD'|rewrite HP']; try done.
    + eapply (user_read_same s s1 l l1 D fD P fP); [by apply two_pt_sym|by apply two_pt_sym|done|done|].
      intros Hp. by apply Hout, HuD.
    + case_decide; [done|]. destruct (decide (va' / 4096 = va / 4096)) as [E|E].
      * rewrite (user_read_pte _ _ l1 va' (tp_P _ _ _ _ _ _ H21)), (user_read_pte _ _ l va' (tp_P _ _ _ _ _ _ H2)).
        rewrite (tp_fP _ _ _ _ _ _ H21), (tp_fP _ _ _ _ _ _ H2) by klia.
        rewrite Hin, (same_entry va'), HvP, HvU, Hpres, Huser by done. cbn [andb]. f_equal.
        rewrite <-!frame_pa; [apply Hbytes; dlia|..].
        -- eapply two_pt_range; [done|klia].
        -- rewrite <-(Hin va) by done. eapply two_pt_range; [done|klia].
      * eapply (user_read_same s s1 l l1 P fP D fD); [done|done|done|by apply Hnin|].
        intros Hp. by apply Hout, HuP.
Qed.

Context (Hrc : 1 <= refcount s q < 2 ^ 32) (Hl : l <> []).
Context (HmineP : forall va', 0 <= va' < KERNBASE -> has (fP va') PTE_P = true -> frame_of (fP va') = q ->
  va' / 4096 = va / 4096 \/ 2 <= refcount s q).
Context (HmineD : forall va', 0 <= va' < KERNBASE -> has (fD va') PTE_P = true -> frame_of (fD va') = q ->
  2 <= refcount s q).

Lemma cow_write : wp (user_store 1 va b) s (fun _ => store_seen).
Proof.
  assert (outside s l P D q) as Hq by (by apply HuP).
  eapply user_store_fault; [apply H2|done|..]; rewrite (tp_fP _ _ _ _ _ _ H2) by klia; [unfold allows; by rewrite Hro, andb_false_r|].
  intros err Herr. rewrite Hpres in Herr. apply wp_bind.
  destruct (decide (refcount s q = 1)) as [H1|H1].
  - eapply wp_mono; [by eapply (fault_last_user s l P D fP fD i pr va err)|].
    cbn beta. intros [] s1 (H21 & Hcr31 & Hout).
    apply (store_after s1 l (Z.lor (fP va) PTE_W)); rewrite ?orW_frame; fold q; [exact H21|exact Hcr31|..].
    + by apply orW_has.
    + apply orW_W.
    + by apply orW_has.
    + by apply Hout.
    + intros r Hr. destruct (Hout r Hr) as (? & ? & _). done.
    + intros o Ho. apply (Hout q Hq). lia.
    + intros va' Hr Hp E. destruct (HmineP va' Hr Hp E); [done|lia].
    + intros va' Hr Hp E. specialize (HmineD va' Hr Hp E). lia.
  - assert (exists n l', l = n :: l') as (n & l' & El) by (clear -Hl; destruct l; eauto; done).
    assert (forall r, outside s l P D r -> r <> n) as Hne.
    { intros r (_ & Hn & _) ->. apply Hn. rewrite El. by left. }
    eapply wp_mono; [eapply (fault_shared s l P D fP fD i pr va err); try done; fold q; lia|].
    cbn beta. intros [] s1 (H21 & Hcr31 & Hon & Hcn & Hbytes & Hout).
    destruct (cow_pte_facts n) as (Hc1 & Hc2 & HcU & Hc3); [apply Hon|].
    apply (store_after s1 l' (cow_pte n)); rewrite ?Hc3; [exact H21|exact Hcr31|exact Hc1|exact Hc2|exact HcU|exact Hon|..].
    + intros r Hr. destruct (Hout r Hr) as (? & ? & _). done.
    + exact Hbytes.
    + intros va' Hr Hp E. by apply Hne in E; [|apply HuP].
    + intros va' Hr Hp E. by apply Hne in E; [|apply HuD].
Qed.

End CowWrite.

(** ** Two processes after fork *)

(** Changing the running process and the process table does not matter to the
    page tables. *)
Lemma two_pt_procs s l P fP D fD c t :
  two_pt s l P fP D fD -> two_pt (s <| k_curproc := c |> <| k_ptable := t |>) l P fP D fD.
Proof. intros [[] ? ? ? ? ?]. by constructor. Qed.

Lemma in_user_page sz stack va :
  stack mod 4096 = 0 -> 0 <= stack <= USERTOP -> 0 <= sz <= USERTOP -> in_user sz stack va ->
  exists a, a ∈ user_pages sz stack /\ a / 4096 = va / 4096 /\ 0 <= a < KERNBASE.
Proof.
  intros Hst Hst0 Hsz [Hh|Hh]; exists (va - va mod 4096); split; try (unfold heap_pages in *; kdlia);
    apply elem_of_app; [left|right]; apply elem_of_pages.
  - exists ((va - 4096) / 4096). unfold heap_pages in *. kdlia.
  - exists ((va - (USERTOP - stack)) / 4096). unfold stack_pages. kdlia.
Qed.

Lemma mapped_to_in f ps a : a ∈ ps -> 1 <= mapped_to f ps (frame_of (f a)).
Proof.
  intros (l1 & l2 & ->)%list_elem_of_split. rewrite mapped_to_app, mapped_to_cons, decide_True by done.
  pose proof (mapped_to_pos f l1 (frame_of (f a))). pose proof (mapped_to_pos f l2 (frame_of (f a))). lia.
Qed.

Lemma mapped_to_le f ps q : mapped_to f ps q <= Z.of_nat (length ps).
Proof. unfold mapped_to. pose proof (length_filter (fun a => frame_of (f a) = q) ps). lia. Qed.

Section Fork.
Context (s : kst F) (P d : Z) (l : list Z) (i : nat) (pr : proc) (sz : Z).
Let stack := p_stackSize pr.
Let ps := user_pages sz stack.
Let fP := pte (k_phys s) P.
Context (Hf : forkable s P d l i pr sz).
(** Other pages that happen to be mapped below KERNBASE are frames too. *)
Context (Hall : forall va, 0 <= va < KERNBASE -> has (fP va) PTE_P = true ->
  kpage (frame_of (fP va)) /\ (frame_of (fP va) ∉ d :: l) /\ ~ pt_page (k_phys s) P (frame_of (fP va))).

(** What a process reads if the copy is a copy. *)
Definition child_read va : option Z :=
  if decide (in_user sz stack va) then user_read (k_phys s) P va else None.

#[local] Lemma user_entry va : in_user sz stack va -> exists a, a ∈ ps /\ fP va = fP a /\ 0 <= va < KERNBASE.
Proof.
  intros Hu. destruct (fk_stack _ _ _ _ _ _ _ Hf) as [Hst Hst0].
  pose proof (fk_sz _ _ _ _ _ _ _ Hf).
  destruct (in_user_page sz stack va) as (a & Ha & E & Hr); [done|klia|klia|done|].
  exists a. split; [done|]. split; [by apply pte_page|kdlia].
Qed.

#[local] Lemma user_present va : in_user sz stack va -> has (fP va) PTE_P = true.
Proof. intros (a & Ha & -> & _)%user_entry. by apply (fk_user _ _ _ _ _ _ _ Hf). Qed.

Context (s1 : kst F) (l1 : list Z).
Context (H21 : two_pt s1 l1 P (parent_map s P sz stack) d (child_map s P sz stack)).
Context (Hout : forall q, kpage q -> q ∉ d :: l -> ~ pt_page (k_phys s) P q ->
  outside s1 l1 P d q /\ same_page (k_phys s) (k_phys s1) q /\
  refcount s1 q = refcount s q + mapped_to fP ps q).

#[local] Lemma parent_frame va : frame_of (parent_map s P sz stack va) = frame_of (fP va) /\
  has (parent_map s P sz stack va) PTE_P = has (fP va) PTE_P /\ has (parent_map s P sz stack va) PTE_U = has (fP va) PTE_U.
Proof.
  unfold parent_map. case_decide; [|done]. unfold frame_of. by rewrite clearW_addr, clearW_P, clearW_U.
Qed.

(** Both map the frames of the parent, read-only. *)
Lemma after_entries va : in_user sz stack va ->
  let eP := pte (k_phys s1) P va in let ed := pte (k_phys s1) d va in
  PTE_ADDR eP = PTE_ADDR (fP va) /\ PTE_ADDR ed = PTE_ADDR (fP va) /\ has eP PTE_W = false /\ has ed PTE_W = false.
Proof.
  intros Hu. destruct (user_entry va Hu) as (_ & _ & _ & Hva). cbv zeta.
  rewrite (tp_fP _ _ _ _ _ _ H21), (tp_fD _ _ _ _ _ _ H21) by klia. unfold parent_map, child_map. fold (fP va).
  rewrite !decide_True by done. by rewrite clearW_addr, clearW_W.
Qed.

#[local] Lemma child_frame va : 0 <= va < KERNBASE -> has (child_map s P sz stack va) PTE_P = true ->
  in_user sz stack va /\ child_map s P sz stack va = clearW (fP va) /\
  frame_of (child_map s P sz stack va) = frame_of (fP va).
Proof.
  intros Hva. unfold child_map. case_decide as Hu.
  - intros _. unfold frame_of. by rewrite clearW_addr.
  - rewrite kernel_map_user by klia. done.
Qed.

#[local] Lemma after_frames :
  user_frames s1 l1 P d (parent_map s P sz stack) /\ user_frames s1 l1 P d (child_map s P sz stack).
Proof.
  split; intros va Hva Hp.
  - destruct (parent_frame va) as (-> & E & _). rewrite E in Hp. destruct (Hall va Hva Hp) as (?&?&?). by apply Hout.
  - destruct (child_frame va Hva Hp) as (Hu & _ & ->). apply user_present in Hu.
    destruct (Hall va Hva Hu) as (?&?&?). by apply Hout.
Qed.

(** The copy does not change what the parent reads, and gives it to the child. *)
Lemma after_reads va : 0 <= va < KERNBASE ->
  user_read (k_phys s1) P va = user_read (k_phys s) P va /\ user_read (k_phys s1) d va = child_read va.
Proof.
  intros Hva.
  assert (forall e, e = fP va \/ e = clearW (fP va) -> has (fP va) PTE_P = true ->
    load8 (k_phys s1) (PTE_ADDR e + va mod 4096) = load8 (k_phys s) (PTE_ADDR (fP va) + va mod 4096)) as Hsame.
  { intros e He Hp. destruct (Hall va Hva Hp) as (?&?&?).
    replace (PTE_ADDR e) with (PTE_ADDR (fP va)) by (destruct He as [->| ->]; [done|by rewrite clearW_addr]).
    apply read_frame; [|by apply Hout]. unfold fP, pte. destruct (pd_tab _ _ _); [apply load32_range|lia]. }
  pose proof (fk_wf _ _ _ _ _ _ _ Hf) as HwP.
  rewrite (user_read_pte _ _ l1 va (tp_P _ _ _ _ _ _ H21)), (user_read_pte _ _ l1 va (tp_D _ _ _ _ _ _ H21)).
  rewrite (user_read_pte _ _ _ va HwP) at 1.
  rewrite (tp_fP _ _ _ _ _ _ H21), (tp_fD _ _ _ _ _ _ H21) by klia. fold (fP va). split.
  - destruct (parent_frame va) as (_ & -> & ->). destruct (has (fP va) PTE_P) eqn:Hp; [|done].
    destruct (has (fP va) PTE_U); [|done]. cbn [andb]. f_equal.
    apply Hsame; [|done]. unfold parent_map. fold (fP va). by case_decide; [right|left].
  - unfold child_read, child_map. fold (fP va). case_decide as Hu.
    + rewrite clearW_P, clearW_U, (user_read_pte _ _ _ va HwP). fold (fP va). rewrite user_present by done.
      destruct (has (fP va) PTE_U); [|done]. cbn [andb]. f_equal.
      apply Hsame; [by right|by apply user_present].
    + rewrite kernel_map_user by klia. done.
Qed.

(** Every page of the user part is shared. *)
#[local] Lemma after_shared va : in_user sz stack va ->
  2 <= refcount s1 (frame_of (fP va)) < 2 ^ 32.
Proof.
  intros (a & Ha & E & _)%user_entry. rewrite E. destruct (fk_user _ _ _ _ _ _ _ Hf a Ha) as (Hp & Hk & Hn & HnP & H1 & H2').
  fold fP stack ps in H1, H2', Hk, Hn, HnP. destruct (Hout _ Hk Hn HnP) as (_ & _ & ->). pose proof (mapped_to_in fP ps a Ha). lia.
Qed.

(** Either of the two processes, running, writes to a page of the user part. *)
Lemma after_write Q O fQ fO j prj t va b :
  two_pt s1 l1 Q fQ O fO ->
  (forall x, outside s1 l1 P d x -> outside s1 l1 Q O x) ->
  user_frames s1 l1 P d fQ -> user_frames s1 l1 P d fO ->
  fQ va = clearW (fP va) ->
  t !! j = Some prj -> p_pgdir prj = Q -> in_user sz stack va -> has (fP va) PTE_U = true ->
  l1 <> [] ->
  let s2 := s1 <| k_curproc := Some j |> <| k_ptable := t |> <| k_cr3 := V2P Q |> in
  wp (user_store 1 va b) s2 (fun _ s3 =>
    (forall va', 0 <= va' < KERNBASE -> user_read (k_phys s3) O va' = user_read (k_phys s1) O va') /\
    (forall va', 0 <= va' < KERNBASE -> user_read (k_phys s3) Q va' =
       if decide (va' = va) then Some (b mod 256) else user_read (k_phys s1) Q va')).
Proof.
  intros H2 Hsub HuQ HuO EQ Hj HQ Hu HU Hl1 s2.
  destruct (user_entry va Hu) as (a & _ & _ & Hva). pose proof (after_shared va Hu) as Hrc.
  assert (frame_of (fQ va) = frame_of (fP va)) as EF by (rewrite EQ; unfold frame_of; by rewrite clearW_addr).
  apply (cow_write s2 l1 Q O fQ fO j prj va b); try done.
  - by apply two_pt_cr3, two_pt_procs.
  - intros x Hx Hp. by apply Hsub, HuQ.
  - intros x Hx Hp. by apply Hsub, HuO.
  - rewrite EQ, clearW_P. by apply user_present.
  - by rewrite EQ, clearW_U.
  - by rewrite EQ, clearW_W.
  - rewrite EF. change (1 <= refcount s1 (frame_of (fP va)) < 2 ^ 32). lia.
  - intros x Hx Hp E. right. rewrite EF. change (2 <= refcount s1 (frame_of (fP va))). lia.
  - intros x Hx Hp E. rewrite EF. change (2 <= refcount s1 (frame_of (fP va))). lia.
Qed.

End Fork.


End CopyOnWrite.

(** ** A process to fork *)

Module CowWitness.

#[local] Existing Instance boot_image.

#[local] Instance no_files : FileSys unit :=
  {| fs_readi _ _ _ := ret (-1, []); fs_ReadSwapFile _ _ _ := ret (-1, []); fs_WriteSwapFile _ _ _ := ret (-1) |}.

(** A process with a page of stack. *)
Definition small_proc : proc := proc0 <| p_stackSize := 4096 |>.
Definition one_proc : kst unit := (boot tt) <| k_curproc := Some 0%nat |> <| k_ptable := [small_proc] |>.

(** A page of memory is mapped at [va], next to what is mapped already. *)
Lemma map_user (s : kst unit) (l : list Z) (P va f : Z) :
  kmem_inv s l -> pt_wf (k_phys s) P l -> l <> [] -> va mod 4096 = 0 -> 0 <= va < KERNBASE ->
  kpage f -> f ∉ l -> ~ pt_page (k_phys s) P f -> has (pte (k_phys s) P va) PTE_P = false ->
  exists s' n, (n <= 1)%nat /\ pt_grow n s l P s' (drop n l) /\
    (forall va', 0 <= va' < 2 ^ 32 -> pte (k_phys s') P va' =
       if decide (va' / 4096 = va / 4096) then cow_pte f else pte (k_phys s) P va').
Proof.
  intros Hinv Hwf Hl Hva Hr Hk Hfl Hfp Hfree.
  pose proof (kpage_V2P_range f Hk) as (? & ? & ?).
  assert (tables_bound (k_phys s) P va (va + PGSIZE - 4096) <= 1) as Hb.
  { etransitivity; [apply tables_bound_le|]. unfold PGSIZE. rewrite Z.add_simpl_r. lia. }
  destruct (wp_elim _ _ _ (map_region s l P va PGSIZE (V2P f) (Z.lor PTE_W PTE_U) Hinv Hwf Hva eq_refl
    ltac:(lia) ltac:(klia) ltac:(klia) ltac:(done) ltac:(klia) ltac:(klia) ltac:(vm_compute; split; done)
    ltac:(intros va' Hva'; rewrite (pte_page _ _ va' va) by kdlia; done)
    ltac:(destruct l; cbn [length]; [done|lia])))
    as (r & s' & _ & n & l' & _ & G & Hn & Hp).
  exists s', n. split; [lia|]. rewrite <-(pg_free _ _ _ _ _ _ G). split; [done|].
  intros va' Hva'. rewrite Hp by done. do 2 case_decide; try done; try kdlia.
  unfold cow_pte. f_equal. kdlia.
Qed.

(** Two pages are taken from the free list for frames. *)
Lemma two_frames (s : kst unit) P f1 f2 l :
  kmem_inv s (P :: f1 :: f2 :: l) ->
  exists s', kmem_inv s' l /\ pt_wf (k_phys s') P l /\ (forall va, pte (k_phys s') P va = 0) /\
    (forall q, pt_page (k_phys s') P q -> q = P) /\ refcount s' f1 = 1 /\ refcount s' f2 = 1 /\
    s' = s <| k_phys := k_phys s' |> <| k_mem := k_mem s' |>.
Proof.
  intros Hinv. destruct (new_pgdir_ok s P _ Hinv) as (H1 & Hw & Ht & Hz & _).
  pose proof (kalloc_post_inv _ _ _ H1) as H3. pose proof (kalloc_post_inv _ _ _ H3) as H4.
  pose proof (ki_pages _ _ H1) as [Hk1 [Hk2 _]%Forall_cons]%Forall_cons.
  pose proof (ki_nodup _ _ H1) as [Hn1 _]%NoDup_cons.
  eexists. split; [exact H4|]. split; [|split; [exact Hz|split; [|split; [|split; [|by destruct s]]]]].
  - eapply pt_wf_sublist; [|exact Hw]. intros x Hx. by do 2 right.
  - intros q [->|(x & Hx & E)]; [done|]. change (pd_tab (k_phys (new_pgdir s P)) P x = Some q) in E.
    by rewrite Ht in E.
  - rewrite !kalloc_post_refcount by done. repeat case_decide; done.
  - rewrite !kalloc_post_refcount by done. by case_decide.
Qed.

(** A page table with one page of heap and one of stack. *)
Definition two_user_pages (f1 f2 va : Z) : Z :=
  if decide (va / 4096 = (USERTOP - 4096) / 4096) then cow_pte f2
  else if decide (va / 4096 = 1) then cow_pte f1 else 0.

(** A page that is a frame of the process. *)
Definition user_frame (s : kst unit) (P : Z) (l : list Z) (f : Z) : Prop :=
  kpage f /\ (f ∉ l) /\ ~ pt_page (k_phys s) P f /\ refcount s f = 1.

Lemma two_mapped : exists (s : kst unit) P f1 f2 l,
  kmem_inv s l /\ pt_wf (k_phys s) P l /\ (70 <= length l)%nat /\
  user_frame s P l f1 /\ user_frame s P l f2 /\
  (forall va, 0 <= va < 2 ^ 32 -> pte (k_phys s) P va = two_user_pages f1 f2 va) /\
  k_curproc s = Some 0%nat /\ k_ptable s = [small_proc].
Proof.
  destruct (KallocWitness.some_pages 80 one_proc ltac:(lia)) as (m & k & Hinv).
  remember (rev (pages 0x80200000 80)) as l0 eqn:El0.
  assert (length l0 = 80%nat) as Hlen by (by subst l0).
  destruct l0 as [|P [|f1 [|f2 l]]]; try done. clear El0. cbn [length] in Hlen.
  destruct (two_frames _ _ _ _ _ Hinv) as (s1 & H1 & Hw1 & Hz1 & Hpp1 & Hc1 & Hc2 & R1).
  pose proof (ki_pages _ _ Hinv) as [HkP [Hk1 [Hk2 _]%Forall_cons]%Forall_cons]%Forall_cons.
  pose proof (ki_nodup _ _ Hinv) as Hnd.
  assert (P <> f1 /\ P <> f2 /\ f1 <> f2 /\ (f1 ∉ l) /\ (f2 ∉ l)) as (Hne1 & Hne2 & Hne & Hf1 & Hf2).
  { apply NoDup_cons in Hnd as [Ha [Hb [Hc _]%NoDup_cons]%NoDup_cons]. set_solver. }
  destruct (map_user s1 l P 4096 f1) as (s2 & n2 & Hn2 & G2 & Hp2); try done; [by destruct l|by intros ?%Hpp1|by rewrite Hz1|].
  assert (forall q, pt_page (k_phys s2) P q -> q = P \/ q ∈ l) as Hpp2.
  { intros q Hq. destruct (pg_pages _ _ _ _ _ _ G2 q Hq) as [?%Hpp1|?]; auto. }
  destruct (map_user s2 (drop n2 l) P (USERTOP - 4096) f2) as (s3 & n3 & Hn3 & G3 & Hp3);
    [apply G2|apply G2| |done|klia|done| | | |].
  { intros E%(f_equal length). rewrite length_drop in E. cbn in E. lia. }
  { intros Hin. apply Hf2. rewrite <-(take_drop n2 l). apply elem_of_app. by right. }
  { intros [?|?]%Hpp2; congruence. }
  { rewrite Hp2, decide_False, Hz1 by (done || klia). done. }
  pose proof (pt_grow_trans _ _ _ _ _ _ _ _ _ G2 G3) as G. rewrite drop_drop in G.
  assert (forall f, kpage f -> f <> P -> f ∉ l -> refcount s1 f = 1 -> user_frame s3 P (drop (n2 + n3) l) f) as Huf.
  { intros f Hk HneP Hf Hc. split; [done|]. split; [|split].
    - intros Hin. apply Hf. rewrite <-(take_drop (n2 + n3) l). apply elem_of_app. by right.
    - intros [?%Hpp1|?]%(pg_pages _ _ _ _ _ _ G); congruence.
    - by rewrite (pg_count _ _ _ _ _ _ G). }
  exists s3, P, f1, f2, (drop (n2 + n3) l).
  split; [apply G|]. split; [apply G|]. split; [rewrite length_drop; lia|].
  split; [by apply Huf|]. split; [by apply Huf|]. split.
  - intros va Hva. rewrite Hp3, Hp2, Hz1 by done. done.
  - rewrite (pg_rest _ _ _ _ _ _ G), R1. done.
Qed.

Lemma forkable_example : exists (s : kst unit) P d l,
  let fP := pte (k_phys s) P in
  forkable s P d l 0 small_proc 8192 /\ (64 + length (user_pages 8192 4096) < length l)%nat /\
  (forall va, 0 <= va < KERNBASE -> has (fP va) PTE_P = true ->
     kpage (frame_of (fP va)) /\ (frame_of (fP va) ∉ d :: l) /\ ~ pt_page (k_phys s) P (frame_of (fP va))) /\
  has (fP 4096) PTE_U = true.
Proof.
  destruct two_mapped as (s & P & f1 & f2 & l & Hinv & Hw & Hlen & Hf1 & Hf2 & Hp & Hcur & Hpt).
  destruct l as [|d l]; [cbn in Hlen; lia|]. cbn [length] in Hlen. exists s, P, d, l. cbv zeta.
  destruct (cow_pte_facts f1) as (HP1 & _ & _ & HF1); [apply Hf1|].
  destruct (cow_pte_facts f2) as (HP2 & _ & _ & HF2); [apply Hf2|].
  assert (forall va, 0 <= va < KERNBASE -> has (pte (k_phys s) P va) PTE_P = true ->
    user_frame s P (d :: l) (frame_of (pte (k_phys s) P va))) as Hall.
  { intros va Hva. rewrite Hp by klia. unfold two_user_pages. repeat case_decide; [by rewrite HF2|by rewrite HF1|done]. }
  assert (forall a, a ∈ user_pages 8192 4096 -> has (pte (k_phys s) P a) PTE_P = true /\ 0 <= a < KERNBASE) as Hus.
  { intros a Ha. change (user_pages 8192 4096) with [4096; USERTOP - 4096] in Ha.
    rewrite !elem_of_cons in Ha. destruct Ha as [->|[->|[]%elem_of_nil]]; (split; [|klia]); rewrite Hp by klia; [exact HP1|exact HP2]. }
  assert (length (user_pages 8192 4096) = 2%nat) as Hlu by reflexivity.
  split; [|split; [rewrite Hlu; lia|split]].
  - constructor; change (p_stackSize small_proc) with 4096; [exact Hinv|exact Hw|exact Hcur| |split; [reflexivity|klia]|klia| |rewrite Hlu; lia].
    + by rewrite Hpt.
    + intros a Ha. destruct (Hus a Ha) as [HPa Hra]. destruct (Hall a Hra HPa) as (Hk & Hn & HnP & Hc). cbv zeta.
      rewrite Hc. pose proof (mapped_to_le (pte (k_phys s) P) (user_pages 8192 4096) (frame_of (pte (k_phys s) P a))) as Hm.
      rewrite Hlu in Hm. split; [exact HPa|]. split; [exact Hk|]. split; [exact Hn|]. split; [exact HnP|]. lia.
  - intros va Hva HPa. destruct (Hall va Hva HPa) as (?&?&?&_). done.
  - rewrite Hp by klia. unfold two_user_pages. rewrite decide_False, decide_True by (done || klia).
    destruct Hf1 as (Hk1 & _). pose proof (kpage_V2P_range f1 Hk1) as (? & ? & ?).
    unfold cow_pte. by rewrite has_make by (done || (vm_compute; split; done)).
Qed.


End CowWitness.
