(* ===== verification/Faults.v ===== *)
(** Faults on pages that are not present, PageFault and stackGrow of
    src/src/vm.c: the null page kills, the stack grows by a page at a time, and a
    page is mapped anywhere else, also above KERNBASE. *)

From stdpp Require Import base gmap list strings.
From Stdlib Require Import ZArith Lia.
From S2P Require Import Prelude Mem Str Mmu State Kalloc MemTable MemList Vm PageTable AddressSpace CopyUvm CopyOnWrite.

Section Faults.
Context {F : Type} {KI : KernelImage} {FS : FileSys F}.
Implicit Types s : kst F.

(** ** Is the page swapped out? *)

Lemma PTE_ADDR_P2V e : 0 <= e < 2 ^ 32 -> PTE_ADDR (P2V e) = P2V (PTE_ADDR e).
Proof. intros. rewrite !PTE_ADDR_eq. unfold P2V, u32. kdlia. Qed.

Lemma fault_swapped_ok s P l va :
  pt_wf (k_phys s) P l -> fault_swapped P va s = Ret (has (pte (k_phys s) P va) PTE_PG) s.
Proof.
  intros Hwf. pose proof (PDX_range va) as Hd. pose proof (PTX_range va) as Hx.
  apply wp_run. unfold fault_swapped. wp_steps. eapply wp_eq; [apply kload_page; [apply Hwf|lia]|].
  pose proof (load32_range (k_phys s) (V2P P + 4 * PDX va)) as Hr.
  unfold pte. destruct (pd_tab (k_phys s) P (PDX va)) as [t|] eqn:Et.
  - pose proof (pw_tab _ _ _ Hwf _ _ Hd Et) as (Hk & _). unfold pd_tab in Et.
    destruct (has _ PTE_P); [|done]. injection Et as Et. wp_steps.
    rewrite PTE_ADDR_P2V, Et by done. eapply wp_eq; [apply kload_page; [done|lia]|]. by wp_steps.
  - unfold pd_tab in Et. destruct (has _ PTE_P); [done|]. by wp_steps.
Qed.

(** The state after a process has been marked as killed. *)
Definition killed s (i : nat) (pr : proc) : kst F :=
  s <| k_ptable := <[i := pr <| p_killed := true |>]> (k_ptable s) |>.

Section OneProcess.
Context (s : kst F) (i : nat) (pr : proc) (P : Z) (l : list Z).
Context (Hcur : k_curproc s = Some i) (Hpr : k_ptable s !! i = Some pr) (HP : p_pgdir pr = P).
Context (Hwf : pt_wf (k_phys s) P l).

#[local] Lemma not_present_step va err Q :
  has err PGFLT_P = false -> has (pte (k_phys s) P va) PTE_PG = false ->
  wp (fault_not_present i va) s Q -> wp (PageFault va err) s Q.
Proof. intros He Hpg HQ. unfold PageFault. wp_steps. rewrite He, Hcur. cbn [negb]. by wp_steps. Qed.

Lemma null_fault va err :
  has err PGFLT_P = false -> has (pte (k_phys s) P va) PTE_PG = false -> va < PGSIZE ->
  wp (PageFault va err) s (fun _ s' => s' = killed s i pr).
Proof.
  intros He Hpg Hva. apply not_present_step; [done..|]. unfold fault_not_present. wp_steps.
  eapply wp_get_proc; [done|]. rewrite HP. wp_steps. eapply wp_eq; [by eapply fault_swapped_ok|].
  rewrite Hpg. destruct (Z.ltb_spec va PGSIZE); [|lia]. unfold kill_proc. by eapply wp_upd_proc.
Qed.

(** A fault on a page that is present but not the process's to use. *)
Lemma protection_fault va err :
  has err PGFLT_P = true -> 0 <= va < 2 ^ 32 ->
  KERNBASE <= va \/ has (pte (k_phys s) P va) PTE_P = false \/ has (pte (k_phys s) P va) PTE_U = false ->
  wp (PageFault va err) s (fun _ s' => s' = killed s i pr).
Proof.
  intros He Hva Hbad. unfold PageFault. wp_steps. rewrite He, Hcur. cbn [negb]. wp_steps.
  eapply wp_get_proc; [done|]. rewrite HP.
  assert (wp (kill_proc i) s (fun _ s' => s' = killed s i pr)) as Hkill by (unfold kill_proc; by eapply wp_upd_proc).
  destruct (Z.leb_spec KERNBASE va); [done|]. wp_steps.
  destruct (pd_tab (k_phys s) P (PDX va)) as [t|] eqn:Et.
  - eapply wp_eq; [by eapply walk_hit|]. rewrite (entry_nonzero _ _ _ _ _ Hwf Et). wp_steps.
    eapply wp_eq; [by eapply load_entry|].
    destruct Hbad as [?|[-> | ->]]; [lia|done|]. by rewrite orb_true_r.
  - eapply wp_eq; [by eapply walk_miss|]. done.
Qed.

End OneProcess.

(** ** The stack *)

Lemma table_inv_rest s s' i p pages l :
  k_mte s' = k_mte s -> k_mtp s' = k_mtp s -> k_ptable s' = k_ptable s ->
  table_inv s i p pages l -> table_inv s' i p pages l.
Proof. intros E1 E2 E3 []. constructor; rewrite ?E1, ?E2, ?E3; done. Qed.

(** The kernel's view of a process: page table, memory table and free pages. *)
Record proc_ok s (i : nat) (pr : proc) (l : list Z) (pages : list Z) (lq : list (Z * Z)) : Prop := {
  po_cur : k_curproc s = Some i;
  po_inv : kmem_inv s l;
  po_wf : pt_wf (k_phys s) (p_pgdir pr) l;
  po_table : table_inv s i pr pages lq;
  po_stack : p_stackSize pr mod 4096 = 0 /\ 0 <= p_stackSize pr <= USERTOP;
  po_sz : 0 <= p_sz pr
}.

(** The first address of the stack. *)
Definition stack_border (pr : proc) : Z := USERTOP - p_stackSize pr.

(** The process after its stack has grown: it is not killed, and only the stack
    size and the list of its pages have changed. *)
Definition grown_proc (pr : proc) (e t : Z) : proc :=
  pr <| p_MemoryListHead := e |> <| p_MemoryListTail := t |> <| p_MemoryEntryNum ::= fun n => n + 1 |>
     <| p_stackSize ::= fun n => u32 (n + PGSIZE) |>.

(** A new page [n] full of zeros has been mapped at [a]; tables may have been
    taken from [l]. *)
Record page_added s (P a n : Z) (l : list Z) s' : Prop := {
  pa_map : forall va, 0 <= va < 2 ^ 32 -> pte (k_phys s') P va = set_map (pte (k_phys s) P) a (cow_pte n) va;
  pa_zero : forall o, 0 <= o < 4096 -> load8 (k_phys s') (V2P n + o) = 0;
  pa_same : forall q, kpage q -> q ∉ n :: l -> ~ pt_page (k_phys s) P q -> same_page (k_phys s) (k_phys s') q;
  pa_pages : forall q, pt_page (k_phys s') P q -> pt_page (k_phys s) P q \/ q ∈ l;
  pa_cr3 : k_cr3 s' = k_cr3 s
}.

Lemma new_page s P n l : kmem_inv s (n :: l) -> pt_wf (k_phys s) P (n :: l) ->
  kpage n /\ (n ∉ l) /\ ~ pt_page (k_phys s) P n.
Proof.
  intros Hinv Hwf. pose proof (ki_pages _ _ Hinv) as [Hk _]%Forall_cons.
  split; [done|]. split; [apply (NoDup_cons_1_1 _ _ (ki_nodup _ _ Hinv))|].
  intros Hp. destruct (pt_page_kpage _ _ _ _ Hwf Hp) as [_ Hn]. apply Hn. by left.
Qed.

Record stack_grown s i pr n l pages lq s' : Prop := {
  sg_rest : exists k e t, (k <= 1)%nat /\
    proc_ok s' i (grown_proc pr e t) (drop k l) pages ((e, stack_border pr - 4096) :: lq);
  sg_added : page_added s (p_pgdir pr) (stack_border pr - 4096) n l s'
}.

Section StackGrow.
Context (s : kst F) (i : nat) (pr : proc) (n : Z) (l : list Z) (pages : list Z) (lq : list (Z * Z)).
Context (Hok : proc_ok s i pr (n :: l) pages lq) (Hl : l <> []).
Let P := p_pgdir pr.
Let a := stack_border pr - 4096.
Context (Hgap : p_sz pr + PGSIZE <= stack_border pr).
Context (Hfree : has (pte (k_phys s) P a) PTE_P = false) (Hnew : a ∉ lq.*2).
Context (Hroom : Z.of_nat (length lq) < 340 * Z.of_nat (length pages))
        (Htotal : Z.of_nat (length lq) < MEMORY_TABLE_TOTAL_ENTRYS).

#[local] Lemma border_range : a mod 4096 = 0 /\ 0 <= a < KERNBASE /\ p_stackSize pr + 4096 <= USERTOP.
Proof.
  destruct (po_stack _ _ _ _ _ _ Hok) as [Hst Hst0]. pose proof (po_sz _ _ _ _ _ _ Hok).
  unfold a, stack_border in *. kdlia.
Qed.

#[local] Lemma new_stack_page : kpage n /\ (n ∉ l) /\ ~ pt_page (k_phys s) P n.
Proof. apply new_page; apply Hok. Qed.

(** Mapping the new page, before it is cleared. *)
#[local] Lemma grow_map :
  wp (mappages P a PGSIZE (V2P n) (Z.lor PTE_W PTE_U)) (kalloc_post s n) (fun r s1 => r = 0 /\ exists k,
    (k <= 1)%nat /\ pt_grow k (kalloc_post s n) l P s1 (drop k l) /\
    (forall va, 0 <= va < 2 ^ 32 -> pte (k_phys s1) P va = set_map (pte (k_phys s) P) a (cow_pte n) va)).
Proof.
  destruct border_range as (Ha & Har & _). destruct new_stack_page as (Hk & Hn & Hnp).
  pose proof (kpage_V2P_range n Hk) as (? & ? & ?).
  pose proof (kalloc_post_inv _ _ _ (po_inv _ _ _ _ _ _ Hok)) as Hinv.
  assert (pt_wf (k_phys (kalloc_post s n)) P l) as Hwf.
  { eapply pt_wf_sublist; [|exact (po_wf _ _ _ _ _ _ Hok)]. intros x Hx. by right. }
  assert (tables_bound (k_phys s) P a (a + PGSIZE - 4096) <= 1) as Hb.
  { etransitivity; [apply tables_bound_le|]. unfold PGSIZE. rewrite Z.add_simpl_r. lia. }
  assert (0 <= Z.lor PTE_W PTE_U < 4096) by (vm_compute; split; done).
  eapply wp_mono; [apply (map_region (kalloc_post s n) l P a PGSIZE (V2P n)); try done; try klia|].
  - intros va Hva. rewrite (pte_page _ _ va a) by kdlia. done.
  - change (k_phys (kalloc_post s n)) with (k_phys s). destruct l; cbn [length]; [done|lia].
  - cbn beta. intros r s1 (k & l1 & -> & G & Hk1 & Hp). split; [done|]. exists k.
    change (k_phys (kalloc_post s n)) with (k_phys s) in Hk1.
    split; [lia|]. rewrite <-(pg_free _ _ _ _ _ _ G). split; [done|].
    intros va Hva. rewrite Hp by done. unfold set_map. repeat case_decide; try kdlia; [|done].
    unfold cow_pte. f_equal. kdlia.
Qed.

(** Recording it and clearing it. *)
#[local] Lemma grow_finish s1 k e t m' :
  pt_grow k (kalloc_post s n) l P s1 (drop k l) -> (k <= 1)%nat ->
  (forall va, 0 <= va < 2 ^ 32 -> pte (k_phys s1) P va = set_map (pte (k_phys s) P) a (cow_pte n) va) ->
  let p' := pr <| p_MemoryListHead := e |> <| p_MemoryListTail := t |> <| p_MemoryEntryNum ::= fun n => n + 1 |> in
  table_inv (list_post s1 i m' p') i p' pages ((e, a) :: lq) ->
  stack_grown s i pr n l pages lq
    (s1 <| k_mte := m' |> <| k_phys := memset (k_phys s1) (V2P n) 0 PGSIZE |>
        <| k_ptable := <[i := grown_proc pr e t]> (k_ptable s1) |>).
Proof.
  intros G Hk Hp p' I. destruct border_range as (Ha & Har & Hst). destruct new_stack_page as (Hkn & Hn & Hnp).
  set (m1 := memset (k_phys s1) (V2P n) 0 PGSIZE).
  assert (forall q, kpage q -> q <> n -> same_page (k_phys s1) m1 q) as Hm1 by (intros; by apply same_page_memset).
  assert (n ∉ drop k l) as Hnd.
  { intros Hin. apply Hn. rewrite <-(take_drop k l). apply elem_of_app. by right. }
  assert (forall q, pt_page (k_phys s1) P q -> kpage q /\ q <> n) as Hpp.
  { intros q Hq. split; [by eapply pt_page_kpage; [apply G|]|]. intros ->.
    destruct (pg_pages _ _ _ _ _ _ G n Hq) as [Hq'|Hq']; [by apply Hnp|done]. }
  assert (same_page (k_phys s1) m1 P) as HsP by (apply Hm1; apply Hpp; by left).
  constructor.
  - exists k, e, t. split; [done|]. constructor.
    + cbn. rewrite (pg_rest _ _ _ _ _ _ G). apply Hok.
    + eapply kmem_inv_rest, (kmem_inv_phys s1 _ m1 (pg_inv _ _ _ _ _ _ G)); [done|done|].
      intros q x Hq Hx. apply (Hm1 q); [|by intros ->|done].
      pose proof (ki_pages _ _ (pg_inv _ _ _ _ _ _ G)) as Hps. rewrite Forall_forall in Hps. by apply Hps.
    + eapply pt_wf_same; [exact HsP|apply G].
    + destruct I as [I1 I2 I3 I4 I5 I6 I7 I8 I9 I10]. constructor; try done.
      kred. by rewrite list_lookup_insert_eq by (rewrite (pg_rest _ _ _ _ _ _ G); eapply lookup_lt_Some, (ti_proc _ _ _ _ _ (po_table _ _ _ _ _ _ Hok))).
    + destruct (po_stack _ _ _ _ _ _ Hok) as [Hst1 Hst2]. cbn. unfold a, stack_border in *. rewrite u32_small by klia. kdlia.
    + apply (po_sz _ _ _ _ _ _ Hok).
  - constructor.
    + intros va Hva. rewrite <-Hp by done. apply pte_same. intros q Hq. by apply Hm1; apply Hpp.
    + intros o Ho. kred. unfold m1. rewrite load8_memset by klia. by case_decide; [|klia].
    + intros q Hq Hql HqP. apply not_elem_of_cons in Hql as [Hqn Hql].
      eapply same_page_trans; [by apply (pg_other _ _ _ _ _ _ G)|by apply Hm1].
    + intros q Hq%(pt_page_same _ _ _ _ HsP). by apply (pg_pages _ _ _ _ _ _ G).
    + cbn. by rewrite (pg_rest _ _ _ _ _ _ G).
Qed.

Lemma stackGrow_ok : wp (stackGrow P) s (fun r s' => r = 1 /\ stack_grown s i pr n l pages lq s').
Proof.
  destruct border_range as (Ha & Har & Hst). destruct new_stack_page as (Hkn & Hn & Hnp).
  pose proof (po_table _ _ _ _ _ _ Hok) as I. pose proof (ti_proc _ _ _ _ _ I) as Hpr.
  pose proof (po_cur _ _ _ _ _ _ Hok) as Hcur. pose proof (po_sz _ _ _ _ _ _ Hok).
  unfold stackGrow. wp_steps. eapply wp_myproc; [done|]. wp_steps. eapply wp_get_proc; [done|].
  unfold a, stack_border in *. rewrite (u32_small (USERTOP - p_stackSize pr)), (u32_small (p_sz pr + PGSIZE)) by klia.
  destruct (Z.ltb_spec (USERTOP - p_stackSize pr) (p_sz pr + PGSIZE)); [lia|]. wp_steps.
  eapply wp_eq; [eapply kalloc_head; apply Hok|].
  destruct (Z.eqb_spec n 0) as [E|_]; [by rewrite E in Hkn; apply kpage_nonzero in Hkn|]. wp_steps.
  rewrite u32_small by klia. eapply wp_mono; [apply grow_map|].
  cbn beta. intros r s1 (-> & k & Hk & G & Hp). change (0 <? 0) with false. wp_steps.
  assert (k_ptable s1 = k_ptable s /\ k_curproc s1 = k_curproc s /\ k_mte s1 = k_mte s /\ k_mtp s1 = k_mtp s)
    as (R1 & R2 & R3 & R4) by (rewrite (pg_rest _ _ _ _ _ _ G); done).
  pose proof (table_inv_rest s s1 i pr pages lq R3 R4 R1 I) as I1.
  destruct (table_record s1 i pr pages lq a I1) as (e & t & m' & Hr & I'); [by rewrite R2|done| |done|].
  { unfold a, stack_border. klia. }
  unfold record_new_page. wp_steps. eapply wp_get_proc; [by rewrite R1|].
  rewrite (ti_count _ _ _ _ _ I). destruct (Z.leb_spec MEMORY_TABLE_TOTAL_ENTRYS (Z.of_nat (length lq))); [lia|].
  eapply wp_eq; [exact Hr|]. wp_steps. unfold list_post.
  eapply wp_upd_proc; [kred; apply list_lookup_insert_eq; rewrite R1; by eapply lookup_lt_Some|]. wp_steps.
  split; [done|]. kred. rewrite list_insert_insert_eq. by apply (grow_finish s1 k e t m').
Qed.

End StackGrow.

(** A fault in the gap between heap and stack. *)
Lemma stack_fault s i pr n l pages lq va err :
  proc_ok s i pr (n :: l) pages lq -> l <> [] ->
  p_sz pr + PGSIZE <= va < stack_border pr -> has err PGFLT_P = false ->
  has (pte (k_phys s) (p_pgdir pr) va) PTE_PG = false ->
  has (pte (k_phys s) (p_pgdir pr) (stack_border pr - 4096)) PTE_P = false ->
  (stack_border pr - 4096 ∉ lq.*2) ->
  Z.of_nat (length lq) < 340 * Z.of_nat (length pages) -> Z.of_nat (length lq) < MEMORY_TABLE_TOTAL_ENTRYS ->
  wp (PageFault va err) s (fun _ s' => stack_grown s i pr n l pages lq s').
Proof.
  intros Hok Hl Hva He Hpg Hfree Hnew Hroom Htot.
  pose proof (po_sz _ _ _ _ _ _ Hok). destruct (po_stack _ _ _ _ _ _ Hok) as [_ Hst].
  pose proof (ti_proc _ _ _ _ _ (po_table _ _ _ _ _ _ Hok)) as Hpr.
  eapply (not_present_step s i (p_pgdir pr)); [apply Hok|done|done|]. unfold fault_not_present. wp_steps.
  eapply wp_get_proc; [done|]. wp_steps. eapply wp_eq; [eapply fault_swapped_ok, Hok|].
  rewrite Hpg. unfold stack_border in *. destruct (Z.ltb_spec va PGSIZE); [klia|].
  rewrite !u32_small by klia.
  destruct (Z.leb_spec (p_sz pr + PGSIZE) va); [|lia]. destruct (Z.ltb_spec va (USERTOP - p_stackSize pr)); [|lia].
  cbn [andb]. wp_steps. eapply wp_mono; [apply (stackGrow_ok s i pr n l pages lq); unfold stack_border; done || klia|].
  cbn beta. intros r s' [-> Hg]. change (1 =? 0) with false. unfold when. by wp_steps.
Qed.

(** The frames of a process hold neither its tables nor free pages. *)
Definition own_frames s (l : list Z) (P : Z) : Prop :=
  forall va, 0 <= va < KERNBASE -> has (pte (k_phys s) P va) PTE_P = true ->
    let q := frame_of (pte (k_phys s) P va) in kpage q /\ (q ∉ l) /\ ~ pt_page (k_phys s) P q.

Section Grown.
Context (s s' : kst F) (P a n : Z) (l : list Z).
Context (Hinv : kmem_inv s (n :: l)) (Hwf : pt_wf (k_phys s) P (n :: l)) (Hg : page_added s P a n l s').
Context (Hframes : own_frames s (n :: l) P).

#[local] Lemma grown_entry va : 0 <= va < KERNBASE ->
  (va / 4096 = a / 4096 /\ pte (k_phys s') P va = cow_pte n) \/
  (va / 4096 <> a / 4096 /\ pte (k_phys s') P va = pte (k_phys s) P va).
Proof.
  intros Hva. rewrite (pa_map _ _ _ _ _ _ Hg) by klia. unfold set_map.
  case_decide; [by left|by right].
Qed.

#[local] Lemma new_frame : kpage n /\ (n ∉ l) /\ ~ pt_page (k_phys s) P n.
Proof. by apply new_page. Qed.

Lemma grown_frames k : own_frames s' (drop k l) P.
Proof.
  intros va Hva Hp. cbv zeta. destruct new_frame as (Hk & Hn & Hnp).
  assert (forall q, q ∉ l -> q ∉ drop k l) as Hdrop.
  { intros q Hq Hin. apply Hq. rewrite <-(take_drop k l). apply elem_of_app. by right. }
  destruct (grown_entry va Hva) as [[_ E]|[_ E]]; rewrite E in *.
  - destruct (cow_pte_facts n Hk) as (_ & _ & _ & ->). split; [done|]. split; [auto|].
    by intros [?|?]%(pa_pages _ _ _ _ _ _ Hg).
  - destruct (Hframes va Hva Hp) as (H1 & [_ H2]%not_elem_of_cons & H3).
    split; [done|]. split; [auto|]. by intros [?|?]%(pa_pages _ _ _ _ _ _ Hg).
Qed.

(** The new page reads as zeros, every other page as before. *)
Lemma grown_reads l1 va : pt_wf (k_phys s') P l1 -> 0 <= va < KERNBASE ->
  user_read (k_phys s') P va =
  if decide (va / 4096 = a / 4096) then Some 0 else user_read (k_phys s) P va.
Proof.
  intros Hw1 Hva. destruct new_frame as (Hk & Hn & Hnp).
  rewrite (user_read_pte _ _ _ va Hwf), (user_read_pte _ _ l1 va Hw1). destruct (grown_entry va Hva) as [[E1 E]|[E1 E]]; rewrite E.
  - rewrite decide_True by done. destruct (cow_pte_facts n Hk) as (-> & _ & -> & Hf). cbn [andb]. f_equal.
    pose proof (kpage_V2P_range n Hk) as (? & ? & ?).
    rewrite <-frame_pa, Hf; [apply (pa_zero _ _ _ _ _ _ Hg); dlia|].
    apply make_pte_range; [done|klia|vm_compute; split; done].
  - rewrite decide_False by done. destruct (has _ PTE_P) eqn:Hp; [|done]. destruct (has _ PTE_U); [|done]. cbn [andb]. f_equal.
    destruct (Hframes va Hva Hp) as (H1 & H2 & H3). apply read_frame; [|by apply (pa_same _ _ _ _ _ _ Hg)].
    unfold pte. destruct (pd_tab _ _ _); [apply load32_range|lia].
Qed.

(** The process can store to the new page, and sees only that change. *)
Lemma grown_store l1 va b : pt_wf (k_phys s') P l1 -> 0 <= va < KERNBASE -> va / 4096 = a / 4096 ->
  let e := pte (k_phys s') P va in let m2 := store8 (k_phys s') (PTE_ADDR e + va mod 4096) b in
  allows true true e = true /\
  forall x, 0 <= x < KERNBASE -> user_read m2 P x = if decide (x = va) then Some (b mod 256) else user_read (k_phys s') P x.
Proof.
  intros Hw1 Hva Ea e m2. destruct new_frame as (Hk & Hn & Hnp). destruct (cow_pte_facts n Hk) as (HP & HW & HU & HF).
  pose proof (kpage_V2P_range n Hk) as (? & ? & ?).
  assert (PTE_ADDR (cow_pte n) = V2P n) as Hn' by (apply PTE_ADDR_make; [done|vm_compute; split; done]).
  assert (e = cow_pte n) as He by (unfold e; by destruct (grown_entry va Hva) as [[_ ->]|[? _]]).
  split; [unfold allows; by rewrite He, HP, HW, HU|]. intros x Hx.
  assert (forall q, kpage q -> q <> n -> same_page (k_phys s') m2 q) as Hs.
  { intros q Hq Hne o Ho. pose proof (kpage_disjoint n q Hk Hq ltac:(done)). unfold m2. rewrite He, Hn'. apply load8_store8_ne. dlia. }
  assert (forall q, pt_page (k_phys s') P q -> same_page (k_phys s') m2 q) as Ht.
  { intros q Hq. apply Hs; [by eapply pt_page_kpage|]. intros ->. by destruct (pa_pages _ _ _ _ _ _ Hg n Hq). }
  assert (pt_wf m2 P l1) as Hw2 by (eapply pt_wf_same; [apply Ht; by left|done]).
  rewrite (user_read_pte _ _ l1 x Hw2), (user_read_pte _ _ l1 x Hw1), (pte_same _ _ _ x Ht).
  destruct (grown_entry x Hx) as [[Ex ->]|[Ex E]].
  - rewrite HP, HU. cbn [andb]. unfold m2. rewrite He, Hn', load8_store8. repeat case_decide; try done; dlia.
  - rewrite decide_False by (by intros ->). rewrite E. destruct (has (pte (k_phys s) P x) PTE_P) eqn:Hp; [|done]. destruct (has (pte (k_phys s) P x) PTE_U); [|done].
    cbn [andb]. f_equal. destruct (Hframes x Hx Hp) as (Hkx & [Hne _]%not_elem_of_cons & _).
    apply read_frame; [|by apply Hs]. unfold pte. destruct (pd_tab _ _ _); [apply load32_range|lia].
Qed.

End Grown.

(** ** A store that is tried again after every fault *)

(** The process can reach down to [va] when the pages between it and the stack
    are free and there is room to record them: [N] of them. *)
Record can_reach s i pr l pages lq (va : Z) (N : nat) : Prop := {
  cr_ok : proc_ok s i pr l pages lq;
  cr_cr3 : k_cr3 s = V2P (p_pgdir pr);
  cr_frames : own_frames s l (p_pgdir pr);
  cr_va : p_sz pr + PGSIZE <= va;
  cr_page : va / 4096 = (stack_border pr - 4096 * Z.of_nat N) / 4096;
  cr_absent : forall x, va / 4096 <= x / 4096 -> x < stack_border pr -> pte (k_phys s) (p_pgdir pr) x = 0;
  cr_unrecorded : forall x, x ∈ lq.*2 -> x < stack_border pr -> x / 4096 < va / 4096;
  cr_pages : (2 * N <= length l)%nat;
  cr_room : Z.of_nat (length lq + N) <= 340 * Z.of_nat (length pages) /\
            Z.of_nat (length lq + N) <= MEMORY_TABLE_TOTAL_ENTRYS
}.

(** What the process has reached. *)
Record reached s i pr va b s' : Prop := {
  rc_proc : exists pr', k_ptable s' !! i = Some pr' /\ p_killed pr' = p_killed pr /\
    stack_border pr' = va / 4096 * 4096 /\ p_sz pr' = p_sz pr /\ p_pgdir pr' = p_pgdir pr;
  rc_reads : forall x, 0 <= x < KERNBASE -> user_read (k_phys s') (p_pgdir pr) x =
    if decide (x = va) then Some (b mod 256)
    else if decide (va / 4096 <= x / 4096 /\ x < stack_border pr) then Some 0 else user_read (k_phys s) (p_pgdir pr) x
}.

Lemma can_reach_step s i pr n n' l pages lq va N s' :
  can_reach s i pr (n :: n' :: l) pages lq va (S N) -> stack_grown s i pr n (n' :: l) pages lq s' ->
  exists k e t, can_reach s' i (grown_proc pr e t) (drop k (n' :: l)) pages ((e, stack_border pr - 4096) :: lq) va N /\
    stack_border (grown_proc pr e t) = stack_border pr - 4096.
Proof.
  intros [H1 H2 H3 H4 H5 H6 H7 H8 [H9 H10]] Hg. destruct (sg_rest _ _ _ _ _ _ _ _ Hg) as (k & e & t & Hk & Hok').
  destruct (po_stack _ _ _ _ _ _ H1) as [Hst Hst0]. pose proof (po_sz _ _ _ _ _ _ H1).
  assert (stack_border (grown_proc pr e t) = stack_border pr - 4096) as Eb.
  { unfold stack_border in *. cbn [grown_proc]. change (p_stackSize (grown_proc pr e t)) with (u32 (p_stackSize pr + PGSIZE)).
    rewrite u32_small by kdlia. klia. }
  exists k, e, t. split; [|done]. constructor; try done.
  - by rewrite (pa_cr3 _ _ _ _ _ _ (sg_added _ _ _ _ _ _ _ _ Hg)).
  - change (p_pgdir (grown_proc pr e t)) with (p_pgdir pr). by apply (grown_frames s s' (p_pgdir pr) (stack_border pr - 4096) n (n' :: l));
      [apply H1|apply H1|apply Hg|].
  - rewrite Eb, H5. f_equal. lia.
  - rewrite Eb. intros x Hx Hxb. change (p_pgdir (grown_proc pr e t)) with (p_pgdir pr).
    unfold stack_border in *. rewrite (pa_map _ _ _ _ _ _ (sg_added _ _ _ _ _ _ _ _ Hg)) by kdlia. unfold set_map.
    rewrite decide_False by (unfold stack_border; kdlia). apply H6; lia.
  - rewrite Eb. cbn [fmap list_fmap snd]. intros x [->|Hx]%elem_of_cons Hxb; [lia|apply H7; [done|lia]].
  - rewrite length_drop. cbn [length] in *. lia.
  - cbn [length]. lia.
Qed.

Lemma retry_ok N : forall s i pr l pages lq va b,
  (0 < N)%nat -> can_reach s i pr l pages lq va N ->
  wp (user_store N va b) s (fun _ s' => reached s i pr va b s').
Proof.
  induction N as [|N IH]; intros s i pr l pages lq va b HN Hr; [lia|].
  pose proof Hr as [H1 H2 H3 H4 H5 H6 H7 H8 [H9 H10]].
  destruct l as [|n [|n' l]]; [cbn in H8; lia..|].
  destruct (po_stack _ _ _ _ _ _ H1) as [Hst Hst0]. pose proof (po_sz _ _ _ _ _ _ H1).
  assert (va < stack_border pr) as Hvb by (unfold stack_border in *; kdlia).
  assert (0 <= va < KERNBASE) as Hva by (unfold stack_border in *; klia).
  eapply user_store_fault; [apply H1|exact H2|by rewrite (H6 va) by lia|]. rewrite (H6 va) by lia. intros err He.
  apply wp_bind. eapply wp_mono; [apply (stack_fault s i pr n (n' :: l) pages lq)|]; try done; try lia.
  { by rewrite H6 by lia. }
  { rewrite H6; [done|kdlia|lia]. }
  { intros Hin%H7; kdlia. }
  cbn beta. intros [] s1 Hg. destruct (can_reach_step _ _ _ _ _ _ _ _ _ _ _ Hr Hg) as (k & e & t & Hr1 & Eb).
  pose proof (sg_added _ _ _ _ _ _ _ _ Hg) as Ha. pose proof (po_inv _ _ _ _ _ _ H1) as Hinv1.
  pose proof (po_wf _ _ _ _ _ _ H1) as Hwf1. pose proof (po_wf _ _ _ _ _ _ (cr_ok _ _ _ _ _ _ _ _ Hr1)) as Hw1.
  pose proof (fun x => grown_reads _ _ _ _ _ _ Hinv1 Hwf1 Ha H3 _ x Hw1) as Hreads.
  destruct N as [|N].
  - destruct (grown_store _ _ _ _ _ _ Hinv1 Hwf1 Ha H3 _ va b Hw1 Hva) as [Hok Hst1]; [rewrite H5; f_equal|].
    eapply user_store_hit; [exact Hw1|by rewrite (pa_cr3 _ _ _ _ _ _ Ha)|exact Hok|]. constructor.
    + exists (grown_proc pr e t). split; [apply Hr1|]. split; [done|].
      split; [|done]. rewrite Eb. unfold stack_border in *. kdlia.
    + intros x Hx. kred. rewrite Hst1, Hreads by done. unfold stack_border in *. repeat case_decide; try done; kdlia.
  - eapply wp_mono; [apply (IH s1 i _ _ _ _ va b ltac:(lia) Hr1)|].
    cbn beta. intros [] s2 [R2 R3]. constructor; [exact R2|].
    intros x Hx. change (p_pgdir pr) with (p_pgdir (grown_proc pr e t)). rewrite R3 by done. rewrite Eb.
    change (p_pgdir (grown_proc pr e t)) with (p_pgdir pr). rewrite Hreads by done.
    unfold stack_border in *. repeat case_decide; try done; kdlia.
Qed.

(** C16. The stack grows to any address the process stores to.  Let [va] lie in
    the gap between heap and stack, [N] pages below the first address of the
    stack, these pages being unused, with [2 * N] pages free and [N] places in the
    memory table.  The store of a byte in user mode, tried again after each page
    fault, is done after at most [N] faults: the process then reads the byte at
    [va] and zeros in the rest of the new pages, the stack begins with the page of
    [va], everything else reads as before, and the process is not killed. *)
Theorem stack_grows_to_store s i pr l pages lq va b N :
  (0 < N)%nat -> can_reach s i pr l pages lq va N ->
  wp (user_store N va b) s (fun _ s' => reached s i pr va b s').
Proof. apply retry_ok. Qed.

(** A page nobody has mapped, outside the gap: a page of zeros is mapped there. *)
Lemma lazy_fault s i pr n n' l va err :
  let P := p_pgdir pr in
  k_curproc s = Some i -> k_ptable s !! i = Some pr -> kmem_inv s (n :: n' :: l) -> pt_wf (k_phys s) P (n :: n' :: l) ->
  0 <= p_stackSize pr <= USERTOP -> stack_border pr <= va < 2 ^ 32 -> PGSIZE <= va ->
  has err PGFLT_P = false -> has (pte (k_phys s) P va) PTE_PG = false -> has (pte (k_phys s) P va) PTE_P = false ->
  wp (PageFault va err) s (fun _ s' => k_ptable s' = k_ptable s /\ is_Some (access true true (k_phys s') (V2P P) va) /\
    user_read (k_phys s') P va = Some 0).
Proof.
  intros P Hcur Hpr Hinv Hwf Hst Hva Hlow Herr Hpg Hp. destruct (new_page _ _ _ _ Hinv Hwf) as (Hk & Hn & Hnp).
  destruct (new_pgdir_ok s n (n' :: l) Hinv) as (H1 & _ & _ & _ & Hs1).
  assert (forall q, pt_page (k_phys s) P q -> kpage q /\ q <> n) as Hpp.
  { intros q Hq. split; [by eapply pt_page_kpage|by intros ->]. }
  assert (forall q, pt_page (k_phys s) P q -> same_page (k_phys s) (k_phys (new_pgdir s n)) q) as Hsp.
  { intros q [Hq Hne]%Hpp. by apply Hs1. }
  assert (same_page (k_phys s) (k_phys (new_pgdir s n)) P) as HsP by (apply Hsp; by left).
  assert (pt_wf (k_phys (new_pgdir s n)) P (n' :: l)) as Hw1.
  { eapply pt_wf_sublist; [|by eapply pt_wf_same]. intros x Hx. by right. }
  eapply not_present_step; [done|exact Herr|exact Hpg|]. unfold fault_not_present. wp_steps.
  eapply wp_get_proc; [done|]. wp_steps. eapply wp_eq; [by eapply fault_swapped_ok|]. fold P. rewrite Hpg.
  destruct (Z.ltb_spec va PGSIZE); [lia|]. unfold stack_border in Hva. rewrite (u32_small (USERTOP - p_stackSize pr)) by klia.
  destruct (Z.ltb_spec va (USERTOP - p_stackSize pr)); [lia|]. rewrite andb_false_r. wp_steps.
  eapply wp_eq; [by eapply kalloc_head|]. destruct (Z.eqb_spec n 0) as [E|_]; [by rewrite E in Hk; apply kpage_nonzero in Hk|].
  wp_steps. match goal with |- wp _ ?x _ => change x with (new_pgdir s n) end. rewrite PGROUNDDOWN_eq.
  set (a := va - va mod 4096). assert (a mod 4096 = 0 /\ 0 <= a /\ a + PGSIZE <= 2 ^ 32) as (Ha & Ha0 & Ha1) by (unfold a; kdlia).
  pose proof (kpage_V2P_range n Hk) as (? & ? & ?).
  assert (tables_bound (k_phys (new_pgdir s n)) P a (a + PGSIZE - 4096) <= 1) as Hb.
  { etransitivity; [apply tables_bound_le|]. unfold PGSIZE. rewrite Z.add_simpl_r. lia. }
  assert (0 <= Z.lor PTE_W PTE_U < 4096) by (vm_compute; split; done).
  eapply wp_mono; [apply (map_region (new_pgdir s n) (n' :: l) P a PGSIZE (V2P n)); try done; try klia|].
  - intros x Hx. rewrite (pte_page _ _ x va) by (unfold a in *; kdlia). by rewrite (pte_same _ _ _ va Hsp).
  - cbn [length]. lia.
  - cbn beta. intros r s2 (k & l2 & -> & G & Hk2 & Hp2). change (0 <? 0) with false. unfold when. wp_steps.
    assert (pte (k_phys s2) P va = cow_pte n) as E.
    { rewrite Hp2, decide_True by (unfold a; kdlia). unfold cow_pte. f_equal. unfold a. kdlia. }
    destruct (cow_pte_facts n Hk) as (HP & HW & HU & HF). split; [by rewrite (pg_rest _ _ _ _ _ _ G)|]. split.
    + rewrite (access_pte _ _ _ va true true (pg_wf _ _ _ _ _ _ G)), E. unfold allows. rewrite HP, HW, HU. cbn. by eexists.
    + rewrite (user_read_pte _ _ _ va (pg_wf _ _ _ _ _ _ G)), E, HP, HU. cbn [andb]. f_equal.
      unfold cow_pte. rewrite PTE_ADDR_make by done.
      assert (same_page (k_phys (new_pgdir s n)) (k_phys s2) n) as Hsn.
      { apply (pg_other _ _ _ _ _ _ G); [done|done|]. intros Hq%(pt_page_same _ _ _ _ HsP). by apply Hnp. }
      rewrite Hsn by dlia. change (load8 (memset (k_phys s) (V2P n) 0 PGSIZE) (V2P n + va mod 4096) = 0).
      rewrite load8_memset by klia. by case_decide; [|kdlia].
Qed.

(** C33. The page faults that kill.  A fault on a page that is not present kills the
    process below 4096, unless the page is swapped out; a fault on a present page
    kills it at an address of the kernel and where the table has no present entry
    for user code; in these cases nothing else changes.  But a fault above KERNBASE
    on a page that is not present does not: with two free pages, PageFault maps a
    page of zeros there, for user code to read and write. *)
Theorem bad_fault_kills s i pr l va err :
  k_curproc s = Some i -> k_ptable s !! i = Some pr -> pt_wf (k_phys s) (p_pgdir pr) l ->
  0 <= va < 2 ^ 32 ->
  ((if has err PGFLT_P
    then KERNBASE <= va \/ has (pte (k_phys s) (p_pgdir pr) va) PTE_P = false \/
         has (pte (k_phys s) (p_pgdir pr) va) PTE_U = false
    else va < PGSIZE /\ has (pte (k_phys s) (p_pgdir pr) va) PTE_PG = false) ->
   PageFault va err s = Ret tt (killed s i pr)) /\
  (kmem_inv s l -> (2 <= length l)%nat -> 0 <= p_stackSize pr <= USERTOP -> KERNBASE <= va -> has err PGFLT_P = false ->
   has (pte (k_phys s) (p_pgdir pr) va) PTE_P = false -> has (pte (k_phys s) (p_pgdir pr) va) PTE_PG = false ->
   wp (PageFault va err) s (fun _ s' => k_ptable s' = k_ptable s /\
     is_Some (access true true (k_phys s') (V2P (p_pgdir pr)) va) /\ user_read (k_phys s') (p_pgdir pr) va = Some 0)).
Proof.
  intros Hcur Hpr Hwf Hva. split.
  - intros Hbad. assert (wp (PageFault va err) s (fun _ s' => s' = killed s i pr)) as H.
    { destruct (has err PGFLT_P) eqn:He; [by eapply protection_fault|]. destruct Hbad. by eapply null_fault. }
    apply wp_run. eapply wp_mono; [exact H|]. by intros [] s' ->.
  - intros Hinv Hl Hst Hk He Hp Hpg. destruct l as [|n [|n' l]]; [cbn in Hl; lia..|].
    eapply (lazy_fault s i pr n n' l); unfold stack_border; done || klia.
Qed.

End Faults.

(** ** Witnesses *)

Module FaultsWitness.

#[local] Existing Instance boot_image.
#[local] Existing Instance CowWitness.no_files.

(** A process with an empty page table and no stack yet. *)
Definition dir : Z := 0x8024F000.
Definition empty_proc : proc := proc0 <| p_MemoryTableListHead := MemListWitness.tpage |> <| p_pgdir := dir |>.
Definition start : kst unit :=
  MemListWitness.fresh <| k_ptable := [empty_proc] |> <| k_cr3 := V2P dir |>.

Lemma empty_space : exists (s : kst unit) l,
  proc_ok s 0 empty_proc l [MemListWitness.tpage] [] /\ k_cr3 s = V2P dir /\ length l = 79%nat /\
  (forall va, pte (k_phys s) dir va = 0).
Proof.
  destruct (KallocWitness.some_pages 80 start ltac:(lia)) as (m & k & Hinv).
  remember (rev (pages 0x80200000 80)) as l0 eqn:El0.
  assert (exists l, l0 = dir :: l /\ length l = 79%nat) as (l & -> & Hl).
  { eexists (tail l0). subst l0. split; vm_compute; reflexivity. }
  clear El0. destruct (new_pgdir_ok _ dir l Hinv) as (H1 & H2 & _ & H3 & _).
  eexists _, l. split; [|split; [|split; [exact Hl|exact H3]]]; [|done].
  constructor; [done|exact H1|exact H2| |split; [reflexivity|vm_compute; split; discriminate]|vm_compute; discriminate].
  destruct MemListWitness.fresh_table as (p & lq & I & Elq). apply fmap_nil_inv in Elq as ->.
  pose proof (ti_proc _ _ _ _ _ I) as E. injection E as <-.
  destruct I as [I1 I2 I3 I4 I5 I6 I7 I8 I9 I10]. constructor; done.
Qed.

Lemma stack_grows_to_store_witness : exists s : kst unit,
  wp (user_store 2 0x7FFFE005 42) s (fun _ s' =>
    user_read (k_phys s') dir 0x7FFFE005 = Some 42 /\ user_read (k_phys s') dir 0x7FFFE006 = Some 0).
Proof.
  destruct empty_space as (s & l & Hok & Hcr3 & Hl & Hz). exists s.
  eapply wp_mono.
  - apply (stack_grows_to_store s 0 empty_proc l [MemListWitness.tpage] [] 0x7FFFE005 42 2).
    + lia.
    + constructor; try done.
      * intros va _ Hp. by rewrite Hz in Hp.
      * intros x Hx. by apply elem_of_nil in Hx.
      * lia.
  - intros [] s' [_ R3]. change dir with (p_pgdir empty_proc).
    split; rewrite R3 by (split; [discriminate|reflexivity]); reflexivity.
Defined.

Lemma bad_fault_kills_witness : exists s : kst unit,
  PageFault 16 4 s = Ret tt (killed s 0 empty_proc) /\
  wp (PageFault 0x90000000 6) s (fun _ s' => user_read (k_phys s') dir 0x90000000 = Some 0).
Proof.
  destruct empty_space as (s & l & Hok & _ & Hl & Hz). exists s.
  pose proof (ti_proc _ _ _ _ _ (po_table _ _ _ _ _ _ Hok)) as Hpr.
  split.
  - apply (bad_fault_kills s 0 empty_proc l 16 4 (po_cur _ _ _ _ _ _ Hok) Hpr (po_wf _ _ _ _ _ _ Hok)); [split; [discriminate|reflexivity]|].
    split; [reflexivity|]. change (p_pgdir empty_proc) with dir. rewrite Hz. reflexivity.
  - destruct (bad_fault_kills s 0 empty_proc l 0x90000000 6 (po_cur _ _ _ _ _ _ Hok) Hpr (po_wf _ _ _ _ _ _ Hok)) as [_ H];
      [split; [discriminate|reflexivity]|].
    eapply wp_mono; [apply H|intros [] s' (_ & _ & R); exact R].
    + apply Hok.
    + rewrite Hl. lia.
    + vm_compute. split; discriminate.
    + vm_compute. discriminate.
    + reflexivity.
    + change (p_pgdir empty_proc) with dir. rewrite Hz. reflexivity.
    + change (p_pgdir empty_proc) with dir. rewrite Hz. reflexivity.
Defined.

End FaultsWitness.
