(* ===== verification/Heap.v ===== *)
(** Growing the heap: allocuvm of src/src/vm.c. *)

From stdpp Require Import base gmap list strings.
From Stdlib Require Import ZArith Lia.
From S2P Require Import Prelude Mem Str Mmu State Kalloc MemTable MemList Vm PageTable AddressSpace CopyUvm CopyOnWrite Faults.

Section Heap.
Context {F : Type} {KI : KernelImage} {FS : FileSys F}.
Implicit Types s : kst F.

(** The process has one more page in its list. *)
Definition listed_proc (pr : proc) (e t : Z) : proc :=
  pr <| p_MemoryListHead := e |> <| p_MemoryListTail := t |> <| p_MemoryEntryNum ::= fun n => n + 1 |>.

Section HeapPage.
Context (s : kst F) (i : nat) (pr : proc) (n : Z) (l : list Z) (pages : list Z) (lq : list (Z * Z)) (a : Z).
Context (Hok : proc_ok s i pr (n :: l) pages lq) (Hl : l <> []).
Let P := p_pgdir pr.
Context (Ha : a mod 4096 = 0) (Har : 0 <= a < KERNBASE).
Context (Hfree : has (pte (k_phys s) P a) PTE_P = false) (Hnew : a ∉ lq.*2).
Context (Hroom : Z.of_nat (length lq) < 340 * Z.of_nat (length pages))
        (Htotal : Z.of_nat (length lq) < MEMORY_TABLE_TOTAL_ENTRYS).

(** The page after it is recorded, taken from the free list and cleared. *)
Let cleared (m' : gmap Z MemoryTableEntry) (p' : proc) : kst F :=
  (kalloc_post (list_post s i m' p') n) <| k_phys := memset (k_phys s) (V2P n) 0 PGSIZE |>.

#[local] Lemma cleared_ok m' p' :
  let s3 := cleared m' p' in
  kmem_inv s3 l /\ pt_wf (k_phys s3) P l /\
  (forall va, pte (k_phys s3) P va = pte (k_phys s) P va) /\
  (forall q, pt_page (k_phys s3) P q -> pt_page (k_phys s) P q) /\
  (forall q, kpage q -> q <> n -> same_page (k_phys s) (k_phys s3) q).
Proof.
  cbv zeta. destruct (new_page s P n l) as (Hk & Hn & Hnp); [apply Hok|apply Hok|].
  assert (forall q, kpage q -> q <> n -> same_page (k_phys s) (memset (k_phys s) (V2P n) 0 PGSIZE) q) as Hs
    by (intros; by apply same_page_memset).
  pose proof (po_wf _ _ _ _ _ _ Hok) as Hwf. fold P in Hwf.
  assert (forall q, pt_page (k_phys s) P q -> same_page (k_phys s) (memset (k_phys s) (V2P n) 0 PGSIZE) q) as Hpp.
  { intros q Hq. apply Hs; [by eapply pt_page_kpage|]. intros ->. done. }
  split_and!.
  - eapply (kmem_inv_phys (kalloc_post (list_post s i m' p') n)).
    + apply kalloc_post_inv. eapply kmem_inv_rest; [..|apply (po_inv _ _ _ _ _ _ Hok)]; done.
    + intros q x Hq Hx. apply (Hs q); [|by intros ->|done].
      pose proof (ki_pages _ _ (po_inv _ _ _ _ _ _ Hok)) as [_ Hps]%Forall_cons.
      rewrite Forall_forall in Hps. by apply Hps.
  - eapply pt_wf_same; [apply Hpp; by left|]. eapply pt_wf_sublist; [|exact Hwf]. intros x Hx. by right.
  - intros va. apply pte_same. exact Hpp.
  - intros q. apply (proj1 (pt_page_same (k_phys s) _ P q (Hpp P (or_introl eq_refl)))).
  - exact Hs.
Qed.

(** One turn of the loop of allocuvm, when there is memory. *)
Lemma heap_page_added (oldsz newsz : Z) (K : M (kst F) Z) Q :
  (forall s' e t k, (k <= 1)%nat -> proc_ok s' i (listed_proc pr e t) (drop k l) pages ((e, a) :: lq) ->
     page_added s P a n l s' -> wp K s' Q) ->
  wp (record_new_page i a ;;;
      mem <- kalloc ;;
      if mem =? 0 then deallocuvm P newsz oldsz ;;; ret 0
      else
        modify (fun s => s <| k_phys ::= fun m => memset m (V2P mem) 0 PGSIZE |>) ;;;
        r <- mappages P a PGSIZE (V2P mem) (Z.lor PTE_W PTE_U) ;;
        if r <? 0 then deallocuvm P newsz oldsz ;;; kfree mem ;;; ret 0 else K) s Q.
Proof.
  intros HK. destruct (new_page s P n l) as (Hk & Hn & Hnp); [apply Hok|apply Hok|].
  pose proof (po_table _ _ _ _ _ _ Hok) as I. pose proof (ti_proc _ _ _ _ _ I) as Hpr.
  destruct (table_record s i pr pages lq a I) as (e & t & m' & Hr & I'); [apply Hok|done|klia|done|].
  fold (listed_proc pr e t) in Hr, I'. set (p' := listed_proc pr e t) in *.
  unfold record_new_page. wp_steps. eapply wp_get_proc; [done|].
  rewrite (ti_count _ _ _ _ _ I). destruct (Z.leb_spec MEMORY_TABLE_TOTAL_ENTRYS (Z.of_nat (length lq))); [lia|].
  eapply wp_eq; [exact Hr|]. wp_steps.
  eapply wp_eq; [eapply kalloc_head, (kmem_inv_rest s); [..|apply (po_inv _ _ _ _ _ _ Hok)]; done|].
  destruct (Z.eqb_spec n 0) as [E|_]; [by rewrite E in Hk; apply kpage_nonzero in Hk|]. wp_steps.
  match goal with |- wp ?m _ ?R => change (wp m (cleared m' p') R) end.
  destruct (cleared_ok m' p') as (Hinv3 & Hwf3 & Hpte3 & Hpp3 & Hs3).
  pose proof (kpage_V2P_range n Hk) as (? & ? & ?).
  assert (tables_bound (k_phys (cleared m' p')) P a (a + PGSIZE - 4096) <= 1) as Hb.
  { etransitivity; [apply tables_bound_le|]. unfold PGSIZE. rewrite Z.add_simpl_r. lia. }
  assert (0 <= Z.lor PTE_W PTE_U < 4096) by (vm_compute; split; done).
  eapply wp_mono; [apply (map_region (cleared m' p') l P a PGSIZE (V2P n)); try done; try klia|].
  - intros va Hva. rewrite Hpte3, (pte_page _ _ va a) by kdlia. done.
  - destruct l; cbn [length]; [done|lia].
  - cbn beta. intros r s4 (k & l1 & -> & G & Hk1 & Hp). change (0 <? 0) with false. cbn iota.
    rewrite (pg_free _ _ _ _ _ _ G) in G. apply (HK s4 e t k); [lia| |].
    + constructor.
      * rewrite (pg_rest _ _ _ _ _ _ G). apply Hok.
      * apply G.
      * apply G.
      * eapply table_inv_rest; [..|exact I']; by rewrite (pg_rest _ _ _ _ _ _ G).
      * apply Hok.
      * apply Hok.
    + constructor.
      * intros va Hva. rewrite Hp by done. unfold set_map. repeat case_decide; try kdlia; [|by apply Hpte3].
        unfold cow_pte. f_equal. kdlia.
      * intros o Ho. rewrite (pg_other _ _ _ _ _ _ G n Hk Hn ltac:(intros Hq%Hpp3; done)) by lia.
        unfold cleared. kred. rewrite load8_memset by klia. by case_decide; [|klia].
      * intros q Hq [Hqn Hql]%not_elem_of_cons HqP. eapply same_page_trans; [by apply Hs3|].
        apply (pg_other _ _ _ _ _ _ G); [done|done|]. intros Hq'%Hpp3. done.
      * intros q [Hq|Hq]%(pg_pages _ _ _ _ _ _ G); [left; by apply Hpp3|by right].
      * by rewrite (pg_rest _ _ _ _ _ _ G).
Qed.

End HeapPage.

(** ** The loop *)

(** [N] pages from [a] can be added to the process. *)
Record can_grow s i pr l pages lq (a : Z) (N : nat) : Prop := {
  cg_ok : proc_ok s i pr l pages lq;
  cg_frames : own_frames s l (p_pgdir pr);
  cg_start : a mod 4096 = 0 /\ 0 <= a /\ a + 4096 * Z.of_nat N <= KERNBASE;
  cg_absent : forall x, a <= x < a + 4096 * Z.of_nat N -> has (pte (k_phys s) (p_pgdir pr) x) PTE_P = false;
  cg_unrecorded : forall x, x ∈ lq.*2 -> ~ a <= x < a + 4096 * Z.of_nat N;
  cg_pages : (2 * N <= length l)%nat;
  cg_room : Z.of_nat (length lq + N) <= 340 * Z.of_nat (length pages) /\
            Z.of_nat (length lq + N) <= MEMORY_TABLE_TOTAL_ENTRYS
}.

(** Only the list of its pages tells the two processes apart. *)
Definition relisted (pr pr' : proc) : Prop :=
  pr' = pr <| p_MemoryListHead := p_MemoryListHead pr' |> <| p_MemoryListTail := p_MemoryListTail pr' |>
           <| p_MemoryEntryNum := p_MemoryEntryNum pr' |>.

(** They have been added. *)
Record heap_grown s i pr pages (lq : list (Z * Z)) (a : Z) (N : nat) s' : Prop := {
  hg_proc : exists pr' l' lq', proc_ok s' i pr' l' pages lq' /\ relisted pr pr' /\ own_frames s' l' (p_pgdir pr) /\
    length lq' = (length lq + N)%nat;
  hg_pte : forall x, 0 <= x < 2 ^ 32 ->
    if decide (a <= x < a + 4096 * Z.of_nat N)
    then exists q, kpage q /\ pte (k_phys s') (p_pgdir pr) x = cow_pte q
    else pte (k_phys s') (p_pgdir pr) x = pte (k_phys s) (p_pgdir pr) x;
  hg_reads : forall x, 0 <= x < KERNBASE -> user_read (k_phys s') (p_pgdir pr) x =
    if decide (a <= x < a + 4096 * Z.of_nat N) then Some 0 else user_read (k_phys s) (p_pgdir pr) x;
  hg_cr3 : k_cr3 s' = k_cr3 s
}.

Lemma heap_grown_none s i pr l pages lq a : can_grow s i pr l pages lq a 0 -> heap_grown s i pr pages lq a 0 s.
Proof.
  intros [H1 H2 _ _ _ _ _]. constructor.
  - exists pr, l, lq. split; [done|]. split; [by destruct pr|]. by rewrite Nat.add_0_r.
  - intros x Hx. by case_decide; [lia|].
  - intros x Hx. by case_decide; [lia|].
  - done.
Qed.

Section GrowStep.
Context (s s' : kst F) (i : nat) (pr : proc) (n n' : Z) (l pages : list Z) (lq : list (Z * Z)) (a : Z) (N : nat).
Context (e t : Z) (k : nat) (Hk : (k <= 1)%nat).
Context (Hg : can_grow s i pr (n :: n' :: l) pages lq a (S N)).
Context (Hok' : proc_ok s' i (listed_proc pr e t) (drop k (n' :: l)) pages ((e, a) :: lq)).
Context (Hadd : page_added s (p_pgdir pr) a n (n' :: l) s').

Lemma can_grow_step : can_grow s' i (listed_proc pr e t) (drop k (n' :: l)) pages ((e, a) :: lq) (a + 4096) N.
Proof.
  destruct Hg as [H1 H2 (H3 & H4 & H5) H6 H7 H8 [H9 H10]]. constructor.
  - done.
  - apply (grown_frames s s' (p_pgdir pr) a n (n' :: l)); [apply H1|apply H1|done|done].
  - dlia.
  - intros x Hx. change (p_pgdir (listed_proc pr e t)) with (p_pgdir pr). rewrite (pa_map _ _ _ _ _ _ Hadd) by klia.
    unfold set_map. case_decide; [dlia|]. apply H6. lia.
  - cbn [fmap list_fmap snd]. intros x [->|Hx]%elem_of_cons Hr; [lia|]. apply (H7 x Hx). lia.
  - rewrite length_drop. cbn [length] in *. lia.
  - cbn [length]. lia.
Qed.

Lemma grow_step s2 :
  heap_grown s' i (listed_proc pr e t) pages ((e, a) :: lq) (a + 4096) N s2 ->
  heap_grown s i pr pages lq a (S N) s2.
Proof.
  destruct Hg as [H1 H2 (H3 & H4 & H5) H6 H7 H8 _]. intros [(pr' & l' & lq' & G1 & G2 & G3 & G4) G5 G6 G7].
  change (p_pgdir (listed_proc pr e t)) with (p_pgdir pr) in *. constructor.
  - exists pr', l', lq'. split; [done|]. split; [by rewrite G2; destruct pr|]. split; [done|]. rewrite G4. cbn. lia.
  - intros x Hx. specialize (G5 x Hx). case_decide as D.
    + rewrite decide_True by lia. exact G5.
    + rewrite G5, (pa_map _ _ _ _ _ _ Hadd) by done. unfold set_map. case_decide as E.
      * rewrite decide_True by dlia. exists n. split; [|done]. apply (new_page s (p_pgdir pr) n (n' :: l)); apply H1.
      * by rewrite decide_False by dlia.
  - intros x Hx. rewrite G6 by done.
    rewrite (grown_reads s s' (p_pgdir pr) a n (n' :: l)) with (l1 := drop k (n' :: l)) by (done || apply H1 || apply Hok').
    repeat case_decide; try done; dlia.
  - by rewrite G7, (pa_cr3 _ _ _ _ _ _ Hadd).
Qed.

End GrowStep.

(** The pages the loop adds to reach [newsz] from the page [a]. *)
Definition pages_to (a newsz : Z) : nat := Z.to_nat ((newsz - a + 4095) / 4096).

Lemma allocuvm_loop_ok fuel : forall s i pr l pages lq a oldsz newsz,
  can_grow s i pr l pages lq a (pages_to a newsz) -> (pages_to a newsz <= fuel)%nat ->
  wp (allocuvm_loop fuel i (p_pgdir pr) a oldsz newsz) s (fun r s' =>
    r = newsz /\ heap_grown s i pr pages lq a (pages_to a newsz) s').
Proof.
  induction fuel as [|fuel IH]; intros s i pr l pages lq a oldsz newsz Hg Hf; cbn [allocuvm_loop].
  - destruct (Z.ltb_spec a newsz); [unfold pages_to in Hf; dlia|]. wp_steps. split; [done|].
    assert (pages_to a newsz = 0%nat) as E by lia. rewrite E in *. by eapply heap_grown_none.
  - destruct (Z.ltb_spec a newsz) as [Hlt|Hge].
    2: { wp_steps. split; [done|]. assert (pages_to a newsz = 0%nat) as E by (unfold pages_to; dlia).
         rewrite E in *. by eapply heap_grown_none. }
    assert (pages_to a newsz = S (pages_to (a + 4096) newsz)) as E by (unfold pages_to; dlia). rewrite E in *.
    destruct (cg_start _ _ _ _ _ _ _ _ Hg) as (A1 & A2 & A3). destruct (cg_room _ _ _ _ _ _ _ _ Hg) as [R1 R2].
    pose proof (cg_pages _ _ _ _ _ _ _ _ Hg) as Hp. destruct l as [|n [|n' l]]; [cbn in Hp; lia..|].
    apply (heap_page_added s i pr n (n' :: l) pages lq a); try done; try lia.
    + apply Hg.
    + apply (cg_absent _ _ _ _ _ _ _ _ Hg). lia.
    + intros Hin. apply (cg_unrecorded _ _ _ _ _ _ _ _ Hg a Hin). lia.
    + intros s' e t k Hk Hok' Hadd. rewrite u32_small by klia. change (a + PGSIZE) with (a + 4096).
      pose proof (can_grow_step _ _ _ _ _ _ _ _ _ _ _ _ _ _ Hk Hg Hok' Hadd) as Hg'.
      change (p_pgdir pr) with (p_pgdir (listed_proc pr e t)).
      eapply wp_mono; [apply (IH s' i (listed_proc pr e t) _ pages _ (a + 4096) oldsz newsz Hg'); lia|].
      cbn beta. intros r s2 [-> H2]. split; [done|]. by eapply grow_step.
Qed.

(** allocuvm, when the heap may grow and there is memory. *)
Lemma allocuvm_ok s i pr l pages lq oldsz newsz :
  let a := PGROUNDUP oldsz in
  can_grow s i pr l pages lq a (pages_to a newsz) -> 0 <= oldsz <= newsz -> newsz <= stack_border pr - PGSIZE ->
  wp (allocuvm (p_pgdir pr) oldsz newsz) s (fun r s' =>
    r = newsz /\ heap_grown s i pr pages lq a (pages_to a newsz) s').
Proof.
  intros a Hg Ho Hn. pose proof (cg_ok _ _ _ _ _ _ _ _ Hg) as Hok. destruct (po_stack _ _ _ _ _ _ Hok) as [_ Hst].
  unfold allocuvm. wp_steps. eapply wp_myproc; [apply Hok|]. wp_steps.
  eapply wp_get_proc; [apply (po_table _ _ _ _ _ _ Hok)|]. unfold stack_border in Hn.
  rewrite u32_small by klia. destruct (Z.ltb_spec (USERTOP - p_stackSize pr - PGSIZE) newsz); [lia|].
  destruct (Z.ltb_spec KERNBASE newsz); [klia|]. destruct (Z.ltb_spec newsz oldsz); [lia|].
  apply (allocuvm_loop_ok _ s i pr l pages lq a oldsz newsz Hg). unfold pages_to. fold a. unfold PGSIZE. dlia.
Qed.

End Heap.
