(* ===== verification/Sched.v ===== *)
(** Giving up and taking the processor: sleep, wakeup, sched, yield and the
    scheduler of src/src/proc.c, for one processor.

    A call of sched() ends in the outcome [Sleep]: the process has left the
    processor in the state shown, with ptable.lock held, as the scheduler finds
    it.  What the process does when it runs again is the code after the call. *)

From stdpp Require Import base gmap list strings.
From Stdlib Require Import ZArith Lia.
From S2P Require Import Prelude Mem Str Mmu State Kalloc MemTable Vm.

(** ** Wait channels

    A channel is the address of an object; only equality matters.  Each kind of
    object has its own numbers. *)
Definition chan_addr (kind idx : Z) : Z := 16 * idx + kind.
Definition proc_chan (i : nat) : Z := chan_addr 1 (Z.of_nat i).
Definition log_chan : Z := chan_addr 2 0.
Definition buf_chan (i : nat) : Z := chan_addr 3 (Z.of_nat i).
Definition inode_chan (i : nat) : Z := chan_addr 4 (Z.of_nat i).
Definition pipe_nread_chan (p : Z) : Z := chan_addr 5 p.
Definition pipe_nwrite_chan (p : Z) : Z := chan_addr 6 p.
Definition ticks_chan : Z := chan_addr 7 0.
Definition input_chan : Z := chan_addr 8 0.

(** How many spin locks of the file system and the devices are held. *)
Class Spinlocks (F : Type) := fs_locks : F -> Z.

Section Sched.
Context {F : Type} {KI : KernelImage} {SL : Spinlocks F}.
Implicit Types s : kst F.

Definition ptable_acquire : M (kst F) unit :=
  acquire (fun s => k_ptable_lock s) (fun b s => s <| k_ptable_lock := b |>).
Definition ptable_release : M (kst F) unit :=
  release (fun s => k_ptable_lock s) (fun b s => s <| k_ptable_lock := b |>).

(** mycpu()->ncli where sched is called: pushcli is called once for every spin lock
    that is held, and on one processor it is the running process that holds them.
    Interrupts are off then, and only the popcli for the last of them turns them on
    (Spinlock.v); so FL_IF can be set only when there is none. *)
Definition ncli s : Z :=
  Z.b2z (k_ptable_lock s) + Z.b2z (km_lock (k_mem s)) + Z.b2z (k_SharedMemoryLock s) + fs_locks (k_fs s).
Definition fl_if s : bool := ncli s =? 0.

(** The context switch to the scheduler; intena, which is saved over it, is part of
    the processor's state (Spinlock.v). *)
Definition sched {A} : M (kst F) A :=
  i <- myproc ;;
  p <- get_proc i ;;
  held <- gets k_ptable_lock ;;
  n <- gets ncli ;;
  eflags_if <- gets fl_if ;;
  if negb held then panic "sched ptable.lock"
  else if negb (n =? 1) then panic "sched locks"
  else if decide (p_state p = RUNNING) then panic "sched running"
  else if (eflags_if : bool) then panic "sched interruptible"
  else fun s => Sleep (p_chan p) s.

Definition yield : M (kst F) unit :=
  ptable_acquire ;;;
  i <- myproc ;;
  upd_proc i (fun p => p <| p_state := RUNNABLE |>) ;;;
  sched.

(** [release_lk] releases the lock passed to sleep; [None] is ptable.lock. *)
Definition sleep {A} (chan : Z) (release_lk : option (M (kst F) unit)) : M (kst F) A :=
  cur <- gets k_curproc ;;
  match cur with
  | None => panic "sleep"
  | Some i =>
      match release_lk with
      | Some rel => ptable_acquire ;;; rel
      | None => ret tt
      end ;;;
      upd_proc i (fun p => p <| p_chan := chan |> <| p_state := SLEEPING |>) ;;;
      sched
  end.

(** After sched() returns in sleep(). *)
Definition sleep_return (reacquire_lk : option (M (kst F) unit)) : M (kst F) unit :=
  i <- myproc ;;
  upd_proc i (fun p => p <| p_chan := 0 |>) ;;;
  match reacquire_lk with
  | Some acq => ptable_release ;;; acq
  | None => ret tt
  end.

Definition wakeup1 (chan : Z) : M (kst F) unit :=
  modify (fun s => s <| k_ptable ::= fmap (fun p =>
    if decide (p_state p = SLEEPING /\ p_chan p = chan) then p <| p_state := RUNNABLE |> else p) |>).

Definition wakeup (chan : Z) : M (kst F) unit :=
  ptable_acquire ;;;
  wakeup1 chan ;;;
  ptable_release.

(** One turn of the scheduler's inner loop up to the context switch. *)
Definition scheduler_switch (i : nat) : M (kst F) bool :=
  p <- get_proc i ;;
  if decide (p_state p = RUNNABLE) then
    modify (fun s => s <| k_curproc := Some i |>) ;;;
    switchuvm (Some i) ;;;
    upd_proc i (fun p => p <| p_state := RUNNING |>) ;;;
    ret true
  else ret false.

(** The rest of the turn, when the process has switched back. *)
Definition scheduler_return (kpgdir : Z) : M (kst F) unit :=
  switchkvm kpgdir ;;;
  modify (fun s => s <| k_curproc := None |>).

Definition kill (pid : Z) : M (kst F) Z :=
  ptable_acquire ;;;
  n <- gets (fun s => length (k_ptable s)) ;;
  r <- for_find (seq 0 n) (fun i =>
    p <- get_proc i ;;
    if p_pid p =? pid then
      upd_proc i (fun p => p <| p_killed := true |>) ;;;
      p <- get_proc i ;;
      when (bool_decide (p_state p = SLEEPING))
        (upd_proc i (fun p => p <| p_state := RUNNABLE |>)) ;;;
      ret (Some tt)
    else ret None) ;;
  ptable_release ;;;
  ret (match r with Some _ => 0 | None => -1 end).

(** ** What these do to a state *)

(** The state after everyone who sleeps on [chan] has been made runnable. *)
Definition woken (chan : Z) s : kst F :=
  s <| k_ptable ::= fmap (fun p =>
    if decide (p_state p = SLEEPING /\ p_chan p = chan) then p <| p_state := RUNNABLE |> else p) |>.

Lemma wakeup_eq chan s : k_ptable_lock s = false -> wakeup chan s = Ret tt (woken chan s).
Proof. intros H. destruct s. cbn in H. subst. done. Qed.

(** The state in which a process waits on [chan]. *)
Definition asleep (i : nat) (p : proc) (chan : Z) s : kst F :=
  s <| k_ptable_lock := true |>
    <| k_ptable := <[i := p <| p_chan := chan |> <| p_state := SLEEPING |>]> (k_ptable s) |>.

(** Where a process that gives up the processor ends: it sleeps, unless it holds a
    spin lock besides ptable.lock. *)
Definition leaves {A} (chan : Z) s : outcome (kst F) A :=
  if ncli s =? 1 then Sleep chan s else Panic "sched locks".

(** sched, by the state of the process. *)
Lemma sched_eq {A} i p s : k_curproc s = Some i -> k_ptable s !! i = Some p -> k_ptable_lock s = true -> p_state p <> RUNNING ->
  sched (A := A) s = leaves (p_chan p) s.
Proof.
  intros Hc Hp Hl Hr. unfold sched, leaves, fl_if, bind, myproc, gets, get_proc. rewrite Hc, Hp, Hl. cbn [negb].
  destruct (Z.eqb_spec (ncli s) 1) as [->|]; [|done]. cbn [negb Z.eqb]. by rewrite decide_False.
Qed.

Lemma sleep_eq {A} i p chan (rel : M (kst F) unit) s s' :
  k_curproc s = Some i -> k_ptable_lock s = false ->
  rel (s <| k_ptable_lock := true |>) = Ret tt s' ->
  k_ptable s' !! i = Some p -> k_curproc s' = Some i -> k_ptable_lock s' = true ->
  sleep (A := A) chan (Some rel) s = leaves chan (asleep i p chan s').
Proof.
  intros Hc Hl Hr Hp Hc' Hl'. unfold sleep, ptable_acquire, acquire, bind, gets. rewrite Hc, Hl, Hr.
  unfold upd_proc. rewrite Hp.
  set (s1 := s' <| k_ptable := <[i := _]> (k_ptable s') |>).
  assert (k_ptable s1 !! i = Some (p <| p_chan := chan |> <| p_state := SLEEPING |>)) as Hp1
    by (apply list_lookup_insert_eq; by eapply lookup_lt_Some).
  rewrite (sched_eq i _ s1 Hc' Hp1 Hl') by done. cbn [p_chan]. f_equal.
  unfold asleep, s1. by destruct s'; cbn in *; subst.
Qed.

End Sched.
