(* ===== verification/SleepWakeup.v ===== *)
(** Sleep and wakeup on several processors: acquiresleep and releasesleep of
    src/src/sleeplock.c with sleep, wakeup, yield, sched and the scheduler of
    src/src/proc.c, in any interleaving of their steps.

    The processes use one sleep lock [lk].  Each step is one access to what they
    share: the spin locks lk->lk and ptable.lock, the fields of the sleep lock,
    and the state and the channel of the processes.  A spin lock is the processor
    that holds it.  A processor is in its scheduler, which holds ptable.lock
    while it looks for a process, or runs a process, which takes the lock over
    with the switch and gives it back with sched. *)

From stdpp Require Import base gmap list strings.
From Stdlib Require Import ZArith Lia.
From S2P Require Import Prelude Mmu State.

(** Where a process is.  [inside] in yield says that it has the sleep lock. *)
Inductive pc :=
| Forkret                                                  (* release(&ptable.lock) *)
| Outside
| AcqLk | AcqTest | AcqSet | AcqRel                        (* acquiresleep *)
| SlpAcq | SlpRel | SlpChan | SlpState | SlpSched          (* sleep, up to sched() *)
| SlpBack | SlpUnlock | SlpRelk                            (* and after it *)
| Inside
| RelLk | RelFree                                          (* releasesleep, up to wakeup *)
| WkAcq | WkScan (k : nat) | WkRel                         (* wakeup *)
| RelRel
| YldAcq (inside : bool) | YldState (inside : bool) | YldSched (inside : bool) | YldBack (inside : bool).

(** A process: where it is, [p->state], and whether [p->chan] is the sleep lock. *)
Record thread := { t_pc : pc; t_state : procstate; t_chan : bool }.

(** A processor: before acquire(&ptable.lock) of the scheduler, at the process
    [k] of its loop, or running the process [i]. *)
Inductive cpu := Idle | Scan (k : nat) | Run (i : nat).

Record machine := {
  lk_lk : option nat;
  ptable_lock : option nat;
  lk_locked : option nat;
  threads : nat -> thread;
  cpus : nat -> cpu;
}.

#[global] Instance eta_thread : Eta thread := fun t => {| t_pc := t_pc t; t_state := t_state t; t_chan := t_chan t |}.
#[global] Instance eta_machine : Eta machine := fun m =>
  {| lk_lk := lk_lk m; ptable_lock := ptable_lock m; lk_locked := lk_locked m; threads := threads m; cpus := cpus m |}.

Definition put {A} (f : nat -> A) (i : nat) (v : A) : nat -> A := fun j => if decide (j = i) then v else f j.

(** A step goes on, waits for a spin lock, or panics. *)
Inductive result := Go (m : machine) | Spin | Panics (msg : string).

Definition set_thread (i : nat) (f : thread -> thread) (m : machine) : machine :=
  m <| threads := put (threads m) i (f (threads m i)) |>.
Definition goto (i : nat) (l : pc) (m : machine) : machine := set_thread i (fun t => t <| t_pc := l |>) m.
Definition set_cpu (c : nat) (x : cpu) (m : machine) : machine := m <| cpus := put (cpus m) c x |>.

(** acquire and release by the processor [c], and what follows. *)
Definition acq_lk (c : nat) (m : machine) (k : machine -> machine) : result :=
  match lk_lk m with
  | None => Go (k (m <| lk_lk := Some c |>))
  | Some d => if decide (d = c) then Panics "acquire" else Spin
  end.
Definition rel_lk (c : nat) (m : machine) (k : machine -> machine) : result :=
  if decide (lk_lk m = Some c) then Go (k (m <| lk_lk := None |>)) else Panics "release".
Definition acq_ptable (c : nat) (m : machine) (k : machine -> machine) : result :=
  match ptable_lock m with
  | None => Go (k (m <| ptable_lock := Some c |>))
  | Some d => if decide (d = c) then Panics "acquire" else Spin
  end.
Definition rel_ptable (c : nat) (m : machine) (k : machine -> machine) : result :=
  if decide (ptable_lock m = Some c) then Go (k (m <| ptable_lock := None |>)) else Panics "release".

(** sched: its checks, and the switch to the scheduler of [c], which goes on
    after the process [i]; the process is to continue at [l]. *)
Definition sched (c i : nat) (l : pc) (m : machine) : result :=
  if decide (ptable_lock m <> Some c) then Panics "sched ptable.lock"
  else if decide (lk_lk m = Some c) then Panics "sched locks"
  else if decide (t_state (threads m i) = RUNNING) then Panics "sched running"
  else Go (set_cpu c (Scan (S i)) (goto i l m)).

(** The body of the loop of wakeup1 for the process [k]. *)
Definition wakeup1_body (k : nat) (m : machine) : machine :=
  if decide (t_state (threads m k) = SLEEPING /\ t_chan (threads m k) = true)
  then set_thread k (fun t => t <| t_state := RUNNABLE |>) m else m.

(** One step of the process [i] on the processor [c]; [irq] is a timer interrupt
    where it has interrupts on. *)
Definition thread_step (irq : bool) (c i : nat) (m : machine) : result :=
  match t_pc (threads m i) with
  | Forkret => rel_ptable c m (goto i Outside)
  | Outside => Go (goto i (if irq then YldAcq false else AcqLk) m)
  | AcqLk => acq_lk c m (goto i AcqTest)
  | AcqTest => Go (goto i (match lk_locked m with Some _ => SlpAcq | None => AcqSet end) m)
  | AcqSet => Go (goto i AcqRel (m <| lk_locked := Some i |>))
  | AcqRel => rel_lk c m (goto i Inside)
  | SlpAcq => acq_ptable c m (goto i SlpRel)
  | SlpRel => rel_lk c m (goto i SlpChan)
  | SlpChan => Go (set_thread i (fun t => t <| t_chan := true |> <| t_pc := SlpState |>) m)
  | SlpState => Go (set_thread i (fun t => t <| t_state := SLEEPING |> <| t_pc := SlpSched |>) m)
  | SlpSched => sched c i SlpBack m
  | SlpBack => Go (set_thread i (fun t => t <| t_chan := false |> <| t_pc := SlpUnlock |>) m)
  | SlpUnlock => rel_ptable c m (goto i SlpRelk)
  | SlpRelk => acq_lk c m (goto i AcqTest)
  | Inside => Go (goto i (if irq then YldAcq true else RelLk) m)
  | RelLk => acq_lk c m (goto i RelFree)
  | RelFree => Go (goto i WkAcq (m <| lk_locked := None |>))
  | WkAcq => acq_ptable c m (goto i (WkScan 0))
  | WkScan k =>
      if (k <? Z.to_nat NPROC)%nat then Go (goto i (WkScan (S k)) (wakeup1_body k m)) else Go (goto i WkRel m)
  | WkRel => rel_ptable c m (goto i RelRel)
  | RelRel => rel_lk c m (goto i Outside)
  | YldAcq b => acq_ptable c m (goto i (YldState b))
  | YldState b => Go (set_thread i (fun t => t <| t_state := RUNNABLE |> <| t_pc := YldSched b |>) m)
  | YldSched b => sched c i (YldBack b) m
  | YldBack b => rel_ptable c m (goto i (if b then Inside else Outside))
  end.

(** One step of the scheduler of [c]. *)
Definition scheduler_step (c : nat) (m : machine) : result :=
  match cpus m c with
  | Idle => acq_ptable c m (set_cpu c (Scan 0))
  | Scan k =>
      if (k <? Z.to_nat NPROC)%nat then
        if decide (t_state (threads m k) = RUNNABLE)
        then Go (set_cpu c (Run k) (set_thread k (fun t => t <| t_state := RUNNING |>) m))
        else Go (set_cpu c (Scan (S k)) m)
      else rel_ptable c m (set_cpu c Idle)
  | Run _ => Spin
  end.

(** One step of the processor [c]. *)
Definition cpu_step (irq : bool) (c : nat) (m : machine) : result :=
  match cpus m c with
  | Run i => thread_step irq c i m
  | _ => scheduler_step c m
  end.

Inductive step : machine -> machine -> Prop :=
| step_go irq c m m' : cpu_step irq c m = Go m' -> step m m'.

(** At the start the processors are in their schedulers, the locks are free,
    and the processes are runnable, or unused and never run. *)
Definition start (used : nat -> bool) : machine :=
  {| lk_lk := None; ptable_lock := None; lk_locked := None; cpus := fun _ => Idle;
     threads := fun i => {| t_pc := Forkret; t_state := if used i then RUNNABLE else UNUSED; t_chan := false |} |}.

(** ** Invariant *)

(** What a process that runs holds at each place. *)
Definition holds_lk (l : pc) : bool :=
  match l with
  | AcqTest | AcqSet | AcqRel | SlpAcq | SlpRel | RelFree | WkAcq | WkScan _ | WkRel | RelRel => true
  | _ => false
  end.
Definition holds_ptable (l : pc) : bool :=
  match l with
  | Forkret | SlpRel | SlpChan | SlpState | SlpSched | SlpBack | SlpUnlock | WkScan _ | WkRel
  | YldState _ | YldSched _ | YldBack _ => true
  | _ => false
  end.
(** The process has the sleep lock. *)
Definition owner (l : pc) : bool :=
  match l with
  | AcqRel | Inside | RelLk | RelFree => true
  | YldAcq b | YldState b | YldSched b | YldBack b => b
  | _ => false
  end.
(** [p->state] while the process runs. *)
Definition live (l : pc) : procstate :=
  match l with SlpSched => SLEEPING | YldSched _ => RUNNABLE | _ => RUNNING end.
(** Where a process that does not run can be. *)
Definition resting (l : pc) : bool := match l with Forkret | SlpBack | YldBack _ => true | _ => false end.
Definition has_chan (l : pc) : bool := match l with SlpState | SlpSched | SlpBack => true | _ => false end.
(** The process has found the lock taken and is going to sleep or asleep. *)
Definition waits (t : thread) : bool :=
  match t_pc t with
  | SlpAcq | SlpRel | SlpChan | SlpState | SlpSched => true
  | SlpBack => bool_decide (t_state t = SLEEPING)
  | _ => false
  end.
(** A process at [l] is going to wake up the process [i] if it sleeps. *)
Definition will_wake (l : pc) (i : nat) : Prop :=
  match l with WkAcq => True | WkScan k => (k <= i)%nat | _ => False end.

Record inv (m : machine) : Prop := {
  i_one : forall c d i, cpus m c = Run i -> cpus m d = Run i -> c = d;
  i_live : forall c i, cpus m c = Run i -> t_state (threads m i) = live (t_pc (threads m i));
  i_rest : forall i, (forall c, cpus m c <> Run i) -> resting (t_pc (threads m i)) = true /\
    (t_state (threads m i) = RUNNABLE \/ t_state (threads m i) = UNUSED \/
     t_state (threads m i) = SLEEPING /\ t_pc (threads m i) = SlpBack);
  i_chan : forall i, has_chan (t_pc (threads m i)) = true -> t_chan (threads m i) = true;
  i_lk : forall c, lk_lk m = Some c <-> exists i, cpus m c = Run i /\ holds_lk (t_pc (threads m i)) = true;
  i_ptable : forall c, ptable_lock m = Some c <->
    (exists k, cpus m c = Scan k) \/ exists i, cpus m c = Run i /\ holds_ptable (t_pc (threads m i)) = true;
  i_owner : forall i, lk_locked m = Some i <-> owner (t_pc (threads m i)) = true;
  i_set : forall c i, cpus m c = Run i -> t_pc (threads m i) = AcqSet -> lk_locked m = None;
  i_bound : forall i, (exists c, cpus m c = Run i) \/ t_pc (threads m i) <> Forkret -> (i < Z.to_nat NPROC)%nat;
  i_wake : forall i, waits (threads m i) = true ->
    lk_locked m <> None \/ exists j, will_wake (t_pc (threads m j)) i;
}.

Lemma put_eq {A} (f : nat -> A) i v : put f i v i = v.
Proof. unfold put. by rewrite decide_True. Qed.

Lemma put_ne {A} (f : nat -> A) i j v : j <> i -> put f i v j = f j.
Proof. intros H. unfold put. by rewrite decide_False. Qed.

(** How a lock changes when the process on [c] goes from [old] to [new]. *)
Definition lock_change (c : nat) (old new : bool) (lk lk' : option nat) : Prop :=
  (lk' = lk /\ new = old) \/ (lk = None /\ lk' = Some c /\ new = true) \/ (lk' = None /\ old = true /\ new = false).

Lemma lock_change_ok (R R' : nat -> Prop) c old new lk lk' : (forall d, lk = Some d <-> R d) ->
  lock_change c old new lk lk' -> (R c <-> old = true) -> (R' c <-> new = true) -> (forall d, d <> c -> R' d <-> R d) ->
  forall d, lk' = Some d <-> R' d.
Proof.
  intros HR HC Hold Hnew Hne d. pose proof (HR c) as HRc. pose proof (HR d) as HRd.
  destruct (decide (d = c)) as [->|Hd]; [rewrite Hnew|rewrite (Hne d Hd), <-HRd];
    destruct HC as [(-> & ->)|[(H0 & -> & ->)|(-> & Ho & ->)]].
  - by rewrite HRc.
  - done.
  - done.
  - done.
  - rewrite H0. split; [|done]. intros [= ->]. done.
  - assert (lk = Some c) as -> by (by apply HRc, Hold). split; [done|]. intros [= ->]. done.
Qed.

(** A process goes on where it runs. *)
Lemma inv_thread m m' c i t : inv m -> cpus m c = Run i -> let t0 := threads m i in
  cpus m' = cpus m -> threads m' = put (threads m) i t ->
  t_state t = live (t_pc t) -> t_pc t <> Forkret -> (has_chan (t_pc t) = true -> t_chan t = true) ->
  lock_change c (holds_lk (t_pc t0)) (holds_lk (t_pc t)) (lk_lk m) (lk_lk m') ->
  lock_change c (holds_ptable (t_pc t0)) (holds_ptable (t_pc t)) (ptable_lock m) (ptable_lock m') ->
  lock_change i (owner (t_pc t0)) (owner (t_pc t)) (lk_locked m) (lk_locked m') ->
  (t_pc t = AcqSet -> lk_locked m' = None) -> (lk_locked m' = lk_locked m \/ holds_lk (t_pc t0) = true) ->
  (waits t = true -> waits t0 = true \/ lk_locked m' <> None) ->
  (lk_locked m' = None -> lk_locked m = None \/ t_pc t = WkAcq) ->
  (forall j, waits (threads m j) = true -> will_wake (t_pc t0) j -> will_wake (t_pc t) j) ->
  inv m'.
Proof.
  intros Hinv Hc t0 Ec Et Hlive Hfork Hchan HA HP HO Hset Hsetlk Hw Hnone Hpass.
  assert (forall d, cpus m d = Run i -> d = c) as Hone by (intros d Hd; by eapply (i_one _ Hinv)).
  split; rewrite ?Ec, ?Et.
  - apply Hinv.
  - intros d j Hd. destruct (decide (j = i)) as [->|]; [by rewrite put_eq|]. rewrite put_ne by done. by eapply Hinv.
  - intros j Hj. destruct (decide (j = i)) as [->|]; [by apply Hj in Hc|]. rewrite put_ne by done. by apply Hinv.
  - intros j. destruct (decide (j = i)) as [->|]; [by rewrite put_eq|]. rewrite put_ne by done. apply Hinv.
  - eapply lock_change_ok; [apply (i_lk _ Hinv)|exact HA| | |].
    + split; [intros (j & Hj & Hh); by assert (j = i) as -> by congruence|by exists i].
    + split; [intros (j & Hj & Hh); assert (j = i) as -> by congruence; by rewrite put_eq in Hh|exists i; by rewrite put_eq].
    + intros d Hd. split; intros (j & Hj & Hh); exists j; (assert (j <> i) by (intros ->; by apply Hd, Hone));
        by rewrite put_ne in *.
  - eapply lock_change_ok; [apply (i_ptable _ Hinv)|exact HP| | |].
    + split; [intros [[k Hk]|(j & Hj & Hh)]; [congruence|by assert (j = i) as -> by congruence]|right; by exists i].
    + split; [intros [[k Hk]|(j & Hj & Hh)]; [congruence|assert (j = i) as -> by congruence; by rewrite put_eq in Hh]|].
      intros Hh. right. exists i. by rewrite put_eq.
    + intros d Hd. split; (intros [Hk|(j & Hj & Hh)]; [by left|right; exists j]); (assert (j <> i) by (intros ->; by apply Hd, Hone));
        by rewrite put_ne in *.
  - eapply (lock_change_ok _ (fun j => owner (t_pc (put (threads m) i t j)) = true)); [apply (i_owner _ Hinv)|exact HO|done| |].
    + by rewrite put_eq.
    + intros d Hd. by rewrite put_ne.
  - intros d j Hd. destruct (decide (j = i)) as [->|Hji]; [by rewrite put_eq|]. rewrite put_ne by done. intros Hj.
    destruct Hsetlk as [->|Hlk]; [by apply (i_set _ Hinv d j)|]. exfalso. apply Hji.
    assert (lk_lk m = Some c) by (apply (i_lk _ Hinv); by exists i).
    assert (lk_lk m = Some d) by (apply (i_lk _ Hinv); exists j; by rewrite Hj). congruence.
  - intros j. destruct (decide (j = i)) as [->|]; [intros _; apply (i_bound _ Hinv); left; by exists c|].
    rewrite put_ne by done. apply Hinv.
  - intros j Hj. destruct (lk_locked m') as [o|] eqn:Elk; [by left|right]. destruct (decide (j = i)) as [->|Hji].
    + rewrite put_eq in Hj. destruct (Hw Hj) as [Hw0|Hw0]; [|done]. destruct (Hnone eq_refl) as [H0|Hk].
      * destruct (i_wake _ Hinv i Hw0) as [Hl|(k & Hk)]; [done|]. destruct (decide (k = i)) as [->|Hki].
        { exists i. rewrite put_eq. by apply Hpass. }
        exists k. by rewrite put_ne.
      * exists i. by rewrite put_eq, Hk.
    + rewrite put_ne in Hj by done. destruct (Hnone eq_refl) as [H0|Hk]; [|exists i; by rewrite put_eq, Hk].
      destruct (i_wake _ Hinv j Hj) as [Hl|(k & Hk)]; [done|]. destruct (decide (k = i)) as [->|Hki].
      * exists i. rewrite put_eq. by apply Hpass.
      * exists k. by rewrite put_ne.
Qed.

Lemma ptable_held m c : inv m -> (exists k, cpus m c = Scan k) \/ (exists i, cpus m c = Run i /\ holds_ptable (t_pc (threads m i)) = true) ->
  ptable_lock m = Some c.
Proof. intros Hinv H. by apply (i_ptable _ Hinv). Qed.

(** While [c] has ptable.lock, a process that is not [RUNNING] runs nowhere but on [c]. *)
Lemma not_running m c d j : inv m -> ptable_lock m = Some c -> cpus m d = Run j -> t_state (threads m j) <> RUNNING -> d = c.
Proof.
  intros Hinv Hp Hd Hs. rewrite (i_live _ Hinv d j Hd) in Hs. assert (ptable_lock m = Some d) as Hpd; [|congruence].
  apply ptable_held; [done|]. right. exists j. split; [done|]. by destruct (t_pc (threads m j)).
Qed.

(** A processor in its scheduler goes on, taking or giving back ptable.lock. *)
Lemma inv_scheduler m c x pl : inv m -> (forall i, cpus m c <> Run i) -> (forall i, x <> Run i) ->
  (pl = Some c /\ (exists k, x = Scan k) /\ (ptable_lock m = None \/ ptable_lock m = Some c) \/
   pl = None /\ x = Idle /\ ptable_lock m = Some c) ->
  inv {| lk_lk := lk_lk m; ptable_lock := pl; lk_locked := lk_locked m; threads := threads m; cpus := put (cpus m) c x |}.
Proof.
  intros Hinv Hc Hx Hpl.
  assert (forall d i, put (cpus m) c x d = Run i <-> cpus m d = Run i) as Hrun.
  { intros d i. destruct (decide (d = c)) as [->|]; [rewrite put_eq|by rewrite put_ne]. split; intros H; [by apply Hx in H|by apply Hc in H]. }
  split; cbn [lk_lk ptable_lock lk_locked threads cpus]; try apply Hinv.
  - intros d e i. rewrite !Hrun. apply Hinv.
  - intros d i. rewrite !Hrun. apply Hinv.
  - intros i Hi. apply (i_rest _ Hinv). intros d. rewrite <-Hrun. apply Hi.
  - intros d. setoid_rewrite Hrun. apply Hinv.
  - intros d. setoid_rewrite Hrun. pose proof (i_ptable _ Hinv) as HP. destruct (decide (d = c)) as [->|Hd].
    + rewrite put_eq. destruct Hpl as [(-> & [k ->] & _)|(-> & -> & _)]; [split; [left; by exists k|done]|].
      split; [done|]. intros [[k Hk]|(i & Hi & _)]; [done|by apply Hc in Hi].
    + rewrite put_ne by done. rewrite <-HP. destruct Hpl as [(-> & _ & [->| ->])|(-> & _ & ->)]; split; congruence.
  - intros d i. rewrite !Hrun. apply Hinv.
  - intros i [[d Hd]|Hi]; apply (i_bound _ Hinv); [left; exists d; by apply Hrun|by right].
Qed.

(** The process [k] changes and [c] switches to it or from it, with ptable.lock;
    the process keeps what the sleep lock and the wait depend on. *)
Lemma inv_switch m m' c k x t : inv m -> ptable_lock m = Some c ->
  lk_lk m' = lk_lk m -> ptable_lock m' = ptable_lock m -> lk_locked m' = lk_locked m ->
  threads m' = put (threads m) k t -> cpus m' = put (cpus m) c x ->
  (forall d, cpus m d = Run k -> d = c) -> (forall i, cpus m c = Run i -> i = k) ->
  holds_lk (t_pc (threads m k)) = false -> holds_lk (t_pc t) = false -> (k < Z.to_nat NPROC)%nat ->
  (has_chan (t_pc t) = true -> t_chan t = true) -> owner (t_pc t) = owner (t_pc (threads m k)) ->
  (waits t = true -> waits (threads m k) = true) -> (forall j, ~ will_wake (t_pc (threads m k)) j) ->
  (x = Run k /\ t_state t = live (t_pc t) /\ holds_ptable (t_pc t) = true) \/
  ((exists j, x = Scan j) /\ resting (t_pc t) = true /\
    (t_state t = RUNNABLE \/ t_state t = SLEEPING /\ t_pc t = SlpBack)) ->
  inv m'.
Proof.
  intros Hinv Hp E1 E2 E3 Et Ec Hk Hck Hh Hh' Hlt Hchan Hown Hw Hnw Hx.
  assert (forall d i, put (cpus m) c x d = Run i -> i = k /\ d = c /\ x = Run k \/ i <> k /\ d <> c /\ cpus m d = Run i) as Hrun.
  { intros d i. destruct (decide (d = c)) as [->|Hd].
    - rewrite put_eq. intros Hxi. destruct Hx as [(Hx & _)|([j Hx] & _)]; rewrite Hx in Hxi; [|done]. injection Hxi as <-. by left.
    - rewrite put_ne by done. intros Hi. right. split; [|done]. intros ->. by apply Hd, Hk. }
  split; rewrite ?E1, ?E2, ?E3, ?Et, ?Ec.
  - intros d e i Hd He. destruct (Hrun d i Hd) as [(? & ? & _)|(? & ? & Hd')], (Hrun e i He) as [(? & ? & _)|(? & ? & He')]; try congruence.
    by eapply (i_one _ Hinv).
  - intros d i Hd. destruct (Hrun d i Hd) as [(-> & -> & ->)|(? & ? & Hd')]; [rewrite put_eq|rewrite put_ne by done; by eapply Hinv].
    by destruct Hx as [(_ & ? & _)|([j ?] & _)].
  - intros i Hi. destruct (decide (i = k)) as [->|Hik].
    + rewrite put_eq. destruct Hx as [(-> & _)|(_ & Hr & Hs)]; [by specialize (Hi c); rewrite put_eq in Hi|]. split; [done|tauto].
    + rewrite put_ne by done. apply (i_rest _ Hinv). intros d Hd. specialize (Hi d).
      destruct (decide (d = c)) as [->|]; [by apply Hck in Hd|]. by rewrite put_ne in Hi.
  - intros i. destruct (decide (i = k)) as [->|]; [by rewrite put_eq|rewrite put_ne by done; apply Hinv].
  - intros d. rewrite (i_lk _ Hinv). split; intros (i & Hi & Hhi).
    + assert (d <> c) by (intros ->; apply Hck in Hi as ->; congruence). exists i. rewrite !put_ne; [done| |done].
      intros ->. by apply Hk in Hi.
    + destruct (Hrun d i Hi) as [(-> & _)|(? & ? & Hd')]; [rewrite put_eq in Hhi; congruence|].
      exists i. rewrite put_ne in Hhi by done. done.
  - intros d. destruct (decide (d = c)) as [->|Hd].
    + rewrite Hp, put_eq. split; [intros _|done]. destruct Hx as [(-> & _ & Hx)|([j ->] & _)]; [|left; by exists j].
      right. exists k. by rewrite put_eq.
    + rewrite Hp. split; [congruence|]. rewrite put_ne by done. intros H. exfalso. apply Hd.
      assert (ptable_lock m = Some d); [|congruence]. apply (i_ptable _ Hinv). destruct H as [?|(i & Hi & Hhi)]; [by left|right].
      exists i. split; [done|]. rewrite put_ne in Hhi; [done|]. intros ->. by apply Hd, Hk.
  - intros i. rewrite (i_owner _ Hinv). destruct (decide (i = k)) as [->|]; [by rewrite put_eq, Hown|by rewrite put_ne].
  - intros d i Hd. destruct (Hrun d i Hd) as [(-> & _)|(? & ? & Hd')].
    + rewrite put_eq. intros H. rewrite H in Hh'. done.
    + rewrite put_ne by done. by apply (i_set _ Hinv d).
  - intros i [[d Hd]|Hi].
    + destruct (Hrun d i Hd) as [(-> & _)|(? & ? & Hd')]; [done|]. apply (i_bound _ Hinv). left. by exists d.
    + destruct (decide (i = k)) as [->|]; [done|]. rewrite put_ne in Hi by done. apply (i_bound _ Hinv). by right.
  - intros i Hi. assert (waits (threads m i) = true) as Hi'.
    { destruct (decide (i = k)) as [->|]; [rewrite put_eq in Hi; auto|by rewrite put_ne in Hi]. }
    destruct (i_wake _ Hinv i Hi') as [?|(j & Hj)]; [by left|right]. exists j. rewrite put_ne; [done|]. intros ->. by apply Hnw in Hj.
Qed.

(** wakeup1 makes a process runnable. *)
Lemma inv_wakeup1 m m' c i k t : inv m -> cpus m c = Run i -> t_pc (threads m i) = WkScan k ->
  t_state (threads m k) = SLEEPING -> t_chan (threads m k) = true ->
  lk_lk m' = lk_lk m -> ptable_lock m' = ptable_lock m -> lk_locked m' = lk_locked m ->
  threads m' = put (threads m) k t -> cpus m' = cpus m ->
  t_pc t = t_pc (threads m k) -> t_chan t = true -> t_state t = RUNNABLE -> inv m' /\ waits t = false.
Proof.
  intros Hinv Hc Hpc Hs Hch E1 E2 E3 Et Ec Epc Ech Est.
  assert (ptable_lock m = Some c) as Hp by (apply ptable_held; [done|right; exists i; by rewrite Hpc]).
  assert (forall d, cpus m d <> Run k) as Hoff.
  { intros d Hd. assert (d = c) as -> by (eapply not_running; [done|done|done|by rewrite Hs]).
    assert (k = i) as -> by congruence. rewrite (i_live _ Hinv c i Hc), Hpc in Hs. done. }
  destruct (i_rest _ Hinv k Hoff) as [Hrest Hstate].
  assert (t_pc t = SlpBack) as Esb by (rewrite Epc; destruct Hstate as [?|[?|[_ ?]]]; congruence).
  assert (waits t = false) as Hwt by (unfold waits; by rewrite Esb, Est). split; [|done].
  assert (forall j, t_pc (put (threads m) k t j) = t_pc (threads m j)) as Hsame.
  { intros j. destruct (decide (j = k)) as [->|]; [by rewrite put_eq|by rewrite put_ne]. }
  split; rewrite ?E1, ?E2, ?E3, ?Et, ?Ec; try (setoid_rewrite Hsame; apply Hinv); try apply Hinv.
  - intros d j Hd. rewrite put_ne by (intros ->; by apply Hoff in Hd). by eapply Hinv.
  - intros j Hj. destruct (decide (j = k)) as [->|]; [rewrite put_eq; rewrite Epc; auto|rewrite put_ne by done; by apply Hinv].
  - intros j. destruct (decide (j = k)) as [->|]; [by rewrite put_eq|rewrite put_ne by done; apply Hinv].
  - intros j Hj. assert (j <> k) by (intros ->; rewrite put_eq in Hj; congruence). rewrite put_ne in Hj by done.
    setoid_rewrite Hsame. by apply (i_wake _ Hinv).
Qed.

(** A step keeps the invariant, and does not panic. *)
Definition fine (r : result) : Prop := match r with Go m => inv m | Spin => True | Panics _ => False end.

Section Step.
Context (m : machine) (Hinv : inv m) (c i : nat) (Hc : cpus m c = Run i).
Abbreviation t := (threads m i).

Lemma lk_mine : lk_lk m = Some c <-> holds_lk (t_pc t) = true.
Proof.
  rewrite (i_lk _ Hinv). split; [intros (j & Hj & Hh); by assert (j = i) as -> by congruence|by exists i].
Qed.

Lemma ptable_mine : ptable_lock m = Some c <-> holds_ptable (t_pc t) = true.
Proof.
  rewrite (i_ptable _ Hinv). split; [|right; by exists i].
  intros [[k Hk]|(j & Hj & Hh)]; [congruence|by assert (j = i) as -> by congruence].
Qed.

Lemma acq_lk_fine k : holds_lk (t_pc t) = false -> (lk_lk m = None -> inv (k (m <| lk_lk := Some c |>))) -> fine (acq_lk c m k).
Proof.
  intros Hh Hk. unfold acq_lk. destruct (lk_lk m) as [d|] eqn:E; [|by apply Hk].
  destruct (decide (d = c)) as [->|]; [|done]. apply lk_mine in E. congruence.
Qed.

Lemma acq_ptable_fine k : holds_ptable (t_pc t) = false -> (ptable_lock m = None -> inv (k (m <| ptable_lock := Some c |>))) ->
  fine (acq_ptable c m k).
Proof.
  intros Hh Hk. unfold acq_ptable. destruct (ptable_lock m) as [d|] eqn:E; [|by apply Hk].
  destruct (decide (d = c)) as [->|]; [|done]. apply ptable_mine in E. congruence.
Qed.

Lemma rel_lk_fine k : holds_lk (t_pc t) = true -> inv (k (m <| lk_lk := None |>)) -> fine (rel_lk c m k).
Proof. intros Hh Hk. unfold rel_lk. by rewrite decide_True by (by apply lk_mine). Qed.

Lemma rel_ptable_fine k : holds_ptable (t_pc t) = true -> inv (k (m <| ptable_lock := None |>)) -> fine (rel_ptable c m k).
Proof. intros Hh Hk. unfold rel_ptable. by rewrite decide_True by (by apply ptable_mine). Qed.

Lemma state_live : t_state t = live (t_pc t).
Proof. by apply (i_live _ Hinv c). Qed.

(** The goals of [inv_thread] for a step from a known place. *)
Ltac on_thread Hpc :=
  eapply (inv_thread m _ c i _ Hinv Hc); [reflexivity|reflexivity|..]; cbn; rewrite ?Hpc;
  [try (rewrite state_live, Hpc); try done|try done|try done|first [left; done|right; left; done|right; right; done|idtac]|first [left; done|right; left; done|right; right; done|idtac]
  |first [left; done|right; left; done|right; right; done|idtac]|try done|first [left; done|right; done]
  |unfold waits; cbn; rewrite ?Hpc; try done|try (intros; by left)|try done].

Lemma sched_fine l : holds_ptable (t_pc t) = true -> holds_lk (t_pc t) = false -> resting l = true ->
  owner l = owner (t_pc t) -> (forall j, ~ will_wake (t_pc t) j) -> (has_chan l = true -> has_chan (t_pc t) = true) ->
  (t_state t = RUNNABLE \/ t_state t = SLEEPING /\ l = SlpBack /\ waits t = true) -> fine (sched c i l m).
Proof.
  intros Hh Hh' Hr Ho Hw Hch Hs. unfold sched. assert (ptable_lock m = Some c) as Hp by (by apply ptable_mine).
  rewrite decide_False by (by intros ?). rewrite decide_False by (rewrite lk_mine; congruence).
  rewrite decide_False by (destruct Hs as [->|[-> _]]; done).
  assert (holds_lk l = false) as Hl by (by destruct l).
  eapply (inv_switch m _ c i (Scan (S i)) _ Hinv Hp); try reflexivity; cbn; try done.
  - intros d Hd. by eapply (i_one _ Hinv).
  - intros j Hj. congruence.
  - apply (i_bound _ Hinv). left. by exists c.
  - intros H. apply (i_chan _ Hinv). auto.
  - unfold waits. cbn. destruct Hs as [Hs|(Hs & -> & Hwt)]; [|done]. rewrite Hs. by destruct l.
  - right. split; [by eexists|]. split; [done|]. destruct Hs as [?|(? & -> & _)]; auto.
Qed.

(** While wakeup1 scans, who waits is asleep on the channel. *)
Lemma waiter_asleep k j : t_pc t = WkScan k -> waits (threads m j) = true ->
  t_state (threads m j) = SLEEPING /\ t_chan (threads m j) = true.
Proof.
  intros Hpc Hj. assert (forall d, cpus m d <> Run j) as Hoff.
  { intros d Hd. pose proof (i_live _ Hinv d j Hd) as Hl.
    assert (lk_lk m = Some c) as H1 by (apply lk_mine; by rewrite Hpc).
    assert (ptable_lock m = Some c) as H2 by (apply ptable_mine; by rewrite Hpc).
    assert (d = c) as ->.
    { unfold waits in Hj.
      destruct (t_pc (threads m j)) eqn:Ej; try done.
      1, 2: assert (lk_lk m = Some d); [apply (i_lk _ Hinv); exists j; by rewrite Ej|congruence].
      1, 2, 3: assert (ptable_lock m = Some d); [apply (i_ptable _ Hinv); right; exists j; by rewrite Ej|congruence].
      rewrite Hl in Hj. done. }
    assert (j = i) as -> by congruence. unfold waits in Hj. by rewrite Hpc in Hj. }
  destruct (i_rest _ Hinv j Hoff) as [Hr _]. unfold waits in Hj.
  destruct (t_pc (threads m j)) eqn:Ej; try done. apply bool_decide_eq_true in Hj. split; [done|].
  apply (i_chan _ Hinv). by rewrite Ej.
Qed.

Lemma wakeup_fine k : t_pc t = WkScan k ->
  fine (if (k <? Z.to_nat NPROC)%nat then Go (goto i (WkScan (S k)) (wakeup1_body k m)) else Go (goto i WkRel m)).
Proof.
  intros Hpc. destruct (Nat.ltb_spec k (Z.to_nat NPROC)) as [Hk|Hk].
  - unfold wakeup1_body. destruct (decide _) as [[Hs Hch]|Hn].
    + set (m1 := set_thread k _ m).
      destruct (inv_wakeup1 m m1 c i k ((threads m k) <| t_state := RUNNABLE |>)) as [Hinv1 Hw]; try done.
      assert (i <> k) as Hik.
      { intros E. rewrite <-E, state_live, Hpc in Hs. done. }
      assert (threads m1 i = threads m i) as Ei by (cbn; by rewrite put_ne).
      eapply (inv_thread m1 _ c i _ Hinv1 Hc); [reflexivity|reflexivity|..]; rewrite ?Ei; cbn; rewrite ?Hpc; try done; try (by left).
      * by rewrite state_live, Hpc.
      * intros j Hj Hle. cbn in Hle. assert (j <> k); [|lia]. intros ->. rewrite put_eq in Hj. discriminate (eq_trans (eq_sym Hw) Hj).
    + on_thread Hpc. intros j Hj Hle. cbn in Hle. assert (j <> k); [|lia]. intros ->. by apply Hn, (waiter_asleep k).
  - on_thread Hpc. intros j Hj Hle. exfalso. assert (j < Z.to_nat NPROC)%nat; [|cbn in Hle; lia].
    apply (i_bound _ Hinv). right. intros E. unfold waits in Hj. by rewrite E in Hj.
Qed.

Lemma thread_fine irq : fine (thread_step irq c i m).
Proof.
  unfold thread_step. destruct (t_pc t) eqn:Hpc.
  - apply rel_ptable_fine; [by rewrite Hpc|]. on_thread Hpc.
  - destruct irq; on_thread Hpc.
  - apply acq_lk_fine; [by rewrite Hpc|]. intros E. on_thread Hpc.
  - destruct (lk_locked m) eqn:E; on_thread Hpc. intros _. right. by rewrite E.
  - pose proof (i_set _ Hinv c i Hc Hpc) as E. on_thread Hpc.
  - apply rel_lk_fine; [by rewrite Hpc|]. on_thread Hpc.
  - apply acq_ptable_fine; [by rewrite Hpc|]. intros E. on_thread Hpc. auto.
  - apply rel_lk_fine; [by rewrite Hpc|]. on_thread Hpc. auto.
  - on_thread Hpc. auto.
  - on_thread Hpc; [|auto]. intros _. apply (i_chan _ Hinv). by rewrite Hpc.
  - apply sched_fine; rewrite ?Hpc; [done..|by intros j ?|done|]. right. rewrite state_live. unfold waits. by rewrite Hpc.
  - on_thread Hpc.
  - apply rel_ptable_fine; [by rewrite Hpc|]. on_thread Hpc.
  - apply acq_lk_fine; [by rewrite Hpc|]. intros E. on_thread Hpc.
  - destruct irq; on_thread Hpc.
  - apply acq_lk_fine; [by rewrite Hpc|]. intros E. on_thread Hpc.
  - on_thread Hpc. auto.
  - apply acq_ptable_fine; [by rewrite Hpc|]. intros E. on_thread Hpc. intros; lia.
  - by apply wakeup_fine.
  - apply rel_ptable_fine; [by rewrite Hpc|]. on_thread Hpc.
  - apply rel_lk_fine; [by rewrite Hpc|]. on_thread Hpc.
  - apply acq_ptable_fine; [by rewrite Hpc|]. intros E. on_thread Hpc.
  - on_thread Hpc.
  - apply sched_fine; rewrite ?Hpc; [done..|by intros j ?|done|]. left. by rewrite state_live, Hpc.
  - apply rel_ptable_fine; [by rewrite Hpc|]. destruct inside; on_thread Hpc.
Qed.
End Step.

Lemma scheduler_fine m c : inv m -> (forall i, cpus m c <> Run i) -> fine (scheduler_step c m).
Proof.
  intros Hinv Hc. unfold scheduler_step. destruct (cpus m c) as [|k|i] eqn:Ec; [| |done].
  - unfold acq_ptable. destruct (ptable_lock m) as [d|] eqn:Ep.
    + destruct (decide (d = c)) as [->|]; [|done]. apply (i_ptable _ Hinv) in Ep as [[k Hk]|(i & Hi & _)]; congruence.
    + apply (inv_scheduler m c (Scan 0) (Some c)); [done|congruence|done|]. left. eauto.
  - assert (ptable_lock m = Some c) as Hp by (apply ptable_held; [done|left; by exists k]).
    destruct (Nat.ltb_spec k (Z.to_nat NPROC)) as [Hk|Hk].
    + destruct (decide (t_state (threads m k) = RUNNABLE)) as [Hs|Hs].
      * assert (forall d, cpus m d <> Run k) as Hoff.
        { intros d Hd. assert (d = c) as -> by (eapply not_running; [done|done|done|by rewrite Hs]). congruence. }
        destruct (i_rest _ Hinv k Hoff) as [Hrest _].
        eapply (inv_switch m _ c k (Run k) _ Hinv Hp); try reflexivity; cbn; try done.
        -- intros d Hd. by apply Hoff in Hd.
        -- intros i Hi. congruence.
        -- by destruct (t_pc (threads m k)).
        -- by destruct (t_pc (threads m k)).
        -- apply (i_chan _ Hinv).
        -- unfold waits. cbn. by destruct (t_pc (threads m k)).
        -- intros j Hj. by destruct (t_pc (threads m k)).
        -- left. split; [done|]. by destruct (t_pc (threads m k)).
      * apply (inv_scheduler m c (Scan (S k)) (ptable_lock m)); [done|congruence|done|]. left. eauto.
    + unfold rel_ptable. rewrite decide_True by done. apply (inv_scheduler m c Idle None); [done|congruence|done|]. by right.
Qed.

Lemma step_fine irq c m : inv m -> fine (cpu_step irq c m).
Proof.
  intros Hinv. unfold cpu_step. destruct (cpus m c) as [| |i] eqn:Ec; [apply scheduler_fine; [done|congruence]..|by apply thread_fine].
Qed.

Lemma start_inv used : inv (start used).
Proof.
  split; cbn; try done.
  - intros i _. split; [done|]. destruct (used i); auto.
  - intros c. split; [done|]. by intros (i & ? & _).
  - intros c. split; [done|]. by intros [[k ?]|(i & ? & _)].
  - by intros i [[c ?]|?].
Qed.

Lemma reachable_sleep_inv used m : rtc step (start used) m -> inv m.
Proof.
  intros H. pose proof (start_inv used) as H0. induction H as [|m m' m'' [irq c m0 m1 E] _ IH]; [done|]. apply IH.
  pose proof (step_fine irq c m0 H0) as Hf. by rewrite E in Hf.
Qed.

(** C5. Sleep locks work on several processors, whatever the interleaving: no check
    of acquire, release or sched fails; at most one process is between
    acquiresleep and releasesleep; no process runs on two processors; and no
    wakeup is lost: while a process sleeps on the lock, the lock is held, or the
    process that has released it is in wakeup and has not come past the sleeper. *)
Theorem no_lost_wakeup used m : rtc step (start used) m ->
  (forall irq c msg, cpu_step irq c m <> Panics msg) /\
  (forall i j, owner (t_pc (threads m i)) = true -> owner (t_pc (threads m j)) = true -> i = j) /\
  (forall c d i, cpus m c = Run i -> cpus m d = Run i -> c = d) /\
  (forall i, t_state (threads m i) = SLEEPING -> (forall c, cpus m c <> Run i) ->
     (exists j, lk_locked m = Some j /\ owner (t_pc (threads m j)) = true) \/
     exists j, will_wake (t_pc (threads m j)) i).
Proof.
  intros H. apply reachable_sleep_inv in H as Hinv. split; [|split; [|split]].
  - intros irq c msg E. pose proof (step_fine irq c m Hinv) as Hf. by rewrite E in Hf.
  - intros i j Hi%(i_owner _ Hinv) Hj%(i_owner _ Hinv). congruence.
  - apply Hinv.
  - intros i Hs Hoff. destruct (i_rest _ Hinv i Hoff) as [_ [?|[?|[_ Hpc]]]]; [congruence..|].
    destruct (i_wake _ Hinv i) as [Hl|Hw]; [unfold waits; by rewrite Hpc, bool_decide_true| |by right].
    left. destruct (lk_locked m) as [j|] eqn:E; [|done]. exists j. split; [done|]. by apply (i_owner _ Hinv).
Qed.

Module SleepWakeupWitness.

(** The machine after the steps of the processors in [l]. *)
Fixpoint run (l : list nat) (m : machine) : option machine :=
  match l with
  | [] => Some m
  | c :: l => match cpu_step false c m with Go m => run l m | _ => None end
  end.

Lemma run_rtc l : forall m m', run l m = Some m' -> rtc step m m'.
Proof.
  induction l as [|c l IH]; intros m m' H; cbn in H; [by simplify_eq|].
  destruct (cpu_step false c m) as [m1| |msg] eqn:E; [|done..]. eapply rtc_l; [by eapply step_go|by apply IH].
Qed.

(** Process 0 takes the lock on processor 0; process 1 finds it taken on
    processor 1 and sleeps; process 0 releases the lock, up to the scan. *)
Definition schedule : list nat := replicate 8 0%nat ++ replicate 12 1%nat ++ replicate 3 0%nat.

Lemma no_lost_wakeup_witness : exists m, rtc step (start (fun i => (i <? 2)%nat)) m /\
  t_state (threads m 1%nat) = SLEEPING /\ lk_locked m = None /\ t_pc (threads m 0%nat) = WkAcq /\
  (forall irq c msg, cpu_step irq c m <> Panics msg).
Proof.
  destruct (run schedule (start (fun i => (i <? 2)%nat))) as [m|] eqn:E; [|vm_compute in E; discriminate E].
  exists m. assert (rtc step (start (fun i => (i <? 2)%nat)) m) as Hr by (by apply (run_rtc schedule)).
  split; [exact Hr|]. vm_compute in E. injection E as E. rewrite <-E. do 3 (split; [reflexivity|]).
  rewrite E. exact (proj1 (no_lost_wakeup _ m Hr)).
Defined.

End SleepWakeupWitness.
