(* ===== verification/Fsys.v ===== *)
(** The state of the file system, the files, the pipes and the console: the data
    types of buf.h, fs.h, file.h, log.c, bio.c, file.c, pipe.c and console.c.

    The contents of a disk block and of a buffer are byte memories indexed from
    0; a buffer, an inode and a file are named by their index in bcache.buf,
    icache.inode and ftable.file.  The disk keeps, besides its blocks, the trace
    of the block writes since it was started, from which the state after a
    crash at any moment is rebuilt (Log.v). *)

From stdpp Require Import base gmap list strings.
From Stdlib Require Import ZArith Lia.
From S2P Require Import Prelude Mem Str Mmu State Kalloc MemTable Vm Sched.

(** ** param.h, fs.h, stat.h, fcntl.h *)
Definition NFILE : Z := 100.
Definition NINODE : Z := 50.
Definition NDEV : Z := 10.
Definition ROOTDEV : Z := 1.
Definition MAXARG : Z := 32.
Definition MAXOPBLOCKS : Z := 10.
Definition LOGSIZE : Z := MAXOPBLOCKS * 3.
Definition NBUF : Z := MAXOPBLOCKS * 3.
Definition FSSIZE : Z := 1000.
Definition ROOTINO : Z := 1.
Definition BSIZE : Z := 512.
Definition NDIRECT : Z := 12.
Definition NINDIRECT : Z := BSIZE / 4.
Definition MAXFILE : Z := NDIRECT + NINDIRECT.
Definition DINODE_SIZE : Z := 64.
Definition IPB : Z := BSIZE / DINODE_SIZE.
Definition BPB : Z := BSIZE * 8.
Definition DIRSIZ : Z := 14.
Definition DIRENT_SIZE : Z := 16.
Definition T_DIR : Z := 1.
Definition T_FILE : Z := 2.
Definition T_DEV : Z := 3.
Definition CONSOLE : Z := 1.
Definition O_RDONLY : Z := 0x000.
Definition O_WRONLY : Z := 0x001.
Definition O_RDWR : Z := 0x002.
Definition O_CREATE : Z := 0x200.
Definition PIPESIZE : Z := 512.
Definition INPUT_BUF : Z := 128.

Record superblock := {
  sb_size : Z; sb_nblocks : Z; sb_ninodes : Z; sb_nlog : Z;
  sb_logstart : Z; sb_inodestart : Z; sb_bmapstart : Z
}.

Definition IBLOCK (i : Z) (sb : superblock) : Z := i / IPB + sb_inodestart sb.
Definition BBLOCK (b : Z) (sb : superblock) : Z := b / BPB + sb_bmapstart sb.

(** ** Disk *)
Record disk := { d_blocks : gmap Z mem; d_trace : list (Z * mem) }.

Definition disk_read (d : disk) (b : Z) : mem := default ∅ (d_blocks d !! b).
Definition disk_write (d : disk) (b : Z) (data : mem) : disk :=
  {| d_blocks := <[b := data]> (d_blocks d); d_trace := d_trace d ++ [(b, data)] |}.

(** ** sleeplock.h *)
Record sleeplock := { sl_locked : bool; sl_pid : Z }.

(** ** buf.h, bio.c: bc_mru lists the buffers from head.next to head.prev. *)
Record buf := {
  b_valid : bool; b_dirty : bool; b_dev : Z; b_blockno : Z;
  b_lock : sleeplock; b_refcnt : Z; b_data : mem
}.
Record bcache := { bc_lock : bool; bc_buf : list buf; bc_mru : list nat }.

(** ** log.c *)
Record log := {
  lg_lock : bool; lg_start : Z; lg_size : Z; lg_outstanding : Z;
  lg_committing : bool; lg_dev : Z; lh_n : Z; lh_block : list Z
}.

(** ** file.h *)
Record inode := {
  i_dev : Z; i_inum : Z; i_ref : Z; i_lock : sleeplock; i_valid : bool;
  i_type : Z; i_major : Z; i_minor : Z; i_nlink : Z; i_size : Z; i_addrs : list Z
}.
Record icache := { ic_lock : bool; ic_inode : list inode }.

Inductive fdtype := FD_NONE | FD_PIPE | FD_INODE.

#[global] Instance fdtype_eq_dec : EqDecision fdtype.
Proof. solve_decision. Defined.

Record file := {
  f_type : fdtype; f_ref : Z; f_readable : Z; f_writable : Z;
  f_pipe : Z; f_ip : option nat; f_off : Z
}.
Record ftable := { ft_lock : bool; ft_file : list file }.

(** ** pipe.c *)
Record pipe := {
  pi_lock : bool; pi_data : mem; pi_nread : Z; pi_nwrite : Z;
  pi_readopen : bool; pi_writeopen : bool
}.

(** ** console.c: the input buffer; consputc's output is kept as a list. *)
Record console := {
  co_lock : bool; in_buf : mem; in_r : Z; in_w : Z; in_e : Z; co_out : list Z
}.

(** ** Everything outside memory and processes *)
Record fsys := {
  x_disk : disk;
  x_bcache : bcache;
  x_log : log;
  x_sb : superblock;
  x_icache : icache;
  x_ftable : ftable;
  x_devsw_console : bool;
  x_pipes : gmap Z pipe;
  x_console : console;
  x_tickslock : bool;
  x_ticks : Z
}.

Abbreviation kernel := (kst fsys).

#[global] Instance eta_sleeplock : Eta sleeplock := fun l =>
  {| sl_locked := sl_locked l; sl_pid := sl_pid l |}.
#[global] Instance eta_buf : Eta buf := fun b =>
  {| b_valid := b_valid b; b_dirty := b_dirty b; b_dev := b_dev b; b_blockno := b_blockno b;
     b_lock := b_lock b; b_refcnt := b_refcnt b; b_data := b_data b |}.
#[global] Instance eta_bcache : Eta bcache := fun c =>
  {| bc_lock := bc_lock c; bc_buf := bc_buf c; bc_mru := bc_mru c |}.
#[global] Instance eta_log : Eta log := fun l =>
  {| lg_lock := lg_lock l; lg_start := lg_start l; lg_size := lg_size l;
     lg_outstanding := lg_outstanding l; lg_committing := lg_committing l;
     lg_dev := lg_dev l; lh_n := lh_n l; lh_block := lh_block l |}.
#[global] Instance eta_inode : Eta inode := fun i =>
  {| i_dev := i_dev i; i_inum := i_inum i; i_ref := i_ref i; i_lock := i_lock i;
     i_valid := i_valid i; i_type := i_type i; i_major := i_major i; i_minor := i_minor i;
     i_nlink := i_nlink i; i_size := i_size i; i_addrs := i_addrs i |}.
#[global] Instance eta_icache : Eta icache := fun c =>
  {| ic_lock := ic_lock c; ic_inode := ic_inode c |}.
#[global] Instance eta_file : Eta file := fun f =>
  {| f_type := f_type f; f_ref := f_ref f; f_readable := f_readable f;
     f_writable := f_writable f; f_pipe := f_pipe f; f_ip := f_ip f; f_off := f_off f |}.
#[global] Instance eta_ftable : Eta ftable := fun t =>
  {| ft_lock := ft_lock t; ft_file := ft_file t |}.
#[global] Instance eta_pipe : Eta pipe := fun p =>
  {| pi_lock := pi_lock p; pi_data := pi_data p; pi_nread := pi_nread p;
     pi_nwrite := pi_nwrite p; pi_readopen := pi_readopen p; pi_writeopen := pi_writeopen p |}.
#[global] Instance eta_console : Eta console := fun c =>
  {| co_lock := co_lock c; in_buf := in_buf c; in_r := in_r c; in_w := in_w c;
     in_e := in_e c; co_out := co_out c |}.
#[global] Instance eta_fsys : Eta fsys := fun x =>
  {| x_disk := x_disk x; x_bcache := x_bcache x; x_log := x_log x; x_sb := x_sb x;
     x_icache := x_icache x; x_ftable := x_ftable x; x_devsw_console := x_devsw_console x;
     x_pipes := x_pipes x; x_console := x_console x; x_tickslock := x_tickslock x;
     x_ticks := x_ticks x |}.

(** The spin locks that are held. *)
#[global] Instance fsys_locks : Spinlocks fsys := fun x =>
  Z.b2z (bc_lock (x_bcache x)) + Z.b2z (lg_lock (x_log x)) + Z.b2z (ic_lock (x_icache x)) + Z.b2z (ft_lock (x_ftable x)) +
  Z.of_nat (length (filter (fun ap => pi_lock ap.2 = true) (map_to_list (x_pipes x)))) +
  Z.b2z (co_lock (x_console x)) + Z.b2z (x_tickslock x).

(** ** Access *)

(** Reading a component of the file system and changing it. *)
Definition fget {A} (f : fsys -> A) : M kernel A := gets (fun s => f (k_fs s)).
Definition fmod (g : fsys -> fsys) : M kernel unit := modify (fun s => s <| k_fs ::= g |>).

(** A spin lock of the file system. *)
Definition facquire (get : fsys -> bool) (set : bool -> fsys -> fsys) : M kernel unit :=
  acquire (fun s => get (k_fs s)) (fun b s => s <| k_fs ::= set b |>).
Definition frelease (get : fsys -> bool) (set : bool -> fsys -> fsys) : M kernel unit :=
  release (fun s => get (k_fs s)) (fun b s => s <| k_fs ::= set b |>).

(** An element of a table, by index. *)
Definition tget {A} (table : fsys -> list A) (i : nat) : M kernel A := fun s =>
  match table (k_fs s) !! i with
  | Some x => Ret x s
  | None => Crash "table index"
  end.

Definition get_buf (i : nat) : M kernel buf := tget (fun x => bc_buf (x_bcache x)) i.
Definition upd_buf (i : nat) (g : buf -> buf) : M kernel unit :=
  get_buf i ;;;
  fmod (fun x => x <| x_bcache ::= fun c => c <| bc_buf ::= alter g i |> |>).

Definition get_inode (i : nat) : M kernel inode := tget (fun x => ic_inode (x_icache x)) i.
Definition upd_inode (i : nat) (g : inode -> inode) : M kernel unit :=
  get_inode i ;;;
  fmod (fun x => x <| x_icache ::= fun c => c <| ic_inode ::= alter g i |> |>).

Definition get_file (i : nat) : M kernel file := tget (fun x => ft_file (x_ftable x)) i.
Definition upd_file (i : nat) (g : file -> file) : M kernel unit :=
  get_file i ;;;
  fmod (fun x => x <| x_ftable ::= fun c => c <| ft_file ::= alter g i |> |>).

(** ** sleeplock.c

    [get] and [put] read and write the sleep lock; the spin lock inside it is
    taken and released within each call. *)
Definition initsleeplock : sleeplock := {| sl_locked := false; sl_pid := 0 |}.

Definition acquiresleep (chan : Z) (get : M kernel sleeplock) (put : sleeplock -> M kernel unit) : M kernel unit :=
  lk <- get ;;
  if sl_locked lk then sleep chan (Some (ret tt))
  else
    i <- myproc ;;
    p <- get_proc i ;;
    put {| sl_locked := true; sl_pid := p_pid p |}.

Definition releasesleep (chan : Z) (put : sleeplock -> M kernel unit) : M kernel unit :=
  put {| sl_locked := false; sl_pid := 0 |} ;;;
  wakeup chan.

Definition holdingsleep (get : M kernel sleeplock) : M kernel bool :=
  lk <- get ;;
  ret (sl_locked lk).

(** ** The static data at boot: zeroed, with no buffer in the list of binit yet. *)
Definition fsys_boot (d : disk) : fsys :=
  {| x_disk := d;
     x_bcache := {| bc_lock := false; bc_mru := [];
       bc_buf := replicate (Z.to_nat NBUF)
         {| b_valid := false; b_dirty := false; b_dev := 0; b_blockno := 0;
            b_lock := {| sl_locked := false; sl_pid := 0 |}; b_refcnt := 0; b_data := ∅ |} |};
     x_log := {| lg_lock := false; lg_start := 0; lg_size := 0; lg_outstanding := 0; lg_committing := false;
                 lg_dev := 0; lh_n := 0; lh_block := replicate (Z.to_nat LOGSIZE) 0 |};
     x_sb := {| sb_size := 0; sb_nblocks := 0; sb_ninodes := 0; sb_nlog := 0;
                sb_logstart := 0; sb_inodestart := 0; sb_bmapstart := 0 |};
     x_icache := {| ic_lock := false; ic_inode := replicate (Z.to_nat NINODE)
       {| i_dev := 0; i_inum := 0; i_ref := 0; i_lock := {| sl_locked := false; sl_pid := 0 |}; i_valid := false;
          i_type := 0; i_major := 0; i_minor := 0; i_nlink := 0; i_size := 0; i_addrs := replicate 13 0 |} |};
     x_ftable := {| ft_lock := false; ft_file := replicate (Z.to_nat NFILE)
       {| f_type := FD_NONE; f_ref := 0; f_readable := 0; f_writable := 0; f_pipe := 0; f_ip := None; f_off := 0 |} |};
     x_devsw_console := false;
     x_pipes := ∅;
     x_console := {| co_lock := false; in_buf := ∅; in_r := 0; in_w := 0; in_e := 0; co_out := [] |};
     x_tickslock := false;
     x_ticks := 0 |}.

Definition blank_disk : disk := {| d_blocks := ∅; d_trace := [] |}.
