(* ===== verification/Ide.v ===== *)
(** The driver of the IDE disk, src/src/ide.c: the queue of requests and the
    registers of the controller.

    The controller is a state machine with the registers the driver writes, the
    command in progress and the disks; it finishes a command at some time of its
    own and raises the interrupt that ideintr handles.  A call of iderw ends in
    [Sleep] when it waits for its request; iderw_resume is the rest of it. *)

From stdpp Require Import base gmap list strings.
From Stdlib Require Import ZArith Lia.
From S2P Require Import Prelude Mmu Fsys.

Definition SECTOR_SIZE : Z := 512.
Definition IDE_BSY : Z := 0x80.
Definition IDE_DRDY : Z := 0x40.
Definition IDE_DF : Z := 0x20.
Definition IDE_ERR : Z := 0x01.
Definition IDE_CMD_READ : Z := 0x20.
Definition IDE_CMD_WRITE : Z := 0x30.
Definition IDE_CMD_RDMUL : Z := 0xc4.
Definition IDE_CMD_WRMUL : Z := 0xc5.
Definition B_VALID : Z := 0x2.
Definition B_DIRTY : Z := 0x4.

(** ** The controller *)

(** The contents of a sector, by drive and number. *)
Abbreviation disks := (Z -> Z -> list Z).

Record ata := {
  r_count : Z; r_lba0 : Z; r_lba1 : Z; r_lba2 : Z; r_sel : Z;
  a_cmd : option Z;
  a_data : list Z;
  a_err : bool;
  a_disks : disks;
}.

#[global] Instance eta_ata : Eta ata := fun a =>
  {| r_count := r_count a; r_lba0 := r_lba0 a; r_lba1 := r_lba1 a; r_lba2 := r_lba2 a; r_sel := r_sel a;
     a_cmd := a_cmd a; a_data := a_data a; a_err := a_err a; a_disks := a_disks a |}.

(** The drive and the sector the registers select. *)
Definition drive (a : ata) : Z := Z.land (Z.shiftr (r_sel a) 4) 1.
Definition lba (a : ata) : Z :=
  Z.lor (Z.lor (r_lba0 a) (Z.shiftl (r_lba1 a) 8)) (Z.lor (Z.shiftl (r_lba2 a) 16) (Z.shiftl (Z.land (r_sel a) 15) 24)).

Definition outb_ata (port v : Z) (a : ata) : ata :=
  if port =? 0x1f2 then a <| r_count := v |>
  else if port =? 0x1f3 then a <| r_lba0 := v |>
  else if port =? 0x1f4 then a <| r_lba1 := v |>
  else if port =? 0x1f5 then a <| r_lba2 := v |>
  else if port =? 0x1f6 then a <| r_sel := v |>
  else if port =? 0x1f7 then a <| a_cmd := Some v |>
  else a.

Definition status (a : ata) : Z :=
  match a_cmd a with
  | Some _ => IDE_BSY
  | None => Z.lor IDE_DRDY (if a_err a then IDE_ERR else 0)
  end.

Definition put_sector (d : disks) (dr sec : Z) (l : list Z) : disks :=
  fun dr' sec' => if decide (dr' = dr /\ sec' = sec) then l else d dr' sec'.

(** The command in progress is done: a write has reached the disk, what a read
    gives is ready; or it has failed. *)
Definition finish (err : bool) (a : ata) : ata :=
  match a_cmd a with
  | None => a
  | Some cmd =>
      let a := a <| a_cmd := None |> <| a_err := err |> in
      if err then a
      else if cmd =? IDE_CMD_WRITE then a <| a_disks := put_sector (a_disks a) (drive a) (lba a) (a_data a) |>
      else if cmd =? IDE_CMD_READ then a <| a_data := a_disks a (drive a) (lba a) |>
      else a
  end.

(** ** The driver *)

Record ibuf := { flags : Z; dev : Z; blockno : Z; qnext : option nat; data : list Z; locked : bool }.

Record ide := { idequeue : option nat; bufs : nat -> ibuf; havedisk1 : bool; ctl : ata; woken : list nat }.

#[global] Instance eta_ibuf : Eta ibuf := fun b =>
  {| flags := flags b; dev := dev b; blockno := blockno b; qnext := qnext b; data := data b; locked := locked b |}.
#[global] Instance eta_ide : Eta ide := fun s =>
  {| idequeue := idequeue s; bufs := bufs s; havedisk1 := havedisk1 s; ctl := ctl s; woken := woken s |}.

Definition outb (port v : Z) : M ide unit := modify (fun s => s <| ctl := outb_ata port v (ctl s) |>).
Definition outsl (l : list Z) : M ide unit := modify (fun s => s <| ctl := (ctl s) <| a_data := l |> |>).
Definition insl : M ide (list Z) := gets (fun s => a_data (ctl s)).

Definition upd_buf (b : nat) (f : ibuf -> ibuf) : M ide unit :=
  modify (fun s => s <| bufs := fun c => if decide (c = b) then f (bufs s b) else bufs s c |>).

(** The poll of the status register; it does not end while the controller is busy. *)
Definition idewait (checkerr : bool) : M ide Z :=
  r <- gets (fun s => status (ctl s)) ;;
  if negb (Z.land r (Z.lor IDE_BSY IDE_DRDY) =? IDE_DRDY) then no_fuel
  else if checkerr && negb (Z.land r (Z.lor IDE_DF IDE_ERR) =? 0) then ret (-1)
  else ret 0.

(** [disk1] is whether the status of the second disk reads other than 0. *)
Definition ideinit (disk1 : bool) : M ide unit :=
  idewait false ;;;
  outb 0x1f6 (Z.lor 0xe0 (Z.shiftl 1 4)) ;;;
  when disk1 (modify (fun s => s <| havedisk1 := true |>)) ;;;
  outb 0x1f6 (Z.lor 0xe0 (Z.shiftl 0 4)).

Definition idestart (b : nat) : M ide unit :=
  x <- gets (fun s => bufs s b) ;;
  if FSSIZE <=? blockno x then panic "incorrect blockno"
  else
    let sector_per_block := BSIZE / SECTOR_SIZE in
    let sector := blockno x * sector_per_block in
    let read_cmd := if sector_per_block =? 1 then IDE_CMD_READ else IDE_CMD_RDMUL in
    let write_cmd := if sector_per_block =? 1 then IDE_CMD_WRITE else IDE_CMD_WRMUL in
    if 7 <? sector_per_block then panic "idestart"
    else
      idewait false ;;;
      outb 0x3f6 0 ;;;
      outb 0x1f2 sector_per_block ;;;
      outb 0x1f3 (Z.land sector 0xff) ;;;
      outb 0x1f4 (Z.land (Z.shiftr sector 8) 0xff) ;;;
      outb 0x1f5 (Z.land (Z.shiftr sector 16) 0xff) ;;;
      outb 0x1f6 (Z.lor (Z.lor 0xe0 (Z.shiftl (Z.land (dev x) 1) 4)) (Z.land (Z.shiftr sector 24) 0x0f)) ;;;
      if negb (Z.land (flags x) B_DIRTY =? 0) then
        outb 0x1f7 write_cmd ;;;
        outsl (data x)
      else outb 0x1f7 read_cmd.

(** [woken] records the calls of wakeup. *)
Definition ideintr : M ide unit :=
  q <- gets idequeue ;;
  match q with
  | None => ret tt
  | Some b =>
      x <- gets (fun s => bufs s b) ;;
      modify (fun s => s <| idequeue := qnext x |>) ;;;
      (if Z.land (flags x) B_DIRTY =? 0 then
         r <- idewait true ;;
         when (0 <=? r) (l <- insl ;; upd_buf b (fun x => x <| data := l |>))
       else ret tt) ;;;
      upd_buf b (fun x => x <| flags ::= fun f => Z.lor f B_VALID |>) ;;;
      upd_buf b (fun x => x <| flags ::= fun f => Z.ldiff f B_DIRTY |>) ;;;
      modify (fun s => s <| woken ::= cons b |>) ;;;
      q <- gets idequeue ;;
      match q with
      | None => ret tt
      | Some b => idestart b
      end
  end.

(** The last buffer of the queue from [b] on, whose [qnext] is [*pp]. *)
Fixpoint last_of (fuel : nat) (b : nat) : M ide nat :=
  match fuel with
  | O => no_fuel
  | S fuel =>
      x <- gets (fun s => bufs s b) ;;
      match qnext x with
      | None => ret b
      | Some c => last_of fuel c
      end
  end.

Definition done_ (x : ibuf) : bool := Z.land (flags x) (Z.lor B_VALID B_DIRTY) =? B_VALID.

(** iderw up to the wait, or to the end when there is none. *)
Definition iderw (fuel : nat) (b : nat) : M ide unit :=
  x <- gets (fun s => bufs s b) ;;
  d1 <- gets havedisk1 ;;
  if negb (locked x) then panic "iderw: buf not locked"
  else if done_ x then panic "iderw: nothing to do"
  else if negb (dev x =? 0) && negb d1 then panic "iderw: ide disk 1 not present"
  else
    upd_buf b (fun x => x <| qnext := None |>) ;;;
    q <- gets idequeue ;;
    match q with
    | None => modify (fun s => s <| idequeue := Some b |>)
    | Some c => l <- last_of fuel c ;; upd_buf l (fun x => x <| qnext := Some b |>)
    end ;;;
    q <- gets idequeue ;;
    when (bool_decide (q = Some b)) (idestart b) ;;;
    x <- gets (fun s => bufs s b) ;;
    if done_ x then ret tt else fun s => Sleep (Z.of_nat b) s.

(** The loop of iderw when its process runs again. *)
Definition iderw_resume (b : nat) : M ide unit :=
  x <- gets (fun s => bufs s b) ;;
  if done_ x then ret tt else fun s => Sleep (Z.of_nat b) s.

(** ** The registers *)

Lemma bit_ones k n : 0 <= k -> Z.testbit (Z.ones k) n = (0 <=? n) && (n <? k).
Proof.
  intros Hk. destruct (Z.leb_spec 0 n); cbn [andb].
  - destruct (Z.ltb_spec n k); [apply Z.ones_spec_low|apply Z.ones_spec_high]; lia.
  - apply Z.testbit_neg_r. lia.
Qed.

(** The four registers hold the 28 bits of a sector number. *)
Lemma lba_bits s hi : 0 <= s < 2 ^ 28 -> Z.land hi 15 = 0 ->
  Z.lor (Z.lor (Z.land s 255) (Z.shiftl (Z.land (Z.shiftr s 8) 255) 8))
    (Z.lor (Z.shiftl (Z.land (Z.shiftr s 16) 255) 16)
       (Z.shiftl (Z.land (Z.lor hi (Z.land (Z.shiftr s 24) 15)) 15) 24)) = s.
Proof.
  intros Hs Hhi. rewrite Z.land_lor_distr_l, Hhi, Z.lor_0_l, <-Z.land_assoc, (Z.land_diag 15).
  change 255 with (Z.ones 8). change 15 with (Z.ones 4). apply Z.bits_inj'. intros n Hn.
  rewrite !Z.lor_spec, !Z.shiftl_spec, !Z.land_spec, !bit_ones by lia.
  assert (forall k b, 0 <= k -> Z.testbit (Z.shiftr s k) (n - k) && ((0 <=? n - k) && b) = Z.testbit s n && ((0 <=? n - k) && b)) as Hsh.
  { intros k b Hk. destruct (Z.leb_spec 0 (n - k)); cbn [andb]; [|by rewrite !andb_false_r].
    rewrite Z.shiftr_spec by lia. by replace (n - k + k) with n by lia. }
  rewrite !Hsh by lia. destruct (Z.testbit s n) eqn:E; cbn [andb]; [|done].
  assert (n < 28).
  { apply Z.nle_gt. intros Hge. rewrite <-(Z.mod_small s (2 ^ 28)) in E by lia. rewrite Z.mod_pow2_bits_high in E by lia. done. }
  repeat match goal with
  | |- context [Z.leb ?x ?y] => destruct (Z.leb_spec x y)
  | |- context [Z.ltb ?x ?y] => destruct (Z.ltb_spec x y)
  end; cbn; lia.
Qed.

Lemma sel_hi d : Z.land (Z.lor 224 (Z.shiftl (Z.land d 1) 4)) 15 = 0 /\
  forall x, Z.land (Z.shiftr (Z.lor (Z.lor 224 (Z.shiftl (Z.land d 1) 4)) (Z.land x 15)) 4) 1 = Z.land d 1.
Proof.
  assert (Z.land d 1 = 0 \/ Z.land d 1 = 1) as [-> | ->].
  { pose proof (Z.land_ones d 1 ltac:(lia)) as E. change (Z.ones 1) with 1 in E. change (2 ^ 1) with 2 in E. rewrite E. dlia. }
  - split; [done|]. intros x. rewrite Z.shiftr_lor, Z.shiftr_land. change (Z.shiftr 15 4) with 0. by rewrite Z.land_0_r.
  - split; [done|]. intros x. rewrite Z.shiftr_lor, Z.shiftr_land. change (Z.shiftr 15 4) with 0. by rewrite Z.land_0_r.
Qed.

(** ** The queue *)

(** The buffers of [q] are linked from [h] on. *)
Fixpoint linked (f : nat -> ibuf) (h : option nat) (q : list nat) : Prop :=
  match q with
  | [] => h = None
  | b :: q => h = Some b /\ linked f (qnext (f b)) q
  end.

Lemma linked_ext f f' q : forall h, (forall b, b ∈ q -> qnext (f' b) = qnext (f b)) -> linked f h q -> linked f' h q.
Proof.
  induction q as [|b q IH]; intros h Hf; cbn; [done|]. intros [-> Hl]. split; [done|].
  rewrite Hf by (by left). apply IH; [|done]. intros c Hc. apply Hf. by right.
Qed.

(** The controller works on the buffer [x]. *)
Definition working (a : ata) (x : ibuf) : Prop :=
  drive a = Z.land (dev x) 1 /\ lba a = blockno x /\
  if Z.land (flags x) B_DIRTY =? 0 then a_cmd a = Some IDE_CMD_READ
  else a_cmd a = Some IDE_CMD_WRITE /\ a_data a = data x.

Lemma idestart_ok s b : a_cmd (ctl s) = None -> 0 <= blockno (bufs s b) < FSSIZE ->
  exists a, idestart b s = Ret tt (s <| ctl := a |>) /\ working a (bufs s b) /\ a_disks a = a_disks (ctl s).
Proof.
  intros Hc Hb. unfold idestart. unfold bind at 1. cbn [gets]. unfold gets.
  destruct (Z.leb_spec FSSIZE (blockno (bufs s b))) as [|_]; [lia|].
  change (BSIZE / SECTOR_SIZE) with 1. rewrite Z.mul_1_r. change (1 =? 1) with true. change (7 <? 1) with false. cbv iota.
  assert (idewait false s = Ret 0 s) as Hw.
  { unfold idewait, bind, gets. unfold status. rewrite Hc. by destruct (a_err (ctl s)). }
  unfold bind at 1. rewrite Hw. set (x := bufs s b) in *. set (sec := blockno x) in *.
  destruct (sel_hi (dev x)) as [Hhi Hsel]. pose proof (Hsel (Z.shiftr sec 24)) as Hdrive.
  pose proof (lba_bits sec _ ltac:(unfold FSSIZE in Hb; lia) Hhi) as Hlba.
  destruct (Z.eqb_spec (Z.land (flags x) B_DIRTY) 0) as [Hd|Hd]; cbn [negb].
  - eexists. split; [reflexivity|]. split; [|reflexivity]. unfold working. rewrite (proj2 (Z.eqb_eq _ _) Hd).
    split; [exact Hdrive|]. split; [exact Hlba|reflexivity].
  - eexists. split; [reflexivity|]. split; [|reflexivity]. unfold working. rewrite (proj2 (Z.eqb_neq _ _) Hd).
    split; [exact Hdrive|]. split; [exact Hlba|]. split; reflexivity.
Qed.

(** ** The specification: a server of requests in order *)

Record fifo := { f_disks : disks; f_bufs : nat -> ibuf; f_queue : list nat; f_havedisk1 : bool }.

Definition set_qnext (v : option nat) (x : ibuf) : ibuf := x <| qnext := v |>.

(** What happens: a process calls iderw, the disk is done with a request, with
    an error or not, or a process changes a buffer it has locked. *)
Inductive event := Request (b : nat) | Interrupt (err : bool) | Change (b : nat) (x : ibuf).

(** The request of [b] carried out at once. *)
Definition serve (err : bool) (x : ibuf) (d : disks) : ibuf * disks :=
  let dr := Z.land (dev x) 1 in
  let fl := Z.ldiff (Z.lor (flags x) B_VALID) B_DIRTY in
  if Z.land (flags x) B_DIRTY =? 0 then
    (x <| flags := fl |> <| data := if err then data x else d dr (blockno x) |>, d)
  else (x <| flags := fl |>, if err then d else put_sector d dr (blockno x) (data x)).

Definition request_ok (f : fifo) (b : nat) : Prop :=
  let x := f_bufs f b in
  locked x = true /\ done_ x = false /\ 0 <= blockno x < FSSIZE /\ (dev x = 0 \/ f_havedisk1 f = true) /\ b ∉ f_queue f.

(** The events the kernel makes happen, and what they do to the specification. *)
Inductive fifo_step : fifo -> event -> fifo -> Prop :=
| fifo_request f b : request_ok f b ->
    fifo_step f (Request b) {| f_disks := f_disks f; f_bufs := f_bufs f; f_queue := f_queue f ++ [b]; f_havedisk1 := f_havedisk1 f |}
| fifo_interrupt f err b q : f_queue f = b :: q ->
    fifo_step f (Interrupt err)
      {| f_disks := (serve err (f_bufs f b) (f_disks f)).2; f_queue := q; f_havedisk1 := f_havedisk1 f;
         f_bufs := fun c => if decide (c = b) then (serve err (f_bufs f b) (f_disks f)).1 else f_bufs f c |}
| fifo_change f b x : (b ∉ f_queue f) ->
    fifo_step f (Change b x)
      {| f_disks := f_disks f; f_queue := f_queue f; f_havedisk1 := f_havedisk1 f;
         f_bufs := fun c => if decide (c = b) then set_qnext None x else f_bufs f c |}.

(** The same events in the driver; [None] when it panics or does not end. *)
Definition ide_event (fuel : nat) (e : event) (s : ide) : option ide :=
  match e with
  | Request b => match iderw fuel b s with Sleep _ s => Some s | Ret _ s => Some s | _ => None end
  | Interrupt err => match ideintr (s <| ctl ::= finish err |>) with Ret _ s => Some s | _ => None end
  | Change b x => Some (s <| bufs := fun c => if decide (c = b) then set_qnext (qnext (bufs s b)) x else bufs s c |>)
  end.

Record related (s : ide) (f : fifo) : Prop := {
  rel_bufs : forall b, set_qnext None (bufs s b) = f_bufs f b;
  rel_disks : a_disks (ctl s) = f_disks f;
  rel_have : havedisk1 s = f_havedisk1 f;
  rel_queue : linked (bufs s) (idequeue s) (f_queue f);
  rel_nodup : NoDup (f_queue f);
  rel_pending : forall b, b ∈ f_queue f -> done_ (bufs s b) = false /\ 0 <= blockno (bufs s b) < FSSIZE;
  rel_ctl : match f_queue f with [] => a_cmd (ctl s) = None | b :: _ => working (ctl s) (bufs s b) end;
}.

Lemma related_buf s f b : related s f -> let x := bufs s b in let y := f_bufs f b in
  flags x = flags y /\ dev x = dev y /\ blockno x = blockno y /\ data x = data y /\ locked x = locked y.
Proof. intros H. cbn zeta. rewrite <-(rel_bufs _ _ H b). done. Qed.

Lemma sim_change fuel s f b x : related s f -> (b ∉ f_queue f) ->
  exists s', ide_event fuel (Change b x) s = Some s' /\
    related s' {| f_disks := f_disks f; f_queue := f_queue f; f_havedisk1 := f_havedisk1 f;
                  f_bufs := fun c => if decide (c = b) then set_qnext None x else f_bufs f c |}.
Proof.
  intros H Hb. eexists. split; [reflexivity|]. split; cbn.
  - intros c. destruct (decide (c = b)) as [->|]; [done|apply H].
  - apply H.
  - apply H.
  - eapply linked_ext, H. intros c Hc. cbn. by destruct (decide (c = b)) as [->|].
  - apply H.
  - intros c Hc. destruct (decide (c = b)) as [->|]; [done|by apply H].
  - pose proof (rel_ctl _ _ H) as Hctl. destruct (f_queue f) as [|c q]; [done|]. rewrite decide_False; [done|].
    intros ->. apply Hb. by left.
Qed.

Lemma last_of_ok s q : forall c fuel, linked (bufs s) (Some c) (c :: q) -> (length q < fuel)%nat ->
  exists q0 l, c :: q = q0 ++ [l] /\ last_of fuel c s = Ret l s.
Proof.
  induction q as [|d q IH]; intros c fuel [_ Hl] Hf; (destruct fuel as [|fuel]; [cbn in Hf; lia|]); cbn [last_of]; unfold bind, gets.
  - cbn in Hl. rewrite Hl. by exists [], c.
  - pose proof Hl as [Hq _]. rewrite Hq. rewrite Hq in Hl. destruct (IH d fuel Hl) as (q0 & l & -> & E); [cbn in Hf; lia|].
    by exists (c :: q0), l.
Qed.

(** A buffer is added at the end of the queue. *)
Lemma linked_snoc f f' q0 l b : forall h, linked f h (q0 ++ [l]) -> l ∉ q0 ->
  (forall c, c ∈ q0 -> qnext (f' c) = qnext (f c)) -> qnext (f' l) = Some b -> qnext (f' b) = None ->
  linked f' h (q0 ++ [l; b]).
Proof.
  induction q0 as [|c q0 IH]; intros h Hl Hn Hf Hfl Hfb; cbn in *.
  - destruct Hl as [-> _]. rewrite Hfl, Hfb. done.
  - destruct Hl as [-> Hl]. split; [done|]. rewrite Hf by (by left). apply IH; [done|set_solver|set_solver|done|done].
Qed.

(** The state with a buffer [b] added to a queue that is not empty. *)
Lemma related_snoc s s2 f b c q q0 l : related s f -> f_queue f = c :: q -> c :: q = q0 ++ [l] -> (b ∉ c :: q) ->
  (forall d, bufs s2 d = if decide (d = b) then set_qnext None (bufs s b)
                         else if decide (d = l) then set_qnext (Some b) (bufs s l) else bufs s d) ->
  idequeue s2 = Some c -> ctl s2 = ctl s -> havedisk1 s2 = havedisk1 s ->
  done_ (bufs s b) = false -> 0 <= blockno (bufs s b) < FSSIZE ->
  related s2 {| f_disks := f_disks f; f_bufs := f_bufs f; f_queue := (c :: q) ++ [b]; f_havedisk1 := f_havedisk1 f |}.
Proof.
  intros H Eq El Hb Ebufs F1 F2 F3 Hdx Hblk. pose proof (rel_queue _ _ H) as Hl. rewrite Eq in Hl.
  pose proof (rel_nodup _ _ H) as Hnd. rewrite Eq in Hnd.
  assert (forall d, done_ (bufs s2 d) = done_ (bufs s d) /\ blockno (bufs s2 d) = blockno (bufs s d)) as Hsame.
  { intros d. rewrite Ebufs. destruct (decide (d = b)) as [->|]; [done|]. by destruct (decide (d = l)) as [->|]. }
  split; cbn [f_bufs f_disks f_queue f_havedisk1].
  - intros d. rewrite <-(rel_bufs _ _ H d), Ebufs. destruct (decide (d = b)) as [->|]; [done|]. by destruct (decide (d = l)) as [->|].
  - rewrite F2. apply H.
  - rewrite F3. apply H.
  - assert (l <> b) as Hlb by (intros ->; apply Hb; rewrite El; set_solver).
    assert (idequeue s = Some c) as Hq by apply Hl. rewrite F1, <-Hq, El, <-(assoc_L (++)). cbn [app].
    rewrite El in Hl, Hnd, Hb. apply NoDup_app in Hnd as (_ & Hnd & _). apply (linked_snoc (bufs s)); [done| | | |].
    + intros Hin. apply (Hnd l Hin). by left.
    + intros d Hd. rewrite Ebufs, !decide_False; [done|intros ->; apply (Hnd l Hd); by left|set_solver].
    + by rewrite Ebufs, decide_False, decide_True.
    + by rewrite Ebufs, decide_True.
  - apply NoDup_app. split; [done|]. split; [|apply NoDup_singleton]. intros d Hd ->%list_elem_of_singleton. done.
  - intros d [Hd|Hd%list_elem_of_singleton]%elem_of_app; destruct (Hsame d) as [-> ->]; [|by subst].
    apply (rel_pending _ _ H). by rewrite Eq.
  - cbn [app]. pose proof (rel_ctl _ _ H) as Hc. rewrite Eq in Hc. rewrite F2, Ebufs, decide_False by (intros ->; apply Hb; by left).
    by destruct (decide (c = l)) as [->|].
Qed.

Lemma sim_request fuel s f b : related s f -> request_ok f b -> (length (f_queue f) <= fuel)%nat ->
  exists s', ide_event fuel (Request b) s = Some s' /\ woken s' = woken s /\
    related s' {| f_disks := f_disks f; f_bufs := f_bufs f; f_queue := f_queue f ++ [b]; f_havedisk1 := f_havedisk1 f |}.
Proof.
  intros H (Hlk & Hdn & Hblk & Hdev & Hq) Hfuel. destruct (related_buf s f b H) as (E1 & E2 & E3 & E4 & E5).
  set (x := bufs s b) in *. assert (done_ x = false) as Hdx by (unfold done_; rewrite E1; exact Hdn).
  assert (negb (dev x =? 0) && negb (havedisk1 s) = false) as Hdx1.
  { rewrite E2, (rel_have _ _ H). destruct Hdev as [-> | ->]; [done|by rewrite andb_false_r]. }
  set (s1 := s <| bufs := fun c => if decide (c = b) then set_qnext None x else bufs s c |>).
  cbn [ide_event]. unfold iderw. unfold bind at 1 2, gets at 1 2. fold x. rewrite E5, Hlk. cbn [negb]. rewrite Hdx, Hdx1.
  assert (linked (bufs s1) (idequeue s) (f_queue f)) as Hl1.
  { eapply linked_ext, H. intros c Hc. cbn. by destruct (decide (c = b)) as [->|]. }
  assert (forall v c, set_qnext None (if decide (c = b) then set_qnext v x else bufs s c) = f_bufs f c) as Hview.
  { intros v c. rewrite <-(rel_bufs _ _ H c). by destruct (decide (c = b)) as [->|]. }
  destruct (f_queue f) as [|c q] eqn:Eq.
  - pose proof (rel_queue _ _ H) as Hq0. rewrite Eq in Hq0. cbn in Hq0. pose proof (rel_ctl _ _ H) as Hc0. rewrite Eq in Hc0.
    unfold bind, upd_buf, modify, gets. fold x. change (idequeue (s <| bufs := _ |>)) with (idequeue s). rewrite Hq0.
    change (x <| qnext := None |>) with (set_qnext None x). fold s1. set (s2 := s1 <| idequeue := Some b |>).
    change (idequeue s2) with (Some b). rewrite bool_decide_true by done. cbn [when].
    assert (bufs s2 b = set_qnext None x) as Eb by (cbn; by rewrite decide_True).
    destruct (idestart_ok s2 b) as (a & Ea & Hwork & Hdisk); [done|rewrite Eb; cbn; lia|].
    rewrite Ea. change (bufs (s2 <| ctl := a |>)) with (bufs s2). rewrite Eb.
    change (done_ (set_qnext None x)) with (done_ x). rewrite Hdx. eexists. split; [reflexivity|]. split; [reflexivity|].
    split; cbn [f_bufs f_disks f_queue f_havedisk1 app].
    + intros c. apply Hview.
    + change (a_disks a = f_disks f). rewrite Hdisk. apply H.
    + apply H.
    + split; [done|]. change (qnext (bufs s2 b) = None). by rewrite Eb.
    + repeat constructor. set_solver.
    + intros c ->%list_elem_of_singleton. change (done_ (bufs s2 b) = false /\ 0 <= blockno (bufs s2 b) < FSSIZE). rewrite Eb. split; [exact Hdx|cbn; lia].
    + exact Hwork.
  - pose proof (rel_queue _ _ H) as Hq0. rewrite Eq in Hq0. pose proof Hq0 as [Hq1 _]. pose proof (rel_ctl _ _ H) as Hc0. rewrite Eq in Hc0.
    unfold bind, upd_buf, modify, gets. fold x. change (idequeue (s <| bufs := _ |>)) with (idequeue s). rewrite Hq1 in Hl1 |- *.
    change (x <| qnext := None |>) with (set_qnext None x). fold s1.
    destruct (last_of_ok s1 q c fuel Hl1) as (q0 & l & El & ->); [cbn in Hfuel; lia|].
    assert (l ∈ c :: q) as Hlq by (rewrite El; set_solver). assert (l <> b) as Hlb by (intros ->; by apply Hq).
    assert (bufs s1 l = bufs s l) as -> by (cbn; by rewrite decide_False).
    set (s2 := s1 <| bufs := _ |>). change (idequeue s2) with (idequeue s). rewrite Hq1, bool_decide_false; [|intros [= ->]; set_solver].
    cbn [when ret].
    assert (forall d, bufs s2 d = if decide (d = b) then set_qnext None x else if decide (d = l) then set_qnext (Some b) (bufs s l) else bufs s d) as Ebufs.
    { intros d. cbn. destruct (decide (d = l)) as [->|]; [by rewrite decide_False|done]. }
    assert (idequeue s2 = Some c /\ ctl s2 = ctl s /\ havedisk1 s2 = havedisk1 s /\ woken s2 = woken s) as (F1 & F2 & F3 & F4) by done. clearbody s2.
    rewrite (Ebufs b), decide_True by done. change (done_ (set_qnext None x)) with (done_ x). rewrite Hdx.
    exists s2. split; [reflexivity|]. split; [exact F4|]. apply (related_snoc s s2 f b c q q0 l); try assumption. fold x. lia.
Qed.

Lemma finish_ok err a x : working a x -> let a' := finish err a in
  a_cmd a' = None /\ a_err a' = err /\ a_disks a' = (serve err x (a_disks a)).2 /\
  (Z.land (flags x) B_DIRTY = 0 -> err = false -> a_data a' = a_disks a (Z.land (dev x) 1) (blockno x)).
Proof.
  intros (Hd & Hl & Hw). cbn zeta. unfold finish, serve. destruct (Z.eqb_spec (Z.land (flags x) B_DIRTY) 0) as [Hf|Hf].
  - rewrite Hw, <-Hd, <-Hl. by destruct err.
  - destruct Hw as [Hc <-]. rewrite Hc, <-Hd, <-Hl. by destruct err.
Qed.

(** The end of ideintr. *)
Lemma ideintr_tail s b : exists s1,
  (forall c, bufs s1 c = if decide (c = b) then (bufs s b) <| flags ::= fun f => Z.ldiff (Z.lor f B_VALID) B_DIRTY |> else bufs s c) /\
  idequeue s1 = idequeue s /\ havedisk1 s1 = havedisk1 s /\ ctl s1 = ctl s /\ woken s1 = b :: woken s /\
  (upd_buf b (fun x => x <| flags ::= fun f => Z.lor f B_VALID |>) ;;;
   upd_buf b (fun x => x <| flags ::= fun f => Z.ldiff f B_DIRTY |>) ;;;
   modify (fun s => s <| woken ::= cons b |>) ;;;
   q <- gets idequeue ;;
   match q with None => ret tt | Some b => idestart b end) s =
  match idequeue s with None => Ret tt s1 | Some c => idestart c s1 end.
Proof.
  unfold bind, upd_buf, modify, gets. set (s1 := _ <| woken ::= _ |>). exists s1. split; [|do 4 (split; [done|])].
  - intros c. cbn. destruct (decide (c = b)) as [->|]; [by rewrite decide_True|done].
  - change (idequeue s1) with (idequeue s). by destruct (idequeue s).
Qed.

(** ideintr for the buffer [b] at the head of the queue, up to the next request. *)
Lemma ideintr_head err s b : idequeue s = Some b -> working (ctl s) (bufs s b) ->
  let x := bufs s b in
  let s' := {| idequeue := qnext x; havedisk1 := havedisk1 s; ctl := finish err (ctl s); woken := b :: woken s;
               bufs := fun c => if decide (c = b) then (serve err x (a_disks (ctl s))).1 else bufs s c |} in
  exists s1, (forall c, bufs s1 c = bufs s' c) /\ idequeue s1 = qnext x /\ havedisk1 s1 = havedisk1 s /\
    ctl s1 = finish err (ctl s) /\ woken s1 = b :: woken s /\
    ideintr (s <| ctl ::= finish err |>) = match qnext x with None => Ret tt s1 | Some c => idestart c s1 end.
Proof.
  intros Hq Hw. cbn zeta. set (x := bufs s b) in *. destruct (finish_ok err _ _ Hw) as (Hcmd & Herr & Hdisk & Hdata).
  unfold ideintr. unfold bind at 1, gets at 1. change (idequeue (s <| ctl ::= finish err |>)) with (idequeue s). rewrite Hq.
  unfold bind at 1, gets at 1. change (bufs (s <| ctl ::= finish err |>) b) with x.
  unfold bind at 1, modify at 1. set (s0 := _ <| idequeue := qnext x |>).
  assert (status (ctl s0) = Z.lor IDE_DRDY (if err then IDE_ERR else 0)) as Hst.
  { unfold status. change (ctl s0) with (finish err (ctl s)). by rewrite Hcmd, Herr. }
  unfold serve. destruct (Z.eqb_spec (Z.land (flags x) B_DIRTY) 0) as [Hf|Hf]; cbn [fst].
  - assert (idewait true s0 = Ret (if err then -1 else 0) s0) as Hwait.
    { unfold idewait, bind, gets. rewrite Hst. by destruct err. }
    unfold bind at 1 2. rewrite Hwait. destruct err; cbn [when Z.leb Z.compare].
    + destruct (ideintr_tail s0 b) as (s1 & Hb1 & Hq1 & Hh1 & Hc1 & Hw1 & E). exists s1.
      split; [|do 4 (split; [done|]); exact E]. intros c. rewrite Hb1. cbn. by destruct (decide (c = b)).
    + unfold bind at 1. unfold insl, gets at 1, upd_buf at 1, modify at 1. set (s2 := s0 <| bufs := _ |>).
      destruct (ideintr_tail s2 b) as (s1 & Hb1 & Hq1 & Hh1 & Hc1 & Hw1 & E). exists s1.
      split; [|do 4 (split; [done|]); exact E]. intros c. rewrite Hb1. cbn. destruct (decide (c = b)); [|done].
      rewrite decide_True by done. cbn. by rewrite <-(Hdata Hf eq_refl).
  - destruct (ideintr_tail s0 b) as (s1 & Hb1 & Hq1 & Hh1 & Hc1 & Hw1 & E). exists s1.
    split; [|do 4 (split; [done|]); exact E]. intros c. rewrite Hb1. cbn. by destruct (decide (c = b)).
Qed.

Lemma serve_qnext err x d v : serve err (set_qnext v x) d = (set_qnext v (serve err x d).1, (serve err x d).2).
Proof. unfold serve. cbn. by destruct (_ =? 0). Qed.

Lemma serve_done err x d : done_ (serve err x d).1 = true.
Proof.
  assert (forall f, Z.land (Z.ldiff (Z.lor f B_VALID) B_DIRTY) (Z.lor B_VALID B_DIRTY) = B_VALID) as H.
  { intros f. apply Z.bits_inj'. intros n Hn. rewrite Z.land_spec, Z.ldiff_spec, !Z.lor_spec.
    assert (Z.testbit B_VALID n && Z.testbit B_DIRTY n = false) as Hd by (rewrite <-Z.land_spec; apply Z.bits_0).
    by destruct (Z.testbit f n), (Z.testbit B_VALID n), (Z.testbit B_DIRTY n). }
  unfold done_, serve. destruct (_ =? 0); cbn [fst]; apply Z.eqb_eq, H.
Qed.

Lemma sim_interrupt fuel err s f b q : related s f -> f_queue f = b :: q ->
  exists s', ide_event fuel (Interrupt err) s = Some s' /\ woken s' = b :: woken s /\ iderw_resume b s' = Ret tt s' /\
    related s' {| f_disks := (serve err (f_bufs f b) (f_disks f)).2; f_queue := q; f_havedisk1 := f_havedisk1 f;
         f_bufs := fun c => if decide (c = b) then (serve err (f_bufs f b) (f_disks f)).1 else f_bufs f c |}.
Proof.
  intros H Eq. pose proof (rel_queue _ _ H) as Hl. pose proof (rel_ctl _ _ H) as Hw. pose proof (rel_nodup _ _ H) as Hnd.
  rewrite Eq in Hl, Hw, Hnd. destruct Hl as [Hq Hl]. apply NoDup_cons in Hnd as [Hb Hnd].
  destruct (ideintr_head err s b Hq Hw) as (s1 & Hb1 & Hq1 & Hh1 & Hc1 & Hw1 & E). cbn [bufs] in Hb1.
  destruct (finish_ok err _ _ Hw) as (Hcmd & _ & Hdisk & _).
  assert (forall s', (forall c, bufs s' c = bufs s1 c) -> a_disks (ctl s') = a_disks (ctl s1) -> havedisk1 s' = havedisk1 s1 ->
    idequeue s' = idequeue s1 -> match q with [] => a_cmd (ctl s') = None | c :: _ => working (ctl s') (bufs s' c) end ->
    related s' {| f_disks := (serve err (f_bufs f b) (f_disks f)).2; f_queue := q; f_havedisk1 := f_havedisk1 f;
         f_bufs := fun c => if decide (c = b) then (serve err (f_bufs f b) (f_disks f)).1 else f_bufs f c |}) as Hrel.
  { intros s' G1 G2 G3 G4 G5. split; cbn [f_bufs f_disks f_queue f_havedisk1].
    - intros c. rewrite G1, Hb1. rewrite <-(rel_bufs _ _ H b), <-(rel_disks _ _ H), serve_qnext.
      destruct (decide (c = b)); [done|apply H].
    - rewrite G2, Hc1, Hdisk, <-(rel_bufs _ _ H b), <-(rel_disks _ _ H), serve_qnext. done.
    - rewrite G3, Hh1. apply H.
    - rewrite G4, Hq1. eapply linked_ext, Hl. intros c Hc. rewrite G1, Hb1, decide_False by (by intros ->). done.
    - done.
    - intros c Hc. rewrite G1, Hb1, decide_False by (by intros ->). apply (rel_pending _ _ H). rewrite Eq. by right.
    - exact G5. }
  assert (forall s', bufs s' b = bufs s1 b -> iderw_resume b s' = Ret tt s') as Hres.
  { intros s' G. unfold iderw_resume, bind, gets. by rewrite G, Hb1, decide_True, serve_done. }
  cbn [ide_event]. rewrite E. destruct q as [|c q]; cbn in Hl.
  - rewrite Hl. exists s1. split; [reflexivity|]. split; [done|]. split; [by apply Hres|]. apply Hrel; try done. by rewrite Hc1.
  - destruct Hl as [Hqn Hl]. rewrite Hqn. destruct (rel_pending _ _ H c) as [_ Hblk]; [rewrite Eq; by right; left|].
    assert (bufs s1 c = bufs s c) as Ebc by (rewrite Hb1, decide_False; [done|intros ->; apply Hb; by left]).
    destruct (idestart_ok s1 c) as (a & -> & Hwork & Hda); [by rewrite Hc1|by rewrite Ebc|].
    eexists. split; [reflexivity|]. split; [done|]. split; [by apply Hres|]. apply Hrel; try done.
Qed.

(** ** The driver refines the server *)

Fixpoint ide_run (fuel : nat) (es : list event) (s : ide) : option ide :=
  match es with
  | [] => Some s
  | e :: es => match ide_event fuel e s with Some s => ide_run fuel es s | None => None end
  end.

(** [out] are the buffers served, in order. *)
Inductive fifo_run : fifo -> list event -> list nat -> fifo -> Prop :=
| run_nil f : fifo_run f [] [] f
| run_served f err b q f1 es out f2 : f_queue f = b :: q -> fifo_step f (Interrupt err) f1 -> fifo_run f1 es out f2 ->
    fifo_run f (Interrupt err :: es) (b :: out) f2
| run_other f e f1 es out f2 : (forall err, e <> Interrupt err) -> fifo_step f e f1 -> fifo_run f1 es out f2 ->
    fifo_run f (e :: es) out f2.

Lemma ide_run_related fuel f es out f' : fifo_run f es out f' -> forall s, related s f ->
  (length (f_queue f) + length es <= fuel)%nat ->
  exists s', ide_run fuel es s = Some s' /\ related s' f' /\ woken s' = rev out ++ woken s.
Proof.
  induction 1 as [f|f err b q f1 es out f2 Eq Hst _ IH|f e f1 es out f2 Hne Hst _ IH]; intros s H Hf; cbn [ide_run].
  - exists s. done.
  - inversion Hst as [|? ? b' q' Eq'|]; subst. rewrite Eq in Eq'. injection Eq' as <- <-.
    destruct (sim_interrupt fuel err s f b q H Eq) as (s1 & -> & Hw & _ & H1).
    destruct (IH s1 H1) as (s2 & -> & H2 & Hw2); [cbn; rewrite Eq in Hf; cbn in Hf; lia|]. exists s2. split; [done|]. split; [done|].
    rewrite Hw2, Hw. cbn. by rewrite <-(assoc_L (++)).
  - inversion Hst as [? b Hreq|? err|? b x Hb]; subst; [|by destruct (Hne err)|].
    + destruct (sim_request fuel s f b H Hreq) as (s1 & -> & Hw & H1); [lia|].
      destruct (IH s1 H1) as (s2 & -> & H2 & Hw2); [cbn; rewrite length_app; cbn in *; lia|]. exists s2. split; [done|]. split; [done|].
      by rewrite Hw2, Hw.
    + destruct (sim_change fuel s f b x H Hb) as (s1 & E & H1). rewrite E.
      destruct (IH s1 H1) as (s2 & -> & H2 & Hw2); [cbn in *; lia|]. exists s2. split; [done|]. split; [done|].
      rewrite Hw2. cbn in E. by simplify_eq.
Qed.

(** C11. The driver serves the requests of iderw one by one in their order, as if
    each were carried out at once when the disk is done with it.  Whatever
    sequence of requests, interrupts and changes to buffers that are not in the
    queue happens: nothing panics or polls a controller that is busy; the
    registers name the drive and the sector of the request; a write is on the
    disk and what is read is in the buffer, unless the disk reports an error; the
    buffers are woken up in the order of their requests, and the process then
    finds its request done. *)
Theorem ide_refines_fifo fuel s f es out f' : related s f -> fifo_run f es out f' ->
  (length (f_queue f) + length es <= fuel)%nat ->
  exists s', ide_run fuel es s = Some s' /\ related s' f' /\ woken s' = rev out ++ woken s /\
    forall err b q, f_queue f' = b :: q ->
      exists s'', ide_event fuel (Interrupt err) s' = Some s'' /\ iderw_resume b s'' = Ret tt s''.
Proof.
  intros H Hr Hf. destruct (ide_run_related fuel f es out f' Hr s H Hf) as (s' & E & H' & Hw).
  exists s'. split; [done|]. split; [done|]. split; [done|]. intros err b q Eq.
  destruct (sim_interrupt fuel err s' f' b q H' Eq) as (s'' & E' & _ & Hres & _). by exists s''.
Qed.

Module IdeWitness.

(** Buffer 0 is to be written to block 5, buffer 1 to be read from it. *)
Definition start_bufs (b : nat) : ibuf :=
  {| flags := if decide (b = 0%nat) then B_DIRTY else 0; dev := 0; blockno := 5; qnext := None;
     data := if decide (b = 0%nat) then [7] else []; locked := true |}.
Definition start_ctl : ata :=
  {| r_count := 0; r_lba0 := 0; r_lba1 := 0; r_lba2 := 0; r_sel := 224; a_cmd := None; a_data := []; a_err := false;
     a_disks := fun _ _ => [] |}.
Definition start : ide :=
  {| idequeue := None; bufs := start_bufs; havedisk1 := false; ctl := start_ctl; woken := [] |}.
Definition start_fifo : fifo :=
  {| f_disks := fun _ _ => []; f_bufs := start_bufs; f_queue := []; f_havedisk1 := false |}.

Definition events : list event := [Request 0; Request 1; Interrupt false; Interrupt false].

Lemma start_related : related start start_fifo.
Proof. split; try done. constructor. by intros b ?%elem_of_nil. Qed.

Lemma start_run : exists f', fifo_run start_fifo events [0%nat; 1%nat] f' /\ f_queue f' = [] /\ data (f_bufs f' 1%nat) = [7].
Proof.
  eexists. split.
  - eapply run_other; [done|apply fifo_request; repeat split; try done; [by left|set_solver]|].
    eapply run_other; [done|apply fifo_request; repeat split; try done; [by left|set_solver]|].
    eapply run_served; [reflexivity|by eapply fifo_interrupt|].
    eapply run_served; [reflexivity|by eapply fifo_interrupt|apply run_nil].
  - split; reflexivity.
Qed.

Lemma ide_refines_fifo_witness : exists s', ide_run 8 events start = Some s' /\ woken s' = [1%nat; 0%nat] /\
  data (bufs s' 1%nat) = [7].
Proof.
  destruct start_run as (f' & Hr & _ & Hd).
  destruct (ide_refines_fifo 8 start start_fifo events _ f' start_related Hr) as (s' & E & H & Hw & _); [cbn; lia|].
  exists s'. split; [exact E|]. split; [exact Hw|]. rewrite <-Hd, <-(rel_bufs _ _ H). reflexivity.
Defined.

End IdeWitness.
