(* ===== verification/Bio.v ===== *)
(** The buffer cache, src/src/bio.c, over the disk of src/src/memide.c (the
    disk driver that completes a request before it returns).

    The doubly linked list of buffers is the list [bc_mru] of their indices,
    most recently used first; unlinking a buffer and putting it behind the head
    moves its index to the front. *)

From stdpp Require Import base gmap list strings.
From Stdlib Require Import ZArith Lia.
From S2P Require Import Prelude Mem Str Mmu State Kalloc MemTable Vm Sched Fsys.

Definition buf_lock (b : nat) : M kernel sleeplock := x <- get_buf b ;; ret (b_lock x).
Definition set_buf_lock (b : nat) (l : sleeplock) : M kernel unit :=
  upd_buf b (fun x => x <| b_lock := l |>).

Definition bcache_acquire : M kernel unit :=
  facquire (fun x => bc_lock (x_bcache x)) (fun b x => x <| x_bcache ::= fun c => c <| bc_lock := b |> |>).
Definition bcache_release : M kernel unit :=
  frelease (fun x => bc_lock (x_bcache x)) (fun b x => x <| x_bcache ::= fun c => c <| bc_lock := b |> |>).

Definition buf0 : buf :=
  {| b_valid := false; b_dirty := false; b_dev := 0; b_blockno := 0;
     b_lock := initsleeplock; b_refcnt := 0; b_data := ∅ |}.

(** Each buffer is inserted behind the head, so the last one is first. *)
Definition binit : M kernel unit :=
  fmod (fun x => x <| x_bcache := {| bc_lock := false;
    bc_buf := replicate (Z.to_nat NBUF) buf0; bc_mru := rev (seq 0 (Z.to_nat NBUF)) |} |>).

(** memide.c: the disk has FSSIZE blocks. *)
Definition iderw (b : nat) : M kernel unit :=
  held <- holdingsleep (buf_lock b) ;;
  if negb held then panic "iderw: buf not locked"
  else
    x <- get_buf b ;;
    if b_valid x && negb (b_dirty x) then panic "iderw: nothing to do"
    else if negb (b_dev x =? 1) then panic "iderw: request not for disk 1"
    else if FSSIZE <=? b_blockno x then panic "iderw: block out of range"
    else
      (if b_dirty x then
         upd_buf b (fun x => x <| b_dirty := false |>) ;;;
         fmod (fun f => f <| x_disk ::= fun d => disk_write d (b_blockno x) (b_data x) |>)
       else
         d <- fget x_disk ;;
         upd_buf b (fun y => y <| b_data := disk_read d (b_blockno x) |>)) ;;;
      upd_buf b (fun x => x <| b_valid := true |>).

(** The two searches of bget. *)
Definition cached (dev blockno : Z) (c : bcache) : option nat :=
  List.find (fun i =>
    match bc_buf c !! i with
    | Some b => (b_dev b =? dev) && (b_blockno b =? blockno)
    | None => false
    end) (bc_mru c).

Definition recyclable (c : bcache) : option nat :=
  List.find (fun i =>
    match bc_buf c !! i with
    | Some b => (b_refcnt b =? 0) && negb (b_dirty b)
    | None => false
    end) (rev (bc_mru c)).

Definition bget (dev blockno : Z) : M kernel nat :=
  bcache_acquire ;;;
  c <- fget x_bcache ;;
  match cached dev blockno c with
  | Some b =>
      upd_buf b (fun x => x <| b_refcnt ::= fun n => n + 1 |>) ;;;
      bcache_release ;;;
      acquiresleep (buf_chan b) (buf_lock b) (set_buf_lock b) ;;;
      ret b
  | None =>
      match recyclable c with
      | Some b =>
          upd_buf b (fun x => x <| b_dev := dev |> <| b_blockno := blockno |>
            <| b_valid := false |> <| b_dirty := false |> <| b_refcnt := 1 |>) ;;;
          bcache_release ;;;
          acquiresleep (buf_chan b) (buf_lock b) (set_buf_lock b) ;;;
          ret b
      | None => panic "bget: no buffers"
      end
  end.

Definition bread (dev blockno : Z) : M kernel nat :=
  b <- bget dev blockno ;;
  x <- get_buf b ;;
  when (negb (b_valid x)) (iderw b) ;;;
  ret b.

Definition bwrite (b : nat) : M kernel unit :=
  held <- holdingsleep (buf_lock b) ;;
  if negb held then panic "bwrite"
  else
    upd_buf b (fun x => x <| b_dirty := true |>) ;;;
    iderw b.

Definition brelse (b : nat) : M kernel unit :=
  held <- holdingsleep (buf_lock b) ;;
  if negb held then panic "brelse"
  else
    releasesleep (buf_chan b) (set_buf_lock b) ;;;
    bcache_acquire ;;;
    upd_buf b (fun x => x <| b_refcnt ::= fun n => n - 1 |>) ;;;
    x <- get_buf b ;;
    when (b_refcnt x =? 0)
      (fmod (fun f => f <| x_bcache ::= fun c =>
         c <| bc_mru ::= fun l => b :: base.filter (fun i => i <> b) l |> |>)) ;;;
    bcache_release.

(** The contents of a locked buffer. *)
Definition buf_data (b : nat) : M kernel mem := x <- get_buf b ;; ret (b_data x).
Definition set_buf_data (b : nat) (g : mem -> mem) : M kernel unit :=
  upd_buf b (fun x => x <| b_data ::= g |>).
