(* ===== verification/Cache.v ===== *)
(** The buffer cache of src/src/bio.c: one buffer for every block, and what a
    reader of a block sees.

    [cache_inv c d H] is the invariant between the operations, with the buffers
    [H] held.  [cur c d b] is the current contents of the block [b]: those of
    its buffer if it has one, else those on the disk. *)

From stdpp Require Import base gmap list strings.
From Stdlib Require Import ZArith Lia.
From S2P Require Import Prelude Mem Str Mmu State Kalloc MemTable MemList Vm Sched Fsys Bio.

(** ** The invariant *)

(** The buffer [i] is the one of the block [b] of the disk. *)
Definition names (c : bcache) (b : Z) (i : nat) (bf : buf) : Prop :=
  bc_buf c !! i = Some bf /\ b_dev bf = 1 /\ b_blockno bf = b.

(** A buffer nobody holds. *)
Definition idle_buf (d : disk) (bf : buf) : Prop :=
  sl_locked (b_lock bf) = false /\ b_refcnt bf = 0 /\
  (if decide (b_dev bf = 1) then
     b_valid bf = true /\ (b_dirty bf = false -> b_data bf = disk_read d (b_blockno bf))
   else b_dirty bf = false).

(** A buffer someone holds. *)
Definition held_buf (bf : buf) : Prop :=
  sl_locked (b_lock bf) = true /\ b_refcnt bf = 1 /\ b_dev bf = 1 /\ b_valid bf = true.

Record cache_inv (c : bcache) (d : disk) (H : list nat) : Prop := {
  ci_lock : bc_lock c = false;
  ci_len : length (bc_buf c) = Z.to_nat NBUF;
  ci_mru : bc_mru c ≡ₚ seq 0 (Z.to_nat NBUF);
  ci_uniq : forall b i j bf bf', names c b i bf -> names c b j bf' -> i = j;
  ci_nodup : NoDup H;
  ci_idle : forall i bf, bc_buf c !! i = Some bf -> i ∉ H -> idle_buf d bf;
  ci_held : forall i, i ∈ H -> exists bf, bc_buf c !! i = Some bf /\ held_buf bf
}.

Definition cur (c : bcache) (d : disk) (b : Z) : mem :=
  match cached 1 b c with
  | Some i => match bc_buf c !! i with Some bf => b_data bf | None => disk_read d b end
  | None => disk_read d b
  end.

(** Some buffer can be given to another block. *)
Definition has_free (c : bcache) (H : list nat) : Prop :=
  exists i bf, bc_buf c !! i = Some bf /\ (i ∉ H) /\ b_dirty bf = false.

(** The block has been changed in the cache only. *)
Definition pinned (c : bcache) (b : Z) : Prop := exists i bf, names c b i bf /\ b_dirty bf = true.

(** The dirty buffers are those of the blocks [D]. *)
Definition dirty_are (c : bcache) (D : list Z) : Prop :=
  forall i bf, bc_buf c !! i = Some bf -> b_dirty bf = true -> b_dev bf = 1 /\ b_blockno bf ∈ D.

(** ** Looking for a buffer *)

Lemma find_spec {A} (f : A -> bool) l :
  match List.find f l with
  | Some x => x ∈ l /\ f x = true
  | None => forall x, x ∈ l -> f x = false
  end.
Proof.
  destruct (List.find f l) as [x|] eqn:E.
  - apply List.find_some in E as [Hin Hf]. by rewrite <-list_elem_of_In in Hin.
  - intros x Hx. eapply List.find_none in E; [done|]. by rewrite <-list_elem_of_In.
Qed.

Lemma index_in_mru c d H i bf : cache_inv c d H -> bc_buf c !! i = Some bf -> i ∈ bc_mru c.
Proof.
  intros I Hi. rewrite (ci_mru _ _ _ I). apply elem_of_seq. apply lookup_lt_Some in Hi.
  rewrite (ci_len _ _ _ I) in Hi. lia.
Qed.

Lemma cached_names c d H b i bf : cache_inv c d H -> names c b i bf -> cached 1 b c = Some i.
Proof.
  intros I (Hi & Hd & Hb). unfold cached.
  pose proof (find_spec (fun i => match bc_buf c !! i with
    | Some b0 => (b_dev b0 =? 1) && (b_blockno b0 =? b) | None => false end) (bc_mru c)) as Hf.
  destruct (List.find _ _) as [j|].
  - destruct Hf as [_ Hf]. destruct (bc_buf c !! j) as [bf'|] eqn:Hj; [|done].
    apply andb_true_iff in Hf as [H1%Z.eqb_eq H2%Z.eqb_eq].
    f_equal. by apply (ci_uniq _ _ _ I b j i bf' bf).
  - specialize (Hf i (index_in_mru _ _ _ _ _ I Hi)). rewrite Hi, Hd, Hb, !Z.eqb_refl in Hf. done.
Qed.

Lemma cached_Some c b i : cached 1 b c = Some i -> exists bf, names c b i bf.
Proof.
  unfold cached. intros E. pose proof (find_spec (fun i => match bc_buf c !! i with
    | Some b0 => (b_dev b0 =? 1) && (b_blockno b0 =? b) | None => false end) (bc_mru c)) as Hf.
  rewrite E in Hf. destruct Hf as [_ Hf]. destruct (bc_buf c !! i) as [bf|] eqn:Hi; [|done].
  apply andb_true_iff in Hf as [H1%Z.eqb_eq H2%Z.eqb_eq]. by exists bf.
Qed.

Lemma cached_None c d H b i bf : cache_inv c d H -> cached 1 b c = None -> ~ names c b i bf.
Proof. intros I E Hn. by rewrite (cached_names _ _ _ _ _ _ I Hn) in E. Qed.

Lemma cur_names c d H b i bf : cache_inv c d H -> names c b i bf -> cur c d b = b_data bf.
Proof.
  intros I Hn. unfold cur. rewrite (cached_names _ _ _ _ _ _ I Hn). by destruct Hn as (-> & _).
Qed.

Lemma cur_disk c d H b : cache_inv c d H -> (forall i bf, ~ names c b i bf) -> cur c d b = disk_read d b.
Proof.
  intros I Hn. unfold cur. destruct (cached 1 b c) as [i|] eqn:E; [|done].
  apply cached_Some in E as [bf Hf]. by apply Hn in Hf.
Qed.

(** Between operations a block that is not pinned is as on the disk. *)
Lemma cur_unpinned c d H : cache_inv c d H -> forall b, (forall i bf, names c b i bf -> i ∉ H) ->
  ~ pinned c b -> cur c d b = disk_read d b.
Proof.
  intros I b HH Hp. destruct (cached 1 b c) as [i|] eqn:E; [|unfold cur; by rewrite E].
  destruct (cached_Some _ _ _ E) as [bf Hn]. rewrite (cur_names _ _ _ _ _ _ I Hn). pose proof Hn as (Hi & Hd & Hb).
  destruct (ci_idle _ _ _ I i bf Hi) as (_ & _ & Hst); [by apply (HH i bf)|]. rewrite decide_True in Hst by done.
  destruct Hst as [_ Hcl]. rewrite <-Hb. apply Hcl. destruct (b_dirty bf) eqn:Hdt; [|done].
  exfalso. apply Hp. by exists i, bf.
Qed.

Lemma recyclable_Some c d H : cache_inv c d H -> has_free c H ->
  exists i bf, recyclable c = Some i /\ bc_buf c !! i = Some bf /\ (i ∉ H) /\ b_dirty bf = false.
Proof.
  intros I (j & bfj & Hj & HjH & Hjd). unfold recyclable.
  pose proof (find_spec (fun i => match bc_buf c !! i with
    | Some b => (b_refcnt b =? 0) && negb (b_dirty b) | None => false end) (rev (bc_mru c))) as Hf.
  destruct (List.find _ _) as [i|].
  - destruct Hf as [_ Hf]. destruct (bc_buf c !! i) as [bf|] eqn:Hi; [|done].
    apply andb_true_iff in Hf as [H1%Z.eqb_eq H2%negb_true_iff]. exists i, bf. split; [done|]. split; [done|].
    split; [|done]. intros HiH. destruct (ci_held _ _ _ I i HiH) as (bf' & Hi' & _ & Hr & _).
    rewrite Hi in Hi'. simplify_eq. lia.
  - exfalso. specialize (Hf j). rewrite Hj, Hjd in Hf. destruct (ci_idle _ _ _ I j bfj Hj HjH) as (_ & Hr & _).
    rewrite Hr in Hf. discriminate Hf. rewrite list_elem_of_In, <-in_rev, <-list_elem_of_In.
    by eapply index_in_mru.
Qed.

(** ** Changing one buffer *)

Definition set_buf (c : bcache) (i : nat) (bf : buf) : bcache := c <| bc_buf ::= <[i := bf]> |>.

Lemma set_buf_lookup c i bf bf' j :
  bc_buf c !! i = Some bf -> bc_buf (set_buf c i bf') !! j = if decide (j = i) then Some bf' else bc_buf c !! j.
Proof.
  intros Hi. cbn. case_decide; subst; [apply list_lookup_insert_eq; by eapply lookup_lt_Some|by apply list_lookup_insert_ne].
Qed.

Lemma set_buf_names c i bf bf' b j bfj : bc_buf c !! i = Some bf ->
  names (set_buf c i bf') b j bfj <->
  if decide (j = i) then bfj = bf' /\ b_dev bf' = 1 /\ b_blockno bf' = b else names c b j bfj.
Proof.
  intros Hi. unfold names. rewrite (set_buf_lookup c i bf bf' j Hi). case_decide; [|done].
  split; [intros (E & ? & ?); by simplify_eq|intros (-> & ? & ?); done].
Qed.

(** The buffer of another block, or a free one, is taken for the block [b]. *)
Section Take.
Context (c : bcache) (d : disk) (H : list nat) (I : cache_inv c d H).
Context (i : nat) (bf bf' : buf) (b : Z).
Context (Hi : bc_buf c !! i = Some bf) (HiH : i ∉ H).
Context (Hheld : held_buf bf') (Hb : b_blockno bf' = b) (Hdata : b_data bf' = cur c d b).
Context (Hwhich : names c b i bf \/ (b_dirty bf = false /\ forall j bfj, ~ names c b j bfj)).

#[local] Lemma take_named j bfj : names c b j bfj -> j = i.
Proof. intros Hj. destruct Hwhich as [Hn|[_ Hn]]; [by eapply (ci_uniq _ _ _ I)|by apply Hn in Hj]. Qed.

Lemma take_inv : cache_inv (set_buf c i bf') d (i :: H).
Proof.
  constructor; try apply I.
  - cbn. rewrite length_insert. apply I.
  - intros b' j k bfj bfk. rewrite !(set_buf_names c i bf) by done.
    destruct (decide (j = i)) as [Ej|], (decide (k = i)) as [Ek|].
    + congruence.
    + intros (_ & _ & Eb) Hk. rewrite Ej. symmetry. eapply take_named. by rewrite <-Hb, Eb.
    + intros Hj (_ & _ & Eb). rewrite Ek. eapply take_named. by rewrite <-Hb, Eb.
    + apply I.
  - apply NoDup_cons. split; [done|apply I].
  - intros j bfj. rewrite (set_buf_lookup c i bf) by done. case_decide as E.
    + intros _ Hn. exfalso. apply Hn. rewrite E. by left.
    + intros Hj Hn. apply (ci_idle _ _ _ I j); [done|]. intros Hin. apply Hn. by right.
  - intros j [Ej|Hj]%elem_of_cons.
    + rewrite Ej. exists bf'. rewrite (set_buf_lookup c i bf), decide_True by done. done.
    + assert (j <> i) by (intros ->; done). destruct (ci_held _ _ _ I j Hj) as (bfj & Hbf & ?).
      exists bfj. by rewrite (set_buf_lookup c i bf), decide_False by done.
Qed.

Lemma take_cur b' : cur (set_buf c i bf') d b' = cur c d b'.
Proof.
  pose proof take_inv as I'. destruct Hheld as (_ & _ & Hdev & _).
  assert (names (set_buf c i bf') b i bf') as Hn.
  { apply (set_buf_names c i bf); [done|]. by rewrite decide_True. }
  destruct (decide (b' = b)) as [->|Hne]; [by rewrite (cur_names _ _ _ _ _ _ I' Hn)|].
  destruct (cached 1 b' c) as [j|] eqn:E.
  - pose proof (cached_Some _ _ _ E) as (bfj & Hj). rewrite (cur_names _ _ _ _ _ _ I Hj).
    destruct (decide (j = i)) as [->|Hji].
    + pose proof Hj as (Hji & Hjd & Hjb). rewrite Hi in Hji. injection Hji as Ebf. rewrite <-Ebf in *.
      destruct Hwhich as [(_ & _ & ?)|[Hclean _]]; [congruence|].
      destruct (ci_idle _ _ _ I i _ Hi HiH) as (_ & _ & Hst). rewrite decide_True in Hst by done.
      destruct Hst as [_ Hst]. rewrite (Hst Hclean), Hjb. apply (cur_disk _ _ _ _ I'). intros k bfk.
      rewrite (set_buf_names c i bf) by done. destruct (decide (k = i)) as [_|Hk]; [intros (_ & _ & ?); congruence|].
      intros Hnk. apply Hk. by eapply (ci_uniq _ _ _ I b' k i bfk bf).
    + apply (cur_names _ _ _ _ j _ I'). apply (set_buf_names c i bf); [done|]. by rewrite decide_False.
  - rewrite (cur_disk _ _ _ b' I) by (intros k bfk; by eapply cached_None).
    apply (cur_disk _ _ _ _ I'). intros k bfk. rewrite (set_buf_names c i bf) by done.
    case_decide; [intros (_ & _ & ?); congruence|]. by eapply cached_None.
Qed.

Lemma take_pinned : b_dirty bf' = b_dirty bf -> forall b', pinned (set_buf c i bf') b' <-> pinned c b'.
Proof.
  intros Hd b'. destruct Hheld as (_ & _ & Hdev & _). split; intros (j & bfj & Hj & Hdj).
  - apply (set_buf_names c i bf) in Hj; [|done]. destruct (decide (j = i)) as [_|]; [|by exists j, bfj].
    destruct Hj as (Ebf & _ & Eb). rewrite Ebf, Hd in Hdj. exists i, bf. split; [|done].
    destruct Hwhich as [Hn|[? _]]; [|congruence]. by rewrite <-Eb, Hb.
  - destruct (decide (j = i)) as [Eji|Hne].
    + exists i, bf'. rewrite Eji in Hj. pose proof Hj as (Hi' & _). rewrite Hi in Hi'. injection Hi' as Ebf.
      rewrite Hd, Ebf. split; [|done]. apply (set_buf_names c i bf); [done|]. rewrite decide_True by done.
      split; [done|]. split; [done|]. destruct Hwhich as [(_ & _ & E1)|[? _]]; [|congruence].
      destruct Hj as (_ & _ & E2). congruence.
    + exists j, bfj. split; [|done]. apply (set_buf_names c i bf); [done|]. by rewrite decide_False.
Qed.

End Take.

(** ** Enough buffers *)

Lemma pinned_dirty c d H D : cache_inv c d H -> (forall b, pinned c b -> b ∈ D) -> dirty_are c D.
Proof.
  intros I HD i bf Hi Hd. assert (b_dev bf = 1) as Hdev.
  { destruct (decide (i ∈ H)) as [HiH|HiH].
    - destruct (ci_held _ _ _ I i HiH) as (bf' & Hi' & _ & _ & Hdev & _). congruence.
    - destruct (ci_idle _ _ _ I i bf Hi HiH) as (_ & _ & Hst). case_decide; [done|congruence]. }
  split; [done|]. apply HD. by exists i, bf.
Qed.

Lemma dirty_free c d H D :
  cache_inv c d H -> dirty_are c D -> (length D + length H < Z.to_nat NBUF)%nat -> has_free c H.
Proof.
  intros I HD Hlen.
  set (P := fun i => (i ∉ H) /\ match bc_buf c !! i with Some bf => b_dirty bf = false | None => False end).
  assert (forall i, Decision (P i)) as HP.
  { intros i. unfold P. destruct (bc_buf c !! i); apply _. }
  destruct (decide (Exists P (seq 0 (Z.to_nat NBUF)))) as [Hex|Hno].
  - apply Exists_exists in Hex as (i & _ & HiH & Hi). destruct (bc_buf c !! i) as [bf|] eqn:E; [|done].
    by exists i, bf.
  - exfalso. rewrite Exists_exists in Hno.
    set (l := filter (fun i => i ∉ H) (seq 0 (Z.to_nat NBUF))).
    assert (seq 0 (Z.to_nat NBUF) ⊆+ H ++ l) as Hsub1.
    { apply NoDup_submseteq; [apply NoDup_seq|]. intros i Hi. apply elem_of_app.
      destruct (decide (i ∈ H)); [by left|right]. by apply list_elem_of_filter. }
    set (blk := fun i => match bc_buf c !! i with Some bf => b_blockno bf | None => 0 end).
    assert (forall i, i ∈ l -> exists bf, names c (blk i) i bf /\ blk i ∈ D) as Hl.
    { intros i [HiH Hi]%list_elem_of_filter.
      assert (is_Some (bc_buf c !! i)) as [bf Hbf].
      { apply lookup_lt_is_Some. rewrite (ci_len _ _ _ I). apply elem_of_seq in Hi. lia. }
      unfold blk. rewrite Hbf. exists bf. destruct (b_dirty bf) eqn:Hd; [by destruct (HD i bf Hbf Hd)|].
      exfalso. apply Hno. exists i. split; [done|]. unfold P. by rewrite Hbf. }
    assert (blk <$> l ⊆+ D) as Hsub2.
    { apply NoDup_submseteq.
      - apply NoDup_fmap_2_strong; [|apply NoDup_filter, NoDup_seq]. intros i j Hi Hj E.
        destruct (Hl i Hi) as (bf & Hn & _), (Hl j Hj) as (bf' & Hn' & _). rewrite E in Hn.
        by eapply (ci_uniq _ _ _ I).
      - intros b (i & -> & Hi)%list_elem_of_fmap. by destruct (Hl i Hi) as (_ & _ & ?). }
    apply submseteq_length in Hsub1, Hsub2. rewrite length_app, length_seq in Hsub1. rewrite length_fmap in Hsub2. lia.
Qed.

(** ** The running process *)

Record env (s : kernel) (i : nat) (pr : proc) : Prop := {
  en_cur : k_curproc s = Some i;
  en_proc : k_ptable s !! i = Some pr;
  en_run : p_state pr = RUNNING;
  en_lock : k_ptable_lock s = false
}.

Definition with_cache (c : bcache) (s : kernel) : kernel := s <| k_fs ::= fun x => x <| x_bcache := c |> |>.
Abbreviation bc s := (x_bcache (k_fs s)).

Lemma env_cache s i pr c : env s i pr -> env (with_cache c s) i pr.
Proof. by intros []. Qed.

Lemma upd_buf_eq s i g bf :
  bc_buf (bc s) !! i = Some bf -> upd_buf i g s = Ret tt (with_cache (set_buf (bc s) i (g bf)) s).
Proof.
  intros Hi. unfold upd_buf, bind, get_buf, tget. rewrite Hi.
  change (Ret tt (with_cache ((bc s) <| bc_buf := alter g i (bc_buf (bc s)) |>) s) =
          Ret (S := kernel) tt (with_cache ((bc s) <| bc_buf := <[i := g bf]> (bc_buf (bc s)) |>) s)).
  assert (alter g i (bc_buf (bc s)) = <[i := g bf]> (bc_buf (bc s))) as ->; [|done].
  apply list_eq. intros j. destruct (decide (j = i)) as [->|Hne].
  - rewrite list_lookup_alter_eq, Hi. symmetry. apply list_lookup_insert_eq. by eapply lookup_lt_Some.
  - by rewrite list_lookup_alter_ne, list_lookup_insert_ne by done.
Qed.

Lemma get_buf_eq s i bf : bc_buf (bc s) !! i = Some bf -> get_buf i s = Ret bf s.
Proof. intros Hi. unfold get_buf, tget. by rewrite Hi. Qed.

Lemma set_set_buf c i bf bf' : set_buf (set_buf c i bf) i bf' = set_buf c i bf'.
Proof. unfold set_buf. destruct c. cbn. by rewrite list_insert_insert_eq. Qed.

(** The buffer after its lock has been taken. *)
Definition lock_buf (pr : proc) (bf : buf) : buf :=
  bf <| b_refcnt := 1 |> <| b_lock := {| sl_locked := true; sl_pid := p_pid pr |} |>.

Lemma acquire_buf s i pr j bf :
  env s i pr -> bc_buf (bc s) !! j = Some bf -> sl_locked (b_lock bf) = false ->
  acquiresleep (buf_chan j) (buf_lock j) (set_buf_lock j) s =
  Ret tt (with_cache (set_buf (bc s) j (bf <| b_lock := {| sl_locked := true; sl_pid := p_pid pr |} |>)) s).
Proof.
  intros [Hc Hp _ _] Hj Hl. unfold acquiresleep, buf_lock. unfold bind at 1. unfold bind at 1.
  rewrite (get_buf_eq s j bf Hj). cbn [ret]. unfold ret. rewrite Hl.
  unfold bind, myproc, get_proc. rewrite Hc, Hp. unfold set_buf_lock. by apply upd_buf_eq.
Qed.

(** The lock of the cache, taken and released around a change. *)
Lemma bcache_lock_eq s : bc_lock (bc s) = false ->
  bcache_acquire s = Ret tt (with_cache ((bc s) <| bc_lock := true |>) s).
Proof. intros Hl. unfold bcache_acquire, facquire, acquire. by rewrite Hl. Qed.

Lemma bcache_unlock_eq s : bc_lock (bc s) = true ->
  bcache_release s = Ret tt (with_cache ((bc s) <| bc_lock := false |>) s).
Proof. intros Hl. unfold bcache_release, frelease, release. by rewrite Hl. Qed.

(** The lock flag, set and cleared around a change of a buffer. *)
Lemma locked_set c i bf : bc_lock c = false ->
  (set_buf (c <| bc_lock := true |>) i bf) <| bc_lock := false |> = set_buf c i bf.
Proof. intros Hl. destruct c. cbn in Hl. by subst. Qed.

Lemma locked_state s i bf : bc_lock (bc s) = false ->
  let s1 := with_cache ((bc s) <| bc_lock := true |>) s in
  let s2 := with_cache (set_buf (bc s1) i bf) s1 in
  with_cache ((bc s2) <| bc_lock := false |>) s2 = with_cache (set_buf (bc s) i bf) s.
Proof. intros Hl s1 s2. rewrite <-(locked_set (bc s) i bf Hl). done. Qed.

(** Executes the first operation of a sequence. *)
Ltac run H := erewrite bind_ret_eq; [|eapply H]; try done.

Section Ops.
Context (s : kernel) (p : nat) (pr : proc) (H : list nat).
Context (E : env s p pr).
Let c := bc s.
Let d := x_disk (k_fs s).
Context (I : cache_inv c d H).

Lemma bget_hit b i bf : names c b i bf -> i ∉ H ->
  bget 1 b s = Ret i (with_cache (set_buf c i (lock_buf pr bf)) s).
Proof.
  intros Hn HiH. pose proof Hn as (Hi & _). destruct (ci_idle _ _ _ I i bf Hi HiH) as (Hsl & Hrc & _).
  unfold bget. rewrite (bind_ret_eq _ _ _ _ _ (bcache_lock_eq s (ci_lock _ _ _ I))).
  set (s1 := with_cache (c <| bc_lock := true |>) s).
  rewrite (bind_ret_eq (fget x_bcache) _ s1 (bc s1) s1 eq_refl).
  change (cached 1 b (bc s1)) with (cached 1 b c). rewrite (cached_names _ _ _ _ _ _ I Hn).
  rewrite (bind_ret_eq _ _ _ _ _ (upd_buf_eq s1 i _ bf Hi)).
  run (bcache_unlock_eq (with_cache (set_buf (bc s1) i (bf <| b_refcnt ::= fun n => n + 1 |>)) s1)).
  set (s2 := with_cache (set_buf c i (bf <| b_refcnt ::= fun n => n + 1 |>)) s).
  rewrite (locked_state s i _ (ci_lock _ _ _ I)). fold s2.
  run (acquire_buf s2 p pr i (bf <| b_refcnt ::= fun n => n + 1 |>)).
  - change (Ret i (with_cache (set_buf (set_buf c i (bf <| b_refcnt ::= fun n => n + 1 |>)) i
      (bf <| b_refcnt ::= fun n => n + 1 |> <| b_lock := {| sl_locked := true; sl_pid := p_pid pr |} |>)) s)
      = Ret (S := kernel) i (with_cache (set_buf c i (lock_buf pr bf)) s)).
    rewrite set_set_buf. do 3 f_equal. unfold lock_buf. destruct bf. cbn in Hrc. by subst.
  - by apply env_cache.
  - change (bc_buf (set_buf c i (bf <| b_refcnt ::= fun n => n + 1 |>)) !! i = Some (bf <| b_refcnt ::= fun n => n + 1 |>)).
    by rewrite (set_buf_lookup c i bf), decide_True.
Qed.

(** The buffer a block is given when it has none. *)
Definition fresh_buf (b : Z) (bf : buf) : buf :=
  bf <| b_dev := 1 |> <| b_blockno := b |> <| b_valid := false |> <| b_dirty := false |> <| b_refcnt := 1 |>.

Lemma bget_miss b : (forall i bf, ~ names c b i bf) -> has_free c H ->
  exists i bf, bc_buf c !! i = Some bf /\ (i ∉ H) /\ b_dirty bf = false /\
    bget 1 b s = Ret i (with_cache (set_buf c i (lock_buf pr (fresh_buf b bf))) s).
Proof.
  intros Hn Hfree. destruct (recyclable_Some c d H I Hfree) as (i & bf & Hr & Hi & HiH & Hd).
  exists i, bf. split; [done|]. split; [done|]. split; [done|].
  destruct (ci_idle _ _ _ I i bf Hi HiH) as (Hsl & _ & _).
  unfold bget. rewrite (bind_ret_eq _ _ _ _ _ (bcache_lock_eq s (ci_lock _ _ _ I))).
  set (s1 := with_cache (c <| bc_lock := true |>) s).
  rewrite (bind_ret_eq (fget x_bcache) _ s1 (bc s1) s1 eq_refl).
  change (cached 1 b (bc s1)) with (cached 1 b c). change (recyclable (bc s1)) with (recyclable c). rewrite Hr.
  destruct (cached 1 b c) as [j|] eqn:Ec; [apply cached_Some in Ec as [bfj Hj]; by apply Hn in Hj|].
  rewrite (bind_ret_eq _ _ _ _ _ (upd_buf_eq s1 i _ bf Hi)). fold (fresh_buf b bf).
  run (bcache_unlock_eq (with_cache (set_buf (bc s1) i (fresh_buf b bf)) s1)).
  set (s2 := with_cache (set_buf c i (fresh_buf b bf)) s).
  rewrite (locked_state s i _ (ci_lock _ _ _ I)). fold s2.
  run (acquire_buf s2 p pr i (fresh_buf b bf)).
  - change (Ret i (with_cache (set_buf (set_buf c i (fresh_buf b bf)) i
      ((fresh_buf b bf) <| b_lock := {| sl_locked := true; sl_pid := p_pid pr |} |>)) s)
      = Ret (S := kernel) i (with_cache (set_buf c i (lock_buf pr (fresh_buf b bf))) s)).
    by rewrite set_set_buf.
  - by apply env_cache.
  - change (bc_buf (set_buf c i (fresh_buf b bf)) !! i = Some (fresh_buf b bf)).
    by rewrite (set_buf_lookup c i bf), decide_True.
Qed.

End Ops.

(** Reading a locked buffer from the disk, and writing it. *)
Lemma holding_eq s i bf : bc_buf (bc s) !! i = Some bf ->
  holdingsleep (buf_lock i) s = Ret (sl_locked (b_lock bf)) s.
Proof. intros Hi. unfold holdingsleep, buf_lock, bind. by rewrite (get_buf_eq s i bf Hi). Qed.

Lemma with_cache_buf s c i bf bf' : bc_buf c !! i = Some bf ->
  bc_buf (bc (with_cache (set_buf c i bf') s)) !! i = Some bf'.
Proof. intros Hi. change (bc_buf (set_buf c i bf') !! i = Some bf'). by rewrite (set_buf_lookup c i bf), decide_True. Qed.

Lemma iderw_read s i bf :
  bc_buf (bc s) !! i = Some bf -> sl_locked (b_lock bf) = true -> b_valid bf = false -> b_dirty bf = false ->
  b_dev bf = 1 -> b_blockno bf < FSSIZE ->
  iderw i s = Ret tt (with_cache (set_buf (bc s) i
    (bf <| b_data := disk_read (x_disk (k_fs s)) (b_blockno bf) |> <| b_valid := true |>)) s).
Proof.
  intros Hi Hl Hv Hd Hdev Hb. unfold iderw. run (holding_eq s i bf Hi). rewrite Hl. cbn [negb].
  run (get_buf_eq s i bf Hi). rewrite Hv, Hd, Hdev. cbn [andb negb Z.eqb Pos.eqb].
  destruct (Z.leb_spec FSSIZE (b_blockno bf)); [lia|]. rewrite bind_assoc.
  rewrite (bind_ret_eq (fget x_disk) _ s (x_disk (k_fs s)) s eq_refl).
  rewrite (bind_ret_eq _ _ _ _ _ (upd_buf_eq s i _ bf Hi)).
  rewrite (upd_buf_eq _ i _ _ (with_cache_buf s (bc s) i bf _ Hi)).
  change (Ret tt (with_cache (set_buf (set_buf (bc s) i (bf <| b_data := disk_read (x_disk (k_fs s)) (b_blockno bf) |>)) i
    (bf <| b_data := disk_read (x_disk (k_fs s)) (b_blockno bf) |> <| b_valid := true |>)) s) =
    Ret (S := kernel) tt (with_cache (set_buf (bc s) i
    (bf <| b_data := disk_read (x_disk (k_fs s)) (b_blockno bf) |> <| b_valid := true |>)) s)).
  by rewrite set_set_buf.
Qed.

Definition with_disk (d : disk) (s : kernel) : kernel := s <| k_fs ::= fun x => x <| x_disk := d |> |>.

Lemma bwrite_eq s i bf :
  bc_buf (bc s) !! i = Some bf -> held_buf bf -> b_blockno bf < FSSIZE ->
  bwrite i s = Ret tt (with_disk (disk_write (x_disk (k_fs s)) (b_blockno bf) (b_data bf))
    (with_cache (set_buf (bc s) i (bf <| b_dirty := false |>)) s)).
Proof.
  intros Hi (Hl & _ & Hdev & Hv) Hb. unfold bwrite. run (holding_eq s i bf Hi). rewrite Hl. cbn [negb].
  rewrite (bind_ret_eq _ _ _ _ _ (upd_buf_eq s i _ bf Hi)).
  set (bf1 := bf <| b_dirty := true |>). set (s1 := with_cache (set_buf (bc s) i bf1) s).
  assert (bc_buf (bc s1) !! i = Some bf1) as Hi1 by (by eapply with_cache_buf).
  unfold iderw. run (holding_eq s1 i bf1 Hi1). change (sl_locked (b_lock bf1)) with (sl_locked (b_lock bf)). rewrite Hl.
  cbn [negb]. run (get_buf_eq s1 i bf1 Hi1). change (b_dirty bf1) with true. change (b_dev bf1) with (b_dev bf).
  rewrite andb_false_r, Hdev. cbn [negb Z.eqb Pos.eqb]. change (b_blockno bf1) with (b_blockno bf).
  destruct (Z.leb_spec FSSIZE (b_blockno bf)); [lia|]. rewrite bind_assoc.
  rewrite (bind_ret_eq _ _ _ _ _ (upd_buf_eq s1 i _ bf1 Hi1)).
  set (s2 := with_cache _ s1). change (b_data bf1) with (b_data bf).
  rewrite (bind_ret_eq _ _ s2 tt (with_disk (disk_write (x_disk (k_fs s)) (b_blockno bf) (b_data bf)) s2)) by done.
  rewrite (upd_buf_eq _ i _ (bf1 <| b_dirty := false |>)).
  - change (Ret tt (with_disk (disk_write (x_disk (k_fs s)) (b_blockno bf) (b_data bf))
      (with_cache (set_buf (set_buf (set_buf (bc s) i bf1) i (bf1 <| b_dirty := false |>)) i
         (bf1 <| b_dirty := false |> <| b_valid := true |>)) s)) =
      Ret (S := kernel) tt (with_disk (disk_write (x_disk (k_fs s)) (b_blockno bf) (b_data bf))
      (with_cache (set_buf (bc s) i (bf <| b_dirty := false |>)) s))).
    rewrite !set_set_buf. do 4 f_equal. destruct bf. cbn in Hv. by subst.
  - exact (with_cache_buf s1 (bc s1) i bf1 _ Hi1).
Qed.

(** ** bread *)

(** What a reader of any block sees is the same, and so are the blocks changed
    in the cache only. *)
Record same_view (c : bcache) (d : disk) (c' : bcache) (d' : disk) : Prop := {
  sv_cur : forall b, cur c' d' b = cur c d b;
  sv_pinned : forall b, pinned c' b <-> pinned c b
}.

Lemma bread_ok s p pr H b :
  env s p pr -> cache_inv (bc s) (x_disk (k_fs s)) H -> b < FSSIZE ->
  (forall i bf, names (bc s) b i bf -> i ∉ H) -> (has_free (bc s) H \/ exists i bf, names (bc s) b i bf) ->
  exists i bf', bread 1 b s = Ret i (with_cache (set_buf (bc s) i bf') s) /\
    (i ∉ H) /\ names (set_buf (bc s) i bf') b i bf' /\ b_data bf' = cur (bc s) (x_disk (k_fs s)) b /\
    (b_dirty bf' = true \/ b_data bf' = disk_read (x_disk (k_fs s)) b) /\
    cache_inv (set_buf (bc s) i bf') (x_disk (k_fs s)) (i :: H) /\
    same_view (bc s) (x_disk (k_fs s)) (set_buf (bc s) i bf') (x_disk (k_fs s)).
Proof.
  intros E I Hb Hnot Hfree. set (c := bc s) in *. set (d := x_disk (k_fs s)) in *.
  assert (exists i bf bf', bread 1 b s = Ret i (with_cache (set_buf c i bf') s) /\
    bc_buf c !! i = Some bf /\ (i ∉ H) /\ held_buf bf' /\ b_blockno bf' = b /\ b_data bf' = cur c d b /\
    b_dirty bf' = b_dirty bf /\ (b_dirty bf' = true \/ b_data bf' = disk_read d b) /\
    (names c b i bf \/ (b_dirty bf = false /\ forall j bfj, ~ names c b j bfj)))
    as (i & bf & bf' & Hr & Hi & HiH & Hheld & Hbn & Hdata & Hdirty & Hclean & Hwhich).
  { destruct (cached 1 b c) as [i|] eqn:Ec.
    - destruct (cached_Some _ _ _ Ec) as [bf Hn]. pose proof Hn as (Hi & Hdev & Hbn).
      pose proof (Hnot i bf Hn) as HiH. exists i, bf, (lock_buf pr bf).
      destruct (ci_idle _ _ _ I i bf Hi HiH) as (_ & _ & Hst). rewrite decide_True in Hst by done.
      destruct Hst as [Hv Hcl]. assert (held_buf (lock_buf pr bf)) by (repeat split; done).
      assert (b_dirty (lock_buf pr bf) = true \/ b_data (lock_buf pr bf) = disk_read d b).
      { change (b_dirty bf = true \/ b_data bf = disk_read d b). rewrite <-Hbn. destruct (b_dirty bf); auto. }
      split; [|rewrite (cur_names _ _ _ _ _ _ I Hn); auto 10].
      unfold bread. run (bget_hit s p pr H E I b i bf Hn HiH).
      run (get_buf_eq _ i (lock_buf pr bf) (with_cache_buf s c i bf _ Hi)).
      change (b_valid (lock_buf pr bf)) with (b_valid bf). by rewrite Hv.
    - assert (forall j bfj, ~ names c b j bfj) as Hn by (intros j bfj; by eapply cached_None).
      destruct Hfree as [Hfree|(j & bfj & Hj)]; [|by apply Hn in Hj].
      destruct (bget_miss s p pr H E I b Hn Hfree) as (i & bf & Hi & HiH & Hd & Hr).
      eexists i, bf, ((lock_buf pr (fresh_buf b bf)) <| b_data := disk_read d b |> <| b_valid := true |>).
      split; [|rewrite (cur_disk _ _ _ _ I Hn), Hd; split; [done|]; split; [done|]; split; [repeat split; done|]; auto 10].
      unfold bread. run Hr.
      pose proof (with_cache_buf s c i bf (lock_buf pr (fresh_buf b bf)) Hi) as Hi1.
      run (get_buf_eq _ i _ Hi1). change (b_valid (lock_buf pr (fresh_buf b bf))) with false. cbn [negb when].
      run (iderw_read _ i _ Hi1).
      change (Ret i (with_cache (set_buf (set_buf c i (lock_buf pr (fresh_buf b bf))) i
        ((lock_buf pr (fresh_buf b bf)) <| b_data := disk_read d b |> <| b_valid := true |>)) s) =
        Ret (S := kernel) i (with_cache (set_buf c i
        ((lock_buf pr (fresh_buf b bf)) <| b_data := disk_read d b |> <| b_valid := true |>)) s)).
      by rewrite set_set_buf. }
  exists i, bf'. split; [done|]. split; [done|]. split.
  { apply (set_buf_names c i bf); [done|]. rewrite decide_True by done. split; [done|]. split; [apply Hheld|done]. }
  split; [done|]. split; [done|]. split; [by eapply take_inv|]. split; [by eapply take_cur|by eapply take_pinned].
Qed.

(** ** Changing the contents of a held buffer *)

Section Held.
Context (c : bcache) (d : disk) (H : list nat) (i : nat) (bf : buf) (b : Z).
Context (I : cache_inv c d (i :: H)) (Hn : names c b i bf).

#[local] Lemma held_i : bc_buf c !! i = Some bf /\ held_buf bf /\ i ∉ H.
Proof.
  destruct Hn as (Hi & _). destruct (ci_held _ _ _ I i ltac:(by left)) as (bf' & Hi' & Hh).
  rewrite Hi in Hi'. injection Hi' as <-. split; [done|]. split; [done|].
  by pose proof (ci_nodup _ _ _ I) as [? _]%NoDup_cons.
Qed.

(** Another version of the buffer [i], held and of the same block. *)
Lemma held_inv d' bf' : held_buf bf' -> b_blockno bf' = b ->
  (forall b', b' <> b -> disk_read d' b' = disk_read d b') -> cache_inv (set_buf c i bf') d' (i :: H).
Proof.
  intros Hh Hb Hd. destruct held_i as (Hi & _ & HiH). constructor; try apply I.
  - cbn. rewrite length_insert. apply I.
  - intros b' j k bfj bfk. rewrite !(set_buf_names c i bf) by done.
    destruct (decide (j = i)) as [Ej|], (decide (k = i)) as [Ek|]; try congruence.
    + intros (_ & _ & Eb) Hk. rewrite Ej. eapply (ci_uniq _ _ _ I); [exact Hn|]. by rewrite <-Hb, Eb.
    + intros Hj (_ & _ & Eb). rewrite Ek. eapply (ci_uniq _ _ _ I); [|exact Hn]. by rewrite <-Hb, Eb.
    + apply I.
  - intros j bfj. rewrite (set_buf_lookup c i bf) by done. destruct (decide (j = i)) as [Ej|Hji].
    + intros _ Hj. exfalso. apply Hj. rewrite Ej. by left.
    + intros Hj HjH. destruct (ci_idle _ _ _ I j bfj Hj HjH) as (H1 & H2 & H3). split; [done|]. split; [done|].
      case_decide as Hdev; [|done]. destruct H3 as [H3 H4]. split; [done|]. intros Hcl. rewrite Hd; [auto|].
      intros Eb. apply Hji. eapply (ci_uniq _ _ _ I b j i); [|exact Hn]. done.
  - intros j Hj. rewrite (set_buf_lookup c i bf) by done. destruct (decide (j = i)); [by exists bf'|by apply (ci_held _ _ _ I)].
Qed.

Lemma held_cur d' bf' b' : held_buf bf' -> b_blockno bf' = b ->
  (forall b', b' <> b -> disk_read d' b' = disk_read d b') ->
  cur (set_buf c i bf') d' b' = if decide (b' = b) then b_data bf' else cur c d b'.
Proof.
  intros Hh Hb Hd. destruct held_i as (Hi & _ & _). pose proof (held_inv d' bf' Hh Hb Hd) as I'.
  destruct (decide (b' = b)) as [Eb|Hne].
  - apply (cur_names _ _ _ _ i _ I'). apply (set_buf_names c i bf); [done|]. rewrite decide_True by done.
    split; [done|]. split; [apply Hh|congruence].
  - destruct (cached 1 b' c) as [j|] eqn:Ec.
    + destruct (cached_Some _ _ _ Ec) as [bfj Hj]. rewrite (cur_names _ _ _ _ _ _ I Hj).
      apply (cur_names _ _ _ _ j _ I'). apply (set_buf_names c i bf); [done|]. rewrite decide_False; [done|].
      intros Eji. destruct Hj as (Hj & _ & Hjb). rewrite Eji, Hi in Hj. injection Hj as <-.
      destruct Hn as (_ & _ & ?). congruence.
    + assert (forall j bfj, ~ names c b' j bfj) as Hno by (intros j bfj; by eapply cached_None).
      rewrite (cur_disk _ _ _ _ I Hno), <-Hd by done. apply (cur_disk _ _ _ _ I'). intros j bfj.
      rewrite (set_buf_names c i bf) by done. case_decide; [intros (_ & _ & ?); congruence|apply Hno].
Qed.

Lemma held_pinned bf' b' : held_buf bf' -> b_blockno bf' = b ->
  pinned (set_buf c i bf') b' <-> if decide (b' = b) then b_dirty bf' = true else pinned c b'.
Proof.
  intros Hh Hb. destruct held_i as (Hi & _ & _). unfold pinned.
  setoid_rewrite (set_buf_names c i bf _ _ _ _ Hi). split.
  - intros (j & bfj & Hj & Hd). destruct (decide (j = i)) as [_|Hji].
    + destruct Hj as (-> & _ & Eb). rewrite decide_True by congruence. done.
    + rewrite decide_False; [by exists j, bfj|]. intros Eb. apply Hji. rewrite Eb in Hj.
      by eapply (ci_uniq _ _ _ I).
  - destruct (decide (b' = b)) as [Eb|Hne].
    + intros Hd. exists i, bf'. rewrite decide_True by done. split; [|done]. split; [done|]. split; [apply Hh|congruence].
    + intros (j & bfj & Hj & Hd). exists j, bfj. rewrite decide_False; [done|]. intros Eji.
      destruct Hj as (Hj & _ & Hjb). rewrite Eji, Hi in Hj. injection Hj as <-. destruct Hn as (_ & _ & ?). congruence.
Qed.

End Held.

(** ** brelse *)

Lemma move_front {A} `{EqDecision A} (x : A) l : NoDup l -> x ∈ l -> x :: filter (fun y => y <> x) l ≡ₚ l.
Proof.
  intros Hnd Hx. apply NoDup_Permutation; [|done|].
  - apply NoDup_cons. split; [|by apply NoDup_filter]. by intros [? _]%list_elem_of_filter.
  - intros y. rewrite elem_of_cons, list_elem_of_filter. split.
    + by intros [->|[_ ?]].
    + intros Hy. destruct (decide (y = x)); auto.
Qed.

(** The buffer and the cache after the release. *)
Definition idle_of (bf : buf) : buf :=
  bf <| b_lock := {| sl_locked := false; sl_pid := 0 |} |> <| b_refcnt := 0 |>.
Definition released (c : bcache) (i : nat) (bf : buf) : bcache :=
  (set_buf c i (idle_of bf)) <| bc_mru := i :: filter (fun j => j <> i) (bc_mru c) |>.

Lemma brelse_eq s p pr i bf :
  env s p pr -> bc_lock (bc s) = false -> bc_buf (bc s) !! i = Some bf -> held_buf bf ->
  brelse i s = Ret tt (with_cache (released (bc s) i bf) (woken (buf_chan i) s)).
Proof.
  intros E Hcl Hi (Hl & Hrc & _). unfold brelse. run (holding_eq s i bf Hi). rewrite Hl. cbn [negb].
  unfold releasesleep, set_buf_lock. rewrite bind_assoc.
  rewrite (bind_ret_eq _ _ _ _ _ (upd_buf_eq s i _ bf Hi)).
  set (bf1 := bf <| b_lock := {| sl_locked := false; sl_pid := 0 |} |>). set (s1 := with_cache (set_buf (bc s) i bf1) s).
  rewrite (bind_ret_eq _ _ _ _ _ (wakeup_eq (buf_chan i) s1 (en_lock _ _ _ E))).
  set (t := woken (buf_chan i) s). set (s2 := woken (buf_chan i) s1).
  assert (bc s2 = set_buf (bc s) i bf1) as Ec by done.
  run (bcache_lock_eq s2). set (s3 := with_cache _ s2).
  assert (bc_buf (bc s3) !! i = Some bf1) as Hi3.
  { change (bc_buf (set_buf (bc s) i bf1) !! i = Some bf1). by rewrite (set_buf_lookup _ i bf), decide_True. }
  rewrite (bind_ret_eq _ _ _ _ _ (upd_buf_eq s3 i _ bf1 Hi3)).
  set (s4 := with_cache _ s3).
  run (get_buf_eq s4 i (bf1 <| b_refcnt ::= fun n => n - 1 |>) (with_cache_buf s3 (bc s3) i bf1 _ Hi3)).
  change (b_refcnt (bf1 <| b_refcnt ::= fun n => n - 1 |>)) with (b_refcnt bf - 1). rewrite Hrc. cbn [when Z.eqb Z.sub Z.add Z.opp Z.pos_sub].
  rewrite (bind_ret_eq _ _ s4 tt (with_cache ((bc s4) <| bc_mru ::= fun l => i :: filter (fun j => j <> i) l |>) s4)) by done.
  rewrite bcache_unlock_eq by done.
  change (Ret tt (with_cache ((set_buf (set_buf ((bc s) <| bc_lock := true |>) i bf1) i (bf1 <| b_refcnt ::= fun n => n - 1 |>))
     <| bc_mru ::= fun l => i :: filter (fun j => j <> i) l |> <| bc_lock := false |>) t) =
     Ret (S := kernel) tt (with_cache (released (bc s) i bf) t)).
  rewrite set_set_buf. do 2 f_equal. unfold released, idle_of. destruct (bc s) as [lk bufs mru]. cbn in Hcl. subst lk.
  unfold set_buf. cbn. do 4 f_equal. destruct bf. cbn in Hrc. by subst.
Qed.

Section Release.
Context (c : bcache) (d : disk) (H : list nat) (i : nat) (bf : buf) (b : Z).
Context (I : cache_inv c d (i :: H)) (Hn : names c b i bf).
Context (Hclean : b_dirty bf = true \/ b_data bf = disk_read d b).

Lemma released_names b' j bfj : names (released c i bf) b' j bfj <->
  if decide (j = i) then bfj = idle_of bf /\ b' = b else names c b' j bfj.
Proof.
  pose proof (held_i c d H i bf b I Hn) as (Hi & _). destruct Hn as (_ & Hdev & Hb).
  change (names (released c i bf) b' j bfj) with (names (set_buf c i (idle_of bf)) b' j bfj).
  rewrite (set_buf_names c i bf) by done. case_decide; [|done].
  change (b_dev (idle_of bf)) with (b_dev bf). change (b_blockno (idle_of bf)) with (b_blockno bf).
  rewrite Hb. split; [by intros (-> & _ & ->)|by intros [-> ->]].
Qed.

Lemma released_inv : cache_inv (released c i bf) d H.
Proof.
  destruct (held_i c d H i bf b I Hn) as (Hi & Hh & HiH). pose proof Hn as (_ & Hdev & Hb).
  constructor.
  - apply I.
  - cbn. rewrite length_insert. apply I.
  - cbn. rewrite move_front; [apply I| |].
    + rewrite (ci_mru _ _ _ I). apply NoDup_seq.
    + by eapply index_in_mru.
  - intros b' j k bfj bfk. rewrite !released_names.
    destruct (decide (j = i)) as [Ej|], (decide (k = i)) as [Ek|]; try congruence.
    + intros [_ Eb] Hk. rewrite Ej. rewrite Eb in Hk. by eapply (ci_uniq _ _ _ I).
    + intros Hj [_ Eb]. rewrite Ek. rewrite Eb in Hj. by eapply (ci_uniq _ _ _ I).
    + apply I.
  - by pose proof (ci_nodup _ _ _ I) as [_ ?]%NoDup_cons.
  - intros j bfj. change (bc_buf (released c i bf)) with (bc_buf (set_buf c i (idle_of bf))).
    rewrite (set_buf_lookup c i bf) by done. destruct (decide (j = i)) as [_|Hji].
    + intros Ebf _. injection Ebf as <-. split; [done|]. split; [done|].
      change (b_dev (idle_of bf)) with (b_dev bf). rewrite decide_True by done. split; [apply Hh|].
      change (b_dirty (idle_of bf)) with (b_dirty bf). change (b_data (idle_of bf)) with (b_data bf).
      change (b_blockno (idle_of bf)) with (b_blockno bf). rewrite Hb. intros Hd. destruct Hclean; congruence.
    + intros Hj HjH. apply (ci_idle _ _ _ I j bfj Hj). intros [?|?]%elem_of_cons; done.
  - intros j Hj. change (bc_buf (released c i bf)) with (bc_buf (set_buf c i (idle_of bf))).
    rewrite (set_buf_lookup c i bf), decide_False by (done || by intros ->).
    apply (ci_held _ _ _ I). by right.
Qed.

Lemma released_view : same_view c d (released c i bf) d.
Proof.
  pose proof released_inv as I'. pose proof (held_i c d H i bf b I Hn) as (Hi & _). split; intros b'.
  - destruct (cached 1 b' c) as [j|] eqn:Ec.
    + destruct (cached_Some _ _ _ Ec) as [bfj Hj]. rewrite (cur_names _ _ _ _ _ _ I Hj).
      destruct (decide (j = i)) as [Ej|Hji].
      * assert (b' = b /\ bfj = bf) as [-> ->].
        { rewrite Ej in Hj. destruct Hj as (Hj & _ & Hjb), Hn as (_ & _ & Hb). rewrite Hi in Hj. injection Hj as <-. split; congruence. }
        apply (cur_names _ _ _ _ i (idle_of bf) I'). apply released_names. by rewrite decide_True.
      * apply (cur_names _ _ _ _ j _ I'). apply released_names. by rewrite decide_False.
    + assert (forall j bfj, ~ names c b' j bfj) as Hno by (intros j bfj; by eapply cached_None).
      rewrite (cur_disk _ _ _ _ I Hno). apply (cur_disk _ _ _ _ I'). intros j bfj.
      rewrite released_names. case_decide; [|apply Hno]. intros [_ ->]. by apply Hno in Hn.
  - unfold pinned. setoid_rewrite released_names. split; intros (j & bfj & Hj & Hd).
    + destruct (decide (j = i)) as [_|]; [|by exists j, bfj]. destruct Hj as [-> ->]. by exists i, bf.
    + destruct (decide (j = i)) as [Ej|Hji].
      * exists i, (idle_of bf). rewrite decide_True by done. rewrite Ej in Hj.
        destruct Hj as (Hj & _ & Hjb). rewrite Hi in Hj. injection Hj as <-. destruct Hn as (_ & _ & Hb).
        split; [split; [done|congruence]|done].
      * exists j, bfj. by rewrite decide_False.
Qed.

End Release.

(** ** Whole accesses *)

Lemma cache_inv_perm c d H H' : H ≡ₚ H' -> cache_inv c d H -> cache_inv c d H'.
Proof.
  intros E [H1 H2 H3 H4 H5 H6 H7]. constructor; try done.
  - by rewrite <-E.
  - intros i bf Hi HiH. apply (H6 i bf Hi). by rewrite E.
  - intros i Hi. apply H7. by rewrite E.
Qed.

Lemma env_woken s p pr chan : env s p pr -> env (woken chan s) p pr.
Proof.
  intros [H1 H2 H3 H4]. constructor; try done. unfold woken. cbn. rewrite list_lookup_fmap, H2. cbn.
  rewrite decide_False by (intros [? _]; congruence). done.
Qed.

(** The block layer as its users see it: [V] gives the contents of the blocks,
    [d] is the disk, [pin] the blocks changed in the cache only, and [L] the
    buffers held, with their blocks. *)
Record blocks_at (s : kernel) (V : Z -> mem) (d : disk) (pin : Z -> Prop) (L : list (nat * Z)) : Prop := {
  ba_inv : cache_inv (bc s) d L.*1;
  ba_disk : x_disk (k_fs s) = d;
  ba_view : forall b, cur (bc s) d b = V b;
  ba_pin : forall b, pinned (bc s) b <-> pin b;
  ba_held : forall i b, (i, b) ∈ L -> exists bf, names (bc s) b i bf
}.

(** Everything of the file system but cache and disk is the same. *)
Definition same_rest (s s' : kernel) : Prop :=
  k_fs s' = (k_fs s) <| x_bcache := bc s' |> <| x_disk := x_disk (k_fs s') |>.

Lemma same_rest_refl s : same_rest s s.
Proof. unfold same_rest. by destruct (k_fs s). Qed.

Lemma same_rest_trans s s1 s2 : same_rest s s1 -> same_rest s1 s2 -> same_rest s s2.
Proof. unfold same_rest. intros H1 H2. rewrite H2 at 1. rewrite H1 at 1. done. Qed.

Definition upd_view (V : Z -> mem) (b : Z) (m : mem) : Z -> mem := fun b' => if decide (b' = b) then m else V b'.

Lemma disk_read_write d b m b' :
  disk_read (disk_write d b m) b' = if decide (b' = b) then m else disk_read d b'.
Proof.
  unfold disk_read, disk_write. cbn. case_decide; subst; [by rewrite lookup_insert_eq|by rewrite lookup_insert_ne].
Qed.

(** A buffer is found for the block [b] when it is pinned, or when pinned and
    held buffers leave one. *)
Definition can_read (pin : Z -> Prop) (L : list (nat * Z)) (b : Z) : Prop :=
  pin b \/ exists D, (forall b', pin b' -> b' ∈ D) /\ (length D + length L < Z.to_nat NBUF)%nat.

Section Rules.
Context (p : nat) (pr : proc).
Implicit Types (s : kernel) (V : Z -> mem) (d : disk) (pin : Z -> Prop) (L : list (nat * Z)).

(** The parts of a state the rules keep. *)
Definition kept s s' : Prop := env s' p pr /\ same_rest s s'.

Lemma kept_trans s s1 s2 : kept s s1 -> kept s1 s2 -> kept s s2.
Proof. intros [_ H1] [H2 H3]. split; [done|by eapply same_rest_trans]. Qed.

Lemma rule_bread s V d pin L b : env s p pr -> blocks_at s V d pin L ->
  b < FSSIZE -> b ∉ L.*2 -> can_read pin L b ->
  wp (bread 1 b) s (fun i s' => kept s s' /\ blocks_at s' V d pin ((i, b) :: L)).
Proof.
  intros E [I Hd HV Hp Hh] Hb HbL Hcan. subst d.
  destruct (bread_ok s p pr L.*1 b E I Hb) as (i & bf & Hr & HiL & Hn & Hdata & Hclean & I' & Hview).
  - intros i bf Hn ([j b'] & -> & Hj)%list_elem_of_fmap. destruct (Hh _ _ Hj) as (bf' & Hn').
    assert (b' = b) as -> by (destruct Hn as (E1 & _ & <-), Hn' as (E2 & _ & <-); cbn in E1; congruence).
    apply HbL. apply list_elem_of_fmap. by exists (j, b).
  - destruct Hcan as [Hpin|(D & HD & Hlen)].
    + right. apply Hp in Hpin as (i & bf & Hn & _). eauto.
    + left. apply (dirty_free _ _ _ D I); [|by rewrite length_fmap].
      apply (pinned_dirty _ _ _ D I). intros b' Hb'. by apply HD, Hp.
  - eapply wp_eq; [exact Hr|]. split; [split; [by apply env_cache|done]|].
    constructor; try done.
    + intros b'. rewrite (sv_cur _ _ _ _ Hview). apply HV.
    + intros b'. rewrite (sv_pinned _ _ _ _ Hview). apply Hp.
    + intros j b' [Ej|Hj]%elem_of_cons; [simplify_eq; eauto|].
      destruct (Hh _ _ Hj) as (bf' & Hn'). exists bf'. assert (j <> i) as Hji.
      { intros ->. apply HiL. apply list_elem_of_fmap. by exists (i, b'). }
      destruct Hn as (Hni & _). change (bc_buf (set_buf (bc s) i bf) !! i = Some bf) in Hni.
      assert (is_Some (bc_buf (bc s) !! i)) as [bf0 Hbf0].
      { apply lookup_lt_is_Some. apply lookup_lt_Some in Hni. cbn in Hni. by rewrite length_insert in Hni. }
      apply (set_buf_names (bc s) i bf0); [done|]. by rewrite decide_False.
Qed.

(** The held buffer of a block. *)
Lemma held_entry s V d pin L i b : blocks_at s V d pin L -> (i, b) ∈ L ->
  exists bf H, L.*1 ≡ₚ i :: H /\ names (bc s) b i bf /\ cache_inv (bc s) d (i :: H) /\ b_data bf = V b /\
    held_buf bf /\ bc_buf (bc s) !! i = Some bf.
Proof.
  intros [I Hd HV Hp Hh] Hin. destruct (Hh _ _ Hin) as (bf & Hn).
  assert (i ∈ L.*1) as Hi by (apply list_elem_of_fmap; by exists (i, b)).
  apply list_elem_of_split in Hi as (l1 & l2 & E). exists bf, (l1 ++ l2).
  assert (L.*1 ≡ₚ i :: l1 ++ l2) as EP by (rewrite E; by rewrite Permutation_middle).
  pose proof (cache_inv_perm _ _ _ _ EP I) as I'.
  destruct (held_i _ _ _ _ _ _ I' Hn) as (Hi & Hheld & _).
  split; [done|]. split; [done|]. split; [done|]. split; [|done].
  by rewrite <-HV, (cur_names _ _ _ _ _ _ I Hn).
Qed.

Lemma rule_data s V d pin L i b : blocks_at s V d pin L -> (i, b) ∈ L -> buf_data i s = Ret (V b) s.
Proof.
  intros B Hin. destruct (held_entry _ _ _ _ _ _ _ B Hin) as (bf & H & _ & _ & _ & Hdata & _ & Hi).
  unfold buf_data, bind. rewrite (get_buf_eq s i bf Hi). by rewrite <-Hdata.
Qed.

(** Other entries keep their buffer. *)
Lemma other_held s V d pin L i b bf' j b' : blocks_at s V d pin L -> (i, b) ∈ L -> (j, b') ∈ L ->
  b_dev bf' = 1 -> b_blockno bf' = b -> exists bfj, names (set_buf (bc s) i bf') b' j bfj.
Proof.
  intros B Hin Hj Hdev Hb. destruct (held_entry _ _ _ _ _ _ _ B Hin) as (bf & H & _ & Hn & _ & _ & _ & Hi).
  destruct (ba_held _ _ _ _ _ B _ _ Hj) as (bfj & Hnj).
  destruct (decide (j = i)) as [->|Hji].
  - exists bf'. apply (set_buf_names _ i bf); [done|]. rewrite decide_True by done. split; [done|]. split; [done|].
    destruct Hnj as (H1 & _ & H2), Hn as (H3 & _ & H4). congruence.
  - exists bfj. apply (set_buf_names _ i bf); [done|]. by rewrite decide_False.
Qed.

Lemma rule_set_data s V d pin L i b g : env s p pr -> blocks_at s V d pin L -> (i, b) ∈ L ->
  wp (set_buf_data i g) s (fun _ s' => kept s s' /\ blocks_at s' (upd_view V b (g (V b))) d pin L).
Proof.
  intros E B Hin. destruct (held_entry _ _ _ _ _ _ _ B Hin) as (bf & H & EP & Hn & I & Hdata & Hheld & Hi).
  set (bf' := bf <| b_data ::= g |>). pose proof Hn as (_ & Hdev & Hb).
  assert (held_buf bf') as Hh' by exact Hheld. assert (b_blockno bf' = b) as Hb' by exact Hb.
  eapply wp_eq; [by apply upd_buf_eq|]. fold bf'.
  split; [split; [by apply env_cache|done]|].
  pose proof (ba_disk _ _ _ _ _ B) as Hd. constructor; try done.
  - apply (cache_inv_perm _ _ (i :: H)); [by rewrite EP|]. by apply (held_inv _ d H i bf b I Hn).
  - intros b'. change (cur (set_buf (bc s) i bf') d b' = upd_view V b (g (V b)) b').
    rewrite (held_cur _ d H i bf b I Hn d bf' b' Hh' Hb') by done. unfold upd_view.
    case_decide; [by cbn; rewrite Hdata|apply (ba_view _ _ _ _ _ B)].
  - intros b'. change (pinned (set_buf (bc s) i bf') b' <-> pin b').
    rewrite (held_pinned _ d H i bf b I Hn bf' b' Hh' Hb'). rewrite <-(ba_pin _ _ _ _ _ B).
    case_decide as Eb; [|done]. subst b'. change (b_dirty bf') with (b_dirty bf). split.
    + intros Hd'. by exists i, bf.
    + intros (j & bfj & Hnj & Hdj). assert (j = i) as -> by (by eapply (ci_uniq _ _ _ I)).
      destruct Hnj as (Hj & _). rewrite Hi in Hj. by simplify_eq.
  - intros j b' Hj. by eapply other_held.
Qed.

Lemma rule_bwrite s V d pin L i b : env s p pr -> blocks_at s V d pin L -> (i, b) ∈ L -> b < FSSIZE ->
  wp (bwrite i) s (fun _ s' => kept s s' /\
    blocks_at s' V (disk_write d b (V b)) (fun b' => pin b' /\ b' <> b) L).
Proof.
  intros E B Hin Hb. destruct (held_entry _ _ _ _ _ _ _ B Hin) as (bf & H & EP & Hn & I & Hdata & Hheld & Hi).
  set (bf' := bf <| b_dirty := false |>). pose proof Hn as (_ & Hdev & Hbn).
  assert (held_buf bf') as Hh' by exact Hheld. assert (b_blockno bf' = b) as Hb' by exact Hbn.
  eapply wp_eq; [apply (bwrite_eq s i bf Hi Hheld); lia|]. rewrite Hbn, Hdata, (ba_disk _ _ _ _ _ B). fold bf'.
  split; [split; [by destruct E|done]|].
  assert (forall b', b' <> b -> disk_read (disk_write d b (V b)) b' = disk_read d b') as Hdisk.
  { intros b' Hne. by rewrite disk_read_write, decide_False. }
  constructor; try done.
  - apply (cache_inv_perm _ _ (i :: H)); [by rewrite EP|]. by apply (held_inv _ d H i bf b I Hn).
  - intros b'. change (cur (set_buf (bc s) i bf') (disk_write d b (V b)) b' = V b').
    rewrite (held_cur _ d H i bf b I Hn _ bf' b' Hh' Hb' Hdisk).
    case_decide; [by subst|apply (ba_view _ _ _ _ _ B)].
  - intros b'. change (pinned (set_buf (bc s) i bf') b' <-> pin b' /\ b' <> b).
    rewrite (held_pinned _ d H i bf b I Hn bf' b' Hh' Hb'). rewrite <-(ba_pin _ _ _ _ _ B).
    case_decide; [|tauto]. split; [done|]. by intros [_ ?].
  - intros j b' Hj. by eapply other_held.
Qed.

Lemma rule_brelse s V d pin L i b L' : env s p pr -> blocks_at s V d pin L -> L ≡ₚ (i, b) :: L' ->
  pin b \/ V b = disk_read d b ->
  wp (brelse i) s (fun _ s' => kept s s' /\ blocks_at s' V d pin L').
Proof.
  intros E B EL Hclean. assert ((i, b) ∈ L) as Hin by (rewrite EL; by left).
  destruct (held_entry _ _ _ _ _ _ _ B Hin) as (bf & H & EP & Hn & I & Hdata & Hheld & Hi).
  assert (H ≡ₚ L'.*1) as EH.
  { apply (Permutation_cons_inv (a := i)). rewrite <-EP. rewrite EL. done. }
  assert (b_dirty bf = true \/ b_data bf = disk_read d b) as Hcl.
  { destruct Hclean as [(j & bfj & Hnj & Hdj)%(ba_pin _ _ _ _ _ B)|?]; [left|right; congruence].
    assert (j = i) as -> by (by eapply (ci_uniq _ _ _ I)). destruct Hnj as (Hj & _). rewrite Hi in Hj. by simplify_eq. }
  pose proof (released_inv _ _ _ _ _ _ I Hn Hcl) as I'. pose proof (released_view _ _ _ _ _ _ I Hn Hcl) as Hv.
  eapply wp_eq; [apply (brelse_eq s p pr i bf E (ci_lock _ _ _ I) Hi Hheld)|].
  split; [split; [by apply env_cache, env_woken|done]|].
  constructor; [by apply (cache_inv_perm _ _ H)|apply B| | |].
  - intros b'. rewrite <-(ba_view _ _ _ _ _ B). apply (sv_cur _ _ _ _ Hv).
  - intros b'. rewrite <-(ba_pin _ _ _ _ _ B). apply (sv_pinned _ _ _ _ Hv).
  - intros j b' Hj. assert ((j, b') ∈ L) as HjL by (rewrite EL; by right).
    destruct (ba_held _ _ _ _ _ B _ _ HjL) as (bfj & Hnj). exists bfj.
    apply (proj2 (released_names (bc s) d H i bf b I Hn Hcl b' j bfj)). rewrite decide_False; [done|]. intros ->.
    destruct (held_i _ _ _ _ _ _ I Hn) as (_ & _ & HiH). apply HiH. rewrite EH. apply list_elem_of_fmap. by exists (i, b').
Qed.

End Rules.

Lemma blocks_at_ext s V V' d pin pin' L : blocks_at s V d pin L ->
  (forall b, V b = V' b) -> (forall b, pin b <-> pin' b) -> blocks_at s V' d pin' L.
Proof.
  intros [H1 H2 H3 H4 H5] HV Hp. constructor; try done.
  - intros b. by rewrite H3.
  - intros b. by rewrite H4.
Qed.

(** ** Programs over blocks *)

(** What a user of the cache does: get the buffer of a block, look at it, change it, write it to the disk, let it go. *)
Inductive block_op := Get (b : Z) | Look (b : Z) | Change (b : Z) (g : mem -> mem) | Put (b : Z) | Release (b : Z).

(** The buffer held for a block. *)
Definition with_buffer {A} (L : list (nat * Z)) (b : Z) (k : nat -> M kernel A) : M kernel A :=
  match list_find (fun e => e.2 = b) L with Some (_, (i, _)) => k i | None => panic "no buffer" end.

(** The operation, with the buffers held before and after it, and what it looked at. *)
Definition run_op (o : block_op) (L : list (nat * Z)) : M kernel (list mem * list (nat * Z)) :=
  match o with
  | Get b => i <- bread 1 b ;; ret ([], (i, b) :: L)
  | Look b => with_buffer L b (fun i => m <- buf_data i ;; ret ([m], L))
  | Change b g => with_buffer L b (fun i => set_buf_data i g ;;; ret ([], L))
  | Put b => with_buffer L b (fun i => bwrite i ;;; ret ([], L))
  | Release b => with_buffer L b (fun i => brelse i ;;; ret ([], base.filter (fun e => e.2 <> b) L))
  end.

Fixpoint run_ops (os : list block_op) (L : list (nat * Z)) : M kernel (list mem * list (nat * Z)) :=
  match os with
  | [] => ret ([], L)
  | o :: os => r <- run_op o L ;; r' <- run_ops os r.2 ;; ret (r.1 ++ r'.1, r'.2)
  end.

(** The specification: blocks and a disk, without buffers.  At most NBUF blocks are held; a block is let go as it is on
    the disk. *)
Record store_spec := { sp_view : Z -> mem; sp_disk : disk; sp_held : list Z }.

Definition spec_op (o : block_op) (sp : store_spec) : option (list mem * store_spec) :=
  let '{| sp_view := V; sp_disk := d; sp_held := H |} := sp in
  match o with
  | Get b => if decide (b < FSSIZE /\ b ∉ H /\ (length H < Z.to_nat NBUF)%nat) then Some ([], {| sp_view := V; sp_disk := d; sp_held := b :: H |}) else None
  | Look b => if decide (b ∈ H) then Some ([V b], sp) else None
  | Change b g => if decide (b ∈ H) then Some ([], {| sp_view := upd_view V b (g (V b)); sp_disk := d; sp_held := H |}) else None
  | Put b => if decide (b ∈ H) then Some ([], {| sp_view := V; sp_disk := disk_write d b (V b); sp_held := H |}) else None
  | Release b => if decide (b ∈ H /\ V b = disk_read d b) then Some ([], {| sp_view := V; sp_disk := d; sp_held := base.filter (fun b' => b' <> b) H |}) else None
  end.

Fixpoint spec_ops (os : list block_op) (sp : store_spec) : option (list mem * store_spec) :=
  match os with
  | [] => Some ([], sp)
  | o :: os => '(r, sp) ← spec_op o sp; '(r', sp) ← spec_ops os sp; Some (r ++ r', sp)
  end.

(** The cache in [s], with the buffers [L] held, is the store [sp]. *)
Record cache_is (s : kernel) (L : list (nat * Z)) (sp : store_spec) : Prop := {
  cs_blocks : blocks_at s (sp_view sp) (sp_disk sp) (fun _ => False) L;
  cs_held : L.*2 = sp_held sp;
  cs_nodup : NoDup (sp_held sp);
  cs_range : Forall (fun b => b < FSSIZE) (sp_held sp);
}.

Lemma with_buffer_held (L : list (nat * Z)) b : b ∈ L.*2 -> exists i, (i, b) ∈ L /\ forall A (k : nat -> M kernel A), with_buffer L b k = k i.
Proof.
  intros ([i b'] & -> & Hin)%list_elem_of_fmap. unfold with_buffer.
  destruct (list_find_elem_of (fun e => e.2 = b') L (i, b') Hin eq_refl) as ([j [i' b'']] & E). cbn [snd].
  pose proof E as (Hj & E' & _)%list_find_Some. cbn in E'. subst b''. exists i'. split; [by eapply list_elem_of_lookup_2|]. intros A k. by rewrite E.
Qed.

Lemma release_perm (L : list (nat * Z)) i b : NoDup L.*2 -> (i, b) ∈ L -> L ≡ₚ (i, b) :: base.filter (fun e => e.2 <> b) L.
Proof.
  induction L as [|[j c] L IH]; intros Hn Hin; [by apply elem_of_nil in Hin|]. cbn [fmap list_fmap snd] in Hn. apply NoDup_cons in Hn as [Hc Hn].
  rewrite filter_cons. cbn [snd]. destruct (decide (c = b)) as [->|Hne].
  - rewrite decide_False by (intros H; by apply H). apply elem_of_cons in Hin as [E|Hin]; [|destruct Hc; apply list_elem_of_fmap; by exists (i, b)].
    simplify_eq. apply reflexive_eq. f_equal. symmetry. clear IH Hn. induction L as [|[k c] L IH]; [done|].
    rewrite filter_cons, decide_True by (cbn; intros ->; apply Hc; left). f_equal. apply IH. intros H. apply Hc. by right.
  - rewrite decide_True by done. apply elem_of_cons in Hin as [E|Hin]; [congruence|]. rewrite (IH Hn Hin) at 1. apply Permutation_swap.
Qed.

Section CacheProgram.
Context (p : nat) (pr : proc).

Lemma run_op_refines o s L sp r sp' : env s p pr -> cache_is s L sp -> spec_op o sp = Some (r, sp') ->
  wp (run_op o L) s (fun res s' => res.1 = r /\ kept p pr s s' /\ cache_is s' res.2 sp').
Proof.
  intros E [B Hh Hn Hr] Hs. destruct sp as [V d H]. cbn in B, Hh, Hn, Hr. destruct o as [b|b|b g|b|b]; cbn [spec_op run_op] in *; case_decide as Hc; try done; injection Hs as <- <-.
  - destruct Hc as (Hb & HbH & Hlen). eapply wp_bind, wp_mono; [apply (rule_bread p pr _ _ _ _ _ b E B Hb); [by rewrite Hh|]|].
    { right. exists []. split; [done|]. rewrite <- Hh, length_fmap in Hlen. cbn. lia. }
    intros i s' [K B']. apply wp_ret. split; [done|split; [exact K|]]. constructor; cbn; [exact B'|by rewrite Hh|by constructor|by constructor].
  - destruct (with_buffer_held L b) as (i & Hi & Ek); [by rewrite Hh|]. rewrite Ek. eapply wp_bind, wp_eq; [apply (rule_data _ _ _ _ _ _ _ B Hi)|].
    apply wp_ret. split; [done|]. split; [split; [done|apply same_rest_refl]|]. by constructor.
  - destruct (with_buffer_held L b) as (i & Hi & Ek); [by rewrite Hh|]. rewrite Ek. eapply wp_bind, wp_mono; [apply (rule_set_data p pr _ _ _ _ _ _ _ g E B Hi)|].
    intros [] s' [K B']. apply wp_ret. split; [done|split; [exact K|]]. by constructor.
  - destruct (with_buffer_held L b) as (i & Hi & Ek); [by rewrite Hh|]. rewrite Ek. eapply wp_bind, wp_mono; [apply (rule_bwrite p pr _ _ _ _ _ _ _ E B Hi)|].
    { rewrite Forall_forall in Hr. by apply Hr. }
    intros [] s' [K B']. apply wp_ret. split; [done|split; [exact K|]]. constructor; cbn; [|done..].
    eapply blocks_at_ext; [exact B'|done|]. intros b'. tauto.
  - destruct Hc as [HbH Hd]. destruct (with_buffer_held L b) as (i & Hi & Ek); [by rewrite Hh|]. rewrite Ek.
    eapply wp_bind, wp_mono; [apply (rule_brelse p pr _ _ _ _ _ _ _ _ E B (release_perm L i b ltac:(by rewrite Hh) Hi)); by right|].
    intros [] s' [K B']. apply wp_ret. split; [done|split; [exact K|]]. constructor; cbn; [exact B'| | |].
    + rewrite <- Hh. clear. induction L as [|[j c] L IH]; [done|]. cbn [fmap list_fmap snd]. rewrite !filter_cons. cbn [snd]. case_decide; [cbn; by rewrite IH|exact IH].
    + by apply NoDup_filter.
    + apply Forall_forall. intros b' [_ Hb']%list_elem_of_filter. rewrite Forall_forall in Hr. by apply Hr.
Qed.

(** C13. The buffer cache is a store of blocks.  A user that holds at most NBUF blocks, and lets a block go only as it is
    on the disk, never fails: every sequence of operations it makes returns, each look at a block gives what the store
    has there, the disk holds what was put, whichever buffers were recycled on the way, and the cache is well-formed
    again, with one buffer to a block. *)
Theorem cache_refines_store os s L sp r sp' : env s p pr -> cache_is s L sp -> spec_ops os sp = Some (r, sp') ->
  wp (run_ops os L) s (fun res s' => res.1 = r /\ kept p pr s s' /\ cache_is s' res.2 sp').
Proof.
  revert s L sp r sp'. induction os as [|o os IH]; intros s L sp r sp' E C Hs; cbn [spec_ops run_ops] in *.
  - injection Hs as <- <-. apply wp_ret. split; [done|]. split; [split; [done|apply same_rest_refl]|done].
  - destruct (spec_op o sp) as [[r1 sp1]|] eqn:Eo; [|done]. cbn in Hs. destruct (spec_ops os sp1) as [[r2 sp2]|] eqn:Es; [|done]. cbn in Hs. injection Hs as <- <-.
    eapply wp_bind, wp_mono; [by eapply run_op_refines|]. intros res s1 (<- & K & C1). cbn beta.
    eapply wp_bind, wp_mono; [by eapply IH; [apply K|..]|]. intros res' s2 (<- & K2 & C2). apply wp_ret.
    split; [done|]. split; [by eapply kept_trans|done].
Qed.
End CacheProgram.

Module CacheWitness.

(** The cache as binit leaves it, and a disk of empty blocks. *)
Definition start_disk : disk := {| d_blocks := ∅; d_trace := [] |}.
Definition start_cache : bcache := {| bc_lock := false; bc_buf := replicate 30 buf0; bc_mru := rev (seq 0 30) |}.
Definition runner : proc := proc0 <| p_state := RUNNING |>.
Definition start : kernel :=
  (boot (fsys_boot start_disk)) <| k_curproc := Some 0%nat |> <| k_ptable := [runner] |> <| k_fs ::= fun x => x <| x_bcache := start_cache |> |>.

Lemma start_no_names b i bf : ~ names start_cache b i bf.
Proof. intros (Hi & Hd & _). change (replicate 30 buf0 !! i = Some bf) in Hi. apply lookup_replicate in Hi as [-> _]. done. Qed.

Definition empty_store : store_spec := {| sp_view := disk_read start_disk; sp_disk := start_disk; sp_held := [] |}.

Lemma start_is_store : cache_is start [] empty_store.
Proof.
  constructor; [|done|constructor|constructor]. constructor; cbn [sp_view sp_disk empty_store].
  - constructor; try done.
    + change (rev (seq 0 30) ≡ₚ seq 0 30). by rewrite <- Permutation_rev.
    + intros b i j bf bf' H. by apply start_no_names in H.
    + constructor.
    + intros i bf Hi _. change (replicate 30 buf0 !! i = Some bf) in Hi. by apply lookup_replicate in Hi as [-> _].
    + by intros i ?%elem_of_nil.
  - done.
  - intros b. reflexivity.
  - intros b. split; [|done]. intros (i & bf & H & _). by apply start_no_names in H.
  - by intros i b ?%elem_of_nil.
Qed.

Definition nine (m : mem) : mem := store8 m 0 9.

(** A block is changed, put on the disk, let go, and looked at again. *)
Lemma cache_refines_store_witness : cache_is start [] empty_store /\
  exists L s', run_ops [Get 5; Change 5 nine; Put 5; Release 5; Get 5; Look 5] [] start = Ret ([nine ∅], L) s'.
Proof.
  split; [exact start_is_store|].
  pose proof (cache_refines_store 0 runner [Get 5; Change 5 nine; Put 5; Release 5; Get 5; Look 5] start [] empty_store
    [nine ∅] {| sp_view := upd_view (disk_read start_disk) 5 (nine ∅); sp_disk := disk_write start_disk 5 (nine ∅); sp_held := [5] |}) as H.
  apply wp_elim in H as ([r L] & s' & E & Hr & _); [cbn in Hr; subst r; by exists L, s'|by constructor|exact start_is_store|].
  vm_compute. reflexivity.
Defined.
End CacheWitness.
