(* ===== verification/Log.v ===== *)
(** The redo log, src/src/log.c. *)

From stdpp Require Import base gmap list strings.
From Stdlib Require Import ZArith Lia.
From S2P Require Import Prelude Mem Str Mmu State Kalloc MemTable Vm Sched Fsys Bio.

Definition log_acquire : M kernel unit :=
  facquire (fun x => lg_lock (x_log x)) (fun b x => x <| x_log ::= fun l => l <| lg_lock := b |> |>).
Definition log_release : M kernel unit :=
  frelease (fun x => lg_lock (x_log x)) (fun b x => x <| x_log ::= fun l => l <| lg_lock := b |> |>).

Definition get_log : M kernel log := fget x_log.
Definition upd_log (g : log -> log) : M kernel unit := fmod (fun x => x <| x_log ::= g |>).

(** [log.lh.block[i]] *)
Definition get_lh_block (i : Z) : M kernel Z :=
  l <- get_log ;;
  match lh_block l !! Z.to_nat i with
  | Some b => ret b
  | None => crash "log.lh.block"
  end.
Definition set_lh_block (i v : Z) : M kernel unit :=
  l <- get_log ;;
  if i <? Z.of_nat (length (lh_block l))
  then upd_log (fun l => l <| lh_block ::= <[Z.to_nat i := v]> |>)
  else crash "log.lh.block".

(** fs.c: readsb *)
Definition readsb (dev : Z) : M kernel superblock :=
  bp <- bread dev 1 ;;
  m <- buf_data bp ;;
  brelse bp ;;;
  ret {| sb_size := load32 m 0; sb_nblocks := load32 m 4; sb_ninodes := load32 m 8;
         sb_nlog := load32 m 12; sb_logstart := load32 m 16; sb_inodestart := load32 m 20;
         sb_bmapstart := load32 m 24 |}.

Definition install_trans : M kernel unit :=
  l <- get_log ;;
  for_each (range 0 (Z.to_nat (lh_n l))) (fun tail =>
    lbuf <- bread (lg_dev l) (lg_start l + tail + 1) ;;
    home <- get_lh_block tail ;;
    dbuf <- bread (lg_dev l) home ;;
    data <- buf_data lbuf ;;
    set_buf_data dbuf (fun _ => data) ;;;
    bwrite dbuf ;;;
    brelse lbuf ;;;
    brelse dbuf).

Definition read_head : M kernel unit :=
  l <- get_log ;;
  b <- bread (lg_dev l) (lg_start l) ;;
  m <- buf_data b ;;
  let n := i32 (load32 m 0) in
  upd_log (fun l => l <| lh_n := n |>) ;;;
  for_each (range 0 (Z.to_nat n)) (fun i =>
    set_lh_block i (i32 (load32 m (4 + 4 * i)))) ;;;
  brelse b.

Definition write_head : M kernel unit :=
  l <- get_log ;;
  b <- bread (lg_dev l) (lg_start l) ;;
  set_buf_data b (fun m => store32 m 0 (lh_n l)) ;;;
  for_each (range 0 (Z.to_nat (lh_n l))) (fun i =>
    v <- get_lh_block i ;;
    set_buf_data b (fun m => store32 m (4 + 4 * i) v)) ;;;
  bwrite b ;;;
  brelse b.

Definition recover_from_log : M kernel unit :=
  read_head ;;;
  install_trans ;;;
  upd_log (fun l => l <| lh_n := 0 |>) ;;;
  write_head.

Definition initlog (dev : Z) : M kernel unit :=
  upd_log (fun l => l <| lg_lock := false |>) ;;;
  sb <- readsb dev ;;
  upd_log (fun l => l <| lg_start := sb_logstart sb |> <| lg_size := sb_nlog sb |> <| lg_dev := dev |>) ;;;
  recover_from_log.

(** A process that has to wait sleeps on the log and tries again. *)
Definition begin_op : M kernel unit :=
  log_acquire ;;;
  l <- get_log ;;
  if lg_committing l then sleep log_chan (Some log_release)
  else if LOGSIZE <? lh_n l + (lg_outstanding l + 1) * MAXOPBLOCKS then sleep log_chan (Some log_release)
  else
    upd_log (fun l => l <| lg_outstanding ::= fun n => n + 1 |>) ;;;
    log_release.

Definition write_log : M kernel unit :=
  l <- get_log ;;
  for_each (range 0 (Z.to_nat (lh_n l))) (fun tail =>
    to <- bread (lg_dev l) (lg_start l + tail + 1) ;;
    home <- get_lh_block tail ;;
    from <- bread (lg_dev l) home ;;
    data <- buf_data from ;;
    set_buf_data to (fun _ => data) ;;;
    bwrite to ;;;
    brelse from ;;;
    brelse to).

Definition commit : M kernel unit :=
  l <- get_log ;;
  when (0 <? lh_n l)
    (write_log ;;;
     write_head ;;;
     install_trans ;;;
     upd_log (fun l => l <| lh_n := 0 |>) ;;;
     write_head).

Definition end_op : M kernel unit :=
  log_acquire ;;;
  upd_log (fun l => l <| lg_outstanding ::= fun n => n - 1 |>) ;;;
  l <- get_log ;;
  if lg_committing l then panic "log.committing"
  else if lg_outstanding l =? 0 then
    upd_log (fun l => l <| lg_committing := true |>) ;;;
    log_release ;;;
    commit ;;;
    log_acquire ;;;
    upd_log (fun l => l <| lg_committing := false |>) ;;;
    wakeup log_chan ;;;
    log_release
  else
    wakeup log_chan ;;;
    log_release.

(** The first index below n that holds the block number, or n. *)
Fixpoint log_find (fuel : nat) (i n blockno : Z) : M kernel Z :=
  if i <? n then
    match fuel with
    | O => no_fuel
    | S fuel =>
        b <- get_lh_block i ;;
        if b =? blockno then ret i else log_find fuel (i + 1) n blockno
    end
  else ret i.

Definition log_write (b : nat) : M kernel unit :=
  l <- get_log ;;
  if (LOGSIZE <=? lh_n l) || (lg_size l - 1 <=? lh_n l) then panic "too big a transaction"
  else if lg_outstanding l <? 1 then panic "log_write outside of trans"
  else
    log_acquire ;;;
    x <- get_buf b ;;
    i <- log_find (Z.to_nat (lh_n l)) 0 (lh_n l) (b_blockno x) ;;
    set_lh_block i (b_blockno x) ;;;
    when (i =? lh_n l) (upd_log (fun l => l <| lh_n ::= fun n => n + 1 |>)) ;;;
    upd_buf b (fun x => x <| b_dirty := true |>) ;;;
    log_release.
