(* ===== verification/Crash.v ===== *)
(** Crash safety of the log, src/src/log.c: a transaction that is committed is
    on the disk as a whole or not at all, wherever the machine stops. *)

From stdpp Require Import base gmap list strings.
From Stdlib Require Import ZArith Lia.
From S2P Require Import Prelude Mem Str Mmu State Kalloc MemTable MemList Vm Sched Fsys Bio Cache Log.

(** ** Sequences of disk writes *)

Definition apply_writes (d : disk) (ws : list (Z * mem)) : disk :=
  fold_left (fun d w => disk_write d w.1 w.2) ws d.

Lemma apply_writes_app d ws ws' : apply_writes d (ws ++ ws') = apply_writes (apply_writes d ws) ws'.
Proof. apply fold_left_app. Qed.

Lemma apply_writes_trace ws : forall d, d_trace (apply_writes d ws) = d_trace d ++ ws.
Proof.
  induction ws as [|[b m] ws IH]; intros d; [by rewrite app_nil_r|].
  cbn. fold (apply_writes (disk_write d b m) ws). rewrite IH. cbn. by rewrite <-app_assoc.
Qed.

(** The last write to a block counts. *)
Lemma apply_writes_other ws : forall d b, b ∉ ws.*1 -> disk_read (apply_writes d ws) b = disk_read d b.
Proof.
  induction ws as [|[b' m] ws IH]; intros d b Hb; [done|]. cbn in Hb. apply not_elem_of_cons in Hb as [Hne Hb].
  cbn. fold (apply_writes (disk_write d b' m) ws). rewrite IH by done. by rewrite disk_read_write, decide_False.
Qed.

Lemma apply_writes_in ws : forall d b m, NoDup ws.*1 -> (b, m) ∈ ws -> disk_read (apply_writes d ws) b = m.
Proof.
  induction ws as [|[b' m'] ws IH]; intros d b m Hnd Hin; [by apply elem_of_nil in Hin|].
  cbn in Hnd. apply NoDup_cons in Hnd as [Hb' Hnd]. cbn. fold (apply_writes (disk_write d b' m') ws).
  apply elem_of_cons in Hin as [E|Hin].
  - injection E as -> ->. rewrite apply_writes_other by done. by rewrite disk_read_write, decide_True.
  - by apply IH.
Qed.

(** The same writes on the contents that readers see. *)
Definition apply_view (V : Z -> mem) (ws : list (Z * mem)) : Z -> mem :=
  fold_left (fun V w => upd_view V w.1 w.2) ws V.

Lemma apply_view_other ws : forall V b, b ∉ ws.*1 -> apply_view V ws b = V b.
Proof.
  induction ws as [|[b' m] ws IH]; intros V b Hb; [done|]. cbn in Hb. apply not_elem_of_cons in Hb as [Hne Hb].
  cbn. fold (apply_view (upd_view V b' m) ws). rewrite IH by done. unfold upd_view. by rewrite decide_False.
Qed.

Lemma apply_view_in ws : forall V b m, NoDup ws.*1 -> (b, m) ∈ ws -> apply_view V ws b = m.
Proof.
  induction ws as [|[b' m'] ws IH]; intros V b m Hnd Hin; [by apply elem_of_nil in Hin|].
  cbn in Hnd. apply NoDup_cons in Hnd as [Hb' Hnd]. cbn. fold (apply_view (upd_view V b' m') ws).
  apply elem_of_cons in Hin as [E|Hin].
  - injection E as -> ->. rewrite apply_view_other by done. unfold upd_view. by rewrite decide_True.
  - by apply IH.
Qed.

(** ** The header of the log *)

(** The block that write_head makes of [m]. *)
Definition head_mem (m : mem) (blocks : list Z) : mem :=
  fold_left (fun m ib => store32 m (4 + 4 * ib.1) ib.2)
    (zip (range 0 (length blocks)) blocks) (store32 m 0 (Z.of_nat (length blocks))).

Lemma head_mem_low m js : forall bs a, (forall j, j ∈ js -> a + 4 <= 4 + 4 * j) ->
  load32 (fold_left (fun m ib => store32 m (4 + 4 * ib.1) ib.2) (zip js bs) m) a = load32 m a.
Proof.
  revert m. induction js as [|j js IH]; intros m [|b bs] a Hj; [done..|]. cbn.
  rewrite IH by (intros j' Hj'; apply Hj; by right). cbn. apply load32_store32_ne.
  specialize (Hj j ltac:(by left)). lia.
Qed.

Lemma head_mem_get bs : forall m lo k b, bs !! k = Some b -> 0 <= b < 2 ^ 32 ->
  load32 (fold_left (fun m ib => store32 m (4 + 4 * ib.1) ib.2) (zip (range lo (length bs)) bs) m)
    (4 + 4 * (lo + Z.of_nat k)) = b.
Proof.
  induction bs as [|b' bs IH]; intros m lo k b Hk Hb; [done|]. cbn [length range zip fold_left].
  destruct k as [|k]; cbn in Hk.
  - injection Hk as ->. rewrite Z.add_0_r. cbn [zip_with fold_left fst snd].
    rewrite head_mem_low; [by apply load32_store32_eq|]. intros j. rewrite elem_of_range. lia.
  - cbn [zip_with fold_left fst snd]. replace (lo + Z.of_nat (S k)) with (lo + 1 + Z.of_nat k) by lia. by apply IH.
Qed.

Lemma head_mem_n m bs : Z.of_nat (length bs) < 2 ^ 32 -> load32 (head_mem m bs) 0 = Z.of_nat (length bs).
Proof.
  intros Hl. unfold head_mem. rewrite head_mem_low; [apply load32_store32_eq; lia|].
  intros j. rewrite elem_of_range. lia.
Qed.

Lemma head_mem_block m bs k b : bs !! k = Some b -> 0 <= b < 2 ^ 32 ->
  load32 (head_mem m bs) (4 + 4 * Z.of_nat k) = b.
Proof. intros Hk Hb. by apply (head_mem_get bs _ 0). Qed.

(** ** Copying blocks *)

(** Composes the states of a sequence of rules. *)
Ltac kept_all := repeat first [eassumption | eapply kept_trans; [eassumption|]].

Section LogOps.
Context (p : nat) (pr : proc).
Implicit Types (s : kernel) (V : Z -> mem) (d : disk) (pin : Z -> Prop).

Lemma kept_log s s' : kept p pr s s' -> x_log (k_fs s') = x_log (k_fs s).
Proof. intros [_ E]. unfold same_rest in E. rewrite E. done. Qed.

(** Inodes, files, superblock and devices: what the block layer leaves alone. *)
Definition files (x : fsys) := (x_icache x, x_ftable x, x_sb x, x_devsw_console x).
Definition same_files s s' : Prop := files (k_fs s') = files (k_fs s).

Lemma kept_files s s' : kept p pr s s' -> same_files s s' /\ x_log (k_fs s') = x_log (k_fs s).
Proof. intros [_ E]. unfold same_rest in E. split; [exact (f_equal files E)|exact (f_equal x_log E)]. Qed.

Lemma lh_block_eq s tail b : lh_block (x_log (k_fs s)) !! Z.to_nat tail = Some b ->
  get_lh_block tail s = Ret b s.
Proof. intros H. unfold get_lh_block, get_log, fget, gets, bind. by rewrite H. Qed.

(** One turn of write_log: from the home block to the log. *)
Lemma write_log_step s V d pin start tail home :
  env s p pr -> blocks_at s V d pin [] ->
  lh_block (x_log (k_fs s)) !! Z.to_nat tail = Some home ->
  let a := start + tail + 1 in
  a <> home -> a < FSSIZE -> home < FSSIZE -> pin home -> ~ pin a -> can_read pin [] a ->
  wp (to <- bread 1 a ;;
      home <- get_lh_block tail ;;
      from <- bread 1 home ;;
      data <- buf_data from ;;
      set_buf_data to (fun _ => data) ;;;
      bwrite to ;;;
      brelse from ;;;
      brelse to) s
    (fun _ s' => kept p pr s s' /\ blocks_at s' (upd_view V a (V home)) (disk_write d a (V home)) pin []).
Proof.
  intros E B Hlh a Hne Ha Hh Hpin Hnp Hcan.
  apply wp_bind. eapply wp_mono; [apply (rule_bread p pr s V d pin [] a E B Ha); [by apply not_elem_of_nil|done]|].
  cbn beta. intros t s1 [K1 B1].
  apply wp_bind. eapply wp_eq; [apply lh_block_eq; by rewrite (kept_log _ _ K1)|].
  apply wp_bind. eapply wp_mono; [apply (rule_bread p pr s1 V d pin _ home (proj1 K1) B1 Hh)|].
  { cbn. by apply not_elem_of_cons; split; [|apply not_elem_of_nil]. }
  { by left. }
  cbn beta. intros f s2 [K2 B2].
  apply wp_bind. eapply wp_eq; [eapply rule_data; [exact B2|by left]|].
  apply wp_bind. eapply wp_mono; [apply (rule_set_data p pr s2 V d pin _ t a (fun _ => V home) (proj1 K2) B2); by right; left|].
  cbn beta. intros [] s3 [K3 B3].
  apply wp_bind. eapply wp_mono; [apply (rule_bwrite p pr s3 _ d pin _ t a (proj1 K3) B3); [by right; left|done]|].
  assert (upd_view V a (V home) a = V home) as EV by (unfold upd_view; by rewrite decide_True). rewrite EV.
  cbn beta. intros [] s4 [K4 B4].
  apply wp_bind. eapply wp_mono; [apply (rule_brelse p pr s4 _ _ _ _ f home [(t, a)] (proj1 K4) B4); [done|by left]|].
  cbn beta. intros [] s5 [K5 B5].
  eapply wp_mono; [apply (rule_brelse p pr s5 _ _ _ _ t a [] (proj1 K5) B5); [done|]|].
  { right. by rewrite EV, disk_read_write, decide_True. }
  cbn beta. intros [] s6 [K6 B6]. split; [by kept_all|].
  eapply blocks_at_ext; [exact B6|done|]. intros b. split; [by intros [? _]|]. intros Hb. split; [done|by intros ->].
Qed.

(** One turn of install_trans: from the log to the home block. *)
Lemma install_step s V d pin start tail home :
  env s p pr -> blocks_at s V d pin [] ->
  lh_block (x_log (k_fs s)) !! Z.to_nat tail = Some home ->
  let a := start + tail + 1 in
  a <> home -> a < FSSIZE -> home < FSSIZE -> V a = disk_read d a -> can_read pin [] a -> (forall i, can_read pin [(i, a)] home) ->
  wp (lbuf <- bread 1 a ;;
      home <- get_lh_block tail ;;
      dbuf <- bread 1 home ;;
      data <- buf_data lbuf ;;
      set_buf_data dbuf (fun _ => data) ;;;
      bwrite dbuf ;;;
      brelse lbuf ;;;
      brelse dbuf) s
    (fun _ s' => kept p pr s s' /\
       blocks_at s' (upd_view V home (V a)) (disk_write d home (V a)) (fun b => pin b /\ b <> home) []).
Proof.
  intros E B Hlh a Hne Ha Hh Hclean Hcan Hcan'.
  apply wp_bind. eapply wp_mono; [apply (rule_bread p pr s V d pin [] a E B Ha); [by apply not_elem_of_nil|done]|].
  cbn beta. intros lb s1 [K1 B1].
  apply wp_bind. eapply wp_eq; [apply lh_block_eq; by rewrite (kept_log _ _ K1)|].
  apply wp_bind. eapply wp_mono; [apply (rule_bread p pr s1 V d pin _ home (proj1 K1) B1 Hh)|].
  { cbn. by apply not_elem_of_cons; split; [|apply not_elem_of_nil]. }
  { apply Hcan'. }
  cbn beta. intros db s2 [K2 B2].
  apply wp_bind. eapply wp_eq; [eapply rule_data; [exact B2|by right; left]|].
  apply wp_bind. eapply wp_mono; [apply (rule_set_data p pr s2 V d pin _ db home (fun _ => V a) (proj1 K2) B2); by left|].
  cbn beta. intros [] s3 [K3 B3].
  apply wp_bind. eapply wp_mono; [apply (rule_bwrite p pr s3 _ d pin _ db home (proj1 K3) B3); [by left|done]|].
  assert (upd_view V home (V a) home = V a) as EV by (unfold upd_view; by rewrite decide_True). rewrite EV.
  cbn beta. intros [] s4 [K4 B4].
  apply wp_bind. eapply wp_mono; [apply (rule_brelse p pr s4 _ _ _ _ lb a [(db, home)] (proj1 K4) B4); [by apply Permutation_swap|]|].
  { right. unfold upd_view. rewrite decide_False, disk_read_write, decide_False by done. done. }
  cbn beta. intros [] s5 [K5 B5].
  eapply wp_mono; [apply (rule_brelse p pr s5 _ _ _ _ db home [] (proj1 K5) B5); [done|]|].
  { right. by rewrite EV, disk_read_write, decide_True. }
  cbn beta. intros [] s6 [K6 B6]. split; [by kept_all|done].
Qed.

(** ** The loops *)

(** A log of LOGSIZE blocks from [start] on, the first being the header, and a
    transaction with the blocks [homes]. *)
Record log_layout (start : Z) (homes : list Z) : Prop := {
  ll_start : 0 <= start;
  ll_fits : start + LOGSIZE <= FSSIZE;
  ll_len : Z.of_nat (length homes) < LOGSIZE;
  ll_nodup : NoDup homes;
  ll_homes : forall h, h ∈ homes -> 0 <= h < FSSIZE /\ ~ (start <= h < start + LOGSIZE)
}.

Record log_holds (l : log) (start : Z) (homes : list Z) : Prop := {
  lo_dev : lg_dev l = 1;
  lo_start : lg_start l = start;
  lo_n : lh_n l = Z.of_nat (length homes);
  lo_len : length (lh_block l) = Z.to_nat LOGSIZE;
  lo_blocks : take (length homes) (lh_block l) = homes
}.

Lemma log_holds_block l start homes k h : log_holds l start homes -> homes !! k = Some h ->
  lh_block l !! Z.to_nat (Z.of_nat k) = Some h.
Proof.
  intros L Hk. rewrite Nat2Z.id. rewrite <-(lo_blocks _ _ _ L) in Hk. by apply lookup_take_Some in Hk as [? _].
Qed.

Section Loops.
Context (start : Z) (homes : list Z) (LL : log_layout start homes).

(** The block of the log for the [k]-th block of the transaction. *)
Definition log_block (k : nat) : Z := start + Z.of_nat k + 1.

(** The writes of write_log and of install_trans, from the [k]-th block on. *)
Fixpoint log_writes (V : Z -> mem) (k : nat) (rest : list Z) : list (Z * mem) :=
  match rest with
  | [] => []
  | h :: rest => (log_block k, V h) :: log_writes V (S k) rest
  end.

Fixpoint home_writes (V : Z -> mem) (k : nat) (rest : list Z) : list (Z * mem) :=
  match rest with
  | [] => []
  | h :: rest => (h, V (log_block k)) :: home_writes V (S k) rest
  end.

Lemma log_writes_ext V V' rest : forall k, (forall h, h ∈ rest -> V h = V' h) ->
  log_writes V k rest = log_writes V' k rest.
Proof.
  induction rest as [|h rest IH]; intros k HV; [done|]. cbn. rewrite (HV h) by (by left).
  f_equal. apply IH. intros h' Hh'. apply HV. by right.
Qed.

Lemma home_writes_ext V V' rest : forall k, (forall j, (k <= j < k + length rest)%nat -> V (log_block j) = V' (log_block j)) ->
  home_writes V k rest = home_writes V' k rest.
Proof.
  induction rest as [|h rest IH]; intros k HV; [done|]. cbn. rewrite (HV k) by (cbn; lia).
  f_equal. apply IH. intros j Hj. apply HV. cbn. lia.
Qed.

Lemma home_writes_fst V rest : forall k, (home_writes V k rest).*1 = rest.
Proof. induction rest as [|h rest IH]; intros k; [done|]. cbn. by rewrite IH. Qed.

Lemma log_writes_fst V rest : forall k, (log_writes V k rest).*1 = log_block <$> seq k (length rest).
Proof. induction rest as [|h rest IH]; intros k; [done|]. cbn. by rewrite IH. Qed.

Lemma home_in k h : drop k homes !! 0%nat = Some h -> homes !! k = Some h /\ h ∈ homes.
Proof.
  rewrite lookup_drop, Nat.add_0_r. intros H. split; [done|by eapply list_elem_of_lookup_2].
Qed.

Lemma log_block_facts k : (k < length homes)%nat ->
  start < log_block k < start + LOGSIZE /\ log_block k < FSSIZE /\ (log_block k ∉ homes).
Proof.
  intros Hk. pose proof (ll_fits _ _ LL). pose proof (ll_len _ _ LL).
  assert (start < log_block k < start + LOGSIZE) by (unfold log_block; lia).
  split; [done|]. split; [lia|]. intros Hin. destruct (ll_homes _ _ LL _ Hin). lia.
Qed.

Lemma write_log_loop rest : forall k s V d,
  drop k homes = rest -> env s p pr -> blocks_at s V d (fun b => b ∈ homes) [] ->
  log_holds (x_log (k_fs s)) start homes ->
  wp (for_each (range (Z.of_nat k) (length rest)) (fun tail =>
      to <- bread 1 (start + tail + 1) ;;
      home <- get_lh_block tail ;;
      from <- bread 1 home ;;
      data <- buf_data from ;;
      set_buf_data to (fun _ => data) ;;;
      bwrite to ;;;
      brelse from ;;;
      brelse to)) s (fun _ s' => kept p pr s s' /\
    blocks_at s' (apply_view V (log_writes V k rest)) (apply_writes d (log_writes V k rest)) (fun b => b ∈ homes) []).
Proof.
  induction rest as [|h rest IH]; intros k s V d Hrest E B L.
  - cbn. apply wp_ret. split; [|done]. split; [done|apply same_rest_refl].
  - destruct (home_in k h) as [Hk Hh]; [by rewrite Hrest|].
    assert (k < length homes)%nat as Hlt by (by eapply lookup_lt_Some).
    destruct (log_block_facts k Hlt) as (Hb1 & Hb2 & Hb3). destruct (ll_homes _ _ LL h Hh) as [Hhr Hho].
    cbn [length range for_each]. apply wp_bind.
    eapply wp_mono; [apply (write_log_step s V d _ start (Z.of_nat k) h E B)|]; fold (log_block k); try done; try lia.
    { by eapply log_holds_block. }
    { right. exists homes. split; [done|]. pose proof (ll_len _ _ LL). cbn [length]. unfold LOGSIZE, NBUF in *. lia. }
    cbn beta. intros [] s1 [K1 B1]. replace (Z.of_nat k + 1) with (Z.of_nat (S k)) by lia.
    eapply wp_mono; [apply (IH (S k) s1 (upd_view V (log_block k) (V h)) (disk_write d (log_block k) (V h)))|].
    + pose proof (drop_S homes h k Hk). congruence.
    + apply K1.
    + exact B1.
    + by rewrite (kept_log _ _ K1).
    + cbn beta. intros [] s2 [K2 B2]. split; [by kept_all|].
      rewrite (log_writes_ext _ V) in B2; [exact B2|]. intros h' Hh'. unfold upd_view. rewrite decide_False; [done|].
      intros ->. apply Hb3. rewrite <-(take_drop k homes), Hrest. apply elem_of_app. right. by right.
Qed.

(** The blocks still to be installed are pinned when the transaction has just
    been committed ([flag]), and nothing is pinned when recovering. *)
Lemma install_loop (flag : bool) rest : forall k s V d,
  drop k homes = rest -> env s p pr -> blocks_at s V d (fun b => flag = true /\ b ∈ rest) [] ->
  log_holds (x_log (k_fs s)) start homes ->
  (forall j, (k <= j < length homes)%nat -> V (log_block j) = disk_read d (log_block j)) ->
  wp (for_each (range (Z.of_nat k) (length rest)) (fun tail =>
      lbuf <- bread 1 (start + tail + 1) ;;
      home <- get_lh_block tail ;;
      dbuf <- bread 1 home ;;
      data <- buf_data lbuf ;;
      set_buf_data dbuf (fun _ => data) ;;;
      bwrite dbuf ;;;
      brelse lbuf ;;;
      brelse dbuf)) s (fun _ s' => kept p pr s s' /\
    blocks_at s' (apply_view V (home_writes V k rest)) (apply_writes d (home_writes V k rest)) (fun _ => False) []).
Proof.
  induction rest as [|h rest IH]; intros k s V d Hrest E B L Hsame.
  - cbn. apply wp_ret. split; [split; [done|apply same_rest_refl]|].
    eapply blocks_at_ext; [exact B|done|]. intros b. cbn beta. split; [by intros [_ ?%elem_of_nil]|done].
  - destruct (home_in k h) as [Hk Hh]; [by rewrite Hrest|].
    assert (k < length homes)%nat as Hlt by (by eapply lookup_lt_Some).
    destruct (log_block_facts k Hlt) as (Hb1 & Hb2 & Hb3). destruct (ll_homes _ _ LL h Hh) as [Hhr Hho].
    pose proof (ll_nodup _ _ LL) as Hnd. rewrite <-(take_drop k homes), Hrest in Hnd.
    apply NoDup_app in Hnd as (_ & _ & [Hhrest _]%NoDup_cons).
    assert (k + length (h :: rest) = length homes)%nat as Hlen by (rewrite <-Hrest, length_drop; lia).
    pose proof (ll_len _ _ LL) as Hmax.
    cbn [length range for_each] in *. apply wp_bind.
    eapply wp_mono; [apply (install_step s V d _ start (Z.of_nat k) h E B)|]; fold (log_block k); try done; try lia.
    { by eapply log_holds_block. }
    { apply Hsame. lia. }
    { right. exists (h :: rest). split; [by intros b [_ ?]|]. cbn [length]. unfold LOGSIZE, NBUF in *. lia. }
    { intros i. destruct flag; [left; split; [done|by left]|right]. exists []. split; [by intros b [? _]|].
      cbn. unfold NBUF, MAXOPBLOCKS. lia. }
    cbn beta. intros [] s1 [K1 B1]. replace (Z.of_nat k + 1) with (Z.of_nat (S k)) by lia.
    eapply wp_mono; [apply (IH (S k) s1 (upd_view V h (V (log_block k))) (disk_write d h (V (log_block k))))|].
    + pose proof (drop_S homes h k Hk). congruence.
    + apply K1.
    + eapply blocks_at_ext; [exact B1|done|]. intros b. cbn beta. rewrite elem_of_cons. split.
      * intros [[-> [?|?]] ?]; done.
      * intros [-> Hb]. split; [split; [done|by right]|by intros ->].
    + by rewrite (kept_log _ _ K1).
    + intros j Hj. destruct (log_block_facts j ltac:(lia)) as (_ & _ & Hj3). unfold upd_view.
      rewrite disk_read_write, !decide_False by (by intros E'; rewrite E' in Hj3). apply Hsame. lia.
    + cbn beta. intros [] s2 [K2 B2]. split; [by kept_all|].
      rewrite (home_writes_ext _ V) in B2; [exact B2|]. intros j Hj. unfold upd_view. rewrite decide_False; [done|].
      intros E'. destruct (log_block_facts j ltac:(lia)) as (_ & _ & Hj3). by rewrite E' in Hj3.
Qed.

(** Filling in the block numbers of the header. *)
Lemma head_loop b rest : forall k s V d pin,
  env s p pr -> blocks_at s V d pin [(b, start)] ->
  (forall j h, rest !! j = Some h -> lh_block (x_log (k_fs s)) !! (k + j)%nat = Some h) ->
  wp (for_each (range (Z.of_nat k) (length rest)) (fun i =>
      v <- get_lh_block i ;;
      set_buf_data b (fun m => store32 m (4 + 4 * i) v))) s (fun _ s' => kept p pr s s' /\
    blocks_at s' (upd_view V start (fold_left (fun m ib => store32 m (4 + 4 * ib.1) ib.2)
      (zip (range (Z.of_nat k) (length rest)) rest) (V start))) d pin [(b, start)]).
Proof.
  induction rest as [|h rest IH]; intros k s V d pin E B Hlh.
  - cbn. apply wp_ret. split; [split; [done|apply same_rest_refl]|].
    eapply blocks_at_ext; [exact B| |done]. intros b'. unfold upd_view. case_decide as Eb; [by rewrite Eb|done].
  - cbn [length range for_each]. apply wp_bind, wp_bind.
    eapply wp_eq; [apply lh_block_eq; rewrite Nat2Z.id; rewrite <-(Nat.add_0_r k); by apply Hlh|].
    eapply wp_mono; [apply (rule_set_data p pr s V d pin _ b start _ E B); by left|].
    cbn beta. intros [] s1 [K1 B1]. replace (Z.of_nat k + 1) with (Z.of_nat (S k)) by lia.
    eapply wp_mono; [apply (IH (S k) s1 _ d pin (proj1 K1) B1)|].
    + intros j h' Hj. rewrite (kept_log _ _ K1). rewrite Nat.add_succ_comm. by apply Hlh.
    + cbn beta. intros [] s2 [K2 B2]. split; [by kept_all|].
      eapply blocks_at_ext; [exact B2| |done]. intros b'. unfold upd_view.
      destruct (decide (b' = start)); [|done]. rewrite !decide_True by done. done.
Qed.

Lemma write_head_ok s V d pin hs :
  env s p pr -> blocks_at s V d pin [] -> log_holds (x_log (k_fs s)) start hs ->
  ~ pin start -> can_read pin [] start ->
  wp write_head s (fun _ s' => kept p pr s s' /\
    blocks_at s' (upd_view V start (head_mem (V start) hs)) (disk_write d start (head_mem (V start) hs)) pin []).
Proof.
  intros E B L Hnp Hcan. pose proof (ll_fits _ _ LL) as Hfits.
  unfold write_head. apply wp_bind. apply wp_gets. rewrite (lo_dev _ _ _ L), (lo_start _ _ _ L), (lo_n _ _ _ L).
  apply wp_bind. eapply wp_mono; [apply (rule_bread p pr s V d pin [] start E B)|].
  { unfold LOGSIZE, MAXOPBLOCKS in *. lia. }
  { apply not_elem_of_nil. }
  { done. }
  cbn beta. intros b s1 [K1 B1].
  apply wp_bind. eapply wp_mono; [apply (rule_set_data p pr s1 V d pin _ b start _ (proj1 K1) B1); by left|].
  cbn beta. intros [] s2 [K2 B2].
  assert (x_log (k_fs s2) = x_log (k_fs s)) as El by (by rewrite (kept_log _ _ K2), (kept_log _ _ K1)).
  apply wp_bind. rewrite Nat2Z.id. change 0 with (Z.of_nat 0) at 1.
  eapply wp_mono; [apply (head_loop b hs 0 s2 _ d pin (proj1 K2) B2)|].
  { intros j h Hj. rewrite El. rewrite <-(lo_blocks _ _ _ L) in Hj. by apply lookup_take_Some in Hj as [? _]. }
  cbn beta. intros [] s3 [K3 B3].
  apply wp_bind. eapply wp_mono; [apply (rule_bwrite p pr s3 _ d pin _ b start (proj1 K3) B3); [by left|]|].
  { unfold LOGSIZE, MAXOPBLOCKS in *. lia. }
  cbn beta. intros [] s4 [K4 B4].
  eapply wp_mono; [apply (rule_brelse p pr s4 _ _ _ _ b start [] (proj1 K4) B4); [done|]|].
  { right. by rewrite disk_read_write, decide_True. }
  cbn beta. intros [] s5 [K5 B5]. split; [by kept_all|].
  assert (upd_view (upd_view V start (store32 (V start) 0 (Z.of_nat (length hs)))) start
    (fold_left (fun m ib => store32 m (4 + 4 * ib.1) ib.2) (zip (range (Z.of_nat 0) (length hs)) hs)
       (upd_view V start (store32 (V start) 0 (Z.of_nat (length hs))) start)) start = head_mem (V start) hs) as Eh.
  { unfold upd_view. rewrite !decide_True by done. done. }
  rewrite Eh in B5. eapply blocks_at_ext; [exact B5| |].
  - intros b'. destruct (decide (b' = start)) as [Eb|Hb].
    + rewrite Eb, Eh. unfold upd_view. by rewrite decide_True.
    + unfold upd_view. by rewrite !decide_False.
  - intros b'. split; [by intros [? _]|]. intros Hb. split; [done|by intros ->].
Qed.

(** ** commit *)

(** The writes of a commit, in order. *)
Definition install_writes (V : Z -> mem) : list (Z * mem) := (fun h => (h, V h)) <$> homes.
Definition commit_writes (V : Z -> mem) : list (Z * mem) :=
  log_writes V 0 homes ++ [(start, head_mem (V start) homes)] ++
  install_writes V ++ [(start, head_mem (head_mem (V start) homes) [])].

Lemma start_not_home : start ∉ homes.
Proof. intros Hin. destruct (ll_homes _ _ LL _ Hin). unfold LOGSIZE, MAXOPBLOCKS in *. lia. Qed.

Lemma log_writes_nodup V : NoDup (log_writes V 0 homes).*1.
Proof.
  rewrite log_writes_fst. apply NoDup_fmap_2; [|apply NoDup_seq]. intros i j. unfold log_block. lia.
Qed.

Lemma log_writes_outside V b : ~ (start < b < start + LOGSIZE) -> b ∉ (log_writes V 0 homes).*1.
Proof.
  rewrite log_writes_fst. intros Hb (k & -> & [_ Hk]%elem_of_seq)%list_elem_of_fmap.
  destruct (log_block_facts k ltac:(lia)) as (? & _). lia.
Qed.

Lemma log_writes_elem V rest : forall k j h, rest !! j = Some h -> (log_block (k + j), V h) ∈ log_writes V k rest.
Proof.
  induction rest as [|h' rest IH]; intros k j h Hj; [done|]. destruct j as [|j]; cbn in *.
  - injection Hj as ->. rewrite Nat.add_0_r. by left.
  - right. rewrite <-Nat.add_succ_comm. by apply IH.
Qed.

Lemma home_writes_map V V' rest : forall k, (forall j h, rest !! j = Some h -> V' (log_block (k + j)) = V h) ->
  home_writes V' k rest = (fun h => (h, V h)) <$> rest.
Proof.
  induction rest as [|h rest IH]; intros k HV; [done|]. cbn. rewrite <-(HV 0%nat h), Nat.add_0_r by done. f_equal.
  apply IH. intros j h' Hj. rewrite Nat.add_succ_comm. by apply HV.
Qed.

(** Changing the in-memory log does not matter to the blocks. *)
Definition with_log (l : log) s : kernel := s <| k_fs ::= fun x => x <| x_log := l |> |>.

Lemma blocks_at_log s V d pin L l : blocks_at s V d pin L -> blocks_at (with_log l s) V d pin L.
Proof. intros []. by constructor. Qed.

Lemma env_log s l : env s p pr -> env (with_log l s) p pr.
Proof. by intros []. Qed.

Lemma log_holds_empty l hs : log_holds l start hs -> log_holds (l <| lh_n := 0 |>) start [].
Proof. intros []. by constructor. Qed.

Lemma commit_ok s V d :
  homes <> [] -> env s p pr -> blocks_at s V d (fun b => b ∈ homes) [] -> log_holds (x_log (k_fs s)) start homes ->
  wp commit s (fun _ s' => env s' p pr /\ log_holds (x_log (k_fs s')) start [] /\
    same_files s s' /\ x_log (k_fs s') = (x_log (k_fs s)) <| lh_n := 0 |> /\
    exists V', blocks_at s' V' (apply_writes d (commit_writes V)) (fun _ => False) []).
Proof.
  intros Hne E B L. pose proof (ll_fits _ _ LL) as Hfits. pose proof (ll_len _ _ LL) as Hmax.
  assert (can_read (fun b => b ∈ homes) [] start) as Hcan.
  { right. exists homes. split; [done|]. cbn. unfold LOGSIZE, NBUF in *. lia. }
  unfold commit. apply wp_bind, wp_gets. rewrite (lo_n _ _ _ L).
  destruct (Z.ltb_spec 0 (Z.of_nat (length homes))); [|destruct homes; cbn in *; [done|lia]]. cbn [when].
  (* write_log *)
  unfold write_log. apply wp_bind, wp_bind, wp_gets.
  rewrite (lo_dev _ _ _ L), (lo_start _ _ _ L), (lo_n _ _ _ L), Nat2Z.id. change 0 with (Z.of_nat 0) at 1.
  eapply wp_mono; [by apply (write_log_loop homes 0)|]. cbn beta. intros [] s1 [K1 B1].
  assert (log_holds (x_log (k_fs s1)) start homes) as L1 by (by rewrite (kept_log _ _ K1)).
  (* the header *)
  apply wp_bind. eapply wp_mono; [apply (write_head_ok s1 _ _ _ homes (proj1 K1) B1 L1 start_not_home Hcan)|].
  cbn beta. intros [] s2 [K2 B2]. assert (log_holds (x_log (k_fs s2)) start homes) as L2 by (by rewrite (kept_log _ _ K2)).
  rewrite (apply_view_other _ V start) in B2 by (apply log_writes_outside; lia).
  set (m1 := head_mem (V start) homes) in *. set (V2 := upd_view _ start m1) in *. set (d2 := disk_write _ start m1) in *.
  assert (forall j h, homes !! j = Some h -> V2 (log_block j) = V h /\ disk_read d2 (log_block j) = V h) as Hlog.
  { intros j h Hj. pose proof (log_writes_elem V homes 0 j h Hj) as Hin.
    destruct (log_block_facts j ltac:(by eapply lookup_lt_Some)) as (? & _).
    unfold V2, d2, upd_view. rewrite disk_read_write, !decide_False by lia.
    split; [by apply apply_view_in; [apply log_writes_nodup|]|by apply apply_writes_in; [apply log_writes_nodup|]]. }
  (* install *)
  unfold install_trans. apply wp_bind, wp_bind, wp_gets.
  rewrite (lo_dev _ _ _ L2), (lo_start _ _ _ L2), (lo_n _ _ _ L2), Nat2Z.id. change 0 with (Z.of_nat 0) at 1.
  eapply wp_mono; [apply (install_loop true homes 0 s2 V2 d2 eq_refl (proj1 K2)); [|done|]|].
  { eapply blocks_at_ext; [exact B2|done|]. intros b. cbn beta. tauto. }
  { intros j Hj. destruct (lookup_lt_is_Some_2 homes j ltac:(lia)) as [h Hh]. destruct (Hlog j h Hh). congruence. }
  cbn beta. intros [] s3 [K3 B3].
  rewrite (home_writes_map V V2 homes 0) in B3 by (intros j h Hj; by apply Hlog). fold (install_writes V) in B3.
  (* the header again *)
  apply wp_bind. unfold upd_log, fmod. apply wp_modify.
  set (s4 := with_log ((x_log (k_fs s3)) <| lh_n := 0 |>) s3).
  assert (log_holds (x_log (k_fs s4)) start []) as L4.
  { apply (log_holds_empty _ homes). by rewrite (kept_log _ _ K3). }
  eapply wp_mono; [apply (write_head_ok s4 _ _ _ [] (env_log _ _ (proj1 K3)) (blocks_at_log _ _ _ _ _ _ B3) L4)|].
  { tauto. }
  { right. exists []. split; [done|]. cbn. unfold NBUF, MAXOPBLOCKS. lia. }
  cbn beta. intros [] s5 [K5 B5]. split; [apply K5|]. split; [by rewrite (kept_log _ _ K5)|].
  destruct (kept_files _ _ K1) as [S1 G1], (kept_files _ _ K2) as [S2 G2], (kept_files _ _ K3) as [S3 G3], (kept_files _ _ K5) as [S5 G5].
  split; [unfold same_files in *; rewrite S5; change (files (k_fs s4)) with (files (k_fs s3)); congruence|].
  split; [rewrite G5; change (x_log (k_fs s4)) with ((x_log (k_fs s3)) <| lh_n := 0 |>); congruence|].
  eexists. unfold commit_writes. rewrite !apply_writes_app.
  rewrite (apply_view_other (install_writes V) V2 start) in B5.
  2:{ unfold install_writes. rewrite <-list_fmap_compose. cbn. rewrite list_fmap_id. apply start_not_home. }
  assert (V2 start = m1) as E2 by (unfold V2, upd_view; by rewrite decide_True). rewrite E2 in B5. exact B5.
Qed.

(** ** Recovery *)

(** The header lists the blocks [hs]. *)
Definition header_is (m : mem) (hs : list Z) : Prop :=
  load32 m 0 = Z.of_nat (length hs) /\
  forall k h, hs !! k = Some h -> load32 m (4 + 4 * Z.of_nat k) = h.

Lemma set_lh_block_eq s i v : 0 <= i -> i < Z.of_nat (length (lh_block (x_log (k_fs s)))) ->
  set_lh_block i v s = Ret tt (with_log ((x_log (k_fs s)) <| lh_block ::= <[Z.to_nat i := v]> |>) s).
Proof.
  intros Hi Hl. unfold set_lh_block, get_log, fget, gets, bind. by destruct (Z.ltb_spec i (Z.of_nat (length (lh_block (x_log (k_fs s)))))); [|lia].
Qed.

Lemma read_head_loop m rest : forall k l s,
  (forall j h, rest !! j = Some h -> i32 (load32 m (4 + 4 * Z.of_nat (k + j))) = h) ->
  (k + length rest <= length (lh_block l))%nat -> x_log (k_fs s) = l ->
  wp (for_each (range (Z.of_nat k) (length rest)) (fun i => set_lh_block i (i32 (load32 m (4 + 4 * i))))) s
    (fun _ s' => exists bs, s' = with_log (l <| lh_block := bs |>) s /\ length bs = length (lh_block l) /\
       take k bs = take k (lh_block l) /\ take (length rest) (drop k bs) = rest).
Proof.
  induction rest as [|h rest IH]; intros k l s Hm Hlen El.
  - cbn [length range for_each]. apply wp_ret. exists (lh_block l). subst l. split; [by destruct s as [???????????????[??[]????????]]|done].
  - cbn [length range for_each]. apply wp_bind.
    assert (i32 (load32 m (4 + 4 * Z.of_nat k)) = h) as Eh by (rewrite <-(Nat.add_0_r k); by apply Hm). rewrite Eh.
    eapply wp_eq; [apply set_lh_block_eq; [lia|rewrite El; cbn [length] in Hlen; lia]|]. rewrite El, Nat2Z.id.
    set (l1 := l <| lh_block ::= <[k := h]> |>). replace (Z.of_nat k + 1) with (Z.of_nat (S k)) by lia.
    eapply wp_mono; [apply (IH (S k) l1 (with_log l1 s))|].
    + intros j h' Hj. rewrite Nat.add_succ_comm. by apply Hm.
    + cbn in *. rewrite length_insert. lia.
    + done.
    + cbn beta. intros [] s' (bs & -> & Hbl & Htk & Hdr). exists bs. cbn [length] in Hlen.
      change (lh_block l1) with (<[k := h]> (lh_block l)) in Hbl, Htk. rewrite length_insert in Hbl.
      assert (bs !! k = Some h) as Hk.
      { rewrite <-(lookup_take_lt bs (S k)) by lia. rewrite Htk, lookup_take_lt by lia. apply list_lookup_insert_eq. lia. }
      split; [done|]. split; [done|]. split.
      * transitivity (take k (take (S k) bs)); [by rewrite take_take, Nat.min_l by lia|].
        rewrite Htk, take_take, Nat.min_l by lia. by apply take_insert_ge.
      * rewrite (drop_S bs h k Hk). cbn. by f_equal.
Qed.

(** The log of the kernel before recovery: only its place on the disk is known. *)
Definition log_found (l : log) : Prop :=
  lg_dev l = 1 /\ lg_start l = start /\ length (lh_block l) = Z.to_nat LOGSIZE.

Abbreviation nothing := (fun _ : Z => False).

Lemma can_read_nothing b : can_read nothing [] b.
Proof. right. exists []. split; [done|]. cbn. unfold NBUF, MAXOPBLOCKS. lia. Qed.

Lemma read_head_ok s V d :
  env s p pr -> blocks_at s V d nothing [] -> V start = disk_read d start ->
  log_found (x_log (k_fs s)) -> header_is (V start) homes ->
  wp read_head s (fun _ s' => env s' p pr /\ blocks_at s' V d nothing [] /\ log_holds (x_log (k_fs s')) start homes).
Proof.
  intros E B HV (Hdev & Hst & Hlen) [Hn Hbs]. pose proof (ll_fits _ _ LL) as Hfits. pose proof (ll_len _ _ LL) as Hmax.
  unfold LOGSIZE, MAXOPBLOCKS, FSSIZE in Hfits, Hmax.
  unfold read_head. apply wp_bind, wp_gets. rewrite Hdev, Hst.
  apply wp_bind. eapply wp_mono; [apply (rule_bread p pr s V d nothing [] start E B); [unfold FSSIZE; lia|apply not_elem_of_nil|apply can_read_nothing]|].
  cbn beta. intros b s1 [K1 B1]. apply wp_bind. eapply wp_eq; [eapply rule_data; [exact B1|by left]|].
  rewrite Hn, i32_small by lia. apply wp_bind. unfold upd_log, fmod. apply wp_modify.
  set (l2 := (x_log (k_fs s1)) <| lh_n := Z.of_nat (length homes) |>).
  apply wp_bind. rewrite Nat2Z.id. change 0 with (Z.of_nat 0) at 1.
  eapply wp_mono; [apply (read_head_loop (V start) homes 0 l2 (with_log l2 s1))|].
  - intros j h Hj. cbn [Nat.add]. rewrite (Hbs j h Hj). apply i32_small.
    destruct (ll_homes _ _ LL h ltac:(by eapply list_elem_of_lookup_2)). unfold FSSIZE in *. lia.
  - change (lh_block l2) with (lh_block (x_log (k_fs s1))). rewrite (kept_log _ _ K1), Hlen. unfold LOGSIZE, MAXOPBLOCKS. lia.
  - done.
  - cbn beta. intros [] s3 (bs & -> & Hbl & _ & Htk). rewrite drop_0 in Htk.
    set (l3 := l2 <| lh_block := bs |>). change (with_log l3 (with_log l2 s1)) with (with_log l3 s1).
    eapply wp_mono; [apply (rule_brelse p pr (with_log l3 s1) V d nothing [(b, start)] b start []); [apply env_log, K1|by apply blocks_at_log|done|by right]|].
    cbn beta. intros [] s4 [K4 B4]. split; [apply K4|]. split; [done|].
    rewrite (kept_log _ _ K4). change (x_log (k_fs (with_log l3 s1))) with l3.
    constructor; cbn; rewrite ?(kept_log _ _ K1); try done.
    change (lh_block l2) with (lh_block (x_log (k_fs s1))) in Hbl. rewrite (kept_log _ _ K1) in Hbl. congruence.
Qed.

(** The writes of a recovery from the contents [V] of the disk. *)
Definition recovery_writes (V : Z -> mem) : list (Z * mem) :=
  home_writes V 0 homes ++ [(start, head_mem (V start) [])].

Lemma recover_ok s d :
  env s p pr -> blocks_at s (disk_read d) d nothing [] ->
  log_found (x_log (k_fs s)) -> header_is (disk_read d start) homes ->
  wp recover_from_log s (fun _ s' => env s' p pr /\ log_holds (x_log (k_fs s')) start [] /\
    x_disk (k_fs s') = apply_writes d (recovery_writes (disk_read d))).
Proof.
  intros E B Hl Hh. unfold recover_from_log. apply wp_bind. eapply wp_mono; [by apply (read_head_ok s (disk_read d) d)|].
  cbn beta. intros [] s1 (E1 & B1 & L1). unfold install_trans. apply wp_bind, wp_bind, wp_gets.
  rewrite (lo_dev _ _ _ L1), (lo_start _ _ _ L1), (lo_n _ _ _ L1), Nat2Z.id. change 0 with (Z.of_nat 0) at 1.
  eapply wp_mono; [apply (install_loop false homes 0 s1 (disk_read d) d eq_refl E1); [|done|done]|].
  { eapply blocks_at_ext; [exact B1|done|]. intros b. cbn beta. split; [done|]. by intros [? _]. }
  cbn beta. intros [] s2 [K2 B2]. apply wp_bind. unfold upd_log, fmod. apply wp_modify.
  set (s3 := with_log ((x_log (k_fs s2)) <| lh_n := 0 |>) s2).
  assert (log_holds (x_log (k_fs s3)) start []) as L3.
  { apply (log_holds_empty _ homes). by rewrite (kept_log _ _ K2). }
  eapply wp_mono; [apply (write_head_ok s3 _ _ _ [] (env_log _ _ (proj1 K2)) (blocks_at_log _ _ _ _ _ _ B2) L3); [tauto|apply can_read_nothing]|].
  cbn beta. intros [] s4 [K4 B4]. split; [apply K4|]. split; [by rewrite (kept_log _ _ K4)|].
  rewrite (ba_disk _ _ _ _ _ B4). unfold recovery_writes. rewrite apply_writes_app.
  rewrite apply_view_other by (rewrite home_writes_fst; apply start_not_home). done.
Qed.

(** A kernel that has just started on the disk [d]: nothing is cached. *)
Record rebooted s d : Prop := {
  rb_env : env s p pr;
  rb_blocks : blocks_at s (disk_read d) d nothing [];
  rb_log : length (lh_block (x_log (k_fs s))) = Z.to_nat LOGSIZE
}.

Lemma readsb_ok s d : rebooted s d ->
  wp (readsb 1) s (fun sb s' => rebooted s' d /\ sb_logstart sb = load32 (disk_read d 1) 16).
Proof.
  intros [E B Hl]. unfold readsb.
  apply wp_bind. eapply wp_mono; [apply (rule_bread p pr s _ d nothing [] 1 E B); [done|apply not_elem_of_nil|apply can_read_nothing]|].
  cbn beta. intros b s1 [K1 B1]. apply wp_bind. eapply wp_eq; [eapply rule_data; [exact B1|by left]|].
  apply wp_bind. eapply wp_mono; [apply (rule_brelse p pr s1 _ d nothing [(b, 1)] b 1 [] (proj1 K1) B1); [done|by right]|].
  cbn beta. intros [] s2 [K2 B2]. apply wp_ret. split; [|done].
  constructor; [apply K2|done|]. by rewrite (kept_log _ _ K2), (kept_log _ _ K1).
Qed.

Lemma rebooted_log s d l : rebooted s d -> length (lh_block l) = Z.to_nat LOGSIZE -> rebooted (with_log l s) d.
Proof. intros [E B _] Hl. constructor; [by apply env_log|by apply blocks_at_log|done]. Qed.

Lemma initlog_ok s d :
  rebooted s d -> load32 (disk_read d 1) 16 = start -> header_is (disk_read d start) homes ->
  wp (initlog 1) s (fun _ s' => env s' p pr /\ log_holds (x_log (k_fs s')) start [] /\
    x_disk (k_fs s') = apply_writes d (recovery_writes (disk_read d))).
Proof.
  intros R Hsb Hh. unfold initlog. apply wp_bind. unfold upd_log at 1, fmod. apply wp_modify.
  apply wp_bind. eapply wp_mono; [apply readsb_ok, (rebooted_log s d ((x_log (k_fs s)) <| lg_lock := false |>) R), R|].
  cbn beta. intros sb s1 [R1 Hst]. apply wp_bind. unfold upd_log, fmod. apply wp_modify.
  set (l2 := (x_log (k_fs s1)) <| lg_start := sb_logstart sb |> <| lg_size := sb_nlog sb |> <| lg_dev := 1 |>).
  pose proof (rebooted_log s1 d l2 R1 (rb_log _ _ R1)) as [E2 B2 Hl2].
  apply (recover_ok (with_log l2 s1) d E2 B2); [|done]. split; [done|]. split; [|done].
  change (sb_logstart sb = start). congruence.
Qed.

End Loops.

(** ** Crashes *)

Section Atomic.
Context (start : Z) (homes : list Z) (LL : log_layout start homes).
Context (V : Z -> mem) (d : disk).
Context (Hempty : load32 (disk_read d start) 0 = 0).
Context (HV : forall b, b ∉ homes -> V b = disk_read d b).

Definition in_log (b : Z) : Prop := start <= b < start + LOGSIZE.

Lemma layout_nil : log_layout start [].
Proof. destruct LL. constructor; try done; [constructor|by intros h ?%elem_of_nil]. Qed.

(** What recovery leaves outside of the log. *)
Lemma recovered_outside d' hs b : log_layout start hs -> ~ in_log b ->
  disk_read (apply_writes d' (recovery_writes start hs (disk_read d'))) b =
  disk_read (apply_writes d' (home_writes start (disk_read d') 0 hs)) b.
Proof.
  intros Lh Hb. unfold recovery_writes. rewrite apply_writes_app. cbn. rewrite disk_read_write, decide_False; [done|].
  intros ->. apply Hb. unfold in_log, LOGSIZE, MAXOPBLOCKS. lia.
Qed.

Lemma log_writes_not_header (ws : list (Z * mem)) : (ws.*1 ⊆ (log_writes start V 0 homes).*1) -> start ∉ ws.*1.
Proof.
  intros Hs Hin. apply Hs in Hin. revert Hin. apply (log_writes_outside start homes LL). lia.
Qed.

(** Before the header is written: nothing happened. *)
Lemma crash_before w1 w2 b : log_writes start V 0 homes = w1 ++ w2 ->
  let d' := apply_writes d w1 in
  header_is (disk_read d' start) [] /\ (~ in_log b -> disk_read d' b = disk_read d b).
Proof.
  intros E d'. assert (w1.*1 ⊆ (log_writes start V 0 homes).*1) as Hsub.
  { rewrite E, fmap_app. intros x Hx. apply elem_of_app. by left. }
  split.
  - unfold d'. rewrite apply_writes_other by (by apply log_writes_not_header). by split.
  - intros Hb. apply apply_writes_other. intros Hin%Hsub. revert Hin. apply (log_writes_outside start homes LL).
    unfold in_log in Hb. lia.
Qed.

Abbreviation m1 := (head_mem (V start) homes).

(** Once it is written: everything will happen. *)
Lemma crash_after w1 w2 : install_writes homes V = w1 ++ w2 ->
  let d' := apply_writes d (log_writes start V 0 homes ++ [(start, m1)] ++ w1) in
  header_is (disk_read d' start) homes /\
  (forall b, ~ in_log b -> disk_read (apply_writes d' (home_writes start (disk_read d') 0 homes)) b = V b).
Proof.
  intros E d'. pose proof (ll_len _ _ LL) as Hmax. unfold LOGSIZE, MAXOPBLOCKS in Hmax.
  assert (forall b, b ∈ w1.*1 -> b ∈ homes) as Hsub.
  { intros b Hb. replace homes with (install_writes homes V).*1.
    - rewrite E, fmap_app. apply elem_of_app. by left.
    - unfold install_writes. rewrite <-list_fmap_compose. cbn. by rewrite list_fmap_id. }
  assert (disk_read d' start = m1) as Eh.
  { unfold d'. rewrite !apply_writes_app. rewrite apply_writes_other by (intros Hin%Hsub; by apply (start_not_home start homes LL)).
    cbn. by rewrite disk_read_write, decide_True. }
  assert (forall j h, homes !! j = Some h -> disk_read d' (log_block start j) = V h) as Hlog.
  { intros j h Hj. destruct (log_block_facts start homes LL j ltac:(by eapply lookup_lt_Some)) as (? & _ & Hno).
    unfold d'. rewrite !apply_writes_app. rewrite apply_writes_other by (by intros Hin%Hsub).
    cbn. rewrite disk_read_write, decide_False by lia.
    apply apply_writes_in; [by apply log_writes_nodup|]. by apply (log_writes_elem start V homes 0). }
  split.
  - rewrite Eh. split; [apply head_mem_n; lia|]. intros k h Hk. apply head_mem_block; [done|].
    destruct (ll_homes _ _ LL h ltac:(by eapply list_elem_of_lookup_2)). unfold FSSIZE in *. lia.
  - intros b Hb. rewrite (home_writes_map start V _ homes 0) by exact Hlog.
    destruct (decide (b ∈ homes)) as [Hin|Hn].
    + apply apply_writes_in.
      * rewrite <-list_fmap_compose. cbn. rewrite list_fmap_id. apply LL.
      * apply list_elem_of_fmap. by exists b.
    + rewrite apply_writes_other.
      2:{ rewrite <-list_fmap_compose. cbn. by rewrite list_fmap_id. }
      unfold d'. rewrite !apply_writes_app. rewrite apply_writes_other by (by intros ?%Hsub). cbn.
      unfold in_log in Hb. rewrite disk_read_write, decide_False by (intros ->; unfold LOGSIZE, MAXOPBLOCKS in Hb; lia).
      rewrite apply_writes_other by (apply (log_writes_outside start homes LL); lia). by rewrite HV.
Qed.

(** When the log has been cleared again: everything has happened. *)
Lemma crash_done :
  let d' := apply_writes d (commit_writes start homes V) in
  header_is (disk_read d' start) [] /\ (forall b, ~ in_log b -> disk_read d' b = V b).
Proof.
  intros d'. unfold d', commit_writes. rewrite !apply_writes_app. cbn.
  assert (forall l, ((fun h => (h, V h)) <$> l).*1 = l) as Efst.
  { intros l. rewrite <-list_fmap_compose. cbn. by rewrite list_fmap_id. }
  split.
  - rewrite disk_read_write, decide_True by done. split; [by apply (head_mem_n _ [])|done].
  - intros b Hb. unfold in_log in Hb.
    assert (b <> start) by (intros ->; unfold LOGSIZE, MAXOPBLOCKS in Hb; lia).
    rewrite disk_read_write, decide_False by done. destruct (decide (b ∈ homes)) as [Hin|Hn].
    + apply apply_writes_in; unfold install_writes; [rewrite Efst; apply LL|]. apply list_elem_of_fmap. by exists b.
    + rewrite apply_writes_other by (unfold install_writes; by rewrite Efst). cbn.
      rewrite disk_read_write, decide_False by done.
      rewrite apply_writes_other by (apply (log_writes_outside start homes LL); lia). by rewrite HV.
Qed.

(** The writes touch neither other blocks nor the superblock. *)
Lemma commit_writes_other w1 w2 b : commit_writes start homes V = w1 ++ w2 ->
  ~ in_log b -> b ∉ homes -> disk_read (apply_writes d w1) b = disk_read d b.
Proof.
  intros E Hb Hn. apply apply_writes_other. intros Hin.
  assert (b ∈ (commit_writes start homes V).*1) as Hin'.
  { rewrite E, fmap_app. apply elem_of_app. by left. }
  unfold commit_writes, install_writes in Hin'. rewrite !fmap_app, !elem_of_app in Hin'. unfold in_log in Hb.
  destruct Hin' as [Hw|[Hw|[Hw|Hw]]].
  - revert Hw. apply (log_writes_outside start homes LL). lia.
  - apply list_elem_of_singleton in Hw as ->. cbn in Hb. unfold LOGSIZE, MAXOPBLOCKS in Hb. lia.
  - rewrite <-list_fmap_compose in Hw. cbn in Hw. by rewrite list_fmap_id in Hw.
  - apply list_elem_of_singleton in Hw as ->. cbn in Hb. unfold LOGSIZE, MAXOPBLOCKS in Hb. lia.
Qed.

(** Wherever the writes stop, the header lists either nothing, with the blocks
    as before or all new, or the transaction, which recovery then installs. *)
Lemma crash_points w1 w2 : commit_writes start homes V = w1 ++ w2 ->
  let d' := apply_writes d w1 in
  exists hs, log_layout start hs /\ header_is (disk_read d' start) hs /\
    forall b, ~ in_log b -> disk_read (apply_writes d' (home_writes start (disk_read d') 0 hs)) b =
      if decide (length w1 <= length homes)%nat then disk_read d b else V b.
Proof.
  intros E d'. assert (length (log_writes start V 0 homes) = length homes) as Hlw.
  { rewrite <-(length_fmap fst), log_writes_fst, length_fmap, length_seq. done. }
  pose proof layout_nil as LN. unfold commit_writes in E.
  apply app_eq_inv in E as [(k & E1 & E2)|(k & E1 & E2)].
  - destruct (crash_before w1 k 0 E1) as [Hh _]. exists []. split; [done|]. split; [exact Hh|].
    intros b Hb. cbn [home_writes]. rewrite decide_True by (rewrite <-Hlw, E1, length_app; lia).
    by apply (crash_before w1 k b E1).
  - destruct k as [|x k].
    { rewrite app_nil_r in E1. destruct (crash_before w1 [] 0) as [Hh _]; [by rewrite app_nil_r|].
      exists []. split; [done|]. split; [exact Hh|]. intros b Hb. cbn [home_writes].
      rewrite decide_True by (rewrite E1, Hlw; lia). apply (crash_before w1 [] b); [by rewrite app_nil_r|done]. }
    cbn [app] in E2. injection E2 as <- E2.
    assert (~ (length w1 <= length homes)%nat) as Hlong by (rewrite E1, length_app, Hlw; cbn; lia).
    apply app_eq_inv in E2 as [(k' & E3 & E4)|(k' & E3 & E4)].
    + destruct (crash_after k k' E3) as [Hh Hr].
      assert (d' = apply_writes d (log_writes start V 0 homes ++ [(start, m1)] ++ k)) as Ed by (unfold d'; by rewrite E1).
      exists homes. rewrite Ed. split; [done|]. split; [exact Hh|]. intros b Hb. rewrite decide_False by done. by apply Hr.
    + destruct k' as [|y k'].
      * rewrite app_nil_r in E3. destruct (crash_after k []) as [Hh Hr]; [by rewrite app_nil_r|].
        assert (d' = apply_writes d (log_writes start V 0 homes ++ [(start, m1)] ++ k)) as Ed by (unfold d'; by rewrite E1).
        exists homes. rewrite Ed. split; [done|]. split; [exact Hh|]. intros b Hb. rewrite decide_False by done. by apply Hr.
      * cbn [app] in E4. injection E4 as <- E4. symmetry in E4. apply app_eq_nil in E4 as [-> ->].
        destruct crash_done as [Hh Hr].
        assert (d' = apply_writes d (commit_writes start homes V)) as Ed by (unfold d'; by rewrite E1, E3).
        exists []. rewrite Ed. split; [done|]. split; [exact Hh|]. intros b Hb. rewrite decide_False by done. by apply Hr.
Qed.

End Atomic.

End LogOps.

(** C2. A commit is atomic.  Let the transaction [homes] be pinned in the cache
    with the contents [V], and the log on the disk be empty.  commit() returns
    after a sequence of disk writes.  Wherever in this sequence the machine
    stops, initlog() on the next boot restores a state in which, outside the log,
    every block of the disk is as before the transaction, if the header was not
    yet written, and every block has its new contents otherwise; the log is empty
    again.  When commit() has returned, the new contents are there to stay. *)
Theorem commit_is_atomic p pr p' pr' start homes s V d :
  log_layout start homes -> homes <> [] -> 2 <= start -> (1 ∉ homes) ->
  env s p pr -> blocks_at s V d (fun b => b ∈ homes) [] -> log_holds (x_log (k_fs s)) start homes ->
  load32 (disk_read d start) 0 = 0 -> load32 (disk_read d 1) 16 = start ->
  wp commit s (fun _ s' => exists ws,
    d_trace (x_disk (k_fs s')) = d_trace d ++ ws /\ (length homes < length ws)%nat /\
    forall w1 w2 r, ws = w1 ++ w2 -> rebooted p' pr' r (apply_writes d w1) ->
      wp (initlog 1) r (fun _ r' => lh_n (x_log (k_fs r')) = 0 /\ load32 (disk_read (x_disk (k_fs r')) start) 0 = 0 /\
        forall b, ~ in_log start b -> disk_read (x_disk (k_fs r')) b =
          if decide (length w1 <= length homes)%nat then disk_read d b else V b)).
Proof.
  intros LL Hne Hst H1 E B L Hempty Hsb.
  assert (forall b, b ∉ homes -> V b = disk_read d b) as HV.
  { intros b Hb. rewrite <-(ba_view _ _ _ _ _ B). apply (cur_unpinned _ _ _ (ba_inv _ _ _ _ _ B)); [intros; apply not_elem_of_nil|].
    by rewrite (ba_pin _ _ _ _ _ B). }
  eapply wp_mono; [by apply (commit_ok p pr start homes LL s V d)|].
  cbn beta. intros [] s' (E' & L' & _ & _ & V' & B'). exists (commit_writes start homes V).
  split; [by rewrite (ba_disk _ _ _ _ _ B'), apply_writes_trace|]. split.
  { unfold commit_writes. rewrite !length_app, <-(length_fmap fst), log_writes_fst, length_fmap, length_seq. cbn. lia. }
  intros w1 w2 r Ew R. destruct (crash_points start homes LL V d Hempty HV w1 w2 Ew) as (hs & Lh & Hh & Hr).
  assert (~ in_log start 1) as Hlog1 by (unfold in_log; lia).
  eapply wp_mono; [apply (initlog_ok p' pr' start hs Lh r _ R); [|done]|].
  { by rewrite (commit_writes_other start homes LL V d w1 w2 1 Ew Hlog1 H1). }
  cbn beta. intros [] r' (_ & L2 & ->). split; [apply (lo_n _ _ _ L2)|]. split.
  - unfold recovery_writes. rewrite apply_writes_app. cbn. rewrite disk_read_write, decide_True by done.
    by apply (head_mem_n _ []).
  - intros b Hb. rewrite recovered_outside by done. by apply Hr.
Qed.

(** ** Witnesses *)

Module CrashWitness.

(** A disk with a superblock that puts the log at block 2. *)
Definition small_disk : disk := {| d_blocks := {[ 1 := store32 ∅ 16 2 ]}; d_trace := [] |}.

(** A cache with one buffer in use, for the block 40, with new contents. *)
Definition new_block : mem := store8 ∅ 0 77.
Definition dirty_buf : buf :=
  {| b_valid := true; b_dirty := true; b_dev := 1; b_blockno := 40;
     b_lock := initsleeplock; b_refcnt := 0; b_data := new_block |}.
Definition cache_with (bf : buf) : bcache :=
  {| bc_lock := false; bc_buf := bf :: replicate 29 buf0; bc_mru := rev (seq 0 30) |}.

Lemma cache_with_names bf b i bf' : names (cache_with bf) b i bf' -> i = 0%nat /\ bf' = bf /\ b_dev bf = 1 /\ b_blockno bf = b.
Proof.
  intros (Hi & Hd & Hb). destruct i as [|i].
  - change (Some bf = Some bf') in Hi. by simplify_eq.
  - change (replicate 29 buf0 !! i = Some bf') in Hi. by apply lookup_replicate in Hi as [-> _].
Qed.

Lemma cache_with_inv bf d : idle_buf d bf -> cache_inv (cache_with bf) d [].
Proof.
  intros Hbf. constructor; try done.
  - cbn [bc_mru cache_with]. by rewrite <-Permutation_rev.
  - intros b i j x y [-> _]%cache_with_names [-> _]%cache_with_names. done.
  - constructor.
  - intros i x Hi _. destruct i as [|i].
    + change (Some bf = Some x) in Hi. by simplify_eq.
    + change (replicate 29 buf0 !! i = Some x) in Hi. by apply lookup_replicate in Hi as [-> _].
  - by intros i ?%elem_of_nil.
Qed.

Definition cpu_proc : proc := proc0 <| p_state := RUNNING |>.
Definition machine (c : bcache) (l : log) (d : disk) : kernel :=
  (boot (fsys_boot d)) <| k_curproc := Some 0%nat |> <| k_ptable := [cpu_proc] |>
    <| k_fs ::= fun x => x <| x_bcache := c |> <| x_log := l |> |>.

Lemma machine_env c l d : env (machine c l d) 0 cpu_proc.
Proof. by constructor. Qed.

Definition one_block_log : log :=
  {| lg_lock := false; lg_start := 2; lg_size := 30; lg_outstanding := 0; lg_committing := true; lg_dev := 1;
     lh_n := 1; lh_block := 40 :: replicate 29 0 |}.

Definition committing : kernel := machine (cache_with dirty_buf) one_block_log small_disk.
Definition new_view (b : Z) : mem := if decide (b = 40) then new_block else disk_read small_disk b.

Lemma committing_blocks : blocks_at committing new_view small_disk (fun b => b ∈ [40]) [].
Proof.
  assert (cache_inv (cache_with dirty_buf) small_disk []) as I by (apply cache_with_inv; by repeat split).
  assert (names (cache_with dirty_buf) 40 0 dirty_buf) as Hn by done.
  constructor; [exact I|done| | |by intros i b ?%elem_of_nil].
  - intros b. unfold new_view. case_decide as E; [rewrite E; by apply (cur_names _ _ _ _ _ _ I Hn)|].
    apply (cur_disk _ _ _ _ I). intros i bf (_ & _ & _ & Hb)%cache_with_names. by apply E.
  - intros b. rewrite list_elem_of_singleton. split.
    + by intros (i & bf & (_ & -> & _ & <-)%cache_with_names & _).
    + intros ->. by exists 0%nat, dirty_buf.
Qed.

Definition empty_log : log := x_log (fsys_boot small_disk).

Lemma machine_rebooted d : rebooted 0 cpu_proc (machine (cache_with buf0) empty_log d) d.
Proof.
  assert (cache_inv (cache_with buf0) d []) as I by (apply cache_with_inv; by repeat split).
  constructor; [apply machine_env| |done]. constructor; [exact I|done| | |by intros i b ?%elem_of_nil].
  - intros b. apply (cur_disk _ _ _ _ I). by intros i bf (_ & _ & Hd & _)%cache_with_names.
  - intros b. split; [|done]. by intros (i & bf & (_ & _ & Hd & _)%cache_with_names & _).
Qed.

(** A crash right after the header has been written still gives the new block. *)
Lemma commit_is_atomic_witness : exists s' ws,
  commit committing = Ret tt s' /\ d_trace (x_disk (k_fs s')) = ws /\
  wp (initlog 1) (machine (cache_with buf0) empty_log (apply_writes small_disk (take 2 ws)))
    (fun _ r' => disk_read (x_disk (k_fs r')) 40 = new_block).
Proof.
  assert (log_layout 2 [40]) as LL.
  { constructor; [lia|vm_compute; discriminate|vm_compute; reflexivity|apply NoDup_singleton|].
    intros h ->%list_elem_of_singleton. unfold FSSIZE, LOGSIZE, MAXOPBLOCKS. lia. }
  assert (wp commit committing (fun _ s' => exists ws,
    d_trace (x_disk (k_fs s')) = d_trace small_disk ++ ws /\ (length [40] < length ws)%nat /\
    forall w1 w2 r, ws = w1 ++ w2 -> rebooted 0 cpu_proc r (apply_writes small_disk w1) ->
      wp (initlog 1) r (fun _ r' => lh_n (x_log (k_fs r')) = 0 /\ load32 (disk_read (x_disk (k_fs r')) 2) 0 = 0 /\
        forall b, ~ in_log 2 b -> disk_read (x_disk (k_fs r')) b =
          if decide (length w1 <= length [40])%nat then disk_read small_disk b else new_view b))) as H.
  { apply (commit_is_atomic 0 cpu_proc 0 cpu_proc 2 [40] committing new_view small_disk LL).
    - discriminate.
    - lia.
    - intros E%list_elem_of_singleton. discriminate E.
    - apply machine_env.
    - apply committing_blocks.
    - constructor; reflexivity.
    - reflexivity.
    - reflexivity. }
  destruct (wp_elim _ _ _ H) as ([] & s' & Hr & ws & Htr & Hlen & Hcrash). exists s', ws.
  split; [exact Hr|]. split; [exact Htr|].
  eapply wp_mono; [apply (Hcrash (take 2 ws) (drop 2 ws)); [symmetry; apply take_drop|apply machine_rebooted]|].
  cbn beta. intros [] r' (_ & _ & Hb). rewrite Hb by (unfold in_log, LOGSIZE, MAXOPBLOCKS; lia).
  cbn [length] in Hlen. rewrite length_take. rewrite decide_False by (cbn [length]; lia). reflexivity.
Defined.

End CrashWitness.
