(* ===== verification/Transaction.v ===== *)
(** Changing blocks inside a transaction: log_write and begin_op of src/src/log.c
    over the buffer cache. *)

From stdpp Require Import base gmap list strings.
From Stdlib Require Import ZArith Lia.
From S2P Require Import Prelude Mem Str Mmu State Kalloc MemTable MemList Vm Sched Fsys Bio Cache Log Crash.

(** Where the log is, and who is using it. *)
Record log_use := { lu_start : Z; lu_dev : Z; lu_outstanding : Z; lu_committing : bool }.
Definition use_of (l : log) : log_use :=
  {| lu_start := lg_start l; lu_dev := lg_dev l; lu_outstanding := lg_outstanding l; lu_committing := lg_committing l |}.

(** [T] are the blocks logged so far, in the order of the log. *)
Record logged (w : log_use) (l : log) (T : list Z) : Prop := {
  ld_lock : lg_lock l = false;
  ld_n : lh_n l = Z.of_nat (length T);
  ld_blocks : take (length T) (lh_block l) = T;
  ld_length : Z.of_nat (length (lh_block l)) = LOGSIZE;
  ld_size : lg_size l = LOGSIZE;
  ld_use : use_of l = w
}.

Definition log_more (T : list Z) (b : Z) : list Z := if decide (b ∈ T) then T else T ++ [b].

Section Transaction.
Context (p : nat) (pr : proc) (w : log_use).
Implicit Types (s : kernel) (V : Z -> mem) (d : disk) (T : list Z) (L : list (nat * Z)).

(** The state inside a transaction. *)
Record in_tx s V d T L : Prop := {
  tx_env : env s p pr;
  tx_blocks : blocks_at s V d (fun b => b ∈ T) L;
  tx_log : logged w (x_log (k_fs s)) T
}.

(** ** Finding a block in the log *)

Lemma lh_block_at s k b : lh_block (x_log (k_fs s)) !! k = Some b -> get_lh_block (Z.of_nat k) s = Ret b s.
Proof. intros H. unfold get_lh_block, get_log, fget, gets, bind. by rewrite Nat2Z.id, H. Qed.

Lemma log_find_eq s T b : logged w ((x_log (k_fs s)) <| lg_lock := false |>) T -> forall fuel k,
  (k + fuel = length T)%nat -> exists k', log_find fuel (Z.of_nat k) (Z.of_nat (length T)) b s = Ret (Z.of_nat k') s /\
    ((k' = length T /\ (forall j, (k <= j)%nat -> T !! j <> Some b)) \/ T !! k' = Some b).
Proof.
  intros Hl. pose proof (ld_blocks _ _ _ Hl) as HT. cbn in HT. induction fuel as [|fuel IH]; intros k Hk; cbn [log_find].
  - destruct (Z.ltb_spec (Z.of_nat k) (Z.of_nat (length T))); [lia|]. exists k. split; [done|]. left. split; [lia|].
    intros j Hj E. apply lookup_lt_Some in E. lia.
  - destruct (Z.ltb_spec (Z.of_nat k) (Z.of_nat (length T))); [|lia].
    assert (is_Some (T !! k)) as [c Hc] by (apply lookup_lt_is_Some; lia).
    assert (lh_block (x_log (k_fs s)) !! k = Some c) as Hb by (rewrite <- HT in Hc; by apply lookup_take_Some in Hc as [? _]).
    rewrite (bind_ret_eq _ _ _ _ _ (lh_block_at s k c Hb)). destruct (Z.eqb_spec c b) as [->|Hne].
    + exists k. split; [done|]. by right.
    + replace (Z.of_nat k + 1) with (Z.of_nat (S k)) by lia. destruct (IH (S k) ltac:(lia)) as (k' & E & H'). exists k'.
      split; [done|]. destruct H' as [[-> Hn]|?]; [left|by right]. split; [done|].
      intros j Hj. destruct (decide (j = k)) as [->|]; [congruence|apply Hn; lia].
Qed.

(** The log after log_write of the block [b]. *)
Lemma logged_more l T b k : logged w l T -> (k = length T /\ b ∉ T) \/ T !! k = Some b -> Z.of_nat (length T) < LOGSIZE ->
  let l1 := l <| lh_block ::= <[k := b]> |> in
  logged w (if Z.of_nat k =? lh_n l then l1 <| lh_n ::= fun n => n + 1 |> else l1) (log_more T b).
Proof.
  intros [H1 H2 H3 H4 H5 H6] Hk Hlen l1. unfold log_more. rewrite H2. destruct Hk as [[-> Hn]|Hk].
  - rewrite Z.eqb_refl, decide_False by done. constructor; cbn; try done.
    + rewrite H2, length_app. cbn. lia.
    + rewrite length_app. cbn. rewrite Nat.add_comm. cbn.
      rewrite (take_S_r _ _ b) by (apply list_lookup_insert_eq; lia). by rewrite take_insert_ge, H3.
    + by rewrite length_insert.
  - pose proof (lookup_lt_Some _ _ _ Hk). destruct (Z.eqb_spec (Z.of_nat k) (Z.of_nat (length T))); [lia|].
    rewrite decide_True by (by eapply list_elem_of_lookup_2).
    assert (lh_block l !! k = Some b) as Hb by (rewrite <- H3 in Hk; by apply lookup_take_Some in Hk as [? _]).
    assert (l1 = l) as -> by (unfold l1; destruct l; unfold upd; cbn in *; by rewrite list_insert_id). done.
Qed.

Lemma blocks_pin s V d T i b L : blocks_at s V d (fun b => b ∈ T) L -> (i, b) ∈ L ->
  exists bf, bc_buf (bc s) !! i = Some bf /\ b_blockno bf = b /\
    blocks_at (with_cache (set_buf (bc s) i (bf <| b_dirty := true |>)) s) V d (fun b' => b' ∈ log_more T b) L.
Proof.
  intros B Hin. destruct (held_entry _ _ _ _ _ _ _ B Hin) as (bf & H & EP & Hn & I & Hdata & Hheld & Hi).
  exists bf. pose proof Hn as (_ & Hdev & Hb). split; [done|]. split; [done|]. set (bf' := bf <| b_dirty := true |>).
  assert (held_buf bf') as Hh' by exact Hheld. assert (b_blockno bf' = b) as Hb' by exact Hb.
  pose proof (ba_disk _ _ _ _ _ B) as Hd. constructor; try done.
  - apply (cache_inv_perm _ _ (i :: H)); [by rewrite EP|]. by apply (held_inv _ d H i bf b I Hn).
  - intros b'. change (cur (set_buf (bc s) i bf') d b' = V b').
    rewrite (held_cur _ d H i bf b I Hn d bf' b' Hh' Hb') by done.
    case_decide as E; [rewrite E; exact Hdata|apply (ba_view _ _ _ _ _ B)].
  - intros b'. change (pinned (set_buf (bc s) i bf') b' <-> b' ∈ log_more T b).
    rewrite (held_pinned _ d H i bf b I Hn bf' b' Hh' Hb'). unfold log_more.
    destruct (decide (b' = b)) as [->|Hne].
    + split; [intros _|done]. case_decide; [done|]. apply elem_of_app. right. by left.
    + rewrite (ba_pin _ _ _ _ _ B b'). case_decide; [done|]. rewrite elem_of_app, list_elem_of_singleton. naive_solver.
  - intros j b' Hj. by eapply other_held.
Qed.

(** ** The rules inside a transaction *)

Lemma tx_bread s V d T L b : in_tx s V d T L -> b < FSSIZE -> b ∉ L.*2 -> (length T + length L < Z.to_nat NBUF)%nat ->
  wp (bread 1 b) s (fun i s' => in_tx s' V d T ((i, b) :: L) /\ same_files s s').
Proof.
  intros [E B G] Hb HL Hlen. eapply wp_mono; [apply (rule_bread p pr s V d _ L b E B Hb HL)|].
  - right. by exists T.
  - cbn beta. intros i s' [K B']. destruct (kept_files _ _ _ _ K) as [Hf Hlog]. split; [|done].
    constructor; [apply K|done|by rewrite Hlog].
Qed.

Lemma tx_data s V d T L i b : in_tx s V d T L -> (i, b) ∈ L -> buf_data i s = Ret (V b) s.
Proof. intros [E B G] Hin. by eapply rule_data. Qed.

Lemma tx_set_data s V d T L i b g : in_tx s V d T L -> (i, b) ∈ L ->
  wp (set_buf_data i g) s (fun _ s' => in_tx s' (upd_view V b (g (V b))) d T L /\ same_files s s').
Proof.
  intros [E B G] Hin. eapply wp_mono; [apply (rule_set_data p pr s V d _ L i b g E B Hin)|].
  cbn beta. intros [] s' [K B']. destruct (kept_files _ _ _ _ K) as [Hf Hlog]. split; [|done].
  constructor; [apply K|done|by rewrite Hlog].
Qed.

(** A held buffer is released when its block is logged or has not been changed. *)
Lemma tx_brelse s V d T i b L : in_tx s V d T ((i, b) :: L) -> b ∈ T \/ V b = disk_read d b ->
  wp (brelse i) s (fun _ s' => in_tx s' V d T L /\ same_files s s').
Proof.
  intros [E B G] Hc. eapply wp_mono; [by apply (rule_brelse p pr s V d _ _ i b L E B)|].
  cbn beta. intros [] s' [K B']. destruct (kept_files _ _ _ _ K) as [Hf Hlog]. split; [|done].
  constructor; [apply K|done|by rewrite Hlog].
Qed.

Lemma tx_clean s V d T L b : in_tx s V d T L -> b ∉ L.*2 -> b ∈ T \/ V b = disk_read d b.
Proof.
  intros [E B G] HL. destruct (decide (b ∈ T)) as [?|Hb]; [by left|right].
  rewrite <- (ba_view _ _ _ _ _ B). apply (cur_unpinned _ _ _ (ba_inv _ _ _ _ _ B)); [|by rewrite (ba_pin _ _ _ _ _ B)].
  intros i bf (Hi & Hd & Hn) [[j b'] [-> Hin]]%list_elem_of_fmap. destruct (ba_held _ _ _ _ _ B _ _ Hin) as (bf' & Hi' & _ & Hn').
  cbn [fst] in Hi. simplify_eq. apply HL, list_elem_of_fmap. by exists (j, b_blockno bf).
Qed.

Context (Hw : 1 <= lu_outstanding w).

Lemma tx_log_write s V d T L i b : in_tx s V d T L -> (i, b) ∈ L -> Z.of_nat (length T) < LOGSIZE - 1 ->
  wp (log_write i) s (fun _ s' => in_tx s' V d (log_more T b) L /\ same_files s s').
Proof.
  intros [E B G] Hin Hlen. destruct (blocks_pin s V d T i b L B Hin) as (bf & Hi & Hb & B').
  unfold log_write, get_log, fget. wp_steps. set (l := x_log (k_fs s)) in *.
  rewrite (ld_n _ _ _ G), (ld_size _ _ _ G). assert (1 <= lg_outstanding l) by (by rewrite <- (ld_use _ _ _ G) in Hw).
  destruct (Z.leb_spec LOGSIZE (Z.of_nat (length T))); [lia|].
  destruct (Z.leb_spec (LOGSIZE - 1) (Z.of_nat (length T))); [lia|]. cbn [orb].
  destruct (Z.ltb_spec (lg_outstanding l) 1); [lia|]. wp_steps.
  set (s1 := s <| k_fs ::= fun x => x <| x_log ::= fun l => l <| lg_lock := true |> |> |>).
  eapply wp_eq; [unfold log_acquire, facquire, acquire; fold l; rewrite (ld_lock _ _ _ G); reflexivity|]. fold s1. wp_steps.
  eapply wp_eq; [by apply get_buf_eq|]. rewrite Hb, Nat2Z.id. wp_steps.
  destruct (log_find_eq s1 T b) with (fuel := length T) (k := 0%nat) as (k & Ek & Hk); [|lia|].
  { change (x_log (k_fs s1)) with (l <| lg_lock := true |>). by destruct G. }
  eapply wp_eq; [exact Ek|]. wp_steps.
  assert ((k = length T /\ b ∉ T) \/ T !! k = Some b) as Hk'.
  { destruct Hk as [[-> Hn]|?]; [left|by right]. split; [done|]. intros [j Hj]%list_elem_of_lookup. by apply (Hn j); [lia|]. }
  pose proof (logged_more l T b k G Hk' ltac:(lia)) as G'. cbv zeta in G'. rewrite (ld_n _ _ _ G) in G'.
  unfold set_lh_block, get_log, fget, upd_log, fmod. wp_steps.
  destruct (Z.ltb_spec (Z.of_nat k) (Z.of_nat (length (lh_block (x_log (k_fs s1)))))) as [_|Hbad].
  2: { change (lh_block (x_log (k_fs s1))) with (lh_block l) in Hbad. rewrite (ld_length _ _ _ G) in Hbad.
       destruct Hk' as [[-> _]|?%lookup_lt_Some]; lia. }
  wp_steps. rewrite Nat2Z.id.
  destruct (Z.of_nat k =? Z.of_nat (length T)); unfold when; wp_steps;
    (eapply wp_eq; [by apply upd_buf_eq|]; eapply wp_eq; [reflexivity|]; split; [|done]; destruct G'; destruct E;
     destruct B'; constructor; by constructor).
Qed.

End Transaction.

(** ** Room in the log *)

Section Reservation.
Context (p : nat) (pr : proc) (w : log_use) (Hw : 1 <= lu_outstanding w).
Implicit Types (s : kernel) (V : Z -> mem) (d : disk) (T : list Z) (L : list (nat * Z)).

Abbreviation in_tx := (in_tx p pr w).

(** A log with nothing in it and nobody using it, of the size mkfs makes it. *)
Record log_idle (l : log) : Prop := {
  li_lock : lg_lock l = false;
  li_committing : lg_committing l = false;
  li_outstanding : lg_outstanding l = 0;
  li_n : lh_n l = 0;
  li_size : lg_size l = LOGSIZE;
  li_length : Z.of_nat (length (lh_block l)) = LOGSIZE
}.

Definition reserve (n : Z) s : kernel := with_log ((x_log (k_fs s)) <| lg_outstanding := n |>) s.

Lemma begin_op_eq s : lg_lock (x_log (k_fs s)) = false -> lg_committing (x_log (k_fs s)) = false ->
  lh_n (x_log (k_fs s)) + (lg_outstanding (x_log (k_fs s)) + 1) * MAXOPBLOCKS <= LOGSIZE ->
  begin_op s = Ret tt (reserve (lg_outstanding (x_log (k_fs s)) + 1) s).
Proof.
  intros H1 H2 H3. unfold reserve, with_log. destruct s as [? ? ? ? ? ? ? ? ? ? ? ? ? ? ? [? ? l]].
  destruct l as [l1 l2 l3 l4 l5 l6 l7 l8]. cbn in H1, H2, H3. subst l1 l5.
  unfold begin_op, log_acquire, facquire, get_log, fget, gets, bind. cbn.
  destruct (Z.ltb_spec LOGSIZE (l7 + (l4 + 1) * MAXOPBLOCKS)) as [Hbad|_]; [lia|]. done.
Qed.

(** What a file system call does to a block it changes, whatever the change. *)
Definition touch (b : Z) : M kernel unit :=
  i <- bread 1 b ;;
  log_write i ;;;
  brelse i.

Lemma log_room T : Z.of_nat (length T) < LOGSIZE -> (length T + 0 < Z.to_nat NBUF)%nat.
Proof. change LOGSIZE with 30. change (Z.to_nat NBUF) with 30%nat. lia. Qed.

Lemma touch_ok s V d T b : in_tx s V d T [] -> b < FSSIZE -> Z.of_nat (length T) < LOGSIZE - 1 ->
  wp (touch b) s (fun _ s' => in_tx s' V d (log_more T b) []).
Proof.
  intros Htx Hb Hlen. unfold touch. apply wp_bind.
  eapply wp_mono; [apply (tx_bread p pr w s V d T [] b Htx Hb); [apply not_elem_of_nil|apply log_room; lia]|].
  cbn beta. intros i s1 [Htx1 _]. apply wp_bind.
  eapply wp_mono; [apply (tx_log_write p pr w Hw s1 V d T [(i, b)] i b Htx1); [by left|done]|].
  cbn beta. intros [] s2 [Htx2 _]. eapply wp_mono; [apply (tx_brelse p pr w s2 V d (log_more T b) i b [] Htx2)|by intros [] s3 [? _]].
  left. unfold log_more. case_decide; [done|]. apply elem_of_app. right. by left.
Qed.

Lemma touch_full s V d T b : in_tx s V d T [] -> b < FSSIZE -> Z.of_nat (length T) = LOGSIZE - 1 ->
  touch b s = Panic "too big a transaction".
Proof.
  intros Htx Hb Hlen. unfold touch.
  destruct (wp_elim _ _ _ (tx_bread p pr w s V d T [] b Htx Hb (not_elem_of_nil _)
    (log_room T ltac:(lia)))) as (i & s1 & Eb & [_ _ G] & _).
  rewrite (bind_ret_eq _ _ _ _ _ Eb). unfold log_write, get_log, fget, gets, bind. rewrite (ld_n _ _ _ G), (ld_size _ _ _ G).
  destruct (Z.leb_spec (LOGSIZE - 1) (Z.of_nat (length T))); [|lia]. by rewrite orb_true_r.
Qed.

Lemma touch_all bs : forall s V d T, in_tx s V d T [] -> NoDup (T ++ bs) -> Forall (fun b => b < FSSIZE) bs ->
  Z.of_nat (length (T ++ bs)) <= LOGSIZE - 1 ->
  wp (for_each bs touch) s (fun _ s' => in_tx s' V d (T ++ bs) []).
Proof.
  induction bs as [|b bs IH]; intros s V d T Htx Hnd Hb Hlen; cbn [for_each].
  { rewrite app_nil_r. by wp_steps. }
  apply Forall_cons in Hb as [Hb Hbs]. rewrite length_app in Hlen. cbn in Hlen. apply wp_bind.
  eapply wp_mono; [apply (touch_ok s V d T b Htx Hb); lia|]. cbn beta. intros [] s1 Htx1.
  assert (b ∉ T) as Hn by (intros HT; apply NoDup_app in Hnd as (_ & Hd & _); by apply (Hd b HT); left).
  unfold log_more in Htx1. rewrite decide_False in Htx1 by done. rewrite cons_middle, app_assoc in Hnd |- *.
  apply (IH s1 V d (T ++ [b]) Htx1 Hnd Hbs). rewrite !length_app. cbn. lia.
Qed.

End Reservation.

Section Three.
Context (p : nat) (pr : proc).
Implicit Types (s : kernel) (V : Z -> mem) (d : disk).

(** Three operations are running. *)
Definition three (l : log) : log_use := {| lu_start := lg_start l; lu_dev := lg_dev l; lu_outstanding := 3; lu_committing := false |}.

(** Three operations may begin together. *)
Lemma three_begin s V d : env s p pr -> blocks_at s V d (fun b => b ∈ []) [] -> log_idle (x_log (k_fs s)) ->
  wp (begin_op ;;; begin_op ;;; begin_op) s (fun _ s' => in_tx p pr (three (x_log (k_fs s))) s' V d [] []).
Proof.
  intros E B [H1 H2 H3 H4 H5 H6]. unfold LOGSIZE, MAXOPBLOCKS in *.
  apply wp_bind. eapply wp_eq; [apply begin_op_eq; [done|done|by rewrite H3, H4]|]. rewrite H3.
  apply wp_bind. eapply wp_eq; [apply begin_op_eq; [done|done|cbn; by rewrite H4]|].
  eapply wp_eq; [apply begin_op_eq; [done|done|cbn; by rewrite H4]|].
  constructor; [by destruct E|by destruct B|]. constructor; cbn; try done. unfold use_of, three. cbn. by rewrite H2.
Qed.

(** C30. begin_op lets three operations run at once on an empty log and tells each that it may write
    MAXOPBLOCKS blocks; but log_write refuses the last entry of a log of the size mkfs gives it. So three
    operations within their allowance always get all their blocks logged when together they change fewer than
    LOGSIZE of them, and the kernel panics when each uses its whole allowance. *)
Theorem log_reservation s V d b1 b2 b3 :
  env s p pr -> blocks_at s V d (fun b => b ∈ []) [] -> log_idle (x_log (k_fs s)) ->
  NoDup (b1 ++ b2 ++ b3) -> Forall (fun b => b < FSSIZE) (b1 ++ b2 ++ b3) ->
  Z.of_nat (length b1) <= MAXOPBLOCKS -> Z.of_nat (length b2) <= MAXOPBLOCKS -> Z.of_nat (length b3) <= MAXOPBLOCKS ->
  let run := (begin_op ;;; begin_op ;;; begin_op) ;;; for_each b1 touch ;;; for_each b2 touch ;;; for_each b3 touch in
  if decide (Z.of_nat (length (b1 ++ b2 ++ b3)) < LOGSIZE)
  then wp run s (fun _ s' => in_tx p pr (three (x_log (k_fs s))) s' V d (b1 ++ b2 ++ b3) [] /\ lh_n (x_log (k_fs s')) = Z.of_nat (length (b1 ++ b2 ++ b3)))
  else run s = Panic "too big a transaction".
Proof.
  intros E B I Hnd Hb L1 L2 L3 run. assert (1 <= lu_outstanding (three (x_log (k_fs s)))) as three_open by done. set (bs := b1 ++ b2 ++ b3) in *.
  assert (forall s', (for_each b1 touch ;;; for_each b2 touch ;;; for_each b3 touch) s' = for_each bs touch s') as Hrun.
  { intros s'. unfold bs. rewrite for_each_app. unfold bind at 1 3. destruct (for_each b1 touch s'); try done.
    by rewrite for_each_app. }
  case_decide as Hlen.
  - apply wp_bind. eapply wp_mono; [apply (three_begin s V d E B I)|]. cbn beta. intros [] s1 Htx.
    unfold wp. rewrite Hrun. eapply wp_mono; [apply (touch_all p pr _ three_open bs s1 V d [] Htx Hnd Hb); cbn [app]; lia|].
    cbn beta. intros [] s2 Htx2. split; [done|]. apply (ld_n _ _ _ (tx_log _ _ _ _ _ _ _ _ Htx2)).
  - apply (bind_wp_panic _ _ _ _ _ (three_begin s V d E B I)). intros [] s1 Htx. rewrite Hrun.
    unfold LOGSIZE in Hlen. assert (length bs = 30)%nat as H30 by (unfold bs in *; rewrite !length_app in *; unfold MAXOPBLOCKS in *; lia).
    rewrite <- (take_drop 29 bs) in Hnd, Hb |- *. rewrite for_each_app.
    apply NoDup_app in Hnd as (Hnd & _). apply Forall_app in Hb as [Hb1 Hb2].
    destruct (drop 29 bs) as [|b rest] eqn:Ed; [apply (f_equal length) in Ed; rewrite length_drop in Ed; cbn in Ed; lia|].
    assert (length (take 29 bs) = 29)%nat as H29 by (rewrite length_take; lia).
    apply (bind_wp_panic _ _ _ _ _ (touch_all p pr _ three_open (take 29 bs) s1 V d [] Htx Hnd Hb1 ltac:(cbn [app]; rewrite H29; done))).
    intros [] s2 Htx2. cbn [for_each]. unfold bind. apply Forall_cons in Hb2 as [Hb2 _].
    by rewrite (touch_full p pr _ s2 V d _ b Htx2 Hb2) by (cbn [app]; rewrite H29; done).
Qed.

End Three.

Module TransactionWitness.
Import CrashWitness.

Definition idle_log : log := empty_log <| lg_start := 2 |> <| lg_size := 30 |> <| lg_dev := 1 |>.
Definition start : kernel := machine (cache_with buf0) idle_log small_disk.

(** Thirty blocks, ten for each of three operations, are one too many. *)
Lemma log_reservation_witness :
  ((begin_op ;;; begin_op ;;; begin_op) ;;; for_each (range 100 10) touch ;;; for_each (range 110 10) touch ;;;
    for_each (range 120 10) touch) start = Panic "too big a transaction".
Proof.
  apply (log_reservation 0 cpu_proc start (disk_read small_disk) small_disk (range 100 10) (range 110 10) (range 120 10)).
  - apply machine_env.
  - pose proof (rb_blocks _ _ _ _ (machine_rebooted small_disk)) as B.
    eapply (blocks_at_log _ _ _ _ _ idle_log), blocks_at_ext in B; [exact B|done|]. intros b. by rewrite elem_of_nil.
  - by constructor.
  - apply (bool_decide_unpack _). vm_compute. exact I.
  - apply (bool_decide_unpack _). vm_compute. exact I.
  - vm_compute. discriminate.
  - vm_compute. discriminate.
  - vm_compute. discriminate.
Defined.

End TransactionWitness.
