(* ===== verification/Inode.v ===== *)
(** Blocks and inodes, the first half of src/src/fs.c.

    The global superblock [sb] is [x_sb].  On disk an inode is 64 bytes: type,
    major, minor and nlink in two bytes each, size and thirteen block addresses
    in four. *)

From stdpp Require Import base gmap list strings.
From Stdlib Require Import ZArith Lia.
From S2P Require Import Prelude Mem Str Mmu State Kalloc MemTable Vm Sched Fsys Bio Log.

Definition i16 (z : Z) : Z := (z + 2 ^ 15) mod 2 ^ 16 - 2 ^ 15.

Definition get_sb : M kernel superblock := fget x_sb.

(** ** Blocks *)

Definition bzero (dev bno : Z) : M kernel unit :=
  bp <- bread dev bno ;;
  set_buf_data bp (fun m => memset m 0 0 BSIZE) ;;;
  log_write bp ;;;
  brelse bp.

(** The inner loop of balloc: the first clear bit from [bi] on. *)
Fixpoint balloc_scan (fuel : nat) (m : mem) (b bi size : Z) : option Z :=
  if (bi <? BPB) && (b + bi <? size) then
    match fuel with
    | O => None
    | S fuel =>
        if Z.land (load8 m (bi / 8)) (Z.shiftl 1 (bi mod 8)) =? 0 then Some bi
        else balloc_scan fuel m b (bi + 1) size
    end
  else None.

Fixpoint balloc_loop (fuel : nat) (dev b : Z) : M kernel Z :=
  sb <- get_sb ;;
  if b <? sb_size sb then
    match fuel with
    | O => no_fuel
    | S fuel =>
        bp <- bread dev (BBLOCK b sb) ;;
        m <- buf_data bp ;;
        match balloc_scan (Z.to_nat BPB) m b 0 (sb_size sb) with
        | Some bi =>
            set_buf_data bp (fun m => store8 m (bi / 8) (Z.lor (load8 m (bi / 8)) (Z.shiftl 1 (bi mod 8)))) ;;;
            log_write bp ;;;
            brelse bp ;;;
            bzero dev (b + bi) ;;;
            ret (b + bi)
        | None =>
            brelse bp ;;;
            balloc_loop fuel dev (b + BPB)
        end
    end
  else panic "balloc: out of blocks".

Definition balloc (dev : Z) : M kernel Z :=
  sb <- get_sb ;;
  balloc_loop (Z.to_nat (sb_size sb / BPB + 1)) dev 0.

Definition bfree (dev b : Z) : M kernel unit :=
  sb <- readsb dev ;;
  fmod (fun x => x <| x_sb := sb |>) ;;;
  bp <- bread dev (BBLOCK b sb) ;;
  let bi := b mod BPB in
  let m := Z.shiftl 1 (bi mod 8) in
  data <- buf_data bp ;;
  if Z.land (load8 data (bi / 8)) m =? 0 then panic "freeing free block"
  else
    set_buf_data bp (fun d => store8 d (bi / 8) (Z.land (load8 d (bi / 8)) (Z.lnot m))) ;;;
    log_write bp ;;;
    brelse bp.

(** ** Inodes *)

Definition inode0 : inode :=
  {| i_dev := 0; i_inum := 0; i_ref := 0; i_lock := initsleeplock; i_valid := false;
     i_type := 0; i_major := 0; i_minor := 0; i_nlink := 0; i_size := 0;
     i_addrs := replicate 13 0 |}.

Definition icache_acquire : M kernel unit :=
  facquire (fun x => ic_lock (x_icache x)) (fun b x => x <| x_icache ::= fun c => c <| ic_lock := b |> |>).
Definition icache_release : M kernel unit :=
  frelease (fun x => ic_lock (x_icache x)) (fun b x => x <| x_icache ::= fun c => c <| ic_lock := b |> |>).

Definition inode_lock (ip : nat) : M kernel sleeplock := x <- get_inode ip ;; ret (i_lock x).
Definition set_inode_lock (ip : nat) (l : sleeplock) : M kernel unit :=
  upd_inode ip (fun x => x <| i_lock := l |>).

Definition iinit (dev : Z) : M kernel unit :=
  fmod (fun x => x <| x_icache ::= fun c =>
    c <| ic_lock := false |> <| ic_inode ::= fmap (fun i => i <| i_lock := initsleeplock |>) |> |>) ;;;
  sb <- readsb dev ;;
  fmod (fun x => x <| x_sb := sb |>).

(** The inode cached for (dev, inum), and the first free entry. *)
Definition iget_cached (dev inum : Z) (l : list inode) : option nat :=
  fst <$> list_find (fun i => 0 < i_ref i /\ i_dev i = dev /\ i_inum i = inum) l.
Definition iget_empty (l : list inode) : option nat :=
  fst <$> list_find (fun i => i_ref i = 0) l.

Definition iget (dev inum : Z) : M kernel nat :=
  icache_acquire ;;;
  c <- fget x_icache ;;
  match iget_cached dev inum (ic_inode c) with
  | Some ip =>
      upd_inode ip (fun i => i <| i_ref ::= fun n => n + 1 |>) ;;;
      icache_release ;;;
      ret ip
  | None =>
      match iget_empty (ic_inode c) with
      | None => panic "iget: no inodes"
      | Some ip =>
          upd_inode ip (fun i => i <| i_dev := dev |> <| i_inum := inum |> <| i_ref := 1 |> <| i_valid := false |>) ;;;
          icache_release ;;;
          ret ip
      end
  end.

(** The byte offset of an inode in its block. *)
Definition dinode_off (inum : Z) : Z := (inum mod IPB) * DINODE_SIZE.

Fixpoint ialloc_loop (fuel : nat) (dev type inum : Z) : M kernel nat :=
  sb <- get_sb ;;
  if inum <? sb_ninodes sb then
    match fuel with
    | O => no_fuel
    | S fuel =>
        bp <- bread dev (IBLOCK inum sb) ;;
        m <- buf_data bp ;;
        let dip := dinode_off inum in
        if i16 (load16 m dip) =? 0 then
          set_buf_data bp (fun m => store16 (memset m dip 0 DINODE_SIZE) dip type) ;;;
          log_write bp ;;;
          brelse bp ;;;
          iget dev inum
        else
          brelse bp ;;;
          ialloc_loop fuel dev type (inum + 1)
    end
  else panic "ialloc: no inodes".

Definition ialloc (dev type : Z) : M kernel nat :=
  sb <- get_sb ;;
  ialloc_loop (Z.to_nat (sb_ninodes sb)) dev type 1.

Fixpoint store_words (m : mem) (a : Z) (l : list Z) : mem :=
  match l with
  | [] => m
  | x :: l => store_words (store32 m a x) (a + 4) l
  end.
Fixpoint load_words (m : mem) (a : Z) (n : nat) : list Z :=
  match n with
  | O => []
  | S n => load32 m a :: load_words m (a + 4) n
  end.

(** [dip] takes the fields of the inode. *)
Definition dinode_store (m : mem) (dip : Z) (i : inode) : mem :=
  let m := store16 m dip (i_type i) in
  let m := store16 m (dip + 2) (i_major i) in
  let m := store16 m (dip + 4) (i_minor i) in
  let m := store16 m (dip + 6) (i_nlink i) in
  let m := store32 m (dip + 8) (i_size i) in
  store_words m (dip + 12) (i_addrs i).

Definition iupdate (ip : nat) : M kernel unit :=
  i <- get_inode ip ;;
  sb <- get_sb ;;
  bp <- bread (i_dev i) (IBLOCK (i_inum i) sb) ;;
  set_buf_data bp (fun m => dinode_store m (dinode_off (i_inum i)) i) ;;;
  log_write bp ;;;
  brelse bp.

Definition idup (ip : nat) : M kernel nat :=
  icache_acquire ;;;
  upd_inode ip (fun i => i <| i_ref ::= fun n => n + 1 |>) ;;;
  icache_release ;;;
  ret ip.

(** The fields of [dip]. *)
Definition dinode_load (m : mem) (dip : Z) (i : inode) : inode :=
  i <| i_type := i16 (load16 m dip) |>
    <| i_major := i16 (load16 m (dip + 2)) |>
    <| i_minor := i16 (load16 m (dip + 4)) |>
    <| i_nlink := i16 (load16 m (dip + 6)) |>
    <| i_size := load32 m (dip + 8) |>
    <| i_addrs := load_words m (dip + 12) 13 |>.

(** [None] is a null pointer. *)
Definition ilock (oip : option nat) : M kernel unit :=
  match oip with
  | None => panic "ilock"
  | Some ip =>
      i <- get_inode ip ;;
      if i_ref i <? 1 then panic "ilock"
      else
        acquiresleep (inode_chan ip) (inode_lock ip) (set_inode_lock ip) ;;;
        i <- get_inode ip ;;
        when (negb (i_valid i))
          (sb <- get_sb ;;
           bp <- bread (i_dev i) (IBLOCK (i_inum i) sb) ;;
           m <- buf_data bp ;;
           upd_inode ip (dinode_load m (dinode_off (i_inum i))) ;;;
           brelse bp ;;;
           upd_inode ip (fun i => i <| i_valid := true |>) ;;;
           i <- get_inode ip ;;
           when (i_type i =? 0) (panic "ilock: no type"))
  end.

Definition iunlock (oip : option nat) : M kernel unit :=
  match oip with
  | None => panic "iunlock"
  | Some ip =>
      held <- holdingsleep (inode_lock ip) ;;
      i <- get_inode ip ;;
      if negb held || (i_ref i <? 1) then panic "iunlock"
      else releasesleep (inode_chan ip) (set_inode_lock ip)
  end.

(** [ip->addrs[k]] *)
Definition inode_addr (ip : nat) (k : Z) : M kernel Z :=
  i <- get_inode ip ;;
  ret (default 0 (i_addrs i !! Z.to_nat k)).
Definition set_inode_addr (ip : nat) (k v : Z) : M kernel unit :=
  upd_inode ip (fun i => i <| i_addrs ::= <[Z.to_nat k := v]> |>).

Definition itrunc (ip : nat) : M kernel unit :=
  i <- get_inode ip ;;
  for_each (range 0 (Z.to_nat NDIRECT)) (fun k =>
    a <- inode_addr ip k ;;
    when (negb (a =? 0))
      (bfree (i_dev i) a ;;;
       set_inode_addr ip k 0)) ;;;
  ind <- inode_addr ip NDIRECT ;;
  when (negb (ind =? 0))
    (bp <- bread (i_dev i) ind ;;
     for_each (range 0 (Z.to_nat NINDIRECT)) (fun j =>
       m <- buf_data bp ;;
       when (negb (load32 m (4 * j) =? 0)) (bfree (i_dev i) (load32 m (4 * j)))) ;;;
     brelse bp ;;;
     bfree (i_dev i) ind ;;;
     set_inode_addr ip NDIRECT 0) ;;;
  upd_inode ip (fun i => i <| i_size := 0 |>) ;;;
  iupdate ip.

Definition iput (ip : nat) : M kernel unit :=
  acquiresleep (inode_chan ip) (inode_lock ip) (set_inode_lock ip) ;;;
  i <- get_inode ip ;;
  when (i_valid i && (i_nlink i =? 0))
    (icache_acquire ;;;
     j <- get_inode ip ;;
     icache_release ;;;
     when (i_ref j =? 1)
       (itrunc ip ;;;
        upd_inode ip (fun i => i <| i_type := 0 |>) ;;;
        iupdate ip ;;;
        upd_inode ip (fun i => i <| i_valid := false |>))) ;;;
  releasesleep (inode_chan ip) (set_inode_lock ip) ;;;
  icache_acquire ;;;
  upd_inode ip (fun i => i <| i_ref ::= fun n => n - 1 |>) ;;;
  icache_release.

Definition iunlockput (ip : nat) : M kernel unit :=
  iunlock (Some ip) ;;;
  iput ip.

(** The disk block of the [bn]th block of a file, allocated if it has none. *)
Definition bmap (ip : nat) (bn : Z) : M kernel Z :=
  i <- get_inode ip ;;
  if bn <? NDIRECT then
    addr <- inode_addr ip bn ;;
    if addr =? 0 then
      addr <- balloc (i_dev i) ;;
      set_inode_addr ip bn addr ;;;
      ret addr
    else ret addr
  else
    let bn := bn - NDIRECT in
    if bn <? NINDIRECT then
      ind <- inode_addr ip NDIRECT ;;
      ind <- (if ind =? 0 then
                addr <- balloc (i_dev i) ;;
                set_inode_addr ip NDIRECT addr ;;;
                ret addr
              else ret ind) ;;
      bp <- bread (i_dev i) ind ;;
      m <- buf_data bp ;;
      addr <- (if load32 m (4 * bn) =? 0 then
                 addr <- balloc (i_dev i) ;;
                 set_buf_data bp (fun m => store32 m (4 * bn) addr) ;;;
                 log_write bp ;;;
                 ret addr
               else ret (load32 m (4 * bn))) ;;
      brelse bp ;;;
      ret addr
    else panic "bmap: out of range".

Record stat := { st_type : Z; st_dev : Z; st_ino : Z; st_nlink : Z; st_size : Z }.

Definition stati (ip : nat) : M kernel stat :=
  i <- get_inode ip ;;
  ret {| st_type := i_type i; st_dev := i_dev i; st_ino := i_inum i;
         st_nlink := i_nlink i; st_size := i_size i |}.
