(* ===== verification/Alloc.v ===== *)
(** The allocation of disk blocks inside a transaction: bzero and balloc of
    src/src/fs.c over the bitmap block. *)

From stdpp Require Import base gmap list strings.
From Stdlib Require Import ZArith Lia.
From S2P Require Import Prelude Mem Str Mmu State Kalloc MemTable Vm Sched Fsys Bio Cache Log Crash Transaction Inode.

(** ** Bits of a block *)

Definition bit (m : mem) (b : Z) : bool := Z.testbit (load8 m (b / 8)) (b mod 8).
Definition set_bit (m : mem) (b : Z) : mem :=
  store8 m (b / 8) (Z.lor (load8 m (b / 8)) (Z.shiftl 1 (b mod 8))).

Lemma mask_testbit x k : 0 <= k -> (Z.land x (Z.shiftl 1 k) =? 0) = negb (Z.testbit x k).
Proof.
  intros Hk. rewrite Z.shiftl_1_l. destruct (Z.eqb_spec (Z.land x (2 ^ k)) 0) as [E|E].
  - apply (f_equal (fun z => Z.testbit z k)) in E.
    rewrite Z.land_spec, Z.pow2_bits_true, andb_true_r, Z.bits_0 in E by done. by rewrite E.
  - destruct (Z.testbit x k) eqn:Ht; [done|]. destruct E. apply Z.bits_inj_0. intros n.
    rewrite Z.land_spec, Z.pow2_bits_eqb by done. destruct (Z.eqb_spec k n) as [->|]; [by rewrite Ht|apply andb_false_r].
Qed.

Lemma bit_set_bit m b c : bit (set_bit m b) c = (c =? b) || bit m c.
Proof.
  unfold bit, set_bit. rewrite load8_store8. destruct (Z.eqb_spec c b) as [->|Hne].
  - rewrite decide_True by done. change 256 with (2 ^ 8).
    rewrite Z.mod_pow2_bits_low, Z.lor_spec, Z.shiftl_1_l, Z.pow2_bits_true by (pose proof (Z.mod_pos_bound b 8); lia).
    apply orb_true_r.
  - case_decide as E; [|done]. rewrite <- E. change 256 with (2 ^ 8).
    pose proof (Z.mod_pos_bound b 8 ltac:(lia)). pose proof (Z.mod_pos_bound c 8 ltac:(lia)).
    rewrite Z.mod_pow2_bits_low, Z.lor_spec, Z.shiftl_1_l, Z.pow2_bits_false by
      (try lia; intros E2; apply Hne; rewrite (Z.div_mod c 8), (Z.div_mod b 8) by lia; congruence).
    apply orb_false_r.
Qed.

(** The inner loop of balloc finds the first clear bit. *)
Lemma balloc_scan_first m size : forall fuel bi c, 0 <= bi <= c -> c < BPB -> c < size -> bit m c = false ->
  c < bi + Z.of_nat fuel -> exists r, balloc_scan fuel m 0 bi size = Some r /\ bi <= r <= c /\ bit m r = false.
Proof.
  induction fuel as [|fuel IH]; intros bi c Hbi HB Hs Hc Hf; [lia|]. cbn [balloc_scan].
  destruct (Z.ltb_spec bi BPB); [|lia]. destruct (Z.ltb_spec (0 + bi) size); [|lia]. cbn [andb].
  rewrite mask_testbit by (apply Z.mod_pos_bound; lia). fold (bit m bi). destruct (bit m bi) eqn:Eb; cbn [negb].
  - destruct (decide (bi = c)) as [->|]; [congruence|]. destruct (IH (bi + 1) c) as (r & ? & ? & ?); try done; try lia.
    exists r. split_and!; [done|lia|lia|done].
  - exists bi. split_and!; [done|lia|lia|done].
Qed.

(** When no bit is clear, the loop ends without one. *)
Lemma balloc_scan_full m size : forall fuel bi, 0 <= bi -> (forall c, bi <= c < size -> c < BPB -> bit m c = true) ->
  BPB <= bi + Z.of_nat fuel -> balloc_scan fuel m 0 bi size = None.
Proof.
  induction fuel as [|fuel IH]; intros bi Hbi Hall Hf; cbn [balloc_scan].
  - destruct (Z.ltb_spec bi BPB); [lia|done].
  - destruct (Z.ltb_spec bi BPB); [|done]. destruct (Z.ltb_spec (0 + bi) size); [|done]. cbn [andb].
    rewrite mask_testbit by (apply Z.mod_pos_bound; lia). fold (bit m bi). rewrite Hall by lia. cbn [negb].
    apply IH; [lia| |lia]. intros c Hc. apply Hall. lia.
Qed.

(** ** The bitmap *)

Section Alloc.
Context (sb : superblock).
Implicit Types (V : Z -> mem).

Abbreviation bm := (sb_bmapstart sb).

(** The block [b] is marked in the bitmap. *)
Definition used V (b : Z) : Prop := bit (V bm) b = true.

#[export] Instance used_dec V b : Decision (used V b).
Proof. unfold used. apply _. Defined.

Definition free_list V : list Z := filter (fun b => ~ used V b) (range 0 (Z.to_nat (sb_size sb))).
Definition free_count V : nat := length (free_list V).

(** A disk of at most FSSIZE blocks, whose one bitmap block marks everything up to itself: boot block,
    superblock, log and inodes, as mkfs lays them out. *)
Record bitmap_ok V : Prop := {
  bo_size : sb_size sb <= FSSIZE;
  bo_bm : 0 < bm < sb_size sb;
  bo_meta : forall c, 0 <= c <= bm -> used V c
}.

(** The blocks after balloc has given out [b]: marked, and all zeros. *)
Definition alloc_view V (b : Z) : Z -> mem :=
  upd_view (upd_view V bm (set_bit (V bm) b)) b (memset (V b) 0 0 BSIZE).

Lemma alloc_view_bm V b : b <> bm -> alloc_view V b bm = set_bit (V bm) b.
Proof. intros. unfold alloc_view, upd_view. by rewrite decide_False, decide_True. Qed.

Lemma alloc_view_ne V b c : c <> bm -> c <> b -> alloc_view V b c = V c.
Proof. intros. unfold alloc_view, upd_view. by rewrite !decide_False. Qed.

Lemma alloc_view_zero V b k : 0 <= k < BSIZE -> load8 (alloc_view V b b) k = 0.
Proof.
  intros Hk. unfold alloc_view, upd_view. rewrite decide_True by done. rewrite load8_memset by (unfold BSIZE; lia).
  case_decide; [done|lia].
Qed.

Lemma used_alloc V b c : b <> bm -> used (alloc_view V b) c <-> c = b \/ used V c.
Proof. intros Hb. unfold used. rewrite alloc_view_bm, bit_set_bit, orb_true_iff, Z.eqb_eq by done. done. Qed.

Lemma bitmap_ok_alloc V b : bitmap_ok V -> ~ used V b -> bitmap_ok (alloc_view V b).
Proof.
  intros [H1 H2 H3] Hb. assert (b <> bm) by (intros ->; apply Hb, H3; lia).
  constructor; [done|done|]. intros c Hc. apply used_alloc; auto.
Qed.

Lemma free_list_elem V b : b ∈ free_list V <-> ~ used V b /\ 0 <= b < sb_size sb.
Proof. unfold free_list. rewrite list_elem_of_filter, elem_of_range. split; intros [? ?]; (split; [done|lia]). Qed.

Lemma free_list_NoDup V : NoDup (free_list V).
Proof. apply NoDup_filter, NoDup_range. Qed.

Lemma free_count_ext V V' : V' bm = V bm -> free_count V' = free_count V.
Proof. intros E. unfold free_count, free_list. f_equal. apply list_filter_iff. intros c. unfold used. by rewrite E. Qed.

Lemma free_alloc V b : b <> bm -> ~ used V b -> 0 <= b < sb_size sb -> free_count V = S (free_count (alloc_view V b)).
Proof.
  intros Hbm Hu Hb. unfold free_count. change (S (length ?l)) with (length (b :: l)). apply Permutation_length, NoDup_Permutation.
  - apply free_list_NoDup.
  - apply NoDup_cons. split; [|apply free_list_NoDup]. rewrite free_list_elem, used_alloc by done. tauto.
  - intros c. rewrite elem_of_cons, !free_list_elem, used_alloc by done. destruct (decide (c = b)) as [->|]; tauto.
Qed.

Lemma free_exists V : (0 < free_count V)%nat -> exists b, ~ used V b /\ 0 <= b < sb_size sb.
Proof.
  unfold free_count. destruct (free_list V) as [|b l] eqn:E; cbn; [lia|]. intros _. exists b. apply free_list_elem. rewrite E. by left.
Qed.

End Alloc.

(** ** The block layer under a file system call *)

Section Blocks.
Context (p : nat) (pr : proc) (w : log_use).
Implicit Types (s : kernel) (x : fsys) (V : Z -> mem) (d : disk) (T : list Z) (L : list (nat * Z)).

(** The state inside a transaction, with the inodes, files and superblock of [x]. *)
Record fs_at s x V d T L : Prop := {
  fa_tx : in_tx p pr w s V d T L;
  fa_files : files (k_fs s) = files x
}.

(** There is room for one more block in log and cache. *)
Definition room T : Prop := Z.of_nat (length T) < LOGSIZE - 1.

Lemma at_bread s x V d T L b : fs_at s x V d T L -> b < FSSIZE -> b ∉ L.*2 -> room T -> (length L <= 1)%nat ->
  wp (bread 1 b) s (fun i s' => fs_at s' x V d T ((i, b) :: L)).
Proof.
  intros [Htx Hf] Hb HL HT Hlen. eapply wp_mono; [apply (tx_bread p pr w s V d T L b Htx Hb HL)|].
  - unfold room in HT. change LOGSIZE with 30 in HT. change (Z.to_nat NBUF) with 30%nat. lia.
  - cbn beta. intros i s' [? E]. split; [done|]. by rewrite E.
Qed.

Lemma at_data s x V d T L i b : fs_at s x V d T L -> (i, b) ∈ L -> buf_data i s = Ret (V b) s.
Proof. intros [Htx _] Hin. by eapply tx_data. Qed.

Lemma at_set_data s x V d T L i b g : fs_at s x V d T L -> (i, b) ∈ L ->
  wp (set_buf_data i g) s (fun _ s' => fs_at s' x (upd_view V b (g (V b))) d T L).
Proof.
  intros [Htx Hf] Hin. eapply wp_mono; [apply (tx_set_data p pr w s V d T L i b g Htx Hin)|].
  cbn beta. intros [] s' [? E]. split; [done|]. by rewrite E.
Qed.

Lemma at_brelse s x V d T i b L : fs_at s x V d T ((i, b) :: L) -> b ∈ T \/ V b = disk_read d b ->
  wp (brelse i) s (fun _ s' => fs_at s' x V d T L).
Proof.
  intros [Htx Hf] Hin. eapply wp_mono; [apply (tx_brelse p pr w s V d T i b L Htx Hin)|].
  cbn beta. intros [] s' [? E]. split; [done|]. by rewrite E.
Qed.

Context (Hw : 1 <= lu_outstanding w).

Lemma at_log_write s x V d T L i b : fs_at s x V d T L -> (i, b) ∈ L -> room T ->
  wp (log_write i) s (fun _ s' => fs_at s' x V d (log_more T b) L).
Proof.
  intros [Htx Hf] Hin HT. eapply wp_mono; [apply (tx_log_write p pr w Hw s V d T L i b Htx Hin HT)|].
  cbn beta. intros [] s' [? E]. split; [done|]. by rewrite E.
Qed.

Lemma at_clean s x V d T L b : fs_at s x V d T L -> b ∉ L.*2 -> b ∈ T \/ V b = disk_read d b.
Proof. intros [Htx _]. by eapply tx_clean. Qed.

Lemma log_more_elem T b c : c ∈ log_more T b <-> c = b \/ c ∈ T.
Proof. unfold log_more. case_decide; [naive_solver|]. rewrite elem_of_app, list_elem_of_singleton. tauto. Qed.

Lemma log_more_NoDup T b : NoDup T -> NoDup (log_more T b).
Proof.
  intros H. unfold log_more. case_decide; [done|]. apply NoDup_app. split_and!; [done| |apply NoDup_singleton].
  by intros c Hc ->%list_elem_of_singleton.
Qed.

Lemma log_more_length T b : (length (log_more T b) <= S (length T))%nat.
Proof. unfold log_more. case_decide; [lia|]. rewrite length_app. cbn. lia. Qed.

Lemma log_more_room T b : room (log_more T b) -> room T.
Proof. unfold room, log_more. case_decide; [done|]. rewrite length_app. lia. Qed.

Lemma log_more_in T b : b ∈ T -> log_more T b = T.
Proof. intros. unfold log_more. by rewrite decide_True. Qed.

(** Changing one block: read, change, log, release. *)
Lemma at_rewrite s x V d T L b g : fs_at s x V d T L -> b < FSSIZE -> b ∉ L.*2 -> room T -> (length L <= 1)%nat ->
  wp (i <- bread 1 b ;; set_buf_data i g ;;; log_write i ;;; brelse i) s
    (fun _ s' => fs_at s' x (upd_view V b (g (V b))) d (log_more T b) L).
Proof.
  intros A Hb HL HT Hlen. apply wp_bind. eapply wp_mono; [by apply (at_bread s x V d T L b A)|]. cbn beta. intros i s1 A1.
  apply wp_bind. eapply wp_mono; [apply (at_set_data s1 _ _ _ _ _ i b g A1); by left|]. cbn beta. intros [] s2 A2.
  apply wp_bind. eapply wp_mono; [apply (at_log_write s2 _ _ _ _ _ i b A2); [by left|done]|]. cbn beta. intros [] s3 A3.
  eapply wp_mono; [apply (at_brelse s3 _ _ _ _ i b L A3); left; apply log_more_elem; by left|done].
Qed.

Lemma at_sb s x V d T L : fs_at s x V d T L -> get_sb s = Ret (x_sb x) s.
Proof. intros [_ Hf]. unfold get_sb, fget, gets. by injection Hf as _ _ -> _. Qed.

Lemma at_inode s x V d T L ip i : fs_at s x V d T L -> ic_inode (x_icache x) !! ip = Some i -> get_inode ip s = Ret i s.
Proof. intros [_ Hf] Hi. unfold get_inode, tget. injection Hf as -> _ _ _. by rewrite Hi. Qed.

Definition put_inode (ip : nat) (i : inode) x : fsys := x <| x_icache ::= fun c => c <| ic_inode ::= <[ip := i]> |> |>.

Lemma put_lookup ip i j x : ic_inode (x_icache x) !! ip = Some i -> ic_inode (x_icache (put_inode ip j x)) !! ip = Some j.
Proof. intros H%lookup_lt_Some. by apply list_lookup_insert_eq. Qed.

Lemma put_same ip i x : ic_inode (x_icache x) !! ip = Some i -> files (put_inode ip i x) = files x.
Proof. intros H. destruct x as [? ? ? ? [? ?]]. unfold files, put_inode. cbn in *. by rewrite list_insert_id. Qed.

Lemma at_put s x V d T L ip i : fs_at s x V d T L -> ic_inode (x_icache x) !! ip = Some i -> fs_at s (put_inode ip i x) V d T L.
Proof. intros [Htx Hf] H. split; [done|]. by rewrite put_same. Qed.

Lemma put_put ip i j x : put_inode ip i (put_inode ip j x) = put_inode ip i x.
Proof. destruct x as [? ? ? ? [? ?]]. unfold put_inode. cbn. by rewrite list_insert_insert_eq. Qed.

Lemma alter_put {A} (g : A -> A) (l : list A) k a : l !! k = Some a -> alter g k l = <[k := g a]> l.
Proof.
  intros H. apply list_eq. intros j. destruct (decide (j = k)) as [->|Hne].
  - rewrite list_lookup_alter_eq, H, list_lookup_insert_eq by (by eapply lookup_lt_Some). done.
  - by rewrite list_lookup_alter_ne, list_lookup_insert_ne by done.
Qed.

Lemma at_upd_inode s x V d T L ip i g : fs_at s x V d T L -> ic_inode (x_icache x) !! ip = Some i ->
  wp (upd_inode ip g) s (fun _ s' => fs_at s' (put_inode ip (g i) x) V d T L).
Proof.
  intros A Hi. unfold upd_inode. apply wp_bind. eapply wp_eq; [by eapply at_inode|].
  eapply wp_eq; [reflexivity|]. destruct A as [[E B G] Hf]. split.
  - split; [by destruct E|by destruct B|by destruct G].
  - unfold files in *. cbn. injection Hf as -> -> -> ->. by rewrite (alter_put _ _ _ _ Hi).
Qed.

(** ** balloc *)

Lemma bzero_ok s x V d T L b : fs_at s x V d T L -> b < FSSIZE -> b ∉ L.*2 -> room T -> (length L <= 1)%nat ->
  wp (bzero 1 b) s (fun _ s' => fs_at s' x (upd_view V b (memset (V b) 0 0 BSIZE)) d (log_more T b) L).
Proof. apply at_rewrite. Qed.

(** balloc gives out a block that was free, marks it and clears it. *)
Lemma balloc_ok s x V d T L : let sb := x_sb x in fs_at s x V d T L -> bitmap_ok sb V -> (0 < free_count sb V)%nat ->
  room (log_more T (sb_bmapstart sb)) -> (length L <= 1)%nat -> (forall b, b ∈ L.*2 -> used sb V b /\ b <> sb_bmapstart sb) ->
  wp (balloc 1) s (fun b s' => sb_bmapstart sb < b < sb_size sb /\ ~ used sb V b /\
    fs_at s' x (alloc_view sb V b) d (log_more (log_more T (sb_bmapstart sb)) b) L).
Proof.
  intros sb A [Hs Hbm Hu] Hfree HT' HL Hheld. pose proof (log_more_room _ _ HT') as HT. unfold balloc. apply wp_bind. eapply wp_eq; [by eapply at_sb|]. fold sb.
  unfold FSSIZE in Hs. rewrite Z.div_small by (unfold BPB, BSIZE; lia). change (Z.to_nat (0 + 1)) with 1%nat. cbn [balloc_loop].
  apply wp_bind. eapply wp_eq; [by eapply at_sb|]. fold sb. destruct (Z.ltb_spec 0 (sb_size sb)); [|lia].
  change (BBLOCK 0 sb) with (sb_bmapstart sb). apply wp_bind.
  eapply wp_mono; [apply (at_bread s x V d T L _ A); [unfold FSSIZE; lia|by intros [? ?]%Hheld|done|done]|].
  cbn beta. intros i s1 A1. apply wp_bind. eapply wp_eq; [eapply at_data; [exact A1|by left]|].
  destruct (free_exists sb V Hfree) as (c & Hc & Hcb). apply not_true_is_false in Hc.
  destruct (balloc_scan_first (V (sb_bmapstart sb)) (sb_size sb) (Z.to_nat BPB) 0 c) as (b & -> & Hb & Hbit); try done;
    try (unfold BPB, BSIZE; lia). rewrite Z.add_0_l.
  assert (~ used sb V b) as Hnu by (unfold used; by rewrite Hbit). assert (sb_bmapstart sb < b) as Hlt by (apply Z.nle_gt; intros ?; apply Hnu, Hu; lia).
  assert (b <> sb_bmapstart sb) as Hne by lia. apply wp_bind.
  eapply wp_mono; [apply (at_set_data s1 _ _ _ _ _ i (sb_bmapstart sb) _ A1); by left|]. cbn beta. intros [] s2 A2. apply wp_bind.
  eapply wp_mono; [apply (at_log_write s2 _ _ _ _ _ i (sb_bmapstart sb) A2); [by left|done]|]. cbn beta. intros [] s3 A3.
  apply wp_bind. eapply wp_mono; [apply (at_brelse s3 _ _ _ _ i (sb_bmapstart sb) L A3); left; apply log_more_elem; by left|].
  cbn beta. intros [] s4 A4. apply wp_bind.
  eapply wp_mono; [apply (bzero_ok s4 _ _ _ _ L b A4); [unfold FSSIZE; lia|by intros [? _]%Hheld|done|done]|].
  cbn beta. intros [] s5 A5. wp_steps. split_and!; [lia|lia|done|]. unfold alloc_view, set_bit.
  match type of A5 with fs_at _ _ (upd_view ?U b _) _ _ _ => assert (U b = V b) as Ev by (unfold upd_view; by rewrite decide_False) end.
  by rewrite Ev in A5.
Qed.

End Blocks.
