(* ===== verification/FileData.v ===== *)
(** The contents of a file as the blocks on disk define them, and how they grow:
    the inode's direct blocks and its indirect block, src/src/fs.h and fs.c. *)

From stdpp Require Import base gmap list strings.
From Stdlib Require Import ZArith Lia.
From S2P Require Import Prelude Mem Str Mmu State Kalloc MemTable Vm Sched Fsys Bio Cache Log Crash Transaction Inode Alloc.

(** A place of a file that can hold a block address: a block number, or the indirect block. *)
Abbreviation place := (option Z).
Definition valid_place (pl : place) : Prop :=
  match pl with
  | Some bn => 0 <= bn < MAXFILE
  | None => True
  end.

Definition indirect (i : inode) : Z := default 0 (i_addrs i !! Z.to_nat NDIRECT).

Definition block_of (V : Z -> mem) (i : inode) (bn : Z) : Z :=
  if bn <? NDIRECT then default 0 (i_addrs i !! Z.to_nat bn)
  else if indirect i =? 0 then 0
  else load32 (V (indirect i)) (4 * (bn - NDIRECT)).

Definition at_place (V : Z -> mem) (i : inode) (pl : place) : Z :=
  match pl with
  | Some bn => block_of V i bn
  | None => indirect i
  end.

Definition file_byte (V : Z -> mem) (i : inode) (off : Z) : Z :=
  load8 (V (block_of V i (off / BSIZE))) (off mod BSIZE).
Definition file_bytes (V : Z -> mem) (i : inode) (off : Z) (n : nat) : list Z := file_byte V i <$> range off n.
Definition contents (V : Z -> mem) (i : inode) : list Z := file_bytes V i 0 (Z.to_nat (i_size i)).

(** ** Inodes on disk *)

Lemma load16_ext m m' a : (forall b, a <= b < a + 2 -> load8 m b = load8 m' b) -> load16 m a = load16 m' a.
Proof. intros H. unfold load16. by rewrite !H by lia. Qed.

Lemma load16_store16 m a v : - 2 ^ 15 <= v < 2 ^ 15 -> i16 (load16 (store16 m a v) a) = v.
Proof.
  intros Hv. unfold load16, store16. rewrite !load8_store8. repeat (case_decide; try lia). unfold i16.
  change (2 ^ 15) with 32768 in *. change (2 ^ 16) with 65536. dlia.
Qed.

Lemma load8_store_words_ne l : forall m a b, b < a \/ a + 4 * Z.of_nat (length l) <= b -> load8 (store_words m a l) b = load8 m b.
Proof.
  induction l as [|v l IH]; intros m a b Hb; cbn [store_words length] in *; [done|].
  rewrite IH by lia. apply load8_store32_ne. lia.
Qed.

Lemma load_store_words l : forall m a, Forall (fun v => 0 <= v < 2 ^ 32) l -> load_words (store_words m a l) a (length l) = l.
Proof.
  induction l as [|v l IH]; intros m a Hl; [done|]. apply Forall_cons in Hl as [Hv Hl]. cbn [store_words load_words length].
  rewrite IH by done. f_equal. rewrite (load32_ext _ (store32 m a v)); [by apply load32_store32_eq|].
  intros b Hb. apply load8_store_words_ne. lia.
Qed.

Lemma load_words_ext n : forall m m' a, (forall b, a <= b < a + 4 * Z.of_nat n -> load8 m b = load8 m' b) -> load_words m a n = load_words m' a n.
Proof.
  induction n as [|n IH]; intros m m' a H; [done|]. cbn [load_words]. f_equal; [|apply IH; intros; apply H; lia].
  apply load32_ext. intros. apply H. lia.
Qed.

Lemma dinode_load_ext m m' dip i : (forall b, dip <= b < dip + DINODE_SIZE -> load8 m b = load8 m' b) ->
  dinode_load m dip i = dinode_load m' dip i.
Proof.
  unfold DINODE_SIZE. intros H. unfold dinode_load. rewrite (load_words_ext 13 m m') by (intros; apply H; lia).
  rewrite (load32_ext m m') by (intros; apply H; lia). by rewrite !(load16_ext m m') by (intros; apply H; lia).
Qed.

(** The fields of an inode fit in its fields on disk. *)
Record inode_fits (i : inode) : Prop := {
  if_type : - 2 ^ 15 <= i_type i < 2 ^ 15;
  if_major : - 2 ^ 15 <= i_major i < 2 ^ 15;
  if_minor : - 2 ^ 15 <= i_minor i < 2 ^ 15;
  if_nlink : - 2 ^ 15 <= i_nlink i < 2 ^ 15
}.

Lemma dinode_frame m dip i b : length (i_addrs i) = 13%nat -> b < dip \/ dip + DINODE_SIZE <= b ->
  load8 (dinode_store m dip i) b = load8 m b.
Proof.
  unfold DINODE_SIZE. intros Hl Hb. unfold dinode_store. rewrite load8_store_words_ne by (rewrite Hl; lia).
  rewrite load8_store32_ne by lia. by rewrite !load8_store16_ne by lia.
Qed.

Lemma dinode_roundtrip m dip i : inode_fits i -> 0 <= i_size i < 2 ^ 32 -> length (i_addrs i) = 13%nat ->
  Forall (fun v => 0 <= v < 2 ^ 32) (i_addrs i) -> dinode_load (dinode_store m dip i) dip i = i.
Proof.
  intros [H1 H2 H3 H4] Hs Hl Ha. unfold dinode_load, dinode_store.
  set (m1 := store16 m dip (i_type i)). set (m2 := store16 m1 (dip + 2) (i_major i)). set (m3 := store16 m2 (dip + 4) (i_minor i)).
  set (m4 := store16 m3 (dip + 6) (i_nlink i)). set (m5 := store32 m4 (dip + 8) (i_size i)).
  assert (forall b, b < dip + 12 -> load8 (store_words m5 (dip + 12) (i_addrs i)) b = load8 m5 b) as E6 by (intros; apply load8_store_words_ne; lia).
  assert (forall b, b < dip + 8 -> load8 m5 b = load8 m4 b) as E5 by (intros; apply load8_store32_ne; lia).
  assert (forall b, b < dip + 6 -> load8 m4 b = load8 m3 b) as E4 by (intros; apply load8_store16_ne; lia).
  assert (forall b, b < dip + 4 -> load8 m3 b = load8 m2 b) as E3 by (intros; apply load8_store16_ne; lia).
  assert (forall b, b < dip + 2 -> load8 m2 b = load8 m1 b) as E2 by (intros; apply load8_store16_ne; lia).
  rewrite (load16_ext _ m1 dip) by (intros; rewrite E6, E5, E4, E3, E2 by lia; done).
  rewrite (load16_ext _ m2 (dip + 2)) by (intros; rewrite E6, E5, E4, E3 by lia; done).
  rewrite (load16_ext _ m3 (dip + 4)) by (intros; rewrite E6, E5, E4 by lia; done).
  rewrite (load16_ext _ m4 (dip + 6)) by (intros; rewrite E6, E5 by lia; done).
  rewrite (load32_ext _ m5 (dip + 8)) by (intros; rewrite E6 by lia; done).
  pose proof (load_store_words (i_addrs i) m5 (dip + 12) Ha) as E7. rewrite Hl in E7. rewrite E7. unfold m1, m2, m3, m4, m5.
  rewrite !load16_store16, load32_store32_eq by done. by destruct i.
Qed.

(** ** Bytes *)

Lemma range_app lo a b : range lo (a + b) = range lo a ++ range (lo + Z.of_nat a) b.
Proof.
  revert lo. induction a as [|a IH]; intros lo; cbn [Nat.add range app]; [by rewrite Z.add_0_r|].
  rewrite IH. do 3 f_equal. lia.
Qed.

Lemma file_bytes_app V i off a b : file_bytes V i off (a + b) = file_bytes V i off a ++ file_bytes V i (off + Z.of_nat a) b.
Proof. unfold file_bytes. by rewrite range_app, fmap_app. Qed.

Lemma file_bytes_length V i off n : length (file_bytes V i off n) = n.
Proof. unfold file_bytes. by rewrite length_fmap, length_range. Qed.

Lemma range_lookup n : forall lo k, (k < n)%nat -> range lo n !! k = Some (lo + Z.of_nat k).
Proof.
  induction n as [|n IH]; intros lo k Hk; [lia|]. destruct k as [|k]; cbn; [f_equal; lia|]. rewrite IH by lia. f_equal. lia.
Qed.

Lemma file_bytes_lookup V i off n k : (k < n)%nat -> file_bytes V i off n !! k = Some (file_byte V i (off + Z.of_nat k)).
Proof. intros Hk. unfold file_bytes. by rewrite list_lookup_fmap, range_lookup. Qed.

(** The bytes of one block are consecutive in it. *)
Lemma file_byte_block V i off k : 0 <= k -> off mod BSIZE + k < BSIZE ->
  file_byte V i (off + k) = load8 (V (block_of V i (off / BSIZE))) (off mod BSIZE + k).
Proof.
  intros Hk Hlt. unfold file_byte, BSIZE in *. assert ((off + k) / 512 = off / 512) as -> by dlia.
  assert ((off + k) mod 512 = off mod 512 + k) as -> by dlia. done.
Qed.

Lemma load_file_bytes V i off n : off mod BSIZE + Z.of_nat n <= BSIZE ->
  load_bytes (V (block_of V i (off / BSIZE))) (off mod BSIZE) n = file_bytes V i off n.
Proof.
  intros Hn. apply list_eq. intros k. destruct (decide (k < n)%nat) as [Hk|Hk].
  - rewrite load_bytes_lookup, file_bytes_lookup by done. f_equal. symmetry. apply file_byte_block; lia.
  - rewrite !lookup_ge_None_2; [done|rewrite file_bytes_length; lia|rewrite length_load_bytes; lia].
Qed.

Section FileData.
Context (sb : superblock).
Implicit Types (V : Z -> mem) (i : inode) (pl : place).

Abbreviation bm := (sb_bmapstart sb).

Definition data_block V (c : Z) : Prop := bm < c < sb_size sb /\ used sb V c.

Definition iblock i : Z := IBLOCK (i_inum i) sb.

(** A file whose blocks are its own, marked in the bitmap, and there as far as its size goes. *)
Record file_ok V i : Prop := {
  fo_bitmap : bitmap_ok sb V;
  fo_dev : i_dev i = 1;
  fo_type : i_type i <> T_DEV;
  fo_iblock : 0 < iblock i < bm;
  fo_addrs : length (i_addrs i) = 13%nat;
  fo_size : 0 <= i_size i <= MAXFILE * BSIZE;
  fo_data : forall pl, valid_place pl -> at_place V i pl <> 0 -> data_block V (at_place V i pl);
  fo_inj : forall pl pl', valid_place pl -> valid_place pl' -> at_place V i pl <> 0 ->
    at_place V i pl = at_place V i pl' -> pl = pl';
  fo_full : forall bn, 0 <= bn -> bn * BSIZE < i_size i -> block_of V i bn <> 0
}.

Definition owned V i (c : Z) : Prop := c <> 0 /\ exists pl, valid_place pl /\ at_place V i pl = c.

(** The file has got more blocks and other data, nothing else has changed. *)
Record grows V i V' i' : Prop := {
  gr_ok : file_ok V' i';
  gr_inode : i' = i <| i_addrs := i_addrs i' |>;
  gr_keep : forall pl, valid_place pl -> at_place V i pl <> 0 -> at_place V' i' pl = at_place V i pl;
  gr_used : forall c, used sb V c -> used sb V' c;
  gr_frame : forall c, used sb V c -> c <> bm -> ~ owned V i c -> V' c = V c;
  gr_new : forall c, owned V' i' c -> owned V i c \/ ~ used sb V c
}.

(** The data of the file have not changed. *)
Definition same_data V i V' : Prop :=
  forall bn, 0 <= bn < MAXFILE -> block_of V i bn <> 0 -> V' (block_of V i bn) = V (block_of V i bn).

Lemma inode_eta i : i = i <| i_addrs := i_addrs i |>.
Proof. by destruct i. Qed.

Lemma grows_refl V i : file_ok V i -> grows V i V i.
Proof. intros H. constructor; auto using inode_eta. Qed.

Lemma grows_trans V i V1 i1 V2 i2 : grows V i V1 i1 -> grows V1 i1 V2 i2 -> grows V i V2 i2.
Proof.
  intros [A1 A2 A3 A4 A5 A6] [B1 B2 B3 B4 B5 B6]. constructor; [done| | |auto| |].
  - rewrite B2, A2. by destruct i.
  - intros pl Hpl Hne. rewrite B3; [by apply A3|done|by rewrite A3].
  - intros c Hu Hb Ho. rewrite B5; [by apply A5|auto|done|]. intros [?|?]%A6; auto.
  - intros c [?|?]%B6; [by apply A6|]. right. auto.
Qed.

Lemma same_data_trans V i V1 i1 V2 : grows V i V1 i1 -> same_data V i V1 -> same_data V1 i1 V2 -> same_data V i V2.
Proof.
  intros G H1 H2 bn Hbn Hne. rewrite <- H1 by done. pose proof (gr_keep _ _ _ _ G (Some bn) Hbn Hne) as E. cbn in E.
  rewrite <- E. apply H2; [done|]. by rewrite E.
Qed.

Lemma indirect_data V i bn : file_ok V i -> 0 <= bn < MAXFILE -> block_of V i bn <> 0 -> block_of V i bn <> indirect i.
Proof. intros F Hbn Hne E. discriminate (fo_inj _ _ F (Some bn) None Hbn I Hne E). Qed.

(** ** A block is added *)

(** The block [b], which was free, is put at the place [k], which was empty. *)
Record adds V i (k : place) (b : Z) V' i' : Prop := {
  ad_valid : valid_place k;
  ad_empty : at_place V i k = 0;
  ad_block : bm < b < sb_size sb;
  ad_free : ~ used sb V b;
  ad_inode : i' = i <| i_addrs := i_addrs i' |>;
  ad_addrs : length (i_addrs i') = 13%nat;
  ad_place : forall pl, valid_place pl -> at_place V' i' pl = if decide (pl = k) then b else at_place V i pl;
  ad_used : forall c, used sb V' c <-> c = b \/ used sb V c;
  ad_frame : forall c, c <> bm -> c <> b -> (c = 0 \/ c <> indirect i) -> V' c = V c
}.

Lemma adds_file_ok V i k b V' i' : file_ok V i -> adds V i k b V' i' -> file_ok V' i'.
Proof.
  intros F [H1 H2 H3 H4 H5 H6 H7 H8 H9]. pose proof (fo_bitmap _ _ F) as [O1 O2 O3].
  assert (forall pl, valid_place pl -> at_place V i pl <> b) as Hfresh.
  { intros pl Hpl E. apply H4. rewrite <- E. apply (fo_data _ _ F pl Hpl). lia. }
  constructor.
  - constructor; [done|done|]. intros c Hc. apply H8. auto.
  - rewrite H5. apply F.
  - rewrite H5. apply F.
  - unfold iblock. rewrite H5. apply F.
  - done.
  - rewrite H5. apply F.
  - intros pl Hpl Hne. rewrite H7 in Hne |- * by done. case_decide as Ek.
    + split; [lia|]. apply H8. by left.
    + destruct (fo_data _ _ F pl Hpl Hne). split; [done|]. apply H8. by right.
  - intros pl pl' Hpl Hpl'. rewrite !H7 by done. case_decide as E1; case_decide as E2; [congruence| | |by apply F].
    + intros _ E. by destruct (Hfresh pl').
    + intros _ E. by destruct (Hfresh pl).
  - intros bn Hbn Hsz. assert (i_size i' = i_size i) as Es by (by rewrite H5). rewrite Es in Hsz.
    assert (valid_place (Some bn)) as Hv by (cbn; pose proof (fo_size _ _ F); unfold BSIZE in *; lia).
    change (at_place V' i' (Some bn) <> 0). rewrite H7 by done. case_decide; [lia|]. by apply (fo_full _ _ F).
Qed.

Lemma adds_grows V i k b V' i' : file_ok V i -> adds V i k b V' i' -> grows V i V' i' /\ same_data V i V'.
Proof.
  intros F A. pose proof A as [H1 H2 H3 H4 H5 H6 H7 H8 H9]. pose proof (fo_bitmap _ _ F) as [O1 O2 O3]. split.
  - constructor; [by eapply adds_file_ok|done| | | |].
    + intros pl Hpl Hne. rewrite H7 by done. case_decide as E; [|done]. by rewrite E in Hne.
    + intros c Hc. apply H8. by right.
    + intros c Hu Hc Ho. apply H9; [done|by intros ->|]. destruct (decide (c = 0)) as [|Hc0]; [by left|right].
      intros ->. apply Ho. split; [done|]. by exists None.
    + intros c (Hc & pl & Hpl & E). rewrite H7 in E by done. case_decide; [right; by subst c|left]. split; [done|]. by exists pl.
  - intros bn Hbn Hne. destruct (fo_data _ _ F (Some bn) Hbn Hne) as [Hr Hu]. cbn in Hr, Hu.
    apply H9; [lia|by intros E; rewrite E in Hu|]. right. by apply (indirect_data V i bn F).
Qed.

(** balloc's block is none of the blocks in use. *)
Lemma fresh_view V b c : ~ used sb V b -> data_block V c -> alloc_view sb V b c = V c.
Proof. intros Hb [Hr Hu]. apply alloc_view_ne; [lia|by intros ->]. Qed.

Lemma adds_direct V i k b : file_ok V i -> 0 <= k < NDIRECT -> block_of V i k = 0 -> ~ used sb V b -> bm < b < sb_size sb ->
  adds V i (Some k) b (alloc_view sb V b) (i <| i_addrs ::= <[Z.to_nat k := b]> |>).
Proof.
  intros F Hk H0 Hu Hb. pose proof (fo_addrs _ _ F) as Hl. unfold NDIRECT in Hk.
  assert (indirect (i <| i_addrs ::= <[Z.to_nat k := b]> |>) = indirect i) as Ei.
  { unfold indirect. cbn. rewrite list_lookup_insert_ne by (change (Z.to_nat NDIRECT) with 12%nat; lia). done. }
  constructor; try done.
  - change (0 <= k < 140). lia.
  - cbn. by rewrite length_insert.
  - intros [bn|] Hv; cbn [at_place]; [|by rewrite decide_False, Ei]. unfold block_of. rewrite Ei. cbn in Hv.
    destruct (Z.ltb_spec bn NDIRECT) as [Hlt|Hge]; unfold NDIRECT in *.
    + cbn. destruct (decide (bn = k)) as [->|Hne].
      * rewrite list_lookup_insert_eq by lia. by rewrite decide_True.
      * rewrite list_lookup_insert_ne by lia. rewrite decide_False by congruence. done.
    + rewrite decide_False by (intros [=]; lia). destruct (Z.eqb_spec (indirect i) 0) as [|Hne]; [done|].
      by rewrite (fresh_view V b (indirect i) Hu (fo_data _ _ F None I Hne)).
  - intros c. apply used_alloc. lia.
  - intros c Hc Hcb _. by apply alloc_view_ne.
Qed.

Lemma adds_indirect V i b : file_ok V i -> indirect i = 0 -> ~ used sb V b -> bm < b < sb_size sb ->
  adds V i None b (alloc_view sb V b) (i <| i_addrs ::= <[Z.to_nat NDIRECT := b]> |>).
Proof.
  intros F H0 Hu Hb. pose proof (fo_addrs _ _ F) as Hl. pose proof (fo_bitmap _ _ F) as [O1 O2 O3].
  change (Z.to_nat NDIRECT) with 12%nat.
  assert (indirect (i <| i_addrs ::= <[12%nat := b]> |>) = b) as Ei.
  { unfold indirect. cbn. change (Z.to_nat NDIRECT) with 12%nat. by rewrite list_lookup_insert_eq by lia. }
  constructor; try done.
  - cbn. by rewrite length_insert.
  - intros [bn|] Hv; cbn [at_place]; [|by rewrite decide_True, Ei]. rewrite decide_False by done.
    unfold block_of. rewrite Ei, H0. cbn in Hv. unfold MAXFILE, NINDIRECT, NDIRECT, BSIZE in *.
    destruct (Z.ltb_spec bn 12) as [Hlt|Hge].
    + cbn. by rewrite list_lookup_insert_ne by lia.
    + destruct (Z.eqb_spec b 0); [done|]. cbn. apply load32_zero. intros a Ha. apply alloc_view_zero. change (512 / 4) with 128 in Hv.
      unfold BSIZE. lia.
  - intros c. apply used_alloc. lia.
  - intros c Hc Hcb _. by apply alloc_view_ne.
Qed.

Lemma adds_entry V i k b : file_ok V i -> indirect i <> 0 -> NDIRECT <= k < MAXFILE -> block_of V i k = 0 ->
  ~ used sb V b -> bm < b < sb_size sb ->
  let V1 := alloc_view sb V b in
  adds V i (Some k) b (upd_view V1 (indirect i) (store32 (V1 (indirect i)) (4 * (k - NDIRECT)) b)) i.
Proof.
  intros F Hi Hk H0 Hu Hb V1. pose proof (fo_bitmap _ _ F) as [O1 O2 O3]. unfold FSSIZE in O1.
  destruct (fo_data _ _ F None I Hi) as [Hr Hui]. cbn [at_place] in Hr, Hui.
  assert (V1 (indirect i) = V (indirect i)) as EV by (by apply fresh_view).
  constructor; try done.
  - cbn. unfold NDIRECT in *. lia.
  - apply inode_eta.
  - apply F.
  - intros [bn|] Hv; cbn [at_place]; [|by rewrite decide_False]. unfold block_of.
    destruct (Z.ltb_spec bn NDIRECT) as [Hlt|Hge]; [rewrite decide_False by (intros [=]; lia); done|].
    destruct (Z.eqb_spec (indirect i) 0); [done|]. unfold upd_view. rewrite decide_True, EV by done.
    destruct (decide (bn = k)) as [->|Hne].
    + rewrite decide_True by done. apply load32_store32_eq. lia.
    + rewrite decide_False by congruence. apply load32_store32_ne. lia.
  - intros c. rewrite <- used_alloc by lia. unfold used, upd_view. rewrite decide_False by lia. done.
  - intros c Hc Hcb Hci. unfold upd_view. rewrite decide_False by lia. by apply alloc_view_ne.
Qed.

(** ** Data are written *)

Lemma write_places V i bn m pl : file_ok V i -> 0 <= bn < MAXFILE -> block_of V i bn <> 0 -> valid_place pl ->
  at_place (upd_view V (block_of V i bn) m) i pl = at_place V i pl.
Proof.
  intros F Hbn Hne Hv. destruct pl as [bn'|]; [|done]. cbn [at_place]. unfold block_of at 1 3.
  destruct (bn' <? NDIRECT); [done|]. destruct (indirect i =? 0); [done|]. unfold upd_view.
  rewrite decide_False; [done|]. intros E. by apply (indirect_data V i bn F Hbn Hne).
Qed.

Lemma write_grows V i bn m : file_ok V i -> 0 <= bn < MAXFILE -> block_of V i bn <> 0 ->
  grows V i (upd_view V (block_of V i bn) m) i.
Proof.
  intros F Hbn Hne. pose proof (fun pl => write_places V i bn m pl F Hbn Hne) as EP.
  destruct (fo_data _ _ F (Some bn) Hbn Hne) as [Hr Hu]. cbn [at_place] in Hr, Hu. set (V' := upd_view _ _ _) in *.
  assert (forall c, used sb V' c <-> used sb V c) as EU by (intros c; unfold used, V', upd_view; rewrite decide_False by lia; done).
  constructor.
  - destruct F as [F1 F2 F3 F4 F5 F6 F7 F8 F9]. constructor; try done.
    + destruct F1 as [O1 O2 O3]. constructor; [done|done|]. intros c Hc. apply EU. auto.
    + intros pl Hv. rewrite EP by done. intros Hne'. destruct (F7 pl Hv Hne'). split; [done|by apply EU].
    + intros pl pl' Hv Hv'. rewrite !EP by done. by apply F8.
    + intros bn' Hb' Hs. change (at_place V' i (Some bn') <> 0). rewrite EP; [by apply F9|]. cbn. unfold BSIZE in *. lia.
  - apply inode_eta.
  - intros pl Hv _. by apply EP.
  - intros c. apply EU.
  - intros c _ _ Ho. unfold V', upd_view. apply decide_False. intros ->. apply Ho. split; [done|]. by exists (Some bn).
  - intros c (Hc & pl & Hv & E). rewrite EP in E by done. left. split; [done|]. by exists pl.
Qed.

(** The bytes [l] have been written at [off]; the bytes elsewhere in the blocks the file had are the same. *)
Record wrote V i (off : Z) (l : list Z) V' i' : Prop := {
  wr_grows : grows V i V' i';
  wr_in : forall k b, l !! k = Some b ->
    block_of V' i' ((off + Z.of_nat k) / BSIZE) <> 0 /\ file_byte V' i' (off + Z.of_nat k) = b;
  wr_out : forall o, 0 <= o < MAXFILE * BSIZE -> o < off \/ off + Z.of_nat (length l) <= o ->
    block_of V i (o / BSIZE) <> 0 -> file_byte V' i' o = file_byte V i o;
  wr_same : (forall k, 0 <= k < Z.of_nat (length l) -> block_of V i ((off + k) / BSIZE) <> 0) -> i' = i
}.

Lemma wrote_nil V i off : file_ok V i -> wrote V i off [] V i.
Proof. intros F. constructor; [by apply grows_refl|done|done|done]. Qed.

Lemma block_range o : 0 <= o < MAXFILE * BSIZE -> 0 <= o / BSIZE < MAXFILE.
Proof. change (MAXFILE * BSIZE) with 71680. change MAXFILE with 140. unfold BSIZE. dlia. Qed.

Lemma wrote_trans V i off l V1 i1 l' V2 i2 : 0 <= off -> off + Z.of_nat (length l + length l') <= MAXFILE * BSIZE ->
  wrote V i off l V1 i1 -> wrote V1 i1 (off + Z.of_nat (length l)) l' V2 i2 -> wrote V i off (l ++ l') V2 i2.
Proof.
  intros Hoff Hmax [G1 I1 O1 S1] [G2 I2 O2 S2].
  assert (forall o, 0 <= o < MAXFILE * BSIZE -> block_of V i (o / BSIZE) <> 0 -> block_of V1 i1 (o / BSIZE) = block_of V i (o / BSIZE)) as K1.
  { intros o Ho. apply (gr_keep _ _ _ _ G1 (Some (o / BSIZE))). by apply block_range. }
  constructor; [by eapply grows_trans| | |].
  - intros k b [Hk|[Hge Hk]]%lookup_app_Some.
    + pose proof (lookup_lt_Some _ _ _ Hk). destruct (I1 k b Hk) as [Hm Hb].
      assert (0 <= off + Z.of_nat k < MAXFILE * BSIZE) as Ho by lia. split.
      * pose proof (gr_keep _ _ _ _ G2 (Some ((off + Z.of_nat k) / BSIZE)) (block_range _ Ho) Hm) as E. cbn in E. by rewrite E.
      * rewrite O2; [done|done|lia|done].
    + destruct (I2 _ _ Hk) as [Hm Hb]. replace (off + Z.of_nat (length l) + Z.of_nat (k - length l)) with (off + Z.of_nat k) in Hm, Hb by lia. done.
  - intros o Ho Hout Hm. rewrite length_app in Hout. rewrite O2; [apply O1; [done|lia|done]|done|lia|by rewrite K1].
  - intros Hall. rewrite length_app in Hall. assert (i1 = i) as -> by (apply S1; intros; apply Hall; lia).
    apply S2. intros k Hk. rewrite K1; [|lia|]; replace (off + Z.of_nat (length l) + k) with (off + (Z.of_nat (length l) + k)) by lia; apply Hall; lia.
Qed.

(** One turn of writei: bmap, and the bytes that go into the block. *)
Lemma wrote_block V i V1 i1 off l : grows V i V1 i1 -> same_data V i V1 -> (block_of V i (off / BSIZE) <> 0 -> i1 = i) ->
  let a := block_of V1 i1 (off / BSIZE) in a <> 0 -> 0 <= off < MAXFILE * BSIZE -> l <> [] ->
  off mod BSIZE + Z.of_nat (length l) <= BSIZE -> is_bytes l ->
  wrote V i off l (upd_view V1 a (store_bytes (V1 a) (off mod BSIZE) l)) i1.
Proof.
  intros G D Hs a Ha Hoff Hl Hlen Hbytes. pose proof (block_range off Hoff) as Hbn. pose proof (gr_ok _ _ _ _ G) as F.
  set (m := store_bytes _ _ _). set (V2 := upd_view V1 a m).
  assert (forall bn, 0 <= bn < MAXFILE -> block_of V2 i1 bn = block_of V1 i1 bn) as EB.
  { intros bn Hb. apply (write_places V1 i1 (off / BSIZE) m (Some bn) F Hbn Ha Hb). }
  pose proof (Z.mod_pos_bound off BSIZE ltac:(done)) as Hmod. constructor.
  - eapply grows_trans; [exact G|]. by apply write_grows.
  - intros k b Hk. pose proof (lookup_lt_Some _ _ _ Hk). rewrite file_byte_block by lia.
    assert ((off + Z.of_nat k) / BSIZE = off / BSIZE) as -> by (unfold BSIZE in *; dlia). rewrite EB by done. split; [done|].
    fold a. unfold V2, upd_view. rewrite decide_True by done. unfold m. rewrite load8_store_bytes.
    destruct (Z.leb_spec (off mod BSIZE) (off mod BSIZE + Z.of_nat k)); [|lia].
    replace (Z.to_nat (off mod BSIZE + Z.of_nat k - off mod BSIZE)) with k by lia. rewrite Hk.
    apply Z.mod_small. by eapply (Forall_lookup_1 _ _ _ _ Hbytes Hk).
  - intros o Ho Hout Hm. pose proof (block_range o Ho) as Hob. unfold file_byte. rewrite EB by done.
    pose proof (gr_keep _ _ _ _ G (Some (o / BSIZE)) Hob Hm) as E. cbn in E. rewrite E. rewrite <- (D _ Hob Hm).
    unfold V2, upd_view. case_decide as Ea; [|done].
    assert (Some (o / BSIZE) = Some (off / BSIZE)) as [= Eo].
    { apply (fo_inj _ _ F); [done|done|cbn; by rewrite E|]. cbn. by rewrite E. }
    unfold m. rewrite Ea. apply load8_store_bytes_out. unfold BSIZE in *. dlia.
  - intros Hall. apply Hs. replace off with (off + 0) by lia. apply Hall. destruct l; [done|cbn; lia].
Qed.

(** ** Inode blocks and sizes *)

(** Writing an inode block leaves the blocks of files alone. *)
Lemma meta_places V i c m pl : file_ok V i -> c < bm -> valid_place pl -> at_place (upd_view V c m) i pl = at_place V i pl.
Proof.
  intros F Hc Hv. destruct pl as [bn|]; [|done]. cbn [at_place]. unfold block_of. destruct (bn <? NDIRECT); [done|].
  destruct (Z.eqb_spec (indirect i) 0) as [|Hi]; [done|]. destruct (fo_data _ _ F None I Hi) as [Hr _]. cbn in Hr.
  unfold upd_view. by rewrite decide_False by lia.
Qed.

Lemma meta_ok V i c m : file_ok V i -> c < bm -> file_ok (upd_view V c m) i.
Proof.
  intros F Hc. pose proof (fun pl => meta_places V i c m pl F Hc) as EP. set (V' := upd_view V c m) in *.
  assert (forall b, used sb V' b <-> used sb V b) as EU by (intros b; unfold used, V', upd_view; rewrite decide_False by lia; done).
  destruct F as [F1 F2 F3 F4 F5 F6 F7 F8 F9]. constructor; try done.
  - destruct F1 as [O1 O2 O3]. constructor; [done|done|]. intros b Hb. apply EU. auto.
  - intros pl Hv. rewrite EP by done. intros Hne. destruct (F7 pl Hv Hne). split; [done|by apply EU].
  - intros pl pl' Hv Hv'. rewrite !EP by done. by apply F8.
  - intros bn Hb Hs. change (at_place V' i (Some bn) <> 0). rewrite EP; [by apply F9|]. cbn. unfold BSIZE in *. lia.
Qed.

Lemma meta_byte V i c m o : file_ok V i -> c < bm -> 0 <= o < MAXFILE * BSIZE -> block_of V i (o / BSIZE) <> 0 ->
  file_byte (upd_view V c m) i o = file_byte V i o.
Proof.
  intros F Hc Ho Hm. pose proof (block_range o Ho) as Hv. unfold file_byte.
  pose proof (meta_places V i c m (Some (o / BSIZE)) F Hc Hv) as E. cbn in E. rewrite E.
  destruct (fo_data _ _ F (Some (o / BSIZE)) Hv Hm) as [Hr _]. cbn in Hr. unfold upd_view. by rewrite decide_False by lia.
Qed.

Lemma size_ok V i n : file_ok V i -> 0 <= n <= MAXFILE * BSIZE -> (forall bn, 0 <= bn -> bn * BSIZE < n -> block_of V i bn <> 0) ->
  file_ok V (i <| i_size := n |>).
Proof. intros [F1 F2 F3 F4 F5 F6 F7 F8 F9] Hn Hm. by constructor. Qed.

Lemma addrs_range V i : file_ok V i -> Forall (fun v => 0 <= v < 2 ^ 32) (i_addrs i).
Proof.
  intros F. pose proof (fo_bitmap _ _ F) as [O1 O2 _]. unfold FSSIZE in O1. apply Forall_lookup. intros k v Hk.
  assert (exists pl, valid_place pl /\ at_place V i pl = v) as (pl & Hv & E).
  { pose proof (lookup_lt_Some _ _ _ Hk) as Hlt. rewrite (fo_addrs _ _ F) in Hlt.
    destruct (decide (k = 12)%nat) as [->|Hne]; [exists None; split; [done|]; cbn; unfold indirect; by change (Z.to_nat NDIRECT) with 12%nat; rewrite Hk|].
    exists (Some (Z.of_nat k)). split; [change (0 <= Z.of_nat k < 140); lia|]. cbn. unfold block_of.
    destruct (Z.ltb_spec (Z.of_nat k) NDIRECT); [|unfold NDIRECT in *; lia]. by rewrite Nat2Z.id, Hk. }
  destruct (decide (v = 0)) as [->|Hne]; [lia|]. destruct (fo_data _ _ F pl Hv) as [Hr _]; [congruence|]. rewrite E in Hr. lia.
Qed.

(** The inode on disk is the inode in memory. *)
Definition disk_inode V i : Prop := dinode_load (V (iblock i)) (dinode_off (i_inum i)) i = i.

Lemma disk_inode_written V i : file_ok V i -> inode_fits i ->
  disk_inode (upd_view V (iblock i) (dinode_store (V (iblock i)) (dinode_off (i_inum i)) i)) i.
Proof.
  intros F Hf. unfold disk_inode, upd_view. rewrite decide_True by done. pose proof (fo_size _ _ F) as Hs.
  change (MAXFILE * BSIZE) with 71680 in Hs. apply dinode_roundtrip; [done|lia|apply F|by eapply addrs_range].
Qed.

(** ** Views that agree from the inode blocks on *)

Definition agree i V W : Prop := forall c, iblock i <= c -> W c = V c.

Lemma agree_places V W i pl : file_ok V i -> agree i V W -> valid_place pl -> at_place W i pl = at_place V i pl.
Proof.
  intros F A Hv. destruct pl as [bn|]; [|done]. cbn [at_place]. unfold block_of. destruct (bn <? NDIRECT); [done|].
  destruct (Z.eqb_spec (indirect i) 0) as [|Hi]; [done|]. destruct (fo_data _ _ F None I Hi) as [Hr _]. cbn in Hr.
  pose proof (fo_iblock _ _ F). by rewrite A by lia.
Qed.

Lemma agree_used V W i c : file_ok V i -> agree i V W -> used sb W c <-> used sb V c.
Proof. intros F A. pose proof (fo_iblock _ _ F). unfold used. by rewrite A by lia. Qed.

Lemma agree_ok V W i : file_ok V i -> agree i V W -> file_ok W i.
Proof.
  intros F A. pose proof (fun pl => agree_places V W i pl F A) as EP. pose proof (fun c => agree_used V W i c F A) as EU.
  destruct F as [F1 F2 F3 F4 F5 F6 F7 F8 F9]. constructor; try done.
  - destruct F1 as [O1 O2 O3]. constructor; [done|done|]. intros b Hb. apply EU. auto.
  - intros pl Hv. rewrite EP by done. intros Hne. destruct (F7 pl Hv Hne). split; [done|by apply EU].
  - intros pl pl' Hv Hv'. rewrite !EP by done. by apply F8.
  - intros bn Hb Hs. change (at_place W i (Some bn) <> 0). rewrite EP; [by apply F9|]. cbn. unfold BSIZE in *. lia.
Qed.

Lemma agree_contents V W i : file_ok V i -> agree i V W -> contents W i = contents V i.
Proof.
  intros F A. pose proof (fo_size _ _ F) as Hsz. pose proof (fo_iblock _ _ F) as Hib.
  unfold contents, file_bytes. apply list_fmap_ext. intros k o Hk%list_elem_of_lookup_2%elem_of_range.
  assert (0 <= o < MAXFILE * BSIZE) as Ho by lia. pose proof (block_range o Ho) as Hv. unfold file_byte.
  pose proof (agree_places V W i (Some (o / BSIZE)) F A Hv) as E. cbn in E. rewrite E.
  destruct (fo_data _ _ F (Some (o / BSIZE)) Hv) as [Hr _]; [apply (fo_full _ _ F); unfold BSIZE in *; dlia|]. cbn in Hr.
  by rewrite A by lia.
Qed.

Lemma agree_owned V W i c : file_ok V i -> agree i V W -> owned W i c <-> owned V i c.
Proof.
  intros F A. unfold owned. split; intros (Hc & pl & Hv & E); (split; [done|]); exists pl;
    (split; [done|]); [by rewrite <- (agree_places V W i pl F A)|by rewrite (agree_places V W i pl F A)].
Qed.

(** ** A file whose blocks are kept *)

Section Kept.
Context V V' (j : inode) (Fj : file_ok V j) (Hkept : forall c, owned V j c -> V' c = V c).

Lemma kept_place pl : valid_place pl -> at_place V' j pl = at_place V j pl.
Proof.
  intros Hv. destruct pl as [bn|]; [|done]. cbn [at_place]. unfold block_of. destruct (bn <? NDIRECT); [done|].
  destruct (Z.eqb_spec (indirect j) 0) as [|Hi]; [done|]. rewrite Hkept; [done|]. split; [done|]. by exists None.
Qed.

Lemma kept_owned c : owned V' j c <-> owned V j c.
Proof. unfold owned. split; intros (Hc & pl & Hv & E); (split; [done|]); exists pl; by rewrite kept_place in *. Qed.

Lemma kept_file : bitmap_ok sb V' -> (forall c, used sb V c -> used sb V' c) -> file_ok V' j.
Proof.
  intros Fb EU. pose proof kept_place as EP. destruct Fj as [F1 F2 F3 F4 F5 F6 F7 F8 F9]. constructor; try done.
  - intros pl Hv. rewrite EP by done. intros Hn. destruct (F7 pl Hv Hn). split; [done|by apply EU].
  - intros pl pl' Hv Hv'. rewrite !EP by done. by apply F8.
  - intros bn Hb Hs. change (at_place V' j (Some bn) <> 0). rewrite EP; [by apply F9|]. cbn. unfold BSIZE in *. lia.
Qed.

Lemma kept_byte o : 0 <= o < MAXFILE * BSIZE -> block_of V j (o / BSIZE) <> 0 -> file_byte V' j o = file_byte V j o.
Proof.
  intros Ho Hne. pose proof (block_range o Ho) as Hv. unfold file_byte. pose proof (kept_place (Some (o / BSIZE)) Hv) as E. cbn in E.
  rewrite E, Hkept; [done|]. split; [done|]. by exists (Some (o / BSIZE)).
Qed.

Lemma kept_contents : contents V' j = contents V j.
Proof.
  pose proof (fo_size _ _ Fj) as Hsz. unfold contents, file_bytes. apply list_fmap_ext. intros n o Hk%list_elem_of_lookup_2%elem_of_range.
  apply kept_byte; [lia|]. apply (fo_full _ _ Fj); unfold BSIZE in *; dlia.
Qed.
End Kept.

(** ** The contents after a write *)

Lemma contents_lookup V i o : 0 <= o < i_size i -> contents V i !! Z.to_nat o = Some (file_byte V i o).
Proof. intros Ho. unfold contents. rewrite file_bytes_lookup by lia. do 2 f_equal. lia. Qed.

Definition splice (c : list Z) (off : nat) (l : list Z) : list Z := take off c ++ l ++ drop (off + length l) c.

Lemma splice_lookup c off l k : (off <= length c)%nat -> splice c off l !! k =
  if decide (off <= k < off + length l)%nat then l !! (k - off)%nat else c !! k.
Proof.
  intros Hoff. unfold splice. assert (length (take off c) = off) as Et by (rewrite length_take; lia). case_decide as Hk.
  - rewrite lookup_app_r, Et by lia. apply lookup_app_l. lia.
  - destruct (decide (k < off)%nat); [rewrite lookup_app_l by lia; by rewrite lookup_take_lt|].
    rewrite lookup_app_r, Et, lookup_app_r by lia. rewrite lookup_drop. f_equal. lia.
Qed.

Lemma splice_splice c off l l' : (off <= length c)%nat -> splice (splice c off l) (off + length l) l' = splice c off (l ++ l').
Proof.
  intros Hoff. unfold splice. assert (length (take off c) = off) as Et by (rewrite length_take; lia).
  assert (take (off + length l) (take off c ++ l ++ drop (off + length l) c) = take off c ++ l) as ->.
  { rewrite app_assoc. apply take_app_length'. rewrite length_app. lia. }
  assert (drop (off + length l + length l') (take off c ++ l ++ drop (off + length l) c) = drop (off + length l + length l') c) as ->.
  { rewrite app_assoc, drop_app, (drop_ge (take off c ++ l)), length_app, Et by (rewrite length_app; lia). cbn [app].
    rewrite drop_drop. f_equal. lia. }
  rewrite <- !app_assoc. rewrite length_app. by rewrite Nat.add_assoc.
Qed.

Lemma wrote_contents V i off l V' i' i2 : file_ok V i -> wrote V i off l V' i' -> 0 <= off <= i_size i ->
  off + Z.of_nat (length l) <= MAXFILE * BSIZE -> i_addrs i2 = i_addrs i' -> i_size i2 = Z.max (i_size i) (off + Z.of_nat (length l)) ->
  contents V' i2 = splice (contents V i) (Z.to_nat off) l.
Proof.
  intros F W Hoff Hmax Ea Es. pose proof (fo_size _ _ F) as Hsz.
  assert (forall o, file_byte V' i2 o = file_byte V' i' o) as EB by (intros o; unfold file_byte, block_of, indirect; by rewrite Ea).
  assert (length (contents V i) = Z.to_nat (i_size i)) as Hlen by apply file_bytes_length.
  apply list_eq. intros k. rewrite splice_lookup by lia. destruct (decide (k < Z.to_nat (i_size i2))%nat) as [Hk|Hk].
  - replace k with (Z.to_nat (Z.of_nat k)) at 1 by lia. rewrite contents_lookup, EB by lia. case_decide as Hin.
    + destruct (lookup_lt_is_Some_2 l (k - Z.to_nat off)%nat) as [b Hb]; [lia|]. rewrite Hb.
      destruct (wr_in _ _ _ _ _ _ W _ _ Hb) as [_ E]. rewrite <- E. do 2 f_equal. lia.
    + replace k with (Z.to_nat (Z.of_nat k)) at 2 by lia. rewrite contents_lookup by lia. f_equal.
      apply (wr_out _ _ _ _ _ _ W); [lia|lia|]. apply (fo_full _ _ F); unfold BSIZE in *; dlia.
  - rewrite !(lookup_ge_None_2 (contents _ _)) by (unfold contents; rewrite file_bytes_length; lia).
    case_decide; [lia|done].
Qed.

Lemma wrote_full V i off l V' i' bn : file_ok V i -> wrote V i off l V' i' -> 0 <= off <= i_size i ->
  off + Z.of_nat (length l) <= MAXFILE * BSIZE -> 0 <= bn -> bn * BSIZE < Z.max (i_size i) (off + Z.of_nat (length l)) -> block_of V' i' bn <> 0.
Proof.
  intros F W Hoff Hmax Hbn Hlt. destruct (decide (bn * BSIZE < i_size i)) as [Hold|Hnew].
  - pose proof (fo_full _ _ F bn Hbn Hold) as Hne. pose proof (fo_size _ _ F).
    pose proof (gr_keep _ _ _ _ (wr_grows _ _ _ _ _ _ W) (Some bn)) as E. cbn in E. rewrite E; [done| |done]. unfold BSIZE in *; lia.
  - destruct (lookup_lt_is_Some_2 l (Z.to_nat (bn * BSIZE - off))) as [b Hb]; [lia|].
    destruct (wr_in _ _ _ _ _ _ W _ _ Hb) as [E _]. replace ((off + Z.of_nat (Z.to_nat (bn * BSIZE - off))) / BSIZE) with bn in E; [done|].
    rewrite Z2Nat.id by lia. unfold BSIZE. dlia.
Qed.

End FileData.
