(* ===== verification/Mkfs.v ===== *)
(** The program that makes the file system image, src/src/mkfs.c.

    The image is the contents of its blocks and how many of them the file has.
    The files are given by the names on the command line and by what the
    successive calls of read return for each.  A failed assertion ends the program
    and is a panic, and so is reading a block past the end of the image; the
    other errors of the host's calls are left out. *)

From stdpp Require Import base gmap list strings.
From Stdlib Require Import ZArith Lia.
From S2P Require Import Prelude Mem Str Mmu State Kalloc MemTable Vm Sched Fsys Bio Cache Log Crash Transaction Inode Alloc FileData.

Definition NINODES : Z := 200.
Definition nbitmap : Z := FSSIZE / (BSIZE * 8) + 1.
Definition ninodeblocks : Z := NINODES / IPB + 1.
Definition nlog : Z := LOGSIZE.
Definition nmeta : Z := 2 + nlog + ninodeblocks + nbitmap.
Definition nblocks : Z := FSSIZE - nmeta.

Definition sb : superblock :=
  {| sb_size := FSSIZE; sb_nblocks := nblocks; sb_ninodes := NINODES; sb_nlog := nlog; sb_logstart := 2;
     sb_inodestart := 2 + nlog; sb_bmapstart := 2 + nlog + ninodeblocks |}.

(** The number whose bytes in memory are those of [x] from the lowest on. *)
Definition xshort (x : Z) : Z := load16 (store8 (store8 ∅ 0 x) 1 (Z.shiftr x 8)) 0.
Definition xint (x : Z) : Z :=
  load32 (store8 (store8 (store8 (store8 ∅ 0 x) 1 (Z.shiftr x 8)) 2 (Z.shiftr x 16)) 3 (Z.shiftr x 24)) 0.

Record image := { g_blocks : Z -> mem; g_size : Z; g_freeinode : Z; g_freeblock : Z }.

#[global] Instance eta_image : Eta image := fun g =>
  {| g_blocks := g_blocks g; g_size := g_size g; g_freeinode := g_freeinode g; g_freeblock := g_freeblock g |}.

Definition wsect (sec : Z) (buf : mem) : M image unit :=
  modify (fun g => g <| g_blocks := upd_view (g_blocks g) sec buf |> <| g_size := Z.max (g_size g) (sec + 1) |>).
Definition rsect (sec : Z) : M image mem :=
  size <- gets g_size ;;
  if sec <? size then gets (fun g => g_blocks g sec) else panic "read".

(** A struct dinode of zeros, with the number of the inode it is for. *)
Definition blank (inum : Z) : inode := inode0 <| i_dev := 1 |> <| i_inum := inum |>.

Definition winode (inum : Z) (ip : inode) : M image unit :=
  let bn := IBLOCK inum sb in
  buf <- rsect bn ;;
  wsect bn (dinode_store buf (dinode_off inum) ip).

Definition rinode (inum : Z) : M image inode :=
  let bn := IBLOCK inum sb in
  buf <- rsect bn ;;
  ret (dinode_load buf (dinode_off inum) (blank inum)).

Definition mk_ialloc (type : Z) : M image Z :=
  inum <- gets g_freeinode ;;
  modify (fun g => g <| g_freeinode ::= fun n => n + 1 |>) ;;;
  let din := (blank inum) <| i_type := xshort type |> <| i_nlink := xshort 1 |> <| i_size := xint 0 |> in
  winode inum din ;;;
  ret inum.

(** [freeblock++] *)
Definition new_block : M image Z :=
  b <- gets g_freeblock ;;
  modify (fun g => g <| g_freeblock ::= fun n => n + 1 |>) ;;;
  ret b.

Definition addr (din : inode) (k : Z) : Z := default 0 (i_addrs din !! Z.to_nat k).
Definition set_addr (din : inode) (k v : Z) : inode := din <| i_addrs ::= <[Z.to_nat k := v]> |>.

(** A block is taken for the address [k] unless there is one. *)
Definition fill (din : inode) (k : Z) : M image inode :=
  if xint (addr din k) =? 0 then
    b <- new_block ;;
    ret (set_addr din k (xint b))
  else ret din.

(** The block [x] for the block [fbn] of the file, and the inode. *)
Definition iappend_block (din : inode) (fbn : Z) : M image (Z * inode) :=
  if fbn <? NDIRECT then
    din <- fill din fbn ;;
    ret (xint (addr din fbn), din)
  else
    din <- fill din NDIRECT ;;
    ind <- rsect (xint (addr din NDIRECT)) ;;
    ind <- (if load32 ind (4 * (fbn - NDIRECT)) =? 0 then
              b <- new_block ;;
              let ind := store32 ind (4 * (fbn - NDIRECT)) (xint b) in
              wsect (xint (addr din NDIRECT)) ind ;;;
              ret ind
            else ret ind) ;;
    ret (xint (load32 ind (4 * (fbn - NDIRECT))), din).

Fixpoint iappend_loop (fuel : nat) (din : inode) (off : Z) (p : list Z) : M image (inode * Z) :=
  match p with
  | [] => ret (din, off)
  | _ =>
      match fuel with
      | O => no_fuel
      | S fuel =>
          let fbn := off / BSIZE in
          if negb (fbn <? MAXFILE) then panic "assert"
          else
            let* (x, din) := iappend_block din fbn ;;
            let n1 := Z.to_nat (Z.min (Z.of_nat (length p)) ((fbn + 1) * BSIZE - off)) in
            buf <- rsect x ;;
            wsect x (store_bytes buf (off - fbn * BSIZE) (take n1 p)) ;;;
            iappend_loop fuel din (off + Z.of_nat n1) (drop n1 p)
      end
  end.

Definition iappend (inum : Z) (p : list Z) : M image unit :=
  din <- rinode inum ;;
  let off := xint (i_size din) in
  let* (din, off) := iappend_loop (length p) din off p ;;
  winode inum (din <| i_size := xint off |>).

(** The bitmap with the first [used] bits set. *)
Definition bitmap_of (used : nat) : mem :=
  fold_left (fun m i => store8 m (i / 8) (Z.lor (load8 m (i / 8)) (Z.shiftl 1 (i mod 8)))) (range 0 used) ∅.

Definition mk_balloc (used : Z) : M image unit :=
  if negb (used <? BSIZE * 8) then panic "assert"
  else wsect (sb_bmapstart sb) (bitmap_of (Z.to_nat used)).

(** A struct dirent: strncpy pads the name with NULs. *)
Definition dirent (inum : Z) (name : list Z) : list Z :=
  [inum mod 256; inum / 256 mod 256] ++ take (Z.to_nat DIRSIZ) (name ++ replicate (Z.to_nat DIRSIZ) 0).

(** The name without a leading underscore. *)
Definition strip (name : list Z) : list Z := match name with c :: l => if c =? 95 then l else name | [] => [] end.

(** A file of the command line and what read gives for it. *)
Definition add_file (rootino : Z) (f : list Z * list (list Z)) : M image unit :=
  if bool_decide (47 ∈ f.1) then panic "assert"
  else
    inum <- mk_ialloc T_FILE ;;
    iappend rootino (dirent (xshort inum) (strip f.1)) ;;;
    for_each f.2 (iappend inum).

Definition main (files : list (list Z * list (list Z))) : M image unit :=
  for_each (range 0 (Z.to_nat FSSIZE)) (fun i => wsect i ∅) ;;;
  wsect 1 (store_words ∅ 0 [xint FSSIZE; xint nblocks; xint NINODES; xint nlog; xint 2; xint (2 + nlog); xint (2 + nlog + ninodeblocks)]) ;;;
  rootino <- mk_ialloc T_DIR ;;
  if negb (rootino =? ROOTINO) then panic "assert"
  else
    iappend rootino (dirent (xshort rootino) [46]) ;;;
    iappend rootino (dirent (xshort rootino) [46; 46]) ;;;
    for_each files (add_file rootino) ;;;
    din <- rinode rootino ;;
    let off := xint (i_size din) in
    let off := (off / BSIZE + 1) * BSIZE in
    winode rootino (din <| i_size := xint off |>) ;;;
    used <- gets g_freeblock ;;
    mk_balloc used.

(** The image file is new and empty; freeblock is set before it is used. *)
Definition start : image := {| g_blocks := fun _ => ∅; g_size := 0; g_freeinode := 1; g_freeblock := nmeta |}.

(** ** The first blocks are the ones in use *)

Lemma xint_id x : 0 <= x < 2 ^ 32 -> xint x = x.
Proof.
  intros Hx. unfold xint, load32. rewrite !load8_store8. repeat (case_decide; try lia).
  rewrite !Z.shiftr_div_pow2 by lia. change (2 ^ 8) with 256. change (2 ^ 16) with 65536. change (2 ^ 24) with 16777216. dlia.
Qed.

Lemma xshort_id x : 0 <= x < 2 ^ 16 -> xshort x = x.
Proof.
  intros Hx. unfold xshort, load16. rewrite !load8_store8. repeat (case_decide; try lia).
  rewrite !Z.shiftr_div_pow2 by lia. change (2 ^ 8) with 256. dlia.
Qed.

Lemma bitmap_of_S n : bitmap_of (S n) = set_bit (bitmap_of n) (Z.of_nat n).
Proof. unfold bitmap_of. replace (S n) with (n + 1)%nat by lia. by rewrite range_app, fold_left_app. Qed.

Lemma bitmap_of_bit n c : bit (bitmap_of n) c = true <-> 0 <= c < Z.of_nat n.
Proof.
  induction n as [|n IH]; [split; [|lia]; unfold bit; cbn; by rewrite Z.bits_0|].
  rewrite bitmap_of_S, bit_set_bit, orb_true_iff, Z.eqb_eq, IH. lia.
Qed.

Abbreviation bm := (sb_bmapstart sb).

(** The blocks of the image, with the bitmap that balloc would write now. *)
Record tracks (W : Z -> mem) (g : image) : Prop := {
  tr_bitmap : W bm = bitmap_of (Z.to_nat (g_freeblock g));
  tr_blocks : forall c, c <> bm -> W c = g_blocks g c;
  tr_meta : nmeta <= g_freeblock g <= FSSIZE;
  tr_size : g_size g = FSSIZE;
  tr_zero : forall c a, g_freeblock g <= c -> load8 (g_blocks g c) a = 0
}.

Lemma tracks_used W g c : tracks W g -> used sb W c <-> 0 <= c < g_freeblock g.
Proof. intros [T1 _ T3 _ _]. change nmeta with 59 in T3. unfold used. rewrite T1, bitmap_of_bit. lia. Qed.

Lemma tracks_upd W g c m : tracks W g -> 0 <= c < g_freeblock g -> c <> bm ->
  tracks (upd_view W c m) (g <| g_blocks := upd_view (g_blocks g) c m |> <| g_size := Z.max (g_size g) (c + 1) |>).
Proof.
  intros [T1 T2 T3 T4 T5] Hc Hb. constructor.
  - unfold upd_view. by rewrite decide_False.
  - intros c' Hc'. cbn. unfold upd_view. case_decide; [done|by apply T2].
  - done.
  - cbn. lia.
  - intros c' a Hc'. cbn in *. unfold upd_view. rewrite decide_False by lia. by apply T5.
Qed.

(** The view after the next block has been taken. *)
Definition take_view (W : Z -> mem) (fb : Z) : Z -> mem := upd_view W bm (set_bit (W bm) fb).

Lemma tracks_take W g : tracks W g -> g_freeblock g < FSSIZE ->
  tracks (take_view W (g_freeblock g)) (g <| g_freeblock ::= fun n => n + 1 |>).
Proof.
  intros [T1 T2 T3 T4 T5] Hlt. change nmeta with 59 in *. constructor.
  - unfold take_view, upd_view. rewrite decide_True, T1 by done. cbn.
    replace (Z.to_nat (g_freeblock g + 1)) with (S (Z.to_nat (g_freeblock g))) by lia. rewrite bitmap_of_S. f_equal. lia.
  - intros c Hc. unfold take_view, upd_view. rewrite decide_False by done. by apply T2.
  - cbn. change nmeta with 59. lia.
  - done.
  - intros c a Hc. cbn in *. apply T5. lia.
Qed.

(** The block need not be cleared: it is zero already. *)
Lemma adds_zero V i k b V' V'' i' : adds sb V i k b V' i' -> (forall c, c <> b -> V'' c = V' c) ->
  (forall a, 0 <= a < BSIZE -> load8 (V' b) a = 0 /\ load8 (V'' b) a = 0) -> b <> bm -> adds sb V i k b V'' i'.
Proof.
  intros [A1 A2 A3 A4 A5 A6 A7 A8 A9] E Z Hb. constructor; try done.
  - intros pl Hv. rewrite <- A7 by done. destruct pl as [bn|]; [|done]. cbn in Hv |- *. unfold block_of.
    destruct (Z.ltb_spec bn NDIRECT); [done|]. destruct (indirect i' =? 0); [done|].
    destruct (decide (indirect i' = b)) as [->|Hne]; [|by rewrite E].
    change MAXFILE with 140 in Hv. unfold NDIRECT, BSIZE in *. rewrite !load32_zero; [done| |]; intros a Ha; apply Z; lia.
  - intros c. rewrite <- A8. unfold used. rewrite E by done. done.
  - intros c H1 H2 H3. rewrite E by done. by apply A9.
Qed.

(** The bytes after [off] in the file's blocks are zero. *)
Definition tail0 (V : Z -> mem) (i : inode) (off : Z) : Prop :=
  forall o, off <= o < MAXFILE * BSIZE -> block_of V i (o / BSIZE) <> 0 -> file_byte V i o = 0.

Lemma adds_tail V i k b V' i' off : file_ok sb V i -> adds sb V i k b V' i' -> (forall a, 0 <= a < BSIZE -> load8 (V' b) a = 0) ->
  0 <= off -> tail0 V i off -> tail0 V' i' off.
Proof.
  intros F A Z Hoff T o Ho Hne. destruct (adds_grows sb V i k b V' i' F A) as [_ D].
  assert (0 <= o < MAXFILE * BSIZE) as Ho' by lia. pose proof (block_range o Ho') as Hbn.
  pose proof (ad_place _ _ _ _ _ _ _ A (Some (o / BSIZE)) Hbn) as E. cbn in E. unfold file_byte. rewrite E in Hne |- *.
  case_decide; [apply Z; by apply Z.mod_pos_bound|]. rewrite D by done. by apply T.
Qed.

Lemma take_alloc W fb c : fb <> bm -> c <> fb -> take_view W fb c = alloc_view sb W fb c.
Proof.
  intros Hb Hc. unfold take_view, upd_view. case_decide as E; [by rewrite E, alloc_view_bm|by rewrite alloc_view_ne].
Qed.

Lemma take_zero W g a : tracks W g -> load8 (take_view W (g_freeblock g) (g_freeblock g)) a = 0.
Proof.
  intros [T1 T2 T3 T4 T5]. change nmeta with 59 in *. unfold take_view, upd_view. change bm with 58 in *. rewrite decide_False by lia.
  rewrite T2 by lia. apply T5. lia.
Qed.

Section Take.
Context (W : Z -> mem) (g : image) (i : inode).
Context (T : tracks W g) (F : file_ok sb W i) (Hfb : g_freeblock g < FSSIZE).

Abbreviation fb := (g_freeblock g).

Lemma take_fresh : ~ used sb W fb.
Proof. rewrite (tracks_used W g) by done. lia. Qed.

Lemma take_range : bm < fb < sb_size sb.
Proof. pose proof (tr_meta _ _ T) as H. change nmeta with 59 in H. change bm with 58. change (sb_size sb) with FSSIZE. lia. Qed.

Lemma take_adds k i' : adds sb W i k fb (alloc_view sb W fb) i' -> adds sb W i k fb (take_view W fb) i'.
Proof.
  intros A. pose proof take_range. eapply adds_zero; [exact A| | |lia].
  - intros c Hc. apply take_alloc; [lia|done].
  - intros a Ha. split; [by apply alloc_view_zero|by apply take_zero].
Qed.

Lemma take_direct k : 0 <= k < NDIRECT -> block_of W i k = 0 -> adds sb W i (Some k) fb (take_view W fb) (set_addr i k fb).
Proof. intros Hk H0. apply take_adds. apply adds_direct; auto using take_fresh, take_range. Qed.

Lemma take_indirect : indirect i = 0 -> adds sb W i None fb (take_view W fb) (set_addr i NDIRECT fb).
Proof. intros H0. apply take_adds. apply adds_indirect; auto using take_fresh, take_range. Qed.

Lemma take_entry k : indirect i <> 0 -> NDIRECT <= k < MAXFILE -> block_of W i k = 0 ->
  adds sb W i (Some k) fb (upd_view (take_view W fb) (indirect i) (store32 (W (indirect i)) (4 * (k - NDIRECT)) fb)) i.
Proof.
  intros Hi Hk H0. pose proof take_range. pose proof (adds_entry sb W i k fb F Hi Hk H0 take_fresh take_range) as A. cbn zeta in A.
  destruct (fo_data _ _ _ F None I Hi) as [Hr Hu]. cbn [at_place] in Hr, Hu. rewrite (tracks_used W g) in Hu by done.
  rewrite alloc_view_ne in A by lia. eapply adds_zero; [exact A| | |lia].
  - intros c Hc. unfold upd_view at 1 2. case_decide; [done|]. apply take_alloc; [lia|done].
  - intros a Ha. unfold upd_view at 1 2. rewrite !decide_False by lia. split; [by apply alloc_view_zero|by apply take_zero].
Qed.
End Take.

(** ** The blocks a file of [n] bytes has *)

Definition reach (pl : place) (n : Z) : Prop := match pl with Some bn => bn * BSIZE < n | None => NDIRECT * BSIZE < n end.

Definition upto (V : Z -> mem) (i : inode) (n : Z) : Prop := forall pl, valid_place pl -> at_place V i pl <> 0 <-> reach pl n.

Definition needed (n : Z) : Z := (n + BSIZE - 1) / BSIZE + (if NDIRECT * BSIZE <? n then 1 else 0).

(** What the invariant of the loop of iappend says of the image and the inode. *)
Record appending (W : Z -> mem) (g : image) (i : inode) (off : Z) : Prop := {
  ap_tracks : tracks W g;
  ap_file : file_ok sb W i;
  ap_tail : tail0 W i off
}.

(** What taking blocks does. *)
Record extends (W : Z -> mem) (g : image) (i : inode) (W' : Z -> mem) (g' : image) (i' : inode) (off n : Z) : Prop := {
  ex_app : appending W' g' i' off;
  ex_grows : grows sb W i W' i';
  ex_same : same_data W i W';
  ex_inode : g_freeinode g' = g_freeinode g;
  ex_count : g_freeblock g' = g_freeblock g + n
}.

Lemma extends_refl W g i off : appending W g i off -> extends W g i W g i off 0.
Proof. intros A. constructor; [done|apply grows_refl; apply A|done|done|lia]. Qed.

Lemma extends_trans W g i W1 g1 i1 W2 g2 i2 off a b : extends W g i W1 g1 i1 off a -> extends W1 g1 i1 W2 g2 i2 off b ->
  extends W g i W2 g2 i2 off (a + b).
Proof.
  intros [A1 A2 A3 A4 A5] [B1 B2 B3 B4 B5]. constructor; [done|by eapply grows_trans|by eapply same_data_trans|congruence|lia].
Qed.

Lemma extends_adds W g i W' g' i' k off : appending W g i off -> 0 <= off -> adds sb W i k (g_freeblock g) W' i' -> tracks W' g' ->
  g_freeinode g' = g_freeinode g -> g_freeblock g' = g_freeblock g + 1 -> (forall a, 0 <= a < BSIZE -> load8 (W' (g_freeblock g)) a = 0) ->
  extends W g i W' g' i' off 1.
Proof.
  intros [T F TL] Hoff A T' E1 E2 Z. destruct (adds_grows _ _ _ _ _ _ _ F A) as [G D]. constructor; try done.
  constructor; [done|apply G|]. by eapply adds_tail.
Qed.

(** A block is taken for the place [pl] unless there is one. *)
Record fills (W : Z -> mem) (g : image) (i : inode) (pl : place) (off : Z) (W' : Z -> mem) (g' : image) (i' : inode) : Prop := {
  fi_ext : extends W g i W' g' i' off (if decide (at_place W i pl = 0) then 1 else 0);
  fi_here : at_place W' i' pl <> 0;
  fi_else : forall pl', valid_place pl' -> pl' <> pl -> at_place W' i' pl' = at_place W i pl';
  fi_same : at_place W i pl <> 0 -> i' = i
}.

Lemma fills_already W g i pl off : appending W g i off -> at_place W i pl <> 0 -> fills W g i pl off W g i.
Proof. intros A H. constructor; [|done|done|done]. rewrite decide_False by done. by apply extends_refl. Qed.

Lemma fills_adds W g i pl off W' g' i' : extends W g i W' g' i' off 1 -> adds sb W i pl (g_freeblock g) W' i' -> nmeta <= g_freeblock g ->
  fills W g i pl off W' g' i'.
Proof.
  intros X [A1 A2 A3 A4 A5 A6 A7 A8 A9] Hm. change nmeta with 59 in Hm. constructor.
  - by rewrite decide_True.
  - rewrite A7, decide_True by done. lia.
  - intros pl' Hv Hne. by rewrite A7, decide_False.
  - done.
Qed.

(** The place an address of the inode is for. *)
Definition slot (k : Z) : place := if k =? NDIRECT then None else Some k.

Lemma addr_slot W i k : 0 <= k <= NDIRECT -> addr i k = at_place W i (slot k).
Proof.
  unfold slot. intros Hk. destruct (Z.eqb_spec k NDIRECT) as [->|]; [done|]. cbn. unfold block_of.
  destruct (Z.ltb_spec k NDIRECT); [done|lia].
Qed.

Lemma addr_range W i k : file_ok sb W i -> 0 <= addr i k < 2 ^ 32.
Proof.
  intros F. unfold addr. destruct (i_addrs i !! Z.to_nat k) as [v|] eqn:E; [|cbn; lia].
  exact (Forall_lookup_1 _ _ _ _ (addrs_range sb W i F) E).
Qed.

Lemma fill_ok W g i off k : appending W g i off -> 0 <= off -> 0 <= k <= NDIRECT ->
  (addr i k = 0 -> g_freeblock g < FSSIZE) ->
  wp (fill i k) g (fun i' g' => exists W', fills W g i (slot k) off W' g' i').
Proof.
  intros A Hoff Hk Hfb. pose proof A as [T F TL]. unfold fill, new_block. rewrite xint_id by (by eapply addr_range).
  pose proof (addr_slot W i k Hk) as Es. pose proof (tr_meta _ _ T) as Hm. change nmeta with 59 in Hm. unfold FSSIZE in *.
  destruct (Z.eqb_spec (addr i k) 0) as [E|E]; wp_steps.
  - rewrite xint_id by lia. exists (take_view W (g_freeblock g)).
    assert (adds sb W i (slot k) (g_freeblock g) (take_view W (g_freeblock g)) (set_addr i k (g_freeblock g))) as AD.
    { rewrite E in Es. unfold slot in *. destruct (Z.eqb_spec k NDIRECT) as [->|Hne]; [by apply take_indirect; auto|].
      apply take_direct; auto. lia. }
    apply fills_adds; [|done|apply T]. eapply extends_adds; [done|done|exact AD|by apply tracks_take; auto|done|done|].
    intros a _. by apply take_zero.
  - exists W. apply fills_already; [done|congruence].
Qed.

(** The entry of the indirect block. *)
Lemma entry_ok W g i off bn : appending W g i off -> 0 <= off -> indirect i <> 0 -> NDIRECT <= bn < MAXFILE ->
  (block_of W i bn = 0 -> g_freeblock g < FSSIZE) ->
  wp (ind <- rsect (xint (addr i NDIRECT)) ;;
      ind <- (if load32 ind (4 * (bn - NDIRECT)) =? 0 then
                b <- new_block ;;
                let ind := store32 ind (4 * (bn - NDIRECT)) (xint b) in
                wsect (xint (addr i NDIRECT)) ind ;;;
                ret ind
              else ret ind) ;;
      ret (xint (load32 ind (4 * (bn - NDIRECT))), i)) g
    (fun r g' => exists W', fills W g i (Some bn) off W' g' r.2 /\ r.1 = block_of W' r.2 bn).
Proof.
  intros A Hoff Hi Hbn Hfb. pose proof A as [T F TL]. pose proof (tr_meta _ _ T) as Hm. change nmeta with 59 in Hm. unfold FSSIZE in *.
  rewrite xint_id by (by eapply addr_range). change (addr i NDIRECT) with (indirect i).
  destruct (fo_data _ _ _ F None I Hi) as [Hr Hu]. cbn [at_place] in Hr, Hu. rewrite (tracks_used W g) in Hu by done.
  assert (forall V, block_of V i bn = load32 (V (indirect i)) (4 * (bn - NDIRECT))) as EB.
  { intros V. unfold block_of. destruct (Z.ltb_spec bn NDIRECT); [lia|]. destruct (Z.eqb_spec (indirect i) 0); [done|done]. }
  unfold rsect. apply wp_bind, wp_bind. wp_steps. rewrite (tr_size _ _ T). change (sb_size sb) with FSSIZE in Hr. unfold FSSIZE in *.
  destruct (Z.ltb_spec (indirect i) 1000); [|lia]. wp_steps. rewrite <- (tr_blocks _ _ T) by lia. pose proof (EB W) as EW. rewrite <- EW.
  destruct (Z.eqb_spec (block_of W i bn) 0) as [E|E]; unfold new_block, wsect; wp_steps; cbn [fst snd].
  - rewrite (xint_id (g_freeblock g)) by lia. set (m := store32 _ _ _). set (fb := g_freeblock g) in *.
    pose proof (take_entry W g i T F ltac:(unfold FSSIZE; lia) bn Hi Hbn E) as AD. fold fb m in AD. eexists. split.
    + apply fills_adds; [|exact AD|apply T]. eapply extends_adds; [done|done|exact AD| |done|done|].
      * apply (tracks_upd (take_view W fb) (g <| g_freeblock ::= fun n => n + 1 |>)); [by apply tracks_take; unfold FSSIZE; auto; lia|cbn; lia|lia].
      * intros a _. unfold upd_view. rewrite decide_False by lia. by apply take_zero.
    + rewrite EB. unfold upd_view. rewrite decide_True by done. apply xint_id, load32_range.
  - exists W. split; [by apply fills_already|]. rewrite EW. apply xint_id, load32_range.
Qed.

Definition count (W : Z -> mem) (i : inode) (bn : Z) : Z :=
  (if decide (block_of W i bn = 0) then 1 else 0) + (if decide (NDIRECT <= bn /\ indirect i = 0) then 1 else 0).

Lemma iappend_block_ok W g i off bn : appending W g i off -> 0 <= off -> 0 <= bn < MAXFILE -> g_freeblock g + count W i bn <= FSSIZE ->
  wp (iappend_block i bn) g (fun r g' => exists W', extends W g i W' g' r.2 off (count W i bn) /\ r.1 = block_of W' r.2 bn /\ r.1 <> 0 /\
    (block_of W i bn <> 0 -> r.2 = i) /\
    forall pl, valid_place pl -> at_place W' r.2 pl <> 0 <-> pl = Some bn \/ (pl = None /\ NDIRECT <= bn) \/ at_place W i pl <> 0).
Proof.
  intros A Hoff Hbn Hfb. unfold iappend_block, count in *. destruct (Z.ltb_spec bn NDIRECT) as [Hd|Hd].
  - rewrite (decide_False (P := NDIRECT <= bn /\ _)) in Hfb by lia. rewrite (decide_False (P := NDIRECT <= bn /\ _)) by lia.
    assert (slot bn = Some bn) as Es by (unfold slot; destruct (Z.eqb_spec bn NDIRECT); [lia|done]).
    apply wp_bind. eapply wp_mono; [apply (fill_ok W g i off bn A Hoff); [lia|]|].
    { intros E. rewrite (addr_slot W), Es in E by lia. cbn in E. rewrite decide_True in Hfb by done. lia. }
    cbn beta. intros i' g' (W' & X). rewrite Es in X. destruct X as [X1 X2 X3 X4]. wp_steps. cbn [fst snd]. exists W'.
    rewrite xint_id by (eapply addr_range; apply X1). rewrite (addr_slot W'), Es by lia. rewrite Z.add_0_r. split_and!; [done|done|done|done|].
    intros pl Hv. destruct (decide (pl = Some bn)) as [->|Hne]; [tauto|]. rewrite X3 by done. intuition lia.
  - apply wp_bind. assert (slot NDIRECT = None) as Es by done.
    eapply wp_mono; [apply (fill_ok W g i off NDIRECT A Hoff); [unfold NDIRECT; lia|]|].
    { intros E. change (indirect i = 0) in E. rewrite (decide_True (P := _ /\ _)) in Hfb by done. case_decide; lia. }
    cbn beta. intros i1 g1 (W1 & X). rewrite Es in X. destruct X as [X1 X2 X3 X4].
    pose proof (X3 (Some bn) Hbn ltac:(done)) as EB. cbn in EB, X1. pose proof (ex_count _ _ _ _ _ _ _ _ X1) as EC.
    eapply wp_mono; [apply (entry_ok W1 g1 i1 off bn); [apply X1|done|exact X2|lia|]|].
    { rewrite EB, EC. intros E. rewrite decide_True in Hfb by done. do 2 case_decide; intuition lia. }
    cbn beta. intros [x i2] g2 (W2 & [Y1 Y2 Y3 Y4] & E2). cbn [fst snd] in *. exists W2. cbn in Y1, Y2. rewrite EB in Y1. split_and!; [|done|by rewrite E2| |].
    + rewrite Z.add_comm. destruct (decide (indirect i = 0)); [rewrite decide_True by done|rewrite decide_False by tauto];
        by eapply extends_trans.
    + intros Hne. rewrite Y4 by (cbn; by rewrite EB). apply X4. cbn. intros E. apply Hne. unfold block_of.
      destruct (Z.ltb_spec bn NDIRECT); [lia|]. by rewrite E.
    + intros pl Hv. destruct (decide (pl = Some bn)) as [->|Hne]; [tauto|]. rewrite Y3 by done.
      destruct (decide (pl = None)) as [->|Hn]; [tauto|]. rewrite X3 by done. tauto.
Qed.

(** The bytes of one turn of the loop: [n] of them, up to the end of the block at most. *)
Definition turn (off n : Z) : Prop := 1 <= n <= (off / BSIZE + 1) * BSIZE - off.

Lemma turn_reach off n pl : 0 <= off -> turn off n ->
  reach pl (off + n) <-> pl = Some (off / BSIZE) \/ (pl = None /\ NDIRECT <= off / BSIZE) \/ reach pl off.
Proof.
  unfold turn, reach, NDIRECT, BSIZE. intros Ho Hn. destruct pl as [bn|]; split.
  - intros H. destruct (decide (bn = off / 512)) as [->|]; [by left|]. right; right. dlia.
  - intros [[= ->]|[[? _]|H]]; [dlia|done|lia].
  - intros H. destruct (decide (12 * 512 < off)); [tauto|]. right; left. split; [done|]. dlia.
  - intros [?|[[_ H]|H]]; [done|dlia|lia].
Qed.

Lemma turn_count W i off n : upto W i off -> 0 <= off < MAXFILE * BSIZE -> turn off n ->
  count W i (off / BSIZE) = needed (off + n) - needed off.
Proof.
  intros U Ho Hn. pose proof (block_range off Ho) as Hbn. pose proof (U (Some (off / BSIZE)) Hbn) as Ub. pose proof (U None I) as Ui.
  cbn in Ub, Ui. unfold count, needed, turn, NDIRECT, BSIZE in *.
  destruct (decide (block_of W i (off / 512) = 0)), (decide (12 <= off / 512 /\ indirect i = 0)) as [[? ?]|?],
    (Z.ltb_spec (12 * 512) (off + n)), (Z.ltb_spec (12 * 512) off);
    destruct (decide (off mod 512 = 0)); destruct (decide (indirect i = 0)); try (exfalso; dlia); dlia.
Qed.

Lemma needed_mono a b : 0 <= a <= b -> needed a <= needed b.
Proof. intros H. unfold needed, NDIRECT, BSIZE. destruct (Z.ltb_spec (12 * 512) a), (Z.ltb_spec (12 * 512) b); dlia. Qed.

(** What iappend's loop does. *)
Record appends (W : Z -> mem) (g : image) (i : inode) (off : Z) (p : list Z) (W' : Z -> mem) (g' : image) (i' : inode) : Prop := {
  as_wrote : wrote sb W i off p W' i';
  as_app : appending W' g' i' (off + Z.of_nat (length p));
  as_upto : upto W' i' (off + Z.of_nat (length p));
  as_inode : g_freeinode g' = g_freeinode g;
  as_count : g_freeblock g' = g_freeblock g + (needed (off + Z.of_nat (length p)) - needed off)
}.

Lemma turn_ok W g i off l W1 g1 i1 k : 0 <= off < MAXFILE * BSIZE -> turn off (Z.of_nat (length l)) -> is_bytes l -> upto W i off ->
  extends W g i W1 g1 i1 off k -> block_of W1 i1 (off / BSIZE) <> 0 -> (block_of W i (off / BSIZE) <> 0 -> i1 = i) ->
  upto W1 i1 (off + Z.of_nat (length l)) -> k = needed (off + Z.of_nat (length l)) - needed off ->
  let a := block_of W1 i1 (off / BSIZE) in let m := store_bytes (W1 a) (off mod BSIZE) l in
  appends W g i off l (upd_view W1 a m) (g1 <| g_blocks := upd_view (g_blocks g1) a m |> <| g_size := Z.max (g_size g1) (a + 1) |>) i1.
Proof.
  intros Ho Hn Hl U [[T F TL] G D E1 E2] Ha Hs U1 Hk a m. pose proof (block_range off Ho) as Hbn.
  assert (off mod BSIZE + Z.of_nat (length l) <= BSIZE) as Hfit by (unfold turn, BSIZE in *; dlia).
  assert (l <> []) as Hne by (intros ->; unfold turn in Hn; cbn in Hn; lia).
  destruct (fo_data _ _ _ F (Some (off / BSIZE)) Hbn Ha) as [Hr Hu]. cbn [at_place] in Hr, Hu. fold a in Hr, Hu.
  rewrite (tracks_used W1 g1) in Hu by done.
  pose proof (wrote_block sb W1 i1 W1 i1 off l (grows_refl sb W1 i1 F) ltac:(done) ltac:(done) Ha Ho Hne Hfit Hl) as W2. cbn zeta in W2. fold a m in W2.
  constructor.
  - by apply wrote_block.
  - constructor; [apply tracks_upd; [done|lia|lia]|apply W2|]. intros o Hoo Hob.
    pose proof (write_places sb W1 i1 (off / BSIZE) m (Some (o / BSIZE)) F Hbn Ha (block_range o ltac:(lia))) as E. cbn in E. fold a in E. rewrite E in Hob.
    rewrite (wr_out _ _ _ _ _ _ _ W2) by (done || lia). apply TL; [lia|done].
  - intros pl Hv. rewrite <- (U1 pl Hv). unfold a. by rewrite (write_places sb W1 i1 (off / BSIZE) m pl F Hbn Ha Hv).
  - done.
  - cbn. lia.
Qed.

(** One turn of the loop and what follows it. *)
Lemma iappend_turn W g i off l {A} (k : inode -> M image A) Q : appending W g i off -> upto W i off -> is_bytes l ->
  0 <= off < MAXFILE * BSIZE -> turn off (Z.of_nat (length l)) ->
  g_freeblock g + (needed (off + Z.of_nat (length l)) - needed off) <= FSSIZE ->
  (forall W' g' i', appends W g i off l W' g' i' -> wp (k i') g' Q) ->
  wp (let* (x, din) := iappend_block i (off / BSIZE) ;;
      buf <- rsect x ;;
      wsect x (store_bytes buf (off - off / BSIZE * BSIZE) l) ;;;
      k din) g Q.
Proof.
  intros AP U Hl Ho Hn Hfb K. pose proof (block_range off Ho) as Hbn. pose proof (turn_count W i off _ U Ho Hn) as EC.
  apply wp_bind. eapply wp_mono; [apply (iappend_block_ok W g i off (off / BSIZE) AP); [lia|done|lia]|].
  cbn beta. intros [x i1] g1 (W1 & X & Ex & Hx & Hsame & Hpl). cbn [fst snd] in *.
  assert (upto W1 i1 (off + Z.of_nat (length l))) as U1.
  { intros pl Hv. rewrite Hpl by done. rewrite (turn_reach off _ pl ltac:(lia) Hn), (U pl Hv). done. }
  pose proof (turn_ok W g i off l W1 g1 i1 _ Ho Hn Hl U X ltac:(congruence) Hsame U1 EC) as Y. cbn zeta in Y. rewrite <- Ex in Y.
  destruct (fo_data _ _ _ (ap_file _ _ _ _ (ex_app _ _ _ _ _ _ _ _ X)) (Some (off / BSIZE)) Hbn) as [Hr _]; cbn [at_place] in *; [congruence|].
  rewrite <- Ex in Hr. change (sb_size sb) with FSSIZE in Hr. pose proof (ap_tracks _ _ _ _ (ex_app _ _ _ _ _ _ _ _ X)) as T1.
  unfold rsect, wsect. apply wp_bind, wp_bind. wp_steps. rewrite (tr_size _ _ T1). destruct (Z.ltb_spec x FSSIZE); [|lia]. wp_steps.
  rewrite <- (tr_blocks _ _ T1) by lia. replace (off - off / BSIZE * BSIZE) with (off mod BSIZE) by (unfold BSIZE; dlia).
  exact (K _ _ _ Y).
Qed.

Lemma appends_trans W g i off l W1 g1 i1 l' W2 g2 i2 : 0 <= off -> off + Z.of_nat (length l + length l') <= MAXFILE * BSIZE ->
  appends W g i off l W1 g1 i1 -> appends W1 g1 i1 (off + Z.of_nat (length l)) l' W2 g2 i2 -> appends W g i off (l ++ l') W2 g2 i2.
Proof.
  intros Hoff Hmax [A1 A2 A3 A4 A5] [B1 B2 B3 B4 B5].
  assert (off + Z.of_nat (length (l ++ l')) = off + Z.of_nat (length l) + Z.of_nat (length l')) as E by (rewrite length_app; lia).
  constructor; rewrite ?E; [by eapply wrote_trans|done|done|congruence|lia].
Qed.

Lemma appends_nil W g i off : appending W g i off -> upto W i off -> appends W g i off [] W g i.
Proof. intros A U. constructor; cbn [length]; rewrite ?Z.add_0_r; try done; [apply wrote_nil; apply A|lia]. Qed.

Lemma iappend_loop_ok fuel : forall W g i off p, (length p <= fuel)%nat -> appending W g i off -> upto W i off -> is_bytes p ->
  0 <= off -> off + Z.of_nat (length p) <= MAXFILE * BSIZE ->
  g_freeblock g + (needed (off + Z.of_nat (length p)) - needed off) <= FSSIZE ->
  wp (iappend_loop fuel i off p) g (fun r g' => r.2 = off + Z.of_nat (length p) /\ exists W', appends W g i off p W' g' r.1).
Proof.
  induction fuel as [|fuel IH]; intros W g i off p Hf A U Hp Hoff Hmax Hfb; (destruct p as [|b p0]; [|]).
  1, 3: cbn; rewrite Z.add_0_r; split; [done|]; exists W; by apply appends_nil.
  - cbn in Hf. lia.
  - set (p := b :: p0) in *. assert (0 < Z.of_nat (length p)) as Hp0 by (cbn; lia). cbn [iappend_loop]. fold p.
    pose proof (block_range off ltac:(lia)) as Hbn. unfold p at 1. cbn iota. fold p.
    destruct (Z.ltb_spec (off / BSIZE) MAXFILE); [|lia]. cbn [negb].
    set (n1 := Z.to_nat _). assert (turn off (Z.of_nat n1) /\ (0 < n1 <= length p)%nat) as [Hn Hn1] by (unfold turn, n1, BSIZE in *; split; [dlia|dlia]).
    assert (length (take n1 p) = n1) as Et by (rewrite length_take; lia).
    pose proof (needed_mono (off + Z.of_nat n1) (off + Z.of_nat (length p)) ltac:(lia)) as Hmono.
    apply (iappend_turn W g i off (take n1 p) (fun din => iappend_loop fuel din (off + Z.of_nat n1) (drop n1 p))); [done|done|by apply Forall_take|lia|by rewrite Et|rewrite Et; lia|].
    intros W1 g1 i1 Y. pose proof (as_count _ _ _ _ _ _ _ _ Y) as EC. rewrite Et in EC.
    pose proof (take_drop n1 p) as Ep. assert (length (drop n1 p) = length p - n1)%nat as Ed by apply length_drop.
    eapply wp_mono; [apply (IH W1 g1 i1)|].
    + lia.
    + rewrite <- Et at 1. apply Y.
    + rewrite <- Et at 1. apply Y.
    + by apply Forall_drop.
    + lia.
    + lia.
    + replace (off + Z.of_nat n1 + Z.of_nat (length (drop n1 p))) with (off + Z.of_nat (length p)) by lia. lia.
    + cbn beta. intros r g2 (E & W2 & Y2). split; [lia|]. exists W2. rewrite <- Ep. eapply appends_trans; [done|lia|exact Y|by rewrite Et].
Qed.

(** ** The inodes of the image *)

Definition read_inode (V : Z -> mem) (inum : Z) : inode := dinode_load (V (IBLOCK inum sb)) (dinode_off inum) (blank inum).
Definition put_inode (V : Z -> mem) (inum : Z) (i : inode) : Z -> mem :=
  upd_view V (IBLOCK inum sb) (dinode_store (V (IBLOCK inum sb)) (dinode_off inum) i).

(** The inode is one of mkfs: only the fields that are on disk are set. *)
Definition plain (inum : Z) (i : inode) : Prop :=
  i = (blank inum) <| i_type := i_type i |> <| i_major := i_major i |> <| i_minor := i_minor i |> <| i_nlink := i_nlink i |>
    <| i_size := i_size i |> <| i_addrs := i_addrs i |>.

Definition inode_range (inum : Z) : Prop := 0 < inum < 200.

Lemma IBLOCK_range inum : inode_range inum -> 32 <= IBLOCK inum sb < bm.
Proof. unfold inode_range, IBLOCK. change IPB with 8. change (sb_inodestart sb) with 32. change bm with 58. dlia. Qed.

Lemma read_plain V inum : plain inum (read_inode V inum).
Proof. done. Qed.

Lemma dinode_load_eq m dip i : dinode_load m dip i =
  {| i_dev := i_dev i; i_inum := i_inum i; i_ref := i_ref i; i_lock := i_lock i; i_valid := i_valid i; i_type := i16 (load16 m dip);
     i_major := i16 (load16 m (dip + 2)); i_minor := i16 (load16 m (dip + 4)); i_nlink := i16 (load16 m (dip + 6));
     i_size := load32 m (dip + 8); i_addrs := load_words m (dip + 12) 13 |}.
Proof. destruct i. reflexivity. Qed.

Lemma dinode_load_twice m dip i : dinode_load m dip (dinode_load m dip i) = dinode_load m dip i.
Proof. by rewrite !dinode_load_eq. Qed.

Lemma read_on_disk V inum : disk_inode sb V (read_inode V inum).
Proof. unfold disk_inode. change (i_inum (read_inode V inum)) with inum. change (iblock sb (read_inode V inum)) with (IBLOCK inum sb). apply dinode_load_twice. Qed.

Lemma read_put V inum i : plain inum i -> inode_fits i -> 0 <= i_size i < 2 ^ 32 -> length (i_addrs i) = 13%nat ->
  Forall (fun v => 0 <= v < 2 ^ 32) (i_addrs i) -> read_inode (put_inode V inum i) inum = i.
Proof.
  intros Hp Hf Hs Hl Ha. unfold read_inode, put_inode, upd_view. rewrite decide_True by done.
  rewrite <- (dinode_roundtrip (V (IBLOCK inum sb)) (dinode_off inum) i Hf Hs Hl Ha) at 2. rewrite Hp. done.
Qed.

Lemma read_put_ne V inum i j : length (i_addrs i) = 13%nat -> 0 <= inum -> 0 <= j -> inum <> j ->
  read_inode (put_inode V inum i) j = read_inode V j.
Proof.
  intros Hl Hi Hj Hne. unfold read_inode, put_inode, upd_view. case_decide as E; [|done].
  apply dinode_load_ext. intros b Hb. rewrite E. apply dinode_frame; [done|].
  unfold IBLOCK in E. unfold dinode_off, DINODE_SIZE, IPB, BSIZE in *. change (512 / 64) with 8 in *. dlia.
Qed.

Lemma put_inode_ne V inum i c : inode_range inum -> bm <= c -> put_inode V inum i c = V c.
Proof. intros Hi Hc. pose proof (IBLOCK_range inum Hi). unfold put_inode, upd_view. rewrite decide_False by lia. done. Qed.

Lemma winode_ok W g inum i : tracks W g -> inode_range inum ->
  wp (winode inum i) g (fun _ g' => tracks (put_inode W inum i) g' /\ g_freeinode g' = g_freeinode g /\ g_freeblock g' = g_freeblock g).
Proof.
  intros T Hi. pose proof (IBLOCK_range inum Hi) as Hb. pose proof (tr_meta _ _ T) as Hm. change nmeta with 59 in Hm. change bm with 58 in Hb.
  unfold winode, rsect, wsect. wp_steps. rewrite (tr_size _ _ T). unfold FSSIZE. destruct (Z.ltb_spec (IBLOCK inum sb) 1000); [|lia]. wp_steps.
  split_and!; [|done|done]. unfold put_inode. rewrite (tr_blocks _ _ T) by (change bm with 58; lia). apply tracks_upd; [done|lia|change bm with 58; lia].
Qed.

Lemma rinode_ok W g inum (Q : inode -> image -> Prop) : tracks W g -> inode_range inum -> Q (read_inode W inum) g -> wp (rinode inum) g Q.
Proof.
  intros T Hi HQ. pose proof (IBLOCK_range inum Hi) as Hb. change bm with 58 in Hb.
  unfold rinode, rsect. wp_steps. rewrite (tr_size _ _ T). unfold FSSIZE. destruct (Z.ltb_spec (IBLOCK inum sb) 1000); [|lia]. wp_steps.
  unfold read_inode in HQ. by rewrite (tr_blocks _ _ T) in HQ by (change bm with 58; lia).
Qed.

(** The inode [inum] of the image is a file of type [t] with the bytes [l]. *)
Record holds (V : Z -> mem) (inum : Z) (t : Z) (l : list Z) : Prop := {
  ho_file : file_ok sb V (read_inode V inum);
  ho_size : i_size (read_inode V inum) = Z.of_nat (length l);
  ho_contents : contents V (read_inode V inum) = l;
  ho_tail : tail0 V (read_inode V inum) (Z.of_nat (length l));
  ho_upto : upto V (read_inode V inum) (Z.of_nat (length l));
  ho_type : i_type (read_inode V inum) = t;
  ho_nlink : i_nlink (read_inode V inum) = 1;
  ho_fits : inode_fits (read_inode V inum)
}.

Lemma holds_kept V V' inum t l : holds V inum t l -> read_inode V' inum = read_inode V inum ->
  (forall c, owned V (read_inode V inum) c -> V' c = V c) -> bitmap_ok sb V' -> (forall c, used sb V c -> used sb V' c) ->
  holds V' inum t l.
Proof.
  intros [H1 H2 H3 H4 H5 H6 H7 H8] E K B U. constructor; rewrite ?E; try done.
  - by eapply kept_file.
  - by rewrite (kept_contents sb V V').
  - intros o Ho Hne. assert (0 <= o < MAXFILE * BSIZE) as Ho' by lia.
    pose proof (kept_place V V' _ K (Some (o / BSIZE)) (block_range o Ho')) as E'. cbn [at_place] in E'. rewrite E' in Hne.
    rewrite (kept_byte V V' _ K) by done. by apply H4.
  - intros pl Hv. rewrite (kept_place V V' _ K) by done. by apply H5.
Qed.

Lemma holds_range V inum t l : holds V inum t l -> is_bytes l.
Proof.
  intros H. rewrite <- (ho_contents _ _ _ _ H). unfold contents, file_bytes. apply Forall_fmap, Forall_true.
  intros o. apply load8_range.
Qed.

Definition total (fs : list (Z * list Z)) : Z := foldr (fun f n => needed (Z.of_nat (length f.2)) + n) 0 fs.

Lemma total_app fs fs' : total (fs ++ fs') = total fs + total fs'.
Proof. unfold total. induction fs as [|f fs IH]; [done|]. cbn in *. lia. Qed.

Lemma total_insert fs : forall k t l t' l', fs !! k = Some (t, l) ->
  total (<[k := (t', l')]> fs) = total fs + (needed (Z.of_nat (length l')) - needed (Z.of_nat (length l))).
Proof.
  induction fs as [|f fs IH]; intros [|k] t l t' l' Hk; [done|done|injection Hk as ->; cbn [insert list_insert total foldr]; unfold total; cbn; lia|].
  change (needed (Z.of_nat (length f.2)) + total (<[k := (t', l')]> fs) =
    needed (Z.of_nat (length f.2)) + total fs + (needed (Z.of_nat (length l')) - needed (Z.of_nat (length l)))).
  rewrite (IH k t l t' l' Hk). lia.
Qed.

Definition super_bytes : mem := store_words ∅ 0 [FSSIZE; nblocks; NINODES; nlog; 2; 2 + nlog; 2 + nlog + ninodeblocks].

(** The image so far: the files [fs], in the order of their inodes from 1 on. *)
Record holding (W : Z -> mem) (g : image) (fs : list (Z * list Z)) : Prop := {
  hg_tracks : tracks W g;
  hg_freeinode : g_freeinode g = 1 + Z.of_nat (length fs);
  hg_count : g_freeblock g = nmeta + total fs;
  hg_file : forall k t l, fs !! k = Some (t, l) -> holds W (1 + Z.of_nat k) t l;
  hg_disjoint : forall k k' c, (k < length fs)%nat -> (k' < length fs)%nat -> k <> k' ->
    owned W (read_inode W (1 + Z.of_nat k)) c -> ~ owned W (read_inode W (1 + Z.of_nat k')) c;
  hg_free : forall j, 1 + Z.of_nat (length fs) <= j < NINODES -> i_type (read_inode W j) = 0;
  hg_super : forall c, 0 <= c < sb_inodestart sb -> W c = if decide (c = 1) then super_bytes else ∅
}.

Lemma tracks_bitmap W g : tracks W g -> bitmap_ok sb W.
Proof.
  intros T. constructor; [done|done|]. intros c Hc. rewrite (tracks_used W g c T). pose proof (tr_meta _ _ T) as Hm.
  change nmeta with 59 in Hm. change bm with 58 in Hc. lia.
Qed.

(** ** A file gets longer *)

Section Append.
Context (W : Z -> mem) (g : image) (inum t : Z) (l p : list Z) (W1 : Z -> mem) (g1 : image) (i1 : inode).
Abbreviation i := (read_inode W inum).
Abbreviation off := (Z.of_nat (length l)).
Abbreviation off' := (off + Z.of_nat (length p)).
Abbreviation i2 := (i1 <| i_size := off' |>).
Abbreviation W2 := (put_inode W1 inum i2).
Context (H : holds W inum t l) (A : appends W g i off p W1 g1 i1) (Hi : inode_range inum) (Hmax : off' <= MAXFILE * BSIZE).

Lemma append_file1 : file_ok sb W1 i2.
Proof.
  apply size_ok; [apply A|lia|]. intros bn Hbn Hlt. apply (as_upto _ _ _ _ _ _ _ _ A (Some bn)); [|exact Hlt].
  cbn. unfold BSIZE in *. lia.
Qed.

Lemma append_kept c : owned W1 i2 c -> W2 c = W1 c.
Proof.
  intros (Hc & pl & Hv & E). destruct (fo_data _ _ _ append_file1 pl Hv) as [Hr _]; [congruence|]. apply put_inode_ne; [done|lia].
Qed.

Lemma append_read : read_inode W2 inum = i2.
Proof.
  pose proof (gr_inode _ _ _ _ _ (wr_grows _ _ _ _ _ _ _ (as_wrote _ _ _ _ _ _ _ _ A))) as E. pose proof (ho_fits _ _ _ _ H) as F.
  pose proof (fo_size _ _ _ append_file1) as Hs. change (MAXFILE * BSIZE) with 71680 in Hs.
  assert (i_size i2 = off') as Es by done. apply read_put; [|destruct F; constructor; by rewrite E|lia|apply append_file1|apply (addrs_range _ _ _ append_file1)].
  unfold plain. rewrite E. done.
Qed.

Lemma append_bitmap : bitmap_ok sb W2.
Proof.
  pose proof (fo_bitmap _ _ _ append_file1) as [B1 B2 B3]. constructor; [done|done|]. intros c Hc. unfold used. rewrite put_inode_ne by (done || lia).
  by apply B3.
Qed.

Lemma append_used c : used sb W2 c <-> used sb W1 c.
Proof. unfold used. by rewrite put_inode_ne by (done || lia). Qed.

Lemma append_file2 : file_ok sb W2 i2.
Proof. apply (kept_file sb W1 W2 i2 append_file1 append_kept append_bitmap). intros c. apply append_used. Qed.

Lemma append_holds : holds W2 inum t (l ++ p).
Proof.
  assert (Z.of_nat (length (l ++ p)) = off') as El by (rewrite length_app; lia).
  pose proof (gr_inode _ _ _ _ _ (wr_grows _ _ _ _ _ _ _ (as_wrote _ _ _ _ _ _ _ _ A))) as E.
  assert (forall o, 0 <= o < MAXFILE * BSIZE -> block_of W1 i2 (o / BSIZE) <> 0 -> file_byte W2 i2 o = file_byte W1 i2 o) as EB
    by (intros; apply kept_byte; [exact append_kept|done|done]).
  pose proof (kept_place W1 W2 i2 append_kept) as EP.
  constructor; rewrite append_read, ?El.
  - exact append_file2.
  - done.
  - rewrite (kept_contents sb W1 W2 i2 append_file1 append_kept).
    rewrite (wrote_contents sb W i off p W1 i1 i2); [|apply H|apply A|pose proof (ho_size _ _ _ _ H) as ->; lia|done|done|pose proof (ho_size _ _ _ _ H) as ->; cbn; lia].
    rewrite (ho_contents _ _ _ _ H). unfold splice. rewrite Nat2Z.id, take_ge, drop_ge, app_nil_r by lia. done.
  - intros o Ho Hne. assert (0 <= o < MAXFILE * BSIZE) as Ho' by lia. pose proof (EP (Some (o / BSIZE)) (block_range o Ho')) as E'. cbn [at_place] in E'.
    rewrite E' in Hne. rewrite EB by done. by apply (ap_tail _ _ _ _ (as_app _ _ _ _ _ _ _ _ A)).
  - intros pl Hv. rewrite EP by done. by apply (as_upto _ _ _ _ _ _ _ _ A).
  - change (i_type i2) with (i_type i1). rewrite E. apply H.
  - change (i_nlink i2) with (i_nlink i1). rewrite E. apply H.
  - pose proof (ho_fits _ _ _ _ H) as F. destruct F. constructor; by rewrite E.
Qed.

(** Its new blocks were nobody's. *)
Lemma append_owned c : owned W2 (read_inode W2 inum) c -> owned W i c \/ ~ used sb W c.
Proof.
  rewrite append_read. intros Ho%(kept_owned W1 W2 i2 append_kept).
  apply (gr_new _ _ _ _ _ (wr_grows _ _ _ _ _ _ _ (as_wrote _ _ _ _ _ _ _ _ A))). exact Ho.
Qed.

Lemma append_frame c : used sb W c -> c <> bm -> ~ owned W i c -> W1 c = W c.
Proof. apply (gr_frame _ _ _ _ _ (wr_grows _ _ _ _ _ _ _ (as_wrote _ _ _ _ _ _ _ _ A))). Qed.

Lemma append_meta c : 0 <= c < bm -> W1 c = W c.
Proof.
  intros Hc. apply append_frame; [apply (bo_meta _ _ (fo_bitmap _ _ _ (ho_file _ _ _ _ H))); lia|lia|].
  intros (Hc0 & pl & Hv & E). destruct (fo_data _ _ _ (ho_file _ _ _ _ H) pl Hv) as [Hr _]; [congruence|]. lia.
Qed.

Lemma append_other_read j : 0 <= j < 200 -> inum <> j -> read_inode W2 j = read_inode W j.
Proof.
  intros Hj Hne. rewrite read_put_ne; [|apply append_file1|unfold inode_range in *; lia|lia|done]. unfold read_inode. rewrite append_meta; [done|].
  unfold IBLOCK. change IPB with 8. change (sb_inodestart sb) with 32. change bm with 58. dlia.
Qed.

Section Other.
Context (j tj : Z) (lj : list Z) (Hj : holds W j tj lj) (Hr : 0 <= j < 200) (Hne : inum <> j).
Context (Hd : forall c, owned W (read_inode W j) c -> ~ owned W i c).

Lemma append_other_block c : owned W (read_inode W j) c -> W2 c = W c.
Proof.
  intros Ho. pose proof Ho as (Hc & pl & Hv & E). destruct (fo_data _ _ _ (ho_file _ _ _ _ Hj) pl Hv) as [Hb Hu]; [congruence|].
  rewrite E in Hb, Hu. rewrite put_inode_ne by (done || lia). apply append_frame; [done|lia|by apply Hd].
Qed.

Lemma append_other : holds W2 j tj lj.
Proof.
  apply (holds_kept W W2 j tj lj Hj); [by apply append_other_read|exact append_other_block|exact append_bitmap|].
  intros c Hu. apply append_used. by apply (gr_used _ _ _ _ _ (wr_grows _ _ _ _ _ _ _ (as_wrote _ _ _ _ _ _ _ _ A))).
Qed.

Lemma append_other_owned c : owned W2 (read_inode W2 j) c <-> owned W (read_inode W j) c.
Proof. rewrite append_other_read by done. apply (kept_owned W W2). exact append_other_block. Qed.
End Other.
End Append.

Lemma owned_used W inum t l c : holds W inum t l -> owned W (read_inode W inum) c -> used sb W c.
Proof. intros H (Hc & pl & Hv & E). destruct (fo_data _ _ _ (ho_file _ _ _ _ H) pl Hv); congruence. Qed.

Lemma holding_lookup W g fs k : holding W g fs -> (k < length fs)%nat -> exists t l, holds W (1 + Z.of_nat k) t l.
Proof.
  intros G Hk. destruct (lookup_lt_is_Some_2 fs k Hk) as [[t l] E]. exists t, l. by apply (hg_file _ _ _ G).
Qed.

Lemma holding_append W g fs k t l p W1 g1 i1 g2 : holding W g fs -> Z.of_nat (length fs) < 200 -> fs !! k = Some (t, l) ->
  Z.of_nat (length l) + Z.of_nat (length p) <= MAXFILE * BSIZE ->
  let inum := 1 + Z.of_nat k in
  appends W g (read_inode W inum) (Z.of_nat (length l)) p W1 g1 i1 ->
  let W2 := put_inode W1 inum (i1 <| i_size := Z.of_nat (length l) + Z.of_nat (length p) |>) in
  tracks W2 g2 -> g_freeinode g2 = g_freeinode g1 -> g_freeblock g2 = g_freeblock g1 ->
  holding W2 g2 (<[k := (t, l ++ p)]> fs).
Proof.
  intros G Hlen Hk Hmax inum A W2 T2 Ei Eb. pose proof (hg_file _ _ _ G k t l Hk) as H. fold inum in H.
  pose proof (lookup_lt_Some _ _ _ Hk) as Hlt. assert (inode_range inum) as Hi by (unfold inode_range, inum; lia).
  assert (forall k', (k' < length fs)%nat -> k' <> k -> forall c, owned W (read_inode W (1 + Z.of_nat k')) c -> ~ owned W (read_inode W inum) c) as Hd
    by (intros k' H1 H2 c; by apply (hg_disjoint _ _ _ G)).
  assert (forall k' c, (k' < length fs)%nat -> k' <> k -> owned W2 (read_inode W2 (1 + Z.of_nat k')) c <-> owned W (read_inode W (1 + Z.of_nat k')) c) as Ho.
  { intros k' c H1 H2. destruct (holding_lookup _ _ _ k' G H1) as (t' & l' & H').
    eapply append_other_owned; eauto; unfold inum; lia. }
  assert (forall k' c, (k' < length fs)%nat -> k' <> k -> owned W2 (read_inode W2 inum) c -> ~ owned W (read_inode W (1 + Z.of_nat k')) c) as Hn.
  { intros k' c H1 H2 O O'. destruct (append_owned W g inum t l p W1 g1 i1 H A Hi Hmax c O) as [Oi|Hu]; [by apply (Hd k' H1 H2 c)|].
    destruct (holding_lookup _ _ _ k' G H1) as (t' & l' & H'). apply Hu. by eapply owned_used. }
  constructor; try rewrite length_insert.
  - done.
  - rewrite Ei, (as_inode _ _ _ _ _ _ _ _ A). apply G.
  - rewrite Eb, (as_count _ _ _ _ _ _ _ _ A), (hg_count _ _ _ G), (total_insert fs k t l) by done. rewrite length_app, Nat2Z.inj_add. lia.
  - intros k' t' l' [(-> & [= <- <-] & _)|[Hne Hk']]%list_lookup_insert_Some; [by eapply append_holds|].
    pose proof (lookup_lt_Some _ _ _ Hk'). eapply append_other; eauto; [by apply (hg_file _ _ _ G)| |]; unfold inum; lia.
  - intros k1 k2 c H1 H2 Hne O1 O2. destruct (decide (k1 = k)) as [->|N1]; [|destruct (decide (k2 = k)) as [->|N2]].
    + rewrite Ho in O2 by done. by apply (Hn k2 c).
    + rewrite Ho in O1 by done. by apply (Hn k1 c).
    + rewrite Ho in O1, O2 by done. by apply (hg_disjoint _ _ _ G k1 k2 c).
  - intros j Hj. unfold NINODES in Hj. unfold W2. rewrite (append_other_read W g inum t l p W1 g1 i1 H A Hi Hmax j) by (unfold inum; lia).
    apply (hg_free _ _ _ G). unfold NINODES. lia.
  - intros c Hc. rewrite <- (hg_super _ _ _ G c Hc). change (sb_inodestart sb) with 32 in Hc.
    unfold W2, put_inode, upd_view. pose proof (IBLOCK_range inum Hi). rewrite decide_False by lia.
    apply (append_meta W g inum t l p W1 g1 i1 H A). change bm with 58. lia.
Qed.

Lemma iappend_ok W g fs k t l p : holding W g fs -> Z.of_nat (length fs) < 200 -> fs !! k = Some (t, l) -> is_bytes p ->
  Z.of_nat (length l) + Z.of_nat (length p) <= MAXFILE * BSIZE -> nmeta + total (<[k := (t, l ++ p)]> fs) <= FSSIZE ->
  wp (iappend (1 + Z.of_nat k) p) g (fun _ g' => exists W', holding W' g' (<[k := (t, l ++ p)]> fs)).
Proof.
  intros G Hlen Hk Hp Hmax Hfb. pose proof (hg_file _ _ _ G k t l Hk) as H. set (inum := 1 + Z.of_nat k) in *.
  pose proof (lookup_lt_Some _ _ _ Hk) as Hlt. assert (inode_range inum) as Hi by (unfold inode_range, inum; lia).
  rewrite (total_insert fs k t l) in Hfb by done. rewrite length_app, Nat2Z.inj_add in Hfb. pose proof (hg_count _ _ _ G) as EC.
  change (MAXFILE * BSIZE) with 71680 in Hmax.
  unfold iappend. apply wp_bind, (rinode_ok W); [apply G|done|]. rewrite (ho_size _ _ _ _ H), xint_id by lia.
  apply wp_bind. eapply wp_mono; [apply (iappend_loop_ok (length p) W g (read_inode W inum) (Z.of_nat (length l)) p); try done; try lia|].
  - constructor; [apply G|apply H|apply H].
  - apply H.
  - cbn beta. intros [i1 off'] g1 (E & W1 & A). cbn [fst snd] in *. rewrite E, xint_id by lia.
    eapply wp_mono; [apply (winode_ok W1 g1 inum); [apply A|done]|]. cbn beta. intros _ g2 (T2 & E1 & E2). eexists. by eapply holding_append.
Qed.

(** ** A new inode *)

Section Ialloc.
Context (W : Z -> mem) (inum t : Z) (Hi : inode_range inum) (Ht : 0 < t < 2 ^ 15) (Hd : t <> T_DEV).
Abbreviation din := ((blank inum) <| i_type := t |> <| i_nlink := 1 |> <| i_size := 0 |>).
Abbreviation W2 := (put_inode W inum din).

Lemma new_read : read_inode W2 inum = din.
Proof. apply read_put; [done|constructor; cbn; lia|cbn; lia|done|cbn; repeat constructor; lia]. Qed.

Lemma new_place V pl : valid_place pl -> at_place V din pl = 0.
Proof.
  intros Hv. destruct pl as [bn|]; [|done]. cbn [at_place]. unfold block_of. destruct (Z.ltb_spec bn NDIRECT) as [Hlt|]; [|done].
  change (default 0 (replicate 13 0 !! Z.to_nat bn) = 0). destruct (replicate 13 0 !! Z.to_nat bn) eqn:E; [|done].
  by apply lookup_replicate in E as [-> _].
Qed.

Lemma new_owned V c : ~ owned V din c.
Proof. intros (Hc & pl & Hv & E). rewrite new_place in E by done. lia. Qed.

Lemma new_holds : bitmap_ok sb W2 -> holds W2 inum t [].
Proof.
  intros B. constructor; rewrite new_read; cbn [length].
  - constructor; try done.
    + pose proof (IBLOCK_range inum Hi). change (0 < IBLOCK inum sb < bm). lia.
    + intros pl Hv Hne. by rewrite new_place in Hne.
    + intros pl pl' Hv Hv' Hne. by rewrite new_place in Hne.
    + intros bn Hb Hs. cbn in Hs. unfold BSIZE in Hs. lia.
  - done.
  - done.
  - intros o Ho Hne. exfalso. apply Hne. apply (new_place W2 (Some (o / BSIZE))). apply block_range. lia.
  - intros pl Hv. rewrite new_place by done. unfold reach, NDIRECT, BSIZE. destruct pl as [bn|]; [|lia]. cbn in Hv. lia.
  - done.
  - done.
  - constructor; cbn; lia.
Qed.
End Ialloc.

Lemma put_bitmap W inum i : inode_range inum -> bitmap_ok sb W -> bitmap_ok sb (put_inode W inum i).
Proof. intros Hi [B1 B2 B3]. constructor; [done|done|]. intros c Hc. unfold used. rewrite put_inode_ne by (done || lia). by apply B3. Qed.

Lemma put_holds W inum i j t l : inode_range inum -> 0 <= j -> inum <> j -> length (i_addrs i) = 13%nat -> holds W j t l ->
  holds (put_inode W inum i) j t l /\
  forall c, owned (put_inode W inum i) (read_inode (put_inode W inum i) j) c <-> owned W (read_inode W j) c.
Proof.
  intros Hi Hj Hne Hl H. assert (forall c, owned W (read_inode W j) c -> put_inode W inum i c = W c) as K.
  { intros c (Hc & pl & Hv & E). destruct (fo_data _ _ _ (ho_file _ _ _ _ H) pl Hv) as [Hr _]; [congruence|]. apply put_inode_ne; [done|lia]. }
  pose proof (read_put_ne W inum i j Hl ltac:(unfold inode_range in Hi; lia) Hj Hne) as E. split.
  - apply (holds_kept W _ j t l H E K); [apply put_bitmap; [done|apply H]|]. intros c Hu. unfold used. by rewrite put_inode_ne by (done || lia).
  - intros c. rewrite E. by apply kept_owned.
Qed.

Lemma mk_ialloc_ok W g fs t : holding W g fs -> Z.of_nat (length fs) < 199 -> 0 < t < 2 ^ 15 -> t <> T_DEV ->
  wp (mk_ialloc t) g (fun r g' => r = 1 + Z.of_nat (length fs) /\ exists W', holding W' g' (fs ++ [(t, [])])).
Proof.
  intros G Hlen Ht Hd. set (inum := 1 + Z.of_nat (length fs)). assert (inode_range inum) as Hi by (unfold inode_range, inum; lia).
  unfold mk_ialloc. apply wp_bind, wp_gets. apply wp_bind, wp_modify. cbn zeta. rewrite (hg_freeinode _ _ _ G). fold inum. rewrite !xshort_id, xint_id by lia.
  set (din := (blank inum) <| i_type := t |> <| i_nlink := 1 |> <| i_size := 0 |>).
  apply wp_bind. eapply wp_mono; [apply (winode_ok W _ inum din); [|done]|].
  { pose proof (hg_tracks _ _ _ G) as [T1 T2 T3 T4 T5]. by constructor. }
  cbn beta. intros _ g2 (T2 & E1 & E2). cbn in E1, E2. wp_steps. split; [done|]. eexists.
  assert (forall k, (k < length fs)%nat -> forall c, owned (put_inode W inum din) (read_inode (put_inode W inum din) (1 + Z.of_nat k)) c <->
    owned W (read_inode W (1 + Z.of_nat k)) c) as Ho.
  { intros k Hk. destruct (holding_lookup _ _ _ k G Hk) as (t' & l' & H'). eapply put_holds; [done|lia|unfold inum; lia|done|exact H']. }
  pose proof (new_owned inum t) as Hn. pose proof (new_read W inum t Ht) as ER. fold din in Hn, ER.
  constructor; rewrite ?length_app; cbn [length].
  - exact T2.
  - rewrite E1, (hg_freeinode _ _ _ G). lia.
  - rewrite E2, (hg_count _ _ _ G), total_app. change (total [(t, [])]) with 0. lia.
  - intros k t' l' [Hk|[Hge Hk]]%lookup_app_Some.
    + pose proof (lookup_lt_Some _ _ _ Hk). eapply put_holds; [done|lia|unfold inum; lia|done|by apply (hg_file _ _ _ G)].
    + pose proof (lookup_lt_Some _ _ _ Hk) as Hlt. cbn in Hlt. replace (k - length fs)%nat with 0%nat in Hk by lia. injection Hk as <- <-.
      replace (1 + Z.of_nat k) with inum by (unfold inum; lia). apply new_holds; auto. by eapply tracks_bitmap.
  - intros k k' c H1 H2 Hne O1 O2. destruct (decide (k = length fs)) as [->|N1]; [fold inum in O1; rewrite ER in O1; by apply Hn in O1|].
    destruct (decide (k' = length fs)) as [->|N2]; [fold inum in O2; rewrite ER in O2; by apply Hn in O2|].
    rewrite Ho in O1, O2 by lia. apply (hg_disjoint _ _ _ G k k' c); [lia|lia|done|done|done].
  - intros j Hj. rewrite read_put_ne; [apply (hg_free _ _ _ G); lia|done|unfold inum; lia|lia|unfold inum; lia].
  - intros c Hc. rewrite <- (hg_super _ _ _ G c Hc). change (sb_inodestart sb) with 32 in Hc. pose proof (IBLOCK_range inum Hi).
    unfold put_inode, upd_view. by rewrite decide_False by lia.
Qed.

(** ** The files of the command line *)

Lemma length_dirent inum name : length (dirent inum name) = 16%nat.
Proof. unfold dirent. rewrite length_app, length_take, length_app, length_replicate. change (Z.to_nat DIRSIZ) with 14%nat. cbn [length]. lia. Qed.

Lemma dirent_bytes inum name : is_bytes name -> is_bytes (dirent inum name).
Proof.
  intros H. unfold dirent. apply Forall_app. split; [repeat constructor; apply Z.mod_pos_bound; lia|].
  apply Forall_take, Forall_app. split; [done|]. apply Forall_replicate. lia.
Qed.

Lemma strip_bytes name : is_bytes name -> is_bytes (strip name).
Proof. intros H. destruct name as [|c name]; [done|]. cbn. destruct (c =? 95); [by apply Forall_cons in H as [_ ?]|done]. Qed.

(** Appending to the last file. *)
Lemma iappend_last W g fs t l p : holding W g (fs ++ [(t, l)]) -> Z.of_nat (length fs) < 199 -> is_bytes p ->
  Z.of_nat (length (l ++ p)) <= MAXFILE * BSIZE -> nmeta + total (fs ++ [(t, l ++ p)]) <= FSSIZE ->
  wp (iappend (1 + Z.of_nat (length fs)) p) g (fun _ g' => exists W', holding W' g' (fs ++ [(t, l ++ p)])).
Proof.
  intros G Hlen Hp Hmax Hfb. rewrite length_app in Hmax.
  assert (forall x, <[length fs := x]> (fs ++ [(t, l)]) = fs ++ [x]) as EI.
  { intros x. rewrite insert_app_r_alt, Nat.sub_diag by lia. done. }
  eapply wp_mono; [apply (iappend_ok W g (fs ++ [(t, l)]) (length fs) t l p); [done|rewrite length_app; cbn; lia| |done|lia|by rewrite EI]|].
  - rewrite lookup_app_r, Nat.sub_diag by lia. done.
  - cbn beta. by rewrite EI.
Qed.

Lemma total_last_mono fs t l l' : (length l <= length l')%nat -> total (fs ++ [(t, l)]) <= total (fs ++ [(t, l')]).
Proof.
  intros Hl. rewrite !total_app. pose proof (needed_mono (Z.of_nat (length l)) (Z.of_nat (length l')) ltac:(lia)). unfold total at 2 4. cbn. lia.
Qed.

Lemma append_chunks W g fs t chunks : holding W g (fs ++ [(t, [])]) -> Z.of_nat (length fs) < 199 -> Forall is_bytes chunks ->
  Z.of_nat (length (concat chunks)) <= MAXFILE * BSIZE -> nmeta + total (fs ++ [(t, concat chunks)]) <= FSSIZE ->
  wp (for_each chunks (iappend (1 + Z.of_nat (length fs)))) g (fun _ g' => exists W', holding W' g' (fs ++ [(t, concat chunks)])).
Proof.
  intros G Hlen Hb Hmax Hfb. apply (wp_for_each chunks _ (fun dn g' => exists W', holding W' g' (fs ++ [(t, concat dn)]))); [by exists W|].
  intros dn x todo g' E (W' & G'). subst chunks. rewrite concat_app. cbn [concat]. rewrite app_nil_r.
  apply Forall_app in Hb as [_ [Hx _]%Forall_cons]. rewrite concat_app in Hmax, Hfb. cbn [concat] in Hmax, Hfb.
  rewrite app_assoc in Hmax, Hfb. rewrite length_app in Hmax. apply (iappend_last W'); [done|done|done|lia|].
  etransitivity; [|exact Hfb]. apply Z.add_le_mono_l, total_last_mono. rewrite (length_app (_ ++ _)). lia.
Qed.

(** A file that can be put in the image: its name has no slash and its bytes fit in the largest file. *)
Record good_file (f : list Z * list (list Z)) : Prop := {
  gf_name : Forall (fun c => 1 <= c < 256 /\ c <> 47) f.1;
  gf_bytes : Forall is_bytes f.2;
  gf_max : Z.of_nat (length (concat f.2)) <= MAXFILE * BSIZE
}.

Lemma add_file_ok W g d rest f : holding W g ((T_DIR, d) :: rest) -> Z.of_nat (length rest) < 198 -> good_file f ->
  let inum := 2 + Z.of_nat (length rest) in let d' := d ++ dirent inum (strip f.1) in
  Z.of_nat (length d') <= MAXFILE * BSIZE -> nmeta + total ((T_DIR, d') :: rest ++ [(T_FILE, concat f.2)]) <= FSSIZE ->
  wp (add_file ROOTINO f) g (fun _ g' => exists W', holding W' g' ((T_DIR, d') :: rest ++ [(T_FILE, concat f.2)])).
Proof.
  intros G Hlen [F1 F2 F3] inum d' Hd Hfb. unfold add_file.
  assert (is_bytes f.1) as Hb by (eapply Forall_impl; [exact F1|]; cbn; lia).
  rewrite bool_decide_eq_false_2 by (intros H; rewrite Forall_forall in F1; by destruct (F1 47 H)).
  apply wp_bind. eapply wp_mono; [apply (mk_ialloc_ok W g _ T_FILE G); [cbn [length]; lia|done|done]|].
  cbn beta. intros r g1 (-> & W1 & G1). cbn [length] in *. replace (1 + Z.of_nat (S (length rest))) with inum by (unfold inum; lia).
  rewrite xshort_id by (unfold inum; lia). cbn [app] in G1.
  assert (total ((T_DIR, d') :: rest ++ [(T_FILE, [])]) <= total ((T_DIR, d') :: rest ++ [(T_FILE, concat f.2)])) as Hm.
  { apply (total_last_mono ((T_DIR, d') :: rest)). cbn. lia. }
  apply wp_bind. unfold d' in Hd. rewrite length_app in Hd.
  eapply wp_mono; [apply (iappend_ok W1 g1 _ 0 T_DIR d _ G1); [cbn [length]; rewrite length_app; cbn; lia|done|by apply dirent_bytes, strip_bytes|lia|cbn [insert list_insert]; fold d'; lia]|].
  cbn beta. intros _ g2 (W2 & G2). cbn [insert list_insert] in G2. fold d' in G2.
  replace inum with (1 + Z.of_nat (length ((T_DIR, d') :: rest))) by (cbn [length]; unfold inum; lia).
  apply (append_chunks W2 g2 ((T_DIR, d') :: rest) T_FILE f.2 G2); [cbn [length]; lia|done|done|done].
Qed.

(** ** The whole image *)

Fixpoint entries (inum : Z) (files : list (list Z * list (list Z))) : list Z :=
  match files with
  | [] => []
  | f :: files => dirent inum (strip f.1) ++ entries (inum + 1) files
  end.

Definition dots : list Z := dirent ROOTINO [46] ++ dirent ROOTINO [46; 46].

Lemma entries_snoc f files : forall inum, entries inum (files ++ [f]) = entries inum files ++ dirent (inum + Z.of_nat (length files)) (strip f.1).
Proof.
  induction files as [|f' files IH]; intros inum; cbn [app entries length]; [by rewrite app_nil_r, Z.add_0_r|].
  rewrite IH, <- app_assoc. do 3 f_equal. lia.
Qed.

Lemma length_entries files : forall inum, Z.of_nat (length (entries inum files)) = 16 * Z.of_nat (length files).
Proof. induction files as [|f files IH]; intros inum; [done|]. cbn [entries length]. rewrite length_app, length_dirent, Nat2Z.inj_add, IH. lia. Qed.

Lemma length_dots : length dots = 32%nat.
Proof. done. Qed.

(** The files with the bytes that are written for them, the root directory first. *)
Definition written (files : list (list Z * list (list Z))) : list (Z * list Z) :=
  (T_DIR, dots ++ entries 2 files) :: ((fun f => (T_FILE, concat f.2)) <$> files).

Lemma written_mono files files' : total (written files) <= total (written (files ++ files')).
Proof.
  unfold written. rewrite fmap_app. set (fl := _ <$> files). set (fl' := _ <$> files').
  assert (forall d l, total ((T_DIR, d) :: l) = needed (Z.of_nat (length d)) + total l) as E by done. rewrite !E, total_app.
  assert (0 <= total fl') as H0.
  { clear. induction fl' as [|f l IH]; [done|]. change (0 <= needed (Z.of_nat (length f.2)) + total l). pose proof (needed_mono 0 (Z.of_nat (length f.2)) ltac:(lia)) as H.
    change (needed 0) with 0 in H. lia. }
  rewrite !length_app, !Nat2Z.inj_add, !length_entries, length_app.
  pose proof (needed_mono (Z.of_nat (length dots) + 16 * Z.of_nat (length files)) (Z.of_nat (length dots) + 16 * Z.of_nat (length files + length files')) ltac:(lia)).
  lia.
Qed.

(** The files can be put in an image: there are inodes and blocks for them. *)
Record fits (files : list (list Z * list (list Z))) : Prop := {
  ft_files : Forall good_file files;
  ft_inodes : Z.of_nat (length files) + 2 <= NINODES;
  ft_blocks : nmeta + total (written files) <= FSSIZE
}.

Lemma add_files W g files : fits files -> holding W g [(T_DIR, dots)] ->
  wp (for_each files (add_file ROOTINO)) g (fun _ g' => exists W', holding W' g' (written files)).
Proof.
  intros [F1 F2 F3] G. unfold NINODES in F2.
  apply (wp_for_each files _ (fun dn g' => exists W', holding W' g' (written dn))); [exists W; unfold written; cbn [entries fmap list_fmap]; by rewrite app_nil_r|].
  intros dn f todo g' E (W' & G'). subst files. apply Forall_app in F1 as [_ [Hf _]%Forall_cons]. rewrite length_app in F2. cbn [length] in F2.
  assert (written (dn ++ [f]) = (T_DIR, (dots ++ entries 2 dn) ++ dirent (2 + Z.of_nat (length ((fun f => (T_FILE, concat f.2)) <$> dn))) (strip f.1)) ::
    ((fun f => (T_FILE, concat f.2)) <$> dn) ++ [(T_FILE, concat f.2)]) as EW.
  { unfold written. by rewrite entries_snoc, fmap_app, length_fmap, app_assoc. }
  rewrite EW. apply (add_file_ok W' g'); [done|rewrite length_fmap; lia|done| |].
  - rewrite !length_app, length_dirent, length_dots, !Nat2Z.inj_add, length_entries. change (MAXFILE * BSIZE) with 71680. lia.
  - cbn zeta. rewrite <- EW. replace (dn ++ f :: todo) with ((dn ++ [f]) ++ todo) in F3 by (by rewrite <- app_assoc).
    pose proof (written_mono (dn ++ [f]) todo). lia.
Qed.

(** The size is brought to the end of the block, where there is nothing but zeros. *)
Definition pad (l : list Z) : list Z := l ++ replicate (Z.to_nat (BSIZE - Z.of_nat (length l) mod BSIZE)) 0.

Lemma pad_appends W g inum t l : tracks W g -> holds W inum t l -> Z.of_nat (length l) mod BSIZE <> 0 -> Z.of_nat (length l) < MAXFILE * BSIZE ->
  appends W g (read_inode W inum) (Z.of_nat (length l)) (replicate (Z.to_nat (BSIZE - Z.of_nat (length l) mod BSIZE)) 0) W g (read_inode W inum).
Proof.
  intros T H Hmod Hmax. set (off := Z.of_nat (length l)) in *. change (MAXFILE * BSIZE) with 71680 in Hmax.
  pose proof (Z.mod_pos_bound off BSIZE ltac:(done)) as Hb. set (n := Z.to_nat _). assert (Z.of_nat n = BSIZE - off mod BSIZE) as En by (unfold n; lia).
  assert (0 <= off) as H0 by (unfold off; lia).
  assert (forall o, off <= o < off + Z.of_nat n -> 0 <= o < MAXFILE * BSIZE /\ o / BSIZE * BSIZE < off) as Hr.
  { intros o Ho. change (MAXFILE * BSIZE) with 71680. rewrite En in Ho. unfold BSIZE in *. dlia. }
  assert (forall pl, reach pl (off + Z.of_nat n) <-> reach pl off) as ER.
  { intros pl. rewrite En. unfold reach, BSIZE, NDIRECT in *. destruct pl; dlia. }
  constructor; rewrite ?length_replicate.
  - constructor; [apply grows_refl, H| |done|done]. intros k b [-> Hk]%lookup_replicate. destruct (Hr (off + Z.of_nat k) ltac:(lia)) as [Ho1 Ho2].
    assert (block_of W (read_inode W inum) ((off + Z.of_nat k) / BSIZE) <> 0) as Hne.
    { apply (ho_upto _ _ _ _ H (Some ((off + Z.of_nat k) / BSIZE))); [by apply block_range|exact Ho2]. }
    split; [done|]. apply (ho_tail _ _ _ _ H); [unfold off; lia|done].
  - constructor; [done|apply H|]. intros o Ho. apply (ho_tail _ _ _ _ H). unfold off in Ho. lia.
  - intros pl Hv. rewrite ER. by apply (ho_upto _ _ _ _ H).
  - done.
  - rewrite En. unfold needed, NDIRECT, BSIZE in *. destruct (Z.ltb_spec (12 * 512) off), (Z.ltb_spec (12 * 512) (off + (512 - off mod 512))); dlia.
Qed.

(** What is on the image in the end. *)
Definition image_files (files : list (list Z * list (list Z))) : list (Z * list Z) :=
  (T_DIR, pad (dots ++ entries 2 files)) :: ((fun f => (T_FILE, concat f.2)) <$> files).

(** The blocks [V] are a file system with the files [fs], their inodes from 1 on. *)
Record filesystem (V : Z -> mem) (fs : list (Z * list Z)) : Prop := {
  fs_super : load_words (V 1) 0 7 = [FSSIZE; sb_nblocks sb; NINODES; LOGSIZE; sb_logstart sb; sb_inodestart sb; sb_bmapstart sb];
  fs_log : forall c, sb_logstart sb <= c < sb_inodestart sb -> V c = ∅;
  fs_bitmap : forall c, used sb V c <-> 0 <= c < nmeta + total fs;
  fs_inode : forall k t l, fs !! k = Some (t, l) ->
    let i := read_inode V (1 + Z.of_nat k) in
    file_ok sb V i /\ disk_inode sb V i /\ i_type i = t /\ i_nlink i = 1 /\ contents V i = l;
  fs_own : forall k k' c, (k < length fs)%nat -> (k' < length fs)%nat -> k <> k' ->
    owned V (read_inode V (1 + Z.of_nat k)) c -> ~ owned V (read_inode V (1 + Z.of_nat k')) c;
  fs_free : forall j, 1 + Z.of_nat (length fs) <= j < NINODES -> i_type (read_inode V j) = 0
}.

Lemma holding_filesystem W g fs V : holding W g fs -> Z.of_nat (length fs) < 200 -> (forall c, V c = W c) -> filesystem V fs.
Proof.
  intros G Hlen E. assert (forall j, read_inode V j = read_inode W j) as ER by (intros j; unfold read_inode; by rewrite E).
  assert (forall c, used sb V c <-> used sb W c) as EU by (intros c; unfold used; by rewrite E).
  assert (bitmap_ok sb V) as B.
  { destruct (tracks_bitmap W g (hg_tracks _ _ _ G)) as [B1 B2 B3]. constructor; [done|done|]. intros c Hc. apply EU. auto. }
  constructor.
  - rewrite E, (hg_super _ _ _ G) by done. by vm_compute.
  - intros c Hc. rewrite E, (hg_super _ _ _ G) by (change (sb_logstart sb) with 2 in Hc; lia). change (sb_logstart sb) with 2 in Hc.
    by rewrite decide_False by lia.
  - intros c. rewrite EU, (tracks_used W g c (hg_tracks _ _ _ G)), (hg_count _ _ _ G). done.
  - intros k t l Hk. pose proof (hg_file _ _ _ G k t l Hk) as H.
    assert (holds V (1 + Z.of_nat k) t l) as [F1 F2 F3 F4 F5 F6 F7 F8].
    { apply (holds_kept W V _ t l H); [done|by intros; apply E|done|intros c; apply EU]. }
    cbn zeta. split_and!; [exact F1|apply read_on_disk|exact F6|exact F7|exact F3].
  - intros k k' c H1 H2 Hne. rewrite !ER, !(kept_owned W V) by (intros; apply E). by apply (hg_disjoint _ _ _ G).
  - intros j Hj. rewrite ER. by apply (hg_free _ _ _ G).
Qed.

(** The image of zeros. *)
Lemma zero_ok : wp (for_each (range 0 (Z.to_nat FSSIZE)) (fun i => wsect i ∅)) start (fun _ g =>
  (forall c, g_blocks g c = ∅) /\ g_size g = FSSIZE /\ g_freeinode g = 1 /\ g_freeblock g = nmeta).
Proof.
  eapply wp_mono; [apply (wp_for_each _ _ (fun dn g => (forall c, g_blocks g c = ∅) /\ g_size g = Z.of_nat (length dn) /\ g_freeinode g = 1 /\ g_freeblock g = nmeta)); [done|]|].
  - intros dn x todo g E (H1 & H2 & H3 & H4).
    assert (x = Z.of_nat (length dn)) as ->.
    { assert (length dn < Z.to_nat FSSIZE)%nat as Hlt by (rewrite <- (length_range (Z.to_nat FSSIZE) 0), E, length_app; cbn; lia).
      pose proof (range_lookup _ 0 _ Hlt) as Hx. rewrite E, list_lookup_middle in Hx by done. injection Hx as ->. lia. }
    unfold wsect. wp_steps. split_and!; cbn; [|rewrite length_app; cbn; lia|done|done]. intros c. unfold upd_view. by case_decide.
  - cbn beta. intros _ g (H1 & H2 & H3 & H4). split_and!; [done| |done|done]. by rewrite H2, length_range.
Qed.

Lemma read_zero V inum : V (IBLOCK inum sb) = ∅ -> i_type (read_inode V inum) = 0.
Proof. unfold read_inode. intros ->. done. Qed.

Lemma holding_start g : (forall c, g_blocks g c = ∅) -> g_size g = FSSIZE -> g_freeinode g = 1 -> g_freeblock g = nmeta ->
  holding (upd_view (upd_view (fun _ => ∅) 1 super_bytes) bm (bitmap_of (Z.to_nat nmeta)))
    (g <| g_blocks := upd_view (g_blocks g) 1 super_bytes |> <| g_size := Z.max (g_size g) (1 + 1) |>) [].
Proof.
  intros H1 H2 H3 H4. set (W := upd_view _ bm _). change bm with 58 in *.
  assert (forall c, c <> 58 -> c <> 1 -> W c = ∅) as EW by (intros; unfold W, upd_view; by rewrite !decide_False).
  constructor.
  - constructor; cbn; rewrite ?H4.
    + done.
    + intros c Hc. change bm with 58 in Hc. unfold W, upd_view. rewrite decide_False by done. case_decide; [done|]. by rewrite H1.
    + done.
    + rewrite H2. done.
    + intros c a Hc. change nmeta with 59 in Hc. unfold upd_view. rewrite decide_False, H1 by lia. done.
  - done.
  - cbn. by rewrite H4.
  - done.
  - intros k k' c Hk. cbn in Hk. lia.
  - intros j Hj. apply read_zero. unfold NINODES in Hj. pose proof (IBLOCK_range j) as Hr. unfold inode_range in Hr. change bm with 58 in Hr.
    cbn in Hj. apply EW; lia.
  - intros c Hc. change (sb_inodestart sb) with 32 in Hc. case_decide as E; [by subst c|]. apply EW; lia.
Qed.

Lemma root_dots W g : holding W g [] ->
  wp (rootino <- mk_ialloc T_DIR ;;
      if negb (rootino =? ROOTINO) then panic "assert"
      else
        iappend rootino (dirent (xshort rootino) [46]) ;;;
        iappend rootino (dirent (xshort rootino) [46; 46])) g (fun _ g' => exists W', holding W' g' [(T_DIR, dots)]).
Proof.
  intros G. apply wp_bind. eapply wp_mono; [apply (mk_ialloc_ok W g [] T_DIR G); done|]. cbn beta. intros r g1 (-> & W1 & G1). cbn [length app] in *.
  change (negb (1 + Z.of_nat 0 =? ROOTINO)) with false. cbn iota. rewrite xshort_id by done. change (1 + Z.of_nat 0) with ROOTINO.
  assert (forall name, is_bytes name -> is_bytes (dirent ROOTINO name)) as HB by (intros; by apply dirent_bytes).
  apply wp_bind. eapply wp_mono; [apply (iappend_ok W1 g1 _ 0 T_DIR [] _ G1); [done|done|by apply HB; repeat constructor|done|done]|].
  cbn beta. intros _ g2 (W2 & G2). cbn [insert list_insert app] in G2.
  eapply wp_mono; [apply (iappend_ok W2 g2 _ 0 T_DIR (dirent ROOTINO [46]) (dirent ROOTINO [46; 46]) G2); [done|done|by apply HB; repeat constructor|done|done]|].
  cbn beta. intros _ g3 (W3 & G3). exists W3. exact G3.
Qed.

Lemma root_size W g files : holding W g (written files) -> fits files -> (16 * (2 + Z.of_nat (length files))) mod BSIZE <> 0 ->
  wp (din <- rinode ROOTINO ;;
      let off := xint (i_size din) in
      let off := (off / BSIZE + 1) * BSIZE in
      winode ROOTINO (din <| i_size := xint off |>)) g (fun _ g' => exists W', holding W' g' (image_files files)).
Proof.
  intros G [F1 F2 F3] Hmod. unfold NINODES in F2. set (d := dots ++ entries 2 files). assert (Z.of_nat (length d) = 16 * (2 + Z.of_nat (length files))) as El.
  { unfold d. rewrite length_app, length_dots, Nat2Z.inj_add, length_entries. lia. }
  pose proof (hg_file _ _ _ G 0 T_DIR d eq_refl) as H. change (1 + Z.of_nat 0) with ROOTINO in H.
  assert (inode_range ROOTINO) as Hi by done. rewrite <- El in Hmod. pose proof (Z.mod_pos_bound (Z.of_nat (length d)) BSIZE ltac:(done)) as Hb.
  assert (Z.of_nat (length (written files)) < 200) as Hn by (unfold written; cbn [length]; rewrite length_fmap; lia).
  pose proof (pad_appends W g ROOTINO T_DIR d (hg_tracks _ _ _ G) H Hmod ltac:(change (MAXFILE * BSIZE) with 71680; lia)) as A.
  set (z := replicate _ 0) in A. assert (Z.of_nat (length z) = BSIZE - Z.of_nat (length d) mod BSIZE) as Ez by (unfold z; rewrite length_replicate; lia).
  apply wp_bind, (rinode_ok W); [apply G|done|]. cbn zeta. rewrite (ho_size _ _ _ _ H), (xint_id (Z.of_nat (length d))) by lia. rewrite xint_id by (unfold BSIZE in *; dlia).
  replace ((Z.of_nat (length d) / BSIZE + 1) * BSIZE) with (Z.of_nat (length d) + Z.of_nat (length z)) by (rewrite Ez; unfold BSIZE; dlia).
  eapply wp_mono; [apply (winode_ok W g ROOTINO); [apply G|done]|]. cbn beta. intros _ g2 (T2 & E1 & E2). eexists.
  refine (holding_append W g (written files) 0 T_DIR d z W g (read_inode W ROOTINO) g2 G Hn eq_refl _ A T2 E1 E2).
  change (MAXFILE * BSIZE) with 71680. unfold BSIZE in *. lia.
Qed.

(** main up to the fix of the root directory's size. *)
Lemma main_written files Q : fits files ->
  (forall W g, holding W g (written files) ->
    wp (din <- rinode ROOTINO ;;
        let off := xint (i_size din) in
        let off := (off / BSIZE + 1) * BSIZE in
        winode ROOTINO (din <| i_size := xint off |>) ;;;
        used <- gets g_freeblock ;;
        mk_balloc used) g Q) ->
  wp (main files) start Q.
Proof.
  intros F K. unfold main.
  apply wp_bind. eapply wp_mono; [apply zero_ok|]. cbn beta. intros _ g (G1 & G2 & G3 & G4).
  apply wp_bind, wp_modify. rewrite !xint_id by done. pose proof (root_dots _ _ (holding_start g G1 G2 G3 G4)) as R.
  apply wp_bind_inv in R. apply wp_bind. eapply wp_mono; [exact R|]. cbn beta. clear R. intros r g1 R.
  destruct (Z.eqb_spec r ROOTINO) as [->|]; cbn [negb] in *; [|done].
  wp_prefix R. intros _ g2 (W2 & H2).
  apply wp_bind. eapply wp_mono; [by apply (add_files W2)|]. cbn beta. intros _ g3 (W3 & H3). by apply (K W3).
Qed.

Lemma mk_balloc_ok W g (Q : unit -> image -> Prop) : tracks W g ->
  (forall g', g_size g' = FSSIZE -> (forall c, g_blocks g' c = W c) -> Q tt g') -> wp (used <- gets g_freeblock ;; mk_balloc used) g Q.
Proof.
  intros T K. apply wp_bind, wp_gets. pose proof (tr_meta _ _ T) as Hm. unfold mk_balloc.
  destruct (Z.ltb_spec (g_freeblock g) (BSIZE * 8)); [|unfold FSSIZE, BSIZE in *; lia]. cbn [negb]. apply wp_modify. apply K.
  - cbn. rewrite (tr_size _ _ T). done.
  - intros c. change (upd_view (g_blocks g) bm (bitmap_of (Z.to_nat (g_freeblock g))) c = W c). unfold upd_view.
    case_decide as E; [rewrite E|]; symmetry; by apply T.
Qed.

(** C7. mkfs makes a file system: for any files of the command line that fit in the inodes and blocks there are
    (and do not fill the last block of the root directory exactly), the program ends and the image has the superblock of the
    layout, an empty log, a bitmap in which exactly the metadata and the blocks of the files are marked, and an inode for
    each file, of its type and with one link, whose blocks are its own and whose contents, read through the direct and the
    indirect blocks, are the bytes of the file; the root directory, inode 1, is ".", ".." and an entry for every
    file with the name cut to 14 bytes and without a leading underscore, filled up with empty entries; the
    other inodes are free. *)
Theorem mkfs_makes_filesystem files : fits files -> (16 * (2 + Z.of_nat (length files))) mod BSIZE <> 0 ->
  wp (main files) start (fun _ g => g_size g = FSSIZE /\ filesystem (g_blocks g) (image_files files)).
Proof.
  intros F Hmod. apply main_written; [done|]. intros W g G. pose proof (root_size W g files G F Hmod) as R. wp_prefix R.
  intros _ g1 (W1 & G1). apply (mk_balloc_ok W1); [apply G1|]. intros g2 E1 E2. split; [done|].
  apply (holding_filesystem W1 g1); [done| |done]. destruct F as [_ F2 _]. unfold NINODES in F2. unfold image_files. cbn [length].
  rewrite length_fmap. lia.
Qed.

(** When the entries fill the last block of the root directory exactly, its size is made a block larger than the
    blocks it has. *)
Lemma mkfs_full_directory files : fits files -> (16 * (2 + Z.of_nat (length files))) mod BSIZE = 0 ->
  let n := 16 * (2 + Z.of_nat (length files)) in
  wp (main files) start (fun _ g => let i := read_inode (g_blocks g) ROOTINO in i_size i = n + BSIZE /\ block_of (g_blocks g) i (n / BSIZE) = 0).
Proof.
  intros F Hmod n. apply main_written; [done|]. intros W g G. pose proof F as [_ F2 _]. unfold NINODES in F2.
  pose proof (hg_file _ _ _ G 0 T_DIR _ eq_refl) as H. change (1 + Z.of_nat 0) with ROOTINO in H.
  assert (Z.of_nat (length (dots ++ entries 2 files)) = n) as El by (unfold n; rewrite length_app, length_dots, Nat2Z.inj_add, length_entries; lia).
  assert (inode_range ROOTINO) as Hi by done. pose proof (ho_size _ _ _ _ H) as Es. rewrite El in Es.
  apply wp_bind, (rinode_ok W); [apply G|done|]. cbn zeta. rewrite Es, (xint_id n) by (unfold n; lia).
  rewrite xint_id by (unfold n, BSIZE in *; dlia). replace ((n / BSIZE + 1) * BSIZE) with (n + BSIZE) by (unfold n, BSIZE in *; dlia).
  assert (0 <= n / BSIZE < MAXFILE) as Hbn by (change MAXFILE with 140; unfold n, BSIZE; dlia).
  set (i := (read_inode W ROOTINO) <| i_size := n + BSIZE |>).
  apply wp_bind. eapply wp_mono; [apply (winode_ok W g ROOTINO i); [apply G|done]|]. cbn beta. intros _ g2 (T2 & E1 & E2).
  apply (mk_balloc_ok _ _ _ T2). intros g3 E3 E4.
  assert (read_inode (put_inode W ROOTINO i) ROOTINO = i) as ER.
  { destruct (ho_fits _ _ _ _ H). apply read_put; [done|by constructor|change (0 <= n + BSIZE < 2 ^ 32); unfold n, BSIZE in *; lia|apply (ho_file _ _ _ _ H)|apply (addrs_range _ _ _ (ho_file _ _ _ _ H))]. }
  assert (read_inode (g_blocks g3) ROOTINO = i) as -> by (rewrite <- ER; unfold read_inode; by rewrite E4). split; [done|].
  assert (block_of (g_blocks g3) i (n / BSIZE) = block_of W (read_inode W ROOTINO) (n / BSIZE)) as ->.
  { change (block_of (g_blocks g3) (read_inode W ROOTINO) (n / BSIZE) = block_of W (read_inode W ROOTINO) (n / BSIZE)).
    apply (kept_place W (g_blocks g3) _) with (pl := Some (n / BSIZE)); [|exact Hbn].
    intros c (Hc & pl & Hv & E). destruct (fo_data _ _ _ (ho_file _ _ _ _ H) pl Hv) as [Hr _]; [congruence|]. rewrite E4. apply put_inode_ne; [done|lia]. }
  destruct (decide (block_of W (read_inode W ROOTINO) (n / BSIZE) = 0)) as [|Hne]; [done|].
  apply (ho_upto _ _ _ _ H (Some (n / BSIZE))) in Hne; [|exact Hbn]. rewrite El in Hne. cbn in Hne. unfold BSIZE in *. dlia.
Qed.

Module MkfsWitness.
(** _cat with the bytes of two reads, and README, which is empty. *)
Definition files : list (list Z * list (list Z)) := [([95; 99; 97; 116], [[127; 69; 76]; [70]]); ([82; 69; 65; 68; 77; 69], [])].

Lemma files_fit : fits files.
Proof.
  constructor; [|done|by vm_compute].
  repeat (apply Forall_cons; split); [| |done]; constructor; cbn; try done; repeat (apply Forall_cons; split); try done; lia.
Qed.

Lemma mkfs_makes_filesystem_witness : fits files /\ (16 * (2 + Z.of_nat (length files))) mod BSIZE <> 0 /\
  wp (main files) start (fun _ g => g_size g = FSSIZE /\
    contents (g_blocks g) (read_inode (g_blocks g) 2) = [127; 69; 76; 70] /\
    take 64 (contents (g_blocks g) (read_inode (g_blocks g) ROOTINO)) =
      [1; 0; 46] ++ replicate 13 0 ++ [1; 0; 46; 46] ++ replicate 12 0 ++
      [2; 0; 99; 97; 116] ++ replicate 11 0 ++ [3; 0; 82; 69; 65; 68; 77; 69] ++ replicate 8 0).
Proof.
  assert ((16 * (2 + Z.of_nat (length files))) mod BSIZE <> 0) as Hm by done. split; [exact files_fit|split; [exact Hm|]].
  eapply wp_mono; [exact (mkfs_makes_filesystem files files_fit Hm)|]. cbn beta. intros _ g [Hs [_ _ _ F _ _]]. split; [exact Hs|].
  destruct (F 1%nat T_FILE _ eq_refl) as (_ & _ & _ & _ & E1). destruct (F 0%nat T_DIR _ eq_refl) as (_ & _ & _ & _ & E0).
  change (1 + Z.of_nat 1) with 2 in E1. change (1 + Z.of_nat 0) with ROOTINO in E0. rewrite E0, E1. split; reflexivity.
Defined.
End MkfsWitness.
