(* ===== verification/Console.v ===== *)
(** The console line discipline, consoleintr, consoleread and consolewrite of
    src/src/console.c.

    getc() is the list of characters it yields before -1.  consputc appends to
    the list of characters sent out; what the screen and the serial line make of
    them is in Screen.v.  The indices r, w and e of the input buffer are 32-bit
    counters. *)

From stdpp Require Import base gmap list strings.
From Stdlib Require Import ZArith Lia.
From S2P Require Import Prelude Mem Str Mmu State Kalloc MemTable Vm Sched Fsys Bio Log Inode.

Definition BACKSPACE : Z := 0x100.
Definition ctrl (x : Z) : Z := x - 64.
Definition newline : Z := 10.

Definition cons_acquire : M kernel unit :=
  facquire (fun x => co_lock (x_console x)) (fun b x => x <| x_console ::= fun c => c <| co_lock := b |> |>).
Definition cons_release : M kernel unit :=
  frelease (fun x => co_lock (x_console x)) (fun b x => x <| x_console ::= fun c => c <| co_lock := b |> |>).

Definition get_cons : M kernel console := fget x_console.
Definition upd_cons (g : console -> console) : M kernel unit := fmod (fun x => x <| x_console ::= g |>).

Definition consputc (c : Z) : M kernel unit := upd_cons (fun co => co <| co_out ::= fun l => l ++ [c] |>).

(** [while(input.e != input.w && input.buf[(input.e-1) % INPUT_BUF] != '\n')] *)
Fixpoint kill_line (fuel : nat) : M kernel unit :=
  co <- get_cons ;;
  if negb (in_e co =? in_w co) && negb (load8 (in_buf co) (u32 (in_e co - 1) mod INPUT_BUF) =? newline) then
    match fuel with
    | O => no_fuel
    | S fuel =>
        upd_cons (fun co => co <| in_e ::= fun e => u32 (e - 1) |>) ;;;
        consputc BACKSPACE ;;;
        kill_line fuel
    end
  else ret tt.

(** One character of input; consoleintr does the rest for control-P. *)
Definition consoleintr_char (c : Z) : M kernel unit :=
  if c =? ctrl 80 then ret tt
  else if c =? ctrl 85 then
    co <- get_cons ;;
    kill_line (Z.to_nat (u32 (in_e co - in_w co)))
  else if (c =? ctrl 72) || (c =? 127) then
    co <- get_cons ;;
    when (negb (in_e co =? in_w co))
      (upd_cons (fun co => co <| in_e ::= fun e => u32 (e - 1) |>) ;;;
       consputc BACKSPACE)
  else
    co <- get_cons ;;
    when (negb (c =? 0) && (u32 (in_e co - in_r co) <? INPUT_BUF))
      (let c := if c =? 13 then newline else c in
       upd_cons (fun co => co <| in_buf := store8 (in_buf co) (in_e co mod INPUT_BUF) c |>
                              <| in_e := u32 (in_e co + 1) |>) ;;;
       consputc c ;;;
       co <- get_cons ;;
       when ((c =? newline) || (c =? ctrl 68) || (in_e co =? u32 (in_r co + INPUT_BUF)))
         (upd_cons (fun co => co <| in_w := in_e co |>) ;;;
          wakeup input_chan)).

(** The text of one call of cprintf, printed with the lock held, as consoleinit has
    set cons.locking. *)
Definition cprint (text : list Z) : M kernel unit :=
  cons_acquire ;;;
  for_each text consputc ;;;
  cons_release.

(** [dump] is what procdump makes of the process table, call by call of cprintf;
    it is called for control-P, when the lock is released. *)
Definition consoleintr (dump : list proc -> list (list Z)) (chars : list Z) : M kernel unit :=
  cons_acquire ;;;
  for_each chars consoleintr_char ;;;
  cons_release ;;;
  when (existsb (fun c => c =? ctrl 80) chars)
    (ptable <- gets k_ptable ;;
     for_each (dump ptable) cprint).

(** [n] characters are still wanted; [target] were asked for.  The result is
    the characters read and how many are missing; [None] is the return for a
    killed process. *)
Fixpoint consoleread_loop (n : nat) (target : Z) : M kernel (option (list Z)) :=
  match n with
  | O => ret (Some [])
  | S n' =>
      co <- get_cons ;;
      if in_r co =? in_w co then
        i <- myproc ;;
        p <- get_proc i ;;
        if p_killed p then ret None
        else sleep input_chan (Some cons_release)
      else
        let c := load8 (in_buf co) (in_r co mod INPUT_BUF) in
        upd_cons (fun co => co <| in_r ::= fun r => u32 (r + 1) |>) ;;;
        if c =? ctrl 68 then
          when (Z.of_nat n <? target) (upd_cons (fun co => co <| in_r ::= fun r => u32 (r - 1) |>)) ;;;
          ret (Some [])
        else if c =? newline then ret (Some [c])
        else
          r <- consoleread_loop n' target ;;
          ret (match r with Some l => Some (c :: l) | None => None end)
  end.

Definition consoleread (ip : nat) (n : Z) : M kernel (Z * list Z) :=
  iunlock (Some ip) ;;;
  cons_acquire ;;;
  r <- consoleread_loop (Z.to_nat n) n ;;
  cons_release ;;;
  ilock (Some ip) ;;;
  ret (match r with Some l => (Z.of_nat (length l), l) | None => (-1, []) end).

Definition consolewrite (ip : nat) (buf : list Z) : M kernel Z :=
  iunlock (Some ip) ;;;
  cons_acquire ;;;
  for_each buf (fun c => consputc (Z.land c 0xff)) ;;;
  cons_release ;;;
  ilock (Some ip) ;;;
  ret (Z.of_nat (length buf)).

Definition consoleinit : M kernel unit :=
  upd_cons (fun co => co <| co_lock := false |>) ;;;
  fmod (fun x => x <| x_devsw_console := true |>).
