(* ===== verification/ConsoleLine.v ===== *)
(** The console's input as a line editor.

    What has been typed is in two parts: [ready], the lines that may be read, and
    [edit], the line being typed, which can still be changed.  consoleintr and
    consoleread, on a circular buffer with counters that wrap around, implement
    it. *)

From stdpp Require Import base gmap list strings.
From Stdlib Require Import ZArith Lia.
From S2P Require Import Prelude Mem Str Mmu State Kalloc MemTable Vm Sched Fsys Bio Log Inode Console.

(** ** The line editor *)

Record line := { ready : list Z; edit : list Z }.

Definition end_of_file : Z := ctrl 68.

(** One character typed: the new state, what is echoed, and whether readers are
    woken. *)
Definition type_char (l : line) (c : Z) : line * list Z * bool :=
  if c =? ctrl 80 then (l, [], false)
  else if c =? ctrl 85 then ({| ready := ready l; edit := [] |}, replicate (length (edit l)) BACKSPACE, false)
  else if (c =? ctrl 72) || (c =? 127) then
    match edit l with
    | [] => (l, [], false)
    | _ => ({| ready := ready l; edit := removelast (edit l) |}, [BACKSPACE], false)
    end
  else if (c =? 0) || (INPUT_BUF <=? Z.of_nat (length (ready l ++ edit l))) then (l, [], false)
  else
    let c := if c =? 13 then newline else c in
    let e := edit l ++ [c] in
    if (c =? newline) || (c =? end_of_file) || (Z.of_nat (length (ready l ++ e)) =? INPUT_BUF)
    then ({| ready := ready l ++ e; edit := [] |}, [c], true)
    else ({| ready := ready l; edit := e |}, [c], false).

Fixpoint type_chars (l : line) (chars : list Z) : line * list Z * bool :=
  match chars with
  | [] => (l, [], false)
  | c :: chars =>
      let '(l, out, wake) := type_char l c in
      let '(l, out', wake') := type_chars l chars in
      (l, out ++ out', wake || wake')
  end.

(** A read of at most [n] characters: it stops after a newline and before an end
    of file, which only a read that has got nothing takes away; [None] if it has
    to wait for more. *)
Fixpoint read_line (n : nat) (first : bool) (ready : list Z) : option (list Z * list Z) :=
  match n with
  | O => Some ([], ready)
  | S n =>
      match ready with
      | [] => None
      | c :: rest =>
          if c =? end_of_file then Some ([], if first then rest else ready)
          else if c =? newline then Some ([c], rest)
          else match read_line n false rest with
               | Some (out, rest) => Some (c :: out, rest)
               | None => None
               end
      end
  end.

(** ** The representation *)

Record line_rep (co : console) (l : line) : Prop := {
  lr_size : Z.of_nat (length (ready l ++ edit l)) <= INPUT_BUF;
  lr_r : 0 <= in_r co < 2 ^ 32;
  lr_w : in_w co = u32 (in_r co + Z.of_nat (length (ready l)));
  lr_e : in_e co = u32 (in_r co + Z.of_nat (length (ready l ++ edit l)));
  lr_data : forall k b, (ready l ++ edit l) !! k = Some b ->
    load8 (in_buf co) ((in_r co + Z.of_nat k) mod INPUT_BUF) = b;
  lr_edit : newline ∉ edit l
}.

Definition with_cons (co : console) (s : kernel) : kernel :=
  s <| k_fs ::= fun x => x <| x_console := co |> |>.

Lemma upd_cons_eq g co s : upd_cons g (with_cons co s) = Ret tt (with_cons (g co) s).
Proof. by destruct s as [? ? ? ? ? ? ? ? ? ? ? ? ? ? ? []]. Qed.

Lemma get_cons_eq co s : get_cons (with_cons co s) = Ret co (with_cons co s).
Proof. by destruct s as [? ? ? ? ? ? ? ? ? ? ? ? ? ? ? []]. Qed.

Lemma wakeup_cons chan co s : k_ptable_lock s = false -> wakeup chan (with_cons co s) = Ret tt (with_cons co (woken chan s)).
Proof. intros H. by rewrite wakeup_eq. Qed.

Lemma woken_woken {F} chan (s : kst F) : woken chan (woken chan s) = woken chan s.
Proof.
  destruct s. unfold woken. cbn. f_equal. rewrite <- list_fmap_compose. apply list_fmap_ext. intros _ p _. cbn.
  destruct (decide (p_state p = SLEEPING /\ p_chan p = chan)); [by rewrite decide_False by (cbn; naive_solver)|by rewrite decide_False].
Qed.

#[local] Lemma u32_mod_buf x : u32 x mod INPUT_BUF = x mod INPUT_BUF.
Proof. unfold u32, INPUT_BUF. dlia. Qed.

(** Nothing is being typed. *)
Lemma edit_empty co l : line_rep co l -> (in_e co =? in_w co) = bool_decide (edit l = []).
Proof.
  intros [H1 H2 H3 H4 _ _]. rewrite H3, H4, length_app in *. unfold u32, INPUT_BUF in *.
  destruct (edit l) as [|c e]; cbn [length] in *; [rewrite Nat.add_0_r; apply Z.eqb_refl|].
  rewrite bool_decide_eq_false_2 by done. apply Z.eqb_neq. dlia.
Qed.

Lemma ready_empty co l : line_rep co l -> (in_r co =? in_w co) = bool_decide (ready l = []).
Proof.
  intros [H1 H2 H3 H4 _ _]. rewrite H3, length_app in *. unfold u32, INPUT_BUF in *.
  destruct (ready l) as [|c e]; cbn [length] in *.
  - apply Z.eqb_eq. dlia.
  - rewrite bool_decide_eq_false_2 by done. apply Z.eqb_neq. dlia.
Qed.

(** The last character of the line being typed is taken back. *)
Lemma rep_back co l c e : line_rep co l -> edit l = e ++ [c] ->
  load8 (in_buf co) (u32 (in_e co - 1) mod INPUT_BUF) = c /\
  line_rep (co <| in_e ::= fun e => u32 (e - 1) |>) {| ready := ready l; edit := e |}.
Proof.
  intros [H1 H2 H3 H4 H5 H6] E. rewrite E in *. rewrite !length_app in *. cbn [length] in *. split.
  - rewrite H4, u32_mod_buf. rewrite <- (H5 (length (ready l) + length e)%nat c).
    + f_equal. unfold u32, INPUT_BUF. dlia.
    + rewrite lookup_app_r by lia. replace (_ - _)%nat with (length e) by lia. by apply list_lookup_middle.
  - constructor; cbn [ready edit in_r in_w in_e in_buf upd]; rewrite ?length_app.
    + lia.
    + done.
    + done.
    + cbn. rewrite H4. unfold u32. dlia.
    + intros k b Hk. apply H5. rewrite app_assoc. by apply lookup_app_l_Some.
    + set_solver.
Qed.

Lemma rep_out co l out : line_rep co l -> line_rep (co <| co_out := out |>) l.
Proof. by intros [? ? ? ? ? ?]. Qed.

(** A character is appended to the line being typed. *)
Lemma rep_push co l c : line_rep co l -> Z.of_nat (length (ready l ++ edit l)) < INPUT_BUF -> 0 <= c < 256 ->
  c <> newline ->
  line_rep (co <| in_buf := store8 (in_buf co) (in_e co mod INPUT_BUF) c |> <| in_e := u32 (in_e co + 1) |>)
    {| ready := ready l; edit := edit l ++ [c] |}.
Proof.
  intros [H1 H2 H3 H4 H5 H6] Hl Hc Hn. constructor; cbn [ready edit]; cbn; rewrite ?app_assoc.
  - rewrite length_app. cbn. lia.
  - done.
  - done.
  - rewrite H4, (length_app (ready l ++ edit l)). cbn. unfold u32. dlia.
  - intros k b [Hk|[Hk Hb]]%lookup_app_Some.
    + rewrite load8_store8_ne; [by apply H5|]. rewrite H4, u32_mod_buf. apply lookup_lt_Some in Hk.
      unfold INPUT_BUF in *. dlia.
    + apply list_lookup_singleton_Some in Hb as [Hk0 <-]. rewrite load8_store8, H4, u32_mod_buf.
      rewrite decide_True by (f_equal; lia). by apply Z.mod_small.
  - intros H. apply elem_of_app in H as [H|H%list_elem_of_singleton]; [done|congruence].
Qed.

(** ... and the line is handed to the readers. *)
Lemma rep_commit co l c : line_rep co l -> Z.of_nat (length (ready l ++ edit l)) < INPUT_BUF -> 0 <= c < 256 ->
  line_rep (co <| in_buf := store8 (in_buf co) (in_e co mod INPUT_BUF) c |> <| in_e := u32 (in_e co + 1) |>
               <| in_w := u32 (in_e co + 1) |>)
    {| ready := ready l ++ edit l ++ [c]; edit := [] |}.
Proof.
  intros [H1 H2 H3 H4 H5 H6] Hl Hc. constructor; cbn [ready edit]; cbn; rewrite ?app_nil_r, ?app_assoc.
  - rewrite length_app. cbn. lia.
  - done.
  - rewrite H4, (length_app (ready l ++ edit l)). cbn. unfold u32. dlia.
  - rewrite H4, (length_app (ready l ++ edit l)). cbn. unfold u32. dlia.
  - intros k b [Hk|[Hk Hb]]%lookup_app_Some.
    + rewrite load8_store8_ne; [by apply H5|]. rewrite H4, u32_mod_buf. apply lookup_lt_Some in Hk.
      unfold INPUT_BUF in *. dlia.
    + apply list_lookup_singleton_Some in Hb as [Hk0 <-]. rewrite load8_store8, H4, u32_mod_buf.
      rewrite decide_True by (f_equal; lia). by apply Z.mod_small.
  - inversion 1.
Qed.

(** A character is read, or put back. *)
Lemma rep_pop co c rest e : line_rep co {| ready := c :: rest; edit := e |} ->
  load8 (in_buf co) (in_r co mod INPUT_BUF) = c /\
  line_rep (co <| in_r ::= fun r => u32 (r + 1) |>) {| ready := rest; edit := e |}.
Proof.
  intros [H1 H2 H3 H4 H5 H6]. cbn [ready edit app length] in *. split.
  - rewrite <- (H5 0%nat c) by done. by rewrite Z.add_0_r.
  - constructor; cbn [ready edit]; cbn.
    + lia.
    + unfold u32. dlia.
    + rewrite H3. unfold u32. dlia.
    + rewrite H4. unfold u32. dlia.
    + intros k b Hk. rewrite <- (H5 (S k) b) by done. f_equal. unfold u32, INPUT_BUF. dlia.
    + done.
Qed.

Lemma rep_unread co c l : line_rep co l -> ready l = c :: tail (ready l) ->
  co <| in_r ::= fun r => u32 (r + 1) |> <| in_r ::= fun r => u32 (r - 1) |> = co.
Proof.
  intros H _. destruct (lr_r _ _ H). destruct co. unfold upd. cbn in *. f_equal. unfold u32. dlia.
Qed.

Lemma rep_full co l : line_rep co l -> (in_e co =? u32 (in_r co + INPUT_BUF)) =
  (Z.of_nat (length (ready l ++ edit l)) =? INPUT_BUF).
Proof.
  intros [H1 H2 H3 H4 _ _]. rewrite H4. unfold u32, INPUT_BUF in *.
  destruct (Z.eqb_spec (Z.of_nat (length (ready l ++ edit l))) 128) as [->|]; [apply Z.eqb_refl|]. apply Z.eqb_neq. dlia.
Qed.

Lemma rep_room co l : line_rep co l -> u32 (in_e co - in_r co) = Z.of_nat (length (ready l ++ edit l)).
Proof. intros [H1 H2 H3 H4 _ _]. rewrite H4. unfold u32, INPUT_BUF in *. dlia. Qed.

(** Killing the line takes back every character of it. *)
Lemma kill_line_eq fuel s : forall co r e, line_rep co {| ready := r; edit := e |} -> (length e <= fuel)%nat ->
  exists co', kill_line fuel (with_cons co s) = Ret tt (with_cons co' s) /\
    line_rep co' {| ready := r; edit := [] |} /\ co_out co' = co_out co ++ replicate (length e) BACKSPACE /\
    co_lock co' = co_lock co.
Proof.
  induction fuel as [|fuel IH]; intros co r e Hr Hf; cbn [kill_line]; rewrite (bind_ret_eq _ _ _ _ _ (get_cons_eq co s));
    rewrite (edit_empty co _ Hr); cbn [edit].
  { destruct e; [|cbn in Hf; lia]. cbn. exists co. by rewrite app_nil_r. }
  destruct e as [|c e _] using rev_ind; [cbn; exists co; by rewrite app_nil_r|].
  rewrite bool_decide_eq_false_2 by (by destruct e). destruct (rep_back co _ c e Hr eq_refl) as [Hc Hr'].
  rewrite Hc. assert (c <> newline) as Hn by (pose proof (lr_edit _ _ Hr); set_solver).
  destruct (Z.eqb_spec c newline); [done|]. cbn [negb andb].
  rewrite (bind_ret_eq _ _ _ _ _ (upd_cons_eq _ _ _)). unfold consputc.
  rewrite (bind_ret_eq _ _ _ _ _ (upd_cons_eq _ _ _)).
  rewrite length_app in Hf. cbn in Hf.
  destruct (IH _ r e (rep_out _ _ (co_out co ++ [BACKSPACE]) Hr') ltac:(lia)) as (co' & E & Hco & Ho & Hl).
  exists co'. split; [exact E|]. split; [done|]. split; [|by rewrite Hl].
  rewrite Ho, length_app. cbn [length]. rewrite Nat.add_comm. cbn. by rewrite <- app_assoc.
Qed.

(** [co'] is what typing has made of [co]. *)
Definition typed (co co' : console) (l : line) (out : list Z) : Prop :=
  line_rep co' l /\ co_out co' = co_out co ++ out /\ co_lock co' = co_lock co.

Definition woken_if (wake : bool) (s : kernel) : kernel := if wake then woken input_chan s else s.

Lemma typed_same co l : line_rep co l -> typed co co l [].
Proof. intros H. split; [done|]. by rewrite app_nil_r. Qed.

(** An ordinary character for which there is room. *)
Lemma ordinary_char c co l s : line_rep co l -> 0 <= c < 256 -> k_ptable_lock s = false ->
  Z.of_nat (length (ready l ++ edit l)) < INPUT_BUF ->
  let e := edit l ++ [c] in
  let wake := (c =? newline) || (c =? end_of_file) || (Z.of_nat (length (ready l ++ e)) =? INPUT_BUF) in
  exists co',
    (upd_cons (fun co => co <| in_buf := store8 (in_buf co) (in_e co mod INPUT_BUF) c |>
                            <| in_e := u32 (in_e co + 1) |>) ;;;
     consputc c ;;;
     co <- get_cons ;;
     when ((c =? newline) || (c =? ctrl 68) || (in_e co =? u32 (in_r co + INPUT_BUF)))
       (upd_cons (fun co => co <| in_w := in_e co |>) ;;; wakeup input_chan)) (with_cons co s) =
    Ret tt (with_cons co' (woken_if wake s)) /\
    typed co co' (if wake then {| ready := ready l ++ e; edit := [] |} else {| ready := ready l; edit := e |}) [c].
Proof.
  intros Hr Hc Hlk Hroom e wake. unfold consputc.
  rewrite (bind_ret_eq _ _ _ _ _ (upd_cons_eq _ _ _)), (bind_ret_eq _ _ _ _ _ (upd_cons_eq _ _ _)),
    (bind_ret_eq _ _ _ _ _ (get_cons_eq _ _)).
  assert ((u32 (in_e co + 1) =? u32 (in_r co + INPUT_BUF)) = (Z.of_nat (length (ready l ++ e)) =? INPUT_BUF)) as Efull.
  { destruct Hr as [H1 H2 H3 H4 _ _]. rewrite H4. subst e. rewrite app_assoc, (length_app (ready l ++ edit l)).
    cbn [length]. unfold u32, INPUT_BUF in *.
    destruct (Z.eqb_spec (Z.of_nat (length (ready l ++ edit l) + 1)) 128); [apply Z.eqb_eq|apply Z.eqb_neq]; dlia. }
  cbn beta. fold end_of_file.
  match goal with |- context [in_e ?x =? u32 (in_r ?y + INPUT_BUF)] =>
    change (in_e x =? u32 (in_r y + INPUT_BUF)) with (u32 (in_e co + 1) =? u32 (in_r co + INPUT_BUF)) end.
  rewrite Efull. fold wake. destruct wake eqn:Ew; cbn [when].
  - rewrite (bind_ret_eq _ _ _ _ _ (upd_cons_eq _ _ _)), wakeup_cons by done.
    eexists. split; [reflexivity|]. split; [|done].
    exact (rep_out _ _ _ (rep_commit co l c Hr Hroom Hc)).
  - eexists. split; [reflexivity|]. split; [|done].
    refine (rep_out _ _ _ (rep_push co l c Hr Hroom Hc _)). intros E. unfold wake in Ew. by rewrite E in Ew.
Qed.

Lemma type_char_eq c co l s : line_rep co l -> 0 <= c < 256 -> k_ptable_lock s = false ->
  let '(l', out, wake) := type_char l c in
  exists co', consoleintr_char c (with_cons co s) = Ret tt (with_cons co' (woken_if wake s)) /\ typed co co' l' out.
Proof.
  intros Hr Hc Hlk. unfold type_char, consoleintr_char.
  destruct (c =? ctrl 80); [exists co; split; [done|by apply typed_same]|].
  destruct (c =? ctrl 85).
  { rewrite (bind_ret_eq _ _ _ _ _ (get_cons_eq _ _)). destruct l as [r e].
    destruct (kill_line_eq (Z.to_nat (u32 (in_e co - in_w co))) s co r e Hr) as (co' & E & H1 & H2 & H3).
    - destruct Hr as [H1 H2 H3 H4 _ _]. cbn [ready edit] in *. rewrite H3, H4, length_app in *. unfold u32, INPUT_BUF in *. dlia.
    - exists co'. by rewrite E. }
  destruct ((c =? ctrl 72) || (c =? 127)).
  { rewrite (bind_ret_eq _ _ _ _ _ (get_cons_eq _ _)), (edit_empty co l Hr).
    destruct (edit l) as [|c' e _] eqn:El using rev_ind; [exists co; split; [done|by apply typed_same]|].
    rewrite bool_decide_eq_false_2 by (by destruct e). cbn [negb when]. unfold consputc.
    rewrite (bind_ret_eq _ _ _ _ _ (upd_cons_eq _ _ _)), upd_cons_eq.
    destruct (rep_back co l c' e Hr El) as [_ Hr']. rewrite removelast_last.
    assert (exists x y, e ++ [c'] = x :: y) as (x & y & ->) by (destruct e; eauto).
    eexists. split; [reflexivity|]. split; [|done]. exact (rep_out _ _ _ Hr'). }
  rewrite (bind_ret_eq _ _ _ _ _ (get_cons_eq _ _)), (rep_room co l Hr).
  destruct (Z.eqb_spec c 0) as [->|H0]; cbn [negb andb orb].
  { exists co. split; [done|by apply typed_same]. }
  destruct (Z.leb_spec INPUT_BUF (Z.of_nat (length (ready l ++ edit l)))) as [Hfull|Hroom].
  { destruct (Z.ltb_spec (Z.of_nat (length (ready l ++ edit l))) INPUT_BUF); [lia|].
    exists co. split; [done|by apply typed_same]. }
  destruct (Z.ltb_spec (Z.of_nat (length (ready l ++ edit l))) INPUT_BUF); [|lia]. cbn [when].
  set (c' := if c =? 13 then newline else c).
  assert (0 <= c' < 256) as Hc' by (subst c'; unfold newline; destruct (c =? 13); lia).
  destruct (ordinary_char c' co l s Hr Hc' Hlk Hroom) as (co' & E & Ht).
  destruct ((c' =? newline) || (c' =? end_of_file) || _) eqn:Ew; exists co'; split; done.
Qed.

Lemma woken_if_lock wake s : k_ptable_lock (woken_if wake s) = k_ptable_lock s.
Proof. by destruct wake. Qed.

Lemma type_chars_eq chars : forall co l s, line_rep co l -> Forall (fun c => 0 <= c < 256) chars ->
  k_ptable_lock s = false ->
  let '(l', out, wake) := type_chars l chars in
  exists co', for_each chars consoleintr_char (with_cons co s) = Ret tt (with_cons co' (woken_if wake s)) /\
    typed co co' l' out.
Proof.
  induction chars as [|c chars IH]; intros co l s Hr Hcs Hlk; cbn [type_chars for_each].
  { exists co. split; [done|by apply typed_same]. }
  apply Forall_cons in Hcs as [Hc Hcs]. pose proof (type_char_eq c co l s Hr Hc Hlk) as H.
  destruct (type_char l c) as [[l1 out1] wake1]. destruct H as (co1 & E1 & Hr1 & Ho1 & Hl1).
  specialize (IH co1 l1 (woken_if wake1 s) Hr1 Hcs ltac:(by rewrite woken_if_lock)).
  destruct (type_chars l1 chars) as [[l2 out2] wake2]. destruct IH as (co2 & E2 & Hr2 & Ho2 & Hl2).
  exists co2. rewrite (bind_ret_eq _ _ _ _ _ E1), E2. split.
  - f_equal. f_equal. destruct wake1, wake2; cbn; try done. apply woken_woken.
  - split; [done|]. rewrite Ho2, Ho1, Hl2, Hl1. by rewrite app_assoc.
Qed.

Lemma cons_acquire_eq co s : co_lock co = false ->
  cons_acquire (with_cons co s) = Ret tt (with_cons (co <| co_lock := true |>) s).
Proof. intros H. destruct s as [? ? ? ? ? ? ? ? ? ? ? ? ? ? ? []]. unfold cons_acquire, facquire, acquire. cbn. by rewrite H. Qed.

Lemma cons_release_eq co s : co_lock co = true ->
  cons_release (with_cons co s) = Ret tt (with_cons (co <| co_lock := false |>) s).
Proof. intros H. destruct s as [? ? ? ? ? ? ? ? ? ? ? ? ? ? ? []]. unfold cons_release, frelease, release. cbn. by rewrite H. Qed.

Lemma rep_lock co l b : line_rep co l -> line_rep (co <| co_lock := b |>) l.
Proof. by intros [? ? ? ? ? ?]. Qed.

(** A reader with nothing to read waits, or gives up if it has been killed. *)
Lemma cons_sleep {A} co s i pr : co_lock co = true -> k_ptable_lock s = false ->
  k_curproc s = Some i -> k_ptable s !! i = Some pr ->
  sleep (A := A) input_chan (Some cons_release) (with_cons co s) =
  leaves input_chan (asleep i pr input_chan (with_cons (co <| co_lock := false |>) s)).
Proof.
  intros Hco Hlk Hi Hp.
  rewrite (sleep_eq i pr input_chan cons_release (with_cons co s)
    (with_cons (co <| co_lock := false |>) (s <| k_ptable_lock := true |>))); try done.
  change ((with_cons co s) <| k_ptable_lock := true |>) with (with_cons co (s <| k_ptable_lock := true |>)).
  by apply cons_release_eq.
Qed.

Lemma read_loop_eq n target s i pr : k_ptable_lock s = false -> k_curproc s = Some i -> k_ptable s !! i = Some pr ->
  forall k co r e, line_rep co {| ready := r; edit := e |} -> co_lock co = true -> (k <= n)%nat -> target = Z.of_nat n ->
  exists co', co_lock co' = true /\ co_out co' = co_out co /\
  match read_line k (bool_decide (k = n)) r with
  | Some (out, r') => line_rep co' {| ready := r'; edit := e |} /\
      consoleread_loop k target (with_cons co s) = Ret (Some out) (with_cons co' s)
  | None => line_rep co' {| ready := []; edit := e |} /\
      consoleread_loop k target (with_cons co s) =
      if p_killed pr then Ret None (with_cons co' s)
      else leaves input_chan (asleep i pr input_chan (with_cons (co' <| co_lock := false |>) s))
  end.
Proof.
  intros Hlk Hi Hp. induction k as [|k IH]; intros co r e Hr Hco Hk Ht; cbn [read_line consoleread_loop].
  { by exists co. }
  rewrite (bind_ret_eq _ _ _ _ _ (get_cons_eq _ _)), (ready_empty co _ Hr). cbn [ready].
  destruct r as [|c r].
  - exists co. split_and!; [done|done|done|]. rewrite bool_decide_eq_true_2 by done.
    assert (forall B (f : nat -> M kernel B), bind myproc f (with_cons co s) = f i (with_cons co s)) as ->
      by (intros; apply bind_ret_eq; unfold myproc; cbn; by rewrite Hi).
    assert (forall B (f : proc -> M kernel B), bind (get_proc i) f (with_cons co s) = f pr (with_cons co s)) as ->
      by (intros; apply bind_ret_eq; unfold get_proc; cbn; by rewrite Hp).
    destruct (p_killed pr); [done|]. by rewrite (cons_sleep co s i pr).
  - rewrite (bool_decide_eq_false_2 (c :: r = [])) by done. destruct (rep_pop co c r e Hr) as [Hc Hr'].
    rewrite Hc, (bind_ret_eq _ _ _ _ _ (upd_cons_eq _ _ _)). fold end_of_file.
    destruct (c =? end_of_file).
    + destruct (decide (S k = n)) as [E|E]; [rewrite (bool_decide_eq_true_2 (S k = n)) by done|rewrite (bool_decide_eq_false_2 (S k = n)) by done].
      * destruct (Z.ltb_spec (Z.of_nat (S k)) target); [lia|]. eexists. split; [|split; [|split; [exact Hr'|reflexivity]]]; done.
      * destruct (Z.ltb_spec (Z.of_nat (S k)) target); [|lia]. cbn [when].
        rewrite (bind_ret_eq _ _ _ _ _ (upd_cons_eq _ _ _)), (rep_unread co c _ Hr eq_refl). by exists co.
    + destruct (c =? newline); [eexists; split; [|split; [|split; [exact Hr'|reflexivity]]]; done|].
      destruct (IH _ r e Hr' Hco ltac:(lia) Ht) as (co' & Hl' & Ho' & H). rewrite bool_decide_eq_false_2 in H by lia.
      exists co'. split; [done|]. split; [done|].
      destruct (read_line k false r) as [[out r']|]; destruct H as [Hrep E]; (split; [done|]).
      * by rewrite (bind_ret_eq _ _ _ _ _ E).
      * unfold bind. rewrite E. destruct (p_killed pr); [done|]. unfold leaves. by destruct (ncli _ =? 1).
Qed.

(** Typing after which something else is printed. *)
Lemma typed_out co co' l out more : typed co co' l out ->
  typed co (co' <| co_out ::= fun o => o ++ more |>) l (out ++ more).
Proof.
  intros (H1 & H2 & H3). split; [by apply rep_out|]. split; [|done].
  change (co_out co' ++ more = co_out co ++ out ++ more). by rewrite H2, app_assoc.
Qed.

Lemma consputc_all text : forall co s,
  for_each text consputc (with_cons co s) = Ret tt (with_cons (co <| co_out ::= fun o => o ++ text |>) s).
Proof.
  induction text as [|c text IH]; intros co s; cbn [for_each].
  - destruct co. cbn. by rewrite app_nil_r.
  - unfold consputc at 1. rewrite (bind_ret_eq _ _ _ _ _ (upd_cons_eq _ _ _)), IH. destruct co. cbn. by rewrite <- app_assoc.
Qed.

Lemma cprint_all calls : forall co s, co_lock co = false ->
  for_each calls cprint (with_cons co s) = Ret tt (with_cons (co <| co_out ::= fun o => o ++ concat calls |>) s).
Proof.
  induction calls as [|text calls IH]; intros co s Hco; cbn [for_each concat].
  - destruct co. cbn. by rewrite app_nil_r.
  - assert (cprint text (with_cons co s) = Ret tt (with_cons (co <| co_out ::= fun o => o ++ text |>) s)) as E.
    { unfold cprint. rewrite (bind_ret_eq _ _ _ _ _ (cons_acquire_eq co s Hco)), (bind_ret_eq _ _ _ _ _ (consputc_all _ _ _)).
      rewrite cons_release_eq by done. by destruct co; cbn in Hco; subst. }
    rewrite (bind_ret_eq _ _ _ _ _ E), IH by done. destruct co. cbn. by rewrite <- app_assoc.
Qed.

(** C22. The console is a line editor.  Characters typed, whatever they are and
    however the counters of the buffer have wrapped around, go to the line being
    typed, echoed, as long as there is room: backspace takes the last one back,
    control-U all of them; a newline, control-D, or a full buffer hands the line
    over and wakes the readers; and if control-P was among them, what procdump
    prints follows.  A read gets the characters handed over, in order
    and once, up to the end of a line or of the file; when there are not enough it
    sleeps, with the lock released, or fails if the process has been killed (it
    leaves the processor; sched panics if it holds another spin lock). *)
Theorem console_is_line_editor dump co l s chars n i pr :
  line_rep co l -> co_lock co = false -> k_ptable_lock s = false ->
  k_curproc s = Some i -> k_ptable s !! i = Some pr -> Forall (fun c => 0 <= c < 256) chars ->
  (let '(l', out, wake) := type_chars l chars in
   let listing := if existsb (fun c => c =? ctrl 80) chars then concat (dump (k_ptable (woken_if wake s))) else [] in
   exists co', consoleintr dump chars (with_cons co s) = Ret tt (with_cons co' (woken_if wake s)) /\
     typed co co' l' (out ++ listing)) /\
  exists co', co_lock co' = true /\ co_out co' = co_out co /\
    match read_line n true (ready l) with
    | Some (out, r') => line_rep co' {| ready := r'; edit := edit l |} /\
        consoleread_loop n (Z.of_nat n) (with_cons (co <| co_lock := true |>) s) = Ret (Some out) (with_cons co' s)
    | None => line_rep co' {| ready := []; edit := edit l |} /\
        consoleread_loop n (Z.of_nat n) (with_cons (co <| co_lock := true |>) s) =
        if p_killed pr then Ret None (with_cons co' s)
        else leaves input_chan (asleep i pr input_chan (with_cons (co' <| co_lock := false |>) s))
    end.
Proof.
  intros Hr Hco Hlk Hi Hp Hcs. split.
  - pose proof (type_chars_eq chars _ l s (rep_lock co l true Hr) Hcs Hlk) as H.
    destruct (type_chars l chars) as [[l' out] wake]. destruct H as (co' & E & Hr' & Ho & Hl).
    assert (typed co (co' <| co_lock := false |>) l' out) as Ht by (split; [by apply rep_lock|by split]).
    unfold consoleintr. rewrite (bind_ret_eq _ _ _ _ _ (cons_acquire_eq co s Hco)), (bind_ret_eq _ _ _ _ _ E).
    rewrite (bind_ret_eq _ _ _ _ _ (cons_release_eq co' _ ltac:(by rewrite Hl))).
    destruct (existsb _ chars); cbn [when]; eexists.
    + split; [|by apply typed_out]. unfold bind, gets. by apply cprint_all.
    + split; [done|]. by rewrite app_nil_r.
  - destruct l as [r e]. pose proof (read_loop_eq n (Z.of_nat n) s i pr Hlk Hi Hp n (co <| co_lock := true |>) r e
      (rep_lock co _ true Hr) eq_refl (Nat.le_refl n) eq_refl) as H.
    by rewrite bool_decide_eq_true_2 in H by done.
Qed.

Module ConsoleWitness.

Definition empty_console : console :=
  {| co_lock := false; in_buf := ∅; in_r := 2 ^ 32 - 1; in_w := 2 ^ 32 - 1; in_e := 2 ^ 32 - 1; co_out := [] |}.
Definition machine : kernel :=
  (boot (fsys_boot blank_disk)) <| k_curproc := Some 0%nat |> <| k_ptable := [proc0 <| p_state := RUNNING |>] |>.

(** "ax", backspace, control-P, "b" and return; the listing is "P". *)
Definition typing : list Z := [97; 120; 127; 16; 98; 13].

Lemma console_is_line_editor_witness :
  exists co', consoleintr (fun _ => [[80]]) typing (with_cons empty_console machine) =
      Ret tt (with_cons co' (woken input_chan machine)) /\
    line_rep co' {| ready := [97; 98; 10]; edit := [] |} /\ co_out co' = [97; 120; 256; 98; 10; 80].
Proof.
  destruct (console_is_line_editor (fun _ => [[80]]) empty_console {| ready := []; edit := [] |} machine typing 5 0%nat
    (proc0 <| p_state := RUNNING |>)) as [H _].
  - constructor; cbn; try done; try lia. inversion 1.
  - reflexivity.
  - reflexivity.
  - reflexivity.
  - reflexivity.
  - repeat constructor; lia.
  - destruct H as (co' & E & Hr & Ho & _). exists co'. split; [exact E|]. split; [exact Hr|exact Ho].
Defined.

End ConsoleWitness.
