(* ===== verification/Kbd.v ===== *)
(** The keyboard driver, src/src/kbd.c and the tables of kbd.h.

    The bytes that wait in the keyboard controller are a list.  What the driver
    makes of them is compared with a keyboard: keys that are pressed and
    released, a set of keys held down, and three locks. *)

From stdpp Require Import base gmap list strings.
From Stdlib Require Import ZArith Lia.
From S2P Require Import Prelude Mem State Fsys Console.

Definition NO : Z := 0.
Definition SHIFT : Z := Z.shiftl 1 0.
Definition CTL : Z := Z.shiftl 1 1.
Definition ALT : Z := Z.shiftl 1 2.
Definition CAPSLOCK : Z := Z.shiftl 1 3.
Definition NUMLOCK : Z := Z.shiftl 1 4.
Definition SCROLLLOCK : Z := Z.shiftl 1 5.
Definition E0ESC : Z := Z.shiftl 1 6.

Definition KEY_HOME : Z := 0xE0.
Definition KEY_END : Z := 0xE1.
Definition KEY_UP : Z := 0xE2.
Definition KEY_DN : Z := 0xE3.
Definition KEY_LF : Z := 0xE4.
Definition KEY_RT : Z := 0xE5.
Definition KEY_PGUP : Z := 0xE6.
Definition KEY_PGDN : Z := 0xE7.
Definition KEY_INS : Z := 0xE8.
Definition KEY_DEL : Z := 0xE9.

(** The characters of a string. *)
Definition codes (s : string) : list Z := (fun a => Z.of_nat (Ascii.nat_of_ascii a)) <$> String.list_ascii_of_string s.

(** An array of 256 uchars from its first values and its designated ones. *)
Definition table (init : list Z) (des : list (Z * Z)) : list Z :=
  fold_left (fun t p => <[Z.to_nat p.1 := p.2]> t) des (init ++ replicate (256 - length init) 0).

(** C('A') is Control-A, as a uchar. *)
Definition C (x : Z) : Z := (x - 64) mod 256.

Definition shiftcode : list Z := table [] [(0x1D, CTL); (0x2A, SHIFT); (0x36, SHIFT); (0x38, ALT); (0x9D, CTL); (0xB8, ALT)].
Definition togglecode : list Z := table [] [(0x3A, CAPSLOCK); (0x45, NUMLOCK); (0x46, SCROLLLOCK)].

Definition keypad : list Z :=
  [NO; 42; NO; 32] ++ replicate 13 NO ++ codes "789-456+1230.".

Definition special : list (Z * Z) :=
  [(0xC8, KEY_UP); (0xD0, KEY_DN); (0xC9, KEY_PGUP); (0xD1, KEY_PGDN); (0xCB, KEY_LF); (0xCD, KEY_RT);
   (0x97, KEY_HOME); (0xCF, KEY_END); (0xD2, KEY_INS); (0xD3, KEY_DEL)].

Definition normalmap : list Z :=
  table ([NO; 0x1B] ++ codes "1234567890-=" ++ [8; 9] ++ codes "qwertyuiop[]" ++ [10; NO] ++ codes "asdfghjkl;'`" ++ [NO] ++
         codes "\zxcvbnm,./" ++ keypad)
        ([(0x9C, 10); (0xB5, 47)] ++ special).

Definition shiftmap : list Z :=
  table ([NO; 0x1B] ++ codes "!@#$%^&*()_+" ++ [8; 9] ++ codes "QWERTYUIOP{}" ++ [10; NO] ++ codes "ASDFGHJKL:" ++ [34; 126] ++ [NO] ++
         codes "|ZXCVBNM<>?" ++ keypad)
        ([(0x9C, 10); (0xB5, 47)] ++ special).

Definition ctlmap : list Z :=
  table (replicate 16 NO ++ (C <$> codes "QWERTYUIOP") ++ [NO; NO; 13; NO] ++ (C <$> codes "ASDFGHJKL") ++ [NO; NO; NO; NO] ++
         (C <$> codes "\ZXCVBNM") ++ [NO; NO; C 47; NO; NO])
        ([(0x9C, 13); (0xB5, C 47)] ++ special).

(** The bytes that wait in the controller, and the static variable shift. *)
Record kbd := { k_port : list Z; k_shift : Z }.

#[global] Instance eta_kbd : Eta kbd := fun k => {| k_port := k_port k; k_shift := k_shift k |}.

Definition at_ (t : list Z) (i : Z) : Z := default 0 (t !! Z.to_nat i).

Definition charcode (i : Z) : list Z := default [] ([normalmap; shiftmap; ctlmap; ctlmap] !! Z.to_nat i).

Definition set_shift (v : Z) : M kbd unit := modify (fun k => k <| k_shift := v |>).

(** The end of kbdgetc, for a key that is pressed. *)
Definition kbd_press (data shift : Z) : M kbd Z :=
  let shift := Z.lxor (Z.lor shift (at_ shiftcode data)) (at_ togglecode data) in
  set_shift shift ;;;
  let c := at_ (charcode (Z.land shift (Z.lor CTL SHIFT))) data in
  if negb (Z.land shift CAPSLOCK =? 0) then
    if (97 <=? c) && (c <=? 122) then ret (c + (65 - 97))
    else if (65 <=? c) && (c <=? 90) then ret (c + (97 - 65))
    else ret c
  else ret c.

Definition kbdgetc : M kbd Z :=
  port <- gets k_port ;;
  match port with
  | [] => ret (-1)
  | data :: port =>
      modify (fun k => k <| k_port := port |>) ;;;
      shift <- gets k_shift ;;
      if data =? 0xE0 then
        set_shift (Z.lor shift E0ESC) ;;;
        ret 0
      else if negb (Z.land data 0x80 =? 0) then
        let data := if negb (Z.land shift E0ESC =? 0) then data else Z.land data 0x7F in
        set_shift (Z.land shift (Z.lnot (Z.lor (at_ shiftcode data) E0ESC))) ;;;
        ret 0
      else
        let '(data, shift) :=
          if negb (Z.land shift E0ESC =? 0) then (Z.lor data 0x80, Z.land shift (Z.lnot E0ESC)) else (data, shift) in
        kbd_press data shift
  end.

(** What consoleintr gets from kbdgetc before the first negative value. *)
Fixpoint kbd_chars (fuel : nat) : M kbd (list Z) :=
  match fuel with
  | O => no_fuel
  | S fuel =>
      c <- kbdgetc ;;
      if c <? 0 then ret []
      else
        l <- kbd_chars fuel ;;
        ret (c :: l)
  end.

(** The keyboard is not part of the kernel's state: it is given, and returned. *)
Definition kbdintr (dump : list proc -> list (list Z)) (k : kbd) : M kernel kbd :=
  match kbd_chars (S (length (k_port k))) k with
  | Ret l k' =>
      consoleintr dump l ;;;
      ret k'
  | _ => no_fuel
  end.

(** ** A keyboard *)

(** A key sends its code, after the byte 0xE0 if it is one of the extended keys. *)
Abbreviation key := (bool * Z)%type.

Inductive event := Press (k : key) | Release (k : key).

Definition prefix (k : key) : list Z := if k.1 then [0xE0] else [].

Definition bytes_of (e : event) : list Z :=
  match e with
  | Press k => prefix k ++ [k.2]
  | Release k => prefix k ++ [k.2 + 128]
  end.

(** The released key 0x60 would send the escape byte: there is no such key. *)
Definition real_key (k : key) : Prop := 0 <= k.2 < 128 /\ k.2 <> 0x60.
Definition real_event (e : event) : Prop := match e with Press k | Release k => real_key k end.

Definition shift_keys : list key := [(false, 0x2A); (false, 0x36)].
Definition ctl_keys : list key := [(false, 0x1D); (true, 0x1D)].
Definition alt_keys : list key := [(false, 0x38); (true, 0x38)].
Definition caps_key : key := (false, 0x3A).
Definition num_key : key := (false, 0x45).
Definition scroll_key : key := (false, 0x46).

(** The keys held down, and the locks. *)
Record keyboard := { held : list key; caps : bool; num : bool; scroll : bool }.

Definition among (k : key) (l : list key) : bool := bool_decide (k ∈ l).
Definition any_held (l : list key) (b : keyboard) : bool := existsb (fun k => among k (held b)) l.

Definition change (b : keyboard) (e : event) : keyboard :=
  match e with
  | Press k =>
      {| held := k :: held b; caps := xorb (caps b) (bool_decide (k = caps_key));
         num := xorb (num b) (bool_decide (k = num_key)); scroll := xorb (scroll b) (bool_decide (k = scroll_key)) |}
  | Release k => {| held := filter (fun k' => k' <> k) (held b); caps := caps b; num := num b; scroll := scroll b |}
  end.

Definition flip_case (c : Z) : Z :=
  if (97 <=? c) && (c <=? 122) then c - 32 else if (65 <=? c) && (c <=? 90) then c + 32 else c.

(** The character a key gives while the keyboard is in the state [b]. *)
Definition char_of (b : keyboard) (k : key) : Z :=
  let c := at_ (if any_held ctl_keys b then ctlmap else if any_held shift_keys b then shiftmap else normalmap)
             (if k.1 then k.2 + 128 else k.2) in
  if caps b then flip_case c else c.

Definition typed (b : keyboard) (e : event) : list Z :=
  match e with
  | Press k => let c := char_of (change b e) k in if c =? 0 then [] else [c]
  | Release _ => []
  end.

Fixpoint typed_all (b : keyboard) (es : list event) : list Z :=
  match es with
  | [] => []
  | e :: es => typed b e ++ typed_all (change b e) es
  end.

(** No key is released while the other of its kind is held. *)
Definition lone (b : keyboard) (e : event) : Prop :=
  match e with
  | Press _ => True
  | Release k => forall l k', l ∈ [shift_keys; ctl_keys; alt_keys] -> k ∈ l -> k' ∈ l -> k' ∈ held b -> k' = k
  end.

Fixpoint lone_all (b : keyboard) (es : list event) : Prop :=
  match es with
  | [] => True
  | e :: es => lone b e /\ lone_all (change b e) es
  end.

(** ** The variable shift *)

Definition bit_of (b : bool) (v : Z) : Z := if b then v else 0.

Definition flags (sh ct al cp nm sc : bool) : Z :=
  Z.lor (bit_of sh SHIFT) (Z.lor (bit_of ct CTL) (Z.lor (bit_of al ALT)
    (Z.lor (bit_of cp CAPSLOCK) (Z.lor (bit_of nm NUMLOCK) (bit_of sc SCROLLLOCK))))).

Definition shift_of (b : keyboard) : Z :=
  flags (any_held shift_keys b) (any_held ctl_keys b) (any_held alt_keys b) (caps b) (num b) (scroll b).

Definition index (k : key) : Z := if k.1 then k.2 + 128 else k.2.

Lemma flags_press sh ct al cp nm sc a b c d e f :
  Z.lxor (Z.lor (flags sh ct al cp nm sc) (flags a b c false false false)) (flags false false false d e f) =
  flags (sh || a) (ct || b) (al || c) (xorb cp d) (xorb nm e) (xorb sc f).
Proof. destruct sh, ct, al, cp, nm, sc, a, b, c, d, e, f; reflexivity. Qed.

Lemma flags_release (esc : bool) sh ct al cp nm sc a b c :
  Z.land (Z.lor (flags sh ct al cp nm sc) (bit_of esc E0ESC)) (Z.lnot (Z.lor (flags a b c false false false) E0ESC)) =
  flags (sh && negb a) (ct && negb b) (al && negb c) cp nm sc.
Proof. destruct esc, sh, ct, al, cp, nm, sc, a, b, c; reflexivity. Qed.

Lemma flags_esc sh ct al cp nm sc :
  Z.land (flags sh ct al cp nm sc) E0ESC = 0 /\
  Z.land (Z.lor (flags sh ct al cp nm sc) E0ESC) E0ESC = E0ESC /\
  Z.land (Z.lor (flags sh ct al cp nm sc) E0ESC) (Z.lnot E0ESC) = flags sh ct al cp nm sc.
Proof. destruct sh, ct, al, cp, nm, sc; by vm_compute. Qed.

Lemma flags_case sh ct al cp nm sc :
  charcode (Z.land (flags sh ct al cp nm sc) (Z.lor CTL SHIFT)) = (if ct then ctlmap else if sh then shiftmap else normalmap) /\
  (Z.land (flags sh ct al cp nm sc) CAPSLOCK =? 0) = negb cp.
Proof. destruct sh, ct, al, cp, nm, sc; split; reflexivity. Qed.

(** ** The tables *)

Definition is_mod (k : key) : Z := flags (among k shift_keys) (among k ctl_keys) (among k alt_keys) false false false.
Definition is_lock (k : key) : Z :=
  flags false false false (bool_decide (k = caps_key)) (bool_decide (k = num_key)) (bool_decide (k = scroll_key)).

Lemma range_check (P : Z -> bool) m n : forallb P (range 0 m) = true -> 0 <= n < Z.of_nat m -> P n = true.
Proof. intros H Hn. rewrite forallb_forall in H. apply H, list_elem_of_In, elem_of_range. lia. Qed.

Lemma tables_ok k : 0 <= k.2 < 128 -> at_ shiftcode (index k) = is_mod k /\ at_ togglecode (index k) = is_lock k.
Proof.
  destruct k as [x n]. cbn [snd]. intros Hn. set (P x n := (at_ shiftcode (index (x, n)) =? is_mod (x, n)) && (at_ togglecode (index (x, n)) =? is_lock (x, n))).
  assert (P x n = true) as H by (destruct x; apply (range_check _ 128); [by vm_compute|lia|by vm_compute|lia]).
  by apply andb_true_iff in H as [->%Z.eqb_eq ->%Z.eqb_eq].
Qed.

Lemma index_range n : 0 <= n < 128 -> Z.lor n 128 = n + 128 /\ Z.land (n + 128) 127 = n /\ Z.land n 128 = 0 /\ Z.land (n + 128) 128 = 128.
Proof.
  intros Hn. set (P n := (Z.lor n 128 =? n + 128) && (Z.land (n + 128) 127 =? n) && (Z.land n 128 =? 0) && (Z.land (n + 128) 128 =? 128)).
  assert (P n = true) as H by (apply (range_check _ 128); [by vm_compute|lia]).
  unfold P in H. rewrite !andb_true_iff, !Z.eqb_eq in H. tauto.
Qed.

(** ** The keys held down *)

Lemma among_spec k l : among k l = true <-> k ∈ l.
Proof. apply bool_decide_eq_true. Qed.

Lemma any_held_spec l b : any_held l b = true <-> exists k, k ∈ l /\ k ∈ held b.
Proof.
  unfold any_held. rewrite existsb_exists. split; intros (k & H1 & H2); exists k.
  - apply list_elem_of_In in H1. by apply among_spec in H2.
  - split; [by apply list_elem_of_In|by apply among_spec].
Qed.

Lemma any_press l b k : any_held l (change b (Press k)) = any_held l b || among k l.
Proof.
  apply eq_true_iff_eq. rewrite orb_true_iff, !any_held_spec, among_spec. cbn [change held]. split.
  - intros (k' & H1 & [->|H2]%elem_of_cons); [by right|left; by exists k'].
  - intros [(k' & H1 & H2)|H]; [exists k'; split; [done|by right]|exists k; split; [done|by left]].
Qed.

Lemma any_release l b k : l ∈ [shift_keys; ctl_keys; alt_keys] -> lone b (Release k) ->
  any_held l (change b (Release k)) = any_held l b && negb (among k l).
Proof.
  intros Hl HL. apply eq_true_iff_eq. rewrite andb_true_iff, negb_true_iff, !any_held_spec. cbn [change held]. split.
  - intros (k' & H1 & [Hne H2]%list_elem_of_filter). split; [by exists k'|]. apply not_true_is_false. rewrite among_spec. intros Hk.
    apply Hne. by eapply HL.
  - intros [(k' & H1 & H2) Ha]. exists k'. split; [done|]. apply list_elem_of_filter. split; [|done]. intros ->.
    apply among_spec in H1. congruence.
Qed.

Lemma shift_press b k : Z.lxor (Z.lor (shift_of b) (is_mod k)) (is_lock k) = shift_of (change b (Press k)).
Proof. unfold shift_of, is_mod, is_lock. rewrite flags_press, !any_press. done. Qed.

Lemma shift_release b k (esc : bool) : lone b (Release k) ->
  Z.land (Z.lor (shift_of b) (bit_of esc E0ESC)) (Z.lnot (Z.lor (is_mod k) E0ESC)) = shift_of (change b (Release k)).
Proof.
  intros HL. unfold shift_of, is_mod. rewrite flags_release. rewrite !any_release by (done || (rewrite !elem_of_cons; tauto)). done.
Qed.

(** ** One event *)

Definition kbd_at (port : list Z) (s : Z) : kbd := {| k_port := port; k_shift := s |}.

Lemma getc_escape b port : kbdgetc (kbd_at (0xE0 :: port) (shift_of b)) = Ret 0 (kbd_at port (Z.lor (shift_of b) E0ESC)).
Proof. reflexivity. Qed.

Lemma char_upper c : (if (97 <=? c) && (c <=? 122) then ret (c + (65 - 97)) else if (65 <=? c) && (c <=? 90) then ret (c + (97 - 65)) else ret c) =
  ret (S := kbd) (flip_case c).
Proof. unfold flip_case. destruct ((97 <=? c) && (c <=? 122)); [done|]. by destruct ((65 <=? c) && (c <=? 90)). Qed.

Lemma kbd_press_ok b k port s : 0 <= k.2 < 128 ->
  kbd_press (index k) (shift_of b) (kbd_at port s) = Ret (char_of (change b (Press k)) k) (kbd_at port (shift_of (change b (Press k)))).
Proof.
  intros Hk. destruct (tables_ok k Hk) as [T1 T2]. pose proof (shift_press b k) as SP. set (b' := change b (Press k)) in *.
  destruct (flags_case (any_held shift_keys b') (any_held ctl_keys b') (any_held alt_keys b') (caps b') (num b') (scroll b')) as (G1 & G2).
  fold (shift_of b') in G1, G2. unfold kbd_press. rewrite T1, T2, SP, G1, G2. unfold set_shift, modify, bind. cbn zeta. rewrite char_upper.
  unfold char_of, index. by destruct (caps b').
Qed.

Lemma getc_press b k port : real_key k ->
  kbdgetc (kbd_at (k.2 :: port) (Z.lor (shift_of b) (bit_of k.1 E0ESC))) =
  Ret (char_of (change b (Press k)) k) (kbd_at port (shift_of (change b (Press k)))).
Proof.
  destruct k as [x n]. intros [Hk Hne]. cbn [fst snd] in *. destruct (index_range n Hk) as (E1 & E2 & E3 & E4).
  destruct (flags_esc (any_held shift_keys b) (any_held ctl_keys b) (any_held alt_keys b) (caps b) (num b) (scroll b)) as (F1 & F2 & F3).
  fold (shift_of b) in F1, F2, F3. unfold kbdgetc, gets, modify, bind. cbn [k_port kbd_at].
  match goal with |- context [k_shift ?s] => change (k_shift s) with (Z.lor (shift_of b) (bit_of x E0ESC)) end.
  assert ((n =? 224) = false) as -> by lia. rewrite E3. change (negb (0 =? 0)) with false. cbn iota.
  rewrite <- (kbd_press_ok b (x, n) port (Z.lor (shift_of b) (bit_of x E0ESC)) Hk).
  destruct x; cbn [bit_of]; [rewrite F2, F3, E1; done|]. rewrite Z.lor_0_r, F1. done.
Qed.

Lemma getc_release b k port : real_key k -> lone b (Release k) ->
  kbdgetc (kbd_at (k.2 + 128 :: port) (Z.lor (shift_of b) (bit_of k.1 E0ESC))) = Ret 0 (kbd_at port (shift_of (change b (Release k)))).
Proof.
  intros [Hk Hne] HL. pose proof (shift_release b k k.1 HL) as SR. destruct (tables_ok k Hk) as [T1 _]. destruct k as [x n]. cbn [fst snd] in *.
  destruct (index_range n Hk) as (E1 & E2 & E3 & E4).
  destruct (flags_esc (any_held shift_keys b) (any_held ctl_keys b) (any_held alt_keys b) (caps b) (num b) (scroll b)) as (F1 & F2 & F3).
  fold (shift_of b) in F1, F2, F3. unfold kbdgetc, set_shift, gets, modify, bind. cbn [k_port kbd_at].
  match goal with |- context [k_shift ?s] => change (k_shift s) with (Z.lor (shift_of b) (bit_of x E0ESC)) end.
  assert ((n + 128 =? 224) = false) as -> by lia. rewrite E4. change (negb (128 =? 0)) with true. cbn iota.
  assert ((if negb (Z.land (Z.lor (shift_of b) (bit_of x E0ESC)) E0ESC =? 0) then n + 128 else Z.land (n + 128) 127) = index (x, n)) as ->.
  { destruct x; cbn [bit_of]; [by rewrite F2|]. by rewrite Z.lor_0_r, F1, E2. }
  rewrite T1, SR. done.
Qed.

(** ** All events *)

Lemma table_nonneg t i : forallb (fun c => 0 <=? c) t = true -> 0 <= at_ t i.
Proof.
  intros H. unfold at_. destruct (t !! Z.to_nat i) as [c|] eqn:E; [|done]. rewrite forallb_forall in H.
  apply Z.leb_le, H, list_elem_of_In. by eapply list_elem_of_lookup_2.
Qed.

Lemma char_of_nonneg b k : 0 <= char_of b k.
Proof.
  unfold char_of. set (t := if any_held ctl_keys b then _ else _).
  assert (forallb (fun c => 0 <=? c) t = true) as H by (unfold t; destruct (any_held ctl_keys b), (any_held shift_keys b); by vm_compute).
  pose proof (table_nonneg t (if k.1 then k.2 + 128 else k.2) H). destruct (caps b); [|done]. unfold flip_case.
  destruct ((97 <=? _) && _) eqn:E; [lia|]. destruct ((65 <=? _) && _); lia.
Qed.

Lemma chars_step fuel k c k' l k2 : kbdgetc k = Ret c k' -> 0 <= c -> kbd_chars fuel k' = Ret l k2 -> kbd_chars (S fuel) k = Ret (c :: l) k2.
Proof.
  intros E1 Hc E2. cbn [kbd_chars]. unfold bind at 1. rewrite E1. destruct (Z.ltb_spec c 0); [lia|]. unfold bind. by rewrite E2.
Qed.

Lemma chars_event b e port fuel l k2 : real_event e -> lone b e ->
  kbd_chars fuel (kbd_at port (shift_of (change b e))) = Ret l k2 ->
  exists l', kbd_chars (length (bytes_of e) + fuel) (kbd_at (bytes_of e ++ port) (shift_of b)) = Ret l' k2 /\
    filter (fun c => c <> 0) l' = typed b e ++ filter (fun c => c <> 0) l.
Proof.
  intros He HL E.
  assert (forall c n (k : key), 0 <= c -> kbdgetc (kbd_at (n :: port) (Z.lor (shift_of b) (bit_of k.1 E0ESC))) = Ret c (kbd_at port (shift_of (change b e))) ->
    exists l', kbd_chars (length (prefix k ++ [n]) + fuel) (kbd_at ((prefix k ++ [n]) ++ port) (shift_of b)) = Ret l' k2 /\
      filter (fun c => c <> 0) l' = (if c =? 0 then [] else [c]) ++ filter (fun c => c <> 0) l) as K.
  { intros c n k Hc G. assert (filter (fun c => c <> 0) (c :: l) = (if c =? 0 then [] else [c]) ++ filter (fun c => c <> 0) l) as EF.
    { rewrite filter_cons. destruct (Z.eqb_spec c 0); [rewrite decide_False by tauto|rewrite decide_True by done]; done. }
    destruct k as [[] ?]; cbn [prefix fst app length Nat.add bit_of] in *.
    - exists (0 :: c :: l). split; [|by rewrite <- EF].
      eapply chars_step; [apply getc_escape|done|]. by eapply chars_step.
    - exists (c :: l). split; [|done]. rewrite Z.lor_0_r in G. by eapply chars_step. }
  destruct e as [k|k]; cbn [bytes_of typed].
  - apply K; [apply char_of_nonneg|]. by apply getc_press.
  - apply (K 0); [done|]. by apply getc_release.
Qed.

Lemma chars_events es : forall b, Forall real_event es -> lone_all b es ->
  exists l, kbd_chars (S (length (es ≫= bytes_of))) (kbd_at (es ≫= bytes_of) (shift_of b)) = Ret l (kbd_at [] (shift_of (fold_left change es b))) /\
    filter (fun c => c <> 0) l = typed_all b es.
Proof.
  induction es as [|e es IH]; intros b Hr HL; [by exists []|]. apply Forall_cons in Hr as [He Hr]. destruct HL as [HL1 HL2].
  destruct (IH (change b e) Hr HL2) as (l & E & F). destruct (chars_event b e _ _ l _ He HL1 E) as (l' & E' & F').
  exists l'. cbn [mbind list_bind fold_left typed_all]. rewrite length_app, <- plus_n_Sm in *. split; [exact E'|by rewrite F', F].
Qed.

Lemma console_zero s : consoleintr_char 0 s = Ret tt s.
Proof. reflexivity. Qed.

Lemma console_zeros l : forall s, for_each l consoleintr_char s = for_each (filter (fun c => c <> 0) l) consoleintr_char s.
Proof.
  induction l as [|c l IH]; intros s; [done|]. rewrite filter_cons. case_decide as Hc.
  - cbn [for_each]. unfold bind. destruct (consoleintr_char c s); [apply IH|done..].
  - assert (c = 0) as -> by lia. cbn [for_each]. unfold bind. rewrite console_zero. apply IH.
Qed.

Lemma control_p_filter l : existsb (fun c => c =? ctrl 80) (filter (fun c => c <> 0) l) = existsb (fun c => c =? ctrl 80) l.
Proof.
  induction l as [|c l IH]; [done|]. rewrite filter_cons. case_decide as Hc; cbn [existsb]; rewrite IH; [done|].
  assert (c = 0) as -> by lia. done.
Qed.

Lemma kbdintr_events dump b es s : Forall real_event es -> lone_all b es ->
  kbdintr dump (kbd_at (es ≫= bytes_of) (shift_of b)) s =
  (consoleintr dump (typed_all b es) ;;; ret (kbd_at [] (shift_of (fold_left change es b)))) s.
Proof.
  intros Hr HL. destruct (chars_events es b Hr HL) as (l & E & F). unfold kbdintr. cbn [k_port kbd_at].
  change (k_port (kbd_at (es ≫= bytes_of) (shift_of b))) with (es ≫= bytes_of). rewrite E, <- F. unfold consoleintr, bind.
  destruct (cons_acquire s) as [? s1| | | |]; try done. by rewrite console_zeros, control_p_filter.
Qed.

(** ** Typing a text *)

Definition tap (k : key) : list event := [Press k; Release k].

(** The key that gives [c] in a layout. *)
Definition key_in (t : list Z) (c : Z) : option key := (fun p => (false, Z.of_nat p.1)) <$> list_find (fun x => x = c) (take 128 t).

(** How [c] is typed: with no modifier, with the left Shift or with the left Control key. *)
Definition strokes (c : Z) : list event :=
  match key_in normalmap c with
  | Some k => tap k
  | None =>
      match key_in shiftmap c with
      | Some k => Press (false, 0x2A) :: tap k ++ [Release (false, 0x2A)]
      | None =>
          match key_in ctlmap c with
          | Some k => Press (false, 0x1D) :: tap k ++ [Release (false, 0x1D)]
          | None => []
          end
      end
  end.

(** The printable characters, and those of the Control keys with letters, backspace, tab, newline and escape. *)
Definition typeable (c : Z) : Prop := 1 <= c <= 28 \/ 32 <= c <= 126.

Definition at_rest (nm sc : bool) : keyboard := {| held := []; caps := false; num := nm; scroll := sc |}.

#[local] Instance event_eq_dec : EqDecision event.
Proof. solve_decision. Defined.

Definition event_okb (e : event) : bool := match e with Press k | Release k => (0 <=? k.2) && (k.2 <? 128) && negb (k.2 =? 0x60) end.

Lemma event_okb_ok e : event_okb e = true -> real_event e.
Proof. destruct e; cbn; unfold real_key; lia. Qed.

(** A lone release can be checked key by key. *)
Definition loneb (b : keyboard) (e : event) : bool :=
  match e with
  | Press _ => true
  | Release k => forallb (fun l => negb (among k l) || forallb (fun k' => negb (among k' (held b)) || bool_decide (k' = k)) l) [shift_keys; ctl_keys; alt_keys]
  end.

Lemma loneb_ok b e : loneb b e = true -> lone b e.
Proof.
  destruct e as [k|k]; [done|]. unfold loneb, lone. rewrite forallb_forall. intros H l k' Hl Hk Hk' Hh.
  specialize (H l (proj1 (list_elem_of_In _ _) Hl)). apply among_spec in Hk. rewrite Hk in H. cbn in H. rewrite forallb_forall in H.
  specialize (H k' (proj1 (list_elem_of_In _ _) Hk')). apply among_spec in Hh. rewrite Hh in H. cbn in H. by apply bool_decide_eq_true in H.
Qed.

Fixpoint lone_allb (b : keyboard) (es : list event) : bool :=
  match es with
  | [] => true
  | e :: es => loneb b e && lone_allb (change b e) es
  end.

Lemma lone_allb_ok es : forall b, lone_allb b es = true -> lone_all b es.
Proof. induction es as [|e es IH]; intros b H; [done|]. cbn in *. apply andb_true_iff in H as [H1%loneb_ok H2%IH]. done. Qed.

#[local] Instance keyboard_eq_dec : EqDecision keyboard.
Proof. solve_decision. Defined.

Definition stroke_check (b : keyboard) (c : Z) : bool :=
  forallb event_okb (strokes c) && lone_allb b (strokes c) && bool_decide (typed_all b (strokes c) = [c]) &&
  bool_decide (fold_left change (strokes c) b = b).

Lemma strokes_ok nm sc c : typeable c -> stroke_check (at_rest nm sc) c = true.
Proof.
  intros H. set (P c := ((29 <=? c) && (c <=? 31)) || (c =? 0) || stroke_check (at_rest nm sc) c).
  assert (P c = true) as HP by (apply (range_check P 127); [destruct nm, sc; by vm_compute|unfold typeable in H; lia]).
  unfold P in HP. rewrite !orb_true_iff, andb_true_iff in HP. unfold typeable in H. destruct HP as [[HP|HP]|HP]; [lia|lia|done].
Qed.

Lemma typed_app es es' : forall b, typed_all b (es ++ es') = typed_all b es ++ typed_all (fold_left change es b) es'.
Proof. induction es as [|e es IH]; intros b; [done|]. cbn. by rewrite IH, app_assoc. Qed.

Lemma lone_app es es' : forall b, lone_all b es -> lone_all (fold_left change es b) es' -> lone_all b (es ++ es').
Proof. induction es as [|e es IH]; intros b H1 H2; [done|]. cbn in *. destruct H1. split; [done|by apply IH]. Qed.

Lemma text_events nm sc text : Forall typeable text -> let b := at_rest nm sc in let es := text ≫= strokes in
  Forall real_event es /\ lone_all b es /\ typed_all b es = text /\ fold_left change es b = b.
Proof.
  intros HT b. cbn zeta. induction HT as [|c text Hc _ (I1 & I2 & I3 & I4)]; [done|]. pose proof (strokes_ok nm sc c Hc) as H. fold b in H. unfold stroke_check in H.
  rewrite !andb_true_iff, !bool_decide_eq_true in H. destruct H as [[[J1 J2%lone_allb_ok] J3] J4]. cbn [mbind list_bind].
  split_and!.
  - apply Forall_app. split; [|done]. apply Forall_forall. intros e He. apply event_okb_ok. rewrite forallb_forall in J1. by apply J1, list_elem_of_In.
  - apply lone_app; [done|by rewrite J4].
  - by rewrite typed_app, J3, J4, I3.
  - by rewrite fold_left_app, J4.
Qed.

(** C24. The driver follows the keyboard.  Whatever keys are pressed and released, in any order, extended keys included,
    as long as no modifier key is released while the other one of its kind is held: one keyboard interrupt for
    the bytes they send gives the console exactly the characters of the keys pressed, each by the layout that the
    keys held at that moment select (Control before Shift, Caps Lock swapping the case), and the variable shift
    again stands for the modifier keys held and the locks.  And every text of the characters 1 to 28 and 32 to 126
    can be typed: the strokes for its characters give the console that text. *)
Theorem kbd_follows_keyboard dump b es s nm sc text : Forall real_event es -> lone_all b es -> Forall typeable text ->
  kbdintr dump (kbd_at (es ≫= bytes_of) (shift_of b)) s =
    (consoleintr dump (typed_all b es) ;;; ret (kbd_at [] (shift_of (fold_left change es b)))) s /\
  kbdintr dump (kbd_at ((text ≫= strokes) ≫= bytes_of) (shift_of (at_rest nm sc))) s =
    (consoleintr dump text ;;; ret (kbd_at [] (shift_of (at_rest nm sc)))) s.
Proof.
  intros Hr HL HT. split; [by apply kbdintr_events|]. destruct (text_events nm sc text HT) as (H1 & H2 & H3 & H4).
  by rewrite (kbdintr_events _ _ _ s H1 H2), H3, H4.
Qed.

Module KbdWitness.
(** Shift-h, i, Caps Lock, x, the up key, and d with the right Control key. *)
Definition some_events : list event :=
  [Press (false, 0x36); Press (false, 0x23); Release (false, 0x23); Release (false, 0x36); Press (false, 0x17); Release (false, 0x17);
   Press (false, 0x3A); Release (false, 0x3A); Press (false, 0x2D); Press (true, 0x48); Press (true, 0x1D); Press (false, 0x20)].

Lemma kbd_follows_keyboard_witness : Forall real_event some_events /\ lone_all (at_rest false false) some_events /\
  forall dump s, kbdintr dump (kbd_at (some_events ≫= bytes_of) 0) s = (consoleintr dump [72; 105; 88; KEY_UP; 4] ;;; ret (kbd_at [] (Z.lor CTL CAPSLOCK))) s.
Proof.
  assert (Forall real_event some_events) as H1 by (repeat (apply Forall_cons; split); try done; by apply event_okb_ok).
  assert (lone_all (at_rest false false) some_events) as H2 by (apply lone_allb_ok; by vm_compute).
  split; [exact H1|split; [exact H2|]]. intros dump s. destruct (kbd_follows_keyboard dump (at_rest false false) some_events s false false [] H1 H2 ltac:(constructor)) as [E _].
  exact E.
Defined.
End KbdWitness.
