(* ===== verification/Screen.v ===== *)
(** Console output to its devices: consputc and cgaputc of src/src/console.c and
    the serial port of src/src/uart.c.

    The screen is the CGA text memory, 16 bits for a character, and the cursor
    position in registers 14 and 15 of the CRT controller.  What is written to
    the serial port is a list of bytes, and what waits in it another one; its
    polls of the line status only take time. *)

From stdpp Require Import base gmap list strings.
From Stdlib Require Import ZArith Lia.
From S2P Require Import Prelude Mem Str Mmu State Fsys Inode FileData Console.

Definition CRTPORT : Z := 0x3d4.
Definition crt : Z := P2V 0xb8000.
Definition COM1 : Z := 0x3f8.

Record devices := {
  v_mem : mem; v_index : Z; v_hi : Z; v_lo : Z;
  s_uart : bool; s_sent : list Z; s_waiting : list Z;
}.

#[global] Instance eta_devices : Eta devices := fun v =>
  {| v_mem := v_mem v; v_index := v_index v; v_hi := v_hi v; v_lo := v_lo v;
     s_uart := s_uart v; s_sent := s_sent v; s_waiting := s_waiting v |}.

(** outb and inb of the CRT controller. *)
Definition crt_outb (port data : Z) : M devices unit :=
  modify (fun v =>
    if port =? CRTPORT then v <| v_index := data mod 256 |>
    else if v_index v =? 14 then v <| v_hi := data mod 256 |>
    else if v_index v =? 15 then v <| v_lo := data mod 256 |>
    else v).
Definition crt_inb : M devices Z :=
  gets (fun v => if v_index v =? 14 then v_hi v else if v_index v =? 15 then v_lo v else 0).

Definition set_cell (pos v : Z) : M devices unit := modify (fun d => d <| v_mem ::= fun m => store16 m (crt + 2 * pos) v |>).

(** The character at [pos] and the next position; [a % b] rounds to zero. *)
Definition cga_char (c pos : Z) : M devices Z :=
  if c =? newline then ret (pos + (80 - Z.rem pos 80))
  else if c =? BACKSPACE then ret (if 0 <? pos then pos - 1 else pos)
  else
    set_cell pos (Z.lor (Z.land c 0xff) 0x0700) ;;;
    ret (pos + 1).

(** Scrolling, and the cursor. *)
Definition cga_cursor (pos : Z) : M devices unit :=
  if (pos <? 0) || (25 * 80 <? pos) then panic "pos under/overflow"
  else
    pos <- (if 24 <=? Z.quot pos 80 then
              modify (fun d => d <| v_mem ::= fun m => memmove m crt (crt + 2 * 80) (2 * 23 * 80) |>) ;;;
              let pos := pos - 80 in
              modify (fun d => d <| v_mem ::= fun m => memset m (crt + 2 * pos) 0 (2 * (24 * 80 - pos)) |>) ;;;
              ret pos
            else ret pos) ;;
    crt_outb CRTPORT 14 ;;;
    crt_outb (CRTPORT + 1) (Z.shiftr pos 8) ;;;
    crt_outb CRTPORT 15 ;;;
    crt_outb (CRTPORT + 1) pos ;;;
    set_cell pos (Z.lor 32 0x0700).

Definition cgaputc (c : Z) : M devices unit :=
  crt_outb CRTPORT 14 ;;;
  h <- crt_inb ;;
  crt_outb CRTPORT 15 ;;;
  l <- crt_inb ;;
  pos <- cga_char c (Z.lor (Z.shiftl h 8) l) ;;
  cga_cursor pos.

Definition uartputc (c : Z) : M devices unit :=
  u <- gets s_uart ;;
  when u (modify (fun v => v <| s_sent ::= fun l => l ++ [c mod 256] |>)).

(** The processor stops when another one has panicked. *)
Definition dev_consputc (panicked : bool) (c : Z) : M devices unit :=
  if panicked then no_fuel
  else
    (if c =? BACKSPACE then uartputc 8 ;;; uartputc 32 ;;; uartputc 8 else uartputc c) ;;;
    cgaputc c.

Definition uartgetc : M devices Z :=
  u <- gets s_uart ;;
  if negb u then ret (-1)
  else
    w <- gets s_waiting ;;
    match w with
    | [] => ret (-1)
    | c :: w =>
        modify (fun v => v <| s_waiting := w |>) ;;;
        ret c
    end.

(** [there] is whether the line status reads other than 0xFF; reading the data register drops a byte that waits. *)
Definition uartinit (there : bool) : M devices unit :=
  when there
    (modify (fun v => v <| s_uart := true |>) ;;;
     modify (fun v => v <| s_waiting ::= tail |>) ;;;
     for_each [120; 118; 54; 46; 46; 46; 10] uartputc).

(** ** A roll of paper

    What the screen shows is the last 24 rows of a roll of paper: nothing that was printed moves on it. *)

Record paper := { p_cell : Z -> Z; p_pos : Z; p_top : Z }.

Definition blank_cell : Z := Z.lor 32 0x0700.
Definition ink (c : Z) : Z := Z.lor (Z.land c 0xff) 0x0700.
Definition write_cell (f : Z -> Z) (i v : Z) : Z -> Z := fun j => if decide (j = i) then v else f j.

Definition print (p : paper) (c : Z) : paper :=
  let cells := if (c =? newline) || (c =? BACKSPACE) then p_cell p else write_cell (p_cell p) (p_pos p) (ink c) in
  let pos :=
    if c =? newline then (p_pos p / 80 + 1) * 80
    else if c =? BACKSPACE then (if 80 * p_top p <? p_pos p then p_pos p - 1 else p_pos p)
    else p_pos p + 1 in
  {| p_cell := write_cell cells pos blank_cell; p_pos := pos; p_top := if p_top p + 24 <=? pos / 80 then p_top p + 1 else p_top p |}.

Definition cell (m : mem) (i : Z) : Z := load16 m (crt + 2 * i).

(** The bytes of the screen. *)
Definition on_screen (a : Z) : Prop := crt <= a < crt + 2 * 24 * 80.

Record shows (d : devices) (p : paper) : Prop := {
  sh_hi : 0 <= v_hi d < 256;
  sh_lo : 0 <= v_lo d < 256;
  sh_pos : 256 * v_hi d + v_lo d = p_pos p - 80 * p_top p;
  sh_range : 0 <= p_pos p - 80 * p_top p < 24 * 80;
  sh_cell : forall i, 0 <= i < 24 * 80 -> cell (v_mem d) i = p_cell p (80 * p_top p + i);
  sh_fresh : forall j, 80 * (p_top p + 24) <= j -> p_cell p j = 0
}.

Lemma cell_set m p v i : 0 <= v < 65536 -> cell (store16 m (crt + 2 * p) v) i = if decide (i = p) then v else cell m i.
Proof.
  intros Hv. unfold cell, load16, store16. rewrite !load8_store8. repeat (case_decide; try lia). dlia.
Qed.

(** The memory after the screen has been scrolled by a row. *)
Definition scrolled (m : mem) : mem := memset (memmove m crt (crt + 2 * 80) (2 * 23 * 80)) (crt + 2 * (23 * 80)) 0 (2 * (24 * 80 - 23 * 80)).

Lemma cell_scrolled m i : 0 <= i < 24 * 80 -> cell (scrolled m) i = if decide (i < 23 * 80) then cell m (i + 80) else 0.
Proof.
  intros Hi. unfold cell, load16, scrolled. generalize crt. intros b. rewrite !load8_memset, !load8_memmove by lia.
  destruct (decide (i < 23 * 80)) as [Hlt|Hge].
  - rewrite !(decide_False (P := _ <= _ < b + 2 * (23 * 80) + _)), !decide_True by lia.
    f_equal; [f_equal; lia|]. f_equal. f_equal. lia.
  - rewrite !(decide_True (P := _ <= _ < b + 2 * (23 * 80) + _)) by lia. reflexivity.
Qed.

Lemma scrolled_frame m a : ~ on_screen a -> load8 (scrolled m) a = load8 m a.
Proof.
  unfold on_screen, scrolled. generalize crt. intros b Ha. rewrite load8_memset, load8_memmove by lia. by rewrite !decide_False by lia.
Qed.

Lemma set_frame m p v a : 0 <= p < 24 * 80 -> ~ on_screen a -> load8 (store16 m (crt + 2 * p) v) a = load8 m a.
Proof. unfold on_screen. intros Hp Ha. apply load8_store16_ne. lia. Qed.

Lemma byte_join h l : 0 <= l < 256 -> Z.lor (Z.shiftl h 8) l = 256 * h + l.
Proof.
  intros Hl. rewrite Z.shiftl_mul_pow2 by lia. rewrite (lor_disjoint_add _ _ 8); [lia|lia| |lia]. apply Z.mod_mul. lia.
Qed.

Lemma ink_range c : 0 <= ink c < 65536.
Proof.
  unfold ink. rewrite Z.lor_comm. pose proof (Z.land_ones c 8 ltac:(lia)) as E. change (Z.ones 8) with 255 in E. change (2 ^ 8) with 256 in E.
  rewrite E. pose proof (Z.mod_pos_bound c 256 ltac:(lia)). rewrite (lor_disjoint_add _ _ 8); [lia|lia|done|lia].
Qed.

(** What cgaputc does to the cells and the position, before it sets the cursor. *)
Definition moved_to (p : paper) (c : Z) : Z := p_pos (print p c) - 80 * p_top p.

Lemma moved_range d p c : shows d p -> 0 <= moved_to p c <= 24 * 80.
Proof.
  intros [S1 S2 S3 S4 S5 S6]. unfold moved_to, print. cbn [p_pos]. destruct (c =? newline); [dlia|]. destruct (c =? BACKSPACE); [|lia].
  destruct (Z.ltb_spec (80 * p_top p) (p_pos p)); lia.
Qed.

(** The registers and the blank under the cursor. *)
Definition set_cursor (pos : Z) (d : devices) : devices :=
  d <| v_index := 15 |> <| v_hi := Z.shiftr pos 8 mod 256 |> <| v_lo := pos mod 256 |> <| v_mem ::= fun m => store16 m (crt + 2 * pos) blank_cell |>.

Definition drawn (p : paper) (c : Z) (m : mem) : mem :=
  if (c =? newline) || (c =? BACKSPACE) then m else store16 m (crt + 2 * (p_pos p - 80 * p_top p)) (ink c).

Definition after_scroll (p : paper) (c : Z) (m : mem) : Z * mem :=
  if decide (moved_to p c = 24 * 80) then (23 * 80, scrolled (drawn p c m)) else (moved_to p c, drawn p c m).

Lemma cga_cursor_eq q d : 0 <= q <= 24 * 80 ->
  cga_cursor q d = Ret tt (if decide (q = 24 * 80) then set_cursor (23 * 80) (d <| v_mem ::= scrolled |>) else set_cursor q d).
Proof.
  intros Hq. unfold cga_cursor. assert ((q <? 0) || (25 * 80 <? q) = false) as -> by lia. destruct d as [m ix hi lo u sent wait].
  unfold set_cursor, scrolled, set_cell. generalize memmove memset store16. intros mv ms st.
  destruct (decide (q = 24 * 80)) as [->|Hne]; [reflexivity|].
  assert (Z.quot q 80 = q / 80) as -> by (apply Z.quot_div_nonneg; lia). assert ((24 <=? q / 80) = false) as -> by (apply Z.leb_gt; dlia).
  reflexivity.
Qed.

Lemma cga_char_eq d p c : shows d p ->
  cga_char c (p_pos p - 80 * p_top p) (d <| v_index := 15 |>) = Ret (moved_to p c) (d <| v_index := 15 |> <| v_mem ::= drawn p c |>).
Proof.
  intros [S1 S2 S3 S4 S5 S6]. destruct d as [m ix hi lo u sent wait]. unfold cga_char, moved_to, print, drawn. cbn [p_pos].
  destruct (c =? newline); [|destruct (c =? BACKSPACE)]; cbn [orb].
  - unfold ret. f_equal. rewrite Z.rem_mod_nonneg by lia. dlia.
  - unfold ret. f_equal. destruct (Z.ltb_spec 0 (p_pos p - 80 * p_top p)), (Z.ltb_spec (80 * p_top p) (p_pos p)); lia.
  - unfold bind, set_cell, modify, ret. f_equal. lia.
Qed.

Lemma cgaputc_eq d p c : shows d p ->
  cgaputc c d = Ret tt (let '(pos, m) := after_scroll p c (v_mem d) in set_cursor pos (d <| v_mem := m |>)).
Proof.
  intros S. pose proof (moved_range d p c S) as Hm. pose proof (cga_char_eq d p c S) as E. pose proof S as [S1 S2 S3 S4 S5 S6].
  assert (Z.lor (Z.shiftl (v_hi d) 8) (v_lo d) = p_pos p - 80 * p_top p) as EP by (rewrite byte_join by lia; lia).
  destruct d as [m ix hi lo u sent wait]. cbn [v_hi v_lo v_mem] in *. unfold after_scroll.
  transitivity (cga_cursor (moved_to p c) {| v_mem := drawn p c m; v_index := 15; v_hi := hi; v_lo := lo; s_uart := u; s_sent := sent; s_waiting := wait |}).
  - transitivity ((pos <- cga_char c (Z.lor (Z.shiftl hi 8) lo) ;; cga_cursor pos) {| v_mem := m; v_index := 15; v_hi := hi; v_lo := lo; s_uart := u; s_sent := sent; s_waiting := wait |}).
    { unfold cgaputc. generalize cga_char cga_cursor. intros; reflexivity. }
    rewrite EP. unfold bind.
    assert (cga_char c (p_pos p - 80 * p_top p) {| v_mem := m; v_index := 15; v_hi := hi; v_lo := lo; s_uart := u; s_sent := sent; s_waiting := wait |} =
      Ret (moved_to p c) {| v_mem := drawn p c m; v_index := 15; v_hi := hi; v_lo := lo; s_uart := u; s_sent := sent; s_waiting := wait |}) as -> by exact E.
    reflexivity.
  - rewrite cga_cursor_eq by done. unfold set_cursor. generalize scrolled (drawn p c) store16. intros sc dr st. case_decide; reflexivity.
Qed.

(** ** The screen follows the paper *)

Definition screen_after (d : devices) (p : paper) (c : Z) : devices :=
  let '(pos, m) := after_scroll p c (v_mem d) in set_cursor pos (d <| v_mem := m |>).

Lemma drawn_cell d p c i : shows d p -> 0 <= i < 24 * 80 ->
  cell (drawn p c (v_mem d)) i =
  (if (c =? newline) || (c =? BACKSPACE) then p_cell p else write_cell (p_cell p) (p_pos p) (ink c)) (80 * p_top p + i).
Proof.
  intros [S1 S2 S3 S4 S5 S6] Hi. unfold drawn. destruct ((c =? newline) || (c =? BACKSPACE)); [by apply S5|].
  rewrite cell_set by apply ink_range. unfold write_cell. do 2 case_decide; try lia. by apply S5.
Qed.

Lemma top_after d p c : shows d p -> p_top (print p c) = if decide (moved_to p c = 24 * 80) then p_top p + 1 else p_top p.
Proof.
  intros S. pose proof (moved_range d p c S) as Hm. unfold moved_to in *. unfold print at 1. cbn [p_top].
  change (if c =? newline then (p_pos p / 80 + 1) * 80 else if c =? BACKSPACE then (if 80 * p_top p <? p_pos p then p_pos p - 1 else p_pos p) else p_pos p + 1)
    with (p_pos (print p c)).
  destruct (Z.leb_spec (p_top p + 24) (p_pos (print p c) / 80)); case_decide; try done; exfalso; dlia.
Qed.

Lemma cursor_bytes pos : 0 <= pos < 65536 -> 256 * (Z.shiftr pos 8 mod 256) + pos mod 256 = pos.
Proof. intros H. rewrite Z.shiftr_div_pow2 by lia. change (2 ^ 8) with 256. dlia. Qed.

Lemma screen_shows d p c : shows d p -> shows (screen_after d p c) (print p c).
Proof.
  intros S. pose proof (moved_range d p c S) as Hm. pose proof (top_after d p c S) as Ht. pose proof (fun i => drawn_cell d p c i S) as Hc.
  pose proof S as [S1 S2 S3 S4 S5 S6]. unfold screen_after, after_scroll.
  set (q := if decide (moved_to p c = 24 * 80) then 23 * 80 else moved_to p c).
  set (m' := if decide (moved_to p c = 24 * 80) then scrolled (drawn p c (v_mem d)) else drawn p c (v_mem d)).
  replace (if decide (moved_to p c = 24 * 80) then (23 * 80, scrolled (drawn p c (v_mem d))) else (moved_to p c, drawn p c (v_mem d))) with (q, m')
    by (unfold q, m'; by case_decide).
  assert (q = p_pos (print p c) - 80 * p_top (print p c)) as Eq by (unfold q; rewrite Ht; unfold moved_to in *; case_decide; lia).
  assert (0 <= q < 24 * 80) as Hq by (unfold q; case_decide; lia).
  set (cells := if (c =? newline) || (c =? BACKSPACE) then p_cell p else write_cell (p_cell p) (p_pos p) (ink c)) in *.
  assert (forall j, 80 * (p_top p + 24) <= j -> cells j = 0) as Hf.
  { intros j Hj. unfold cells. destruct (_ || _); [by apply S6|]. unfold write_cell. rewrite decide_False by lia. by apply S6. }
  assert (forall j, p_cell (print p c) j = if decide (j = p_pos (print p c)) then blank_cell else cells j) as EC by done.
  constructor; try (apply Z.mod_pos_bound; lia).
  - rewrite <- Eq. apply cursor_bytes. lia.
  - by rewrite <- Eq.
  - intros i Hi. change (cell (store16 m' (crt + 2 * q) blank_cell) i = p_cell (print p c) (80 * p_top (print p c) + i)).
    rewrite cell_set by done. rewrite EC. destruct (decide (i = q)) as [->|Hne]; [by rewrite decide_True by lia|].
    rewrite decide_False by lia. unfold m'. rewrite Ht. destruct (decide (moved_to p c = 24 * 80)) as [Em|Em].
    + rewrite cell_scrolled by done. destruct (decide (i < 23 * 80)); [rewrite Hc by lia; f_equal; lia|]. symmetry. apply Hf. lia.
    + by apply Hc.
  - intros j Hj. rewrite EC. rewrite decide_False by (rewrite Eq in Hq; lia). apply Hf. rewrite Ht in Hj. destruct (decide (moved_to p c = 24 * 80)); lia.
Qed.

Lemma screen_frame d p c a : shows d p -> ~ on_screen a -> load8 (v_mem (screen_after d p c)) a = load8 (v_mem d) a.
Proof.
  intros S Ha. pose proof (moved_range d p c S) as Hm. pose proof (sh_range _ _ S) as Hr. unfold screen_after, after_scroll.
  assert (load8 (drawn p c (v_mem d)) a = load8 (v_mem d) a) as Ed.
  { unfold drawn. destruct (_ || _); [done|]. by apply set_frame. }
  case_decide.
  - change (load8 (store16 (scrolled (drawn p c (v_mem d))) (crt + 2 * (23 * 80)) blank_cell) a = load8 (v_mem d) a).
    rewrite set_frame by (done || lia). by rewrite scrolled_frame.
  - change (load8 (store16 (drawn p c (v_mem d)) (crt + 2 * moved_to p c) blank_cell) a = load8 (v_mem d) a).
    by rewrite set_frame by (done || lia).
Qed.

(** The bytes for the serial line. *)
Definition serial (c : Z) : list Z := if c =? BACKSPACE then [8; 32; 8] else [c mod 256].

Lemma uartputc_eq c d : uartputc c d = Ret tt (d <| s_sent ::= fun l => l ++ (if s_uart d then [c mod 256] else []) |>).
Proof. destruct d as [m ix hi lo [] sent wait]; [done|]. unfold uartputc, bind, gets. cbn. by rewrite app_nil_r. Qed.

Lemma shows_sent d p f : shows d p -> shows (d <| s_sent ::= f |>) p.
Proof. intros [S1 S2 S3 S4 S5 S6]. by constructor. Qed.

Lemma consputc_one d p c : shows d p ->
  wp (dev_consputc false c) d (fun _ d' => shows d' (print p c) /\ s_uart d' = s_uart d /\
    s_sent d' = s_sent d ++ (if s_uart d then serial c else []) /\ forall a, ~ on_screen a -> load8 (v_mem d') a = load8 (v_mem d) a).
Proof.
  intros S. unfold dev_consputc.
  set (d1 := d <| s_sent ::= fun l => l ++ (if s_uart d then serial c else []) |>).
  assert ((if c =? BACKSPACE then uartputc 8 ;;; uartputc 32 ;;; uartputc 8 else uartputc c) d = Ret tt d1) as EU.
  { unfold d1, serial. destruct (c =? BACKSPACE); [|by rewrite uartputc_eq; destruct d as [? ? ? ? [] ? ?]].
    unfold bind. rewrite !uartputc_eq. destruct d as [? ? ? ? [] ? ?]; cbn; [|by rewrite !app_nil_r]. do 2 f_equal. by rewrite <- !app_assoc. }
  apply wp_bind, (wp_eq _ _ tt d1); [exact EU|]. pose proof (shows_sent d p _ S : shows d1 p) as S1.
  apply (wp_eq _ _ tt (screen_after d1 p c)); [apply (cgaputc_eq d1 p c S1)|].
  assert (s_uart (screen_after d1 p c) = s_uart d /\ s_sent (screen_after d1 p c) = s_sent d1) as [-> ->]
    by (unfold screen_after; destruct (after_scroll p c (v_mem d1)); done).
  split_and!; [by apply screen_shows|done|done|]. intros a Ha. by rewrite (screen_frame d1 p c a S1 Ha).
Qed.

(** C23. The screen is a window on a roll of paper.  For any sequence of characters, newlines and backspaces: consputc
    never panics; on the paper each character goes to the place of the cursor, a newline moves it to the next row, a
    backspace one place back, though not above the first row in view; and the screen shows the last 24 rows of the
    paper with the cursor at its place, writes nothing outside the screen, and sends the same characters to
    the serial line. *)
Theorem screen_refines_paper d p cs : shows d p ->
  wp (for_each cs (dev_consputc false)) d (fun _ d' => shows d' (fold_left print cs p) /\
    s_sent d' = s_sent d ++ (if s_uart d then cs ≫= serial else []) /\
    forall a, ~ on_screen a -> load8 (v_mem d') a = load8 (v_mem d) a).
Proof.
  intros S. eapply wp_mono; [apply (wp_for_each cs _ (fun dn d' => shows d' (fold_left print dn p) /\ s_uart d' = s_uart d /\
    s_sent d' = s_sent d ++ (if s_uart d then dn ≫= serial else []) /\ forall a, ~ on_screen a -> load8 (v_mem d') a = load8 (v_mem d) a))|].
  - split_and!; [done|done|destruct (s_uart d); cbn; by rewrite app_nil_r|done].
  - intros dn c todo d' _ (H1 & H2 & H3 & H4). eapply wp_mono; [by apply (consputc_one d' (fold_left print dn p) c)|].
    cbn beta. intros _ d2 (I1 & I2 & I3 & I4). split_and!.
    + by rewrite fold_left_app.
    + congruence.
    + rewrite I3, H3, H2. destruct (s_uart d); [|by rewrite !app_nil_r]. by rewrite bind_app, app_assoc, bind_singleton.
    + intros a Ha. by rewrite I4, H4.
  - cbn beta. intros _ d' (H1 & H2 & H3 & H4). done.
Qed.

Module ScreenWitness.
(** An empty screen with the cursor in its last place. *)
Definition last_place : devices :=
  {| v_mem := ∅; v_index := 0; v_hi := 7; v_lo := 127; s_uart := true; s_sent := []; s_waiting := [] |}.
Definition empty_paper : paper := {| p_cell := fun _ => 0; p_pos := 1919; p_top := 0 |}.

Lemma screen_refines_paper_witness : shows last_place empty_paper /\
  wp (for_each [65; BACKSPACE; 66] (dev_consputc false)) last_place (fun _ d' =>
    256 * v_hi d' + v_lo d' = 1840 /\ cell (v_mem d') 1839 = ink 66 /\ s_sent d' = [65; 8; 32; 8; 66]).
Proof.
  assert (shows last_place empty_paper) as S by (constructor; cbn; done || lia). split; [exact S|].
  eapply wp_mono; [exact (screen_refines_paper last_place empty_paper [65; BACKSPACE; 66] S)|]. cbn beta. intros _ d' ([_ _ S3 _ S5 _] & E & _).
  split; [exact S3|]. split; [exact (S5 1839 ltac:(lia))|exact E].
Defined.
End ScreenWitness.
