(* ===== verification/Fs.v ===== *)
(** Inode contents, directories and paths, the second half of src/src/fs.c.

    A path or a name is the list of its bytes before the terminating zero; a
    directory entry is 16 bytes, the inode number in two and the name in 14.
    readi returns the bytes it copies to its destination, writei takes the bytes
    at its source. *)

From stdpp Require Import base gmap list strings.
From Stdlib Require Import ZArith Lia.
From S2P Require Import Prelude Mem Str Mmu State Kalloc MemTable Vm Sched Fsys Bio Log Inode Console.

(** ** Inode contents *)

(** The copying loop of readi: [n] bytes from [off] on. *)
Fixpoint readi_loop (fuel : nat) (ip : nat) (off n : Z) : M kernel (list Z) :=
  if 0 <? n then
    match fuel with
    | O => no_fuel
    | S fuel =>
        i <- get_inode ip ;;
        addr <- bmap ip (off / BSIZE) ;;
        bp <- bread (i_dev i) addr ;;
        let m := Z.min n (BSIZE - off mod BSIZE) in
        data <- buf_data bp ;;
        let bytes := load_bytes data (off mod BSIZE) (Z.to_nat m) in
        brelse bp ;;;
        rest <- readi_loop fuel ip (u32 (off + m)) (n - m) ;;
        ret (bytes ++ rest)
    end
  else ret [].

Definition readi (ip : nat) (off n : Z) : M kernel (Z * list Z) :=
  i <- get_inode ip ;;
  if i_type i =? T_DEV then
    dev <- fget x_devsw_console ;;
    if (i_major i <? 0) || (NDEV <=? i_major i) || negb ((i_major i =? CONSOLE) && dev) then ret (-1, [])
    else consoleread ip (i32 n)
  else if (i_size i <? off) || (u32 (off + n) <? off) then ret (-1, [])
  else
    let n := if i_size i <? u32 (off + n) then i_size i - off else n in
    bytes <- readi_loop (Z.to_nat (n / BSIZE + 2)) ip off n ;;
    ret (n, bytes).

(** The copying loop of writei: the bytes [src] at [off]; the final offset. *)
Fixpoint writei_loop (fuel : nat) (ip : nat) (src : list Z) (off : Z) : M kernel Z :=
  match src with
  | [] => ret off
  | _ =>
      match fuel with
      | O => no_fuel
      | S fuel =>
          i <- get_inode ip ;;
          addr <- bmap ip (off / BSIZE) ;;
          bp <- bread (i_dev i) addr ;;
          let m := Z.min (Z.of_nat (length src)) (BSIZE - off mod BSIZE) in
          set_buf_data bp (fun d => store_bytes d (off mod BSIZE) (take (Z.to_nat m) src)) ;;;
          log_write bp ;;;
          brelse bp ;;;
          writei_loop fuel ip (drop (Z.to_nat m) src) (u32 (off + m))
      end
  end.

Definition writei (ip : nat) (src : list Z) (off : Z) : M kernel Z :=
  i <- get_inode ip ;;
  let n := Z.of_nat (length src) in
  if i_type i =? T_DEV then
    dev <- fget x_devsw_console ;;
    if (i_major i <? 0) || (NDEV <=? i_major i) || negb ((i_major i =? CONSOLE) && dev) then ret (-1)
    else consolewrite ip src
  else if (i_size i <? off) || (u32 (off + n) <? off) then ret (-1)
  else if MAXFILE * BSIZE <? u32 (off + n) then ret (-1)
  else
    off <- writei_loop (Z.to_nat (n / BSIZE + 2)) ip src off ;;
    i <- get_inode ip ;;
    when ((0 <? n) && (i_size i <? off))
      (upd_inode ip (fun i => i <| i_size := off |>) ;;;
       iupdate ip) ;;;
    ret n.

(** ** Directories *)

(** strncmp of string.c on byte lists; the end of a list is a zero byte. *)
Fixpoint lstrncmp (n : nat) (p q : list Z) : Z :=
  match n with
  | O => 0
  | S n =>
      let a := default 0 (head p) in
      let b := default 0 (head q) in
      if negb (a =? 0) && (a =? b) then lstrncmp n (tail p) (tail q) else a - b
  end.

Definition namecmp (s t : list Z) : Z := lstrncmp (Z.to_nat DIRSIZ) s t.

Definition de_inum (de : list Z) : Z := default 0 (de !! 0%nat) + 256 * default 0 (de !! 1%nat).
Definition de_name (de : list Z) : list Z := drop 2 de.

(** The bytes of a buffer before its first zero. *)
Fixpoint cstr (l : list Z) : list Z :=
  match l with
  | c :: l => if c =? 0 then [] else c :: cstr l
  | [] => []
  end.

(** strncpy(de.name, name, DIRSIZ) *)
Definition pad_name (name : list Z) : list Z :=
  let s := take (Z.to_nat DIRSIZ) (cstr name) in
  s ++ replicate (Z.to_nat DIRSIZ - length s) 0.
Definition make_dirent (inum : Z) (name : list Z) : list Z :=
  [inum mod 256; inum / 256 mod 256] ++ pad_name name.

(** The scan of a directory from [off]: the first entry that satisfies [f]. *)
Fixpoint dir_scan (fuel : nat) (dp : nat) (off : Z) (msg : string) (f : list Z -> bool) : M kernel (option (list Z * Z) * Z) :=
  i <- get_inode dp ;;
  if off <? i_size i then
    match fuel with
    | O => no_fuel
    | S fuel =>
        let* (r, de) := readi dp off DIRENT_SIZE ;;
        if negb (r =? DIRENT_SIZE) then panic msg
        else if f de then ret (Some (de, off), off)
        else dir_scan fuel dp (off + DIRENT_SIZE) msg f
    end
  else ret (None, off).

Definition dir_fuel (dp : nat) : M kernel nat :=
  i <- get_inode dp ;; ret (Z.to_nat (i_size i / DIRENT_SIZE + 1)).

Definition dirlookup (dp : nat) (name : list Z) : M kernel (option (nat * Z)) :=
  i <- get_inode dp ;;
  if negb (i_type i =? T_DIR) then panic "dirlookup not DIR"
  else
    fuel <- dir_fuel dp ;;
    let* (r, _) := dir_scan fuel dp 0 "dirlookup read"
      (fun de => negb (de_inum de =? 0) && (namecmp name (de_name de) =? 0)) ;;
    match r with
    | Some (de, off) =>
        ip <- iget (i_dev i) (de_inum de) ;;
        ret (Some (ip, off))
    | None => ret None
    end.

Definition dirlink (dp : nat) (name : list Z) (inum : Z) : M kernel Z :=
  r <- dirlookup dp name ;;
  match r with
  | Some (ip, _) =>
      iput ip ;;;
      ret (-1)
  | None =>
      fuel <- dir_fuel dp ;;
      let* (_, off) := dir_scan fuel dp 0 "dirlink read" (fun de => de_inum de =? 0) ;;
      n <- writei dp (make_dirent inum name) off ;;
      if negb (n =? DIRENT_SIZE) then panic "dirlink" else ret 0
  end.

(** ** Paths *)

Definition slash : Z := 47.

Fixpoint skip_slashes (path : list Z) : list Z :=
  match path with
  | c :: rest => if c =? slash then skip_slashes rest else path
  | [] => []
  end.

(** The element up to the next slash, and the rest. *)
Fixpoint split_elem (path : list Z) : list Z * list Z :=
  match path with
  | c :: rest =>
      if c =? slash then ([], path)
      else let (e, r) := split_elem rest in (c :: e, r)
  | [] => ([], [])
  end.

(** The rest of the path and the name copied; [None] is the null pointer. *)
Definition skipelem (path : list Z) : option (list Z * list Z) :=
  match skip_slashes path with
  | [] => None
  | p =>
      let (e, r) := split_elem p in
      Some (skip_slashes r, take (Z.to_nat DIRSIZ) e)
  end.

(** The loop of namex; [name] is what the last skipelem copied. *)
Fixpoint namex_loop (fuel : nat) (ip : nat) (path : list Z) (parent : bool) (name : list Z) : M kernel (option (nat * list Z)) :=
  match skipelem path with
  | None => if parent then iput ip ;;; ret None else ret (Some (ip, name))
  | Some (path, name) =>
      match fuel with
      | O => no_fuel
      | S fuel =>
          ilock (Some ip) ;;;
          i <- get_inode ip ;;
          if negb (i_type i =? T_DIR) then
            iunlockput ip ;;;
            ret None
          else if parent && match path with [] => true | _ => false end then
            iunlock (Some ip) ;;;
            ret (Some (ip, name))
          else
            next <- dirlookup ip name ;;
            match next with
            | None =>
                iunlockput ip ;;;
                ret None
            | Some (next, _) =>
                iunlockput ip ;;;
                namex_loop fuel next path parent name
            end
      end
  end.

Definition namex (path : list Z) (parent : bool) : M kernel (option (nat * list Z)) :=
  ip <- (match path with
         | c :: _ =>
             if c =? slash then iget ROOTDEV ROOTINO
             else
               i <- myproc ;;
               p <- get_proc i ;;
               match p_cwd p with Some cwd => idup cwd | None => crash "null cwd" end
         | [] =>
             i <- myproc ;;
             p <- get_proc i ;;
             match p_cwd p with Some cwd => idup cwd | None => crash "null cwd" end
         end) ;;
  namex_loop (length path) ip path parent [].

Definition namei (path : list Z) : M kernel (option nat) :=
  r <- namex path false ;;
  ret (fst <$> r).

Definition nameiparent (path : list Z) : M kernel (option (nat * list Z)) := namex path true.

(** ** The elements of a path *)

(** The names namex gets from skipelem, one after the other. *)
Fixpoint path_names (fuel : nat) (path : list Z) : option (list (list Z)) :=
  match skipelem path with
  | None => Some []
  | Some (path, name) =>
      match fuel with
      | O => None
      | S fuel => cons name <$> path_names fuel path
      end
  end.

(** The parts of a path between its slashes. *)
Fixpoint parts (path : list Z) : list (list Z) :=
  match path with
  | [] => [[]]
  | c :: path =>
      if c =? slash then [] :: parts path
      else match parts path with
           | e :: l => (c :: e) :: l
           | [] => [[c]]
           end
  end.

(** ... that are not empty, cut to the length of a directory entry. *)
Definition elements (path : list Z) : list (list Z) :=
  take (Z.to_nat DIRSIZ) <$> base.filter (fun e => e <> []) (parts path).

(** The path of a list of names. *)
Definition join (names : list (list Z)) : list Z := concat (cons slash <$> names).

Lemma parts_nonempty path : exists e l, parts path = e :: l.
Proof.
  destruct path as [|c path]; cbn; [eauto|]. destruct (c =? slash); [eauto|]. destruct (parts path); eauto.
Qed.

Lemma elements_skip path : elements (skip_slashes path) = elements path.
Proof.
  induction path as [|c path IH]; [done|]. cbn [skip_slashes]. destruct (c =? slash) eqn:E; [|done].
  rewrite IH. unfold elements. cbn [parts]. by rewrite E.
Qed.

(** What split_elem takes is the first part. *)
Lemma split_elem_parts path e r : split_elem path = (e, r) ->
  exists l, parts path = e :: l /\ (r = [] /\ l = [] \/ exists r', r = slash :: r' /\ l = parts r').
Proof.
  revert e r. induction path as [|c path IH]; intros e r; cbn [split_elem parts].
  - intros [= <- <-]. eauto.
  - destruct (Z.eqb_spec c slash) as [->|].
    + intros [= <- <-]. eauto 10.
    + destruct (split_elem path) as [e' r']. intros [= <- <-]. destruct (IH e' r' eq_refl) as (l & -> & H). eauto.
Qed.

Lemma skip_slashes_length path : (length (skip_slashes path) <= length path)%nat.
Proof. induction path as [|c path IH]; cbn; [done|]. destruct (c =? slash); cbn; lia. Qed.

Lemma skip_slashes_head path c p : skip_slashes path = c :: p -> (c =? slash) = false.
Proof.
  induction path as [|c' path IH]; cbn; [done|]. destruct (c' =? slash) eqn:E; [done|]. by intros [= <- <-].
Qed.

Lemma split_elem_length path e r : split_elem path = (e, r) -> (length e + length r = length path)%nat.
Proof.
  revert e r. induction path as [|c path IH]; intros e r; cbn; [by intros [= <- <-]|].
  destruct (c =? slash); [by intros [= <- <-]|]. destruct (split_elem path) as [e' r']. intros [= <- <-].
  cbn. by rewrite (IH e' r' eq_refl).
Qed.

(** skipelem takes the first element. *)
Lemma skipelem_elements path :
  match skipelem path with
  | None => elements path = []
  | Some (rest, name) => elements path = name :: elements rest /\ (length rest < length path)%nat
  end.
Proof.
  unfold skipelem. rewrite <- (elements_skip path). pose proof (skip_slashes_length path) as Hl.
  destruct (skip_slashes path) as [|c p] eqn:E; [done|]. apply skip_slashes_head in E.
  destruct (split_elem (c :: p)) as [e r] eqn:Es. pose proof (split_elem_length _ _ _ Es) as Hlen.
  pose proof (skip_slashes_length r) as Hr.
  assert (exists c' e', e = c' :: e') as (c' & e' & ->).
  { cbn in Es. rewrite E in Es. destruct (split_elem p). injection Es as <- <-. eauto. }
  destruct (split_elem_parts _ _ _ Es) as (l & Hp & H). split; [|cbn in *; lia].
  rewrite elements_skip. unfold elements at 1. rewrite Hp, filter_cons_True by done. cbn [fmap list_fmap]. f_equal.
  destruct H as [[-> ->]|(r' & -> & ->)]; [done|]. unfold elements. cbn [parts]. by rewrite Z.eqb_refl.
Qed.

Lemma path_names_eq fuel path : (length path <= fuel)%nat -> path_names fuel path = Some (elements path).
Proof.
  revert path. induction fuel as [|fuel IH]; intros path Hf; cbn [path_names];
    pose proof (skipelem_elements path) as H; destruct (skipelem path) as [[rest name]|]; try by rewrite H.
  - destruct H as [_ H]. destruct path; cbn in *; lia.
  - destruct H as [-> H]. by rewrite IH by lia.
Qed.

Lemma parts_app e rest : (slash ∉ e) -> parts (e ++ slash :: rest) = e :: parts rest.
Proof.
  induction e as [|c e IH]; intros He; [done|]. apply not_elem_of_cons in He as [Hc He]. cbn.
  destruct (Z.eqb_spec c slash); [congruence|]. by rewrite IH.
Qed.

Lemma parts_last e : (slash ∉ e) -> parts e = [e].
Proof.
  induction e as [|c e IH]; intros He; [done|]. apply not_elem_of_cons in He as [Hc He]. cbn.
  destruct (Z.eqb_spec c slash); [congruence|]. by rewrite IH.
Qed.

Lemma parts_join names : Forall (fun n => slash ∉ n) names -> parts (join names) = [] :: names.
Proof.
  destruct names as [|n names]; [done|]. intros [Hn H]%Forall_cons. unfold join. cbn [fmap list_fmap concat app parts].
  rewrite Z.eqb_refl. f_equal. revert n Hn. induction names as [|n' names IH]; intros n Hn; cbn [fmap list_fmap concat app].
  - by rewrite app_nil_r, parts_last.
  - apply Forall_cons in H as [Hn' H]. rewrite parts_app by done. f_equal. by apply IH.
Qed.

(** Path names are read as what they say.  The names that the loop of namex
    gets from skipelem are, in order, the parts of the path between slashes that
    are not empty, cut to the length of a directory entry; the loop makes at most
    as many turns as the path has characters; and the path written from any list
    of names that fit gives these names back. *)
Theorem path_elements path names :
  path_names (length path) path = Some (elements path) /\
  (Forall (fun n => n <> [] /\ (slash ∉ n) /\ Z.of_nat (length n) <= DIRSIZ) names ->
   path_names (length (join names)) (join names) = Some names).
Proof.
  split; [by apply path_names_eq|]. intros H. rewrite path_names_eq by done. f_equal. unfold elements.
  rewrite parts_join by (eapply Forall_impl; [exact H|naive_solver]). rewrite filter_cons_False by naive_solver.
  induction names as [|n names IH]; [done|]. apply Forall_cons in H as [(Hn & _ & Hl) H].
  rewrite filter_cons_True by done. cbn [fmap list_fmap]. f_equal; [|by apply IH].
  apply take_ge. unfold DIRSIZ in *. cbn. lia.
Qed.
