(* ===== verification/Files.v ===== *)
(** Reading and writing files inside a transaction: bmap, readi and writei of
    src/src/fs.c against the contents of a file. *)

From stdpp Require Import base gmap list strings.
From Stdlib Require Import ZArith Lia.
From S2P Require Import Prelude Mem Str Mmu State Kalloc MemTable Vm Sched Fsys Bio Cache Log Crash Transaction Inode Alloc FileData Console Fs.

Section Files.
Context (p : nat) (pr : proc) (w : log_use) (ip : nat).
Implicit Types (s : kernel) (x : fsys) (V : Z -> mem) (i : inode) (d : disk) (T : list Z).

Abbreviation fs_at := (fs_at p pr w).

(** The inode is in the cache, and its file is well formed. *)
Record open_at s x V d T i : Prop := {
  oa_at : fs_at s (put_inode ip i x) V d T [];
  oa_slot : (ip < length (ic_inode (x_icache x)))%nat;
  oa_file : file_ok (x_sb x) V i
}.

Lemma slot_put x i : (ip < length (ic_inode (x_icache x)))%nat -> ic_inode (x_icache (put_inode ip i x)) !! ip = Some i.
Proof. intros H. by apply list_lookup_insert_eq. Qed.

Lemma open_inode s x V d T i : open_at s x V d T i -> get_inode ip s = Ret i s.
Proof. intros [A Hs F]. eapply at_inode; [exact A|by apply slot_put]. Qed.

Lemma open_addr s x V d T i k : open_at s x V d T i -> inode_addr ip k s = Ret (default 0 (i_addrs i !! Z.to_nat k)) s.
Proof. intros O. unfold inode_addr. by rewrite (bind_ret_eq _ _ _ _ _ (open_inode _ _ _ _ _ _ O)). Qed.

(** A block that is there is found, and nothing changes. *)
Lemma bmap_mapped s x V d T i bn : open_at s x V d T i -> 0 <= bn < MAXFILE -> block_of V i bn <> 0 -> room T ->
  wp (bmap ip bn) s (fun a s' => a = block_of V i bn /\ open_at s' x V d T i).
Proof.
  intros O Hbn Hne HT. unfold bmap. apply wp_bind. eapply wp_eq; [by eapply open_inode|].
  pose proof (oa_file _ _ _ _ _ _ O) as F. rewrite (fo_dev _ _ _ F). unfold block_of in Hne |- *.
  destruct (bn <? NDIRECT) eqn:Eb.
  - apply wp_bind. eapply wp_eq; [by eapply open_addr|]. destruct (Z.eqb_spec (default 0 (i_addrs i !! Z.to_nat bn)) 0); [done|].
    by wp_steps.
  - destruct (Z.ltb_spec (bn - NDIRECT) NINDIRECT); [|unfold MAXFILE in Hbn; lia].
    apply wp_bind. eapply wp_eq; [by eapply open_addr|]. fold (indirect i).
    destruct (Z.eqb_spec (indirect i) 0) as [|Hi]; [done|]. destruct (fo_data _ _ _ F None I Hi) as [Hr _]. cbn in Hr.
    pose proof (bo_size _ _ (fo_bitmap _ _ _ F)). wp_steps.
    eapply wp_mono; [apply (at_bread p pr w s _ V d T [] (indirect i) (oa_at _ _ _ _ _ _ O)); [lia|apply not_elem_of_nil|done|cbn; lia]|].
    cbn beta. intros bp s1 A1. wp_steps. eapply wp_eq; [eapply at_data; [exact A1|by left]|]. wp_steps.
    destruct (Z.eqb_spec (load32 (V (indirect i)) (4 * (bn - NDIRECT))) 0); [done|]. wp_steps.
    eapply wp_mono; [apply (at_brelse p pr w s1 _ V d T bp (indirect i) [] A1)|].
    { apply (at_clean p pr w s _ V d T [] _ (oa_at _ _ _ _ _ _ O)). apply not_elem_of_nil. }
    cbn beta. intros [] s2 A2. wp_steps. split; [done|]. by destruct O.
Qed.

(** What bmap does in general: it may add the block, and the indirect block. *)
Record bmapped x V T i bn V' T' i' a : Prop := {
  bd_grows : grows (x_sb x) V i V' i';
  bd_data : same_data V i V';
  bd_block : block_of V' i' bn = a;
  bd_mapped : a <> 0;
  bd_free : (free_count (x_sb x) V <= free_count (x_sb x) V' + 2)%nat;
  bd_nodup : NoDup T -> NoDup T';
  bd_same : block_of V i bn <> 0 -> i' = i;
  bd_log : forall c, c ∈ T' -> c ∈ T \/ c = sb_bmapstart (x_sb x) \/ (c = indirect i' /\ c <> 0) \/ c = a
}.

Context (Hw : 1 <= lu_outstanding w).

(** One new block at an empty place of the file. *)
Lemma alloc_place s x V d T i L : fs_at s (put_inode ip i x) V d T L -> file_ok (x_sb x) V i ->
  (0 < free_count (x_sb x) V)%nat -> room (log_more T (sb_bmapstart (x_sb x))) -> (L = [] \/ exists b, L = [(b, indirect i)] /\ indirect i <> 0) ->
  wp (balloc 1) s (fun b s' => let sb := x_sb x in sb_bmapstart sb < b < sb_size sb /\ ~ used sb V b /\
    free_count sb V = S (free_count sb (alloc_view sb V b)) /\
    fs_at s' (put_inode ip i x) (alloc_view sb V b) d (log_more (log_more T (sb_bmapstart sb)) b) L).
Proof.
  intros A F Hf HT HL. pose proof (fo_bitmap _ _ _ F) as [O1 O2 O3].
  eapply wp_mono; [apply (balloc_ok p pr w Hw s _ V d T L A (fo_bitmap _ _ _ F) Hf HT)|].
  - destruct HL as [->|(b & -> & _)]; cbn; lia.
  - destruct HL as [->|(b & -> & Hi)]; [by intros b ?%elem_of_nil|]. intros c ->%list_elem_of_singleton.
    destruct (fo_data _ _ _ F None I Hi) as [Hr Hu]. cbn [at_place] in Hr, Hu. split; [done|]. cbn. lia.
  - cbn beta. intros b s' (Hb & Hu & A'). change (x_sb (put_inode ip i x)) with (x_sb x) in *. cbn zeta. split_and!; try done; try lia.
    apply free_alloc; [lia|done|lia].
Qed.

Lemma at_put_put s x V d T L i i' : fs_at s (put_inode ip i' (put_inode ip i x)) V d T L -> fs_at s (put_inode ip i' x) V d T L.
Proof. by rewrite put_put. Qed.

Lemma set_addr_ok s x V d T L i k v : fs_at s (put_inode ip i x) V d T L -> (ip < length (ic_inode (x_icache x)))%nat ->
  wp (set_inode_addr ip k v) s (fun _ s' => fs_at s' (put_inode ip (i <| i_addrs ::= <[Z.to_nat k := v]> |>) x) V d T L).
Proof.
  intros A Hs. eapply wp_mono; [eapply at_upd_inode; [exact A|by apply slot_put]|].
  cbn beta. intros [] s'. apply at_put_put.
Qed.

Lemma bmap_direct s x V d T i bn : open_at s x V d T i -> 0 <= bn < NDIRECT -> block_of V i bn = 0 ->
  (2 <= free_count (x_sb x) V)%nat -> room (log_more T (sb_bmapstart (x_sb x))) ->
  wp (bmap ip bn) s (fun a s' => exists V' T' i', open_at s' x V' d T' i' /\ bmapped x V T i bn V' T' i' a).
Proof.
  intros O Hbn H0 Hf HT. pose proof O as [A Hs F]. unfold bmap. apply wp_bind. eapply wp_eq; [by eapply open_inode|].
  rewrite (fo_dev _ _ _ F). pose proof H0 as H0'. unfold block_of in H0'. destruct (Z.ltb_spec bn NDIRECT); [|lia].
  apply wp_bind. eapply wp_eq; [by eapply open_addr|]. rewrite H0'. cbn [Z.eqb].
  apply wp_bind. eapply wp_mono; [apply (alloc_place s x V d T i [] A F ltac:(lia) HT); by left|]. cbn zeta beta. intros b s1 (Hb & Hu & Hfr & A1).
  apply wp_bind. eapply wp_mono; [apply (set_addr_ok s1 x _ d _ [] i bn b A1 Hs)|]. cbn beta. intros [] s2 A2. wp_steps.
  pose proof (adds_direct _ V i bn b F Hbn H0 Hu Hb) as Had. destruct (adds_grows _ _ _ _ _ _ _ F Had) as [G D].
  eexists _, _, _. split; [constructor; [exact A2|done|apply G]|]. pose proof (bo_bm _ _ (fo_bitmap _ _ _ F)).
  constructor; [exact G|exact D| |lia|lia| |done|].
  - change (at_place (alloc_view (x_sb x) V b) (i <| i_addrs ::= <[Z.to_nat bn := b]> |>) (Some bn) = b).
    rewrite (ad_place _ _ _ _ _ _ _ Had) by apply Had. by rewrite decide_True.
  - intros. by do 2 apply log_more_NoDup.
  - intros c. rewrite !log_more_elem. tauto.
Qed.

(** The end of bmap, when the indirect block is there and its entry is empty. *)
Lemma bmap_entry s x V d T i bn : open_at s x V d T i -> NDIRECT <= bn < MAXFILE -> indirect i <> 0 -> block_of V i bn = 0 ->
  (0 < free_count (x_sb x) V)%nat -> (forall b, room (log_more (log_more T (sb_bmapstart (x_sb x))) b)) ->
  wp (bp <- bread 1 (indirect i) ;;
      m <- buf_data bp ;;
      addr <- (if load32 m (4 * (bn - NDIRECT)) =? 0 then
                 addr <- balloc 1 ;;
                 set_buf_data bp (fun m => store32 m (4 * (bn - NDIRECT)) addr) ;;;
                 log_write bp ;;;
                 ret addr
               else ret (load32 m (4 * (bn - NDIRECT)))) ;;
      brelse bp ;;;
      ret addr) s
    (fun a s' => exists V' T', open_at s' x V' d T' i /\ bmapped x V T i bn V' T' i a /\
      (free_count (x_sb x) V <= free_count (x_sb x) V' + 1)%nat).
Proof.
  intros O Hbn Hi H0 Hf HT. pose proof O as [A Hs F]. pose proof (fo_bitmap _ _ _ F) as [O1 O2 _].
  destruct (fo_data _ _ _ F None I Hi) as [Hr _]. cbn [at_place] in Hr. pose proof H0 as H0'. unfold block_of in H0'.
  destruct (Z.ltb_spec bn NDIRECT); [lia|]. destruct (Z.eqb_spec (indirect i) 0); [done|].
  set (sb := x_sb x) in *. pose proof (log_more_room _ _ (HT 0)) as HT1.
  apply wp_bind. eapply wp_mono; [apply (at_bread p pr w s _ V d T [] (indirect i) A); [lia|apply not_elem_of_nil| |cbn; lia]|].
  { by eapply log_more_room. }
  cbn beta. intros bp s1 A1. apply wp_bind. eapply wp_eq; [eapply at_data; [exact A1|by left]|]. rewrite H0'. cbn [Z.eqb].
  wp_steps. eapply wp_mono; [apply (alloc_place s1 x V d T i _ A1 F Hf HT1); right; by exists bp|].
  cbn zeta beta. fold sb. intros b s2 (Hb & Hu & Hfr & A2). wp_steps.
  eapply wp_mono; [apply (at_set_data p pr w s2 _ _ _ _ _ bp (indirect i) _ A2); by left|]. cbn beta. intros [] s3 A3. wp_steps.
  eapply wp_mono; [apply (at_log_write p pr w Hw s3 _ _ _ _ _ bp (indirect i) A3); [by left|done]|]. cbn beta. intros [] s4 A4. wp_steps.
  eapply wp_mono; [apply (at_brelse p pr w s4 _ _ _ _ bp (indirect i) [] A4); left; apply log_more_elem; by left|].
  cbn beta. intros [] s5 A5. wp_steps.
  pose proof (adds_entry _ V i bn b F Hi Hbn H0 Hu Hb) as Had. cbn zeta in Had. destruct (adds_grows _ _ _ _ _ _ _ F Had) as [G D].
  eexists _, _. split; [constructor; [exact A5|done|apply G]|]. set (V2 := upd_view _ _ _) in *.
  assert (free_count sb V = S (free_count sb V2)) as Hfr2.
  { rewrite Hfr. f_equal. symmetry. apply free_count_ext. unfold V2, upd_view. by rewrite decide_False by lia. }
  split; [|lia]. constructor; [exact G|exact D| |lia|fold sb; lia| |done|].
  - change (at_place V2 i (Some bn) = b). rewrite (ad_place _ _ _ _ _ _ _ Had) by apply Had. by rewrite decide_True.
  - intros. by do 3 apply log_more_NoDup.
  - intros c. rewrite !log_more_elem. fold sb. intros [->|?]; tauto.
Qed.

Lemma bmap_ok s x V d T i bn : open_at s x V d T i -> 0 <= bn < MAXFILE ->
  (2 <= free_count (x_sb x) V)%nat -> Z.of_nat (length T) + 3 < LOGSIZE - 1 ->
  wp (bmap ip bn) s (fun a s' => exists V' T' i', open_at s' x V' d T' i' /\ bmapped x V T i bn V' T' i' a).
Proof.
  intros O Hbn Hf HT. pose proof O as [A Hs F]. set (sb := x_sb x) in *.
  pose proof (log_more_length T (sb_bmapstart sb)) as L1.
  pose proof (fun b => log_more_length (log_more T (sb_bmapstart sb)) b) as L2.
  destruct (decide (block_of V i bn = 0)) as [H0|Hne].
  2: { eapply wp_mono; [apply (bmap_mapped s x V d T i bn O Hbn Hne); unfold room; lia|].
       cbn beta. intros a s' [-> O']. exists V, T, i. split; [done|]. constructor; try done; [by apply grows_refl|lia|tauto]. }
  destruct (Z.ltb_spec bn NDIRECT) as [Hlt|Hge]; [apply bmap_direct; try done; unfold room; fold sb; lia|].
  unfold bmap. apply wp_bind. eapply wp_eq; [by eapply open_inode|]. rewrite (fo_dev _ _ _ F).
  destruct (Z.ltb_spec bn NDIRECT); [lia|]. destruct (Z.ltb_spec (bn - NDIRECT) NINDIRECT); [|unfold MAXFILE in Hbn; lia].
  apply wp_bind. eapply wp_eq; [by eapply open_addr|]. fold (indirect i). destruct (Z.eqb_spec (indirect i) 0) as [Hi|Hi].
  - apply wp_bind, wp_bind. eapply wp_mono; [apply (alloc_place s x V d T i [] A F ltac:(fold sb; lia)); [fold sb; unfold room; lia|by left]|].
    cbn zeta beta. fold sb. intros b s1 (Hb & Hu & Hfr & A1).
    apply wp_bind. eapply wp_mono; [apply (set_addr_ok s1 x _ d _ [] i NDIRECT b A1 Hs)|]. cbn beta. intros [] s2 A2. apply wp_ret.
    pose proof (adds_indirect _ V i b F Hi Hu Hb) as Had. destruct (adds_grows _ _ _ _ _ _ _ F Had) as [G D].
    set (V1 := alloc_view sb V b) in *. set (i1 := i <| i_addrs ::= <[Z.to_nat NDIRECT := b]> |>) in *.
    set (T1 := log_more (log_more T (sb_bmapstart sb)) b) in *.
    assert (indirect i1 = b) as Ei.
    { change (at_place V1 i1 None = b). rewrite (ad_place _ _ _ _ _ _ _ Had) by done. by rewrite decide_True. }
    assert (block_of V1 i1 bn = 0) as H01.
    { change (at_place V1 i1 (Some bn) = 0). rewrite (ad_place _ _ _ _ _ _ _ Had) by done. by rewrite decide_False. }
    assert (open_at s2 x V1 d T1 i1) as O1 by (constructor; [done|done|apply G]).
    assert (sb_bmapstart sb ∈ T1) as Hm by (unfold T1; rewrite !log_more_elem; tauto).
    pose proof (bmap_entry s2 x V1 d T1 i1 bn O1 ltac:(lia)) as W. rewrite Ei in W.
    eapply wp_mono; [apply W; clear W; [pose proof (bo_bm _ _ (fo_bitmap _ _ _ F)); lia|done|fold sb; lia|]|].
    { intros c. fold sb. rewrite (log_more_in _ _ Hm). pose proof (log_more_length T1 c). specialize (L2 b). fold T1 in L2. unfold room. lia. }
    cbn beta. intros a s3 (V2 & T2 & O2 & [G2 D2 B2 M2 _ N2 _ Lg2] & Hf2). fold sb in Hf2. exists V2, T2, i1. split; [done|].
    constructor; [by eapply grows_trans|by eapply same_data_trans|done|done|fold sb; lia| |done|].
    + intros Hn. by apply N2, log_more_NoDup, log_more_NoDup.
    + intros c [Hc|Hc]%Lg2; [|tauto]. unfold T1 in Hc. rewrite !log_more_elem in Hc. fold sb. rewrite Ei.
      destruct Hc as [->|?]; [|tauto]. pose proof (bo_bm _ _ (fo_bitmap _ _ _ F)). right. right. left. split; [done|lia].
  - apply wp_bind, wp_ret. eapply wp_mono; [apply (bmap_entry s x V d T i bn O ltac:(lia) Hi H0); [fold sb; lia|]|].
    { intros b. fold sb. specialize (L2 b). unfold room. lia. }
    cbn beta. intros a s3 (V2 & T2 & O2 & B & _). by exists V2, T2, i.
Qed.

(** ** readi *)

Lemma readi_loop_ok x V d T i : room T -> forall fuel s off n, open_at s x V d T i -> 0 <= off -> 0 <= n -> off + n <= i_size i ->
  (0 < n -> off mod BSIZE + n <= BSIZE * Z.of_nat fuel) ->
  wp (readi_loop fuel ip off n) s (fun r s' => r = file_bytes V i off (Z.to_nat n) /\ open_at s' x V d T i).
Proof.
  intros HT. induction fuel as [|fuel IH]; intros s off n O Hoff Hn Hsz Hfuel; cbn [readi_loop]; destruct (Z.ltb_spec 0 n) as [Hpos|Hz].
  - specialize (Hfuel Hpos). unfold BSIZE in *. pose proof (Z.mod_pos_bound off 512). lia.
  - wp_steps. replace n with 0 by lia. done.
  - pose proof (oa_file _ _ _ _ _ _ O) as F. pose proof (fo_size _ _ _ F) as Hmax.
    assert (0 <= off / BSIZE < MAXFILE) as Hbn by (unfold MAXFILE, NINDIRECT, NDIRECT, BSIZE in *; dlia).
    assert (block_of V i (off / BSIZE) <> 0) as Hne by (apply (fo_full _ _ _ F); unfold BSIZE in *; dlia).
    destruct (fo_data _ _ _ F (Some (off / BSIZE)) Hbn Hne) as [Hr _]. cbn [at_place] in Hr.
    pose proof (bo_size _ _ (fo_bitmap _ _ _ F)) as Hfs.
    apply wp_bind. eapply wp_eq; [by eapply open_inode|]. rewrite (fo_dev _ _ _ F).
    apply wp_bind. eapply wp_mono; [by apply (bmap_mapped s x V d T i (off / BSIZE))|]. cbn beta. intros a s1 [-> O1].
    apply wp_bind. eapply wp_mono; [apply (at_bread p pr w s1 _ V d T [] _ (oa_at _ _ _ _ _ _ O1)); [lia|apply not_elem_of_nil|done|cbn; lia]|].
    cbn beta. intros bp s2 A2. apply wp_bind. eapply wp_eq; [eapply at_data; [exact A2|by left]|].
    apply wp_bind. eapply wp_mono; [apply (at_brelse p pr w s2 _ V d T bp _ [] A2)|].
    { apply (at_clean p pr w s1 _ V d T [] _ (oa_at _ _ _ _ _ _ O1)). apply not_elem_of_nil. }
    cbn beta. intros [] s3 A3. set (m := Z.min n (BSIZE - off mod BSIZE)).
    pose proof (Z.mod_pos_bound off BSIZE ltac:(done)) as Hmod. assert (0 < m <= n /\ off mod BSIZE + m <= BSIZE) as [Hm Hmb] by lia.
    rewrite load_file_bytes by lia. unfold u32. change (MAXFILE * BSIZE) with 71680 in Hmax.
    rewrite (Z.mod_small (off + m)) by lia.
    apply wp_bind. eapply wp_mono; [apply (IH s3 (off + m) (n - m)); [by destruct O1|lia|lia|lia|]|].
    { intros Hmn. specialize (Hfuel Hpos). assert (m = BSIZE - off mod BSIZE) as -> by lia.
      unfold BSIZE in *. dlia. }
    cbn beta. intros r s4 [-> O4]. wp_steps. split; [|done].
    replace (Z.to_nat n) with (Z.to_nat m + Z.to_nat (n - m))%nat by lia. rewrite file_bytes_app. do 2 f_equal. lia.
  - wp_steps. replace n with 0 by lia. done.
Qed.

(** readi returns the bytes of the file from [off] on, as many as there are. *)
Lemma readi_ok s x V d T i off n : open_at s x V d T i -> room T -> 0 <= off <= i_size i -> 0 <= n < 2 ^ 31 ->
  wp (readi ip off n) s (fun r s' => open_at s' x V d T i /\
    let b := take (Z.to_nat n) (drop (Z.to_nat off) (contents V i)) in r = (Z.of_nat (length b), b)).
Proof.
  intros O HT Hoff Hn. pose proof (oa_file _ _ _ _ _ _ O) as F. pose proof (fo_size _ _ _ F) as Hmax.
  change (MAXFILE * BSIZE) with 71680 in Hmax.
  unfold readi. apply wp_bind. eapply wp_eq; [by eapply open_inode|].
  destruct (Z.eqb_spec (i_type i) T_DEV) as [E|_]; [by destruct (fo_type _ _ _ F)|].
  unfold u32. rewrite Z.mod_small by lia. destruct (Z.ltb_spec (i_size i) off); [lia|]. destruct (Z.ltb_spec (off + n) off); [lia|]. cbn [orb].
  set (n' := if i_size i <? off + n then i_size i - off else n). assert (n' = Z.min n (i_size i - off)) as En.
  { unfold n'. destruct (Z.ltb_spec (i_size i) (off + n)); lia. }
  apply wp_bind. eapply wp_mono; [apply (readi_loop_ok x V d T i HT _ s off n' O); [lia|lia|lia|unfold BSIZE; dlia]|].
  cbn beta. intros r s' [-> O']. wp_steps. split; [done|]. cbn zeta.
  assert (file_bytes V i off (Z.to_nat n') = take (Z.to_nat n) (drop (Z.to_nat off) (contents V i))) as ->.
  { unfold contents. replace (Z.to_nat (i_size i)) with (Z.to_nat off + Z.to_nat (i_size i - off))%nat by lia.
    rewrite file_bytes_app, drop_app_length' by (by rewrite file_bytes_length). rewrite Z2Nat.id, Z.add_0_l by lia.
    destruct (decide (n <= i_size i - off)).
    - replace (Z.to_nat (i_size i - off)) with (Z.to_nat n + Z.to_nat (i_size i - off - n))%nat by lia.
      rewrite file_bytes_app, take_app_length' by (by rewrite file_bytes_length). f_equal. lia.
    - rewrite take_ge by (rewrite file_bytes_length; lia). f_equal. lia. }
  f_equal. rewrite length_take, length_drop. unfold contents. rewrite file_bytes_length. lia.
Qed.

(** ** writei *)

(** What a write logs: the bitmap, the indirect block and the blocks of the range it covers. *)
Definition touched (lo hi : Z) (pl : place) : Prop :=
  match pl with
  | Some bn => lo <= bn < hi
  | None => True
  end.
Definition budget x T0 V i (lo hi : Z) T : Prop :=
  NoDup T /\ forall c, c ∈ T -> c ∈ T0 \/ c = sb_bmapstart (x_sb x) \/
    (c <> 0 /\ exists pl, touched lo hi pl /\ at_place V i pl = c).

Lemma budget_length x T0 V i lo hi T : budget x T0 V i lo hi T -> lo <= hi ->
  Z.of_nat (length T) <= Z.of_nat (length T0) + 2 + (hi - lo).
Proof.
  intros [Hnd Hin] Hle.
  assert (T ⊆+ T0 ++ sb_bmapstart (x_sb x) :: (at_place V i <$> None :: (Some <$> range lo (Z.to_nat (hi - lo))))) as Hsub.
  { apply NoDup_submseteq; [done|]. intros c Hc. rewrite elem_of_app, elem_of_cons, list_elem_of_fmap.
    destruct (Hin c Hc) as [?|[?|(_ & pl & Ht & <-)]]; [tauto..|]. right. right. exists pl. split; [done|].
    destruct pl as [bn|]; [right|left]. apply list_elem_of_fmap. exists bn. split; [done|]. apply elem_of_range. cbn in Ht. lia. }
  apply submseteq_length in Hsub. rewrite length_app in Hsub. cbn in Hsub. rewrite !length_fmap, length_range in Hsub. lia.
Qed.

Lemma budget_weaken x T0 V i lo hi hi' T : budget x T0 V i lo hi T -> hi <= hi' -> budget x T0 V i lo hi' T.
Proof.
  intros [Hnd Hin] Hle. split; [done|]. intros c Hc. destruct (Hin c Hc) as [?|[?|(Hc0 & pl & Ht & E)]]; [tauto..|].
  right. right. split; [done|]. exists pl. split; [|done]. destruct pl; cbn in *; [lia|done].
Qed.

Lemma budget_block x T0 V T i lo bn V1 T1 i1 a m : budget x T0 V i lo bn T -> bmapped x V T i bn V1 T1 i1 a -> lo <= bn ->
  0 <= lo -> bn < MAXFILE -> budget x T0 (upd_view V1 a m) i1 lo (bn + 1) (log_more T1 a).
Proof.
  intros [Hnd Hin] [G D B M _ N _ Lg] Hlo H0 Hmax. pose proof (gr_ok _ _ _ _ _ G) as F. subst a.
  assert (valid_place (Some bn)) as Hv by (cbn; lia).
  split; [by apply log_more_NoDup, N|]. intros c. rewrite log_more_elem. intros Hc.
  assert (c = block_of V1 i1 bn -> c <> 0 /\ exists pl, touched lo (bn + 1) pl /\ at_place (upd_view V1 (block_of V1 i1 bn) m) i1 pl = c) as Hnew.
  { intros ->. split; [done|]. exists (Some bn). split; [cbn; lia|]. by apply (write_places _ V1 i1 bn m (Some bn) F). }
  destruct Hc as [->|Hc]; [auto|]. destruct (Lg c Hc) as [HT|[?|[[-> ?]|?]]]; [|tauto| |auto].
  - destruct (Hin c HT) as [?|[?|(Hc0 & pl & Ht & E)]]; [tauto..|]. right. right. split; [done|]. exists pl.
    assert (valid_place pl) as Hp by (destruct pl; cbn in *; [lia|done]).
    split; [destruct pl; cbn in *; [lia|done]|]. rewrite (write_places _ V1 i1 bn m pl F) by done.
    rewrite (gr_keep _ _ _ _ _ G) by (by rewrite ?E). done.
  - right. right. split; [done|]. by exists None.
Qed.

Lemma bmapped_length x V T i bn V' T' i' a : bmapped x V T i bn V' T' i' a -> NoDup T -> (length T' <= length T + 3)%nat.
Proof.
  intros B Hnd. assert (T' ⊆+ T ++ [sb_bmapstart (x_sb x); indirect i'; a]) as Hsub.
  { apply NoDup_submseteq; [by apply B|]. intros c Hc%B. rewrite elem_of_app, !elem_of_cons. tauto. }
  apply submseteq_length in Hsub. by rewrite length_app in Hsub.
Qed.

(** One turn of the loop of writei, up to the next call of it. *)
Lemma writei_turn s x V d T i off l T0 lo : open_at s x V d T i -> l <> [] -> is_bytes l -> 0 <= off < MAXFILE * BSIZE ->
  off mod BSIZE + Z.of_nat (length l) <= BSIZE -> budget x T0 V i lo (off / BSIZE) T -> 0 <= lo <= off / BSIZE ->
  (2 <= free_count (x_sb x) V)%nat -> Z.of_nat (length T) + 3 < LOGSIZE - 1 ->
  wp (addr <- bmap ip (off / BSIZE) ;;
      bp <- bread 1 addr ;;
      set_buf_data bp (fun b => store_bytes b (off mod BSIZE) l) ;;;
      log_write bp ;;;
      brelse bp) s
    (fun _ s' => exists V' T' i', open_at s' x V' d T' i' /\ wrote (x_sb x) V i off l V' i' /\
      budget x T0 V' i' lo (off / BSIZE + 1) T' /\ (free_count (x_sb x) V <= free_count (x_sb x) V' + 2)%nat).
Proof.
  intros O Hl Hbytes Hoff Hlen HB Hlo Hf HT. pose proof (block_range off Hoff) as Hbn.
  apply wp_bind. eapply wp_mono; [by apply (bmap_ok s x V d T i (off / BSIZE) O)|]. cbn beta. intros a s1 (V1 & T1 & i1 & O1 & Bm).
  pose proof (oa_file _ _ _ _ _ _ O1) as F1. pose proof (bd_block _ _ _ _ _ _ _ _ _ Bm) as Ea. pose proof (bd_mapped _ _ _ _ _ _ _ _ _ Bm) as Ha.
  destruct (fo_data _ _ _ F1 (Some (off / BSIZE)) Hbn) as [Hr _]; [cbn; by rewrite Ea|]. cbn [at_place] in Hr. rewrite Ea in Hr.
  pose proof (bo_size _ _ (fo_bitmap _ _ _ F1)) as Hfs.
  set (m := store_bytes (V1 a) (off mod BSIZE) l).
  pose proof (budget_block x T0 V T i lo (off / BSIZE) V1 T1 i1 a m HB Bm ltac:(lia) ltac:(lia) ltac:(lia)) as HB'.
  assert (room T1) as HT1.
  { pose proof (bmapped_length _ _ _ _ _ _ _ _ _ Bm (proj1 HB)). unfold room. lia. }
  eapply wp_mono; [apply (at_rewrite p pr w Hw s1 _ V1 d T1 [] a (fun b => store_bytes b (off mod BSIZE) l) (oa_at _ _ _ _ _ _ O1));
    [lia|apply not_elem_of_nil|done|cbn; lia]|].
  cbn beta. intros [] s2 A2. fold m in A2. exists (upd_view V1 a m), (log_more T1 a), i1.
  assert (wrote (x_sb x) V i off l (upd_view V1 a m) i1) as W.
  { unfold m. rewrite <- Ea. apply wrote_block; try done; [apply Bm..|by rewrite Ea]. }
  split_and!; [|done|done|].
  - constructor; [exact A2|apply O1|]. apply (wr_grows _ _ _ _ _ _ _ W).
  - rewrite (free_count_ext _ V1 (upd_view V1 a m)) by (unfold upd_view; rewrite decide_False by lia; done). apply Bm.
Qed.

Lemma writei_loop_ok x d T0 lo E : 0 <= lo -> Z.of_nat (length T0) + (E - lo) + 4 < LOGSIZE - 1 ->
  forall fuel s V T i src off, open_at s x V d T i -> is_bytes src -> 0 <= off ->
  off + Z.of_nat (length src) <= MAXFILE * BSIZE -> off + Z.of_nat (length src) <= E * BSIZE ->
  (src <> [] -> off mod BSIZE + Z.of_nat (length src) <= BSIZE * Z.of_nat fuel) -> lo <= off / BSIZE <= E ->
  budget x T0 V i lo (off / BSIZE) T -> 2 * (E - off / BSIZE) <= Z.of_nat (free_count (x_sb x) V) ->
  wp (writei_loop fuel ip src off) s (fun r s' => r = off + Z.of_nat (length src) /\ exists V' T' i',
    open_at s' x V' d T' i' /\ wrote (x_sb x) V i off src V' i' /\ budget x T0 V' i' lo E T' /\
    Z.of_nat (free_count (x_sb x) V) <= Z.of_nat (free_count (x_sb x) V') + 2 * (E - off / BSIZE)).
Proof.
  intros Hlo0 HT0. induction fuel as [|fuel IH]; intros s V T i src off O Hb Hoff Hmax HE Hfuel Hlo HB Hf; cbn [writei_loop];
    (destruct src as [|y src']; [wp_steps; split; [cbn; lia|]; exists V, T, i; split_and!;
      [done|apply wrote_nil; apply O|apply (budget_weaken _ _ _ _ _ _ _ _ HB); lia|lia]|]).
  - specialize (Hfuel ltac:(done)). pose proof (Z.mod_pos_bound off BSIZE ltac:(done)). cbn [length] in Hfuel. lia.
  - set (src := y :: src') in *. specialize (Hfuel ltac:(done)). assert (0 < Z.of_nat (length src)) as Hpos by (cbn; lia).
    apply wp_bind. eapply wp_eq; [by eapply open_inode|]. rewrite (fo_dev _ _ _ (oa_file _ _ _ _ _ _ O)).
    set (m := Z.min (Z.of_nat (length src)) (BSIZE - off mod BSIZE)).
    pose proof (Z.mod_pos_bound off BSIZE ltac:(done)) as Hmod.
    assert (0 < m <= Z.of_nat (length src) /\ off mod BSIZE + m <= BSIZE) as [Hm Hmb] by lia.
    set (l := take (Z.to_nat m) src). set (l' := drop (Z.to_nat m) src).
    assert (Z.of_nat (length l) = m) as El by (unfold l; rewrite length_take; lia).
    assert (length src = length l + length l')%nat as Els by (rewrite <- length_app; unfold l, l'; by rewrite take_drop).
    assert (off / BSIZE < E) as HltE by (unfold BSIZE in *; dlia).
    pose proof (budget_length _ _ _ _ _ _ _ HB ltac:(lia)) as HTlen.
    rewrite <- (take_drop (Z.to_nat m) src) in Hb. apply Forall_app in Hb as [Hb1 Hb2]. fold l in Hb1. fold l' in Hb2.
    pose proof (writei_turn s x V d T i off l T0 lo O) as W.
    assert (0 <= off < MAXFILE * BSIZE) as Hoff' by lia.
    specialize (W ltac:(intros El0; rewrite El0 in El; cbn in El; lia) Hb1 Hoff' ltac:(lia) HB ltac:(lia) ltac:(lia) ltac:(lia)).
    wp_prefix W. intros [] s1 (V1 & T1 & i1 & O1 & W1 & HB1 & Hf1).
    unfold u32. rewrite (Z.mod_small (off + m)) by (change (MAXFILE * BSIZE) with 71680 in *; lia).
    assert (l' <> [] -> (off + m) mod BSIZE = 0 /\ (off + m) / BSIZE = off / BSIZE + 1 /\ m = BSIZE - off mod BSIZE) as Hal.
    { intros Hl'. assert (m = BSIZE - off mod BSIZE) as ->; [|unfold BSIZE; split_and!; [dlia|dlia|done]].
      destruct l' as [|z l']; [done|]. cbn [length] in Els. lia. }
    destruct (decide (l' = [])) as [E'|E'].
    + assert (length l' = 0%nat) as El' by (by rewrite E'). rewrite E'.
      destruct fuel; cbn [writei_loop]; wp_steps; (split; [lia|]);
        (exists V1, T1, i1; split_and!; [done| |apply (budget_weaken _ _ _ _ _ _ _ _ HB1); lia|lia]);
        (replace src with l; [done|]; rewrite <- (take_drop (Z.to_nat m) src); fold l' l; by rewrite E', app_nil_r).
    + destruct (Hal E') as (Ha1 & Ha2 & Ha3). eapply wp_mono; [apply (IH s1 V1 T1 i1 l' (off + m) O1 Hb2); rewrite ?Ha1, ?Ha2; try done; try lia|].
      cbn beta. intros r s2 (-> & V2 & T2 & i2 & O2 & W2 & HB2 & Hf2). split; [lia|]. exists V2, T2, i2. split_and!; [done| |done|lia].
      rewrite <- (take_drop (Z.to_nat m) src). fold l l'. rewrite <- El in W2. eapply wrote_trans; [lia|lia|exact W1|exact W2].
Qed.

Lemma iupdate_ok s x V d T i : open_at s x V d T i -> room T ->
  let b := iblock (x_sb x) i in
  wp (iupdate ip) s (fun _ s' => open_at s' x (upd_view V b (dinode_store (V b) (dinode_off (i_inum i)) i)) d (log_more T b) i).
Proof.
  intros O HT b. pose proof O as [A Hs F]. pose proof (fo_iblock _ _ _ F) as Hb. pose proof (fo_bitmap _ _ _ F) as [O1 O2 _]. fold b in Hb.
  unfold iupdate. apply wp_bind. eapply wp_eq; [by eapply open_inode|]. apply wp_bind. eapply wp_eq; [by eapply at_sb|].
  rewrite (fo_dev _ _ _ F). change (IBLOCK (i_inum i) (x_sb (put_inode ip i x))) with b.
  eapply wp_mono; [apply (at_rewrite p pr w Hw s _ V d T [] b _ A); [lia|apply not_elem_of_nil|done|cbn; lia]|].
  cbn beta. intros [] s' A'. constructor; [exact A'|done|]. apply meta_ok; [done|lia].
Qed.

(** How many blocks a write covers. *)
Definition span (off n : Z) : Z := (off + n + BSIZE - 1) / BSIZE - off / BSIZE.

(** The file after a write, and the rest of the disk. *)
Record write_post x V T i (off : Z) (src : list Z) V' T' i' : Prop := {
  wo_size : i_size i' = Z.max (i_size i) (off + Z.of_nat (length src));
  wo_contents : contents V' i' = splice (contents V i) (Z.to_nat off) src;
  wo_log : NoDup T' /\ Z.of_nat (length T') <= Z.of_nat (length T) + 3 + span off (Z.of_nat (length src));
  wo_homes : forall c, c ∈ T' -> c ∈ T \/ iblock (x_sb x) i <= c < sb_size (x_sb x);
  wo_free : Z.of_nat (free_count (x_sb x) V) <= Z.of_nat (free_count (x_sb x) V') + 2 * span off (Z.of_nat (length src));
  wo_inode : i' = i <| i_addrs := i_addrs i' |> <| i_size := i_size i' |>;
  wo_used : forall c, used (x_sb x) V c -> used (x_sb x) V' c;
  wo_frame : forall c, used (x_sb x) V c -> c <> sb_bmapstart (x_sb x) -> c <> iblock (x_sb x) i ->
    ~ owned V i c -> V' c = V c;
  wo_new : forall c, owned V' i' c -> owned V i c \/ ~ used (x_sb x) V c;
  wo_inodes : forall k, k < dinode_off (i_inum i) \/ dinode_off (i_inum i) + DINODE_SIZE <= k ->
    load8 (V' (iblock (x_sb x) i)) k = load8 (V (iblock (x_sb x) i)) k;
  wo_fits : inode_fits i -> inode_fits i';
  wo_disk : inode_fits i -> disk_inode (x_sb x) V i -> disk_inode (x_sb x) V' i'
}.

(** The inode block is not a block of the file. *)
Lemma iblock_frame x V i V' i' : file_ok (x_sb x) V i -> grows (x_sb x) V i V' i' -> V' (iblock (x_sb x) i) = V (iblock (x_sb x) i).
Proof.
  intros F G. pose proof (fo_iblock _ _ _ F). pose proof (bo_meta _ _ (fo_bitmap _ _ _ F)) as Hm.
  apply (gr_frame _ _ _ _ _ G); [apply Hm; lia|lia|].
  intros (Hc & pl & Hv & E). destruct (fo_data _ _ _ F pl Hv) as [Hr _]; [congruence|]. lia.
Qed.

(** What a loop of writei has logged are blocks after the inode's. *)
Lemma budget_homes x T0 V i lo hi T : file_ok (x_sb x) V i -> budget x T0 V i lo hi T -> 0 <= lo -> hi <= MAXFILE ->
  forall c, c ∈ T -> c ∈ T0 \/ iblock (x_sb x) i <= c < sb_size (x_sb x).
Proof.
  intros F [_ Hin] Hlo Hhi c Hc. pose proof (fo_iblock _ _ _ F). pose proof (bo_bm _ _ (fo_bitmap _ _ _ F)).
  destruct (Hin c Hc) as [?|[->|(Hc0 & pl & Ht & E)]]; [by left|right; lia|right].
  destruct (fo_data _ _ _ F pl) as [Hr _]; [destruct pl; cbn in *; [lia|done]|congruence|]. lia.
Qed.

Definition free_kept x V V' (n : Z) : Prop := Z.of_nat (free_count (x_sb x) V) <= Z.of_nat (free_count (x_sb x) V') + 2 * n.

Lemma write_post_same x V T i off src V' T' i' : file_ok (x_sb x) V i -> wrote (x_sb x) V i off src V' i' -> 0 <= off ->
  off + Z.of_nat (length src) <= i_size i -> NoDup T' -> (forall c, c ∈ T' -> c ∈ T \/ iblock (x_sb x) i <= c < sb_size (x_sb x)) ->
  free_kept x V V' (span off (Z.of_nat (length src))) ->
  Z.of_nat (length T') <= Z.of_nat (length T) + 3 + span off (Z.of_nat (length src)) -> write_post x V T i off src V' T' i'.
Proof.
  intros F W Hoff Hsz Hnd Hh Hfr HT. pose proof (wr_grows _ _ _ _ _ _ _ W) as G. pose proof (fo_size _ _ _ F) as Hmax.
  assert (i' = i) as ->.
  { apply (wr_same _ _ _ _ _ _ _ W). intros k Hk. apply (fo_full _ _ _ F); unfold BSIZE in *; dlia. }
  pose proof (iblock_frame _ _ _ _ _ F G) as Eb. constructor; [lia| |done|done|done|by destruct i|apply G| |apply G| |done|].
  - eapply wrote_contents; [exact F|exact W|lia|lia|done|lia].
  - intros. by apply G.
  - intros k _. by rewrite Eb.
  - intros _. unfold disk_inode. by rewrite Eb.
Qed.

Lemma write_post_grown x V T i off src V1 T1 i1 : file_ok (x_sb x) V i -> wrote (x_sb x) V i off src V1 i1 -> 0 <= off <= i_size i ->
  i_size i < off + Z.of_nat (length src) <= MAXFILE * BSIZE -> NoDup T1 ->
  (forall c, c ∈ T1 -> c ∈ T \/ iblock (x_sb x) i <= c < sb_size (x_sb x)) -> free_kept x V V1 (span off (Z.of_nat (length src))) ->
  Z.of_nat (length T1) <= Z.of_nat (length T) + 2 + span off (Z.of_nat (length src)) ->
  let i2 := i1 <| i_size := off + Z.of_nat (length src) |> in
  let b := iblock (x_sb x) i in
  file_ok (x_sb x) V1 i2 /\
  write_post x V T i off src (upd_view V1 b (dinode_store (V1 b) (dinode_off (i_inum i2)) i2)) (log_more T1 b) i2.
Proof.
  intros F W Hoff Hsz Hnd Hh Hfr HT i2 b. pose proof (wr_grows _ _ _ _ _ _ _ W) as G. pose proof (gr_ok _ _ _ _ _ G) as F1.
  pose proof (gr_inode _ _ _ _ _ G) as Ei. assert (i_inum i2 = i_inum i) as En by (unfold i2; by rewrite Ei).
  assert (file_ok (x_sb x) V1 i2) as F2.
  { apply size_ok; [done|lia|]. intros bn Hbn Hlt. apply (wrote_full _ V i off src V1 i1 bn F W Hoff); [lia|done|lia]. }
  assert (b < sb_bmapstart (x_sb x)) as Hb by apply (fo_iblock _ _ _ F).
  assert (iblock (x_sb x) i2 = b) as Eb by (unfold iblock, b; by rewrite En).
  pose proof (iblock_frame _ _ _ _ _ F G) as EV. fold b in EV.
  split; [done|]. set (V2 := upd_view _ _ _). constructor.
  - unfold i2. cbn. lia.
  - rewrite <- (wrote_contents _ V i off src V1 i1 i2 F W Hoff) by (try done; try lia; unfold i2; cbn; lia).
    unfold contents, file_bytes. apply list_fmap_ext. intros k o Hk%list_elem_of_lookup_2%elem_of_range.
    apply (meta_byte (x_sb x)); [done|done|unfold i2 in Hk; cbn in Hk; lia|]. apply (fo_full _ _ _ F2); unfold BSIZE in *; dlia.
  - split; [by apply log_more_NoDup|]. pose proof (log_more_length T1 b). lia.
  - intros c [->|Hc]%log_more_elem; [right|by apply Hh]. fold b. pose proof (bo_bm _ _ (fo_bitmap _ _ _ F)). lia.
  - rewrite (free_count_ext _ V1 V2); [done|]. unfold V2, upd_view. by rewrite decide_False by lia.
  - unfold i2. rewrite Ei. by destruct i.
  - intros c Hc. unfold used, V2, upd_view. rewrite decide_False by lia. by apply (gr_used _ _ _ _ _ G).
  - intros c Hu Hc Hcb Ho. fold b in Hcb. unfold V2, upd_view. rewrite decide_False by done. by apply G.
  - intros c (Hc & pl & Hv & E). apply (gr_new _ _ _ _ _ G). split; [done|]. exists pl. split; [done|].
    rewrite <- E. symmetry. apply (meta_places (x_sb x) V1 i2 b _ pl F2 Hb Hv).
  - intros k Hk. fold b. unfold V2, upd_view. rewrite decide_True by done. rewrite En. rewrite dinode_frame; [by rewrite EV|apply F2|done].
  - intros [H1 H2 H3 H4]. unfold i2. rewrite Ei. by constructor.
  - intros Hfit _. unfold V2. rewrite <- Eb. apply disk_inode_written; [done|]. destruct Hfit as [H1 H2 H3 H4]. unfold i2. rewrite Ei. by constructor.
Qed.

Lemma writei_ok s x V d T i src off : let n := Z.of_nat (length src) in
  open_at s x V d T i -> NoDup T -> is_bytes src -> 0 <= off <= i_size i -> off + n <= MAXFILE * BSIZE ->
  Z.of_nat (length T) + span off n + 4 < LOGSIZE - 1 -> 2 * span off n <= Z.of_nat (free_count (x_sb x) V) ->
  wp (writei ip src off) s (fun r s' => r = n /\ exists V' T' i', open_at s' x V' d T' i' /\ write_post x V T i off src V' T' i').
Proof.
  intros n O Hnd Hb Hoff Hmax HT Hfree. pose proof O as [A Hs F]. pose proof (fo_size _ _ _ F) as Hsz.
  change (MAXFILE * BSIZE) with 71680 in *. unfold writei. apply wp_bind. eapply wp_eq; [by eapply open_inode|]. fold n.
  destruct (Z.eqb_spec (i_type i) T_DEV) as [E|_]; [by destruct (fo_type _ _ _ F)|].
  unfold u32. rewrite Z.mod_small by lia. destruct (Z.ltb_spec (i_size i) off); [lia|]. destruct (Z.ltb_spec (off + n) off); [lia|]. cbn [orb].
  change (MAXFILE * BSIZE) with 71680. destruct (Z.ltb_spec 71680 (off + n)); [lia|].
  set (E := (off + n + BSIZE - 1) / BSIZE). assert (span off n = E - off / BSIZE) as Es by done. rewrite Es in *.
  assert (0 <= off / BSIZE <= E /\ off + n <= E * BSIZE) as [HE HEn] by (unfold E, BSIZE; split; dlia).
  apply wp_bind. eapply wp_mono; [apply (writei_loop_ok x d T (off / BSIZE) E) with (V := V) (T := T) (i := i); try done; try lia|].
  { intros Hne. unfold BSIZE. dlia. }
  { split; [done|]. intros c Hc. by left. }
  cbn beta. intros r s1 (-> & V1 & T1 & i1 & O1 & W & HB & Hfr). fold n. pose proof (budget_length _ _ _ _ _ _ _ HB ltac:(lia)) as HT1.
  assert (i_size i1 = i_size i) as Esz by (by rewrite (gr_inode _ _ _ _ _ (wr_grows _ _ _ _ _ _ _ W))).
  assert (forall c, c ∈ T1 -> c ∈ T \/ iblock (x_sb x) i <= c < sb_size (x_sb x)) as Hh.
  { pose proof (budget_homes _ _ _ _ _ _ _ (oa_file _ _ _ _ _ _ O1) HB ltac:(lia)) as Hh. unfold iblock in Hh.
    rewrite (gr_inode _ _ _ _ _ (wr_grows _ _ _ _ _ _ _ W)) in Hh. apply Hh. change MAXFILE with 140. unfold E, BSIZE. dlia. }
  apply wp_bind. eapply wp_eq; [by eapply open_inode|]. rewrite Esz.
  destruct (Z.ltb_spec (i_size i) (off + n)) as [Hgrow|Hsame].
  - destruct (Z.ltb_spec 0 n); [|lia]. cbn [andb]. unfold when.
    destruct (write_post_grown x V T i off src V1 T1 i1 F W Hoff) as [F2 WP]; [fold n; change (MAXFILE * BSIZE) with 71680; lia|apply HB|done|unfold free_kept; fold n; rewrite Es; lia|fold n; lia|].
    fold n in F2, WP. set (i2 := i1 <| i_size := off + n |>) in *.
    apply wp_bind, wp_bind. eapply wp_mono; [eapply at_upd_inode; [apply O1|by apply slot_put]|]. cbn beta. intros [] s2 A2%at_put_put.
    assert (iblock (x_sb x) i2 = iblock (x_sb x) i) as Eb.
    { unfold iblock, i2. by rewrite (gr_inode _ _ _ _ _ (wr_grows _ _ _ _ _ _ _ W)). }
    eapply wp_mono; [apply (iupdate_ok s2 x V1 d T1 i2); [by constructor|unfold room; lia]|]. rewrite Eb. cbn beta. intros [] s3 O3. wp_steps.
    split; [done|]. eexists _, _, _. split; [exact O3|exact WP].
  - rewrite andb_false_r. unfold when. wp_steps. split; [done|]. exists V1, T1, i1. split; [done|].
    apply write_post_same; try done; try lia; [apply HB|]. fold n. rewrite Es. lia.
Qed.

End Files.
