(* ===== verification/Pipe.v ===== *)
(** Pipes, src/src/pipe.c.

    nread and nwrite are 32-bit counters that wrap around; a byte lives at its
    counter modulo PIPESIZE.  [pipe_fill] and [pipe_drain] are the copying loops
    of pipewrite and piperead up to the point where they would wait.  A writer
    that waits (outcome [Sleep]) has put part of its bytes into the pipe; it goes
    on with [pipewrite_from] and the bytes left. *)

From stdpp Require Import base gmap list strings.
From Stdlib Require Import ZArith Lia.
From S2P Require Import Prelude Mem Str Mmu State Kalloc MemTable Vm Sched Fsys.

(** Writes bytes until the pipe is full; the bytes left. *)
Fixpoint pipe_fill (p : pipe) (addr : list Z) : pipe * list Z :=
  match addr with
  | [] => (p, [])
  | b :: rest =>
      if pi_nwrite p =? u32 (pi_nread p + PIPESIZE) then (p, addr)
      else pipe_fill (p <| pi_data := store8 (pi_data p) (pi_nwrite p mod PIPESIZE) b |>
                        <| pi_nwrite := u32 (pi_nwrite p + 1) |>) rest
  end.

(** Reads up to [n] bytes until the pipe is empty. *)
Fixpoint pipe_drain (p : pipe) (n : nat) : pipe * list Z :=
  match n with
  | O => (p, [])
  | S n =>
      if pi_nread p =? pi_nwrite p then (p, [])
      else
        let b := load8 (pi_data p) (pi_nread p mod PIPESIZE) in
        let (p, l) := pipe_drain (p <| pi_nread := u32 (pi_nread p + 1) |>) n in
        (p, b :: l)
  end.

Definition get_pipe (a : Z) : M kernel pipe := fun s =>
  match x_pipes (k_fs s) !! a with
  | Some p => Ret p s
  | None => Crash "pipe"
  end.
Definition put_pipe (a : Z) (p : pipe) : M kernel unit :=
  fmod (fun x => x <| x_pipes ::= <[a := p]> |>).

Definition pipe_acquire (a : Z) : M kernel unit :=
  p <- get_pipe a ;;
  if pi_lock p then panic "acquire" else put_pipe a (p <| pi_lock := true |>).
Definition pipe_release (a : Z) : M kernel unit :=
  p <- get_pipe a ;;
  if pi_lock p then put_pipe a (p <| pi_lock := false |>) else panic "release".

Section Pipe.
Context {KI : KernelImage}.

Definition pipeclose (a : Z) (writable : bool) : M kernel unit :=
  pipe_acquire a ;;;
  p <- get_pipe a ;;
  (if writable then
     put_pipe a (p <| pi_writeopen := false |>) ;;;
     wakeup (pipe_nread_chan a)
   else
     put_pipe a (p <| pi_readopen := false |>) ;;;
     wakeup (pipe_nwrite_chan a)) ;;;
  p <- get_pipe a ;;
  if negb (pi_readopen p) && negb (pi_writeopen p) then
    pipe_release a ;;;
    fmod (fun x => x <| x_pipes ::= delete a |>) ;;;
    kfree a
  else pipe_release a.

Definition proc_killed : M kernel bool :=
  i <- myproc ;;
  p <- get_proc i ;;
  ret (p_killed p).

(** The loop of pipewrite with the lock held; [n] is the size of the request. *)
Definition pipewrite_from (a : Z) (addr : list Z) (n : Z) : M kernel Z :=
  p <- get_pipe a ;;
  let (p, rest) := pipe_fill p addr in
  put_pipe a p ;;;
  match rest with
  | [] =>
      wakeup (pipe_nread_chan a) ;;;
      pipe_release a ;;;
      ret n
  | _ =>
      killed <- (if pi_readopen p then proc_killed else ret true) ;;
      if killed then pipe_release a ;;; ret (-1)
      else
        wakeup (pipe_nread_chan a) ;;;
        sleep (pipe_nwrite_chan a) (Some (pipe_release a))
  end.

(** [addr] holds the [n] bytes to write. *)
Definition pipewrite (a : Z) (addr : list Z) (n : Z) : M kernel Z :=
  pipe_acquire a ;;;
  pipewrite_from a addr n.

(** A reader that waits starts again with the lock held. *)
Definition piperead_from (a : Z) (n : Z) : M kernel (Z * list Z) :=
  p <- get_pipe a ;;
  if (pi_nread p =? pi_nwrite p) && pi_writeopen p then
    killed <- proc_killed ;;
    if killed then pipe_release a ;;; ret (-1, [])
    else sleep (pipe_nread_chan a) (Some (pipe_release a))
  else
    let (p, l) := pipe_drain p (Z.to_nat n) in
    put_pipe a p ;;;
    wakeup (pipe_nwrite_chan a) ;;;
    pipe_release a ;;;
    ret (Z.of_nat (length l), l).

Definition piperead (a : Z) (n : Z) : M kernel (Z * list Z) :=
  pipe_acquire a ;;;
  piperead_from a n.

End Pipe.

(** ** The pipe as a queue *)

(** [q] are the bytes in the pipe, the next to be read first. *)
Record pipe_rep (p : pipe) (q : list Z) : Prop := {
  pr_size : Z.of_nat (length q) <= PIPESIZE;
  pr_read : 0 <= pi_nread p < 2 ^ 32;
  pr_write : pi_nwrite p = u32 (pi_nread p + Z.of_nat (length q));
  pr_data : forall k b, q !! k = Some b -> load8 (pi_data p) ((pi_nread p + Z.of_nat k) mod PIPESIZE) = b
}.

(** What is left of the pipe beside the counters and the data. *)
Definition same_ends (p p' : pipe) : Prop :=
  pi_lock p' = pi_lock p /\ pi_readopen p' = pi_readopen p /\ pi_writeopen p' = pi_writeopen p.

Definition pipe_room (q : list Z) : nat := (Z.to_nat PIPESIZE - length q)%nat.

#[local] Lemma u32_mod_size x : u32 x mod PIPESIZE = x mod PIPESIZE.
Proof. unfold u32, PIPESIZE. dlia. Qed.

Lemma pipe_full p q : pipe_rep p q ->
  (pi_nwrite p =? u32 (pi_nread p + PIPESIZE)) = (Z.of_nat (length q) =? PIPESIZE).
Proof.
  intros [H1 H2 H3 H4]. rewrite H3. unfold u32, PIPESIZE in *.
  destruct (Z.eqb_spec (Z.of_nat (length q)) 512) as [->|]; [apply Z.eqb_refl|]. apply Z.eqb_neq. dlia.
Qed.

Lemma pipe_empty p q : pipe_rep p q -> (pi_nread p =? pi_nwrite p) = (Z.of_nat (length q) =? 0).
Proof.
  intros [H1 H2 H3 H4]. rewrite H3. unfold u32, PIPESIZE in *.
  destruct (Z.eqb_spec (Z.of_nat (length q)) 0) as [->|]; [apply Z.eqb_eq; dlia|]. apply Z.eqb_neq. dlia.
Qed.

Lemma pipe_push p q b : pipe_rep p q -> Z.of_nat (length q) < PIPESIZE -> 0 <= b < 256 ->
  pipe_rep (p <| pi_data := store8 (pi_data p) (pi_nwrite p mod PIPESIZE) b |>
              <| pi_nwrite := u32 (pi_nwrite p + 1) |>) (q ++ [b]).
Proof.
  intros [H1 H2 H3 H4] Hl Hb. constructor; cbn.
  - rewrite length_app. cbn. lia.
  - done.
  - rewrite H3, length_app. cbn. unfold u32. dlia.
  - intros k c [Hk|[Hk Hc]]%lookup_app_Some.
    + rewrite load8_store8_ne; [by apply H4|]. rewrite H3, u32_mod_size.
      apply lookup_lt_Some in Hk. unfold PIPESIZE in *. dlia.
    + apply list_lookup_singleton_Some in Hc as [Hk0 <-]. rewrite load8_store8, H3, u32_mod_size.
      rewrite decide_True by (f_equal; lia). by apply Z.mod_small.
Qed.

Lemma pipe_pop p b q : pipe_rep p (b :: q) ->
  load8 (pi_data p) (pi_nread p mod PIPESIZE) = b /\
  pipe_rep (p <| pi_nread := u32 (pi_nread p + 1) |>) q.
Proof.
  intros [H1 H2 H3 H4]. split.
  - rewrite <-(H4 0%nat b) by done. f_equal. f_equal. lia.
  - cbn [length] in *. constructor; cbn.
    + lia.
    + unfold u32. dlia.
    + rewrite H3. unfold u32. dlia.
    + intros k c Hk. rewrite <-(H4 (S k) c) by done. f_equal. unfold u32, PIPESIZE. dlia.
Qed.

Lemma fill_rep l : forall p q, pipe_rep p q -> Forall (fun b => 0 <= b < 256) l ->
  let (p', rest) := pipe_fill p l in
  rest = drop (pipe_room q) l /\ pipe_rep p' (q ++ take (pipe_room q) l) /\ same_ends p p'.
Proof.
  induction l as [|b l IH]; intros p q Hp Hl; cbn [pipe_fill].
  - rewrite drop_nil, take_nil, app_nil_r. done.
  - apply Forall_cons in Hl as [Hb Hl]. rewrite (pipe_full p q) by done. pose proof (pr_size _ _ Hp) as Hs.
    destruct (Z.eqb_spec (Z.of_nat (length q)) PIPESIZE) as [E|E].
    + assert (pipe_room q = 0%nat) as -> by (unfold pipe_room; lia). cbn. by rewrite app_nil_r.
    + assert (pipe_room q = S (pipe_room (q ++ [b]))) as ->.
      { unfold pipe_room. rewrite length_app. cbn. lia. }
      specialize (IH _ _ (pipe_push p q b Hp ltac:(lia) Hb) Hl). destruct (pipe_fill _ l) as [p' rest].
      cbn [drop take]. by rewrite <-app_assoc in IH.
Qed.

Lemma drain_rep n : forall p q, pipe_rep p q ->
  let (p', out) := pipe_drain p n in
  out = take n q /\ pipe_rep p' (drop n q) /\ same_ends p p'.
Proof.
  induction n as [|n IH]; intros p q Hp; cbn [pipe_drain]; [done|].
  rewrite (pipe_empty p q) by done. destruct q as [|b q]; [done|].
  destruct (Z.eqb_spec (Z.of_nat (length (b :: q))) 0) as [E|_]; [cbn in E; lia|].
  destruct (pipe_pop p b q Hp) as [-> Hp']. specialize (IH _ _ Hp').
  destruct (pipe_drain _ n) as [p' out]. destruct IH as (-> & IH & ?). done.
Qed.

(** ** A stream through the pipe

    A writer with bytes left to write, the pipe, and everything a reader has
    got.  The writer fills the pipe as far as it can whenever it runs, the
    reader drains as much as it asks for, in any order. *)
Record stream := { st_sent : list Z; st_pending : list Z; st_pipe : pipe; st_received : list Z }.

Inductive stream_step : stream -> stream -> Prop :=
| step_request sent p received bytes :
    Forall (fun b => 0 <= b < 256) bytes ->
    stream_step {| st_sent := sent; st_pending := []; st_pipe := p; st_received := received |}
                {| st_sent := sent ++ bytes; st_pending := bytes; st_pipe := p; st_received := received |}
| step_fill sent pending p received p' rest :
    pipe_fill p pending = (p', rest) ->
    stream_step {| st_sent := sent; st_pending := pending; st_pipe := p; st_received := received |}
                {| st_sent := sent; st_pending := rest; st_pipe := p'; st_received := received |}
| step_drain sent pending p received n p' out :
    pipe_drain p n = (p', out) ->
    stream_step {| st_sent := sent; st_pending := pending; st_pipe := p; st_received := received |}
                {| st_sent := sent; st_pending := pending; st_pipe := p'; st_received := received ++ out |}.

Definition stream_inv (x : stream) : Prop :=
  Forall (fun b => 0 <= b < 256) (st_pending x) /\
  exists q, pipe_rep (st_pipe x) q /\ st_sent x = st_received x ++ q ++ st_pending x.

Lemma stream_step_inv x y : stream_step x y -> stream_inv x -> stream_inv y.
Proof.
  intros Hs [Hb (q & Hq & E)]. destruct Hs as [sent p received bytes Hf|sent pending p received p' rest Hf
    |sent pending p received n p' out Hd]; cbn in *.
  - split; [done|]. exists q. split; [done|]. cbn. rewrite E, app_nil_r. by rewrite <-app_assoc.
  - pose proof (fill_rep pending p q Hq Hb) as H. rewrite Hf in H. destruct H as (-> & Hr & _).
    split; [by apply Forall_drop|]. eexists. split; [exact Hr|]. cbn.
    by rewrite <-app_assoc, take_drop.
  - pose proof (drain_rep n p q Hq) as H. rewrite Hd in H. destruct H as (-> & Hr & _).
    split; [done|]. eexists. split; [exact Hr|]. cbn.
    by rewrite <-app_assoc, (app_assoc (take n q)), take_drop.
Qed.

Lemma stream_steps_inv x y : rtc stream_step x y -> stream_inv x -> stream_inv y.
Proof. induction 1; eauto using stream_step_inv. Qed.

(** Writer and reader taking turns: what the reader gets in [k] rounds. *)
Fixpoint transfer (k : nat) (p : pipe) (bytes : list Z) : list Z :=
  match k with
  | O => []
  | S k =>
      let (p, rest) := pipe_fill p bytes in
      let (p, out) := pipe_drain p (Z.to_nat PIPESIZE) in
      out ++ transfer k p rest
  end.

(** A pipe delivers every byte once and in order, for any interleaving of
    writers and readers and also when the 32-bit counters wrap around: at any
    time the bytes sent are those received, then at most PIPESIZE bytes in the
    pipe, then those still to be written. *)
Theorem pipe_is_fifo p received x :
  pipe_rep p [] ->
  rtc stream_step {| st_sent := received; st_pending := []; st_pipe := p; st_received := received |} x ->
  exists q, Z.of_nat (length q) <= PIPESIZE /\ st_sent x = st_received x ++ q ++ st_pending x /\
    (pi_nread (st_pipe x) = pi_nwrite (st_pipe x) -> q = []).
Proof.
  intros Hp Hx.
  assert (stream_inv x) as [_ (q & Hq & E)].
  { eapply stream_steps_inv; [exact Hx|]. split; [done|]. exists []. cbn. by rewrite app_nil_r. }
  exists q. split; [apply Hq|]. split; [done|]. intros Hempty%Z.eqb_eq. rewrite (pipe_empty _ q Hq) in Hempty.
  apply Z.eqb_eq in Hempty. destruct q; [done|cbn in Hempty; lia].
Qed.

(** C34. A request of any size gets through: with writer and reader taking turns,
    the reader has all its bytes after one turn for every PIPESIZE bytes. *)
Theorem pipe_transfers_all k p bytes :
  pipe_rep p [] -> Forall (fun b => 0 <= b < 256) bytes ->
  Z.of_nat (length bytes) <= PIPESIZE * Z.of_nat k -> transfer k p bytes = bytes.
Proof.
  revert p bytes. induction k as [|k IH]; intros p bytes Hp Hb Hl; cbn [transfer].
  - destruct bytes; [done|cbn in Hl; lia].
  - pose proof (fill_rep bytes p [] Hp Hb) as Hf. destruct (pipe_fill p bytes) as [p1 rest].
    destruct Hf as (-> & Hr1 & _). pose proof (drain_rep (Z.to_nat PIPESIZE) p1 _ Hr1) as Hd.
    destruct (pipe_drain p1 _) as [p2 out]. destruct Hd as (-> & Hr2 & _).
    change (pipe_room []) with (Z.to_nat PIPESIZE) in *. cbn [app] in *.
    rewrite drop_ge in Hr2 by (rewrite length_take; lia). rewrite take_ge by (rewrite length_take; lia).
    rewrite IH; [apply take_drop|done|by apply Forall_drop|]. rewrite length_drop. lia.
Qed.

(** ** The operations of the kernel *)

Section PipeOps.
Context {KI : KernelImage}.
Implicit Types s : kernel.

(** The state with another pipe at [a]. *)
Definition with_pipe (a : Z) (p : pipe) s : kernel := s <| k_fs ::= fun x => x <| x_pipes ::= <[a := p]> |> |>.

(** The pipe at [a] is not locked and holds [q]; a process runs. *)
Record pipe_at s (a : Z) (p : pipe) (q : list Z) (i : nat) (pr : proc) : Prop := {
  pa_pipe : x_pipes (k_fs s) !! a = Some p;
  pa_lock : pi_lock p = false;
  pa_rep : pipe_rep p q;
  pa_cur : k_curproc s = Some i;
  pa_proc : k_ptable s !! i = Some pr;
  pa_running : p_state pr = RUNNING;
  pa_ptable : k_ptable_lock s = false
}.

Lemma pipe_acquire_eq s a p : x_pipes (k_fs s) !! a = Some p -> pi_lock p = false ->
  pipe_acquire a s = Ret tt (with_pipe a (p <| pi_lock := true |>) s).
Proof. intros Hp Hl. unfold pipe_acquire, bind, get_pipe. by rewrite Hp, Hl. Qed.

Lemma get_with_pipe a p s : get_pipe a (with_pipe a p s) = Ret p (with_pipe a p s).
Proof. unfold get_pipe, with_pipe. cbn. by rewrite lookup_insert_eq. Qed.

Lemma put_with_pipe a p p' s : put_pipe a p' (with_pipe a p s) = Ret tt (with_pipe a p' s).
Proof. unfold put_pipe, fmod, modify, with_pipe. cbn. by rewrite insert_insert_eq. Qed.

Lemma release_with_pipe a p s : pi_lock p = true ->
  pipe_release a (with_pipe a p s) = Ret tt (with_pipe a (p <| pi_lock := false |>) s).
Proof.
  intros Hl. unfold pipe_release, bind. rewrite get_with_pipe, Hl. apply put_with_pipe.
Qed.

Lemma pipe_rep_lock p q b : pipe_rep p q -> pipe_rep (p <| pi_lock := b |>) q.
Proof. intros []. by constructor. Qed.

(** The specification: how a request on a queue of bytes ends, and the queue
    after it. *)
Inductive verdict := Done | Failed | Waits.

Definition write_spec (readopen killed : bool) (q bytes : list Z) : list Z * verdict :=
  if decide (length bytes <= pipe_room q)%nat then (q ++ bytes, Done)
  else (q ++ take (pipe_room q) bytes, if readopen && negb killed then Waits else Failed).

Definition read_spec (writeopen killed : bool) (q : list Z) (n : nat) : list Z * list Z * verdict :=
  if bool_decide (q = []) && writeopen then ([], q, if killed then Failed else Waits)
  else (take n q, drop n q, Done).

(** The process that runs is not among those a wakeup changes. *)
Lemma running_woken s i pr chan : k_ptable s !! i = Some pr -> p_state pr = RUNNING ->
  k_ptable (woken chan s) !! i = Some pr.
Proof.
  intros Hp Hr. unfold woken. cbn. rewrite list_lookup_fmap, Hp. cbn.
  rewrite decide_False by (intros [E _]; congruence). done.
Qed.

Lemma proc_killed_eq s i pr : k_curproc s = Some i -> k_ptable s !! i = Some pr ->
  proc_killed s = Ret (p_killed pr) s.
Proof. intros Hc Hp. unfold proc_killed, bind, myproc, get_proc. by rewrite Hc, Hp. Qed.

(** Waiting on a channel of the pipe gives up its lock. *)
Lemma pipe_sleep {A} s a p1 i pr chan :
  k_curproc s = Some i -> k_ptable s !! i = Some pr -> k_ptable_lock s = false -> pi_lock p1 = true ->
  sleep (A := A) chan (Some (pipe_release a)) (with_pipe a p1 s) =
  leaves chan (asleep i pr chan (with_pipe a (p1 <| pi_lock := false |>) s)).
Proof.
  intros Hc Hp Hl Hlk.
  pose proof (release_with_pipe a p1 (s <| k_ptable_lock := true |>) Hlk) as Hr.
  change (with_pipe a p1 (s <| k_ptable_lock := true |>)) with ((with_pipe a p1 s) <| k_ptable_lock := true |>) in Hr.
  by rewrite (sleep_eq i pr chan (pipe_release a) (with_pipe a p1 s) _ Hc Hl Hr Hp Hc eq_refl).
Qed.

Lemma pipewrite_eq s a p q i pr bytes n :
  pipe_at s a p q i pr -> Forall (fun b => 0 <= b < 256) bytes ->
  let (q', r) := write_spec (pi_readopen p) (p_killed pr) q bytes in
  exists p', pipe_rep p' q' /\ same_ends p p' /\
    pipewrite a bytes n s =
    match r with
    | Done => Ret n (with_pipe a p' (woken (pipe_nread_chan a) s))
    | Failed => Ret (-1) (with_pipe a p' s)
    | Waits => leaves (pipe_nwrite_chan a)
        (asleep i pr (pipe_nwrite_chan a) (with_pipe a p' (woken (pipe_nread_chan a) s)))
    end.
Proof.
  intros [Hp Hlk Hrep Hc Hpr Hrun Hpl] Hb. unfold pipewrite. rewrite (bind_ret_eq _ _ _ _ _ (pipe_acquire_eq s a p Hp Hlk)).
  unfold pipewrite_from. rewrite (bind_ret_eq _ _ _ _ _ (get_with_pipe a _ s)).
  pose proof (fill_rep bytes _ _ (pipe_rep_lock p q true Hrep) Hb) as Hf.
  destruct (pipe_fill _ bytes) as [p1 rest]. destruct Hf as (Hrest & Hrep1 & Hl1 & Hro & Hwo). cbn in Hl1, Hro, Hwo.
  rewrite (bind_ret_eq _ _ _ _ _ (put_with_pipe a _ p1 s)).
  assert (same_ends p (p1 <| pi_lock := false |>)) as Hends by done.
  pose proof (wakeup_eq (pipe_nread_chan a) (with_pipe a p1 s) Hpl) as Hwk.
  pose proof (release_with_pipe a p1 (woken (pipe_nread_chan a) s) Hl1) as Hrel.
  unfold write_spec. case_decide as Hlen.
  - rewrite take_ge in Hrep1 by done. rewrite drop_ge in Hrest by done. subst rest.
    exists (p1 <| pi_lock := false |>). split; [by apply pipe_rep_lock|]. split; [done|].
    rewrite (bind_ret_eq _ _ _ _ _ Hwk). exact (bind_ret_eq _ _ _ _ _ Hrel).
  - assert (exists b r, rest = b :: r) as (b & r & E).
    { destruct rest as [|b r]; [|eauto]. symmetry in Hrest. apply drop_nil_inv in Hrest. lia. }
    rewrite E. exists (p1 <| pi_lock := false |>). split; [by apply pipe_rep_lock|]. split; [done|].
    rewrite Hro. destruct (pi_readopen p); cbn [andb].
    + rewrite (bind_ret_eq _ _ _ _ _ (proc_killed_eq (with_pipe a p1 s) i pr Hc Hpr)).
      destruct (p_killed pr); cbn [negb].
      * exact (bind_ret_eq _ _ _ _ _ (release_with_pipe a p1 s Hl1)).
      * rewrite (bind_ret_eq _ _ _ _ _ Hwk).
        apply (pipe_sleep (woken (pipe_nread_chan a) s) a p1 i pr); [done|by apply running_woken|done|done].
    + exact (bind_ret_eq _ _ _ _ _ (release_with_pipe a p1 s Hl1)).
Qed.

Lemma piperead_eq s a p q i pr n :
  pipe_at s a p q i pr ->
  let '(out, q', r) := read_spec (pi_writeopen p) (p_killed pr) q (Z.to_nat n) in
  exists p', pipe_rep p' q' /\ same_ends p p' /\
    piperead a n s =
    match r with
    | Done => Ret (Z.of_nat (length out), out) (with_pipe a p' (woken (pipe_nwrite_chan a) s))
    | Failed => Ret (-1, []) (with_pipe a p' s)
    | Waits => leaves (pipe_nread_chan a) (asleep i pr (pipe_nread_chan a) (with_pipe a p' s))
    end.
Proof.
  intros [Hp Hlk Hrep Hc Hpr Hrun Hpl]. unfold piperead. rewrite (bind_ret_eq _ _ _ _ _ (pipe_acquire_eq s a p Hp Hlk)).
  set (p0 := p <| pi_lock := true |>). pose proof (pipe_rep_lock p q true Hrep) as Hrep0. fold p0 in Hrep0.
  unfold piperead_from. rewrite (bind_ret_eq _ _ _ _ _ (get_with_pipe a p0 s)).
  rewrite (pipe_empty p0 q Hrep0). change (pi_writeopen p0) with (pi_writeopen p).
  replace (Z.of_nat (length q) =? 0) with (bool_decide (q = [])) by (by destruct q).
  unfold read_spec. destruct (bool_decide (q = []) && pi_writeopen p).
  - rewrite (bind_ret_eq _ _ _ _ _ (proc_killed_eq (with_pipe a p0 s) i pr Hc Hpr)).
    exists (p0 <| pi_lock := false |>). split; [by apply pipe_rep_lock|]. split; [by split|].
    destruct (p_killed pr).
    + exact (bind_ret_eq _ _ _ _ _ (release_with_pipe a p0 s eq_refl)).
    + by apply pipe_sleep.
  - pose proof (drain_rep (Z.to_nat n) p0 q Hrep0) as Hd. destruct (pipe_drain p0 (Z.to_nat n)) as [p1 out].
    destruct Hd as (-> & Hrep1 & Hl1 & Hro & Hwo). cbn in Hl1, Hro, Hwo.
    rewrite (bind_ret_eq _ _ _ _ _ (put_with_pipe a p0 p1 s)).
    exists (p1 <| pi_lock := false |>). split; [by apply pipe_rep_lock|]. split; [done|].
    rewrite (bind_ret_eq _ _ _ _ _ (wakeup_eq (pipe_nwrite_chan a) (with_pipe a p1 s) Hpl)).
    exact (bind_ret_eq _ _ _ _ _ (release_with_pipe a p1 (woken (pipe_nwrite_chan a) s) Hl1)).
Qed.

(** C20. pipewrite and piperead implement requests on a queue of bytes, on every
    branch.  A write that fits is put behind the queue, wakes the readers and
    returns its size; one that does not fit fills the queue and waits for
    readers, or fails when the read end is closed or the process is killed.  A
    read of an empty queue waits while there are writers, or fails if killed;
    otherwise it takes the oldest bytes and wakes the writers.  The lock is free
    again in every case.  A process that waits leaves the processor; sched panics
    if it holds another spin lock. *)
Theorem pipe_ops_refine_queue s a p q i pr bytes n :
  pipe_at s a p q i pr -> Forall (fun b => 0 <= b < 256) bytes ->
  (let (q', r) := write_spec (pi_readopen p) (p_killed pr) q bytes in
   exists p', pipe_rep p' q' /\ same_ends p p' /\
     pipewrite a bytes n s =
     match r with
     | Done => Ret n (with_pipe a p' (woken (pipe_nread_chan a) s))
     | Failed => Ret (-1) (with_pipe a p' s)
     | Waits => leaves (pipe_nwrite_chan a)
         (asleep i pr (pipe_nwrite_chan a) (with_pipe a p' (woken (pipe_nread_chan a) s)))
     end) /\
  (let '(out, q', r) := read_spec (pi_writeopen p) (p_killed pr) q (Z.to_nat n) in
   exists p', pipe_rep p' q' /\ same_ends p p' /\
     piperead a n s =
     match r with
     | Done => Ret (Z.of_nat (length out), out) (with_pipe a p' (woken (pipe_nwrite_chan a) s))
     | Failed => Ret (-1, []) (with_pipe a p' s)
     | Waits => leaves (pipe_nread_chan a) (asleep i pr (pipe_nread_chan a) (with_pipe a p' s))
     end).
Proof. intros Hat Hb. split; [by apply pipewrite_eq|by apply piperead_eq]. Qed.

End PipeOps.

(** ** Witnesses *)

Module PipeWitness.

#[local] Existing Instance boot_image.

(** An empty pipe whose counters are about to wrap around. *)
Definition old_pipe : pipe :=
  {| pi_lock := false; pi_data := ∅; pi_nread := 2 ^ 32 - 2; pi_nwrite := 2 ^ 32 - 2;
     pi_readopen := true; pi_writeopen := true |}.

Lemma old_pipe_empty : pipe_rep old_pipe [].
Proof. constructor; [vm_compute; discriminate|vm_compute; split; [discriminate|done]|done|done]. Qed.

Lemma pipe_is_fifo_witness : exists x,
  rtc stream_step {| st_sent := []; st_pending := []; st_pipe := old_pipe; st_received := [] |} x /\
  pi_nwrite (st_pipe x) = 1 /\ exists q, st_sent x = st_received x ++ q ++ st_pending x /\ st_received x = [104; 105].
Proof.
  pose (p1 := fst (pipe_fill old_pipe [104; 105; 10])). pose (p2 := fst (pipe_drain p1 2)).
  exists {| st_sent := [104; 105; 10]; st_pending := []; st_pipe := p2; st_received := [104; 105] |}.
  assert (rtc stream_step {| st_sent := []; st_pending := []; st_pipe := old_pipe; st_received := [] |}
    {| st_sent := [104; 105; 10]; st_pending := []; st_pipe := p2; st_received := [104; 105] |}) as Hx.
  { eapply rtc_l; [apply (step_request [] old_pipe [] [104; 105; 10]); repeat constructor; lia|].
    eapply rtc_l; [apply (step_fill _ _ _ _ p1 []); vm_compute; reflexivity|].
    eapply rtc_l; [apply (step_drain _ _ _ _ 2 p2 [104; 105]); vm_compute; reflexivity|]. apply rtc_refl. }
  split; [exact Hx|]. split; [vm_compute; reflexivity|].
  destruct (pipe_is_fifo old_pipe [] _ old_pipe_empty Hx) as (q & _ & Hq & _). exists q. split; [exact Hq|reflexivity].
Defined.

Lemma pipe_transfers_all_witness : transfer 2 old_pipe (replicate 600 7) = replicate 600 7.
Proof.
  apply (pipe_transfers_all 2 old_pipe (replicate 600 7)).
  - apply old_pipe_empty.
  - apply Forall_replicate. lia.
  - rewrite length_replicate. vm_compute. discriminate.
Defined.

Definition one_pipe : kernel :=
  (boot (fsys_boot blank_disk)) <| k_curproc := Some 0%nat |> <| k_ptable := [proc0 <| p_state := RUNNING |>] |>
    <| k_fs ::= fun x => x <| x_pipes := {[ 0x80300000 := old_pipe ]} |> |>.

Lemma pipe_ops_refine_queue_witness : exists p', pipe_rep p' [1; 2; 3] /\
  pipewrite 0x80300000 [1; 2; 3] 3 one_pipe =
  Ret 3 (with_pipe 0x80300000 p' (woken (pipe_nread_chan 0x80300000) one_pipe)).
Proof.
  destruct (pipe_ops_refine_queue one_pipe 0x80300000 old_pipe [] 0 (proc0 <| p_state := RUNNING |>) [1; 2; 3] 3)
    as [(p' & Hp' & _ & H) _].
  - constructor; try reflexivity. apply old_pipe_empty.
  - repeat constructor; lia.
  - exists p'. split; [exact Hp'|exact H].
Defined.

End PipeWitness.
