(* ===== verification/File.v ===== *)
(** Open files, src/src/file.c, and pipealloc of src/src/pipe.c. *)

From stdpp Require Import base gmap list strings.
From Stdlib Require Import ZArith Lia.
From S2P Require Import Prelude Mem Str Mmu State Kalloc MemTable Vm Sched Fsys Bio Log Inode Console Fs Pipe.

Definition file0 : file :=
  {| f_type := FD_NONE; f_ref := 0; f_readable := 0; f_writable := 0;
     f_pipe := 0; f_ip := None; f_off := 0 |}.

Definition ftable_acquire : M kernel unit :=
  facquire (fun x => ft_lock (x_ftable x)) (fun b x => x <| x_ftable ::= fun c => c <| ft_lock := b |> |>).
Definition ftable_release : M kernel unit :=
  frelease (fun x => ft_lock (x_ftable x)) (fun b x => x <| x_ftable ::= fun c => c <| ft_lock := b |> |>).

(** The first file that is not referenced. *)
Definition free_file (l : list file) : option nat := fst <$> list_find (fun f => f_ref f = 0) l.

Definition filealloc : M kernel (option nat) :=
  ftable_acquire ;;;
  t <- fget x_ftable ;;
  match free_file (ft_file t) with
  | Some f =>
      upd_file f (fun x => x <| f_ref := 1 |>) ;;;
      ftable_release ;;;
      ret (Some f)
  | None =>
      ftable_release ;;;
      ret None
  end.

Definition filedup (f : nat) : M kernel nat :=
  ftable_acquire ;;;
  x <- get_file f ;;
  if f_ref x <? 1 then panic "filedup"
  else
    upd_file f (fun x => x <| f_ref ::= fun n => n + 1 |>) ;;;
    ftable_release ;;;
    ret f.

(** [f->ip] where the code dereferences it. *)
Definition file_ip (x : file) : M kernel nat :=
  match f_ip x with
  | Some ip => ret ip
  | None => crash "null inode"
  end.

Section File.
Context {KI : KernelImage}.

Definition fileclose (f : nat) : M kernel unit :=
  ftable_acquire ;;;
  x <- get_file f ;;
  if f_ref x <? 1 then panic "fileclose"
  else
    upd_file f (fun x => x <| f_ref ::= fun n => n - 1 |>) ;;;
    ff <- get_file f ;;
    if 0 <? f_ref ff then ftable_release
    else
      upd_file f (fun x => x <| f_ref := 0 |> <| f_type := FD_NONE |>) ;;;
      ftable_release ;;;
      match f_type ff with
      | FD_PIPE => pipeclose (f_pipe ff) (negb (f_writable ff =? 0))
      | FD_INODE =>
          begin_op ;;;
          ip <- file_ip ff ;;
          iput ip ;;;
          end_op
      | FD_NONE => ret tt
      end.

(** The C result and the stat structure filled in. *)
Definition filestat (f : nat) : M kernel (Z * option stat) :=
  x <- get_file f ;;
  match f_type x with
  | FD_INODE =>
      ilock (f_ip x) ;;;
      ip <- file_ip x ;;
      st <- stati ip ;;
      iunlock (f_ip x) ;;;
      ret (0, Some st)
  | _ => ret (-1, None)
  end.

(** The C result and the bytes stored at addr. *)
Definition fileread (f : nat) (n : Z) : M kernel (Z * list Z) :=
  x <- get_file f ;;
  if f_readable x =? 0 then ret (-1, [])
  else
    match f_type x with
    | FD_PIPE => piperead (f_pipe x) n
    | FD_INODE =>
        ilock (f_ip x) ;;;
        ip <- file_ip x ;;
        let* (r, bytes) := readi ip (f_off x) (u32 n) ;;
        when (0 <? r) (upd_file f (fun x => x <| f_off ::= fun o => u32 (o + r) |>)) ;;;
        iunlock (f_ip x) ;;;
        ret (r, bytes)
    | FD_NONE => panic "fileread"
    end.

(** The most bytes a transaction of filewrite takes. *)
Definition write_max : Z := ((MAXOPBLOCKS - 1 - 1 - 2) / 2) * 512.

(** The loop of filewrite: [addr] is left to write, [i] is written. *)
Fixpoint filewrite_loop (fuel : nat) (f : nat) (addr : list Z) (i n : Z) : M kernel Z :=
  if i <? n then
    match fuel with
    | O => no_fuel
    | S fuel =>
        let n1 := Z.min (n - i) write_max in
        begin_op ;;;
        x <- get_file f ;;
        ilock (f_ip x) ;;;
        ip <- file_ip x ;;
        r <- writei ip (take (Z.to_nat n1) addr) (f_off x) ;;
        when (0 <? r) (upd_file f (fun x => x <| f_off ::= fun o => u32 (o + r) |>)) ;;;
        iunlock (f_ip x) ;;;
        end_op ;;;
        if r <? 0 then ret (if i =? n then n else -1)
        else if negb (r =? n1) then panic "short filewrite"
        else filewrite_loop fuel f (drop (Z.to_nat n1) addr) (i + r) n
    end
  else ret (if i =? n then n else -1).

(** [addr] holds the [n] bytes of the buffer (none when [n] is negative). *)
Definition filewrite (f : nat) (addr : list Z) (n : Z) : M kernel Z :=
  x <- get_file f ;;
  if f_writable x =? 0 then ret (-1)
  else
    match f_type x with
    | FD_PIPE => pipewrite (f_pipe x) addr n
    | FD_INODE => filewrite_loop (Z.to_nat (n / write_max + 1)) f addr 0 n
    | FD_NONE => panic "filewrite"
    end.

Definition pipe0 : pipe :=
  {| pi_lock := false; pi_data := ∅; pi_nread := 0; pi_nwrite := 0;
     pi_readopen := true; pi_writeopen := true |}.

(** The read end and the write end, or the failure -1.  The bytes of a new pipe
    are never read before they are written. *)
Definition pipealloc : M kernel (option (nat * nat)) :=
  f0 <- filealloc ;;
  match f0 with
  | None => ret None
  | Some f0 =>
      f1 <- filealloc ;;
      match f1 with
      | None => fileclose f0 ;;; ret None
      | Some f1 =>
          a <- kalloc ;;
          if a =? 0 then
            fileclose f0 ;;;
            fileclose f1 ;;;
            ret None
          else
            put_pipe a pipe0 ;;;
            upd_file f0 (fun x => x <| f_type := FD_PIPE |> <| f_readable := 1 |> <| f_writable := 0 |> <| f_pipe := a |>) ;;;
            upd_file f1 (fun x => x <| f_type := FD_PIPE |> <| f_readable := 0 |> <| f_writable := 1 |> <| f_pipe := a |>) ;;;
            ret (Some (f0, f1))
      end
  end.

End File.
