(* ===== verification/FileWrite.v ===== *)
(** Writing and reading through a file descriptor: filewrite and fileread of
    src/src/file.c over transactions, inode locks and the log. *)

From stdpp Require Import base gmap list strings.
From Stdlib Require Import ZArith Lia.
From S2P Require Import Prelude Mem Str Mmu State Kalloc MemTable Vm Sched Fsys Bio Cache Log Crash Transaction Inode Alloc FileData Console Fs Files Pipe File.

Section FileWrite.
Context (p : nat) (pr : proc) (start : Z).
Implicit Types (s : kernel) (x : fsys) (V : Z -> mem) (i : inode) (d : disk) (T : list Z).

(** ** Transactions *)

Definition log_by (n : Z) : log_use := {| lu_start := start; lu_dev := 1; lu_outstanding := n; lu_committing := false |}.

(** No operation is running, and what the cache holds is what the disk holds. *)
Record quiet s x d : Prop := {
  qu_at : fs_at p pr (log_by 0) s x (disk_read d) d [] [];
  qu_header : header_is (disk_read d start) []
}.

Lemma begin_ok s x V d : fs_at p pr (log_by 0) s x V d [] [] ->
  wp begin_op s (fun _ s' => fs_at p pr (log_by 1) s' x V d [] []).
Proof.
  intros [[E B G] Hf]. destruct G as [G1 G2 G3 G4 G5 G6]. injection G6 as U1 U2 U3 U4.
  eapply wp_eq; [apply begin_op_eq; [done|done|rewrite G2, U3; done]|]. rewrite U3.
  split; [|done]. split; [by destruct E|by destruct B|]. constructor; cbn; try done. unfold use_of, log_by. cbn. by rewrite U1, U2, U4.
Qed.

(** A log record that differs only in its in-memory lock and counters. *)
Lemma at_with_log w w' s x V d T L l : fs_at p pr w s x V d T L -> logged w' l T -> fs_at p pr w' (with_log l s) x V d T L.
Proof. intros [[E B G] Hf] G'. split; [|done]. split; [by destruct E|by destruct B|done]. Qed.

Lemma at_woken w s x V d T L chan : fs_at p pr w s x V d T L -> fs_at p pr w (woken chan s) x V d T L.
Proof. intros [[E B G] Hf]. split; [|done]. split; [by apply env_woken|by destruct B|done]. Qed.

Lemma at_not_logged w s x V d T b : fs_at p pr w s x V d T [] -> b ∉ T -> V b = disk_read d b.
Proof. intros A Hb. destruct (at_clean p pr w s x V d T [] b A ltac:(apply not_elem_of_nil)); done. Qed.

(** commit writes the blocks of the log to the disk, if there are any. *)
Lemma commit_tx s x V d T n c : let w := {| lu_start := start; lu_dev := 1; lu_outstanding := n; lu_committing := c |} in
  fs_at p pr w s x V d T [] -> log_layout start T -> (T = [] -> header_is (disk_read d start) []) ->
  wp commit s (fun _ s' => exists d', fs_at p pr w s' x (disk_read d') d' [] [] /\ header_is (disk_read d' start) [] /\
    forall b, ~ in_log start b -> disk_read d' b = V b).
Proof.
  intros w A LL Hh. pose proof A as [[E B G] Hf]. destruct T as [|t T'] eqn:ET.
  - unfold commit, get_log, fget. wp_steps. rewrite (ld_n _ _ _ G). cbn [length Z.of_nat Z.ltb Z.compare]. unfold when. wp_steps. exists d.
    assert (forall b, V b = disk_read d b) as HV by (intros b; apply (at_not_logged w s x V d []); [done|apply not_elem_of_nil]).
    split; [|split; [by apply Hh|intros b _; symmetry; apply HV]]. split; [|done]. split; [done| |done].
    by eapply blocks_at_ext; [exact B| |].
  - rewrite <- ET in *. pose proof G as [G1 G2 G3 G4 G5 G6]. injection G6 as U1 U2 U3 U4.
    eapply wp_mono; [apply (commit_ok p pr start T LL s V d); [by rewrite ET|done|done|constructor; try done; lia]|].
    cbn beta. intros [] s' (E' & L' & Sf & Elog & V' & B').
    assert (forall b, b ∉ T -> V b = disk_read d b) as HV by (intros b; by apply (at_not_logged w s x V d T)).
    destruct (crash_done start T LL V d HV) as [Hd1 Hd2]. exists (apply_writes d (commit_writes start T V)).
    split; [|by split]. split; [|by rewrite Sf]. split; [done| |].
    + eapply blocks_at_ext; [exact B'| |].
      * intros b. rewrite <- (ba_view _ _ _ _ _ B'). apply (cur_unpinned _ _ _ (ba_inv _ _ _ _ _ B')); [intros; apply not_elem_of_nil|].
        intros Hp. by apply (ba_pin _ _ _ _ _ B') in Hp.
      * intros b. by rewrite elem_of_nil.
    + rewrite Elog. constructor; cbn; try done. unfold use_of, w. cbn. by rewrite U1, U2, U3, U4.
Qed.

(** The last operation commits. *)
Lemma end_ok s x V d T : fs_at p pr (log_by 1) s x V d T [] -> log_layout start T -> (T = [] -> header_is (disk_read d start) []) ->
  wp end_op s (fun _ s' => exists d', quiet s' x d' /\ forall b, ~ in_log start b -> disk_read d' b = V b).
Proof.
  intros A LL Hh. pose proof A as [[E B G] Hf]. pose proof G as [G1 G2 G3 G4 G5 G6]. injection G6 as U1 U2 U3 U4.
  set (l := x_log (k_fs s)) in *. set (l1 := l <| lg_outstanding := 0 |> <| lg_committing := true |>).
  assert (end_op s = (commit ;;; log_acquire ;;; upd_log (fun l => l <| lg_committing := false |>) ;;; wakeup log_chan ;;; log_release)
    (with_log l1 s)) as Eend.
  { destruct s as [? ? ? ? ? ? ? ? ? ? ? ? ? ? ? [? ? l0]]. destruct l0 as [a1 a2 a3 a4 a5 a6 a7 a8]. cbn in l, U3, U4, G1. subst. reflexivity. }
  unfold wp at 1. rewrite Eend. apply wp_bind.
  assert (fs_at p pr {| lu_start := start; lu_dev := 1; lu_outstanding := 0; lu_committing := true |} (with_log l1 s) x V d T []) as A1.
  { apply (at_with_log (log_by 1)); [done|]. constructor; cbn; try done. unfold use_of, l1. cbn. by rewrite U1, U2. }
  eapply wp_mono; [apply (commit_tx _ x V d T 0 true A1 LL Hh)|]. cbn beta. intros [] s2 (d' & A2 & Hd1 & Hd2).
  pose proof A2 as [[E2 B2 [L1 L2 L3 L4 L5 L6]] Hf2]. injection L6 as W1 W2 W3 W4. set (l2 := x_log (k_fs s2)) in *.
  eapply wp_eq with (a := tt) (s' := woken log_chan (with_log (l2 <| lg_committing := false |>) s2)).
  { pose proof (en_lock _ _ _ E2) as El. destruct s2 as [? ? ? ? ? ? pl ? ? ? ? ? ? ? ? [? ? l0]]. destruct l0 as [a1 a2 a3 a4 a5 a6 a7 a8].
    cbn in l2, L1, El. subst. reflexivity. }
  exists d'. split; [|done]. split; [|done]. apply at_woken. apply (at_with_log _ _ _ _ _ _ _ _ _ A2).
  constructor; cbn; try done. unfold use_of, log_by. cbn. by rewrite W1, W2, W3.
Qed.

(** ** Locks and descriptors *)

Definition locked_by_us : sleeplock := {| sl_locked := true; sl_pid := p_pid pr |}.

Lemma ilock_ok w s x V d T L ip i : fs_at p pr w s x V d T L -> ic_inode (x_icache x) !! ip = Some i -> 1 <= i_ref i -> i_valid i = true ->
  sl_locked (i_lock i) = false -> wp (ilock (Some ip)) s (fun _ s' => fs_at p pr w s' (put_inode ip (i <| i_lock := locked_by_us |>) x) V d T L).
Proof.
  intros A Hi Hr Hv Hl. unfold ilock. apply wp_bind. eapply wp_eq; [by eapply at_inode|].
  destruct (Z.ltb_spec (i_ref i) 1); [lia|]. unfold acquiresleep, inode_lock. apply wp_bind, wp_bind, wp_bind. eapply wp_eq; [by eapply at_inode|].
  apply wp_ret. rewrite Hl. pose proof A as [[[C1 C2 _ _] _ _] _]. apply wp_bind. eapply wp_eq; [unfold myproc; by rewrite C1|].
  apply wp_bind. eapply wp_eq; [unfold get_proc; by rewrite C2|]. unfold set_inode_lock.
  eapply wp_mono; [by eapply at_upd_inode|]. cbn beta. intros [] s1 A1. apply wp_bind.
  eapply wp_eq; [eapply at_inode; [exact A1|by eapply put_lookup]|]. fold locked_by_us. change (i_valid (i <| i_lock := locked_by_us |>)) with (i_valid i). rewrite Hv. unfold when. wp_steps. exact A1.
Qed.

Lemma iunlock_ok w s x V d T L ip i : fs_at p pr w s x V d T L -> ic_inode (x_icache x) !! ip = Some i -> 1 <= i_ref i ->
  sl_locked (i_lock i) = true -> wp (iunlock (Some ip)) s (fun _ s' => fs_at p pr w s' (put_inode ip (i <| i_lock := initsleeplock |>) x) V d T L).
Proof.
  intros A Hi Hr Hl. unfold iunlock. apply wp_bind, wp_bind, wp_bind. eapply wp_eq; [by eapply at_inode|]. apply wp_ret, wp_ret.
  apply wp_bind. eapply wp_eq; [by eapply at_inode|]. rewrite Hl. destruct (Z.ltb_spec (i_ref i) 1); [lia|]. cbn [negb orb].
  unfold releasesleep, set_inode_lock. apply wp_bind. eapply wp_mono; [by eapply at_upd_inode|]. cbn beta. intros [] s1 A1.
  eapply wp_eq; [apply wakeup_eq; apply (en_lock _ _ _ (tx_env _ _ _ _ _ _ _ _ (fa_tx _ _ _ _ _ _ _ _ _ A1)))|]. by apply at_woken.
Qed.

Lemma at_file w s x V d T L f fl : fs_at p pr w s x V d T L -> ft_file (x_ftable x) !! f = Some fl -> get_file f s = Ret fl s.
Proof. intros [_ Hf] Hi. unfold get_file, tget. injection Hf as _ -> _ _. by rewrite Hi. Qed.

Definition put_file (f : nat) (fl : file) x : fsys := x <| x_ftable ::= fun c => c <| ft_file ::= <[f := fl]> |> |>.

Lemma put_file_same f fl x : ft_file (x_ftable x) !! f = Some fl -> files (put_file f fl x) = files x.
Proof. intros H. destruct x as [? ? ? ? ? [? ?]]. unfold files, put_file. cbn in *. by rewrite list_insert_id. Qed.

Lemma at_upd_file w s x V d T L f fl g : fs_at p pr w s x V d T L -> ft_file (x_ftable x) !! f = Some fl ->
  wp (upd_file f g) s (fun _ s' => fs_at p pr w s' (put_file f (g fl) x) V d T L).
Proof.
  intros A Hi. unfold upd_file. apply wp_bind. eapply wp_eq; [by eapply at_file|].
  eapply wp_eq; [reflexivity|]. destruct A as [[E B G] Hf]. split.
  - split; [by destruct E|by destruct B|by destruct G].
  - unfold files in *. cbn. injection Hf as -> -> -> ->. by rewrite (alter_put _ _ _ _ Hi).
Qed.

(** ** Files on disk *)

(** The bytes [l] have gone into the file at [off], with at most [k] new blocks; everything else on the disk
    outside the log is as it was. *)
Record stored (sb : superblock) V i (off : Z) (l : list Z) (k : Z) V' i' : Prop := {
  st_file : file_ok sb V' i';
  st_size' : i_size i' = Z.max (i_size i) (off + Z.of_nat (length l));
  st_contents : contents V' i' = splice (contents V i) (Z.to_nat off) l;
  st_inode : i' = i <| i_addrs := i_addrs i' |> <| i_size := i_size i' |> <| i_lock := i_lock i' |>;
  st_free : Z.of_nat (free_count sb V) <= Z.of_nat (free_count sb V') + k;
  st_used : forall c, used sb V c -> used sb V' c;
  st_frame : forall c, ~ in_log start c -> used sb V c -> c <> sb_bmapstart sb -> c <> iblock sb i -> ~ owned V i c -> V' c = V c;
  st_new : forall c, owned V' i' c -> owned V i c \/ ~ used sb V c;
  st_inodes : forall k, k < dinode_off (i_inum i) \/ dinode_off (i_inum i) + DINODE_SIZE <= k ->
    load8 (V' (iblock sb i)) k = load8 (V (iblock sb i)) k;
  st_fits : inode_fits i -> inode_fits i';
  st_disk : inode_fits i -> disk_inode sb V i -> disk_inode sb V' i'
}.

Lemma stored_nil sb V i off : file_ok sb V i -> 0 <= off <= i_size i -> stored sb V i off [] 0 V i.
Proof.
  intros F Hoff. constructor; auto; try lia; try (cbn; lia); [|by destruct i].
  unfold splice. cbn. by rewrite Nat.add_0_r, take_drop.
Qed.

Lemma stored_trans sb V i off l k V1 i1 l' k' V2 i2 : 0 <= off <= i_size i ->
  stored sb V i off l k V1 i1 -> stored sb V1 i1 (off + Z.of_nat (length l)) l' k' V2 i2 -> stored sb V i off (l ++ l') (k + k') V2 i2.
Proof.
  intros Hoff [A1 A2 A3 A4 A5 A6 A7 A8 A9 A10 A11] [B1 B2 B3 B4 B5 B6 B7 B8 B9 B10 B11].
  assert (i_inum i1 = i_inum i) as En by (by rewrite A4). assert (iblock sb i1 = iblock sb i) as Eb by (unfold iblock; by rewrite En).
  rewrite Eb, En in *. constructor; auto; try lia.
  - rewrite length_app. lia.
  - rewrite B3, A3, Z2Nat.inj_add, Nat2Z.id by lia. apply splice_splice. unfold contents. rewrite file_bytes_length. lia.
  - rewrite B4, A4. by destruct i.
  - intros c H1 H2 H3 H4 H5. rewrite B7; auto. intros [?|?]%A8; auto.
  - intros c [?|?]%B8; auto.
  - intros j Hj. rewrite B9, A9 by done. done.
Qed.

(** The locks of the inode in memory are not part of the file. *)
Lemma file_ok_lock sb V i k : file_ok sb V i -> file_ok sb V (i <| i_lock := k |>).
Proof. intros []. by constructor. Qed.

Lemma disk_inode_lock sb V i k : disk_inode sb V i -> disk_inode sb V (i <| i_lock := k |>).
Proof.
  unfold disk_inode. intros E. change (iblock sb (i <| i_lock := k |>)) with (iblock sb i).
  change (dinode_load ?m ?o (i <| i_lock := k |>)) with ((dinode_load m o i) <| i_lock := k |>). by rewrite E at 1.
Qed.

(** What writei has done in memory, the commit brings to the disk. *)
Lemma write_stored x V T i off src V' T' i2 k W : sl_locked (i_lock i) = false -> file_ok (x_sb x) V' i2 ->
  write_post x V T (i <| i_lock := k |>) off src V' T' i2 -> start + LOGSIZE <= iblock (x_sb x) i -> (forall b, ~ in_log start b -> W b = V' b) ->
  stored (x_sb x) V i off src (2 * span off (Z.of_nat (length src))) W (i2 <| i_lock := initsleeplock |>).
Proof.
  intros Hl F2 P Hst HW. pose proof P as [P1 P2 P3 P4 P5 P6 P7 P8 P9 P10 P11 P12].
  assert (iblock (x_sb x) i2 = iblock (x_sb x) i) as Eb by (unfold iblock; by rewrite P6).
  assert (agree (x_sb x) i2 V' W) as A by (intros c Hc; apply HW; unfold in_log; lia).
  constructor.
  - by apply file_ok_lock, (agree_ok _ V').
  - done.
  - etransitivity; [apply (agree_contents _ V' W i2 F2 A)|exact P2].
  - rewrite P6. by destruct i.
  - rewrite (free_count_ext _ V' W); [exact P5|]. apply A. pose proof (fo_iblock _ _ _ F2). lia.
  - intros c Hc. apply (agree_used _ V' W i2 c F2 A). auto.
  - intros c H1 H2 H3 H4 H5. rewrite HW by done. by apply P8.
  - intros c Hc. apply P9. by apply (agree_owned _ V' W i2 c F2 A).
  - intros j Hj. rewrite A by lia. by apply P10.
  - intros Hf. destruct P11 as [? ? ? ?]; [by destruct Hf|]. by constructor.
  - intros Hf Hd. apply disk_inode_lock. assert (disk_inode (x_sb x) V' i2) as Hd2.
    { apply P12; [by destruct Hf|]. by apply disk_inode_lock. }
    unfold disk_inode in *. rewrite A by lia. exact Hd2.
Qed.

(** ** filewrite *)

(** The descriptor [f] is open on the inode [i], which is in memory and not locked. *)
Record open_file x (f ip : nat) (fl : file) i : Prop := {
  of_file : ft_file (x_ftable x) !! f = Some fl;
  of_type : f_type fl = FD_INODE;
  of_ip : f_ip fl = Some ip;
  of_inode : ic_inode (x_icache x) !! ip = Some i;
  of_ref : 1 <= i_ref i;
  of_valid : i_valid i = true;
  of_lock : sl_locked (i_lock i) = false
}.

(** The state of the tables after the descriptor has moved and the inode has changed. *)
Definition moved (f ip : nat) (fl : file) (off : Z) i x : fsys := put_file f (fl <| f_off := off |>) (put_inode ip i x).

Lemma span_max off n : 0 <= n <= write_max -> 0 <= span off n <= 4.
Proof. unfold write_max, span, BSIZE, MAXOPBLOCKS. change ((10 - 1 - 1 - 2) / 2 * 512) with 1536. dlia. Qed.

Lemma at_files w s x x' V d T L : fs_at p pr w s x V d T L -> files x' = files x -> fs_at p pr w s x' V d T L.
Proof. intros [A Hf] E. split; [done|]. by rewrite E. Qed.

Lemma stored_weaken sb V i off l k k' V' i' : stored sb V i off l k V' i' -> k <= k' -> stored sb V i off l k' V' i'.
Proof. intros [] Hk. constructor; auto. lia. Qed.

(** One transaction of filewrite. *)
Lemma chunk_ok s x d f ip fl i src : let n := Z.of_nat (length src) in
  quiet s x d -> open_file x f ip fl i -> file_ok (x_sb x) (disk_read d) i -> is_bytes src -> 0 < n <= write_max ->
  0 <= f_off fl <= i_size i -> f_off fl + n <= MAXFILE * BSIZE -> 0 <= start -> start + LOGSIZE <= iblock (x_sb x) i ->
  8 <= Z.of_nat (free_count (x_sb x) (disk_read d)) ->
  wp (begin_op ;;;
      y <- get_file f ;;
      ilock (f_ip y) ;;;
      ip <- file_ip y ;;
      r <- writei ip src (f_off y) ;;
      when (0 <? r) (upd_file f (fun y => y <| f_off ::= fun o => u32 (o + r) |>)) ;;;
      iunlock (f_ip y) ;;;
      end_op ;;;
      ret r) s
    (fun r s' => r = n /\ exists d' i', quiet s' (moved f ip fl (f_off fl + n) i' x) d' /\
      stored (x_sb x) (disk_read d) i (f_off fl) src 8 (disk_read d') i' /\ sl_locked (i_lock i') = false).
Proof.
  intros n [A Hh] [O1 O2 O3 O4 O5 O6 O7] F Hb Hn Hoff Hmax Hst Hib Hfree. pose proof (span_max (f_off fl) n ltac:(lia)) as Hspan.
  apply wp_bind. eapply wp_mono; [by apply begin_ok|]. cbn beta. intros [] s1 A1.
  apply wp_bind. eapply wp_eq; [by eapply at_file|]. rewrite O3.
  apply wp_bind. eapply wp_mono; [by eapply ilock_ok|]. cbn beta. intros [] s2 A2.
  unfold file_ip at 1. rewrite O3. apply wp_bind, wp_ret. apply wp_bind. set (i1 := i <| i_lock := locked_by_us |>) in *.
  assert (open_at p pr (log_by 1) ip s2 x (disk_read d) d [] i1) as Op.
  { constructor; [exact A2|by eapply lookup_lt_Some|by apply file_ok_lock]. }
  eapply wp_mono; [apply (writei_ok p pr (log_by 1) ip ltac:(done) s2 x _ d [] i1 src (f_off fl) Op); try done; try (fold n; lia)|].
  { apply NoDup_nil_2. }
  { cbn [length]. fold n. change LOGSIZE with 30. lia. }
  cbn beta. intros r s3 (-> & V' & T' & i2 & [A3 Hs3 F3] & P). fold n.
  destruct (Z.ltb_spec 0 n); [|lia]. unfold when. change (MAXFILE * BSIZE) with 71680 in Hmax.
  apply wp_bind. eapply wp_mono; [by apply (at_upd_file _ _ _ _ _ _ _ f fl _ A3)|]. cbn beta. intros [] s4 A4.
  assert (ic_inode (x_icache x) !! ip = Some i -> ic_inode (x_icache (put_inode ip i2 x)) !! ip = Some i2) as Hput by (apply put_lookup).
  pose proof (wo_inode _ _ _ _ _ _ _ _ _ P) as Ei2.
  apply wp_bind. eapply wp_mono; [apply (iunlock_ok _ _ _ _ _ _ _ ip i2 A4 (Hput O4)); rewrite Ei2; done|]. cbn beta. intros [] s5 A5.
  apply wp_bind. eapply wp_mono; [apply (end_ok s5 _ V' d T' A5); [|done]|].
  { pose proof (wo_log _ _ _ _ _ _ _ _ _ P) as [Hnd Hlen]. fold n in Hlen. cbn [length] in Hlen.
    pose proof (fo_iblock _ _ _ F). pose proof (fo_bitmap _ _ _ F) as [B1 B2 _].
    constructor; [done|lia|change LOGSIZE with 30; lia|done|]. intros h Hin.
    destruct (wo_homes _ _ _ _ _ _ _ _ _ P h Hin) as [?%elem_of_nil|Hr]; [done|].
    change (iblock (x_sb x) i1) with (iblock (x_sb x) i) in Hr. lia. }
  cbn beta. intros [] s6 (d' & [A6 Hh6] & HW). wp_steps. split; [done|]. exists d', (i2 <| i_lock := initsleeplock |>).
  split_and!; [|eapply stored_weaken; [eapply write_stored; [exact O7|exact F3|exact P|done|exact HW]|fold n; lia]|done].
  split; [|done]. eapply at_files; [exact A6|]. unfold moved. rewrite <- (put_put ip (i2 <| i_lock := initsleeplock |>) i2 x).
  change (fl <| f_off ::= fun o => u32 (o + n) |>) with (fl <| f_off := u32 (f_off fl + n) |>). rewrite u32_small by lia. done.
Qed.

Lemma moved_moved f ip fl off i off' i' x :
  files (moved f ip (fl <| f_off := off |>) off' i' (moved f ip fl off i x)) = files (moved f ip fl off' i' x).
Proof. unfold files, moved, put_file, put_inode. cbn. by rewrite !list_insert_insert_eq. Qed.

Lemma moved_same f ip fl i x : open_file x f ip fl i -> files (moved f ip fl (f_off fl) i x) = files x.
Proof.
  intros O. unfold files, moved, put_file, put_inode. destruct x as [? ? ? ? [? ii] [? ff]]. cbn.
  destruct O as [O1 _ _ O4 _ _ _]. cbn in O1, O4.
  rewrite (list_insert_id ii ip i), (list_insert_id ff f) by (done || by rewrite O1; destruct fl). done.
Qed.

Lemma open_moved x f ip fl i off i' sb V V' l k o : open_file x f ip fl i -> stored sb V i o l k V' i' -> sl_locked (i_lock i') = false ->
  open_file (moved f ip fl off i' x) f ip (fl <| f_off := off |>) i'.
Proof.
  intros [O1 O2 O3 O4 O5 O6 O7] S Hl. pose proof (st_inode _ _ _ _ _ _ _ _ S) as Ei. constructor; try done.
  - apply list_lookup_insert_eq. by eapply lookup_lt_Some.
  - apply list_lookup_insert_eq. by eapply lookup_lt_Some.
  - by rewrite Ei.
  - by rewrite Ei.
Qed.

Lemma filewrite_loop_ok f ip : 0 <= start -> forall fuel s x d fl i src dn n,
  quiet s x d -> open_file x f ip fl i -> file_ok (x_sb x) (disk_read d) i -> is_bytes src -> n = dn + Z.of_nat (length src) -> 0 <= dn ->
  Z.of_nat (length src) <= write_max * Z.of_nat fuel -> 0 <= f_off fl <= i_size i -> f_off fl + Z.of_nat (length src) <= MAXFILE * BSIZE ->
  start + LOGSIZE <= iblock (x_sb x) i -> 8 * Z.of_nat fuel <= Z.of_nat (free_count (x_sb x) (disk_read d)) ->
  wp (filewrite_loop fuel f src dn n) s (fun r s' => r = n /\ exists d' i',
    quiet s' (moved f ip fl (f_off fl + Z.of_nat (length src)) i' x) d' /\
    stored (x_sb x) (disk_read d) i (f_off fl) src (8 * Z.of_nat fuel) (disk_read d') i' /\ sl_locked (i_lock i') = false).
Proof.
  intros Hst. induction fuel as [|fuel IH]; intros s x d fl i src dn n Q O F Hb Hn Hd Hlen Hoff Hmax Hib Hfree; cbn [filewrite_loop];
    destruct (Z.ltb_spec dn n) as [Hlt|Hge].
  1: { cbn in Hlen. lia. }
  1, 3: destruct src; [|cbn in Hn; lia]; wp_steps; cbn [length]; rewrite Z.add_0_r; split; [destruct (Z.eqb_spec dn n); cbn in Hn; lia|];
    exists d, i; (split_and!; [|eapply stored_weaken; [by apply stored_nil|lia]|apply O]); destruct Q as [A Hh]; (split; [|done]);
    (eapply at_files; [exact A|by apply moved_same]).
  set (n1 := Z.min (n - dn) write_max). set (l := take (Z.to_nat n1) src). set (l' := drop (Z.to_nat n1) src).
  assert (write_max = 1536) as Hwm by done. assert (0 < n1 <= Z.of_nat (length src) /\ n1 <= write_max) as [Hn1 Hn2] by lia.
  assert (Z.of_nat (length l) = n1) as El by (unfold l; rewrite length_take; lia).
  assert (length src = length l + length l')%nat as Els by (rewrite <- length_app; unfold l, l'; by rewrite take_drop).
  rewrite <- (take_drop (Z.to_nat n1) src) in Hb. apply Forall_app in Hb as [Hb1 Hb2]. fold l in Hb1. fold l' in Hb2.
  pose proof (chunk_ok s x d f ip fl i l Q O F Hb1 ltac:(lia) Hoff ltac:(lia) Hst Hib ltac:(lia)) as W.
  wp_follow W. destruct W as (-> & d1 & i1 & Q1 & S1 & Hl1). rewrite El.
  destruct (Z.ltb_spec n1 0); [lia|]. rewrite Z.eqb_refl. cbn [negb].
  set (x1 := moved f ip fl (f_off fl + Z.of_nat (length l)) i1 x) in *. set (fl1 := fl <| f_off := f_off fl + Z.of_nat (length l) |>).
  assert (open_file x1 f ip fl1 i1) as O1 by (by eapply open_moved).
  assert (f_off fl1 = f_off fl + Z.of_nat (length l)) as Eoff by done. assert (x_sb x1 = x_sb x) as Esb by done.
  assert (iblock (x_sb x) i1 = iblock (x_sb x) i) as Eib by (unfold iblock; by rewrite (st_inode _ _ _ _ _ _ _ _ S1)).
  pose proof (st_size' _ _ _ _ _ _ _ _ S1) as Es1. pose proof (st_free _ _ _ _ _ _ _ _ S1) as Ef1.
  eapply wp_mono; [apply (IH _ x1 d1 fl1 i1 l' (dn + n1) n Q1 O1); rewrite ?Esb, ?Eib, ?Eoff; try done; try lia; apply S1|].
  cbn beta. rewrite Eoff, Esb. intros r s2 (-> & d2 & i2 & [A2 H2] & S2 & Hl2). split; [done|]. exists d2, i2. split_and!; [|..|done].
  - split; [|done]. eapply at_files; [exact A2|]. unfold x1, fl1. rewrite moved_moved. do 2 f_equal. lia.
  - rewrite <- (take_drop (Z.to_nat n1) src). fold l l'. replace (8 * Z.of_nat (S fuel)) with (8 + 8 * Z.of_nat fuel) by lia.
    by eapply stored_trans.
Qed.

Lemma filewrite_ok s x d f ip fl i src : let n := Z.of_nat (length src) in let k := n / write_max + 1 in
  quiet s x d -> open_file x f ip fl i -> file_ok (x_sb x) (disk_read d) i -> f_writable fl <> 0 -> is_bytes src ->
  0 <= f_off fl <= i_size i -> f_off fl + n <= MAXFILE * BSIZE -> 0 <= start -> start + LOGSIZE <= iblock (x_sb x) i ->
  8 * k <= Z.of_nat (free_count (x_sb x) (disk_read d)) ->
  wp (filewrite f src n) s (fun r s' => r = n /\ exists d' i', quiet s' (moved f ip fl (f_off fl + n) i' x) d' /\
    stored (x_sb x) (disk_read d) i (f_off fl) src (8 * k) (disk_read d') i' /\ sl_locked (i_lock i') = false).
Proof.
  intros n k Q O F Hw Hb Hoff Hmax Hst Hib Hfree. unfold filewrite. apply wp_bind. eapply wp_eq; [eapply at_file; [apply Q|apply O]|].
  destruct (Z.eqb_spec (f_writable fl) 0); [done|]. rewrite (of_type _ _ _ _ _ O). assert (write_max = 1536) as Hwm by done.
  assert (0 <= k /\ n <= write_max * k) as [Hk Hnk] by (unfold k; rewrite Hwm; dlia). fold k.
  eapply wp_mono; [apply (filewrite_loop_ok f ip Hst (Z.to_nat k) s x d fl i src 0 n); try done; rewrite ?Z2Nat.id by lia; lia|].
  cbn beta. by rewrite Z2Nat.id by lia.
Qed.

(** ** fileread *)

Lemma put_moved f ip fl off i x : put_inode ip i (put_file f (fl <| f_off := off |>) x) = moved f ip fl off i x.
Proof. done. Qed.

Lemma fileread_ok s x d f ip fl i n : quiet s x d -> open_file x f ip fl i -> file_ok (x_sb x) (disk_read d) i -> f_readable fl <> 0 ->
  0 <= f_off fl <= i_size i -> 0 <= n < 2 ^ 31 ->
  let b := take (Z.to_nat n) (drop (Z.to_nat (f_off fl)) (contents (disk_read d) i)) in
  wp (fileread f n) s (fun r s' => r = (Z.of_nat (length b), b) /\
    quiet s' (moved f ip fl (f_off fl + Z.of_nat (length b)) (i <| i_lock := initsleeplock |>) x) d).
Proof.
  intros [A Hh] O F Hr Hoff Hn b. pose proof O as [O1 O2 O3 O4 O5 O6 O7]. unfold fileread. apply wp_bind. eapply wp_eq; [by eapply at_file|].
  destruct (Z.eqb_spec (f_readable fl) 0); [done|]. rewrite O2, O3.
  apply wp_bind. eapply wp_mono; [by eapply ilock_ok|]. cbn beta. intros [] s2 A2.
  unfold file_ip at 1. rewrite O3. apply wp_bind, wp_ret. set (i1 := i <| i_lock := locked_by_us |>) in *.
  assert (open_at p pr (log_by 0) ip s2 x (disk_read d) d [] i1) as Op.
  { constructor; [exact A2|by eapply lookup_lt_Some|by apply file_ok_lock]. }
  rewrite u32_small by lia. apply wp_bind. eapply wp_mono; [by apply (readi_ok p pr (log_by 0) ip s2 x _ d [] i1 (f_off fl) n Op)|].
  cbn beta. intros r s3 [[A3 Hs3 F3] Er]. change (contents (disk_read d) i1) with (contents (disk_read d) i) in Er. cbn zeta in Er. fold b in Er.
  subst r. cbn beta iota. pose proof (fo_size _ _ _ F) as Hsz. change (MAXFILE * BSIZE) with 71680 in Hsz.
  assert (Z.of_nat (length b) <= i_size i - f_off fl) as Hlb.
  { unfold b. rewrite length_take, length_drop. unfold contents. rewrite file_bytes_length. lia. }
  set (m := Z.of_nat (length b)) in *. apply wp_bind.
  assert (wp (when (0 <? m) (upd_file f (fun y => y <| f_off ::= fun o => u32 (o + m) |>))) s3
    (fun _ s' => fs_at p pr (log_by 0) s' (put_file f (fl <| f_off := f_off fl + m |>) (put_inode ip i1 x)) (disk_read d) d [] [])) as W.
  { destruct (Z.ltb_spec 0 m) as [Hm|Hm]; unfold when.
    - eapply wp_mono; [by apply (at_upd_file _ _ _ _ _ _ _ f fl _ A3)|]. cbn beta. intros [] s4 A4.
      change (fl <| f_off ::= fun o => u32 (o + m) |>) with (fl <| f_off := u32 (f_off fl + m) |>) in A4. by rewrite u32_small in A4 by lia.
    - wp_steps. eapply at_files; [exact A3|]. replace (f_off fl + m) with (f_off fl) by lia.
      replace (fl <| f_off := f_off fl |>) with fl by (by destruct fl). by apply put_file_same. }
  eapply wp_mono; [exact W|]. cbn beta. intros [] s4 A4. apply wp_bind.
  eapply wp_mono; [apply (iunlock_ok _ _ _ _ _ _ _ ip i1 A4); [by apply slot_put|done|done]|]. cbn beta. intros [] s5 A5. wp_steps.
  split; [done|]. split; [|done]. eapply at_files; [exact A5|]. rewrite put_moved.
  unfold files, moved, put_file, put_inode. cbn. by rewrite list_insert_insert_eq.
Qed.

End FileWrite.
