(* ===== verification/Descriptors.v ===== *)
(** What a process sees of a file through its descriptors: filewrite and
    fileread of src/src/file.c end to end, over the block allocator, the log and
    a crash. *)

From stdpp Require Import base gmap list strings.
From Stdlib Require Import ZArith Lia.
From S2P Require Import Prelude Mem Str Mmu State Kalloc MemTable Vm Sched Fsys Bio Cache Log Crash Transaction Inode Alloc FileData Console Fs Files Pipe File FileWrite.

(** ** Other files *)

Section Others.
Context (start : Z) (sb : superblock) (V : Z -> mem) (i : inode) (off : Z) (l : list Z) (k : Z) (V' : Z -> mem) (i' : inode).
Context (S : stored start sb V i off l k V' i') (F : file_ok sb V i).

Lemma owned_high c : owned V i c -> sb_bmapstart sb < c.
Proof. intros (Hc & pl & Hv & E). destruct (fo_data _ _ _ F pl Hv); [congruence|]. lia. Qed.

(** A block of the file system's own, before the data blocks. *)
Lemma meta_kept c : ~ in_log start c -> 0 <= c < sb_bmapstart sb -> c <> iblock sb i -> V' c = V c.
Proof.
  intros Hl Hc Hi. apply (st_frame _ _ _ _ _ _ _ _ _ S); [done| |lia|done|].
  - apply (bo_meta _ _ (fo_bitmap _ _ _ F)). lia.
  - intros ?%owned_high. lia.
Qed.

Context (j : inode) (Fj : file_ok sb V j) (Hne : i_inum j <> i_inum i) (Hstart : start + LOGSIZE <= sb_inodestart sb).
Context (Hj : sb_inodestart sb <= iblock sb j).
Context (Hdisj : forall c, owned V i c -> ~ owned V j c).

Lemma other_block c : owned V j c -> V' c = V c.
Proof.
  intros Ho. pose proof Ho as (Hc & pl & Hv & E). destruct (fo_data _ _ _ Fj pl Hv) as [Hr Hu]; [congruence|]. rewrite E in Hr, Hu.
  pose proof (fo_iblock _ _ _ Fj). pose proof (fo_iblock _ _ _ F).
  apply (st_frame _ _ _ _ _ _ _ _ _ S); [unfold in_log; lia|done|lia|lia|]. intros Hi. by apply (Hdisj c).
Qed.

Lemma other_file : file_ok sb V' j.
Proof.
  apply (kept_file sb V V' j Fj other_block); [|apply (st_used _ _ _ _ _ _ _ _ _ S)]. apply (st_file _ _ _ _ _ _ _ _ _ S).
Qed.

Lemma other_contents : contents V' j = contents V j.
Proof. apply (kept_contents sb V V' j Fj other_block). Qed.

Lemma other_inode : disk_inode sb V j -> disk_inode sb V' j.
Proof.
  unfold disk_inode. intros E. rewrite <- E at 4. destruct (decide (iblock sb j = iblock sb i)) as [Eb|Hb].
  - apply dinode_load_ext. intros b Hb. rewrite Eb. apply (st_inodes _ _ _ _ _ _ _ _ _ S).
    unfold iblock, IBLOCK in Eb. unfold dinode_off, DINODE_SIZE, IPB, BSIZE in *. change (512 / 64) with 8 in *. dlia.
  - pose proof (fo_iblock _ _ _ Fj). rewrite meta_kept; [done|unfold in_log; lia|lia|done].
Qed.

End Others.

(** ** Writing and reading *)

(** The state in which the write is made: no operation is running, [f] is a descriptor on the inode [i], the
    bytes fit in the largest file and the disk has room for them. *)
Record can_write (p : nat) (pr : proc) (start : Z) (s : kernel) (x : fsys) (d : disk) (f ip : nat) (fl : file) (i : inode)
  (src : list Z) : Prop := {
  cw_quiet : quiet p pr start s x d;
  cw_open : open_file x f ip fl i;
  cw_file : file_ok (x_sb x) (disk_read d) i;
  cw_writable : f_writable fl <> 0;
  cw_bytes : is_bytes src;
  cw_off : 0 <= f_off fl <= i_size i;
  cw_max : f_off fl + Z.of_nat (length src) <= MAXFILE * BSIZE;
  cw_start : 2 <= start;
  cw_layout : start + LOGSIZE <= sb_inodestart (x_sb x) <= iblock (x_sb x) i;
  cw_free : 8 * (Z.of_nat (length src) / write_max + 1) <= Z.of_nat (free_count (x_sb x) (disk_read d))
}.

Section Descriptors.
Context (p : nat) (pr : proc) (start : Z) (s : kernel) (x : fsys) (d : disk) (f ip : nat) (fl : file) (i : inode) (src : list Z).
Context (C : can_write p pr start s x d f ip fl i src).

Abbreviation sb := (x_sb x).
Abbreviation n := (Z.of_nat (length src)).
Abbreviation after := (splice (contents (disk_read d) i) (Z.to_nat (f_off fl)) src).

Lemma write_run : wp (filewrite f src n) s (fun r s' => r = n /\ exists d' i',
  quiet p pr start s' (moved f ip fl (f_off fl + n) i' x) d' /\
  stored start sb (disk_read d) i (f_off fl) src (8 * (n / write_max + 1)) (disk_read d') i' /\ sl_locked (i_lock i') = false).
Proof. destruct C as [Q O F Hw Hb Hoff Hmax Hst Hl Hf]. apply (filewrite_ok p pr start s x d f ip fl i src); try done; lia. Qed.

Lemma quiet_disk s' x' d' : quiet p pr start s' x' d' -> x_disk (k_fs s') = d'.
Proof. intros [[[_ B _] _] _]. apply B. Qed.

Lemma quiet_inode s' d' i' : quiet p pr start s' (moved f ip fl (f_off fl + n) i' x) d' -> ic_inode (x_icache (k_fs s')) !! ip = Some i'.
Proof.
  intros [[_ E] _]. injection E as -> _ _ _. apply list_lookup_insert_eq. by eapply lookup_lt_Some, (of_inode _ _ _ _ _ (cw_open _ _ _ _ _ _ _ _ _ _ _ C)).
Qed.

(** The superblock is where it was. *)
Lemma stored_sb k V' i' : stored start sb (disk_read d) i (f_off fl) src k V' i' -> V' 1 = disk_read d 1.
Proof.
  intros S. destruct C as [Q O F Hw Hb Hoff Hmax Hst Hl Hf]. pose proof (fo_iblock _ _ _ F). change LOGSIZE with 30 in *.
  apply (meta_kept _ _ _ _ _ _ _ _ _ S F); [unfold in_log; lia|lia|lia].
Qed.

(** A reboot on a disk whose log is empty finds the same file. *)
Lemma reboot_same p' pr' r d' i' : header_is (disk_read d' start) [] -> load32 (disk_read d' 1) 16 = start -> file_ok sb (disk_read d') i' ->
  start + LOGSIZE <= iblock sb i' -> rebooted p' pr' r d' ->
  wp (initlog 1) r (fun _ r' => agree sb i' (disk_read d') (disk_read (x_disk (k_fs r')))).
Proof.
  intros Hh Hs F Hib R. pose proof (fo_iblock _ _ _ F). pose proof (fo_bitmap _ _ _ F) as [B1 B2 _]. pose proof (cw_start _ _ _ _ _ _ _ _ _ _ _ C).
  assert (log_layout start []) as LN by (constructor; [lia|lia|done|apply NoDup_nil_2|by intros h ?%elem_of_nil]).
  eapply wp_mono; [by apply (initlog_ok p' pr' start [] LN r d' R)|]. cbn beta. intros [] r' (_ & _ & E) c Hc. rewrite E.
  unfold recovery_writes. cbn. rewrite disk_read_write, decide_False; [done|]. unfold LOGSIZE, MAXOPBLOCKS in *. lia.
Qed.

(** C3. filewrite writes all its bytes at the descriptor's offset and nothing else of the file: afterwards the
    blocks on disk, read through the inode, hold the old contents with the new bytes spliced in, and the inode on
    disk is the inode in memory.  The same holds after a crash at any later moment before the next operation: when
    the log has been recovered, the file still has these contents. *)
Theorem filewrite_durable p' pr' : load32 (disk_read d 1) 16 = start ->
  wp (filewrite f src n) s (fun r s' => r = n /\ exists i', ic_inode (x_icache (k_fs s')) !! ip = Some i' /\
    contents (disk_read (x_disk (k_fs s'))) i' = after /\
    (inode_fits i -> disk_inode sb (disk_read d) i -> disk_inode sb (disk_read (x_disk (k_fs s'))) i') /\
    forall r, rebooted p' pr' r (x_disk (k_fs s')) ->
      wp (initlog 1) r (fun _ r' => contents (disk_read (x_disk (k_fs r'))) i' = after)).
Proof.
  intros Hsb. eapply wp_mono; [apply write_run|]. cbn beta. intros r s' (-> & d' & i' & Q & S & _). split; [done|]. exists i'.
  rewrite (quiet_disk _ _ _ Q). split; [by eapply quiet_inode|]. split; [apply S|]. split; [apply S|]. intros r R.
  pose proof (st_file _ _ _ _ _ _ _ _ _ S) as F'. pose proof (cw_layout _ _ _ _ _ _ _ _ _ _ _ C).
  eapply wp_mono; [apply (reboot_same p' pr' r d' i' (qu_header _ _ _ _ _ _ Q)); [by rewrite (stored_sb _ _ _ S)|done| |done]|].
  - unfold iblock in *. rewrite (st_inode _ _ _ _ _ _ _ _ _ S). cbn. lia.
  - cbn beta. intros [] r' A. rewrite (agree_contents _ _ _ _ F' A). apply S.
Qed.

(** C17. What has been written through one descriptor is read through another one of the same file: fileread at the
    offset [o] returns the bytes of the new contents from [o] on, as many as were asked for and there are. *)
Theorem filewrite_then_fileread g gl m : g <> f -> ft_file (x_ftable x) !! g = Some gl -> f_type gl = FD_INODE -> f_ip gl = Some ip ->
  f_readable gl <> 0 -> 0 <= f_off gl <= Z.max (i_size i) (f_off fl + n) -> 0 <= m < 2 ^ 31 ->
  wp (w <- filewrite f src n ;; r <- fileread g m ;; ret (w, r)) s (fun res _ =>
    let b := take (Z.to_nat m) (drop (Z.to_nat (f_off gl)) after) in res = (n, (Z.of_nat (length b), b))).
Proof.
  intros Hg H1 H2 H3 H4 H5 H6. apply wp_bind. eapply wp_mono; [apply write_run|]. cbn beta. intros r s' (-> & d' & i' & Q & S & Hl).
  pose proof (st_inode _ _ _ _ _ _ _ _ _ S) as Ei. destruct (cw_open _ _ _ _ _ _ _ _ _ _ _ C) as [O1 O2 O3 O4 O5 O6 O7].
  apply wp_bind. eapply wp_mono; [eapply (fileread_ok p pr start s' _ d' g ip gl i' m Q)|].
  - constructor; try done; [|apply list_lookup_insert_eq; by eapply lookup_lt_Some|by rewrite Ei|by rewrite Ei].
    unfold moved, put_file. cbn. by rewrite list_lookup_insert_ne.
  - apply S.
  - done.
  - by rewrite (st_size' _ _ _ _ _ _ _ _ _ S).
  - done.
  - cbn beta. intros res s2 [-> _]. wp_steps. cbn zeta. by rewrite (st_contents _ _ _ _ _ _ _ _ _ S).
Qed.

(** C18. A write to one file leaves every other file alone: a well-formed file [j] with another inode number and no
    block in common keeps its contents and its inode on disk, also when both inodes are in one block, and its blocks
    are still marked as in use. *)
Theorem filewrite_isolated j : file_ok sb (disk_read d) j -> i_inum j <> i_inum i -> sb_inodestart sb <= iblock sb j ->
  (forall c, owned (disk_read d) i c -> ~ owned (disk_read d) j c) -> disk_inode sb (disk_read d) j ->
  wp (filewrite f src n) s (fun _ s' => let V' := disk_read (x_disk (k_fs s')) in
    file_ok sb V' j /\ contents V' j = contents (disk_read d) j /\ disk_inode sb V' j).
Proof.
  intros Fj Hne Hj Hdisj Hd. eapply wp_mono; [apply write_run|]. cbn beta. intros r s' (_ & d' & i' & Q & S & _).
  rewrite (quiet_disk _ _ _ Q). cbn zeta. pose proof (cw_file _ _ _ _ _ _ _ _ _ _ _ C) as F. destruct (cw_layout _ _ _ _ _ _ _ _ _ _ _ C) as [Hl _].
  split_and!; [by eapply other_file|by eapply other_contents|by eapply other_inode].
Qed.

End Descriptors.

(** C29. A transaction of filewrite stays within what begin_op has reserved for it: with at most LOGSIZE - MAXOPBLOCKS
    blocks logged before, writei of at most the bytes that filewrite gives it in one transaction does not run out
    of log, whether it needs new blocks and an indirect block or not, and logs at most MAXOPBLOCKS more blocks. *)
Theorem write_within_reservation p pr w ip s x V d T i src off : 1 <= lu_outstanding w ->
  open_at p pr w ip s x V d T i -> NoDup T -> Z.of_nat (length T) <= LOGSIZE - MAXOPBLOCKS ->
  is_bytes src -> Z.of_nat (length src) <= write_max -> 0 <= off <= i_size i -> off + Z.of_nat (length src) <= MAXFILE * BSIZE ->
  8 <= Z.of_nat (free_count (x_sb x) V) ->
  wp (writei ip src off) s (fun r s' => r = Z.of_nat (length src) /\
    lh_n (x_log (k_fs s')) <= lh_n (x_log (k_fs s)) + MAXOPBLOCKS).
Proof.
  intros Hw O Hnd HT Hb Hlen Hoff Hmax Hfree. pose proof (span_max off (Z.of_nat (length src)) ltac:(lia)) as Hspan.
  assert (forall s' x' V' T' L, fs_at p pr w s' x' V' d T' L -> lh_n (x_log (k_fs s')) = Z.of_nat (length T')) as Hn.
  { intros s' x' V' T' L [[_ _ G] _]. apply (ld_n _ _ _ G). }
  rewrite (Hn _ _ _ _ _ (oa_at _ _ _ _ _ _ _ _ _ _ O)). change LOGSIZE with 30 in *. change MAXOPBLOCKS with 10 in *.
  eapply wp_mono; [apply (writei_ok p pr w ip Hw s x V d T i src off O Hnd Hb Hoff Hmax); [change LOGSIZE with 30; lia|lia]|].
  cbn beta. intros r s' (-> & V' & T' & i' & O' & P). split; [done|]. rewrite (Hn _ _ _ _ _ (oa_at _ _ _ _ _ _ _ _ _ _ O')).
  destruct (wo_log _ _ _ _ _ _ _ _ _ P) as [_ Hl]. lia.
Qed.

Module DescriptorsWitness.
Import CrashWitness TransactionWitness.

(** A disk with its log at block 2, one block of inodes, the bitmap at block 33, and 26 free blocks. *)
Definition the_sb : superblock :=
  {| sb_size := 60; sb_nblocks := 26; sb_ninodes := 8; sb_nlog := 30; sb_logstart := 2; sb_inodestart := 32; sb_bmapstart := 33 |}.
Definition the_disk : disk :=
  {| d_blocks := {[ 1 := store32 ∅ 16 2; 33 := store_bytes ∅ 0 [255; 255; 255; 255; 3] ]}; d_trace := [] |}.

(** An empty file, and two descriptors on it. *)
Definition the_inode : inode := inode0 <| i_dev := 1 |> <| i_inum := 1 |> <| i_ref := 2 |> <| i_valid := true |> <| i_type := T_FILE |>.
Definition descriptor : file := file0 <| f_type := FD_INODE |> <| f_ref := 1 |> <| f_readable := 1 |> <| f_writable := 1 |> <| f_ip := Some 0%nat |>.
Definition the_machine : kernel := (machine (cache_with buf0) idle_log the_disk)
  <| k_fs ::= fun x => x <| x_sb := the_sb |> <| x_icache := {| ic_lock := false; ic_inode := [the_inode] |} |>
                         <| x_ftable := {| ft_lock := false; ft_file := [descriptor; descriptor] |} |> |>.

Definition hello : list Z := [104; 101; 108; 108; 111].

Lemma no_blocks V pl : at_place V the_inode pl = 0.
Proof.
  destruct pl as [bn|]; [|done]. cbn [at_place]. unfold block_of. change (indirect the_inode) with 0. cbn [Z.eqb].
  destruct (bn <? NDIRECT); [|done]. change (i_addrs the_inode) with (replicate 13 0).
  destruct (replicate 13 0 !! Z.to_nat bn) eqn:E; [|done]. by apply lookup_replicate in E as [-> _].
Qed.

Lemma the_bitmap : bitmap_ok the_sb (disk_read the_disk).
Proof.
  constructor; [done|done|]. intros c Hc. cbn in Hc.
  assert (c ∈ range 0 34) as Hin by (apply elem_of_range; lia).
  assert (Forall (used the_sb (disk_read the_disk)) (range 0 34)) as H by (apply (bool_decide_unpack _); vm_compute; exact I).
  by eapply Forall_forall in H.
Qed.

Lemma the_file : file_ok the_sb (disk_read the_disk) the_inode.
Proof.
  constructor; try done; [apply the_bitmap| | |].
  - intros pl _. by rewrite no_blocks.
  - intros pl pl' _ _. by rewrite no_blocks.
  - intros bn H0 H1. cbn in H1. unfold BSIZE in H1. lia.
Qed.

Lemma the_quiet : quiet 0 cpu_proc 2 the_machine (k_fs the_machine) the_disk.
Proof.
  destruct (rb_blocks _ _ _ _ (machine_rebooted the_disk)) as [B1 B2 B3 B4 B5].
  constructor; [|split; [by vm_compute|done]]. constructor; [|done]. constructor; [by constructor| |by constructor].
  constructor; [exact B1|exact B2|exact B3| |exact B5]. intros b. rewrite elem_of_nil. exact (B4 b).
Qed.

Lemma the_state : can_write 0 cpu_proc 2 the_machine (k_fs the_machine) the_disk 0 0 descriptor the_inode hello.
Proof.
  constructor; try done; [apply the_quiet|apply the_file|].
  apply (bool_decide_unpack _). vm_compute. exact I.
Qed.

Lemma filewrite_durable_witness : exists s' i', filewrite 0 hello 5 the_machine = Ret 5 s' /\
  contents (disk_read (x_disk (k_fs s'))) i' = hello.
Proof.
  pose proof (filewrite_durable _ _ _ _ _ _ _ _ _ _ _ the_state 0%nat cpu_proc eq_refl) as W.
  change (Z.of_nat (length hello)) with 5 in W. destruct (wp_elim _ _ _ W) as (r & s' & E & -> & i' & _ & Hc & _).
  exists s', i'. split; [exact E|]. rewrite Hc. reflexivity.
Defined.

(** "hello" written through one descriptor, three bytes read back through the other. *)
Lemma filewrite_then_fileread_witness : exists s',
  (w <- filewrite 0 hello 5 ;; r <- fileread 1 3 ;; ret (w, r)) the_machine = Ret (5, (3, [104; 101; 108])) s'.
Proof.
  assert (1 <> 0)%nat as Hne by discriminate.
  pose proof (filewrite_then_fileread _ _ _ _ _ _ _ _ _ _ _ the_state 1%nat descriptor 3 Hne eq_refl eq_refl eq_refl
    ltac:(discriminate) ltac:(vm_compute; split; discriminate) ltac:(lia)) as W.
  change (Z.of_nat (length hello)) with 5 in W. destruct (wp_elim _ _ _ W) as (r & s' & E & Er).
  exists s'. rewrite E, Er. reflexivity.
Defined.

(** Another empty file, with the inode next to the first one. *)
Definition second : inode := the_inode <| i_inum := 2 |> <| i_type := 0 |>.
Lemma second_on_disk : disk_inode the_sb (disk_read the_disk) second.
Proof. by vm_compute. Qed.

Lemma filewrite_isolated_witness : exists s', filewrite 0 hello 5 the_machine = Ret 5 s' /\
  disk_inode the_sb (disk_read (x_disk (k_fs s'))) second.
Proof.
  assert (file_ok the_sb (disk_read the_disk) second) as F.
  { destruct the_file as [F1 F2 F3 F4 F5 F6 F7 F8 F9]. by constructor. }
  assert (forall c, owned (disk_read the_disk) the_inode c -> ~ owned (disk_read the_disk) second c) as Hd.
  { intros c (Hc & pl & _ & E). rewrite no_blocks in E. by destruct Hc. }
  pose proof (filewrite_isolated _ _ _ _ _ _ _ _ _ _ _ the_state second F ltac:(discriminate) ltac:(vm_compute; discriminate) Hd second_on_disk) as W.
  pose proof (write_run _ _ _ _ _ _ _ _ _ _ _ the_state) as W2. change (Z.of_nat (length hello)) with 5 in W, W2.
  destruct (wp_elim _ _ _ W2) as (r2 & s2 & E2 & -> & _). destruct (wp_elim _ _ _ W) as (r & s' & E & _ & _ & Hs).
  rewrite E2 in E. injection E as _ <-. exists s2. split; [exact E2|exact Hs].
Defined.

(** The write above, inside its transaction. *)
Lemma write_within_reservation_witness : exists s1 s' r, begin_op the_machine = Ret tt s1 /\ writei 0 hello 0 s1 = Ret r s' /\
  r = 5 /\ lh_n (x_log (k_fs s')) <= 10.
Proof.
  destruct (wp_elim _ _ _ (begin_ok _ _ _ _ _ _ _ (qu_at _ _ _ _ _ _ the_quiet))) as ([] & s1 & E1 & A1).
  assert (open_at 0 cpu_proc (log_by 2 1) 0 s1 (k_fs the_machine) (disk_read the_disk) the_disk [] the_inode) as O.
  { constructor; [by apply at_put|vm_compute; lia|apply the_file]. }
  pose proof (write_within_reservation 0 cpu_proc (log_by 2 1) 0 s1 (k_fs the_machine) (disk_read the_disk) the_disk [] the_inode hello 0
    ltac:(vm_compute; discriminate) O (@NoDup_nil_2 Z)
    ltac:(vm_compute; discriminate) (cw_bytes _ _ _ _ _ _ _ _ _ _ _ the_state) ltac:(vm_compute; discriminate)
    ltac:(vm_compute; split; discriminate) ltac:(vm_compute; discriminate) (cw_free _ _ _ _ _ _ _ _ _ _ _ the_state)) as W.
  change (Z.of_nat (length hello)) with 5 in W. destruct (wp_elim _ _ _ W) as (r & s' & E & -> & Hl).
  exists s1, s', 5. split; [exact E1|]. split; [exact E|]. split; [reflexivity|].
  rewrite (ld_n _ _ _ (tx_log _ _ _ _ _ _ _ _ (fa_tx _ _ _ _ _ _ _ _ _ A1))) in Hl. exact Hl.
Defined.

End DescriptorsWitness.
