(* ===== verification/SwapFile.v ===== *)
(** Creating and removing files inside the kernel (create, kunlink and
    isdirempty of src/src/sysfile.c) and the swap files of a process
    (InitializeSwapFiles, ClearSwapFiles, ReadSwapFile and WriteSwapFile of
    src/src/fs.c).  The swap files implement the interface [FileSys] that the
    virtual memory code uses. *)

From stdpp Require Import base gmap list strings.
From Stdlib Require Import ZArith Lia.
From S2P Require Import Prelude Mem Str Mmu Printf State Kalloc MemTable Vm Sched Fsys Bio Log Inode Console Fs Pipe File.

Definition dot : list Z := [46].
Definition dotdot : list Z := [46; 46].

(** The scan of isdirempty starts after "." and "..". *)
Definition isdirempty (dp : nat) : M kernel bool :=
  fuel <- dir_fuel dp ;;
  let* (r, _) := dir_scan fuel dp (2 * DIRENT_SIZE) "isdirempty: readi" (fun de => negb (de_inum de =? 0)) ;;
  ret (match r with Some _ => false | None => true end).

(** The jump to [bad] of kunlink. *)
Definition unlink_bad (dp : nat) : M kernel Z :=
  iunlockput dp ;;;
  end_op ;;;
  ret (-1).

Definition kunlink (path : list Z) : M kernel Z :=
  begin_op ;;;
  r <- nameiparent path ;;
  match r with
  | None =>
      end_op ;;;
      ret (-1)
  | Some (dp, name) =>
      ilock (Some dp) ;;;
      if (namecmp name dot =? 0) || (namecmp name dotdot =? 0) then unlink_bad dp
      else
        r <- dirlookup dp name ;;
        match r with
        | None => unlink_bad dp
        | Some (ip, off) =>
            ilock (Some ip) ;;;
            i <- get_inode ip ;;
            if i_nlink i <? 1 then panic "unlink: nlink < 1"
            else
              empty <- (if i_type i =? T_DIR then isdirempty ip else ret true) ;;
              if negb empty then
                iunlockput ip ;;;
                unlink_bad dp
              else
                n <- writei dp (replicate (Z.to_nat DIRENT_SIZE) 0) off ;;
                if negb (n =? DIRENT_SIZE) then panic "unlink: writei"
                else
                  when (i_type i =? T_DIR)
                    (upd_inode dp (fun d => d <| i_nlink ::= fun n => n - 1 |>) ;;;
                     iupdate dp) ;;;
                  iunlockput dp ;;;
                  upd_inode ip (fun i => i <| i_nlink ::= fun n => n - 1 |>) ;;;
                  iupdate ip ;;;
                  iunlockput ip ;;;
                  end_op ;;;
                  ret 0
        end
  end.

(** The locked inode of the file, or a null pointer. *)
Definition create (path : list Z) (type major minor : Z) : M kernel (option nat) :=
  r <- nameiparent path ;;
  match r with
  | None => ret None
  | Some (dp, name) =>
      ilock (Some dp) ;;;
      r <- dirlookup dp name ;;
      match r with
      | Some (ip, _) =>
          iunlockput dp ;;;
          ilock (Some ip) ;;;
          i <- get_inode ip ;;
          if (type =? T_FILE) && (i_type i =? T_FILE) then ret (Some ip)
          else
            iunlockput ip ;;;
            ret None
      | None =>
          d <- get_inode dp ;;
          ip <- ialloc (i_dev d) type ;;
          ilock (Some ip) ;;;
          upd_inode ip (fun i => i <| i_major := major |> <| i_minor := minor |> <| i_nlink := 1 |>) ;;;
          iupdate ip ;;;
          when (type =? T_DIR)
            (upd_inode dp (fun d => d <| i_nlink ::= fun n => n + 1 |>) ;;;
             iupdate dp ;;;
             i <- get_inode ip ;;
             d <- get_inode dp ;;
             r <- dirlink ip dot (i_inum i) ;;
             if r <? 0 then panic "create dots"
             else
               r <- dirlink ip dotdot (i_inum d) ;;
               when (r <? 0) (panic "create dots")) ;;;
          i <- get_inode ip ;;
          r <- dirlink dp name (i_inum i) ;;
          if r <? 0 then panic "create: dirlink"
          else
            iunlockput dp ;;;
            ret (Some ip)
      end
  end.

(** ** Swap files *)

(** The bytes of "./.swap". *)
Definition swap_prefix : list Z := [46; 47; 46; 115; 119; 97; 112].

(** The buffer [path]: memmove and the two calls of itoa. *)
Definition swap_path_buffer (i pid : Z) : option mem :=
  let m := store_bytes ∅ 0 swap_prefix in
  match itoa m i 7 with
  | Some m => itoa m pid 8
  | None => None
  end.

Definition swap_path (i pid : Z) : M kernel (list Z) :=
  match swap_path_buffer i pid with
  | Some m => ret (cstr (load_bytes m 0 20))
  | None => no_fuel
  end.

Section SwapFile.
Context {KI : KernelImage}.

Definition InitializeSwapFiles (CurrentProcess : nat) : M kernel Z :=
  for_each (range 0 (Z.to_nat SWAP_FILE_MAX_NUM)) (fun i =>
    p <- get_proc CurrentProcess ;;
    path <- swap_path i (p_pid p) ;;
    begin_op ;;;
    ip <- create path T_FILE 0 0 ;;
    iunlock ip ;;;
    f <- filealloc ;;
    upd_proc CurrentProcess (fun p => p <| p_FilesForSwap ::= <[Z.to_nat i := f]> |>) ;;;
    match f with
    | None => panic "[ERROR] Alloc File for Swapping Fail!"
    | Some f =>
        upd_file f (fun x => x <| f_ip := ip |> <| f_type := FD_INODE |> <| f_off := 0 |>
          <| f_readable := O_WRONLY |> <| f_writable := O_RDWR |>) ;;;
        end_op
    end) ;;;
  ret 0.

(** One turn of ClearSwapFiles; [Some tt] is the return of -1. *)
Definition ClearSwapFile (CurrentProcess : nat) (i : Z) : M kernel (option unit) :=
  p <- get_proc CurrentProcess ;;
  path <- swap_path i (p_pid p) ;;
  match p_FilesForSwap p !! Z.to_nat i with
  | Some (Some f) =>
      fileclose f ;;;
      r <- kunlink path ;;
      ret (if r =? -1 then Some tt else None)
  | Some None => ret (Some tt)
  | None => crash "FilesForSwap index"
  end.

Definition ClearSwapFiles (CurrentProcess : nat) : M kernel Z :=
  r <- for_find (range 0 (Z.to_nat SWAP_FILE_MAX_NUM)) (ClearSwapFile CurrentProcess) ;;
  ret (match r with Some _ => -1 | None => 0 end).

(** The swap file for an offset, with its position set. *)
Definition seek_swap_file (CurrentProcess : nat) (FileOffsetTotal : Z) (msg : string) : M kernel nat :=
  let FileNumber := FileOffsetTotal / SWAP_FILE_SIZE in
  if (FileNumber <? 0) || (SWAP_FILE_MAX_NUM <? FileNumber) then panic msg
  else
    let Offset := FileOffsetTotal mod SWAP_FILE_SIZE in
    p <- get_proc CurrentProcess ;;
    match p_FilesForSwap p !! Z.to_nat FileNumber with
    | Some (Some f) =>
        upd_file f (fun x => x <| f_off := Offset |>) ;;;
        ret f
    | Some None => crash "null swap file"
    | None => crash "FilesForSwap index"
    end.

Definition ReadSwapFile (CurrentProcess : nat) (FileOffsetTotal ReadSize : Z) : M kernel (Z * list Z) :=
  f <- seek_swap_file CurrentProcess FileOffsetTotal "[ERROR] Illegal file read offset!" ;;
  fileread f ReadSize.

(** [TheBuffer] holds the [ReadSize] bytes to write (none when it is negative). *)
Definition WriteSwapFile (CurrentProcess : nat) (TheBuffer : list Z) (FileOffsetTotal ReadSize : Z) : M kernel Z :=
  f <- seek_swap_file CurrentProcess FileOffsetTotal "[ERROR] Illegal file write offset!" ;;
  filewrite f TheBuffer ReadSize.

#[global] Instance swap_files : FileSys fsys := {
  fs_readi := fun ip off n => readi ip off n;
  fs_ReadSwapFile := ReadSwapFile;
  fs_WriteSwapFile := fun i buf off => WriteSwapFile i buf off (Z.of_nat (length buf))
}.

End SwapFile.

(** ** The names of swap files *)

Definition swap_name (i pid : Z) : list Z := [46; 115; 119; 97; 112; 48 + i] ++ text pid.

Lemma cstr_load m a l n : load_bytes m a (length l) = l -> (0 ∉ l) ->
  load8 m (a + Z.of_nat (length l)) = 0 -> (length l < n)%nat -> cstr (load_bytes m a n) = l.
Proof.
  revert a n. induction l as [|c l IH]; intros a n Hl H0 He Hn; (destruct n as [|n]; [cbn in Hn; lia|]); cbn in *.
  - rewrite Z.add_0_r in He. by rewrite He.
  - injection Hl as H1 Hl. apply not_elem_of_cons in H0 as [Hc H0]. rewrite H1.
    destruct (Z.eqb_spec c 0); [congruence|]. f_equal. apply IH; [done|done| |lia].
    by replace (a + 1 + Z.of_nat (length l)) with (a + Z.of_nat (S (length l))) by lia.
Qed.

Lemma cstr_zeros l k : (0 ∉ l) -> cstr (l ++ replicate k 0) = l.
Proof.
  induction l as [|c l IH]; intros H; [by destruct k|]. apply not_elem_of_cons in H as [Hc H]. cbn.
  destruct (Z.eqb_spec c 0); [congruence|]. f_equal. by apply IH.
Qed.

Lemma text_small i : 0 <= i < 10 -> text i = [48 + i].
Proof.
  intros Hi. unfold text. destruct (Z.ltb_spec i 0); [lia|]. rewrite Z.abs_eq by lia.
  change (numeral 11 10 i) with ((if i / 10 =? 0 then [] else numeral 10 10 (i / 10)) ++ [i mod 10]).
  by rewrite (Z.div_small i), (Z.mod_small i) by lia.
Qed.

Lemma text_nonzero i : 0 ∉ text i.
Proof.
  intros H. unfold text in H. apply elem_of_app in H as [H|H].
  - destruct (i <? 0); [apply list_elem_of_singleton in H; done|inversion H].
  - apply list_elem_of_fmap in H as (d & E & Hd). pose proof (numeral_digits 11 10 (Z.abs i) ltac:(lia)) as F.
    rewrite Forall_forall in F. specialize (F d Hd). lia.
Qed.

Lemma text_length i : 0 <= i < 2 ^ 31 -> (length (text i) <= 10)%nat.
Proof.
  intros Hi. unfold text. destruct (Z.ltb_spec i 0); [lia|]. cbn [app]. unfold ascii_digits. rewrite length_fmap.
  apply numeral_length; lia.
Qed.

Lemma swap_name_nonzero i pid : 0 <= i -> 0 ∉ swap_name i pid.
Proof.
  intros Hi H. unfold swap_name in H. apply elem_of_app in H as [H|H]; [|by apply text_nonzero in H].
  repeat (apply elem_of_cons in H as [H|H]; [lia|]). inversion H.
Qed.

(** The path is the text of its parts. *)
Lemma swap_path_eq i pid s : 0 <= i < SWAP_FILE_MAX_NUM -> 0 <= pid < 2 ^ 31 ->
  swap_path i pid s = Ret ([46; 47] ++ swap_name i pid) s.
Proof.
  intros Hi Hp. unfold SWAP_FILE_MAX_NUM in Hi. unfold swap_path, swap_path_buffer.
  destruct (itoa_eq (store_bytes ∅ 0 swap_prefix) i 7) as (m1 & -> & H1); [lia|].
  destruct (itoa_eq m1 pid 8) as (m2 & -> & H2); [lia|]. unfold ret. f_equal.
  destruct (stored_string m2 ∅ 0 ([46; 47] ++ swap_name i pid)) as (Hl & H0 & _).
  - intros a. rewrite H2, (load8_store_bytes_ext m1 _ 8 _ a H1), text_small by lia.
    change (([46; 47] ++ swap_name i pid) ++ [0]) with (swap_prefix ++ [48 + i] ++ text pid ++ [0]).
    rewrite (store_bytes_app ∅ 0 swap_prefix). change (0 + Z.of_nat (length swap_prefix)) with 7.
    destruct (text pid ++ [0]) as [|c l] eqn:E; [by destruct (text pid)|].
    cbn [app store_bytes]. change (7 + 1) with 8. by rewrite store8_store8.
  - apply Forall_app. split; [repeat constructor; lia|]. apply Forall_app. split; [repeat constructor; lia|].
    apply text_is_bytes.
  - apply cstr_load; [done| |done|].
    + intros H. apply elem_of_app in H as [H|H]; [|by apply swap_name_nonzero in H; [|lia]].
      repeat (apply elem_of_cons in H as [H|H]; [lia|]). inversion H.
    + pose proof (text_length pid Hp). unfold swap_name. rewrite !length_app. cbn. lia.
Qed.

Lemma text_inj i j : 0 <= i < 2 ^ 31 -> 0 <= j < 2 ^ 31 -> text i = text j -> i = j.
Proof.
  intros Hi Hj E. unfold text in E. destruct (Z.ltb_spec i 0), (Z.ltb_spec j 0); try lia. cbn [app] in E.
  assert (Inj (=) (=) (Z.add 48)) as Hinj by (intros x y; lia).
  unfold ascii_digits in E. apply (inj (fmap (Z.add 48))) in E. rewrite !Z.abs_eq in E by lia.
  rewrite <- (numeral_value 11 10 i), <- (numeral_value 11 10 j) by lia. by rewrite E.
Qed.

(** Every swap file has a name of its own.  The path InitializeSwapFiles
    and ClearSwapFiles build for the file number [i] of the process [pid] is a
    name in the current directory, it fits the 20 bytes of their buffer, and no
    two files, of one process or of two, have the same name; while [pid] has at
    most eight digits the name fits a directory entry, so that the names also
    differ there. *)
Theorem swap_names_distinct i j p q s :
  0 <= i < SWAP_FILE_MAX_NUM -> 0 <= j < SWAP_FILE_MAX_NUM -> 0 <= p < 2 ^ 31 -> 0 <= q < 2 ^ 31 ->
  exists n n', swap_path i p s = Ret ([46; 47] ++ n) s /\ swap_path j q s = Ret ([46; 47] ++ n') s /\
    (length n < 18)%nat /\ (n = n' -> i = j /\ p = q) /\
    (p < 10 ^ 8 -> Z.of_nat (length n) <= DIRSIZ /\ cstr (pad_name n) = n).
Proof.
  intros Hi Hj Hp Hq. exists (swap_name i p), (swap_name j q).
  rewrite !swap_path_eq by done. split_and!; [done|done| | |].
  - pose proof (text_length p Hp). unfold swap_name. rewrite length_app. cbn. lia.
  - intros E. unfold swap_name in E. cbn in E. injection E as E1 E2. split; [lia|by apply text_inj].
  - intros H8. assert (length (swap_name i p) <= 14)%nat as Hl.
    { unfold swap_name, text. destruct (Z.ltb_spec p 0); [lia|]. rewrite length_app. unfold ascii_digits.
      cbn [app]. rewrite length_fmap.
      pose proof (numeral_length 11 10 (Z.abs p) 8 ltac:(lia) ltac:(lia) ltac:(lia)). cbn [length]. lia. }
    split; [unfold DIRSIZ; lia|]. pose proof (swap_name_nonzero i p ltac:(lia)) as Hz. unfold pad_name.
    pose proof (cstr_zeros (swap_name i p) 0 Hz) as Hc. rewrite app_nil_r in Hc. rewrite Hc.
    rewrite take_ge by exact Hl. by apply cstr_zeros.
Qed.

Module SwapFileWitness.

Lemma swap_names_distinct_witness :
  exists n n', swap_path 0 11 (boot (fsys_boot blank_disk)) = Ret ([46; 47] ++ n) (boot (fsys_boot blank_disk)) /\
    swap_path 1 1 (boot (fsys_boot blank_disk)) = Ret ([46; 47] ++ n') (boot (fsys_boot blank_disk)) /\ n <> n'.
Proof.
  destruct (swap_names_distinct 0 1 11 1 (boot (fsys_boot blank_disk))) as (n & n' & H1 & H2 & _ & H3 & _);
    [unfold SWAP_FILE_MAX_NUM; lia|unfold SWAP_FILE_MAX_NUM; lia|lia|lia|].
  exists n, n'. split; [exact H1|]. split; [exact H2|]. intros E. destruct (H3 E) as [E1 _]. discriminate E1.
Defined.

End SwapFileWitness.
