(* ===== verification/UserMem.v ===== *)
(** Accesses of kernel code to virtual addresses through the current page table.

    A kernel address in the direct map reaches its physical byte.  A user
    address is translated by the table in cr3; when the page is not present, or
    is read-only and written (CR0_WP is set), the processor calls PageFault
    (vm.c) and repeats the access.  An access that keeps faulting never ends:
    the outcome is [NoFuel].  Addresses above the direct map are device memory. *)

From stdpp Require Import base gmap list strings.
From Stdlib Require Import ZArith Lia.
From S2P Require Import Prelude Mem Str Mmu State Kalloc MemTable Vm.

Section UserMem.
Context {F : Type} {KI : KernelImage} {FS : FileSys F}.
Implicit Types s : kst F.

(** The P bit of the error code: the fault is a protection violation. *)
Definition fault_code (m : mem) (cr3 va : Z) : Z :=
  match translate m cr3 va false with Some _ => PGFLT_P | None => 0 end.

(** The physical address of a user address; [fuel] faults are handled. *)
Fixpoint user_pa (fuel : nat) (va : Z) (write : bool) : M (kst F) Z :=
  m <- gets k_phys ;;
  cr3 <- gets k_cr3 ;;
  match translate m cr3 va write with
  | Some pa => ret pa
  | None =>
      match fuel with
      | O => no_fuel
      | S fuel =>
          PageFault va (fault_code m cr3 va) ;;;
          user_pa fuel va write
      end
  end.

(** A fault maps the page, brings it in or copies it: one is enough, unless the
    handler gives up and marks the process as killed. *)
Definition access_faults : nat := 2.

Definition virt_pa (va : Z) (write : bool) : M (kst F) Z :=
  if va <? KERNBASE then user_pa access_faults va write
  else if kernel_ptr va then ret (V2P va)
  else crash "device memory".

Definition vload8 (va : Z) : M (kst F) Z :=
  pa <- virt_pa va false ;;
  gets (fun s => load8 (k_phys s) pa).

Definition vstore8 (va v : Z) : M (kst F) unit :=
  pa <- virt_pa va true ;;
  modify (fun s => s <| k_phys ::= fun m => store8 m pa v |>).

Fixpoint vload_bytes (va : Z) (n : nat) : M (kst F) (list Z) :=
  match n with
  | O => ret []
  | S n => b <- vload8 va ;; l <- vload_bytes (u32 (va + 1)) n ;; ret (b :: l)
  end.

Fixpoint vstore_bytes (va : Z) (l : list Z) : M (kst F) unit :=
  match l with
  | [] => ret tt
  | b :: l => vstore8 va b ;;; vstore_bytes (u32 (va + 1)) l
  end.

Definition vload32 (va : Z) : M (kst F) Z :=
  l <- vload_bytes va 4 ;;
  ret (load32 (store_bytes ∅ 0 l) 0).

Definition vstore32 (va v : Z) : M (kst F) unit :=
  vstore_bytes va (load_bytes (store32 ∅ 0 v) 0 4).

(** strlen of a string at a virtual address: at most [n] bytes are read, as
    [iter_pos] counts in binary. *)
Definition vstrlen (va : Z) : M (kst F) Z :=
  r <- iter_pos (2 ^ 32) (fun n =>
    c <- vload8 (u32 (va + n)) ;;
    ret (if c =? 0 then inr n else inl (n + 1))) 0 ;;
  match r with
  | inr n => ret n
  | inl _ => no_fuel
  end.

(** The bytes of the string without its terminating zero. *)
Definition vload_string (va : Z) : M (kst F) (list Z) :=
  n <- vstrlen va ;;
  vload_bytes va (Z.to_nat n).

End UserMem.
