(* ===== verification/SharedMemory.v ===== *)
(** Shared memory between processes, src/src/SharedMemory.c. *)

From stdpp Require Import base gmap list strings.
From Stdlib Require Import ZArith Lia.
From S2P Require Import Prelude Mem Str Mmu State Kalloc MemTable Vm UserMem.

Section SharedMemory.
Context {F : Type} {KI : KernelImage} {FS : FileSys F}.
Implicit Types s : kst F.

Definition shm_acquire : M (kst F) unit :=
  acquire (fun s => k_SharedMemoryLock s) (fun b s => s <| k_SharedMemoryLock := b |>).
Definition shm_release : M (kst F) unit :=
  release (fun s => k_SharedMemoryLock s) (fun b s => s <| k_SharedMemoryLock := b |>).

(** [GlobalSharedMemoryList[i]] *)
Definition get_shm (i : nat) : M (kst F) SharedMemoryEntry := fun s =>
  match k_GlobalSharedMemoryList s !! i with
  | Some e => Ret e s
  | None => Crash "GlobalSharedMemoryList index"
  end.
Definition upd_shm (i : nat) (g : SharedMemoryEntry -> SharedMemoryEntry) : M (kst F) unit :=
  get_shm i ;;;
  modify (fun s => s <| k_GlobalSharedMemoryList ::= alter g i |>).

Definition GetGlobalSharedMemoryInfo : M (kst F) Z :=
  gets (fun s => Z.of_nat (length (base.filter (fun e => 0 < s_Signature e) (k_GlobalSharedMemoryList s)))).

Definition GetProcessSharedMemoryInfo (CurrentProcess : nat) : M (kst F) Z :=
  p <- get_proc CurrentProcess ;;
  ret (Z.of_nat (length (base.filter (fun x => 0 < x) (p_SelfSharedMemory p)))).

(** The first index, or -1 ([None]). *)
Definition find_self (sig : Z) (l : list Z) : option nat := fst <$> list_find (fun x => x = sig) l.
Definition find_global (sig : Z) (l : list SharedMemoryEntry) : option nat :=
  fst <$> list_find (fun e => s_Signature e = sig) l.

Definition FindSelfSharedMemory (CurrentProcess : nat) (TheSignature : Z) : M (kst F) (option nat) :=
  p <- get_proc CurrentProcess ;;
  ret (find_self TheSignature (p_SelfSharedMemory p)).

Definition FindGlobalSharedMemory (TheSignature : Z) : M (kst F) (option nat) :=
  gets (fun s => find_global TheSignature (k_GlobalSharedMemoryList s)).

Definition InitGlobalSharedMemory : M (kst F) unit :=
  modify (fun s => s <| k_GlobalSharedMemoryList ::=
    fmap (fun _ => {| s_VirtualAddress := 0; s_Signature := 0; s_UserNumber := 0 |}) |>).

(** The loops of AllocSharedMemory remember the last empty place they pass. *)
Definition last_index {A} (P : A -> Prop) `{!forall x, Decision (P x)} (l : list A) : option nat :=
  last (fst <$> base.filter (fun x : nat * A => P x.2) (imap pair l)).

(** The loop over the process's own entries: [None] when the signature is
    there, otherwise the place to use. *)
Definition self_place (sig : Z) (l : list Z) : option (option nat) :=
  if decide (sig ∈ l) then None else Some (last_index (fun x => x = 0) l).

Definition AllocSharedMemory (TheSignature : Z) : M (kst F) Z :=
  shm_acquire ;;;
  i <- myproc ;;
  p <- get_proc i ;;
  match self_place TheSignature (p_SelfSharedMemory p) with
  | None | Some None =>
      shm_release ;;;
      ret (-1)
  | Some (Some SelfEmptyPlace) =>
      l <- gets k_GlobalSharedMemoryList ;;
      match find_global TheSignature l with
      | Some g =>
          upd_proc i (fun p => p <| p_SelfSharedMemory ::= <[SelfEmptyPlace := TheSignature]> |>) ;;;
          upd_shm g (fun e => e <| s_UserNumber ::= fun n => n + 1 |>) ;;;
          shm_release ;;;
          ret 0
      | None =>
          match last_index (fun e => s_Signature e = 0) l with
          | Some GlobalEmptyPlace =>
              a <- kalloc ;;
              upd_shm GlobalEmptyPlace (fun e => e <| s_VirtualAddress := a |>
                <| s_Signature := TheSignature |> <| s_UserNumber := 1 |>) ;;;
              upd_proc i (fun p => p <| p_SelfSharedMemory ::= <[SelfEmptyPlace := TheSignature]> |>) ;;;
              shm_release ;;;
              ret 0
          | None =>
              shm_release ;;;
              ret (-1)
          end
      end
  end.

Definition DeallocSharedMemory (TheSignature : Z) : M (kst F) Z :=
  shm_acquire ;;;
  i <- myproc ;;
  SelfPlace <- FindSelfSharedMemory i TheSignature ;;
  match SelfPlace with
  | None =>
      shm_release ;;;
      ret (-1)
  | Some SelfPlace =>
      GlobalPlace <- FindGlobalSharedMemory TheSignature ;;
      match GlobalPlace with
      | Some g =>
          upd_shm g (fun e => e <| s_UserNumber ::= fun n => n - 1 |>) ;;;
          upd_proc i (fun p => p <| p_SelfSharedMemory ::= <[SelfPlace := 0]> |>) ;;;
          e <- get_shm g ;;
          when (s_UserNumber e <=? 0)
            (kfree (s_VirtualAddress e) ;;;
             upd_shm g (fun e => e <| s_VirtualAddress := 0xffffffff |> <| s_Signature := 0 |>)) ;;;
          shm_release ;;;
          ret 0
      | None =>
          shm_release ;;;
          ret (-1)
      end
  end.

Definition ReadSharedMemory (TheSignature TheBuffer : Z) : M (kst F) Z :=
  i <- myproc ;;
  SelfPlace <- FindSelfSharedMemory i TheSignature ;;
  match SelfPlace with
  | None => ret (-1)
  | Some _ =>
      GlobalPlace <- FindGlobalSharedMemory TheSignature ;;
      match GlobalPlace with
      | Some g =>
          e <- get_shm g ;;
          bytes <- vload_bytes (s_VirtualAddress e) (Z.to_nat PGSIZE) ;;
          vstore_bytes TheBuffer bytes ;;;
          ret 0
      | None => ret (-1)
      end
  end.

(** strncpy copies the string and its terminating zero: Length + 1 bytes. *)
Definition WriteSharedMemory (TheSignature TheBuffer : Z) : M (kst F) Z :=
  i <- myproc ;;
  SelfPlace <- FindSelfSharedMemory i TheSignature ;;
  match SelfPlace with
  | None => ret (-1)
  | Some _ =>
      GlobalPlace <- FindGlobalSharedMemory TheSignature ;;
      match GlobalPlace with
      | Some g =>
          str <- vload_string TheBuffer ;;
          e <- get_shm g ;;
          vstore_bytes (s_VirtualAddress e) (str ++ [0]) ;;;
          ret 0
      | None => ret (-1)
      end
  end.

End SharedMemory.
