(* ===== verification/SharedTable.v ===== *)
(** Shared memory as segments with users.

    The table of segments is global, the list of the segments it uses is part of
    each process.  AllocSharedMemory and DeallocSharedMemory keep the two
    consistent: they implement a map from signatures to a page and the set of
    processes that use it. *)

From stdpp Require Import base gmap list strings.
From Stdlib Require Import ZArith Lia.
From S2P Require Import Prelude Mem Str Mmu State Kalloc MemTable MemList Vm PageTable AddressSpace CopyUvm CopyOnWrite UserMem SharedMemory.

(** ** Segments *)

Record segment := { seg_page : Z; seg_users : gset nat }.

Abbreviation segments := (gmap Z segment).

(** The signatures process [i] uses. *)
Definition mine (A : segments) (i : nat) : gset Z := dom (base.filter (fun x => i ∈ seg_users x.2) A).

(** Process [i] asks for [sig]; a new segment gets the first of the free pages
    [l].  The contract ends when there is none. *)
Definition spec_alloc (A : segments) (l : list Z) (i : nat) (sig : Z) : option (Z * segments * list Z) :=
  if decide (sig ∈ mine A i \/ Z.of_nat (size (mine A i)) = SHARED_MEMORY_PER_PROC) then Some (-1, A, l)
  else
    match A !! sig with
    | Some x => Some (0, <[sig := {| seg_page := seg_page x; seg_users := {[i]} ∪ seg_users x |}]> A, l)
    | None =>
        if decide (Z.of_nat (size A) = SHARED_MEMORY_GLOBAL) then Some (-1, A, l)
        else
          match l with
          | [] => None
          | page :: l => Some (0, <[sig := {| seg_page := page; seg_users := {[i]} |}]> A, l)
          end
    end.

(** ... gives it back; the last user's segment is gone. *)
Definition spec_dealloc (A : segments) (l : list Z) (i : nat) (sig : Z) : option (Z * segments * list Z) :=
  match A !! sig with
  | Some x =>
      if decide (i ∈ seg_users x) then
        Some (0, if decide (seg_users x = {[i]}) then delete sig A
                 else <[sig := {| seg_page := seg_page x; seg_users := seg_users x ∖ {[i]} |}]> A, l)
      else Some (-1, A, l)
  | None => Some (-1, A, l)
  end.

Lemma elem_of_mine A i sig : sig ∈ mine A i <-> exists x, A !! sig = Some x /\ i ∈ seg_users x.
Proof.
  unfold mine. rewrite elem_of_dom. split.
  - intros [x [H1 H2]%map_lookup_filter_Some]. by exists x.
  - intros (x & H1 & H2). exists x. by apply map_lookup_filter_Some.
Qed.

(** ** Lists with empty places *)

Definition nonzero (l : list Z) : list Z := base.filter (fun x => x <> 0) l.

Lemma elem_of_nonzero l x : x ∈ nonzero l <-> x <> 0 /\ x ∈ l.
Proof. unfold nonzero. by rewrite list_elem_of_filter. Qed.

Lemma nonzero_app l l' : nonzero (l ++ l') = nonzero l ++ nonzero l'.
Proof. apply filter_app. Qed.

Lemma split_at {A} (l : list A) k x : l !! k = Some x ->
  exists l1 l2, l = l1 ++ x :: l2 /\ forall y, <[k := y]> l = l1 ++ y :: l2.
Proof.
  intros H. exists (take k l), (drop (S k) l). split; [by rewrite take_drop_middle|].
  intros y. apply insert_take_drop. by eapply lookup_lt_Some.
Qed.

(** An empty place is filled, or a place emptied. *)
Lemma nonzero_fill l k sig : l !! k = Some 0 -> sig <> 0 -> nonzero (<[k := sig]> l) ≡ₚ sig :: nonzero l.
Proof.
  intros (l1 & l2 & -> & E)%split_at Hs. rewrite E, !nonzero_app. unfold nonzero.
  rewrite filter_cons_True, filter_cons_False by lia. by rewrite Permutation_middle.
Qed.

Lemma nonzero_empty l k sig : l !! k = Some sig -> sig <> 0 -> sig :: nonzero (<[k := 0]> l) ≡ₚ nonzero l.
Proof.
  intros (l1 & l2 & -> & E)%split_at Hs. rewrite E, !nonzero_app. unfold nonzero.
  rewrite filter_cons_False, filter_cons_True by lia. by rewrite Permutation_middle.
Qed.

Lemma nonzero_full l : (0 ∉ l) <-> length (nonzero l) = length l.
Proof.
  unfold nonzero. induction l as [|x l IH]; [split; [done|intros _ H; inversion H]|].
  rewrite not_elem_of_cons. rewrite filter_cons. case_decide as Hx; cbn [length].
  - rewrite IH. split; [intros [_ ?]; lia|intros ?; split; [congruence|lia]].
  - split; [intros [? _]; congruence|]. pose proof (length_filter (fun x => x <> 0) l). lia.
Qed.

(** A NoDup list of signatures is as long as their set is large. *)
Lemma nonzero_size l (X : gset Z) : NoDup (nonzero l) -> (0 ∉ X) ->
  (forall sig, sig <> 0 -> sig ∈ l <-> sig ∈ X) -> size X = length (nonzero l).
Proof.
  intros Hnd H0 H. rewrite <- (size_list_to_set (C := gset Z) (nonzero l)) by done. f_equal.
  apply set_eq. intros x. rewrite elem_of_list_to_set, elem_of_nonzero. split.
  - intros Hx. assert (x <> 0) by (intros ->; done). split; [done|]. by apply H.
  - intros [Hx Hl]. by apply H.
Qed.

Lemma last_index_Some {A} (P : A -> Prop) `{!forall x, Decision (P x)} l k :
  last_index P l = Some k -> exists x, l !! k = Some x /\ P x.
Proof.
  unfold last_index. intros E%last_Some_elem_of. apply list_elem_of_fmap in E as ([k' x] & -> & E).
  apply list_elem_of_filter in E as [HP E]. apply elem_of_lookup_imap in E as (k2 & x2 & [= -> ->] & E). eauto.
Qed.

Lemma last_index_None {A} (P : A -> Prop) `{!forall x, Decision (P x)} l :
  last_index P l = None -> forall x, x ∈ l -> ~ P x.
Proof.
  unfold last_index. intros E%last_None x Hx HP. apply list_elem_of_lookup in Hx as [k Hk].
  apply fmap_nil_inv in E. assert ((k, x) ∈ base.filter (fun x : nat * A => P x.2) (imap pair l)) as Hin.
  - apply list_elem_of_filter. split; [done|]. apply elem_of_lookup_imap. eauto.
  - rewrite E in Hin. inversion Hin.
Qed.

Lemma alter_insert {A} (f : A -> A) (l : list A) k x : l !! k = Some x -> alter f k l = <[k := f x]> l.
Proof.
  intros H. apply list_eq. intros j. destruct (decide (k = j)) as [<-|Hj].
  - rewrite list_lookup_alter_eq, H. symmetry. apply list_lookup_insert_eq. by eapply lookup_lt_Some.
  - by rewrite list_lookup_alter_ne, list_lookup_insert_ne.
Qed.

(** ** The representation *)

Section SharedTable.
Context {F : Type} {KI : KernelImage} {FS : FileSys F}.
Implicit Types s : kst F.

(** Each process lists the segments it uses. *)
Definition self_ok (t : list proc) (A : segments) : Prop := forall i p, t !! i = Some p ->
  Z.of_nat (length (p_SelfSharedMemory p)) = SHARED_MEMORY_PER_PROC /\ NoDup (nonzero (p_SelfSharedMemory p)) /\
  forall sig, sig <> 0 -> sig ∈ p_SelfSharedMemory p <-> sig ∈ mine A i.

(** The global table has every segment once, with the number of its users. *)
Record glob_ok (G : list SharedMemoryEntry) (A : segments) : Prop := {
  go_length : Z.of_nat (length G) = SHARED_MEMORY_GLOBAL;
  go_nodup : NoDup (nonzero (s_Signature <$> G));
  go_entry : forall e, e ∈ G -> s_Signature e <> 0 -> exists x, A !! s_Signature e = Some x /\
    s_VirtualAddress e = seg_page x /\ s_UserNumber e = Z.of_nat (size (seg_users x));
  go_segment : forall sig x, A !! sig = Some x -> sig <> 0 /\ sig ∈ s_Signature <$> G
}.

Definition users_ok (n : nat) (A : segments) : Prop := forall sig x, A !! sig = Some x ->
  seg_users x <> ∅ /\ forall i, i ∈ seg_users x -> (i < n)%nat.

(** Each segment has a page of its own, which is not free. *)
Record pages_ok s (A : segments) (l : list Z) : Prop := {
  pk_inv : kmem_inv s l;
  pk_page : forall sig x, A !! sig = Some x -> kpage (seg_page x) /\ (seg_page x ∉ l) /\ refcount s (seg_page x) = 1;
  pk_inj : forall sig sig' x x', A !! sig = Some x -> A !! sig' = Some x' -> seg_page x = seg_page x' -> sig = sig'
}.

Record shm_rep s (A : segments) (l : list Z) : Prop := {
  sr_lock : k_SharedMemoryLock s = false;
  sr_self : self_ok (k_ptable s) A;
  sr_glob : glob_ok (k_GlobalSharedMemoryList s) A;
  sr_users : users_ok (length (k_ptable s)) A;
  sr_pages : pages_ok s A l
}.

Lemma mine_zero G A i : glob_ok G A -> 0 ∉ mine A i.
Proof. intros H (x & Hx & _)%elem_of_mine. by destruct (go_segment _ _ H _ _ Hx). Qed.

Lemma mine_size t G A i p : self_ok t A -> glob_ok G A -> t !! i = Some p ->
  Z.of_nat (size (mine A i)) = SHARED_MEMORY_PER_PROC <-> 0 ∉ p_SelfSharedMemory p.
Proof.
  intros Hs Hg Hp. destruct (Hs i p Hp) as (Hl & Hnd & Hm).
  rewrite (nonzero_size _ _ Hnd (mine_zero G A i Hg) Hm), nonzero_full. lia.
Qed.

Lemma segments_size G A : glob_ok G A -> Z.of_nat (size A) = SHARED_MEMORY_GLOBAL <-> 0 ∉ s_Signature <$> G.
Proof.
  intros [H1 H2 H3 H4]. rewrite <- size_dom, (nonzero_size (s_Signature <$> G) (dom A)), nonzero_full, length_fmap; [lia|done| |].
  - intros [x Hx]%elem_of_dom. by destruct (H4 0 x Hx).
  - intros sig Hs. rewrite elem_of_dom. split.
    + intros (e & -> & He)%list_elem_of_fmap. destruct (H3 e He Hs) as (x & Hx & _). eauto.
    + intros [x Hx]. by apply (H4 sig x).
Qed.

(** A process gets a segment it did not use. *)
Lemma self_add t A i p k sig x :
  self_ok t A -> t !! i = Some p -> p_SelfSharedMemory p !! k = Some 0 -> sig <> 0 -> sig ∉ mine A i ->
  i ∈ seg_users x -> (forall j, j <> i -> j ∈ seg_users x <-> sig ∈ mine A j) ->
  self_ok (<[i := p <| p_SelfSharedMemory ::= <[k := sig]> |>]> t) (<[sig := x]> A).
Proof.
  intros Hs Hp Hk Hsig Hnew Hi Hj j q Hq.
  assert (forall j' g, g ∈ mine (<[sig := x]> A) j' <-> (g = sig /\ j' ∈ seg_users x) \/ (g <> sig /\ g ∈ mine A j')) as Hm.
  { intros j' g. rewrite !elem_of_mine. destruct (decide (g = sig)) as [->|Hne].
    - rewrite lookup_insert_eq. split; [|naive_solver]. intros (y & [= <-] & ?). naive_solver.
    - rewrite lookup_insert_ne by congruence. naive_solver. }
  destruct (decide (j = i)) as [->|Hne].
  - rewrite list_lookup_insert_eq in Hq by (by eapply lookup_lt_Some). injection Hq as <-.
    destruct (Hs i p Hp) as (Hl & Hnd & Hmine). cbn. pose proof (nonzero_fill _ _ sig Hk Hsig) as Hperm. split_and!.
    + by rewrite length_insert.
    + rewrite Hperm. apply NoDup_cons. split; [|done]. intros [_ H]%elem_of_nonzero. apply Hnew. by apply Hmine.
    + intros g Hs'. rewrite Hm, <- (Hmine g) by done.
      assert (g ∈ <[k := sig]> (p_SelfSharedMemory p) <-> g ∈ nonzero (<[k := sig]> (p_SelfSharedMemory p))) as ->
        by (rewrite elem_of_nonzero; naive_solver).
      rewrite Hperm, elem_of_cons, elem_of_nonzero. destruct (decide (g = sig)); naive_solver.
  - rewrite list_lookup_insert_ne in Hq by done. destruct (Hs j q Hq) as (Hl & Hnd & Hmine). split_and!; [done|done|].
    intros g Hs'. rewrite Hm, Hmine by done. destruct (decide (g = sig)) as [->|]; [rewrite Hj by done|]; naive_solver.
Qed.

(** ... gives one up. *)
Lemma self_remove t A A' i p k sig :
  self_ok t A -> t !! i = Some p -> p_SelfSharedMemory p !! k = Some sig -> sig <> 0 ->
  (forall j g, g ∈ mine A' j <-> g ∈ mine A j /\ ~ (g = sig /\ j = i)) ->
  self_ok (<[i := p <| p_SelfSharedMemory ::= <[k := 0]> |>]> t) A'.
Proof.
  intros Hs Hp Hk Hsig Hm j q Hq. destruct (decide (j = i)) as [->|Hne].
  - rewrite list_lookup_insert_eq in Hq by (by eapply lookup_lt_Some). injection Hq as <-.
    destruct (Hs i p Hp) as (Hl & Hnd & Hmine). cbn. pose proof (nonzero_empty _ _ sig Hk Hsig) as Hperm.
    rewrite <- Hperm in Hnd. apply NoDup_cons in Hnd as [Hnin Hnd]. split_and!.
    + by rewrite length_insert.
    + done.
    + intros g Hs'. rewrite Hm, <- (Hmine g) by done.
      assert (g ∈ <[k := 0]> (p_SelfSharedMemory p) <-> g ∈ nonzero (<[k := 0]> (p_SelfSharedMemory p))) as ->
        by (rewrite elem_of_nonzero; naive_solver).
      assert (g ∈ p_SelfSharedMemory p <-> g ∈ nonzero (p_SelfSharedMemory p)) as -> by (rewrite elem_of_nonzero; naive_solver).
      rewrite <- Hperm, elem_of_cons. split; [intros H; split; [by right|intros [-> _]; done]|naive_solver].
  - rewrite list_lookup_insert_ne in Hq by done. destruct (Hs j q Hq) as (Hl & Hnd & Hmine). split_and!; [done|done|].
    intros g Hs'. rewrite Hm, Hmine by done. naive_solver.
Qed.

(** One entry of the global table changes, and with it the segments it is about. *)
Lemma glob_replace G1 e G2 e' A A' :
  glob_ok (G1 ++ e :: G2) A -> A' !! 0 = None ->
  (forall sig, sig <> s_Signature e -> sig <> s_Signature e' -> A' !! sig = A !! sig) ->
  (s_Signature e' <> 0 -> (s_Signature e' = s_Signature e \/ A !! s_Signature e' = None) /\
     exists x, A' !! s_Signature e' = Some x /\ s_VirtualAddress e' = seg_page x /\
       s_UserNumber e' = Z.of_nat (size (seg_users x))) ->
  (s_Signature e' <> s_Signature e -> s_Signature e <> 0 -> A' !! s_Signature e = None) ->
  glob_ok (G1 ++ e' :: G2) A'.
Proof.
  intros [H1 H2 H3 H4] H0 Hsame Hnew Hold.
  assert (forall d, d ∈ G1 ++ G2 -> s_Signature d <> 0 -> s_Signature d <> s_Signature e) as Hne.
  { intros d Hd Hd0 E. rewrite fmap_app, nonzero_app in H2. cbn [fmap list_fmap] in H2.
    unfold nonzero in H2 at 2. rewrite filter_cons_True in H2 by congruence. fold (nonzero (s_Signature <$> G2)) in H2.
    rewrite <- Permutation_middle in H2. apply NoDup_cons in H2 as [Hn _]. apply Hn. rewrite <- nonzero_app, <- fmap_app.
    apply elem_of_nonzero. split; [congruence|]. rewrite <- E. by apply list_elem_of_fmap_2. }
  assert (forall d, d ∈ G1 ++ G2 -> d ∈ G1 ++ e :: G2) as Hin by (intros d; rewrite !elem_of_app, elem_of_cons; naive_solver).
  assert (forall d, d ∈ G1 ++ G2 -> s_Signature d <> 0 -> s_Signature d <> s_Signature e') as Hne'.
  { intros d Hd Hd0 E. destruct Hnew as [[Ee|Hnone] _]; [congruence|by apply (Hne d); congruence|].
    destruct (H3 d (Hin d Hd) Hd0) as (x & Hx & _). congruence. }
  constructor.
  - by rewrite length_app in *.
  - rewrite fmap_app, nonzero_app in *. cbn [fmap list_fmap] in *.
    assert (NoDup (nonzero (s_Signature <$> G1) ++ nonzero (s_Signature <$> G2))) as Hnd.
    { eapply sublist_NoDup; [exact H2|]. apply sublist_app; [done|]. unfold nonzero. rewrite filter_cons.
      case_decide; [by constructor|done]. }
    unfold nonzero at 2. rewrite filter_cons. case_decide as Hz; [|done]. rewrite <- Permutation_middle. apply NoDup_cons.
    split; [|done]. rewrite <- nonzero_app, <- fmap_app. intros [_ (d & E & Hd)%list_elem_of_fmap]%elem_of_nonzero.
    by apply (Hne' d Hd); congruence.
  - intros d Hd Hd0. assert (d = e' \/ d ∈ G1 ++ G2) as [->|Hd'] by (rewrite elem_of_app, elem_of_cons in *; naive_solver).
    + by apply Hnew.
    + rewrite Hsame by auto. by apply H3; auto.
  - intros sig x Hx. assert (sig <> 0) as Hs0 by (intros ->; congruence). split; [done|].
    destruct (decide (sig = s_Signature e')) as [->|Hs1]; [apply list_elem_of_fmap_2; rewrite elem_of_app, elem_of_cons; naive_solver|].
    destruct (decide (sig = s_Signature e)) as [->|Hs2]; [rewrite Hold in Hx by congruence; done|].
    rewrite Hsame in Hx by done. destruct (H4 sig x Hx) as [_ (d & -> & Hd)%list_elem_of_fmap].
    apply list_elem_of_fmap_2. rewrite elem_of_app, elem_of_cons in *. naive_solver.
Qed.

(** ** The operations *)

Lemma find_global_Some sig G g : find_global sig G = Some g -> exists e, G !! g = Some e /\ s_Signature e = sig.
Proof.
  unfold find_global. intros E. destruct (list_find _ G) as [[k e]|] eqn:H; [|done]. injection E as <-.
  apply list_find_Some in H as (H1 & H2 & _). eauto.
Qed.

Lemma find_global_None sig G : find_global sig G = None -> forall e, e ∈ G -> s_Signature e <> sig.
Proof.
  unfold find_global. intros E. destruct (list_find _ G) as [[k e]|] eqn:H; [done|].
  apply list_find_None in H. by rewrite Forall_forall in H.
Qed.

Lemma find_self_Some sig l k : find_self sig l = Some k -> l !! k = Some sig.
Proof.
  unfold find_self. intros E. destruct (list_find _ l) as [[k' e]|] eqn:H; [|done]. injection E as <-.
  apply list_find_Some in H as (H1 & -> & _). done.
Qed.

Lemma find_self_None sig l : find_self sig l = None -> sig ∉ l.
Proof.
  unfold find_self. intros E. destruct (list_find _ l) as [[k' e]|] eqn:H; [done|].
  apply list_find_None in H. rewrite Forall_forall in H. intros Hin. by apply (H sig Hin).
Qed.

Lemma find_global_segment G A sig : glob_ok G A -> sig <> 0 ->
  match find_global sig G with
  | Some g => exists e x G1 G2, G = G1 ++ e :: G2 /\ (forall f, alter f g G = G1 ++ f e :: G2) /\ G !! g = Some e /\
      s_Signature e = sig /\ A !! sig = Some x /\ s_VirtualAddress e = seg_page x /\
      s_UserNumber e = Z.of_nat (size (seg_users x))
  | None => A !! sig = None
  end.
Proof.
  intros [H1 H2 H3 H4] Hs. destruct (find_global sig G) as [g|] eqn:E.
  - apply find_global_Some in E as (e & He & Ee). destruct (split_at _ _ _ He) as (G1 & G2 & EG & Hins).
    destruct (H3 e) as (x & Hx & Hp & Hu); [by eapply list_elem_of_lookup_2|congruence|].
    exists e, x, G1, G2. split; [done|]. split; [intros f; by rewrite (alter_insert f _ _ e He), Hins|].
    by rewrite <- Ee.
  - destruct (A !! sig) as [x|] eqn:Hx; [|done]. destruct (H4 sig x Hx) as [_ (e & -> & He)%list_elem_of_fmap].
    by apply (find_global_None _ _ E e He) in Hs || destruct (find_global_None _ _ E e He eq_refl).
Qed.

Lemma shm_acquire_eq s : k_SharedMemoryLock s = false -> shm_acquire s = Ret tt (s <| k_SharedMemoryLock := true |>).
Proof. intros H. unfold shm_acquire, acquire. by rewrite H. Qed.

Lemma shm_release_eq s : k_SharedMemoryLock s = true -> shm_release s = Ret tt (s <| k_SharedMemoryLock := false |>).
Proof. intros H. unfold shm_release, release. by rewrite H. Qed.

Lemma wp_upd_shm s g e f (Q : unit -> kst F -> Prop) : k_GlobalSharedMemoryList s !! g = Some e ->
  Q tt (s <| k_GlobalSharedMemoryList ::= alter f g |>) -> wp (upd_shm g f) s Q.
Proof. intros He HQ. unfold upd_shm. wp_steps. unfold wp, get_shm. rewrite He. done. Qed.

Lemma refcount_rest s s' q : k_mem s' = k_mem s -> refcount s' q = refcount s q.
Proof. unfold refcount. by intros ->. Qed.

Lemma pages_ok_rest s s' A A' l : k_phys s' = k_phys s -> k_mem s' = k_mem s ->
  (forall sig x', A' !! sig = Some x' -> exists x, A !! sig = Some x /\ seg_page x' = seg_page x) ->
  pages_ok s A l -> pages_ok s' A' l.
Proof.
  intros E1 E2 HA [H1 H2 H3]. constructor.
  - by eapply kmem_inv_rest.
  - intros sig x' Hx'. destruct (HA sig x' Hx') as (x & Hx & ->). rewrite (refcount_rest s s') by done. by apply (H2 sig).
  - intros sig sig' x x' (y & Hy & ->)%HA (y' & Hy' & ->)%HA. by apply H3.
Qed.

Lemma pages_add s A l n sig U : pages_ok s A (n :: l) -> A !! sig = None ->
  pages_ok (kalloc_post s n) (<[sig := {| seg_page := n; seg_users := U |}]> A) l.
Proof.
  intros [H1 H2 H3] Hsig. pose proof (ki_pages _ _ H1) as [Hk _]%Forall_cons.
  pose proof (ki_nodup _ _ H1) as [Hn _]%NoDup_cons. constructor.
  - by apply kalloc_post_inv.
  - intros g x [[<- <-]|[Hne Hx]]%lookup_insert_Some.
    + cbn [seg_page]. split; [done|]. split; [done|]. rewrite kalloc_post_refcount by done. by case_decide.
    + destruct (H2 g x Hx) as (K1 & [K2 K2']%not_elem_of_cons & K3). split; [done|]. split; [done|].
      rewrite kalloc_post_refcount by done. by case_decide; [congruence|].
  - intros g g' x x' [[<- <-]|[Hne Hx]]%lookup_insert_Some [[<- <-]|[Hne' Hx']]%lookup_insert_Some E; cbn in E.
    + done.
    + destruct (H2 g' x' Hx') as (_ & [K2 _]%not_elem_of_cons & _). congruence.
    + destruct (H2 g x Hx) as (_ & [K2 _]%not_elem_of_cons & _). congruence.
    + by apply (H3 g g' x x').
Qed.

Lemma unlock_again s A l : shm_rep s A l ->
  (s <| k_SharedMemoryLock := true |>) <| k_SharedMemoryLock := false |> = s.
Proof. intros [H _ _ _ _]. destruct s. cbn in *. by subst. Qed.

(** A process joins a segment. *)
Lemma join_rep s A l i p k sig x g e G1 G2 :
  shm_rep s A l -> k_ptable s !! i = Some p -> p_SelfSharedMemory p !! k = Some 0 -> sig <> 0 -> sig ∉ mine A i ->
  k_GlobalSharedMemoryList s = G1 ++ e :: G2 -> s_Signature e = sig -> A !! sig = Some x ->
  s_VirtualAddress e = seg_page x -> s_UserNumber e = Z.of_nat (size (seg_users x)) ->
  let e' := e <| s_UserNumber ::= fun n => n + 1 |> in
  g = G1 ++ e' :: G2 ->
  shm_rep (s <| k_SharedMemoryLock := true |>
             <| k_ptable := <[i := p <| p_SelfSharedMemory ::= <[k := sig]> |>]> (k_ptable s) |>
             <| k_GlobalSharedMemoryList := g |> <| k_SharedMemoryLock := false |>)
    (<[sig := {| seg_page := seg_page x; seg_users := {[i]} ∪ seg_users x |}]> A) l.
Proof.
  intros [H1 H2 H3 H4 H5] Hp Hk Hs Hnew EG Ee Hx Ea Eu e' ->.
  assert (i ∉ seg_users x) as Hi by (intros Hi; apply Hnew, elem_of_mine; eauto).
  constructor; cbn.
  - done.
  - apply self_add; try done; [cbn; set_solver|]. intros j Hj. cbn. rewrite elem_of_mine.
    split; [intros; exists x; set_solver|]. intros (y & Hy & ?). set_solver.
  - rewrite EG in H3. apply (glob_replace G1 e G2 e' A); [done| | | |].
    + rewrite lookup_insert_ne by done. destruct (A !! 0) as [y|] eqn:E; [|done]. by destruct (go_segment _ _ H3 0 y E).
    + intros sg Hs1 _. apply lookup_insert_ne. congruence.
    + intros _. split; [by left|]. eexists. change (s_Signature e') with (s_Signature e). rewrite Ee, lookup_insert_eq.
      split; [done|]. split; [done|]. cbn. rewrite Eu, size_union, size_singleton by set_solver. lia.
    + done.
  - rewrite length_insert. intros sg y [[<- <-]|[Hne Hy]]%lookup_insert_Some; [|by apply (H4 sg)].
    cbn. split; [set_solver|]. intros j [->%elem_of_singleton|Hj]%elem_of_union; [by eapply lookup_lt_Some|by apply (H4 sig x)].
  - eapply pages_ok_rest; [..|exact H5]; try done. intros sg y [[<- <-]|[Hne Hy]]%lookup_insert_Some; eauto.
Qed.

(** A process creates a segment. *)
Lemma create_rep s A l i p k sig n g e G1 G2 :
  shm_rep s A (n :: l) -> k_ptable s !! i = Some p -> p_SelfSharedMemory p !! k = Some 0 -> sig <> 0 ->
  k_GlobalSharedMemoryList s = G1 ++ e :: G2 -> s_Signature e = 0 -> A !! sig = None ->
  let e' := e <| s_VirtualAddress := n |> <| s_Signature := sig |> <| s_UserNumber := 1 |> in
  g = G1 ++ e' :: G2 ->
  shm_rep ((kalloc_post (s <| k_SharedMemoryLock := true |>) n)
             <| k_GlobalSharedMemoryList := g |>
             <| k_ptable := <[i := p <| p_SelfSharedMemory ::= <[k := sig]> |>]> (k_ptable s) |>
             <| k_SharedMemoryLock := false |>)
    (<[sig := {| seg_page := n; seg_users := {[i]} |}]> A) l.
Proof.
  intros [H1 H2 H3 H4 H5] Hp Hk Hs EG Ee Hx e' ->.
  assert (forall j, sig ∉ mine A j) as Hm by (intros j (y & Hy & _)%elem_of_mine; congruence).
  constructor; cbn.
  - done.
  - apply self_add; try done; [cbn; set_solver|]. intros j Hj. cbn. specialize (Hm j). set_solver.
  - rewrite EG in H3. apply (glob_replace G1 e G2 e' A); [done| | | |].
    + rewrite lookup_insert_ne by done. destruct (A !! 0) as [y|] eqn:E; [|done]. by destruct (go_segment _ _ H3 0 y E).
    + intros sg _ Hs1. apply lookup_insert_ne. intros E. apply Hs1. by rewrite <- E.
    + intros _. change (s_Signature e') with sig. split; [by right|]. eexists. rewrite lookup_insert_eq.
      split; [done|]. split; [done|]. cbn. by rewrite size_singleton.
    + done.
  - rewrite length_insert. intros sg y [[<- <-]|[Hne Hy]]%lookup_insert_Some; [|by apply (H4 sg)].
    cbn. split; [set_solver|]. intros j ->%elem_of_singleton. by eapply lookup_lt_Some.
  - pose proof (pages_add s A l n sig {[i]} H5 Hx) as Hadd.
    eapply (pages_ok_rest (kalloc_post s n)); [..|exact Hadd]; try done. eauto.
Qed.

(** A process leaves a segment that has other users. *)
Lemma leave_rep s A l i p k sig x g e G1 G2 :
  shm_rep s A l -> k_ptable s !! i = Some p -> p_SelfSharedMemory p !! k = Some sig -> sig <> 0 ->
  k_GlobalSharedMemoryList s = G1 ++ e :: G2 -> s_Signature e = sig -> A !! sig = Some x ->
  s_VirtualAddress e = seg_page x -> s_UserNumber e = Z.of_nat (size (seg_users x)) ->
  i ∈ seg_users x -> seg_users x <> {[i]} ->
  let e' := e <| s_UserNumber ::= fun n => n - 1 |> in
  g = G1 ++ e' :: G2 ->
  shm_rep (s <| k_SharedMemoryLock := true |> <| k_GlobalSharedMemoryList := g |>
             <| k_ptable := <[i := p <| p_SelfSharedMemory ::= <[k := 0]> |>]> (k_ptable s) |>
             <| k_SharedMemoryLock := false |>)
    (<[sig := {| seg_page := seg_page x; seg_users := seg_users x ∖ {[i]} |}]> A) l.
Proof.
  intros [H1 H2 H3 H4 H5] Hp Hk Hs EG Ee Hx Ea Eu Hi Hother e' ->. constructor; cbn.
  - done.
  - eapply self_remove; try done. intros j sg. rewrite !elem_of_mine. destruct (decide (sg = sig)) as [->|Hne].
    + rewrite lookup_insert_eq. split.
      * intros (y & [= <-] & Hy). cbn in Hy. split; [exists x; set_solver|set_solver].
      * intros [(y & Hy & Hj) Hn]. eexists. split; [done|]. cbn. assert (y = x) as -> by congruence. set_solver.
    + rewrite lookup_insert_ne by congruence. naive_solver.
  - rewrite EG in H3. apply (glob_replace G1 e G2 e' A); [done| | | |].
    + rewrite lookup_insert_ne by done. destruct (A !! 0) as [y|] eqn:E; [|done]. by destruct (go_segment _ _ H3 0 y E).
    + intros sg Hs1 _. apply lookup_insert_ne. congruence.
    + intros _. split; [by left|]. eexists. change (s_Signature e') with (s_Signature e). rewrite Ee, lookup_insert_eq.
      split; [done|]. split; [done|]. cbn. rewrite Eu, size_difference, size_singleton by set_solver.
      assert (size (seg_users x) <> 0%nat) by (intros E%size_empty_inv; set_solver). lia.
    + done.
  - rewrite length_insert. intros sg y [[<- <-]|[Hne Hy]]%lookup_insert_Some; [|by apply (H4 sg)].
    cbn. split; [|intros j [Hj _]%elem_of_difference; by apply (H4 sig x)].
    intros E. apply Hother, set_eq. intros j. rewrite elem_of_singleton. split; [|by intros ->]. intros Hj.
    destruct (decide (j = i)) as [->|Hne]; [done|]. assert (j ∈ seg_users x ∖ {[i]}) as Hj' by set_solver.
    rewrite E in Hj'. set_solver.
  - eapply pages_ok_rest; [..|exact H5]; try done. intros sg y [[<- <-]|[Hne Hy]]%lookup_insert_Some; eauto.
Qed.

(** The last user leaves a segment. *)
Lemma last_rep s A l i p k sig x g e G1 G2 :
  shm_rep s A l -> k_ptable s !! i = Some p -> p_SelfSharedMemory p !! k = Some sig -> sig <> 0 ->
  k_GlobalSharedMemoryList s = G1 ++ e :: G2 -> s_Signature e = sig -> A !! sig = Some x ->
  seg_users x = {[i]} ->
  let e' := e <| s_UserNumber ::= fun n => n - 1 |> <| s_VirtualAddress := 0xffffffff |> <| s_Signature := 0 |> in
  g = G1 ++ e' :: G2 ->
  shm_rep ((set_refcount s (seg_page x) 0) <| k_GlobalSharedMemoryList := g |>
             <| k_ptable := <[i := p <| p_SelfSharedMemory ::= <[k := 0]> |>]> (k_ptable s) |>
             <| k_SharedMemoryLock := false |>) (delete sig A) l.
Proof.
  intros [H1 H2 H3 H4 H5] Hp Hk Hs EG Ee Hx Hi e' ->. constructor; cbn.
  - done.
  - eapply self_remove; try done. intros j sg. rewrite !elem_of_mine. destruct (decide (sg = sig)) as [->|Hne].
    + rewrite lookup_delete_eq. split; [by intros (y & ? & _)|]. intros [(y & Hy & Hj) Hn]. exfalso. apply Hn.
      assert (y = x) as -> by congruence. set_solver.
    + rewrite lookup_delete_ne by congruence. naive_solver.
  - rewrite EG in H3. apply (glob_replace G1 e G2 e' A); [done| | | |].
    + rewrite lookup_delete_ne by done. destruct (A !! 0) as [y|] eqn:E; [|done]. by destruct (go_segment _ _ H3 0 y E).
    + intros sg Hs1 _. apply lookup_delete_ne. congruence.
    + done.
    + intros _ _. rewrite Ee. apply lookup_delete_eq.
  - rewrite length_insert. intros sg y [Hne Hy]%lookup_delete_Some. by apply (H4 sg).
  - destruct H5 as [K1 K2 K3]. destruct (K2 sig x Hx) as (Kx & Kl & Kc). constructor.
    + eapply kmem_inv_rest; [..|by apply (set_refcount_inv s l (seg_page x) 0)]; done.
    + intros sg y [Hne Hy]%lookup_delete_Some. destruct (K2 sg y Hy) as (Ky & Kly & Kcy). split; [done|]. split; [done|].
      rewrite (refcount_rest (set_refcount s (seg_page x) 0)), set_refcount_refcount by done.
      case_decide as E; [|done]. exfalso. apply Hne. by apply (K3 sig sg x y).
    + intros sg sg' y y' [_ Hy]%lookup_delete_Some [_ Hy']%lookup_delete_Some. by apply K3.
Qed.

Lemma alloc_ok s A l i p sig r A' l' : shm_rep s A l -> k_curproc s = Some i -> k_ptable s !! i = Some p -> sig <> 0 ->
  spec_alloc A l i sig = Some (r, A', l') ->
  wp (AllocSharedMemory sig) s (fun r' s' => r' = r /\ shm_rep s' A' l' /\ length (k_ptable s') = length (k_ptable s)).
Proof.
  intros Hrep Hc Hp Hs Hspec. pose proof Hrep as [H1 H2 H3 H4 H5]. destruct (H2 i p Hp) as (_ & _ & Hmine).
  unfold AllocSharedMemory. wp_steps. eapply wp_eq; [by apply shm_acquire_eq|]. wp_steps. eapply wp_myproc; [done|].
  wp_steps. eapply wp_get_proc; [done|].
  assert (forall Q : Z -> kst F -> Prop, Q (-1) s -> wp (shm_release ;;; ret (-1)) (s <| k_SharedMemoryLock := true |>) Q) as Hfail.
  { intros Q HQ. wp_steps. eapply wp_eq; [by apply shm_release_eq|]. wp_steps. by rewrite (unlock_again s A l). }
  unfold spec_alloc in Hspec. unfold self_place.
  destruct (decide (sig ∈ p_SelfSharedMemory p)) as [Hin|Hin].
  { rewrite decide_True in Hspec by (left; by apply Hmine). injection Hspec as <- <- <-. by apply Hfail. }
  destruct (last_index (fun x => x = 0) (p_SelfSharedMemory p)) as [k|] eqn:Ek.
  2: { rewrite decide_True in Hspec.
       - injection Hspec as <- <- <-. by apply Hfail.
       - right. apply (mine_size _ _ _ _ _ H2 H3 Hp). intros H0. by apply (last_index_None _ _ Ek 0 H0). }
  apply last_index_Some in Ek as (z & Hk & ->).
  assert (sig ∉ mine A i) as Hnew by (by rewrite <- Hmine).
  rewrite decide_False in Hspec.
  2: { intros [?|E]; [done|]. apply (mine_size _ _ _ _ _ H2 H3 Hp) in E. apply E. by eapply list_elem_of_lookup_2. }
  wp_steps. cbn [k_GlobalSharedMemoryList upd]. change (k_GlobalSharedMemoryList _) with (k_GlobalSharedMemoryList s).
  pose proof (find_global_segment _ _ sig H3 Hs) as Hfind.
  destruct (find_global sig (k_GlobalSharedMemoryList s)) as [g|].
  - destruct Hfind as (e & x & G1 & G2 & EG & Halt & He & Ee & Hx & Ea & Eu). rewrite Hx in Hspec. injection Hspec as <- <- <-.
    wp_steps. eapply wp_upd_proc; [done|]. wp_steps. eapply wp_upd_shm; [done|]. wp_steps.
    eapply wp_eq; [by apply shm_release_eq|]. wp_steps. split; [done|]. split; [|cbn; by rewrite length_insert].
    eapply (join_rep s A l i p k sig x _ e G1 G2); try done.
  - rewrite Hfind in Hspec.
    destruct (last_index (fun e => s_Signature e = 0) (k_GlobalSharedMemoryList s)) as [g|] eqn:Eg.
    + apply last_index_Some in Eg as (e & He & Ee). destruct (split_at _ _ _ He) as (G1 & G2 & EG & Hins).
      rewrite decide_False in Hspec.
      2: { intros E. apply (segments_size _ _ H3) in E. apply E. rewrite <- Ee. apply list_elem_of_fmap_2.
           by eapply list_elem_of_lookup_2. }
      destruct l as [|n l]; [done|]. injection Hspec as <- <- <-. wp_steps.
      eapply wp_eq; [eapply kalloc_head, (kmem_inv_rest s); [..|apply H5]; done|]. wp_steps.
      eapply wp_upd_shm; [done|]. wp_steps. eapply wp_upd_proc; [done|]. wp_steps.
      eapply wp_eq; [by apply shm_release_eq|]. wp_steps. split; [done|]. split; [|cbn; by rewrite length_insert].
      eapply (create_rep s A l i p k sig n _ e G1 G2); try done. cbn. by rewrite (alter_insert _ _ _ e He), Hins.
    + rewrite decide_True in Hspec.
      * injection Hspec as <- <- <-. by apply Hfail.
      * apply (segments_size _ _ H3). intros (e & E & He)%list_elem_of_fmap. by apply (last_index_None _ _ Eg e He).
Qed.

Lemma wp_get_shm s g e (Q : SharedMemoryEntry -> kst F -> Prop) :
  k_GlobalSharedMemoryList s !! g = Some e -> Q e s -> wp (get_shm g) s Q.
Proof. intros He HQ. unfold wp, get_shm. by rewrite He. Qed.

Lemma alter_alter {A} (f h : A -> A) (l : list A) k : alter f k (alter h k l) = alter (f ∘ h) k l.
Proof.
  apply list_eq. intros j. destruct (decide (k = j)) as [<-|Hj].
  - rewrite !list_lookup_alter_eq. by destruct (l !! k).
  - by rewrite !list_lookup_alter_ne.
Qed.

(** A set with a member has one member only if it is a singleton. *)
Lemma one_user (U : gset nat) i : i ∈ U -> Z.of_nat (size U) - 1 <= 0 <-> U = {[i]}.
Proof.
  intros Hi. split.
  - intros H. assert (size U = 1%nat) as H1.
    { assert (size U <> 0%nat) by (intros E%size_empty_inv; set_solver). lia. }
    apply size_1_elem_of in H1 as [j Hj]. set_solver.
  - intros ->. rewrite size_singleton. lia.
Qed.

Lemma dealloc_ok s A l i p sig r A' l' : shm_rep s A l -> k_curproc s = Some i -> k_ptable s !! i = Some p -> sig <> 0 ->
  spec_dealloc A l i sig = Some (r, A', l') ->
  wp (DeallocSharedMemory sig) s (fun r' s' => r' = r /\ shm_rep s' A' l' /\ length (k_ptable s') = length (k_ptable s)).
Proof.
  intros Hrep Hc Hp Hs Hspec. pose proof Hrep as [H1 H2 H3 H4 H5]. destruct (H2 i p Hp) as (_ & _ & Hmine).
  unfold DeallocSharedMemory, FindSelfSharedMemory, FindGlobalSharedMemory. wp_steps.
  eapply wp_eq; [by apply shm_acquire_eq|]. wp_steps. eapply wp_myproc; [done|]. wp_steps. eapply wp_get_proc; [done|]. wp_steps.
  unfold spec_dealloc in Hspec. destruct (find_self sig (p_SelfSharedMemory p)) as [k|] eqn:Ek.
  2: { apply find_self_None in Ek. assert (Some (-1, A, l) = Some (r, A', l')) as [= <- <- <-].
       { rewrite <- Hspec. destruct (A !! sig) as [x|] eqn:Hx; [|done]. rewrite decide_False; [done|].
         intros Hi. apply Ek, Hmine; [done|]. apply elem_of_mine. eauto. }
       wp_steps. eapply wp_eq; [by apply shm_release_eq|]. wp_steps. by rewrite (unlock_again s A l). }
  apply find_self_Some in Ek. assert (sig ∈ mine A i) as (x & Hx & Hi)%elem_of_mine by (apply Hmine; [done|]; by eapply list_elem_of_lookup_2).
  rewrite Hx, decide_True in Hspec by done. injection Hspec as <- <- <-. wp_steps.
  match goal with |- context [find_global sig ?G] => change G with (k_GlobalSharedMemoryList s) end.
  pose proof (find_global_segment _ _ sig H3 Hs) as Hfind.
  destruct (find_global sig (k_GlobalSharedMemoryList s)) as [g|]; [|congruence].
  destruct Hfind as (e & y & G1 & G2 & EG & Halt & He & Ee & Hy & Ea & Eu). assert (y = x) as -> by congruence.
  wp_steps. eapply wp_upd_shm; [done|]. wp_steps. eapply wp_upd_proc; [done|]. wp_steps.
  eapply wp_get_shm; [cbn; rewrite list_lookup_alter_eq, He; done|].
  match goal with |- context [s_UserNumber ?x <=? 0] => change (s_UserNumber x) with (s_UserNumber e - 1) end. rewrite Eu.
  destruct (Z.leb_spec (Z.of_nat (size (seg_users x)) - 1) 0) as [Hle|Hgt]; cbn [when]; wp_steps.
  - apply (one_user _ i Hi) in Hle. rewrite decide_True by done.
    destruct (pk_page _ _ _ H5 sig x Hx) as (Kx & Kl & Kc).
    match goal with |- wp (kfree ?a) ?t ?Q => change (wp (kfree (s_VirtualAddress e)) t Q) end. rewrite Ea.
    eapply wp_eq; [apply kfree_shared; [apply (ki_lock _ _ (pk_inv _ _ _ H5))|done|]|].
    { rewrite (refcount_rest s) by done. lia. }
    wp_steps. eapply wp_upd_shm; [cbn; rewrite list_lookup_alter_eq, He; done|]. wp_steps.
    eapply wp_eq; [by apply shm_release_eq|]. wp_steps. split; [done|]. split; [|cbn; by rewrite length_insert].
    rewrite (refcount_rest s), Kc by done.
    eapply (last_rep s A l i p k sig x (alter _ g (alter _ g (k_GlobalSharedMemoryList s))) e G1 G2); try done.
    rewrite alter_alter. apply Halt.
  - rewrite decide_False by (intros E; apply (one_user _ i Hi) in E; lia).
    eapply wp_eq; [by apply shm_release_eq|]. wp_steps. split; [done|]. split; [|cbn; by rewrite length_insert].
    eapply (leave_rep s A l i p k sig x _ e G1 G2); try done.
    intros E. apply (one_user _ i Hi) in E. lia.
Qed.

(** ** Sequences of calls by several processes *)

Inductive shm_call := Alloc (sig : Z) | Dealloc (sig : Z).

Definition call_signature (c : shm_call) : Z := match c with Alloc sig | Dealloc sig => sig end.

(** Process [i] makes a call. *)
Definition run_call (i : nat) (c : shm_call) : M (kst F) Z :=
  modify (fun s => s <| k_curproc := Some i |>) ;;;
  match c with Alloc sig => AllocSharedMemory sig | Dealloc sig => DeallocSharedMemory sig end.

Fixpoint run_calls (cs : list (nat * shm_call)) : M (kst F) (list Z) :=
  match cs with
  | [] => ret []
  | (i, c) :: cs => r <- run_call i c ;; rs <- run_calls cs ;; ret (r :: rs)
  end.

Definition spec_call (n : nat) (A : segments) (l : list Z) (i : nat) (c : shm_call) : option (Z * segments * list Z) :=
  if decide ((i < n)%nat /\ call_signature c <> 0) then
    match c with Alloc sig => spec_alloc A l i sig | Dealloc sig => spec_dealloc A l i sig end
  else None.

Fixpoint spec_calls (n : nat) (A : segments) (l : list Z) (cs : list (nat * shm_call)) : option (list Z * segments * list Z) :=
  match cs with
  | [] => Some ([], A, l)
  | (i, c) :: cs =>
      match spec_call n A l i c with
      | Some (r, A, l) =>
          match spec_calls n A l cs with Some (rs, A, l) => Some (r :: rs, A, l) | None => None end
      | None => None
      end
  end.

Lemma rep_curproc s A l i : shm_rep s A l -> shm_rep (s <| k_curproc := Some i |>) A l.
Proof. intros [H1 H2 H3 H4 [K1 K2 K3]]. constructor; try done. constructor; [|exact K2|exact K3]. by eapply kmem_inv_rest; [..|exact K1]. Qed.

Lemma call_ok s A l i c r A' l' : shm_rep s A l -> spec_call (length (k_ptable s)) A l i c = Some (r, A', l') ->
  wp (run_call i c) s (fun r' s' => r' = r /\ shm_rep s' A' l' /\ length (k_ptable s') = length (k_ptable s)).
Proof.
  intros Hrep Hspec. unfold spec_call in Hspec. destruct (decide _) as [[Hi Hs]|]; [|done].
  apply lookup_lt_is_Some in Hi as [p Hp]. pose proof (rep_curproc s A l i Hrep) as Hrep'.
  unfold run_call. wp_steps. destruct c as [sig|sig];
    [by apply (alloc_ok _ A l i p sig r A' l' Hrep')|by apply (dealloc_ok _ A l i p sig r A' l' Hrep')].
Qed.


(** DeallocSharedMemory(0), a system call any process can make, halts the
    machine: 0 marks the empty places of both tables, so that a process with a
    free place passes for a user of an unused entry of the global table, whose
    page, none, is then freed. *)
Theorem dealloc_zero_panics s i p :
  k_SharedMemoryLock s = false -> k_curproc s = Some i -> k_ptable s !! i = Some p -> 0 ∈ p_SelfSharedMemory p ->
  0 ∈ s_Signature <$> k_GlobalSharedMemoryList s ->
  (forall e, e ∈ k_GlobalSharedMemoryList s -> s_Signature e = 0 ->
     s_UserNumber e <= 1 /\ (s_VirtualAddress e = 0 \/ s_VirtualAddress e = 0xffffffff)) ->
  DeallocSharedMemory 0 s = Panic "kfree".
Proof.
  intros Hl Hc Hp H0 HG Hun. unfold DeallocSharedMemory, FindSelfSharedMemory, FindGlobalSharedMemory.
  rewrite (bind_ret_eq _ _ _ _ _ (shm_acquire_eq s Hl)). set (s1 := s <| k_SharedMemoryLock := true |>).
  assert (myproc s1 = Ret i s1) as Em by (unfold myproc; change (k_curproc s1) with (k_curproc s); by rewrite Hc).
  assert (get_proc i s1 = Ret p s1) as Eg by (unfold get_proc; change (k_ptable s1) with (k_ptable s); by rewrite Hp).
  rewrite (bind_ret_eq _ _ _ _ _ Em). unfold bind at 1 2. rewrite Eg. cbn [ret].
  destruct (find_self 0 (p_SelfSharedMemory p)) as [k|] eqn:Ek; [|by apply find_self_None in Ek]. unfold bind at 1, gets.
  change (k_GlobalSharedMemoryList s1) with (k_GlobalSharedMemoryList s).
  destruct (find_global 0 (k_GlobalSharedMemoryList s)) as [g|] eqn:Egl.
  2: { apply list_elem_of_fmap in HG as (e & E & He). by destruct (find_global_None _ _ Egl e He). }
  apply find_global_Some in Egl as (e & He & Ee). destruct (Hun e) as [Hu Ha]; [by eapply list_elem_of_lookup_2|done|].
  set (f := fun e => e <| s_UserNumber ::= fun n => n - 1 |>). set (s2 := s1 <| k_GlobalSharedMemoryList ::= alter f g |>).
  assert (upd_shm g f s1 = Ret tt s2) as E1.
  { unfold upd_shm, bind, get_shm. change (k_GlobalSharedMemoryList s1) with (k_GlobalSharedMemoryList s). by rewrite He. }
  set (h := fun p => p <| p_SelfSharedMemory ::= <[k := 0]> |>). set (s3 := s2 <| k_ptable := <[i := h p]> (k_ptable s2) |>).
  assert (upd_proc i h s2 = Ret tt s3) as E2 by (unfold upd_proc; change (k_ptable s2) with (k_ptable s); by rewrite Hp).
  assert (get_shm g s3 = Ret (f e) s3) as E3.
  { unfold get_shm. change (k_GlobalSharedMemoryList s3) with (alter f g (k_GlobalSharedMemoryList s)).
    by rewrite list_lookup_alter_eq, He. }
  rewrite (bind_ret_eq _ _ _ _ _ E1), (bind_ret_eq _ _ _ _ _ E2), (bind_ret_eq _ _ _ _ _ E3).
  change (s_UserNumber (f e)) with (s_UserNumber e - 1). change (s_VirtualAddress (f e)) with (s_VirtualAddress e).
  destruct (Z.leb_spec (s_UserNumber e - 1) 0); [|lia]. cbn [when]. unfold bind at 1 2.
  rewrite kfree_bad; [done|]. destruct Ha as [-> | ->]; [right; right; vm_compute; discriminate|left; vm_compute; discriminate].
Qed.

End SharedTable.

Module SharedWitness.

#[local] Existing Instance boot_image.
#[local] Existing Instance CowWitness.no_files.

(** Two processes, after boot, with some free pages. *)
Definition two : kst unit := (boot tt) <| k_ptable := [proc0; proc0] |>.

Lemma two_rep : exists (s : kst unit) l, shm_rep s ∅ l /\ length (k_ptable s) = 2%nat /\ length l = 4%nat.
Proof.
  destruct (KallocWitness.some_pages 4 two ltac:(lia)) as (m & k & Hinv).
  exists (two <| k_phys := m |> <| k_mem := k |>), (rev (pages 0x80200000 4)). split; [|split]; cycle 1.
  - reflexivity.
  - rewrite length_rev. unfold pages. by rewrite length_fmap, length_seq.
  - constructor; [done| | | |].
    + intros i p Hp. assert (p = proc0) as -> by (destruct i as [|[|i]]; [by injection Hp as <-|by injection Hp as <-|done]).
      split; [done|]. split; [vm_compute; constructor|]. intros sig Hs. split; [|by intros (x & Hx & _)%elem_of_mine].
      intros H. repeat (apply elem_of_cons in H as [H|H]; [done|]). inversion H.
    + constructor; [reflexivity|vm_compute; constructor| |by intros sig x Hx].
      intros e He Hs. apply elem_of_replicate in He as [-> _]. done.
    + by intros sig x Hx.
    + constructor; [exact Hinv|by intros sig x Hx|by intros sig sig' x x' Hx].
Qed.


Lemma dealloc_zero_panics_witness :
  DeallocSharedMemory 0 (two <| k_curproc := Some 0%nat |>) = Panic "kfree".
Proof.
  apply (dealloc_zero_panics (two <| k_curproc := Some 0%nat |>) 0%nat proc0); try reflexivity.
  - left.
  - left.
  - intros e He _. apply elem_of_replicate in He as [-> _]. cbn. split; [lia|]. left. reflexivity.
Defined.

End SharedWitness.
