(* ===== verification/Proc.v ===== *)
(** Processes, src/src/proc.c (the scheduler is in Sched.v).

    The saved context of a process and its kernel stack contents are not part of
    the state; [wait] and [exit] end in [Sleep] where they call the scheduler. *)

From stdpp Require Import base gmap list strings.
From Stdlib Require Import ZArith Lia.
From S2P Require Import Prelude Mem Str Mmu State Kalloc MemTable Vm Sched Fsys Bio Log Inode Console Fs Pipe File SwapFile UserMem SharedMemory.

Section Proc.
Context {KI : KernelImage}.

Definition pinit : M kernel unit := modify (fun s => s <| k_ptable_lock := false |>).

Definition InitVirtualMemoryData : M kernel unit :=
  ptable_acquire ;;;
  modify (fun s => s <| k_ptable ::= fmap (fun p =>
    p <| p_MemoryEntryNum := 0 |> <| p_SwapPageNum := 0 |>
      <| p_MemoryListHead := 0 |> <| p_MemoryListTail := 0 |>
      <| p_MemoryTableListHead := 0 |> <| p_MemoryTableListTail := 0 |>
      <| p_SwapTableListHead := 0 |> <| p_SwapTableListTail := 0 |>
      <| p_FilesForSwap ::= fmap (fun _ => None) |>) |>) ;;;
  ptable_release.

(** The four bytes, most significant first. *)
Definition IntToChar (num : Z) : list Z :=
  [Z.land (Z.shiftr num 24) 0xff; Z.land (Z.shiftr num 16) 0xff;
   Z.land (Z.shiftr num 8) 0xff; Z.land num 0xff].

Definition in_use (p : proc) : bool :=
  match p_state p with UNUSED | EMBRYO | ZOMBIE => false | _ => true end.

(** One process of GetMemoryInfo; [n] processes were listed before. *)
Definition process_info (ResultList : Z) (i : nat) (n : Z) : M kernel Z :=
  p <- get_proc i ;;
  if in_use p then
    let ProcessNumber := n + 1 in
    shared <- GetProcessSharedMemoryInfo i ;;
    let Base := u32 (ResultList + ProcessNumber * 16) in
    vstore_bytes Base (IntToChar (u32 (p_pid p))) ;;;
    vstore_bytes (u32 (Base + 4)) (IntToChar (u32 (p_MemoryEntryNum p))) ;;;
    vstore_bytes (u32 (Base + 8)) (IntToChar (u32 (p_SwapPageNum p))) ;;;
    vstore_bytes (u32 (Base + 12)) (IntToChar (u32 shared)) ;;;
    ret ProcessNumber
  else ret n.

Fixpoint processes_info (ResultList : Z) (l : list nat) (n : Z) : M kernel Z :=
  match l with
  | [] => ret n
  | i :: l => n <- process_info ResultList i n ;; processes_info ResultList l n
  end.

Definition GetMemoryInfo (ResultList : Z) : M kernel unit :=
  PhysicalMemoryUsed <- GetPhysicalPageTotal ;;
  SharedMemoryGlobal <- GetGlobalSharedMemoryInfo ;;
  ptable_acquire ;;;
  np <- gets (fun s => length (k_ptable s)) ;;
  ProcessNumber <- processes_info ResultList (seq 0 np) 0 ;;
  vstore_bytes ResultList (IntToChar (u32 ProcessNumber)) ;;;
  vstore_bytes (u32 (ResultList + 4)) (IntToChar (u32 PhysicalMemoryUsed)) ;;;
  vstore_bytes (u32 (ResultList + 8)) (IntToChar (u32 SharedMemoryGlobal)) ;;;
  ptable_release.

(** ** Creating processes *)

Definition unused_proc (l : list proc) : option nat := fst <$> list_find (fun p => p_state p = UNUSED) l.

(** The search of allocproc, with ptable.lock held: an unused slot gets the next pid. *)
Definition claim_proc : M kernel (option nat) :=
  ptable_acquire ;;;
  l <- gets k_ptable ;;
  match unused_proc l with
  | None =>
      ptable_release ;;;
      ret None
  | Some i =>
      pid <- gets k_nextpid ;;
      upd_proc i (fun p => p <| p_state := EMBRYO |> <| p_pid := pid |>) ;;;
      modify (fun s => s <| k_nextpid := i32 (pid + 1) |>) ;;;
      ptable_release ;;;
      ret (Some i)
  end.

Definition unclaim_proc (i : nat) : M kernel unit := upd_proc i (fun p => p <| p_state := UNUSED |>).

Definition allocproc : M kernel (option nat) :=
  op <- claim_proc ;;
  match op with
  | None => ret None
  | Some i =>
      kstack <- kalloc ;;
      upd_proc i (fun p => p <| p_kstack := kstack |>) ;;;
      if kstack =? 0 then
        unclaim_proc i ;;;
        ret None
      else
        p <- get_proc i ;;
        (if p_MemoryTableListHead p =? 0 then AllocMemoryTable i else ClearMemoryTable i) ;;;
        upd_proc i (fun p => p <| p_MemoryEntryNum := 0 |> <| p_MemoryListHead := 0 |> <| p_MemoryListTail := 0 |>
          <| p_SelfSharedMemory ::= fmap (fun _ => 0) |>) ;;;
        ret (Some i)
  end.

(** safestrcpy(dst, src, n) on byte arrays. *)
Definition lsafestrcpy (dst src : list Z) (n : nat) : list Z :=
  let s := take (n - 1) (cstr src) in
  s ++ [0] ++ drop (length s + 1) dst.

Definition UCODE_SEL : Z := Z.lor (Z.shiftl 3 3) 3.
Definition UDATA_SEL : Z := Z.lor (Z.shiftl 4 3) 3.
Definition FL_IF : Z := 0x200.
Definition name_initcode : list Z := [105; 110; 105; 116; 99; 111; 100; 101].

(** [initcode] is the program linked into the kernel. *)
Definition userinit (initcode : list Z) : M kernel unit :=
  op <- allocproc ;;
  modify (fun s => s <| k_initproc := op |>) ;;;
  i <- deref_proc op ;;
  pgdir <- setupkvm ;;
  upd_proc i (fun p => p <| p_pgdir := pgdir |>) ;;;
  if pgdir =? 0 then panic "userinit: out of memory?"
  else
    inituvm pgdir initcode ;;;
    upd_proc i (fun p => p <| p_sz := PGSIZE |>
      <| p_tf := tf0 <| tf_cs := UCODE_SEL |> <| tf_ds := UDATA_SEL |> <| tf_es := UDATA_SEL |>
                     <| tf_ss := UDATA_SEL |> <| tf_eflags := FL_IF |> <| tf_esp := PGSIZE |> <| tf_eip := 0 |> |>
      <| p_name ::= fun n => lsafestrcpy n name_initcode 16 |>) ;;;
    cwd <- namei [slash] ;;
    upd_proc i (fun p => p <| p_cwd := cwd |>) ;;;
    ptable_acquire ;;;
    upd_proc i (fun p => p <| p_state := RUNNABLE |>) ;;;
    ptable_release.

Definition growproc (n : Z) : M kernel Z :=
  i <- myproc ;;
  p <- get_proc i ;;
  let sz := p_sz p in
  if u32 (USERTOP - p_stackSize p - PGSIZE) <? u32 (sz + n) then ret (-1)
  else
    sz' <- (if 0 <? n then allocuvm (p_pgdir p) sz (u32 (sz + n))
            else if n <? 0 then deallocuvm (p_pgdir p) sz (u32 (sz + n))
            else ret sz) ;;
    if negb (n =? 0) && (sz' =? 0) then ret (-1)
    else
      upd_proc i (fun p => p <| p_sz := sz' |>) ;;;
      switchuvm (Some i) ;;;
      ret 0.

(** The copy of the swap files in fork, 2048 bytes at a time. *)
Definition copy_swap_files (np curproc : nat) : M kernel unit :=
  r <- iter_pos (2 ^ 32) (fun offset =>
    let* (nread, bytes) := ReadSwapFile curproc offset (PGSIZE / 2) ;;
    if nread =? 0 then ret (inr tt)
    else
      w <- WriteSwapFile np bytes offset nread ;;
      if w =? -1 then panic "[ERROR] Copying swapfile in fork()."
      else ret (inl (u32 (offset + nread)))) 0 ;;
  match r with
  | inr _ => ret tt
  | inl _ => no_fuel
  end.

(** What the child gets from its parent, and the moment it may run. *)
Definition fork_fields (np curproc : nat) (cp : proc) : M kernel unit :=
  upd_proc np (fun p => p <| p_sz := p_sz cp |> <| p_stackSize := p_stackSize cp |>
    <| p_parent := Some curproc |> <| p_tf := (p_tf cp) <| tf_eax := 0 |> |>).

Definition fork_start (np : nat) : M kernel unit :=
  ptable_acquire ;;;
  upd_proc np (fun p => p <| p_state := RUNNABLE |>) ;;;
  ptable_release.

Definition fork : M kernel Z :=
  curproc <- myproc ;;
  op <- allocproc ;;
  match op with
  | None => ret (-1)
  | Some np =>
      cp <- get_proc curproc ;;
      pgdir <- copyuvm (p_pgdir cp) (p_sz cp) ;;
      upd_proc np (fun p => p <| p_pgdir := pgdir |>) ;;;
      if pgdir =? 0 then
        p <- get_proc np ;;
        kfree (p_kstack p) ;;;
        upd_proc np (fun p => p <| p_kstack := 0 |> <| p_state := UNUSED |>) ;;;
        ret (-1)
      else
        cp <- get_proc curproc ;;
        fork_fields np curproc cp ;;;
        for_each (seq 0 (Z.to_nat NOFILE)) (fun fd =>
          match p_ofile cp !! fd with
          | Some (Some f) =>
              f' <- filedup f ;;
              upd_proc np (fun p => p <| p_ofile ::= <[fd := Some f']> |>)
          | _ => ret tt
          end) ;;;
        cwd <- (match p_cwd cp with Some cwd => idup cwd | None => crash "null cwd" end) ;;
        upd_proc np (fun p => p <| p_cwd := Some cwd |>
          <| p_name ::= fun n => lsafestrcpy n (p_name cp) 16 |>) ;;;
        p <- get_proc np ;;
        let pid := p_pid p in
        InitializeSwapFiles np ;;;
        when (negb (name_is (p_name cp) name_init) && negb (name_is (p_name cp) name_sh))
          (copy_swap_files np curproc) ;;;
        r <- CopyVirtualMemoryData np curproc ;;
        if r =? -1 then ret (-1)
        else
          fork_start np ;;;
          ret pid
  end.

(** ** Ending processes *)

Definition initproc_chan : M kernel Z :=
  ip <- gets k_initproc ;;
  ret (match ip with Some i => proc_chan i | None => 0 end).

(** Abandoned children go to init. *)
Definition reparent (curproc : nat) (i : nat) : M kernel unit :=
  p <- get_proc i ;;
  if decide (p_parent p = Some curproc) then
    ip <- gets k_initproc ;;
    upd_proc i (fun p => p <| p_parent := ip |>) ;;;
    c <- initproc_chan ;;
    when (bool_decide (p_state p = ZOMBIE)) (wakeup1 c)
  else ret tt.

(** The end of exit: the parent is woken, the children go to init, and the process is a zombie. *)
Definition exit_tail (curproc : nat) : M kernel unit :=
  ptable_acquire ;;;
  p <- get_proc curproc ;;
  wakeup1 (match p_parent p with Some i => proc_chan i | None => 0 end) ;;;
  n <- gets (fun s => length (k_ptable s)) ;;
  for_each (seq 0 n) (reparent curproc) ;;;
  upd_proc curproc (fun p => p <| p_state := ZOMBIE |>) ;;;
  sched.

Definition exit : M kernel unit :=
  cur <- gets k_curproc ;;
  ip <- gets k_initproc ;;
  if decide (cur = ip) then panic "init exiting"
  else
    curproc <- deref_proc cur ;;
    for_each (seq 0 (Z.to_nat NOFILE)) (fun fd =>
      p <- get_proc curproc ;;
      match p_ofile p !! fd with
      | Some (Some f) =>
          fileclose f ;;;
          upd_proc curproc (fun p => p <| p_ofile ::= <[fd := None]> |>)
      | _ => ret tt
      end) ;;;
    r <- ClearSwapFiles curproc ;;
    if negb (r =? 0) then panic "[ERROR] Remove swap file error."
    else
      for_each (seq 0 (Z.to_nat SHARED_MEMORY_PER_PROC)) (fun k =>
        p <- get_proc curproc ;;
        match p_SelfSharedMemory p !! k with
        | Some sig =>
            when (negb (sig =? 0))
              (DeallocSharedMemory sig ;;;
               upd_proc curproc (fun p => p <| p_SelfSharedMemory ::= <[k := 0]> |>))
        | None => crash "SelfSharedMemory index"
        end) ;;;
      begin_op ;;;
      p <- get_proc curproc ;;
      match p_cwd p with Some cwd => iput cwd | None => crash "null cwd" end ;;;
      end_op ;;;
      upd_proc curproc (fun p => p <| p_cwd := None |>) ;;;
      exit_tail curproc.

(** The scan of wait: the first zombie child is collected and its pid returned;
    otherwise whether there are children. *)
Definition reap (i : nat) : M kernel Z :=
  p <- get_proc i ;;
  kfree (p_kstack p) ;;;
  upd_proc i (fun p => p <| p_kstack := 0 |>) ;;;
  freevm (p_pgdir p) ;;;
  upd_proc i (fun p => p <| p_pid := 0 |> <| p_parent := None |> <| p_name ::= <[0%nat := 0]> |>
    <| p_killed := false |> <| p_state := UNUSED |>) ;;;
  ret (p_pid p).

Definition zombie_child (curproc : nat) (l : list proc) : option nat :=
  fst <$> list_find (fun p => p_parent p = Some curproc /\ p_state p = ZOMBIE) l.
Definition has_kids (curproc : nat) (l : list proc) : bool :=
  existsb (fun p => bool_decide (p_parent p = Some curproc)) l.

(** The body of the loop of wait, with ptable.lock held; a process that has to
    wait runs it again when it is woken. *)
Definition wait_loop (curproc : nat) : M kernel Z :=
  l <- gets k_ptable ;;
  match zombie_child curproc l with
  | Some i =>
      pid <- reap i ;;
      ptable_release ;;;
      ret pid
  | None =>
      p <- get_proc curproc ;;
      if negb (has_kids curproc l) || p_killed p then
        ptable_release ;;;
        ret (-1)
      else sleep (proc_chan curproc) None
  end.

Definition wait : M kernel Z :=
  curproc <- myproc ;;
  ptable_acquire ;;;
  wait_loop curproc.

(** [first] is the static flag of forkret. *)
Definition forkret (first : bool) : M kernel unit :=
  ptable_release ;;;
  when first (iinit ROOTDEV ;;; initlog ROOTDEV).

End Proc.
