(* ===== verification/Family.v ===== *)
(** Parents and children, src/src/proc.c: fork, exit, wait and kill on the process
    table.

    The theorem is about every sequence of the pieces of code that change the
    state, the parent, the channel or the pid of a process: those of Sched.v and
    the named pieces of allocproc, fork, exit and wait.  What lies between them,
    such as copying an address space, does not touch these fields; for the code
    inside wait that gives back the memory of a child this is shown here. *)

From stdpp Require Import base gmap list strings.
From Stdlib Require Import ZArith Lia.
From S2P Require Import Prelude Mem Str Mmu State Kalloc MemTable Vm Sched Fsys Bio Log Inode Console Fs Pipe File SwapFile UserMem SharedMemory Proc.

Create HintDb keeps discriminated.

Section Family.
Context {KI : KernelImage}.
Implicit Types (s : kernel) (p q : proc).

(** ** Code that leaves the family alone *)

(** What the other processes see of a process. *)
Definition kin p : procstate * option nat * Z * Z * bool := (p_state p, p_parent p, p_chan p, p_pid p, p_killed p).

Definition fam s : list (procstate * option nat * Z * Z * bool) * option nat * option nat * bool :=
  (kin <$> k_ptable s, k_curproc s, k_initproc s, k_ptable_lock s).

Definition keeps {A} (m : M kernel A) : Prop :=
  forall s, match m s with Ret _ s' => fam s' = fam s | Sleep _ _ => False | _ => True end.

Lemma keeps_ret {A} (a : A) : keeps (ret a).
Proof. done. Qed.
Lemma keeps_gets {A} (f : kernel -> A) : keeps (gets f).
Proof. done. Qed.
Lemma keeps_panic {A} msg : keeps (panic msg : M kernel A).
Proof. done. Qed.
Lemma keeps_crash {A} msg : keeps (crash msg : M kernel A).
Proof. done. Qed.
Lemma keeps_no_fuel {A} : keeps (no_fuel : M kernel A).
Proof. done. Qed.

Lemma keeps_bind {A B} (m : M kernel A) (k : A -> M kernel B) : keeps m -> (forall a, keeps (k a)) -> keeps (bind m k).
Proof.
  intros Hm Hk s. unfold bind. specialize (Hm s). destruct (m s) as [a s'| | | |]; try done.
  specialize (Hk a s'). destruct (k a s'); try done. by rewrite Hk.
Qed.

Lemma keeps_when b (m : M kernel unit) : keeps m -> keeps (when b m).
Proof. by destruct b. Qed.

Lemma keeps_for_each {A} (l : list A) (body : A -> M kernel unit) : (forall a, keeps (body a)) -> keeps (for_each l body).
Proof. intros H. induction l as [|x l IH]; [done|]. by apply keeps_bind. Qed.

Lemma keeps_for_find {A R} (l : list A) (body : A -> M kernel (option R)) : (forall a, keeps (body a)) -> keeps (for_find l body).
Proof. intros H. induction l as [|x l IH]; [done|]. cbn [for_find]. apply keeps_bind; [done|]. by intros [v|]. Qed.

Lemma keeps_modify (f : kernel -> kernel) : (forall s, fam (f s) = fam s) -> keeps (modify f).
Proof. intros H s. apply H. Qed.

Lemma keeps_upd_proc i g : (forall p, kin (g p) = kin p) -> keeps (upd_proc i g).
Proof.
  intros H s. unfold upd_proc. destruct (k_ptable s !! i) as [p|] eqn:E; [|done]. unfold fam. cbn. rewrite list_fmap_insert, H.
  by rewrite list_insert_id by (by rewrite list_lookup_fmap, E).
Qed.

Lemma keeps_get_proc i : keeps (get_proc i).
Proof. intros s. unfold get_proc. by destruct (k_ptable s !! i). Qed.
End Family.

(** One step of a proof that code leaves the family alone. *)
Ltac keep :=
  match goal with
  | |- keeps (bind _ _) => apply keeps_bind; [|intros]
  | |- keeps (ret _) => apply keeps_ret
  | |- keeps (gets _) => apply keeps_gets
  | |- keeps (panic _) => apply keeps_panic
  | |- keeps (crash _) => apply keeps_crash
  | |- keeps no_fuel => apply keeps_no_fuel
  | |- keeps (when _ _) => apply keeps_when
  | |- keeps (for_each _ _) => apply keeps_for_each; intros
  | |- keeps (for_find _ _) => apply keeps_for_find; intros
  | |- keeps (modify _) => apply keeps_modify; done
  | |- keeps (upd_proc _ _) => apply keeps_upd_proc; done
  | |- keeps (get_proc _) => apply keeps_get_proc
  | |- keeps (match ?x with _ => _ end) => destruct x
  | |- keeps (let _ := _ in _) => cbv zeta
  | |- keeps _ => solve [auto with keeps]
  end.

Ltac keep_all := repeat keep.

(** An access to one cell of the state. *)
Tactic Notation "keep_prim" reference(f) :=
  let s := fresh "s" in let E := fresh "E" in
  intros s; match goal with |- match ?c with _ => _ end => destruct c eqn:E end; try done; unfold f in E; repeat case_match; simplify_eq; done.

Section Frame.
Context {KI : KernelImage}.

Lemma keeps_acquire_kmem : keeps (kmem_acquire : M kernel unit).
Proof. intros s. unfold kmem_acquire, acquire. by destruct (km_lock _). Qed.
Lemma keeps_release_kmem : keeps (kmem_release : M kernel unit).
Proof. intros s. unfold kmem_release, release. by destruct (km_lock _). Qed.
Lemma keeps_rc_get i : keeps (rc_get i : M kernel Z).
Proof. keep_prim rc_get. Qed.
Lemma keeps_rc_set i v : keeps (rc_set i v : M kernel unit).
Proof. keep_prim rc_set. Qed.
#[local] Hint Resolve keeps_acquire_kmem keeps_release_kmem keeps_rc_get keeps_rc_set : keeps.

Lemma keeps_kfree v : keeps (kfree v : M kernel unit).
Proof. unfold kfree. keep_all. Qed.
Lemma keeps_kload32 a : keeps (kload32 a : M kernel Z).
Proof. keep_prim kload32. Qed.
Lemma keeps_kstore32 a v : keeps (kstore32 a v : M kernel unit).
Proof. keep_prim kstore32. Qed.
Lemma keeps_mte_get a : keeps (mte_get a : M kernel MemoryTableEntry).
Proof. keep_prim mte_get. Qed.
Lemma keeps_mte_upd a g : keeps (mte_upd a g : M kernel unit).
Proof. keep_prim mte_upd. Qed.
Lemma keeps_mtp_get a : keeps (mtp_get a : M kernel TablePage).
Proof. keep_prim mtp_get. Qed.
Lemma keeps_ste_get a : keeps (ste_get a : M kernel Z).
Proof. keep_prim ste_get. Qed.
Lemma keeps_ste_set a v : keeps (ste_set a v : M kernel unit).
Proof. keep_prim ste_set. Qed.
Lemma keeps_stp_get a : keeps (stp_get a : M kernel TablePage).
Proof. keep_prim stp_get. Qed.
#[local] Hint Resolve keeps_kfree keeps_kload32 keeps_kstore32 keeps_mte_get keeps_mte_upd keeps_mtp_get keeps_ste_get keeps_ste_set keeps_stp_get : keeps.

Lemma keeps_find_previous fuel : forall c e, keeps (find_previous fuel c e : M kernel Z).
Proof. induction fuel as [|fuel IH]; intros c e; cbn [find_previous]; keep_all. Qed.
#[local] Hint Resolve keeps_find_previous : keeps.

Lemma keeps_remove_memory i e : keeps (RemoveFromMemoryList i e : M kernel unit).
Proof. unfold RemoveFromMemoryList, mte_fuel. keep_all. Qed.

Lemma keeps_address_loop fuel : forall pg va, keeps (GetAddressInMemoryTable_loop fuel pg va : M kernel Z).
Proof. induction fuel as [|fuel IH]; intros pg va; cbn [GetAddressInMemoryTable_loop]; unfold find_in_memory_page; keep_all. Qed.
#[local] Hint Resolve keeps_remove_memory keeps_address_loop : keeps.

Lemma keeps_address i va : keeps (GetAddressInMemoryTable i va : M kernel Z).
Proof. unfold GetAddressInMemoryTable, mtp_fuel. keep_all. Qed.
#[local] Hint Resolve keeps_address : keeps.

Lemma keeps_swap_loop fuel : forall pg va n, keeps (swap_table_loop fuel pg va n : M kernel (Z * Z + Z)).
Proof. induction fuel as [|fuel IH]; intros pg va n; cbn [swap_table_loop]; unfold find_in_swap_page; keep_all. Qed.
#[local] Hint Resolve keeps_swap_loop : keeps.

Lemma keeps_remove_swap i va : keeps (RemoveFromSwapTable i va : M kernel unit).
Proof. unfold RemoveFromSwapTable, GetAddressInSwapTable, stp_fuel. keep_all. Qed.
#[local] Hint Resolve keeps_remove_swap : keeps.

Lemma keeps_dealloc_loop fuel : forall cur pgdir a sz, keeps (deallocuvm_loop fuel cur pgdir a sz : M kernel unit).
Proof.
  induction fuel as [|fuel IH]; intros cur pgdir a sz; cbn [deallocuvm_loop]; unfold walkpgdir, is_current_pgdir, deref_proc; cbn [negb]; keep_all.
Qed.
#[local] Hint Resolve keeps_dealloc_loop : keeps.

(** Giving back an address space. *)
Lemma keeps_freevm pgdir : keeps (freevm pgdir : M kernel unit).
Proof. unfold freevm, deallocuvm. keep_all. Qed.
End Frame.

#[export] Hint Resolve keeps_kfree keeps_freevm : keeps.

(** ** The invariant *)

Section Invariant.
Context {KI : KernelImage}.
Implicit Types (s : kernel) (p q : proc) (T : list proc).

(** The process [i] sleeps in wait. *)
Definition waiting T (i : nat) : Prop := exists p, T !! i = Some p /\ p_state p = SLEEPING /\ p_chan p = proc_chan i.

Definition live p : Prop := p_state p <> UNUSED /\ p_state p <> EMBRYO /\ p_state p <> ZOMBIE.

(** There is an init; nobody is their own parent; a parent is alive; who sleeps in wait has nobody to collect. *)
Record family T (ip : option nat) : Prop := {
  fo_init : exists i0 p, ip = Some i0 /\ T !! i0 = Some p /\ p_parent p = None /\ live p;
  fo_alive : forall j q k, T !! j = Some q -> p_parent q = Some k -> exists p, T !! k = Some p /\ live p;
  fo_self : forall i p, T !! i = Some p -> p_parent p <> Some i;
  fo_wait : forall i j q, waiting T i -> T !! j = Some q -> p_parent q = Some i -> p_state q <> ZOMBIE;
}.

Definition family_ok s : Prop := family (k_ptable s) (k_initproc s).

Lemma family_kin T T' ip : kin <$> T' = kin <$> T -> family T ip -> family T' ip.
Proof.
  intros E [(i0 & p0 & -> & H0 & Hp0 & Hs0) Hal Hself Hw].
  assert (forall i p', T' !! i = Some p' -> exists p, T !! i = Some p /\ kin p' = kin p) as Hk.
  { intros i p' H. pose proof (f_equal (fun l => l !! i) E) as Ei. cbn in Ei. rewrite !list_lookup_fmap, H in Ei. cbn in Ei.
    destruct (T !! i) as [p|]; [|done]. injection Ei as Ei. exists p. split; [done|]. unfold kin. congruence. }
  assert (forall i p, T !! i = Some p -> exists p', T' !! i = Some p' /\ kin p' = kin p) as Hk'.
  { intros i p H. pose proof (f_equal (fun l => l !! i) E) as Ei. cbn in Ei. rewrite !list_lookup_fmap, H in Ei. cbn in Ei.
    destruct (T' !! i) as [p'|]; [|done]. injection Ei as Ei. exists p'. split; [done|]. unfold kin. congruence. }
  constructor.
  - destruct (Hk' _ _ H0) as (p' & Hp' & [= E1 E2 E3 E4 E5]). exists i0, p'. unfold live. by rewrite E1, E2.
  - intros j q' k (q & Hq & [= E1 E2 E3 E4 E5])%Hk Hpk. rewrite E2 in Hpk. destruct (Hal j q k Hq Hpk) as (p & Hp & Hl).
    destruct (Hk' _ _ Hp) as (p' & Hp' & [= F1 F2 F3 F4 F5]). exists p'. unfold live. by rewrite F1.
  - intros i p' (p & Hp & [= E1 E2 E3 E4 E5])%Hk. rewrite E2. by apply Hself.
  - intros i j q' (p' & (p & Hp & [= E1 E2 E3 E4 E5])%Hk & Hs & Hc) (q & Hq & [= F1 F2 F3 F4 F5])%Hk. rewrite F1, F2.
    apply (Hw i j q); [|done]. exists p. split_and!; congruence.
Qed.

(** The change of one process. *)
Lemma family_upd T ip i p p' : T !! i = Some p -> family T ip ->
  (ip = Some i -> p_parent p' = None /\ live p') ->
  (live p -> live p' \/ forall j q, T !! j = Some q -> p_parent q <> Some i) ->
  (forall k, p_parent p' = Some k -> p_parent p = Some k \/ exists x, T !! k = Some x /\ live x) ->
  p_parent p' <> Some i ->
  (p_state p' = SLEEPING -> p_chan p' = proc_chan i -> forall j q, T !! j = Some q -> p_parent q = Some i -> p_state q <> ZOMBIE) ->
  (forall k, p_state p' = ZOMBIE -> p_parent p' = Some k -> ~ waiting T k) ->
  family (<[i := p']> T) ip.
Proof.
  intros Hi [(i0 & p0 & -> & H0 & Hp0) Hal Hself Hw] Ha He Hf Hb Hc Hd.
  assert (forall j, <[i := p']> T !! j = if decide (j = i) then Some p' else T !! j) as L.
  { intros j. rewrite list_lookup_insert. apply lookup_lt_Some in Hi. repeat case_decide; (done || naive_solver lia). }
  assert (forall k, waiting (<[i := p']> T) k -> k <> i -> waiting T k) as Lw.
  { intros k (x & Hx & Hxs) Hki. rewrite L, decide_False in Hx by done. by exists x. }
  constructor.
  - destruct (decide (i0 = i)) as [->|Hne]; [exists i, p'; rewrite L, decide_True by done; split_and!; [done|done|apply Ha; done..]|]. exists i0, p0. rewrite L, decide_False by done. done.
  - assert (forall j q k, T !! j = Some q -> p_parent q = Some k -> exists x, <[i := p']> T !! k = Some x /\ live x) as Hal'.
    { intros j q k Hq Hqk. destruct (Hal j q k Hq Hqk) as (x & Hx & Hl). rewrite L. case_decide as Ek; [|by exists x].
      subst k. assert (x = p) as -> by congruence. destruct (He Hl) as [Hl'|Hn]; [by exists p'|]. by destruct (Hn j q Hq). }
    intros j q k. rewrite L. case_decide as Ej; [|apply Hal']. intros [= <-] Hpk. destruct (Hf k Hpk) as [Hpk'|(x & Hx & Hl)]; [exact (Hal' i p k Hi Hpk')|].
    exists x. by rewrite L, decide_False by congruence.
  - intros j q. rewrite L. case_decide as E; [intros [= <-]; by subst|apply Hself].
  - intros k j q Hk. rewrite L. destruct (decide (j = i)) as [->|Hji].
    + intros [= <-] Hpk Hz. assert (k <> i) by congruence. eapply (Hd k); eauto.
    + intros Hq Hpk. destruct (decide (k = i)) as [->|Hki]; [|by eapply Hw; eauto].
      destruct Hk as (x & Hx & Hxs & Hxc). rewrite L, decide_True in Hx by done. injection Hx as <-. by eapply Hc.
Qed.

Definition wake (chan : Z) p : proc := if decide (p_state p = SLEEPING /\ p_chan p = chan) then p <| p_state := RUNNABLE |> else p.

Lemma wake_kin chan p : p_parent (wake chan p) = p_parent p /\ p_chan (wake chan p) = p_chan p /\
  (p_state (wake chan p) = p_state p \/ p_state p = SLEEPING /\ p_state (wake chan p) = RUNNABLE).
Proof. unfold wake. case_decide as H; [destruct H; by split_and!; [done|done|right]|by split_and!; [done|done|left]]. Qed.

Lemma live_wake chan p : live p -> live (wake chan p).
Proof. unfold live. destruct (wake_kin chan p) as (_ & _ & [->|[_ ->]]); done. Qed.

Lemma waiting_wake chan T k : waiting (wake chan <$> T) k -> waiting T k /\ chan <> proc_chan k.
Proof.
  intros (p' & H & Hs & Hc). rewrite list_lookup_fmap in H. destruct (T !! k) as [p|] eqn:E; [|done]. injection H as <-.
  destruct (wake_kin chan p) as (_ & E2 & [E3|[_ E3]]); [|congruence]. split; [exists p; split_and!; congruence|].
  intros ->. assert (p_state p = SLEEPING /\ p_chan p = proc_chan k) as Hp by (split; congruence).
  unfold wake in Hs. by rewrite decide_True in Hs.
Qed.

Lemma family_wake chan T ip : family T ip -> family (wake chan <$> T) ip.
Proof.
  intros [(i0 & p0 & -> & H0 & Hp0 & Hs0) Hal Hself Hw]. constructor.
  - exists i0, (wake chan p0). rewrite list_lookup_fmap, H0. split_and!; [done..|by rewrite (proj1 (wake_kin chan p0))|by apply live_wake].
  - intros j q' k. rewrite list_lookup_fmap. destruct (T !! j) as [q|] eqn:E; [|done]. intros [= <-]. destruct (wake_kin chan q) as (-> & _).
    intros Hqk. destruct (Hal j q k E Hqk) as (p & Hp & Hl). exists (wake chan p). rewrite list_lookup_fmap, Hp. by split; [|apply live_wake].
  - intros i p'. rewrite list_lookup_fmap. destruct (T !! i) as [p|] eqn:E; [|done]. intros [= <-]. destruct (wake_kin chan p) as (-> & _). by apply Hself.
  - intros i j q' [Hwt _]%waiting_wake. rewrite list_lookup_fmap. destruct (T !! j) as [q|] eqn:E; [|done]. intros [= <-].
    destruct (wake_kin chan q) as (-> & _ & [->|[_ ->]]); [by eapply Hw|done].
Qed.

(** ** The pieces of code *)

(** [m], run in [s], leaves the processor with the family in order or returns with [Q]. *)
Definition post {A} (m : M kernel A) s (Q : A -> kernel -> Prop) : Prop :=
  match m s with Ret a s' => Q a s' | Sleep _ s' => family_ok s' | _ => True end.

Definition safe {A} (m : M kernel A) s : Prop := post m s (fun _ => family_ok).

Lemma post_bind {A B} (m : M kernel A) (k : A -> M kernel B) s Q : post m s (fun a s' => post (k a) s' Q) -> post (bind m k) s Q.
Proof. unfold post, bind. by destruct (m s). Qed.
Lemma post_ret {A} (a : A) s (Q : A -> kernel -> Prop) : Q a s -> post (ret a) s Q.
Proof. done. Qed.
Lemma post_gets {A} (f : kernel -> A) s (Q : A -> kernel -> Prop) : Q (f s) s -> post (gets f) s Q.
Proof. done. Qed.
Lemma post_modify (f : kernel -> kernel) s (Q : unit -> kernel -> Prop) : Q tt (f s) -> post (modify f) s Q.
Proof. done. Qed.
Lemma post_get_proc i s (Q : proc -> kernel -> Prop) : (forall p, k_ptable s !! i = Some p -> Q p s) -> post (get_proc i) s Q.
Proof. unfold post, get_proc. destruct (k_ptable s !! i); [|done]. intros H. by apply H. Qed.
Lemma post_upd_proc i g s (Q : unit -> kernel -> Prop) :
  (forall p, k_ptable s !! i = Some p -> Q tt (s <| k_ptable := <[i := g p]> (k_ptable s) |>)) -> post (upd_proc i g) s Q.
Proof. unfold post, upd_proc. destruct (k_ptable s !! i); [|done]. intros H. by apply H. Qed.
Lemma post_myproc s (Q : nat -> kernel -> Prop) : (forall i, k_curproc s = Some i -> Q i s) -> post myproc s Q.
Proof. unfold post, myproc. destruct (k_curproc s); [|done]. intros H. by apply H. Qed.
Lemma post_acquire s (Q : unit -> kernel -> Prop) : Q tt (s <| k_ptable_lock := true |>) -> post ptable_acquire s Q.
Proof. unfold post, ptable_acquire, acquire. by destruct (k_ptable_lock s). Qed.
Lemma post_release s (Q : unit -> kernel -> Prop) : Q tt (s <| k_ptable_lock := false |>) -> post ptable_release s Q.
Proof. unfold post, ptable_release, release. by destruct (k_ptable_lock s). Qed.
Lemma post_keeps {A} (m : M kernel A) s (Q : A -> kernel -> Prop) : keeps m -> (forall a s', fam s' = fam s -> Q a s') -> post m s Q.
Proof. intros Hm H. unfold post. specialize (Hm s). destruct (m s); try done. by apply H. Qed.
Lemma post_sched {A} s (Q : A -> kernel -> Prop) : family_ok s -> post sched s Q.
Proof.
  intros H. apply post_bind, post_myproc. intros i _. apply post_bind, post_get_proc. intros p _. apply post_bind, post_gets.
  apply post_bind, post_gets, post_bind, post_gets. destruct (negb _); [done|]. destruct (negb _); [done|].
  case_decide; [done|]. by destruct (fl_if s).
Qed.
Lemma post_mono {A} (m : M kernel A) s (Q Q' : A -> kernel -> Prop) : post m s Q -> (forall a s', Q a s' -> Q' a s') -> post m s Q'.
Proof. intros H HQ. unfold post in *. destruct (m s); try done. by apply HQ. Qed.
Lemma post_for_each {A} (l : list A) (body : A -> M kernel unit) (I : kernel -> Prop) s :
  I s -> (forall a s, I s -> post (body a) s (fun _ => I)) -> post (for_each l body) s (fun _ => I).
Proof.
  intros HI Hb. revert s HI. induction l as [|x l IH]; intros s HI; [done|]. apply post_bind.
  eapply post_mono; [by apply Hb|]. intros [] s' Hs'. by apply IH.
Qed.

Lemma family_fam s s' : fam s' = fam s -> family_ok s -> family_ok s'.
Proof. intros E H. injection E as Ek _ Ei _. unfold family_ok. rewrite Ei. by eapply family_kin. Qed.

Lemma fam_lookup s s' i p : fam s' = fam s -> k_ptable s' !! i = Some p -> exists q, k_ptable s !! i = Some q /\ kin p = kin q.
Proof.
  intros [= Ek _ _ _] H. pose proof (f_equal (fun l => l !! i) Ek) as E. cbn in E. rewrite !list_lookup_fmap, H in E.
  destruct (k_ptable s !! i) as [q|]; [|done]. injection E as E. exists q. split; [done|]. unfold kin. congruence.
Qed.

Lemma init_not s i p : family_ok s -> k_ptable s !! i = Some p -> ~ live p -> k_initproc s <> Some i.
Proof. intros H Hp Hl E. destruct (fo_init _ _ H) as (i0 & p0 & E0 & H0 & _ & Hl0). apply Hl. congruence. Qed.

Lemma init_parent s i p : family_ok s -> k_ptable s !! i = Some p -> k_initproc s = Some i -> p_parent p = None /\ live p.
Proof. intros H Hp E. destruct (fo_init _ _ H) as (i0 & p0 & E0 & H0 & Hpar & Hl0). assert (p0 = p) by congruence. by subst. Qed.

Lemma unused_not_live p : p_state p = UNUSED -> ~ live p.
Proof. by intros E (? & _). Qed.
Lemma embryo_not_live p : p_state p = EMBRYO -> ~ live p.
Proof. by intros E (_ & ? & _). Qed.
Lemma zombie_not_live p : p_state p = ZOMBIE -> ~ live p.
Proof. by intros E (_ & _ & ?). Qed.

End Invariant.

(** One step into code whose pieces are known. *)
Ltac go :=
  match goal with
  | |- safe _ _ => unfold safe
  | |- post (bind _ _) _ _ => apply post_bind
  | |- post (ret _) _ _ => apply post_ret
  | |- post (gets _) _ _ => apply post_gets
  | |- post (modify _) _ _ => apply post_modify
  | |- post (get_proc _) _ _ => let p := fresh "p" in let H := fresh "Hp" in apply post_get_proc; intros p H
  | |- post (upd_proc _ _) _ _ => let p := fresh "p" in let H := fresh "Hp" in apply post_upd_proc; intros p H
  | |- post myproc _ _ => let i := fresh "i" in let H := fresh "Hcur" in apply post_myproc; intros i H
  | |- post ptable_acquire _ _ => apply post_acquire
  | |- post ptable_release _ _ => apply post_release
  | |- post sched _ _ => apply post_sched
  end.

Section Pieces.
Context {KI : KernelImage}.
Implicit Types (s : kernel) (p q : proc).

Lemma safe_claim s : family_ok s -> safe claim_proc s.
Proof.
  intros H. unfold claim_proc. repeat go. destruct (unused_proc _) as [i|] eqn:E; repeat go; [|exact H].
  change (unused_proc (k_ptable s) = Some i) in E. change (k_ptable s !! i = Some p) in Hp.
  unfold unused_proc in E. destruct (list_find _ _) as [[i' p']|] eqn:El; [|done]. injection E as ->.
  apply list_find_Some in El as (Hi & Hu & _). assert (p = p') as -> by congruence.
  pose proof (unused_not_live _ Hu) as Hl. pose proof (init_not s i p' H Hi Hl) as Hip.
  eapply family_upd; try done; [by intros k; left|by apply (fo_self _ _ H i p')].
Qed.

(** Giving back an EMBRYO slot, filling it in and starting it. *)
Lemma safe_embryo s i p g : family_ok s -> k_ptable s !! i = Some p -> p_state p = EMBRYO ->
  (forall k, p_parent (g p) = Some k -> p_parent p = Some k \/ exists x, k_ptable s !! k = Some x /\ live x) ->
  p_parent (g p) <> Some i -> p_state (g p) <> SLEEPING -> p_state (g p) <> ZOMBIE -> safe (upd_proc i g) s.
Proof.
  intros H Hi He Hf Hpa Hs Hz. repeat go. assert (p0 = p) as -> by congruence.
  pose proof (embryo_not_live _ He) as Hl. pose proof (init_not s i p H Hi Hl). by eapply family_upd.
Qed.

Lemma safe_fork_start s i p : family_ok s -> k_ptable s !! i = Some p -> p_state p = EMBRYO -> safe (fork_start i) s.
Proof.
  intros H Hi He. unfold fork_start. repeat go. cbn in Hp. assert (p0 = p) as -> by congruence.
  pose proof (embryo_not_live _ He) as Hl. pose proof (init_not s i p H Hi Hl).
  eapply family_upd; try done; [by intros k; left|by apply (fo_self _ _ H i p)].
Qed.

(** A process that exists changes between running, runnable and sleeping elsewhere. *)
Lemma family_live s i p p' : family_ok s -> k_ptable s !! i = Some p -> p_parent p' = p_parent p ->
  live p' -> (p_state p' = SLEEPING -> p_chan p' <> proc_chan i) ->
  family (<[i := p']> (k_ptable s)) (k_initproc s).
Proof.
  intros H Hi Hpa Hl Hsl. eapply family_upd; [exact Hi|exact H|rewrite Hpa; intros Hip; by destruct (init_parent s i p H Hi Hip)|by left
    |rewrite Hpa; by left|rewrite Hpa; by apply (fo_self _ _ H i p)|intros Hs Hc; by destruct (Hsl Hs)|].
  intros k Hz. by destruct (zombie_not_live _ Hz).
Qed.

Lemma safe_yield s : family_ok s -> safe yield s.
Proof. intros H. unfold yield. repeat go. by apply (family_live s i p). Qed.

Lemma safe_sleep {A} s chan rel : family_ok s -> (forall i, chan <> proc_chan i) -> keeps rel -> safe (sleep (A := A) chan (Some rel)) s.
Proof.
  intros H Hc Hr. unfold sleep. repeat go. destruct (k_curproc s) as [i|]; [|done]. repeat go.
  apply post_keeps; [done|]. intros _ s1 E1. repeat go. apply (family_live s1 i p); try done. by apply (family_fam (s <| k_ptable_lock := true |>)).
Qed.

Lemma safe_wakeup s chan : family_ok s -> safe (wakeup chan) s.
Proof. intros H. unfold wakeup, wakeup1. repeat go. by apply family_wake. Qed.

Lemma family_same s i p p' : family_ok s -> k_ptable s !! i = Some p -> p_parent p' = p_parent p -> p_state p' = p_state p ->
  p_chan p' = p_chan p \/ (forall k, p_chan p' <> proc_chan k) -> family (<[i := p']> (k_ptable s)) (k_initproc s).
Proof.
  intros H Hi Hpa Hst Hch. eapply family_upd; [exact Hi|exact H|..]; unfold live; rewrite ?Hpa, ?Hst; fold (live p).
  - by apply (init_parent s i p).
  - by left.
  - by left.
  - by apply (fo_self _ _ H).
  - intros Hs Hc j q Hq Hqp. destruct Hch as [Hch|Hch]; [|by destruct (Hch i)].
    apply (fo_wait _ _ H i j q); try done. exists p. split_and!; congruence.
  - intros k Hz Hk (x & Hx & Hxs & Hxc). eapply (fo_wait _ _ H k i p); try done. by exists x.
Qed.

Lemma proc_chan_inj i j : proc_chan i = proc_chan j -> i = j.
Proof. unfold proc_chan, chan_addr. lia. Qed.

Lemma no_chan_0 i : 0 <> proc_chan i.
Proof. unfold proc_chan, chan_addr. lia. Qed.

Lemma family_awake s i p : family_ok s -> k_ptable s !! i = Some p -> family_ok (s <| k_ptable := <[i := p <| p_chan := 0 |>]> (k_ptable s) |>).
Proof. intros H Hi. apply (family_same s i p); try done. right. intros k. apply no_chan_0. Qed.

Lemma safe_sleep_return s acq : family_ok s -> keeps acq -> safe (sleep_return (Some acq)) s.
Proof.
  intros H Ha. unfold sleep_return. repeat go. apply post_keeps; [done|]. intros _ s1 E1. eapply family_fam; [exact E1|].
  exact (family_awake s i p H Hp).
Qed.

Lemma post_for_find {A R} (l : list A) (body : A -> M kernel (option R)) (I : kernel -> Prop) s :
  I s -> (forall a s, I s -> post (body a) s (fun _ => I)) -> post (for_find l body) s (fun _ => I).
Proof.
  intros HI Hb. revert s HI. induction l as [|x l IH]; intros s HI; [done|]. apply post_bind.
  eapply post_mono; [by apply Hb|]. intros [r|] s' Hs'; [done|]. by apply IH.
Qed.

Lemma safe_kill s pid : family_ok s -> safe (kill pid) s.
Proof.
  intros H. unfold kill. repeat go. eapply (post_mono _ _ (fun _ => family_ok)).
  - apply post_for_find; [exact H|]. clear s H. intros i s H. repeat go. destruct (p_pid p =? pid); [|done]. repeat go.
    rename p0 into q. assert (family_ok (s <| k_ptable := <[i := q <| p_killed := true |>]> (k_ptable s) |>)) as H1.
    { apply (family_same s i q); try done. by left. }
    destruct (bool_decide _); [|exact H1]. cbn [when]. repeat go. by apply (family_live _ i p0 _ H1).
  - intros r s1 H1. repeat go. exact H1.
Qed.

Lemma keeps_switchuvm op : keeps (switchuvm op : M kernel unit).
Proof. unfold switchuvm, lcr3. keep_all. Qed.

Lemma safe_switch s i : family_ok s -> safe (scheduler_switch i) s.
Proof.
  intros H. unfold scheduler_switch. repeat go. case_decide as Hr; [|done]. repeat go.
  apply post_keeps; [apply keeps_switchuvm|]. intros _ s1 E1. repeat go.
  apply (family_live s1 i p0); try done. by apply (family_fam _ s1 E1).
Qed.

Lemma safe_leave s kpgdir : family_ok s -> safe (scheduler_return kpgdir) s.
Proof. intros H. unfold scheduler_return, switchkvm, lcr3. repeat go. exact H. Qed.


Lemma zombie_child_Some c l i : zombie_child c l = Some i -> exists p, l !! i = Some p /\ p_parent p = Some c /\ p_state p = ZOMBIE.
Proof.
  unfold zombie_child. destruct (list_find _ l) as [[i' p]|] eqn:E; [|done]. intros [= ->].
  apply list_find_Some in E as (Hi & [Hp Hz] & _). by exists p.
Qed.

Lemma zombie_child_None c l j q : zombie_child c l = None -> l !! j = Some q -> p_parent q = Some c -> p_state q <> ZOMBIE.
Proof.
  unfold zombie_child. destruct (list_find _ l) as [[i' p]|] eqn:E; [done|]. intros _ Hq Hp Hz.
  apply list_find_None in E. rewrite Forall_forall in E. by apply (E q); [eapply list_elem_of_lookup_2|].
Qed.

(** Collecting a zombie. *)
Lemma safe_reap s i p : family_ok s -> k_ptable s !! i = Some p -> p_state p = ZOMBIE -> post (reap i) s (fun pid s' => family_ok s' /\ pid = p_pid p).
Proof.
  intros H Hi Hz. unfold reap. repeat go. assert (p0 = p) as -> by congruence. clear Hp.
  apply post_keeps; [auto with keeps|]. intros _ s1 E1. apply post_bind, post_keeps; [apply keeps_upd_proc; done|]. intros _ s2 E2.
  apply post_bind, post_keeps; [auto with keeps|]. intros _ s3 E3. repeat go. split; [|done].
  assert (fam s3 = fam s) as E by congruence. pose proof (family_fam _ _ E H) as H3.
  destruct (fam_lookup _ _ _ _ E Hp) as (q & Hq & Hk). assert (q = p) as -> by congruence. injection Hk as Hk _ _ _ _.
  assert (~ live p0) as Hl by (apply zombie_not_live; congruence). pose proof (init_not s3 i p0 H3 Hp Hl). by eapply family_upd.
Qed.

Lemma safe_wait_loop s cur : family_ok s -> k_curproc s = Some cur -> safe (wait_loop cur) s.
Proof.
  intros H Hcur. unfold wait_loop. repeat go. destruct (zombie_child cur _) as [i|] eqn:Ez.
  - destruct (zombie_child_Some _ _ _ Ez) as (p & Hp & _ & Hz). repeat go. eapply post_mono; [by eapply safe_reap|].
    intros pid s1 [H1 _]. repeat go. exact H1.
  - repeat go. destruct (negb _ || _); repeat go; [exact H|]. unfold sleep. repeat go. rewrite Hcur. repeat go.
    rename p0 into q, Hp0 into Hq. eapply family_upd; [exact Hq|exact H|..]; cbn; [|by left|by left|by apply (fo_self _ _ H)| |done].
    + intros Hip. by destruct (init_parent s cur q H Hq Hip).
    + intros _ _ j x Hx Hxp. by eapply zombie_child_None.
Qed.

Lemma safe_wait s : family_ok s -> safe wait s.
Proof. intros H. unfold wait. repeat go. by apply safe_wait_loop. Qed.

(** wait goes on after it has been woken. *)
Lemma safe_wait_again s cur : family_ok s -> k_curproc s = Some cur -> safe (sleep_return None ;;; wait_loop cur) s.
Proof.
  intros H Hc. unfold sleep_return. repeat go. apply safe_wait_loop; [|exact Hc]. exact (family_awake s i p H Hp).
Qed.


(** ** exit *)

(** A child of [cur] becomes a child of init. *)
Lemma family_adopt T i0 cur j q : family T (Some i0) -> T !! j = Some q -> p_parent q = Some cur ->
  (p_state q = ZOMBIE -> ~ waiting T i0) -> family (<[j := q <| p_parent := Some i0 |>]> T) (Some i0).
Proof.
  intros H Hj Hq Hz. assert (i0 <> j) as Hne.
  { intros <-. destruct H as [(i1 & p & [= <-] & Hp & Hpar & _) _ _ _]. congruence. }
  eapply family_upd; [exact Hj|exact H|congruence|by left| |cbn; congruence| |].
  - cbn. intros k [= <-]. right. destruct (fo_init _ _ H) as (i1 & p & [= <-] & Hp & _ & Hl). by exists p.
  - cbn. intros Hs Hc. intros k p Hk. apply (fo_wait _ _ H j k p); [by exists q|done].
  - cbn. intros k Hs [= <-]. by apply Hz.
Qed.

Lemma waiting_insert T j q q' k : T !! j = Some q -> p_state q' = p_state q -> p_chan q' = p_chan q -> waiting (<[j := q']> T) k -> waiting T k.
Proof.
  intros Hj Hs Hc (p & Hp & Hps & Hpc). destruct (decide (j = k)) as [<-|Hne].
  - rewrite list_lookup_insert_eq in Hp by (by eapply lookup_lt_Some). simplify_eq. exists q. split_and!; congruence.
  - rewrite list_lookup_insert_ne in Hp by done. by exists p.
Qed.

(** While [cur] hands over its children, its parent does not sleep in wait. *)
Definition exiting (cur : nat) (pp : option nat) s : Prop :=
  family_ok s /\ k_initproc s <> Some cur /\ (exists p, k_ptable s !! cur = Some p /\ p_parent p = pp) /\
  (forall k, pp = Some k -> ~ waiting (k_ptable s) k).

Lemma exiting_woken cur pp chan s : exiting cur pp s -> exiting cur pp (woken chan s).
Proof.
  intros (H & Hip & (p & Hp & Hpp) & Hw). split_and!; [by apply family_wake|exact Hip| |].
  - exists (wake chan p). change (k_ptable (woken chan s)) with (wake chan <$> k_ptable s). rewrite list_lookup_fmap, Hp.
    destruct (wake_kin chan p) as (-> & _). done.
  - intros k Hk [Hwk _]%waiting_wake. by apply (Hw k).
Qed.

Lemma exiting_reparent cur pp j s : exiting cur pp s -> post (reparent cur j) s (fun _ => exiting cur pp).
Proof.
  intros Hex. unfold reparent, initproc_chan. repeat go. case_decide as Hpar; [|done]. repeat go. assert (p0 = p) as -> by congruence.
  destruct (Hex) as (H & Hip & (c & Hc & Hpp) & Hw). destruct (fo_init _ _ H) as (i0 & _ & Ei & _).
  change (k_initproc (s <| k_ptable := _ |>)) with (k_initproc s). rewrite Ei.
  assert (j <> cur) as Hne. { intros ->. by apply (fo_self _ _ H _ _ Hp). }
  assert (exiting cur pp (woken (proc_chan i0) s)) as (Hwo & _ & (c' & Hc' & Hpp') & Hww) by (by apply exiting_woken).
  destruct (bool_decide (p_state p = ZOMBIE)) eqn:Ez; cbn [when].
  - apply bool_decide_eq_true in Ez. unfold wakeup1. repeat go. set (q := p <| p_parent := Some i0 |>).
    match goal with |- exiting _ _ ?x => assert (k_ptable x = <[j := q]> (wake (proc_chan i0) <$> k_ptable s)) as ET end.
    { change (wake (proc_chan i0) <$> <[j := q]> (k_ptable s) = <[j := q]> (wake (proc_chan i0) <$> k_ptable s)).
      rewrite list_fmap_insert. f_equal. unfold wake. apply decide_False. intros [Hsl _]. cbn in Hsl. congruence. }
    assert ((wake (proc_chan i0) <$> k_ptable s) !! j = Some p) as Hj.
    { rewrite list_lookup_fmap, Hp. cbn. f_equal. unfold wake. apply decide_False. intros [Hsl _]. congruence. }
    unfold exiting, family_ok. rewrite ET. change (k_initproc _) with (k_initproc s). split_and!; [|exact Hip| |].
    + rewrite Ei. eapply family_adopt; [|exact Hj|exact Hpar|]; [rewrite <- Ei; exact Hwo|]. by intros _ [_ Hn]%waiting_wake.
    + exists c'. by rewrite list_lookup_insert_ne by done.
    + intros k Hk Hwk%(waiting_insert _ _ _ _ _ Hj); [|done|done]. by apply (Hww k).
  - apply bool_decide_eq_false in Ez. go. split_and!; [|exact Hip| |].
    + unfold family_ok. cbn. rewrite Ei. eapply family_adopt; [|exact Hp|exact Hpar|done]. by rewrite <- Ei.
    + exists c. cbn. by rewrite list_lookup_insert_ne by done.
    + intros k Hk Hwk%(waiting_insert _ _ _ _ _ Hp); [|done|done]. by apply (Hw k).
Qed.

(** The children of [cur] are handed over one by one. *)
Definition parents s : list (option nat) := p_parent <$> k_ptable s.

Lemma parents_woken chan s : parents (woken chan s) = parents s.
Proof. unfold parents. cbn. rewrite <- list_fmap_compose. apply list_fmap_ext. intros k p _. apply (wake_kin chan p). Qed.

Lemma reparent_parents cur j s : post (reparent cur j) s (fun _ s' =>
  parents s' = if decide (parents s !! j = Some (Some cur)) then <[j := k_initproc s]> (parents s) else parents s).
Proof.
  unfold reparent, initproc_chan, wakeup1. repeat go.
  assert (parents s !! j = Some (p_parent p)) as Hj by (unfold parents; by rewrite list_lookup_fmap, Hp).
  case_decide as Hpar; [|rewrite decide_False by congruence; done]. rewrite decide_True by congruence. repeat go.
  assert (forall q, parents (s <| k_ptable := <[j := q <| p_parent := k_initproc s |>]> (k_ptable s) |>) = <[j := k_initproc s]> (parents s)) as E.
  { intros q. unfold parents. cbn. by rewrite list_fmap_insert. }
  destruct (bool_decide _); cbn [when]; go; [rewrite <- (E p0); apply parents_woken|apply E].
Qed.

Definition handed (cur : nat) (pp : option nat) (len n : nat) s : Prop :=
  exiting cur pp s /\ length (parents s) = len /\ forall j, (j < n)%nat -> parents s !! j <> Some (Some cur).

Lemma handed_reparent cur pp len n s : handed cur pp len n s -> post (reparent cur n) s (fun _ => handed cur pp len (S n)).
Proof.
  intros (Hex & Hlen & Hn). pose proof (exiting_reparent _ _ n _ Hex) as H1. pose proof (reparent_parents cur n s) as H2.
  assert (k_initproc s <> Some cur) as Hip by apply Hex. unfold post in *. destruct (reparent cur n s) as [u s1| | | |]; try done.
  split; [done|]. rewrite H2. case_decide as Hd; split.
  - by rewrite length_insert.
  - intros j Hj. rewrite list_lookup_insert. case_decide as Ej; [congruence|]. apply Hn. assert (n < length (parents s))%nat by (by eapply lookup_lt_Some). lia.
  - done.
  - intros j Hj. destruct (decide (j = n)) as [->|Hne]; [done|]. apply Hn. lia.
Qed.

Lemma post_for_seq (body : nat -> M kernel unit) (I : nat -> kernel -> Prop) n : forall a s,
  I a s -> (forall j s, I j s -> post (body j) s (fun _ => I (S j))) -> post (for_each (seq a n) body) s (fun _ => I (a + n)%nat).
Proof.
  induction n as [|n IH]; intros a s HI Hb; [by rewrite Nat.add_0_r|]. apply post_bind. eapply post_mono; [by apply Hb|].
  intros [] s' Hs'. rewrite Nat.add_succ_r. by apply (IH (S a)).
Qed.

Lemma handed_all cur pp len s j q : handed cur pp len len s -> k_ptable s !! j = Some q -> p_parent q <> Some cur.
Proof.
  intros (_ & Hlen & Hn) Hq E. assert (parents s !! j = Some (Some cur)) as Hj by (unfold parents; by rewrite list_lookup_fmap, Hq; cbn; rewrite E).
  apply (Hn j); [|done]. rewrite <- Hlen. by eapply lookup_lt_Some.
Qed.

(** The parent of the process that exits is awake from here on. *)
Lemma exiting_start cur p s : family_ok s -> k_initproc s <> Some cur -> k_ptable s !! cur = Some p ->
  exiting cur (p_parent p) (woken (match p_parent p with Some i => proc_chan i | None => 0 end) s).
Proof.
  intros H Hip Hp. set (c := match p_parent p with Some _ => _ | None => _ end).
  split_and!; [by apply family_wake|exact Hip| |].
  - exists (wake c p). split; [|apply wake_kin]. change (k_ptable (woken c s)) with (wake c <$> k_ptable s). by rewrite list_lookup_fmap, Hp.
  - intros k Hk [_ Hn]%waiting_wake. unfold c in Hn. by rewrite Hk in Hn.
Qed.

Lemma safe_exit_tail s cur : family_ok s -> k_initproc s <> Some cur -> safe (exit_tail cur) s.
Proof.
  intros H Hip. unfold exit_tail, wakeup1. repeat go. set (s1 := _ <| k_ptable ::= _ |>). set (len := length (k_ptable s1)).
  assert (handed cur (p_parent p) len 0 s1) as H0.
  { split_and!; [exact (exiting_start cur p _ H Hip Hp)|by unfold parents; rewrite length_fmap|lia]. }
  eapply post_mono; [apply (post_for_seq _ _ len 0 _ H0); intros; by apply handed_reparent|].
  intros [] s2 Hh. pose proof (proj1 Hh) as (H2 & Hip2 & (p2 & Hp2 & Hpp) & Hw).
  repeat go. assert (p0 = p2) as -> by congruence.
  eapply family_upd; [exact Hp2|exact H2|done| |by left|by apply (fo_self _ _ H2 cur p2)|done|].
  - right. intros j q Hq. by apply (handed_all cur (p_parent p) len s2 j q).
  - cbn. intros k _ Hk. apply Hw. congruence.
Qed.

End Pieces.

(** ** All executions *)

Section Executions.
Context {KI : KernelImage}.
Implicit Types (s : kernel) (p q : proc).

(** [m], run in [s], returns or leaves the processor in [s']. *)
Definition ends {A} (m : M kernel A) s s' : Prop := (exists a, m s = Ret a s') \/ (exists c, m s = Sleep c s').

(** After userinit, only init is there. *)
Definition only_init s : Prop :=
  exists i0 p0, k_initproc s = Some i0 /\ k_ptable s !! i0 = Some p0 /\ p_state p0 = RUNNABLE /\
    forall i p, k_ptable s !! i = Some p -> p_parent p = None /\ (i <> i0 -> p_state p = UNUSED).

(** One piece of code of one process, of the scheduler or of an interrupt.  A slot
    that allocproc has claimed is EMBRYO until its owner starts it or gives it back. *)
Inductive family_step s s' : Prop :=
| fs_claim : ends claim_proc s s' -> family_step s s'
| fs_unclaim np p : k_ptable s !! np = Some p -> p_state p = EMBRYO -> ends (unclaim_proc np) s s' -> family_step s s'
| fs_fields np p cur c : k_ptable s !! np = Some p -> p_state p = EMBRYO ->
    k_curproc s = Some cur -> k_ptable s !! cur = Some c -> p_state c = RUNNING ->
    ends (fork_fields np cur c) s s' -> family_step s s'
| fs_start np p : k_ptable s !! np = Some p -> p_state p = EMBRYO -> ends (fork_start np) s s' -> family_step s s'
| fs_exit cur : k_curproc s = Some cur -> k_initproc s <> Some cur -> ends (exit_tail cur) s s' -> family_step s s'
| fs_wait : ends wait s s' -> family_step s s'
| fs_wait_again cur : k_curproc s = Some cur -> ends (sleep_return None ;;; wait_loop cur) s s' -> family_step s s'
| fs_kill pid : ends (kill pid) s s' -> family_step s s'
| fs_wakeup chan : ends (wakeup chan) s s' -> family_step s s'
| fs_sleep chan rel : (forall i, chan <> proc_chan i) -> keeps rel -> ends (sleep (A := unit) chan (Some rel)) s s' -> family_step s s'
| fs_sleep_return acq : keeps acq -> ends (sleep_return (Some acq)) s s' -> family_step s s'
| fs_yield : ends yield s s' -> family_step s s'
| fs_switch i : ends (scheduler_switch i) s s' -> family_step s s'
| fs_leave kpgdir : ends (scheduler_return kpgdir) s s' -> family_step s s'
| fs_release : ends ptable_release s s' -> family_step s s'
| fs_other (m : M kernel unit) : keeps m -> ends m s s' -> family_step s s'.

Lemma ends_safe {A} (m : M kernel A) s s' : safe m s -> ends m s s' -> family_ok s'.
Proof. unfold safe, post. by intros H [[a E]|[c E]]; rewrite E in H. Qed.

Lemma only_init_ok s : only_init s -> family_ok s.
Proof.
  intros (i0 & p0 & Ei & H0 & Hs & Hall). constructor.
  - exists i0, p0. split_and!; [done|done|by apply (Hall i0)|]. unfold live. by rewrite Hs.
  - intros j q k Hq. destruct (Hall j q Hq) as [-> _]. done.
  - intros i p Hp. destruct (Hall i p Hp) as [-> _]. done.
  - intros i j q _ Hq. destruct (Hall j q Hq) as [-> _]. done.
Qed.

Lemma family_step_ok s s' : family_ok s -> family_step s s' -> family_ok s'.
Proof.
  intros H Hst. destruct Hst as [He|np p Hp Hs He|np p cur c Hp Hs Hcur Hc Hr He|np p Hp Hs He|cur _ Hip He|He|cur Hcur He|pid He|chan He
    |chan rel Hc Hk He|acq Hk He|He|i He|kpgdir He|He|m Hk He]; refine (ends_safe _ _ _ _ He).
  - by apply safe_claim.
  - apply (safe_embryo s np p); try done; [by left|by apply (fo_self _ _ H np p)].
  - apply (safe_embryo s np p); cbn; rewrite ?Hs; try done; [|congruence].
    intros k [= <-]. right. exists c. unfold live. by rewrite Hr.
  - by apply (safe_fork_start s np p).
  - by apply safe_exit_tail.
  - by apply safe_wait.
  - by apply safe_wait_again.
  - by apply safe_kill.
  - by apply safe_wakeup.
  - by apply safe_sleep.
  - by apply safe_sleep_return.
  - by apply safe_yield.
  - by apply safe_switch.
  - by apply safe_leave.
  - repeat go. exact H.
  - unfold safe. apply post_keeps; [done|]. intros _ s1 E. by eapply family_fam.
Qed.

Lemma family_reachable s0 s : only_init s0 -> rtc family_step s0 s -> family_ok s.
Proof. intros H0%only_init_ok Hr. induction Hr as [|s s1 s2 Hs _ IH]; [done|]. by apply IH, (family_step_ok s). Qed.

(** ** What wait does *)

Lemma wait_collects s cur i q : k_curproc s = Some cur -> zombie_child cur (k_ptable s) = Some i -> k_ptable s !! i = Some q ->
  match wait s with
  | Ret pid s' => pid = p_pid q /\ exists q', k_ptable s' !! i = Some q' /\ p_state q' = UNUSED /\ p_parent q' = None
  | Sleep _ _ => False
  | _ => True
  end.
Proof.
  intros Hc Hz Hq. unfold wait, wait_loop, bind, myproc, ptable_acquire, acquire, gets. rewrite Hc.
  destruct (k_ptable_lock s); [done|]. change (k_ptable (s <| k_ptable_lock := true |>)) with (k_ptable s). rewrite Hz.
  unfold reap, bind, get_proc. change (k_ptable (s <| k_ptable_lock := true |>)) with (k_ptable s). rewrite Hq.
  pose proof (keeps_kfree (p_kstack q) (s <| k_ptable_lock := true |>)) as E1. destruct (kfree _ _) as [u1 s1| | | |]; try done.
  assert (keeps (upd_proc i (fun p => p <| p_kstack := 0 |>) : M kernel unit)) as Hk by (by apply keeps_upd_proc).
  specialize (Hk s1). destruct (upd_proc _ _ s1) as [u2 s2| | | |]; try done.
  pose proof (keeps_freevm (p_pgdir q) s2) as E3. destruct (freevm _ s2) as [u3 s3| | | |]; try done.
  unfold upd_proc. destruct (k_ptable s3 !! i) as [q3|] eqn:E; [|done]. unfold ptable_release, release, ret.
  set (q' := q3 <| p_pid := 0 |> <| p_parent := None |> <| p_name ::= _ |> <| p_killed := false |> <| p_state := UNUSED |>).
  destruct (k_ptable_lock _); [|done]. split; [done|]. exists q'. split; [|done].
  apply list_lookup_insert_eq. by eapply lookup_lt_Some.
Qed.

Lemma wait_nothing s cur p : k_curproc s = Some cur -> k_ptable s !! cur = Some p -> k_ptable_lock s = false ->
  zombie_child cur (k_ptable s) = None ->
  if negb (has_kids cur (k_ptable s)) || p_killed p then exists s', wait s = Ret (-1) s' /\ fam s' = fam s
  else exists s', wait s = leaves (proc_chan cur) s' /\ waiting (k_ptable s') cur.
Proof.
  intros Hc Hp Hl Hz. unfold wait, wait_loop, bind, myproc, ptable_acquire, acquire, gets, get_proc. rewrite Hc, Hl.
  set (s1 := s <| k_ptable_lock := true |>). change (k_ptable s1) with (k_ptable s). rewrite Hz. cbv beta iota. change (k_ptable s1) with (k_ptable s). rewrite Hp.
  destruct (negb _ || p_killed p).
  - unfold ptable_release, release, ret, s1. cbn [k_ptable_lock]. eexists. split; [reflexivity|]. unfold fam. by rewrite Hl.
  - set (p' := p <| p_chan := proc_chan cur |> <| p_state := SLEEPING |>).
    assert (<[cur := p']> (k_ptable s) !! cur = Some p') as Hp' by (apply list_lookup_insert_eq; by eapply lookup_lt_Some).
    exists (s1 <| k_ptable := <[cur := p']> (k_ptable s) |>). split; [|by exists p'].
    unfold sleep, bind, gets, upd_proc, ret. change (k_curproc s1) with (k_curproc s). rewrite Hc.
    change (k_ptable s1) with (k_ptable s). cbv beta iota. rewrite Hp. fold p'. set (s2 := s1 <| k_ptable := _ |>).
    by rewrite (sched_eq cur p' s2).
Qed.

(** C6. In every state the kernel reaches from the one init leaves userinit in,
    through any interleaving of fork, exit, wait, kill, sleep, wakeup and the
    scheduler: init is alive, every process that is somebody's parent is alive
    (orphans have been given to init), and no process sleeps in wait while a child
    of its is a zombie.  A call of wait collects the first zombie child, returning
    its pid and freeing its slot; with none it returns -1 if there is no child or
    the caller was killed, and otherwise leaves the processor, sleeping on the
    caller's own channel (sched panics if the caller holds another spin lock). *)
Theorem children_are_collected s0 s (H0 : only_init s0) (Hr : rtc family_step s0 s) :
  (exists i0 p, k_initproc s = Some i0 /\ k_ptable s !! i0 = Some p /\ live p) /\
  (forall j q k, k_ptable s !! j = Some q -> p_parent q = Some k -> exists p, k_ptable s !! k = Some p /\ live p) /\
  (forall i j q, waiting (k_ptable s) i -> k_ptable s !! j = Some q -> p_parent q = Some i -> p_state q <> ZOMBIE) /\
  (forall cur p, k_curproc s = Some cur -> k_ptable s !! cur = Some p -> k_ptable_lock s = false ->
    match zombie_child cur (k_ptable s) with
    | Some i => exists q, k_ptable s !! i = Some q /\ p_state q = ZOMBIE /\ p_parent q = Some cur /\
        match wait s with
        | Ret pid s' => pid = p_pid q /\ exists q', k_ptable s' !! i = Some q' /\ p_state q' = UNUSED /\ p_parent q' = None
        | Sleep _ _ => False
        | _ => True
        end
    | None =>
        if negb (has_kids cur (k_ptable s)) || p_killed p then exists s', wait s = Ret (-1) s' /\ fam s' = fam s
        else exists s', wait s = leaves (proc_chan cur) s' /\ waiting (k_ptable s') cur
    end).
Proof.
  pose proof (family_reachable s0 s H0 Hr) as H. split_and!.
  - destruct (fo_init _ _ H) as (i0 & p & Ei & Hp & _ & Hl). by exists i0, p.
  - apply (fo_alive _ _ H).
  - apply (fo_wait _ _ H).
  - intros cur p Hc Hp Hl. destruct (zombie_child cur (k_ptable s)) as [i|] eqn:Ez; [|by apply wait_nothing].
    destruct (zombie_child_Some _ _ _ Ez) as (q & Hq & Hpar & Hz). exists q. split_and!; try done. by apply (wait_collects s cur).
Qed.
End Executions.

Module FamilyWitness.

#[local] Existing Instance boot_image.

Definition after {A} (m : M kernel A) (s : kernel) : kernel := match m s with Ret _ s' | Sleep _ s' => s' | _ => s end.
Definition stops {A} (m : M kernel A) (s : kernel) : bool := match m s with Ret _ _ | Sleep _ _ => true | _ => false end.

Lemma after_ends {A} (m : M kernel A) s : stops m s = true -> ends m s (after m s).
Proof. unfold stops, after, ends. destruct (m s); try done; intros _; [left|right]; by eexists. Qed.

Definition ready : proc := proc0 <| p_kstack := 0x80300000 |> <| p_pgdir := 0x80301000 |>.
Definition booted : kernel :=
  (boot (fsys_boot blank_disk)) <| k_initproc := Some 0%nat |> <| k_curproc := None |> <| k_ptable_lock := true |>
    <| k_ptable := [ready <| p_state := RUNNABLE |> <| p_pid := 1 |>; ready] |> <| k_nextpid := 2 |>.

(** init forks and waits, the child runs and exits, and init runs again. *)
Definition s1 : kernel := after (scheduler_switch 0) booted.
Definition s2 : kernel := after ptable_release s1.
Definition s3 : kernel := after claim_proc s2.
Definition parent_proc : proc := default proc0 (k_ptable s3 !! 0%nat).
Definition s4 : kernel := after (fork_fields 1 0 parent_proc) s3.
Definition s5 : kernel := after (fork_start 1) s4.
Definition s6 : kernel := after wait s5.
Definition s7 : kernel := after (scheduler_return 0x80302000) s6.
Definition s8 : kernel := after (scheduler_switch 1) s7.
Definition s9 : kernel := after ptable_release s8.
Definition s10 : kernel := after (exit_tail 1) s9.

Definition states (s : kernel) : list (Z * procstate * option nat) := (fun p => (p_pid p, p_state p, p_parent p)) <$> k_ptable s.

(** A step whose next state is computed. *)
Ltac step s' c :=
  apply (rtc_l family_step _ s'); [unfold s'; eapply c; [vm_compute; (reflexivity || discriminate)..|refine (after_ends _ _ _); vm_compute; reflexivity]|].

Lemma family_run_steps : rtc family_step booted s10.
Proof.
  step s1 fs_switch. step s2 fs_release. step s3 fs_claim. step s4 (fs_fields s3 (after (fork_fields 1 0 parent_proc) s3) 1 (default proc0 (k_ptable s3 !! 1%nat)) 0).
  step s5 (fs_start s4 (after (fork_start 1) s4) 1 (default proc0 (k_ptable s4 !! 1%nat))).
  step s6 fs_wait. step s7 fs_leave. step s8 fs_switch. step s9 fs_release. step s10 (fs_exit s9 (after (exit_tail 1) s9) 1). apply rtc_refl.
Qed.

Lemma booted_only_init : only_init booted.
Proof.
  exists 0%nat, (ready <| p_state := RUNNABLE |> <| p_pid := 1 |>). split_and!; [reflexivity..|].
  intros [|[|i]] p [= <-]; split; [reflexivity|lia|reflexivity|reflexivity].
Qed.

Lemma children_are_collected_witness : states s6 = [(1, SLEEPING, None); (2, RUNNABLE, Some 0%nat)] /\
  states s10 = [(1, RUNNABLE, None); (2, ZOMBIE, Some 0%nat)] /\ ~ waiting (k_ptable s10) 0.
Proof.
  split; [vm_compute; reflexivity|]. split; [vm_compute; reflexivity|]. intros Hw.
  destruct (children_are_collected booted s10 booted_only_init family_run_steps) as (_ & _ & H & _).
  assert (exists q, k_ptable s10 !! 1%nat = Some q /\ p_parent q = Some 0%nat /\ p_state q = ZOMBIE) as (q & Hq & Hp & Hz).
  { eexists. split; [vm_compute; reflexivity|]. split; reflexivity. }
  exact (H 0%nat 1%nat q Hw Hq Hp Hz).
Defined.

End FamilyWitness.
