(* ===== verification/Syscall.v ===== *)
(** Fetching the arguments of system calls from user space, src/src/syscall.c.

    A call that returns -1 gives [None]; otherwise [Some] of the value the C
    function stores through its pointer argument. *)

From stdpp Require Import base gmap list strings.
From Stdlib Require Import ZArith Lia.
From S2P Require Import Prelude Mem Str Mmu State Kalloc MemTable Vm UserMem.

(** The address checks, apart from the access itself. *)
Definition fetchint_bad (sz esp addr : Z) : bool :=
  ((sz <=? addr) && (addr <? esp)) ||
  ((sz <? u32 (addr + 4)) && (addr <? esp)) ||
  (USERTOP <? u32 (addr + 4)).

(** The end of the region of a string at [addr], if there is one. *)
Definition fetchstr_end (sz esp addr : Z) : option Z :=
  if ((sz <=? addr) && (addr <? esp)) || (USERTOP <? addr) then None
  else if addr <? sz then Some sz
  else if (esp <=? addr) && (addr <? USERTOP) then Some USERTOP
  else None.

(** [i] is the pointer as an unsigned word, [size] a signed int. *)
Definition argptr_bad (sz stackSize i size : Z) : bool :=
  let stack := u32 (USERTOP - stackSize) in
  let e := u32 (i + size) in
  (i <? PGSIZE) || (USERTOP <? i) ||
  ((sz <=? i) && (i <? stack)) ||
  ((sz <? e) && (e <? stack)) ||
  (USERTOP <? e) ||
  ((i <? sz) && (stack <=? e)).

Section Syscall.
Context {F : Type} {KI : KernelImage} {FS : FileSys F}.

Definition fetchint (addr : Z) : M (kst F) (option Z) :=
  i <- myproc ;;
  p <- get_proc i ;;
  if fetchint_bad (p_sz p) (tf_esp (p_tf p)) addr then ret None
  else
    v <- vload32 addr ;;
    ret (Some (i32 v)).

(** The scan for the terminating zero; the length of the string. *)
Definition scan_string (addr ep : Z) : M (kst F) (option Z) :=
  r <- iter_pos (Z.to_pos (ep - addr)) (fun s =>
    if s <? ep then
      c <- vload8 s ;;
      ret (if c =? 0 then inr (Some (s - addr)) else inl (s + 1))
    else ret (inr None)) addr ;;
  ret (match r with inr x => x | inl _ => None end).

Definition fetchstr (addr : Z) : M (kst F) (option Z) :=
  i <- myproc ;;
  p <- get_proc i ;;
  match fetchstr_end (p_sz p) (tf_esp (p_tf p)) addr with
  | None => ret None
  | Some ep => scan_string addr ep
  end.

Definition argint (n : Z) : M (kst F) (option Z) :=
  i <- myproc ;;
  p <- get_proc i ;;
  fetchint (u32 (tf_esp (p_tf p) + 4 + 4 * n)).

(** The pointer. *)
Definition argptr (n size : Z) : M (kst F) (option Z) :=
  cur <- myproc ;;
  p <- get_proc cur ;;
  r <- argint n ;;
  match r with
  | None => ret None
  | Some i => if argptr_bad (p_sz p) (p_stackSize p) (u32 i) size then ret None else ret (Some (u32 i))
  end.

(** The pointer to the string and its length. *)
Definition argstr (n : Z) : M (kst F) (option (Z * Z)) :=
  r <- argint n ;;
  match r with
  | None => ret None
  | Some a =>
      len <- fetchstr (u32 a) ;;
      ret (match len with Some l => Some (u32 a, l) | None => None end)
  end.

(** The string itself, for the calls that use it. *)
Definition argstring (n : Z) : M (kst F) (option (list Z)) :=
  r <- argstr n ;;
  match r with
  | None => ret None
  | Some (a, l) => s <- vload_bytes a (Z.to_nat l) ;; ret (Some s)
  end.

End Syscall.

(** ** What the checks accept *)

(** [n] bytes at [a] in the heap, below [sz], or in the stack, from [bottom]. *)
Definition in_heap (sz a n : Z) : Prop := 0 <= a /\ a < sz /\ a + n <= sz.
Definition in_stack (bottom a n : Z) : Prop := bottom <= a /\ a + n <= USERTOP.

(** C37. The checks of system call arguments, for a process whose heap ends below
    its stack.  argptr accepts a block of [n >= 0] bytes exactly when it begins
    above the null page and all of it lies in the heap, its end before the first
    address of the stack, or in the stack, between [USERTOP - stackSize] and
    USERTOP; a negative size it accepts when the pointer is in the heap or the
    stack and [a + n] is an address that is not in the gap between them.  fetchstr
    accepts an address exactly in the heap or above the stack pointer, and looks for the end of the string up to the end of that region only.
    fetchint accepts a word exactly in the heap, above the stack pointer, or, the
    sum [addr + 4] wrapping around, in the last four bytes of the address space,
    which belong to the kernel. *)
Theorem argument_checks_exact sz esp stackSize a n :
  0 <= sz <= USERTOP - stackSize -> 0 <= stackSize -> 0 <= esp < 2 ^ 32 -> 0 <= a < 2 ^ 32 -> - 2 ^ 31 <= n < 2 ^ 31 ->
  let stack := USERTOP - stackSize in
  (argptr_bad sz stackSize a n = false <-> PGSIZE <= a /\
     if 0 <=? n then (in_heap sz a n /\ a + n < stack) \/ in_stack stack a n
     else a <= USERTOP /\ 0 <= a + n /\ (a < sz \/ stack <= a) /\ (a + n <= sz \/ stack <= a + n)) /\
  (forall e, fetchstr_end sz esp a = Some e <->
     (a < sz /\ e = sz) \/ (sz <= a /\ esp <= a < USERTOP /\ e = USERTOP)) /\
  (fetchint_bad sz esp a = false <->
     (a < esp /\ in_heap sz a 4) \/ (esp <= a /\ (in_stack esp a 4 \/ 2 ^ 32 - 4 <= a))).
Proof.
  intros Hsz Hst Hesp Ha Hn stack. unfold in_heap, in_stack, stack. split_and!.
  - unfold argptr_bad. rewrite !orb_false_iff, !andb_false_iff, !Z.ltb_ge, !Z.leb_gt.
    rewrite (u32_small (USERTOP - stackSize)) by klia.
    destruct (Z.leb_spec 0 n); [destruct (Z.le_gt_cases a USERTOP); [rewrite (u32_small (a + n)) by klia; klia|klia]|].
    destruct (Z.le_gt_cases a USERTOP), (Z.le_gt_cases PGSIZE a); [|klia..].
    destruct (Z.le_gt_cases 0 (a + n)); [rewrite (u32_small (a + n)) by klia; klia|].
    replace (u32 (a + n)) with (a + n + 2 ^ 32) by (unfold u32; kdlia). klia.
  - intros e. unfold fetchstr_end.
    destruct (Z.leb_spec sz a), (Z.ltb_spec a esp), (Z.ltb_spec USERTOP a), (Z.ltb_spec a sz), (Z.leb_spec esp a),
      (Z.ltb_spec a USERTOP); cbn [andb orb]; try klia; split; try done; try (intros [= <-]; klia);
      intros; try f_equal; klia.
  - unfold fetchint_bad. rewrite !orb_false_iff, !andb_false_iff, !Z.ltb_ge, !Z.leb_gt.
    destruct (Z.lt_ge_cases a (2 ^ 32 - 4)).
    + rewrite (u32_small (a + 4)) by lia. klia.
    + replace (u32 (a + 4)) with (a + 4 - 2 ^ 32) by (unfold u32; dlia). klia.
Qed.

Module SyscallWitness.

Lemma argument_checks_exact_witness :
  argptr_bad 8192 4096 4096 100 = false /\ fetchint_bad 8192 0x7ffff000 0xfffffffc = false.
Proof.
  destruct (argument_checks_exact 8192 0x7ffff000 4096 4096 100) as (H & _ & _); [klia..|].
  destruct (argument_checks_exact 8192 0x7ffff000 4096 0xfffffffc 0) as (_ & _ & H'); [klia..|].
  split; [apply H|apply H'; right; klia]. split; [klia|]. left. unfold in_heap. klia.
Defined.

End SyscallWitness.
