(* ===== verification/Exec.v ===== *)
(** Running a program, src/src/exec.c.

    The ELF header and the program headers are the bytes read from the file;
    [argv] holds the user addresses of the argument strings, which are read from
    the old address space. *)

From stdpp Require Import base gmap list strings.
From Stdlib Require Import ZArith Lia.
From S2P Require Import Prelude Mem Str Mmu State Kalloc MemTable Vm Sched Fsys Bio Log Inode Console Fs Pipe File SwapFile UserMem SharedMemory Proc.

(** ** elf.h *)
Definition ELF_MAGIC : Z := 0x464C457F.
Definition ELF_PROG_LOAD : Z := 1.
Definition ELFHDR_SIZE : Z := 52.
Definition PROGHDR_SIZE : Z := 32.

Record elfhdr := { elf_magic : Z; elf_entry : Z; elf_phoff : Z; elf_phnum : Z }.
Definition parse_elfhdr (bytes : list Z) : elfhdr :=
  let m := store_bytes ∅ 0 bytes in
  {| elf_magic := load32 m 0; elf_entry := load32 m 24; elf_phoff := load32 m 28; elf_phnum := load16 m 44 |}.

Record proghdr := { ph_type : Z; ph_off : Z; ph_vaddr : Z; ph_filesz : Z; ph_memsz : Z }.
Definition parse_proghdr (bytes : list Z) : proghdr :=
  let m := store_bytes ∅ 0 bytes in
  {| ph_type := load32 m 0; ph_off := load32 m 4; ph_vaddr := load32 m 8;
     ph_filesz := load32 m 16; ph_memsz := load32 m 20 |}.

Section Exec.
Context {KI : KernelImage}.

(** One program header: the new size, or the jump to [bad] ([None]). *)
Definition load_segment (pgdir : Z) (ip : nat) (off sz : Z) : M kernel (option Z) :=
  let* (r, bytes) := readi ip off PROGHDR_SIZE ;;
  if negb (r =? PROGHDR_SIZE) then ret None
  else
    let ph := parse_proghdr bytes in
    if negb (ph_type ph =? ELF_PROG_LOAD) then ret (Some sz)
    else if ph_memsz ph <? ph_filesz ph then ret None
    else if u32 (ph_vaddr ph + ph_memsz ph) <? ph_vaddr ph then ret None
    else
      sz <- allocuvm pgdir sz (u32 (ph_vaddr ph + ph_memsz ph)) ;;
      if sz =? 0 then ret None
      else if negb (ph_vaddr ph mod PGSIZE =? 0) then ret None
      else
        r <- loaduvm pgdir (ph_vaddr ph) ip (ph_off ph) (ph_filesz ph) ;;
        ret (if r <? 0 then None else Some sz).

Fixpoint load_segments (n : nat) (pgdir : Z) (ip : nat) (off sz : Z) : M kernel (option Z) :=
  match n with
  | O => ret (Some sz)
  | S n =>
      r <- load_segment pgdir ip off sz ;;
      match r with
      | None => ret None
      | Some sz => load_segments n pgdir ip (u32 (off + PROGHDR_SIZE)) sz
      end
  end.

(** The argument strings are pushed from USERTOP down: the stack pointer and
    the addresses pushed, in order; [None] is the jump to [bad]. *)
Fixpoint push_args (pgdir sp : Z) (argv : list Z) (argc : Z) : M kernel (option (Z * list Z)) :=
  match argv with
  | [] => ret (Some (sp, []))
  | a :: argv =>
      if MAXARG <=? argc then ret None
      else
        str <- vload_string a ;;
        let sp := Z.land (u32 (sp - (Z.of_nat (length str) + 1))) (Z.lnot 3) in
        r <- copyout pgdir sp (str ++ [0]) ;;
        if r <? 0 then ret None
        else
          r <- push_args pgdir sp argv (argc + 1) ;;
          ret (match r with Some (sp', l) => Some (sp', sp :: l) | None => None end)
  end.

(** The words of ustack as bytes. *)
Definition word_list_bytes (l : list Z) : list Z := l ≫= (fun w => load_bytes (store32 ∅ 0 w) 0 4).

(** The part of the path after its last slash. *)
Fixpoint last_component (path last : list Z) : list Z :=
  match path with
  | [] => last
  | c :: rest => last_component rest (if c =? slash then rest else last)
  end.

Definition exec_bad (pgdir : Z) (ip : option nat) : M kernel Z :=
  when (negb (pgdir =? 0)) (freevm pgdir) ;;;
  match ip with
  | Some ip => iunlockput ip ;;; end_op
  | None => ret tt
  end ;;;
  ret (-1).

(** After the program is loaded: the stack, the arguments, the new image. *)
Definition exec_start (curproc : nat) (path : list Z) (argv : list Z) (pgdir sz entry : Z) : M kernel Z :=
  let sz := PGROUNDUP sz in
  upd_proc curproc (fun p => p <| p_stackSize := 0 |>) ;;;
  growResult <- stackGrow pgdir ;;
  if growResult =? 0 then exec_bad pgdir None
  else
    r <- push_args pgdir USERTOP argv 0 ;;
    match r with
    | None => exec_bad pgdir None
    | Some (sp, args) =>
        let argc := Z.of_nat (length args) in
        let ustack := [0xffffffff; argc; u32 (sp - (argc + 1) * 4)] ++ args ++ [0] in
        let sp := u32 (sp - (3 + argc + 1) * 4) in
        r <- copyout pgdir sp (word_list_bytes ustack) ;;
        if r <? 0 then exec_bad pgdir None
        else
          p <- get_proc curproc ;;
          let oldpgdir := p_pgdir p in
          upd_proc curproc (fun p =>
            p <| p_name ::= fun n => lsafestrcpy n (last_component path path) 16 |>
              <| p_pgdir := pgdir |> <| p_sz := sz |> <| p_stackSize := PGSIZE |>
              <| p_tf ::= fun t => t <| tf_eip := entry |> <| tf_esp := sp |> |>) ;;;
          ClearSwapFiles curproc ;;;
          InitializeSwapFiles curproc ;;;
          switchuvm (Some curproc) ;;;
          freevm oldpgdir ;;;
          ret 0
    end.

Definition exec (path : list Z) (argv : list Z) : M kernel Z :=
  curproc <- myproc ;;
  begin_op ;;;
  oip <- namei path ;;
  match oip with
  | None =>
      end_op ;;;
      ret (-1)
  | Some ip =>
      ilock (Some ip) ;;;
      let* (r, bytes) := readi ip 0 ELFHDR_SIZE ;;
      let elf := parse_elfhdr bytes in
      if negb (r =? ELFHDR_SIZE) || negb (elf_magic elf =? ELF_MAGIC) then exec_bad 0 (Some ip)
      else
        pgdir <- setupkvm ;;
        if pgdir =? 0 then exec_bad 0 (Some ip)
        else
          ClearMemoryTable curproc ;;;
          ClearSwapTable curproc ;;;
          r <- load_segments (Z.to_nat (elf_phnum elf)) pgdir ip (elf_phoff elf) PGSIZE ;;
          match r with
          | None => exec_bad pgdir (Some ip)
          | Some sz =>
              iunlockput ip ;;;
              end_op ;;;
              exec_start curproc path argv pgdir sz (elf_entry elf)
          end
  end.

End Exec.
