(* ===== verification/Sysproc.v ===== *)
(** The system calls on processes, memory and time, src/src/sysproc.c. *)

From stdpp Require Import base gmap list strings.
From Stdlib Require Import ZArith Lia.
From S2P Require Import Prelude Mem Str Mmu State Kalloc MemTable Vm Sched Fsys Bio Log Inode Console Fs Pipe File SwapFile UserMem SharedMemory Proc Syscall.

Section Sysproc.
Context {KI : KernelImage}.

(** A system call of one integer argument. *)
Definition with_int (n : Z) (f : Z -> M kernel Z) : M kernel Z :=
  r <- argint n ;;
  match r with
  | None => ret (-1)
  | Some v => f v
  end.

Definition sys_fork : M kernel Z := fork.

Definition sys_exit : M kernel Z :=
  exit ;;;
  ret 0.

Definition sys_wait : M kernel Z := wait.

Definition sys_kill : M kernel Z := with_int 0 kill.

Definition sys_getpid : M kernel Z :=
  i <- myproc ;;
  p <- get_proc i ;;
  ret (p_pid p).

(** The part of sys_sbrk after its argument is fetched. *)
Definition sbrk (n : Z) : M kernel Z :=
  i <- myproc ;;
  p <- get_proc i ;;
  let addr := i32 (p_sz p) in
  r <- growproc n ;;
  if r <? 0 then ret (-1)
  else
    p <- get_proc i ;;
    if u32 (USERTOP - p_stackSize p - PGSIZE) <? u32 (p_sz p + n) then ret (-1)
    else
      upd_proc i (fun p => p <| p_sz ::= fun sz => u32 (sz + n) |>) ;;;
      ret addr.

Definition sys_sbrk : M kernel Z := with_int 0 sbrk.

Definition ticks_acquire : M kernel unit :=
  facquire x_tickslock (fun b x => x <| x_tickslock := b |>).
Definition ticks_release : M kernel unit :=
  frelease x_tickslock (fun b x => x <| x_tickslock := b |>).

(** The loop of sys_sleep, entered with tickslock held. *)
Definition sleep_loop (ticks0 n : Z) : M kernel Z :=
  ticks <- fget x_ticks ;;
  if u32 (ticks - ticks0) <? u32 n then
    killed <- proc_killed ;;
    if (killed : bool) then
      ticks_release ;;;
      ret (-1)
    else sleep ticks_chan (Some ticks_release)
  else
    ticks_release ;;;
    ret 0.

Definition sys_sleep : M kernel Z :=
  with_int 0 (fun n =>
    ticks_acquire ;;;
    ticks0 <- fget x_ticks ;;
    sleep_loop ticks0 n).

Definition sys_uptime : M kernel Z :=
  ticks_acquire ;;;
  xticks <- fget x_ticks ;;
  ticks_release ;;;
  ret (i32 xticks).

Definition sys_AllocSharedMemory : M kernel Z := with_int 0 AllocSharedMemory.

Definition sys_DeallocSharedMemory : M kernel Z := with_int 0 DeallocSharedMemory.

Definition sys_ReadSharedMemory : M kernel Z :=
  with_int 0 (fun sig =>
    r <- argptr 1 PGSIZE ;;
    match r with
    | None => ret (-1)
    | Some content => ReadSharedMemory sig content
    end).

Definition sys_WriteSharedMemory : M kernel Z :=
  with_int 0 (fun sig =>
    r <- argstr 1 ;;
    match r with
    | None => ret (-1)
    | Some (content, _) => WriteSharedMemory sig content
    end).

Definition sys_GetMemoryInfo : M kernel Z :=
  r <- argstr 0 ;;
  match r with
  | None => ret (-1)
  | Some (result, _) =>
      GetMemoryInfo result ;;;
      ret 0
  end.

End Sysproc.
