(* ===== verification/Sbrk.v ===== *)
(** What sbrk does to a process: growproc of src/src/proc.c and sys_sbrk of
    src/src/sysproc.c. *)

From stdpp Require Import base gmap list strings.
From Stdlib Require Import ZArith Lia.
From S2P Require Import Prelude Mem Str Mmu State Kalloc MemTable MemList Vm PageTable AddressSpace CopyUvm CopyOnWrite Faults Heap Sched Fsys Bio Log Inode Console Fs Pipe File SwapFile UserMem SharedMemory Proc Syscall Sysproc.

Section Sbrk.
Context {KI : KernelImage}.
Implicit Types s : kernel.

(** The heap has [N] more pages from [a], which read as zeros and can be written
    to; the process reads everything else as before. *)
Definition zero_pages s (P a : Z) (N : nat) s' : Prop :=
  forall x, 0 <= x < KERNBASE ->
    (a <= x < a + 4096 * Z.of_nat N -> is_Some (access true true (k_phys s') (V2P P) x)) /\
    user_read (k_phys s') P x =
      if decide (a <= x < a + 4096 * Z.of_nat N) then Some 0 else user_read (k_phys s) P x.

Lemma heap_zero_pages s i pr pages lq a N s' :
  heap_grown s i pr pages lq a N s' -> zero_pages s (p_pgdir pr) a N s'.
Proof.
  intros G x Hx. split; [|by apply (hg_reads _ _ _ _ _ _ _ _ G)]. intros Hr.
  pose proof (hg_pte _ _ _ _ _ _ _ _ G x ltac:(klia)) as Hp. rewrite decide_True in Hp by done.
  destruct Hp as (q & Hq & E). destruct (hg_proc _ _ _ _ _ _ _ _ G) as (pr' & l' & lq' & Hok' & Hrel & _).
  pose proof (po_wf _ _ _ _ _ _ Hok') as Hw. rewrite Hrel in Hw. change (pt_wf (k_phys s') (p_pgdir pr) l') in Hw.
  rewrite (access_pte _ _ l' x true true Hw), E. unfold allows. destruct (cow_pte_facts q Hq) as (-> & -> & -> & _). cbn. eauto.
Qed.

(** growproc, when the heap may grow by [n] bytes and there is memory. *)
Lemma growproc_ok s i pr l pages lq n :
  let sz := p_sz pr in let a := PGROUNDUP sz in let N := pages_to a (sz + n) in
  can_grow s i pr l pages lq a N -> 0 < n -> sz + n <= stack_border pr - PGSIZE ->
  p_kstack pr <> 0 ->
  wp (growproc n) s (fun r s' => r = 0 /\ zero_pages s (p_pgdir pr) a N s' /\
    exists pr', k_ptable s' !! i = Some pr' /\ k_curproc s' = Some i /\
      p_sz pr' = sz + n /\ p_stackSize pr' = p_stackSize pr /\ p_pgdir pr' = p_pgdir pr).
Proof.
  intros sz a N Hg Hn Hlim Hks. pose proof (cg_ok _ _ _ _ _ _ _ _ Hg) as Hok.
  pose proof (po_sz _ _ _ _ _ _ Hok) as Hsz. destruct (po_stack _ _ _ _ _ _ Hok) as [_ Hst].
  pose proof (pw_dir _ _ _ (po_wf _ _ _ _ _ _ Hok)) as Hk. fold sz in Hsz.
  unfold growproc. wp_steps. eapply wp_myproc; [apply Hok|]. wp_steps.
  eapply wp_get_proc; [apply (po_table _ _ _ _ _ _ Hok)|]. fold sz. unfold stack_border in Hlim.
  rewrite !u32_small by klia. destruct (Z.ltb_spec (USERTOP - p_stackSize pr - PGSIZE) (sz + n)); [lia|].
  destruct (Z.ltb_spec 0 n); [|lia]. wp_steps.
  eapply wp_mono; [apply (allocuvm_ok s i pr l pages lq sz (sz + n) Hg); unfold stack_border; lia|].
  cbn beta. intros r s' [-> G]. destruct (Z.eqb_spec n 0); [lia|]. destruct (Z.eqb_spec (sz + n) 0); [lia|].
  cbn [negb andb]. destruct (hg_proc _ _ _ _ _ _ _ _ G) as (pr' & l' & lq' & Hok' & Hrel & _).
  pose proof (ti_proc _ _ _ _ _ (po_table _ _ _ _ _ _ Hok')) as Hpr'. wp_steps.
  eapply wp_upd_proc; [done|]. wp_steps. unfold switchuvm. wp_steps.
  eapply wp_get_proc; [kred; apply list_lookup_insert_eq; by eapply lookup_lt_Some|]. kred.
  rewrite Hrel. kred. destruct (Z.eqb_spec (p_kstack pr) 0); [done|].
  destruct (Z.eqb_spec (p_pgdir pr) 0) as [E|_]; [rewrite E in Hk; by apply kpage_nonzero in Hk|].
  unfold lcr3. wp_steps. split; [done|]. split.
  - pose proof (heap_zero_pages _ _ _ _ _ _ _ _ G) as Hz. exact Hz.
  - eexists. split; [kred; apply list_lookup_insert_eq; by eapply lookup_lt_Some|].
    split; [apply (po_cur _ _ _ _ _ _ Hok')|]. done.
Qed.

(** C38. sbrk adds its argument twice.  With memory and room for [n > 0] more
    bytes of heap, sbrk(n) adds the pages for [n] bytes, which read as zeros and
    can be written to, while everything else of the process reads as before; but
    it adds [n] to the size of the process once in growproc and once again
    itself.  When the heap has room for [2 * n] bytes it returns the old end of
    the heap and the size has grown by [2 * n]; otherwise it reports failure
    although the heap has grown by [n]. *)
Theorem sbrk_grows_twice s i pr l pages lq n :
  let sz := p_sz pr in let a := PGROUNDUP sz in let N := pages_to a (sz + n) in
  can_grow s i pr l pages lq a N -> 0 < n -> sz + n <= stack_border pr - PGSIZE -> p_kstack pr <> 0 ->
  wp (sbrk n) s (fun r s' => zero_pages s (p_pgdir pr) a N s' /\
    exists pr', k_ptable s' !! i = Some pr' /\ p_pgdir pr' = p_pgdir pr /\
      if decide (sz + 2 * n <= stack_border pr - PGSIZE)
      then r = i32 sz /\ p_sz pr' = sz + 2 * n
      else r = -1 /\ p_sz pr' = sz + n).
Proof.
  intros sz a N Hg Hn Hlim Hks. pose proof (cg_ok _ _ _ _ _ _ _ _ Hg) as Hok.
  pose proof (po_sz _ _ _ _ _ _ Hok) as Hsz. destruct (po_stack _ _ _ _ _ _ Hok) as [_ Hst]. fold sz in Hsz.
  unfold sbrk. wp_steps. eapply wp_myproc; [apply Hok|]. wp_steps.
  eapply wp_get_proc; [apply (po_table _ _ _ _ _ _ Hok)|]. wp_steps.
  eapply wp_mono; [apply (growproc_ok s i pr l pages lq n Hg Hn Hlim Hks)|].
  cbn beta. intros r s' (-> & Hz & pr' & Hpr' & Hcur & E1 & E2 & E3). change (0 <? 0) with false. wp_steps.
  eapply wp_get_proc; [done|]. fold sz in E1. unfold stack_border in *. rewrite E1, E2, !u32_small by klia.
  destruct (Z.ltb_spec (USERTOP - p_stackSize pr - PGSIZE) (sz + n + n)).
  - wp_steps. split; [done|]. exists pr'. split; [done|]. split; [done|]. by rewrite decide_False by lia.
  - wp_steps. eapply wp_upd_proc; [done|]. wp_steps. split; [exact Hz|]. eexists.
    split; [kred; apply list_lookup_insert_eq; by eapply lookup_lt_Some|]. split; [done|].
    rewrite decide_True by lia. split; [done|]. cbn. rewrite E1, u32_small by klia. lia.
Qed.

End Sbrk.

Module SbrkWitness.

#[local] Existing Instance boot_image.

(** The process of Faults.v, with a kernel stack, over a file system. *)
Definition with_stack : proc := FaultsWitness.empty_proc <| p_kstack := 0x80300000 |>.
Definition over_fs (s : kst unit) : kernel :=
  {| k_phys := k_phys s; k_mem := k_mem s; k_mte := k_mte s; k_mtp := k_mtp s; k_ste := k_ste s; k_stp := k_stp s;
     k_ptable_lock := k_ptable_lock s; k_ptable := <[0%nat := with_stack]> (k_ptable s); k_nextpid := k_nextpid s;
     k_initproc := k_initproc s; k_curproc := k_curproc s; k_cr3 := k_cr3 s; k_ts_esp0 := k_ts_esp0 s;
     k_SharedMemoryLock := k_SharedMemoryLock s; k_GlobalSharedMemoryList := k_GlobalSharedMemoryList s;
     k_fs := fsys_boot blank_disk |}.

Lemma over_fs_ok (s : kst unit) l : proc_ok s 0 FaultsWitness.empty_proc l [MemListWitness.tpage] [] ->
  proc_ok (over_fs s) 0 with_stack l [MemListWitness.tpage] [].
Proof.
  intros [H1 [K1 K2 K3 K4 K5] H3 [T1 T2 T3 T4 T5 T6 T7 T8 T9 T10] H5 H6].
  constructor; [exact H1| |exact H3| |exact H5|exact H6].
  - constructor; [exact K1|exact K2|exact K3|exact K4|exact K5].
  - constructor; try assumption. cbn. apply list_lookup_insert_eq. by eapply lookup_lt_Some.
Qed.

Lemma sbrk_grows_twice_witness : exists s : kernel,
  wp (sbrk 8192) s (fun r s' => r = 0 /\
    exists pr', k_ptable s' !! 0%nat = Some pr' /\ p_sz pr' = 16384).
Proof.
  destruct FaultsWitness.empty_space as (s & l & Hok & _ & Hl & Hz). exists (over_fs s).
  eapply wp_mono.
  - apply (sbrk_grows_twice (over_fs s) 0 with_stack l [MemListWitness.tpage] [] 8192).
    + constructor.
      * apply over_fs_ok. exact Hok.
      * intros va _ Hp. change (has (pte (k_phys s) FaultsWitness.dir va) PTE_P = true) in Hp. rewrite Hz in Hp. discriminate Hp.
      * split; [reflexivity|]. split; vm_compute; discriminate.
      * intros x _. change (has (pte (k_phys s) FaultsWitness.dir x) PTE_P = false). rewrite Hz. reflexivity.
      * intros x Hx. by apply elem_of_nil in Hx.
      * rewrite Hl. vm_compute. lia.
      * split; vm_compute; discriminate.
    + lia.
    + vm_compute. discriminate.
    + discriminate.
  - intros r s' (_ & pr' & H1 & _ & H2). rewrite decide_True in H2 by (vm_compute; discriminate).
    destruct H2 as [H2 H3]. split; [exact H2|]. exists pr'. split; [exact H1|exact H3].
Defined.

End SbrkWitness.
