(* ===== verification/Sysfile.v ===== *)
(** The system calls on files, src/src/sysfile.c.

    The bytes of a buffer in user space are loaded before the call that writes
    them to a file, and stored after the call that reads them. *)

From stdpp Require Import base gmap list strings.
From Stdlib Require Import ZArith Lia.
From S2P Require Import Prelude Mem Str Mmu State Kalloc MemTable Vm Sched Fsys Bio Log Inode Console Fs Pipe File SwapFile UserMem SharedMemory Proc Syscall Exec.

Section Sysfile.
Context {KI : KernelImage}.

(** The descriptor and the file. *)
Definition argfd (n : Z) : M kernel (option (Z * nat)) :=
  r <- argint n ;;
  match r with
  | None => ret None
  | Some fd =>
      if (fd <? 0) || (NOFILE <=? fd) then ret None
      else
        i <- myproc ;;
        p <- get_proc i ;;
        ret (match p_ofile p !! Z.to_nat fd with
             | Some (Some f) => Some (fd, f)
             | _ => None
             end)
  end.

Definition free_fd (l : list (option nat)) : option nat := fst <$> list_find (fun f => f = None) l.

(** The descriptor, or [None] for -1. *)
Definition fdalloc (f : nat) : M kernel (option Z) :=
  i <- myproc ;;
  p <- get_proc i ;;
  match free_fd (p_ofile p) with
  | None => ret None
  | Some fd =>
      upd_proc i (fun p => p <| p_ofile ::= <[fd := Some f]> |>) ;;;
      ret (Some (Z.of_nat fd))
  end.

Definition clear_fd (fd : Z) : M kernel unit :=
  i <- myproc ;;
  upd_proc i (fun p => p <| p_ofile ::= <[Z.to_nat fd := None]> |>).

Definition sys_dup : M kernel Z :=
  r <- argfd 0 ;;
  match r with
  | None => ret (-1)
  | Some (_, f) =>
      fd <- fdalloc f ;;
      match fd with
      | None => ret (-1)
      | Some fd =>
          filedup f ;;;
          ret fd
      end
  end.

(** The arguments of read and write: the file, the buffer and the length. *)
Definition arg_rw : M kernel (option (nat * Z * Z)) :=
  r <- argfd 0 ;;
  match r with
  | None => ret None
  | Some (_, f) =>
      n <- argint 2 ;;
      match n with
      | None => ret None
      | Some n =>
          p <- argptr 1 n ;;
          ret (match p with None => None | Some p => Some (f, p, n) end)
      end
  end.

Definition sys_read : M kernel Z :=
  a <- arg_rw ;;
  match a with
  | None => ret (-1)
  | Some (f, p, n) =>
      let* (r, bytes) := fileread f n ;;
      vstore_bytes p bytes ;;;
      ret r
  end.

Definition sys_write : M kernel Z :=
  a <- arg_rw ;;
  match a with
  | None => ret (-1)
  | Some (f, p, n) =>
      bytes <- vload_bytes p (Z.to_nat n) ;;
      filewrite f bytes n
  end.

Definition sys_close : M kernel Z :=
  r <- argfd 0 ;;
  match r with
  | None => ret (-1)
  | Some (fd, f) =>
      clear_fd fd ;;;
      fileclose f ;;;
      ret 0
  end.

(** struct stat of stat.h, field by field. *)
Definition STAT_SIZE : Z := 20.
Definition store_stat (a : Z) (st : stat) : M kernel unit :=
  vstore_bytes (u32 (a + 4)) (load_bytes (store32 ∅ 0 (st_dev st)) 0 4) ;;;
  vstore_bytes (u32 (a + 8)) (load_bytes (store32 ∅ 0 (st_ino st)) 0 4) ;;;
  vstore_bytes a (load_bytes (store16 ∅ 0 (st_type st)) 0 2) ;;;
  vstore_bytes (u32 (a + 12)) (load_bytes (store16 ∅ 0 (st_nlink st)) 0 2) ;;;
  vstore_bytes (u32 (a + 16)) (load_bytes (store32 ∅ 0 (st_size st)) 0 4).

Definition sys_fstat : M kernel Z :=
  r <- argfd 0 ;;
  match r with
  | None => ret (-1)
  | Some (_, f) =>
      p <- argptr 1 STAT_SIZE ;;
      match p with
      | None => ret (-1)
      | Some st =>
          let* (r, x) := filestat f ;;
          match x with Some x => store_stat st x | None => ret tt end ;;;
          ret r
      end
  end.

(** The jump to [bad] of sys_link. *)
Definition link_bad (ip : nat) : M kernel Z :=
  ilock (Some ip) ;;;
  upd_inode ip (fun i => i <| i_nlink ::= fun n => i16 (n - 1) |>) ;;;
  iupdate ip ;;;
  iunlockput ip ;;;
  end_op ;;;
  ret (-1).

(** sys_link after its arguments are fetched. *)
Definition link (old new : list Z) : M kernel Z :=
  begin_op ;;;
  oip <- namei old ;;
  match oip with
  | None =>
      end_op ;;;
      ret (-1)
  | Some ip =>
      ilock (Some ip) ;;;
      i <- get_inode ip ;;
      if i_type i =? T_DIR then
        iunlockput ip ;;;
        end_op ;;;
        ret (-1)
      else
        upd_inode ip (fun i => i <| i_nlink ::= fun n => i16 (n + 1) |>) ;;;
        iupdate ip ;;;
        iunlock (Some ip) ;;;
        r <- nameiparent new ;;
        match r with
        | None => link_bad ip
        | Some (dp, name) =>
            ilock (Some dp) ;;;
            d <- get_inode dp ;;
            i <- get_inode ip ;;
            r <- (if negb (i_dev d =? i_dev i) then ret (-1) else dirlink dp name (i_inum i)) ;;
            if r <? 0 then
              iunlockput dp ;;;
              link_bad ip
            else
              iunlockput dp ;;;
              iput ip ;;;
              end_op ;;;
              ret 0
        end
  end.

Definition sys_link : M kernel Z :=
  old <- argstring 0 ;;
  match old with
  | None => ret (-1)
  | Some old =>
      new <- argstring 1 ;;
      match new with
      | None => ret (-1)
      | Some new => link old new
      end
  end.

(** After its argument is fetched sys_unlink does what kunlink does, line by
    line. *)
Definition sys_unlink : M kernel Z :=
  path <- argstring 0 ;;
  match path with
  | None => ret (-1)
  | Some path => kunlink path
  end.

(** The inode opened and locked, or [None] after end_op. *)
Definition open_inode (path : list Z) (omode : Z) : M kernel (option nat) :=
  if has omode O_CREATE then
    oip <- create path T_FILE 0 0 ;;
    match oip with
    | None => end_op ;;; ret None
    | Some ip => ret (Some ip)
    end
  else
    oip <- namei path ;;
    match oip with
    | None => end_op ;;; ret None
    | Some ip =>
        ilock (Some ip) ;;;
        i <- get_inode ip ;;
        if (i_type i =? T_DIR) && negb (omode =? O_RDONLY) then
          iunlockput ip ;;;
          end_op ;;;
          ret None
        else ret (Some ip)
    end.

(** sys_open after its arguments are fetched. *)
Definition open (path : list Z) (omode : Z) : M kernel Z :=
  begin_op ;;;
  oip <- open_inode path omode ;;
  match oip with
  | None => ret (-1)
  | Some ip =>
      f <- filealloc ;;
      fd <- match f with Some f => fdalloc f | None => ret None end ;;
      match f, fd with
      | Some f, Some fd =>
          iunlock (Some ip) ;;;
          end_op ;;;
          upd_file f (fun x =>
            x <| f_type := FD_INODE |> <| f_ip := Some ip |> <| f_off := 0 |>
              <| f_readable := if has omode O_WRONLY then 0 else 1 |>
              <| f_writable := if has omode O_WRONLY || has omode O_RDWR then 1 else 0 |>) ;;;
          ret fd
      | _, _ =>
          match f with Some f => fileclose f | None => ret tt end ;;;
          iunlockput ip ;;;
          end_op ;;;
          ret (-1)
      end
  end.

Definition sys_open : M kernel Z :=
  path <- argstring 0 ;;
  match path with
  | None => ret (-1)
  | Some path =>
      omode <- argint 1 ;;
      match omode with
      | None => ret (-1)
      | Some omode => open path omode
      end
  end.

(** The end of sys_mkdir and sys_mknod. *)
Definition created (oip : option nat) : M kernel Z :=
  match oip with
  | None =>
      end_op ;;;
      ret (-1)
  | Some ip =>
      iunlockput ip ;;;
      end_op ;;;
      ret 0
  end.

Definition sys_mkdir : M kernel Z :=
  begin_op ;;;
  path <- argstring 0 ;;
  oip <- match path with None => ret None | Some path => create path T_DIR 0 0 end ;;
  created oip.

Definition sys_mknod : M kernel Z :=
  begin_op ;;;
  path <- argstring 0 ;;
  oip <- match path with
         | None => ret None
         | Some path =>
             major <- argint 1 ;;
             match major with
             | None => ret None
             | Some major =>
                 minor <- argint 2 ;;
                 match minor with
                 | None => ret None
                 | Some minor => create path T_DEV (i16 major) (i16 minor)
                 end
             end
         end ;;
  created oip.

Definition sys_chdir : M kernel Z :=
  curproc <- myproc ;;
  begin_op ;;;
  path <- argstring 0 ;;
  oip <- match path with None => ret None | Some path => namei path end ;;
  match oip with
  | None =>
      end_op ;;;
      ret (-1)
  | Some ip =>
      ilock (Some ip) ;;;
      i <- get_inode ip ;;
      if negb (i_type i =? T_DIR) then
        iunlockput ip ;;;
        end_op ;;;
        ret (-1)
      else
        iunlock (Some ip) ;;;
        p <- get_proc curproc ;;
        match p_cwd p with Some cwd => iput cwd | None => crash "null cwd" end ;;;
        end_op ;;;
        upd_proc curproc (fun p => p <| p_cwd := Some ip |>) ;;;
        ret 0
  end.

(** The argument vector at [uargv]: [n] slots of argv are left. *)
Fixpoint fetch_argv (n : nat) (uargv i : Z) : M kernel (option (list Z)) :=
  match n with
  | O => ret None
  | S n =>
      uarg <- fetchint (u32 (uargv + 4 * i)) ;;
      match uarg with
      | None => ret None
      | Some uarg =>
          if uarg =? 0 then ret (Some [])
          else
            len <- fetchstr (u32 uarg) ;;
            match len with
            | None => ret None
            | Some _ =>
                rest <- fetch_argv n uargv (i + 1) ;;
                ret (match rest with None => None | Some l => Some (u32 uarg :: l) end)
            end
      end
  end.

Definition sys_exec : M kernel Z :=
  path <- argstring 0 ;;
  match path with
  | None => ret (-1)
  | Some path =>
      uargv <- argint 1 ;;
      match uargv with
      | None => ret (-1)
      | Some uargv =>
          argv <- fetch_argv (Z.to_nat MAXARG) (u32 uargv) 0 ;;
          match argv with
          | None => ret (-1)
          | Some argv => exec path argv
          end
      end
  end.

Definition sys_pipe : M kernel Z :=
  fd <- argptr 0 8 ;;
  match fd with
  | None => ret (-1)
  | Some fd =>
      r <- pipealloc ;;
      match r with
      | None => ret (-1)
      | Some (rf, wf) =>
          fd0 <- fdalloc rf ;;
          fd1 <- match fd0 with Some _ => fdalloc wf | None => ret None end ;;
          match fd0, fd1 with
          | Some fd0, Some fd1 =>
              vstore32 fd fd0 ;;;
              vstore32 (u32 (fd + 4)) fd1 ;;;
              ret 0
          | _, _ =>
              match fd0 with Some fd0 => clear_fd fd0 | None => ret tt end ;;;
              fileclose rf ;;;
              fileclose wf ;;;
              ret (-1)
          end
      end
  end.

End Sysfile.
