(* ===== verification/UserProgs.v ===== *)
(** The user programs src/src/wc.c, cat.c, echo.c and ls.c.

    What the successive calls of read return is a list of the bytes of each,
    followed by the end of the file or an error.  The text of a call of printf is
    that of its pieces, as Printf.v shows.  A program that ends early with exit
    gives what it has printed and [false]. *)

From stdpp Require Import base gmap list strings.
From Stdlib Require Import ZArith Lia.
From S2P Require Import Prelude Mem Mmu State Str Fsys Printf.

Definition codes_of (s : string) : list Z := (fun a => Z.of_nat (Ascii.nat_of_ascii a)) <$> String.list_ascii_of_string s.

(** The text printf prints for its pieces; a string argument is never null. *)
Definition prints (ps : list piece) : list Z := concat (piece_out true <$> ps).
Definition str (l : list Z) : piece := Str 1 l.
Definition lit (s : string) : piece := Text (codes_of s).
Definition nl : piece := Text [10].

(** What read gives until it returns 0 or, if [r_error], a negative number. *)
Record source := { r_chunks : list (list Z); r_error : bool }.

(** ** wc *)

Definition blanks : list Z := [32; 13; 9; 10; 11].

Record tally := { t_l : Z; t_w : Z; t_c : Z; t_inword : bool }.

(** The body of the loop over the bytes. *)
Definition wc_char (t : tally) (x : Z) : tally :=
  let c := i32 (t_c t + 1) in
  let l := if x =? 10 then i32 (t_l t + 1) else t_l t in
  if bool_decide (x ∈ blanks) then {| t_l := l; t_w := t_w t; t_c := c; t_inword := false |}
  else if negb (t_inword t) then {| t_l := l; t_w := i32 (t_w t + 1); t_c := c; t_inword := true |}
  else {| t_l := l; t_w := t_w t; t_c := c; t_inword := true |}.

Definition wc (fd : source) (name : list Z) : list Z * bool :=
  let t := fold_left (fun t buf => fold_left wc_char buf t) (r_chunks fd) {| t_l := 0; t_w := 0; t_c := 0; t_inword := false |} in
  if r_error fd then (prints [lit "wc: read error"; nl], false)
  else (prints [Dec (t_l t); lit " "; Dec (t_w t); lit " "; Dec (t_c t); lit " "; str name; nl], true).

(** The files of the command line, [None] for one that cannot be opened. *)
Fixpoint wc_files (args : list (list Z * option source)) : list Z :=
  match args with
  | [] => []
  | (name, None) :: _ => prints [lit "wc: cannot open "; str name; nl]
  | (name, Some fd) :: args =>
      let '(out, go) := wc fd name in
      if go then out ++ wc_files args else out
  end.

Definition wc_main (stdin : source) (args : list (list Z * option source)) : list Z :=
  match args with
  | [] => (wc stdin []).1
  | _ => wc_files args
  end.

(** ** cat *)

Section Cat.
(** What the call of write for the [k]th bytes returns; it has written so many bytes. *)
Context (write : nat -> list Z -> Z).

Fixpoint cat_loop (k : nat) (bufs : list (list Z)) : list Z * bool :=
  match bufs with
  | [] => ([], true)
  | buf :: bufs =>
      let n := write k buf in
      let out := take (Z.to_nat n) buf in
      if negb (n =? Z.of_nat (length buf)) then (out ++ prints [lit "cat: write error"; nl], false)
      else let '(rest, go) := cat_loop (S k) bufs in (out ++ rest, go)
  end.

Definition cat (k : nat) (fd : source) : list Z * bool :=
  let '(out, go) := cat_loop k (r_chunks fd) in
  if negb go then (out, false)
  else if r_error fd then (out ++ prints [lit "cat: read error"; nl], false)
  else (out, true).

Fixpoint cat_files (k : nat) (args : list (list Z * option source)) : list Z :=
  match args with
  | [] => []
  | (name, None) :: _ => prints [lit "cat: cannot open "; str name; nl]
  | (_, Some fd) :: args =>
      let '(out, go) := cat k fd in
      if go then out ++ cat_files (k + length (r_chunks fd)) args else out
  end.

Definition cat_main (stdin : source) (args : list (list Z * option source)) : list Z :=
  match args with
  | [] => (cat 0 stdin).1
  | _ => cat_files 0 args
  end.
End Cat.

(** ** echo *)

Fixpoint echo (args : list (list Z)) : list Z :=
  match args with
  | [] => []
  | a :: args => prints [str a; str (match args with [] => [10] | _ => [32] end)] ++ echo args
  end.

(** ** ls *)

(** The index after the last slash before [n]. *)
Fixpoint after_slash (path : list Z) (n : nat) : nat :=
  match n with
  | O => O
  | S p => if bool_decide (path !! p = Some 47) then n else after_slash path p
  end.

Definition fmtname (path : list Z) : list Z :=
  let p := drop (after_slash path (S (length path))) path in
  if DIRSIZ <=? Z.of_nat (length p) then p
  else p ++ replicate (Z.to_nat (DIRSIZ - Z.of_nat (length p))) 32.

Record stat := { st_type : Z; st_ino : Z; st_size : Z }.

(** The bytes before the first NUL. *)
Fixpoint c_str (l : list Z) : list Z :=
  match l with
  | [] => []
  | c :: l => if c =? 0 then [] else c :: c_str l
  end.

Section Ls.
(** What stat says of a path. *)
Context (stat_of : list Z -> option stat).

Definition ls_line (name : list Z) (st : stat) : list Z :=
  prints [str (fmtname name); lit " "; Dec (st_type st); lit " "; Dec (st_ino st); lit " "; Dec (st_size st); nl].

Fixpoint ls_entries (path : list Z) (des : list (Z * list Z)) : list Z :=
  match des with
  | [] => []
  | (inum, name) :: des =>
      if inum =? 0 then ls_entries path des
      else
        let buf := path ++ [47] ++ c_str name in
        match stat_of buf with
        | None => prints [lit "ls: cannot stat "; str buf; nl] ++ ls_entries path des
        | Some st => ls_line buf st ++ ls_entries path des
        end
  end.

(** [opened] is what open gave: fstat's answer and the entries that read returns. *)
Definition ls (path : list Z) (opened : option (option stat * list (Z * list Z))) : list Z :=
  match opened with
  | None => prints [lit "ls: cannot open "; str path; nl]
  | Some (None, _) => prints [lit "ls: cannot stat "; str path; nl]
  | Some (Some st, des) =>
      if st_type st =? T_FILE then ls_line path st
      else if st_type st =? T_DIR then
        if 512 <? Z.of_nat (length path) + 1 + DIRSIZ + 1 then prints [lit "ls: path too long"; nl]
        else ls_entries path des
      else []
  end.
End Ls.

(** ** What they print *)

Definition flush_word (cur : list Z) : list (list Z) := match cur with [] => [] | _ => [cur] end.

(** The words of a text: what is between blanks; [cur] is the beginning of one. *)
Fixpoint words_of (cur text : list Z) : list (list Z) :=
  match text with
  | [] => flush_word cur
  | x :: text => if bool_decide (x ∈ blanks) then flush_word cur ++ words_of [] text else words_of (cur ++ [x]) text
  end.

Definition newlines (text : list Z) : Z := Z.of_nat (length (filter (fun x => x = 10) text)).

Lemma words_bound text : forall cur, (length (words_of cur text) <= length (flush_word cur) + length text)%nat.
Proof.
  induction text as [|x text IH]; intros cur; cbn [words_of length]; [lia|]. case_bool_decide.
  - rewrite length_app. specialize (IH []). cbn in IH. lia.
  - specialize (IH (cur ++ [x])). assert (length (flush_word (cur ++ [x])) <= 1)%nat by (destruct (cur ++ [x]); cbn; lia). lia.
Qed.

Lemma tally_ok text : forall t cur, t_inword t = negb (bool_decide (cur = [])) ->
  0 <= t_l t -> 0 <= t_w t -> 0 <= t_c t -> t_l t + Z.of_nat (length text) < 2 ^ 31 -> t_w t + Z.of_nat (length text) < 2 ^ 31 ->
  t_c t + Z.of_nat (length text) < 2 ^ 31 ->
  let t' := fold_left wc_char text t in
  t_l t' = t_l t + newlines text /\ t_c t' = t_c t + Z.of_nat (length text) /\
  t_w t' = t_w t + Z.of_nat (length (words_of cur text)) - Z.of_nat (length (flush_word cur)).
Proof.
  induction text as [|x text IH]; intros t cur Hin Hl Hw Hc Bl Bw Bc; cbn [fold_left length words_of] in *.
  - unfold newlines. cbn. lia.
  - assert (newlines (x :: text) = (if x =? 10 then 1 else 0) + newlines text) as EN.
    { unfold newlines. rewrite filter_cons. destruct (Z.eqb_spec x 10); [rewrite decide_True by done|rewrite decide_False by done]; cbn [length]; lia. }
    rewrite EN. unfold wc_char at 2 4 6. rewrite Hin. rewrite !i32_small by lia.
    assert (length (flush_word (cur ++ [x])) = 1%nat) as E1 by (destruct cur; done).
    destruct (bool_decide (x ∈ blanks)) eqn:Hb.
    + edestruct (IH {| t_l := if x =? 10 then t_l t + 1 else t_l t; t_w := t_w t; t_c := t_c t + 1; t_inword := false |} []) as (A1 & A2 & A3);
        cbn [t_l t_w t_c t_inword]; try (destruct (x =? 10); lia); [done|].
      cbn [t_l t_w t_c] in *. rewrite A1, A2, A3, length_app. cbn [flush_word length]. destruct (x =? 10); lia.
    + destruct (bool_decide (cur = [])) eqn:Hcur; cbn [negb].
      * apply bool_decide_eq_true in Hcur as ->.
        edestruct (IH {| t_l := if x =? 10 then t_l t + 1 else t_l t; t_w := t_w t + 1; t_c := t_c t + 1; t_inword := true |} ([] ++ [x])) as (A1 & A2 & A3);
          cbn [t_l t_w t_c t_inword]; try (destruct (x =? 10); lia); [done|].
        cbn [t_l t_w t_c] in *. rewrite A1, A2, A3, E1. cbn [flush_word length]. destruct (x =? 10); lia.
      * apply bool_decide_eq_false in Hcur.
        edestruct (IH {| t_l := if x =? 10 then t_l t + 1 else t_l t; t_w := t_w t; t_c := t_c t + 1; t_inword := true |} (cur ++ [x])) as (A1 & A2 & A3);
          cbn [t_l t_w t_c t_inword]; try (destruct (x =? 10); lia); [by rewrite bool_decide_eq_false_2 by (by destruct cur)|].
        cbn [t_l t_w t_c] in *. rewrite A1, A2, A3, E1. destruct cur; [done|]. cbn [flush_word length]. destruct (x =? 10); lia.
Qed.

(** ** Theorems *)

Lemma fold_chunks {A B} (f : A -> B -> A) (ls : list (list B)) : forall a, fold_left (fun a l => fold_left f l a) ls a = fold_left f (concat ls) a.
Proof. induction ls as [|l ls IH]; intros a; [done|]. cbn. by rewrite IH, fold_left_app. Qed.

Lemma cat_loop_all write bufs : forall k, (forall i l, bufs !! i = Some l -> write (k + i)%nat l = Z.of_nat (length l)) ->
  cat_loop write k bufs = (concat bufs, true).
Proof.
  induction bufs as [|l bufs IH]; intros k H; [done|]. cbn [cat_loop concat].
  pose proof (H 0%nat l eq_refl) as E. rewrite Nat.add_0_r in E. rewrite E, Z.eqb_refl. cbn [negb].
  rewrite IH; [by rewrite Nat2Z.id, firstn_all|]. intros i l' Hi. rewrite <- (H (S i) l' Hi). f_equal. lia.
Qed.

Lemma after_slash_spec dir name : 47 ∉ name -> forall n, (length dir + 1 <= n <= length dir + 1 + length name + 1)%nat ->
  after_slash (dir ++ [47] ++ name) n = (length dir + 1)%nat.
Proof.
  intros Hname. induction n as [|n IH]; intros Hn; [lia|]. cbn [after_slash]. case_bool_decide as E.
  - destruct (decide (n = length dir)) as [->|Hne]; [lia|]. exfalso. rewrite lookup_app_r in E by lia.
    rewrite lookup_app_r in E by (cbn; lia). cbn in E. apply Hname. by eapply list_elem_of_lookup_2.
  - destruct (decide (n = length dir)) as [->|Hne]; [|apply IH; lia]. exfalso. apply E. rewrite lookup_app_r, Nat.sub_diag by lia. done.
Qed.

Lemma after_slash_none path : 47 ∉ path -> forall n, after_slash path n = 0%nat.
Proof.
  intros Hp. induction n as [|n IH]; [done|]. cbn. case_bool_decide as E; [|done]. exfalso. apply Hp. by eapply list_elem_of_lookup_2.
Qed.

(** A name with blanks up to DIRSIZ. *)
Definition blank_padded (name : list Z) : list Z := name ++ replicate (Z.to_nat DIRSIZ - length name) 32.

Lemma pad_short name : (if DIRSIZ <=? Z.of_nat (length name) then name else name ++ replicate (Z.to_nat (DIRSIZ - Z.of_nat (length name))) 32) = blank_padded name.
Proof.
  unfold blank_padded, DIRSIZ. destruct (Z.leb_spec 14 (Z.of_nat (length name))).
  - replace (Z.to_nat 14 - length name)%nat with 0%nat by lia. by rewrite app_nil_r.
  - do 2 f_equal. lia.
Qed.

(** The arguments with a blank between them. *)
Fixpoint join (ls : list (list Z)) : list Z :=
  match ls with
  | [] => []
  | [l] => l
  | l :: ls => l ++ [32] ++ join ls
  end.

Lemma echo_join args : args <> [] -> echo args = join args ++ [10].
Proof.
  induction args as [|a args IH]; [done|]. intros _. destruct args as [|b args].
  - unfold echo, prints. cbn. by rewrite !app_nil_r.
  - change (echo (a :: b :: args)) with ((a ++ [32] ++ []) ++ echo (b :: args)). rewrite IH by done. cbn [join]. by rewrite app_nil_r, <- !app_assoc.
Qed.

(** The first write that is not complete. *)
Lemma cat_loop_short write bufs : forall i k l, bufs !! k = Some l ->
  (forall j l', (j < k)%nat -> bufs !! j = Some l' -> write (i + j)%nat l' = Z.of_nat (length l')) ->
  write (i + k)%nat l <> Z.of_nat (length l) ->
  cat_loop write i bufs = (concat (take k bufs) ++ take (Z.to_nat (write (i + k)%nat l)) l ++ prints [lit "cat: write error"; nl], false).
Proof.
  induction bufs as [|b bufs IH]; intros i k l Hk Hlt Hne; [done|]. destruct k as [|k]; cbn [cat_loop].
  - injection Hk as ->. rewrite Nat.add_0_r in *. by apply Z.eqb_neq in Hne as ->.
  - pose proof (Hlt 0%nat b ltac:(lia) eq_refl) as E. rewrite Nat.add_0_r in E. rewrite E, Z.eqb_refl. cbn [negb].
    rewrite (IH (S i) k l Hk); [|intros j l' Hj Hl'; rewrite <- (Hlt (S j) l' ltac:(lia) Hl'); f_equal; lia|by rewrite Nat.add_succ_comm].
    cbn [take concat]. by rewrite Nat2Z.id, firstn_all, <- app_assoc, Nat.add_succ_comm.
Qed.

(** C40. What wc, cat, echo and the names of ls print.  wc and cat do not depend on how their input arrives: whatever
    sizes the reads have, wc prints the numbers of newlines, of words (what is between blanks) and of bytes of all the
    input, if there are fewer than [2 ^ 31]; cat writes all of it unchanged when every write is complete, and at the
    first one that is not it has written all before it, says so and stops.  After an error of read, wc prints only the
    message, cat its input and the message.  echo prints its arguments with one blank between them and a newline, and
    nothing without arguments.  And ls shows the last element of a path, filled with blanks to the width of a
    directory entry. *)
Theorem programs_print chunks err write dir name args :
  Z.of_nat (length (concat chunks)) < 2 ^ 31 -> (47 ∉ name) ->
  let text := concat chunks in
  let fd := {| r_chunks := chunks; r_error := err |} in
  wc fd name = (if err then (prints [lit "wc: read error"; nl], false)
                else (prints [Dec (newlines text); lit " "; Dec (Z.of_nat (length (words_of [] text))); lit " ";
                              Dec (Z.of_nat (length text)); lit " "; str name; nl], true)) /\
  ((forall k l, chunks !! k = Some l -> write k l = Z.of_nat (length l)) ->
     cat write 0 fd = (text ++ if err then prints [lit "cat: read error"; nl] else [], negb err)) /\
  (forall k l, chunks !! k = Some l -> (forall j l', (j < k)%nat -> chunks !! j = Some l' -> write j l' = Z.of_nat (length l')) ->
     write k l <> Z.of_nat (length l) ->
     cat write 0 fd = (concat (take k chunks) ++ take (Z.to_nat (write k l)) l ++ prints [lit "cat: write error"; nl], false)) /\
  echo args = (if bool_decide (args = []) then [] else join args ++ [10]) /\
  fmtname (dir ++ [47] ++ name) = blank_padded name /\ fmtname name = blank_padded name.
Proof.
  intros Hlen Hn text fd. split_and!.
  - unfold wc. cbn [r_chunks r_error fd]. destruct err; [done|]. rewrite fold_chunks. fold text.
    edestruct (tally_ok text {| t_l := 0; t_w := 0; t_c := 0; t_inword := false |} []) as (A1 & A2 & A3); cbn [t_l t_w t_c t_inword]; try done.
    cbn [t_l t_w t_c flush_word length] in *. rewrite A1, A2, A3, !Z.add_0_l, Z.sub_0_r. done.
  - intros Hw. unfold cat. cbn [r_chunks r_error fd]. rewrite cat_loop_all by (intros i l Hi; by apply Hw).
    destruct err; [done|]. by rewrite app_nil_r.
  - intros k l Hk Hlt Hne. unfold cat. cbn [r_chunks fd]. by rewrite (cat_loop_short write chunks 0 k l Hk Hlt Hne).
  - case_bool_decide as E; [by subst|by apply echo_join].
  - unfold fmtname. rewrite (after_slash_spec dir name Hn) by (rewrite length_app; cbn; lia).
    replace (drop (length dir + 1) (dir ++ [47] ++ name)) with name; [apply pad_short|].
    rewrite app_assoc, drop_app_length'; [done|]. rewrite length_app. done.
  - unfold fmtname. rewrite (after_slash_none name Hn). apply pad_short.
Qed.

Module ProgsWitness.
(** A text that arrives in two reads, the second in the middle of a word. *)
Definition two_reads : list (list Z) := [codes_of "to be o"; codes_of "r not" ++ [10]].
(** The second write is cut short. *)
Definition short_write (k : nat) (l : list Z) : Z := if decide (k = 1%nat) then 2 else Z.of_nat (length l).

Lemma programs_print_witness : Z.of_nat (length (concat two_reads)) < 2 ^ 31 /\
  (wc {| r_chunks := two_reads; r_error := false |} (codes_of "f")).1 = codes_of "1 4 13 f" ++ [10] /\
  (cat short_write 0 {| r_chunks := two_reads; r_error := false |}).1 = codes_of "to be or cat: write error" ++ [10] /\
  echo [codes_of "to"; codes_of "be"] = codes_of "to be" ++ [10].
Proof.
  assert (Z.of_nat (length (concat two_reads)) < 2 ^ 31) as H by done.
  assert (47 ∉ codes_of "f") as Hf by (apply (bool_decide_unpack _); by vm_compute).
  split; [exact H|].
  destruct (programs_print two_reads false short_write (codes_of "a") (codes_of "f") [codes_of "to"; codes_of "be"] H Hf) as (E & _ & E' & E'' & _).
  split; [rewrite E; reflexivity|]. split; [|exact E''].
  rewrite (E' 1%nat (codes_of "r not" ++ [10])); [reflexivity|reflexivity| |discriminate].
  intros j l' Hj Hl. destruct j; [|lia]. injection Hl as <-. reflexivity.
Defined.
End ProgsWitness.
