(* ===== verification/Debug.v ===== *)
(** What the kernel prints about itself: getcallerpcs of src/src/spinlock.c, panic of
    src/src/console.c and procdump of src/src/proc.c.

    The text of a call of cprintf is that of its pieces, as Printf.v shows; procdump
    gives the texts of its calls, which consoleintr prints for control-P.  Memory
    is the kernel's, at the kernel's addresses. *)

From stdpp Require Import base gmap list strings.
From Stdlib Require Import ZArith Lia.
From S2P Require Import Prelude Mem Mmu State Printf Fs UserProgs.

(** The text cprintf prints for its pieces. *)
Definition cprints (ps : list piece) : list Z := concat (piece_out false <$> ps).

(** ** Call stacks *)

Definition no_frame (ebp : Z) : bool := (ebp =? 0) || (ebp <? KERNBASE) || (ebp =? 0xffffffff).

(** The two loops, with [n] elements of pcs left to fill. *)
Fixpoint getcallerpcs_loop (n : nat) (m : mem) (ebp : Z) : list Z :=
  match n with
  | O => []
  | S k => if no_frame ebp then replicate n 0 else load32 m (u32 (ebp + 4)) :: getcallerpcs_loop k m (load32 m ebp)
  end.

Definition getcallerpcs (m : mem) (v : Z) : list Z := getcallerpcs_loop 10 m (u32 (v - 8)).

(** ** Output *)

(** What panic prints before it stops: [apicid] is the number of the local APIC, [s] the message, at the address [v] the
    argument of panic lies. *)
Definition panic_text (m : mem) (apicid : Z) (s : list Z) (v : Z) : list Z :=
  cprints [lit "lapicid "; Dec apicid; lit ": panic: "] ++ cprints [Text s] ++ cprints [nl] ++
  concat ((fun pc => cprints [lit " "; Hex pc]) <$> getcallerpcs m v).

Definition states (st : procstate) : string :=
  match st with
  | UNUSED => "unused" | EMBRYO => "embryo" | SLEEPING => "sleep " | RUNNABLE => "runble" | RUNNING => "run   " | ZOMBIE => "zombie"
  end.

(** The loop over pc, up to its first 0. *)
Fixpoint print_pcs (pcs : list Z) : list (list Z) :=
  match pcs with
  | [] => []
  | pc :: pcs => if negb (pc =? 0) then cprints [lit " "; Hex pc] :: print_pcs pcs else []
  end.

(** [ebp] is the frame pointer saved in the context of the process. *)
Definition procdump_line (m : mem) (p : proc) (ebp : Z) : list (list Z) :=
  if decide (p_state p = UNUSED) then []
  else
    cprints [Dec (p_pid p); lit " "; str (codes_of (states (p_state p))); lit " "; str (cstr (p_name p))] ::
    (if decide (p_state p = SLEEPING) then print_pcs (getcallerpcs m (u32 (ebp + 8))) else []) ++
    [cprints [nl]].

Definition procdump (m : mem) (ptable : list proc) (ebp : nat -> Z) : list (list Z) :=
  concat (imap (fun i p => procdump_line m p (ebp i)) ptable).

(** ** What getcallerpcs finds *)

(** From the frame at [ebp] the return addresses are [rets], and the last frame's caller has no frame in the kernel. *)
Fixpoint chain (m : mem) (ebp : Z) (rets : list Z) : Prop :=
  match rets with
  | [] => no_frame ebp = true
  | pc :: rets => no_frame ebp = false /\ load32 m (u32 (ebp + 4)) = pc /\ chain m (load32 m ebp) rets
  end.

Lemma getcallerpcs_loop_chain n : forall m ebp rets, chain m ebp rets -> getcallerpcs_loop n m ebp = take n (rets ++ replicate n 0).
Proof.
  induction n as [|n IH]; intros m ebp rets H; [done|]. destruct rets as [|pc rets].
  - cbn in H. cbn [getcallerpcs_loop]. rewrite H. cbn [app]. by rewrite take_ge by (rewrite length_replicate; lia).
  - destruct H as (E & <- & H). cbn [getcallerpcs_loop]. rewrite E, (IH _ _ rets H). cbn [app take]. f_equal.
    rewrite replicate_S_end, app_assoc, (take_app_le (rets ++ replicate n 0)) by (rewrite length_app, length_replicate; lia). done.
Qed.

(** getcallerpcs gives the first ten return addresses of the call stack, and zeros after them. *)
Lemma getcallerpcs_chain m v rets : chain m (u32 (v - 8)) rets -> getcallerpcs m v = take 10 (rets ++ replicate 10 0).
Proof. apply getcallerpcs_loop_chain. Qed.

Lemma print_pcs_chain n : forall rets, Forall (fun pc => pc <> 0) rets ->
  print_pcs (take n (rets ++ replicate n 0)) = (fun pc => cprints [lit " "; Hex pc]) <$> take n rets.
Proof.
  induction n as [|n IH]; intros rets H; [done|]. destruct rets as [|pc rets]; [done|]. apply Forall_cons in H as [Hpc H]. apply Z.eqb_neq in Hpc.
  cbn [app take print_pcs fmap list_fmap]. rewrite Hpc. cbn [negb]. f_equal. rewrite <- IH by done. f_equal.
  rewrite replicate_S_end, app_assoc, (take_app_le (rets ++ replicate n 0)) by (rewrite length_app, length_replicate; lia). done.
Qed.

(** procdump prints, for a process that sleeps, its call stack from where it sleeps. *)
Lemma procdump_sleeping m p ebp rets : p_state p = SLEEPING -> 0 <= ebp < 2 ^ 32 - 8 -> chain m ebp rets -> Forall (fun pc => pc <> 0) rets ->
  concat (procdump_line m p ebp) = text (p_pid p) ++ codes_of " sleep  " ++ cstr (p_name p) ++ concat ((fun pc => cprints [lit " "; Hex pc]) <$> take 10 rets) ++ [10].
Proof.
  intros Hs He Hc Hr. unfold procdump_line. rewrite Hs. cbn [decide]. rewrite (u32_small (ebp + 8)) by lia.
  rewrite (getcallerpcs_chain _ _ rets) by (replace (ebp + 8 - 8) with ebp by lia; by rewrite u32_small by lia). rewrite print_pcs_chain by done.
  rewrite decide_False, decide_True by done. cbn [concat]. rewrite concat_app. unfold cprints at 1. cbn [fmap list_fmap piece_out concat lit str]. rewrite app_nil_r. cbn [Z.eqb].
  rewrite <- !app_assoc. done.
Qed.
