(* ===== verification/Trap.v ===== *)
(** Traps, interrupts and the system call table: src/src/trap.c and syscall()
    of src/src/syscall.c. *)

From stdpp Require Import base gmap list strings.
From Stdlib Require Import ZArith Lia.
From S2P Require Import Prelude Mem Str Mmu State Kalloc MemTable Vm Sched Fsys Bio Log Inode Console Fs Pipe File SwapFile UserMem SharedMemory Proc Syscall Exec Sysproc Sysfile Debug.

(** ** traps.h *)
Definition T_PGFLT : Z := 14.
Definition T_SYSCALL : Z := 64.
Definition T_IRQ0 : Z := 32.
Definition IRQ_TIMER : Z := 0.
Definition IRQ_KBD : Z := 1.
Definition IRQ_COM1 : Z := 4.
Definition IRQ_IDE : Z := 14.
Definition IRQ_SPURIOUS : Z := 31.
Definition DPL_USER : Z := 3.

Section Trap.
Context {KI : KernelImage}.

(** The table syscalls[], by the numbers of syscall.h. *)
Definition syscalls (num : Z) : option (M kernel Z) :=
  match num with
  | 1 => Some sys_fork
  | 2 => Some sys_exit
  | 3 => Some sys_wait
  | 4 => Some sys_pipe
  | 5 => Some sys_read
  | 6 => Some sys_kill
  | 7 => Some sys_exec
  | 8 => Some sys_fstat
  | 9 => Some sys_chdir
  | 10 => Some sys_dup
  | 11 => Some sys_getpid
  | 12 => Some sys_sbrk
  | 13 => Some sys_sleep
  | 14 => Some sys_uptime
  | 15 => Some sys_open
  | 16 => Some sys_write
  | 17 => Some sys_mknod
  | 18 => Some sys_unlink
  | 19 => Some sys_link
  | 20 => Some sys_mkdir
  | 21 => Some sys_close
  | 23 => Some sys_AllocSharedMemory
  | 24 => Some sys_DeallocSharedMemory
  | 25 => Some sys_ReadSharedMemory
  | 26 => Some sys_WriteSharedMemory
  | 27 => Some sys_GetMemoryInfo
  | _ => None
  end.

Definition syscall : M kernel unit :=
  curproc <- myproc ;;
  p <- get_proc curproc ;;
  let set_eax v := upd_proc curproc (fun p => p <| p_tf ::= fun t => t <| tf_eax := u32 v |> |>) in
  match syscalls (i32 (tf_eax (p_tf p))) with
  | Some call =>
      r <- call ;;
      set_eax r
  | None => set_eax (-1)
  end.

Definition current_killed : M kernel bool :=
  cur <- gets k_curproc ;;
  match cur with
  | None => ret false
  | Some i => p <- get_proc i ;; ret (p_killed p)
  end.

(** The switch of trap().  [cr2] is the faulting address and [chars] what the
    keyboard or the serial line delivers; [m] is the kernel's memory with the stacks and
    [ebp] the frame pointers in the contexts of the processes, for procdump; ideintr has nothing to do with the
    memory disk, and lapiceoi only talks to the interrupt controller. *)
Definition trap_dispatch (tf : trapframe) (cr2 : Z) (chars : list Z) (m : mem) (ebp : nat -> Z) : M kernel unit :=
  let n := tf_trapno tf in
  if n =? T_PGFLT then PageFault cr2 (tf_err tf)
  else if n =? T_IRQ0 + IRQ_TIMER then
    ticks_acquire ;;;
    fmod (fun x => x <| x_ticks ::= fun t => u32 (t + 1) |>) ;;;
    wakeup ticks_chan ;;;
    ticks_release
  else if (n =? T_IRQ0 + IRQ_IDE) || (n =? T_IRQ0 + IRQ_IDE + 1) then ret tt
  else if (n =? T_IRQ0 + IRQ_KBD) || (n =? T_IRQ0 + IRQ_COM1) then
    consoleintr (fun ptable => procdump m ptable ebp) chars
  else if (n =? T_IRQ0 + 7) || (n =? T_IRQ0 + IRQ_SPURIOUS) then ret tt
  else
    cur <- gets k_curproc ;;
    match cur with
    | None => panic "trap"
    | Some i =>
        if Z.land (tf_cs tf) 3 =? 0 then panic "trap"
        else upd_proc i (fun p => p <| p_killed := true |>)
    end.

(** Exit of a killed process that was in user space. *)
Definition exit_if_killed (tf : trapframe) : M kernel unit :=
  killed <- current_killed ;;
  when (killed && (Z.land (tf_cs tf) 3 =? DPL_USER)) exit.

Definition trap (tf : trapframe) (cr2 : Z) (chars : list Z) (m : mem) (ebp : nat -> Z) : M kernel unit :=
  if tf_trapno tf =? T_SYSCALL then
    i <- myproc ;;
    p <- get_proc i ;;
    when (p_killed p) exit ;;;
    upd_proc i (fun p => p <| p_tf := tf |>) ;;;
    syscall ;;;
    p <- get_proc i ;;
    when (p_killed p) exit
  else
    trap_dispatch tf cr2 chars m ebp ;;;
    exit_if_killed tf ;;;
    cur <- gets k_curproc ;;
    match cur with
    | Some i =>
        p <- get_proc i ;;
        when (bool_decide (p_state p = RUNNING) && (tf_trapno tf =? T_IRQ0 + IRQ_TIMER)) yield
    | None => ret tt
    end ;;;
    exit_if_killed tf.

End Trap.
