(* ===== verification/TrapEntry.v ===== *)
(** The way into the kernel and out of it: the segment and gate descriptors of
    src/src/mmu.h, seginit and the task state of switchuvm in src/src/vm.c, tvinit in
    src/src/trap.c, the entry points src/src/vectors.pl writes, and alltraps and trapret
    of src/src/trapasm.S.

    The descriptor tables are the words the processor reads.  What the processor
    itself does with them, on an interrupt and on iret, is [interrupt] and [iret],
    after its manual.  Memory is the kernel's, at the kernel's addresses. *)

From stdpp Require Import base gmap list strings.
From Stdlib Require Import ZArith Lia.
From S2P Require Import Prelude Mem Mmu State Trap.

(** ** Bit fields *)

(** A struct of bit fields of [uint], from bit 0 up: the widths and the values, each cut to its width. *)
Fixpoint pack (fs : list (Z * Z)) : Z :=
  match fs with [] => 0 | (w, v) :: fs => v mod 2 ^ w + 2 ^ w * pack fs end.

Definition SEG_KCODE : Z := 1.
Definition SEG_KDATA : Z := 2.
Definition SEG_UCODE : Z := 3.
Definition SEG_UDATA : Z := 4.
Definition SEG_TSS : Z := 5.
Definition NSEGS : nat := 6.
Definition DPL_USER : Z := 0x3.
Definition STA_X : Z := 0x8.
Definition STA_W : Z := 0x2.
Definition STA_R : Z := 0x2.
Definition STS_T32A : Z := 0x9.
Definition STS_IG32 : Z := 0xE.
Definition STS_TG32 : Z := 0xF.

Record segdesc := {
  lim_15_0 : Z; base_15_0 : Z; base_23_16 : Z; sd_type : Z; sd_s : Z; sd_dpl : Z; sd_p : Z;
  lim_19_16 : Z; sd_avl : Z; sd_rsv1 : Z; sd_db : Z; sd_g : Z; base_31_24 : Z }.

#[global] Instance eta_segdesc : Eta segdesc := fun d =>
  {| lim_15_0 := lim_15_0 d; base_15_0 := base_15_0 d; base_23_16 := base_23_16 d; sd_type := sd_type d; sd_s := sd_s d; sd_dpl := sd_dpl d;
     sd_p := sd_p d; lim_19_16 := lim_19_16 d; sd_avl := sd_avl d; sd_rsv1 := sd_rsv1 d; sd_db := sd_db d; sd_g := sd_g d; base_31_24 := base_31_24 d |}.

Definition seg_word (d : segdesc) : Z :=
  pack [(16, lim_15_0 d); (16, base_15_0 d); (8, base_23_16 d); (4, sd_type d); (1, sd_s d); (2, sd_dpl d); (1, sd_p d);
        (4, lim_19_16 d); (1, sd_avl d); (1, sd_rsv1 d); (1, sd_db d); (1, sd_g d); (8, base_31_24 d)].

Definition SEG (type base lim dpl : Z) : segdesc :=
  {| lim_15_0 := Z.land (Z.shiftr lim 12) 0xffff; base_15_0 := Z.land (u32 base) 0xffff;
     base_23_16 := Z.land (Z.shiftr (u32 base) 16) 0xff; sd_type := type; sd_s := 1; sd_dpl := dpl; sd_p := 1;
     lim_19_16 := Z.shiftr (u32 lim) 28; sd_avl := 0; sd_rsv1 := 0; sd_db := 1; sd_g := 1; base_31_24 := Z.shiftr (u32 base) 24 |}.

Definition SEG16 (type base lim dpl : Z) : segdesc :=
  {| lim_15_0 := Z.land lim 0xffff; base_15_0 := Z.land (u32 base) 0xffff;
     base_23_16 := Z.land (Z.shiftr (u32 base) 16) 0xff; sd_type := type; sd_s := 1; sd_dpl := dpl; sd_p := 1;
     lim_19_16 := Z.shiftr (u32 lim) 16; sd_avl := 0; sd_rsv1 := 0; sd_db := 1; sd_g := 0; base_31_24 := Z.shiftr (u32 base) 24 |}.

Record gatedesc := { off_15_0 : Z; gd_cs : Z; gd_args : Z; gd_rsv1 : Z; gd_type : Z; gd_s : Z; gd_dpl : Z; gd_p : Z; off_31_16 : Z }.

Definition gate_word (g : gatedesc) : Z :=
  pack [(16, off_15_0 g); (16, gd_cs g); (5, gd_args g); (3, gd_rsv1 g); (4, gd_type g); (1, gd_s g); (2, gd_dpl g); (1, gd_p g); (16, off_31_16 g)].

Definition SETGATE (istrap : bool) (sel off d : Z) : gatedesc :=
  {| off_15_0 := Z.land (u32 off) 0xffff; gd_cs := sel; gd_args := 0; gd_rsv1 := 0; gd_type := if istrap then STS_TG32 else STS_IG32;
     gd_s := 0; gd_dpl := d; gd_p := 1; off_31_16 := Z.shiftr (u32 off) 16 |}.

(** ** The tables of a processor *)

(** The descriptor tables, and of the task state what an interrupt uses. *)
Record tables := { t_gdt : list segdesc; t_idt : list gatedesc; ts_ss0 : Z; ts_esp0 : Z; ts_iomb : Z; t_tr : Z }.

#[global] Instance eta_tables : Eta tables := fun t =>
  {| t_gdt := t_gdt t; t_idt := t_idt t; ts_ss0 := ts_ss0 t; ts_esp0 := ts_esp0 t; ts_iomb := ts_iomb t; t_tr := t_tr t |}.

Definition set_gdt (i : Z) (d : segdesc) : M tables unit := modify (fun t => t <| t_gdt ::= <[Z.to_nat i := d]> |>).
Definition set_idt (i : Z) (g : gatedesc) : M tables unit := modify (fun t => t <| t_idt ::= <[Z.to_nat i := g]> |>).

Definition seginit : M tables unit :=
  set_gdt SEG_KCODE (SEG (Z.lor STA_X STA_R) 0 0xffffffff 0) ;;;
  set_gdt SEG_KDATA (SEG STA_W 0 0xffffffff 0) ;;;
  set_gdt SEG_UCODE (SEG (Z.lor STA_X STA_R) 0 0xffffffff DPL_USER) ;;;
  set_gdt SEG_UDATA (SEG STA_W 0 0xffffffff DPL_USER).

Definition tvinit (vectors : Z -> Z) : M tables unit :=
  for_each (range 0 256) (fun i => set_idt i (SETGATE false (Z.shiftl SEG_KCODE 3) (vectors i) 0)) ;;;
  set_idt T_SYSCALL (SETGATE true (Z.shiftl SEG_KCODE 3) (vectors T_SYSCALL) DPL_USER).

(** What switchuvm does to the descriptor and the fields of the task state, at the address [ts], of a process with the
    kernel stack [kstack]; a task state has 104 bytes. *)
Definition switch_tss (ts kstack : Z) : M tables unit :=
  set_gdt SEG_TSS ((SEG16 STS_T32A ts (104 - 1) 0) <| sd_s := 0 |>) ;;;
  modify (fun t => t <| ts_ss0 := Z.shiftl SEG_KDATA 3 |>) ;;;
  modify (fun t => t <| ts_esp0 := u32 (kstack + KSTACKSIZE) |>) ;;;
  modify (fun t => t <| ts_iomb := 0xFFFF |>) ;;;
  modify (fun t => t <| t_tr := Z.shiftl SEG_TSS 3 |>).

(** ** Entry and exit *)

Record regs := {
  eax : Z; ecx : Z; edx : Z; ebx : Z; ebp : Z; esi : Z; edi : Z; esp : Z; eip : Z; eflags : Z;
  cs : Z; ss : Z; ds : Z; es : Z; fs : Z; gs : Z }.

#[global] Instance eta_regs : Eta regs := fun r =>
  {| eax := eax r; ecx := ecx r; edx := edx r; ebx := ebx r; ebp := ebp r; esi := esi r; edi := edi r; esp := esp r; eip := eip r;
     eflags := eflags r; cs := cs r; ss := ss r; ds := ds r; es := es r; fs := fs r; gs := gs r |}.

Definition pushl (v : Z) (c : regs * mem) : regs * mem := (c.1 <| esp := esp c.1 - 4 |>, store32 c.2 (esp c.1 - 4) v).
Definition popl (c : regs * mem) : Z := load32 c.2 (esp c.1).

(** The exceptions for which the processor pushes an error code itself. *)
Definition has_err (i : Z) : bool := (i =? 8) || ((10 <=? i) && (i <=? 14)) || (i =? 17).

(** The entry point of vectors.S for the vector [i], up to its jump. *)
Definition vector_entry (i : Z) (c : regs * mem) : regs * mem :=
  let c := if negb (has_err i) then pushl 0 c else c in
  pushl i c.

Definition pushal (c : regs * mem) : regs * mem :=
  let r := c.1 in
  pushl (edi r) (pushl (esi r) (pushl (ebp r) (pushl (esp r) (pushl (ebx r) (pushl (edx r) (pushl (ecx r) (pushl (eax r) c))))))).

(** The low half of eax. *)
Definition ax (r : regs) : Z := eax r mod 65536.
Definition movw_ax (w : Z) (r : regs) : regs := r <| eax := eax r / 65536 * 65536 + w |>.

(** Up to the call of trap: the argument, the address of the trap frame, has been pushed. *)
Definition alltraps (c : regs * mem) : regs * mem :=
  let c := pushl (gs c.1) (pushl (fs c.1) (pushl (es c.1) (pushl (ds c.1) c))) in
  let c := pushal c in
  let c := (movw_ax (Z.shiftl SEG_KDATA 3) c.1, c.2) in
  let c := (c.1 <| ds := ax c.1 |>, c.2) in
  let c := (c.1 <| es := ax c.1 |>, c.2) in
  pushl (esp c.1) c.

(** popl into a register: [f] puts the word there. *)
Definition pop_to (f : Z -> regs -> regs) (c : regs * mem) : regs * mem := ((f (popl c) c.1) <| esp := esp c.1 + 4 |>, c.2).
Definition pop_sel (v : Z) : Z := v mod 65536.

Definition popal (c : regs * mem) : regs * mem :=
  let c := pop_to (fun v r => r <| edi := v |>) c in
  let c := pop_to (fun v r => r <| esi := v |>) c in
  let c := pop_to (fun v r => r <| ebp := v |>) c in
  let c := pop_to (fun _ r => r) c in
  let c := pop_to (fun v r => r <| ebx := v |>) c in
  let c := pop_to (fun v r => r <| edx := v |>) c in
  let c := pop_to (fun v r => r <| ecx := v |>) c in
  pop_to (fun v r => r <| eax := v |>) c.

(** iret, in protected mode: the stack comes off only on a return to a less privileged level. *)
Definition iret (c : regs * mem) : regs * mem :=
  let cpl := cs c.1 mod 4 in
  let c := pop_to (fun v r => r <| eip := v |>) c in
  let c := pop_to (fun v r => r <| cs := pop_sel v |>) c in
  let c := pop_to (fun v r => r <| eflags := v |>) c in
  if cpl <? cs c.1 mod 4 then
    let sp := popl c in
    let c := pop_to (fun _ r => r) c in
    ((c.1 <| ss := pop_sel (popl c) |>) <| esp := sp |>, c.2)
  else c.

Definition trapret (c : regs * mem) : regs * mem :=
  let c := popal c in
  let c := pop_to (fun v r => r <| gs := pop_sel v |>) c in
  let c := pop_to (fun v r => r <| fs := pop_sel v |>) c in
  let c := pop_to (fun v r => r <| es := pop_sel v |>) c in
  let c := pop_to (fun v r => r <| ds := pop_sel v |>) c in
  let c := (c.1 <| esp := esp c.1 + 8 |>, c.2) in
  iret c.

(** The rest of alltraps, when trap has returned. *)
Definition trap_return (c : regs * mem) : regs * mem := trapret (c.1 <| esp := esp c.1 + 4 |>, c.2).

(** struct trapframe at the address [a]. *)
Definition trapframe_at (m : mem) (a : Z) : trapframe :=
  {| tf_edi := load32 m a; tf_esi := load32 m (a + 4); tf_ebp := load32 m (a + 8); tf_oesp := load32 m (a + 12);
     tf_ebx := load32 m (a + 16); tf_edx := load32 m (a + 20); tf_ecx := load32 m (a + 24); tf_eax := load32 m (a + 28);
     tf_gs := load16 m (a + 32); tf_fs := load16 m (a + 36); tf_es := load16 m (a + 40); tf_ds := load16 m (a + 44);
     tf_trapno := load32 m (a + 48); tf_err := load32 m (a + 52); tf_eip := load32 m (a + 56); tf_cs := load16 m (a + 60);
     tf_eflags := load32 m (a + 64); tf_esp := load32 m (a + 68); tf_ss := load16 m (a + 72) |}.

(** ** The processor *)

Definition bits (w lo n : Z) : Z := (w / 2 ^ lo) mod 2 ^ n.
Definition gate_offset (g : Z) : Z := bits g 0 16 + 2 ^ 16 * bits g 48 16.

(** The delivery of the interrupt [n] through the tables: refused ([None], a general protection fault) if it is an int
    instruction of code that has not the privilege the gate asks for; else on the stack of the task state if the
    privilege changes, with the error code if there is one. *)
Definition interrupt (t : tables) (n : Z) (soft : bool) (err : option Z) (c : regs * mem) : option (regs * mem) :=
  let r := c.1 in
  let cpl := cs r mod 4 in
  match gate_word <$> t_idt t !! Z.to_nat n with
  | None => None
  | Some g =>
      let sel := bits g 16 16 in
      if (soft && (bits g 45 2 <? cpl)) || negb (bits g 47 1 =? 1) then None
      else match seg_word <$> t_gdt t !! Z.to_nat (sel / 8) with
      | None => None
      | Some d =>
          let new := bits d 45 2 in
          if negb ((bits d 47 1 =? 1) && (bits d 43 1 =? 1) && (new <=? cpl)) then None
          else
            let c := if new <? cpl then pushl (esp r) (pushl (ss r) (r <| ss := ts_ss0 t |> <| esp := ts_esp0 t |>, c.2)) else c in
            let c := pushl (eip r) (pushl (cs r) (pushl (eflags r) c)) in
            let c := match err with Some e => pushl e c | None => c end in
            Some (c.1 <| eip := gate_offset g |> <| cs := 8 * (sel / 8) + new |>
                      <| eflags := if bits g 40 4 =? STS_IG32 then Z.clearbit (eflags r) 9 else eflags r |>, c.2)
      end
  end.

(** What can happen: an int instruction, an exception (with the error code of those that have one), or an interrupt
    from a device. *)
Inductive happening := Int (n : Z) | Exception (n err : Z) | Irq (n : Z).

(** A refused int instruction is a general protection fault. *)
Definition take (t : tables) (h : happening) (c : regs * mem) : option (regs * mem) :=
  match h with
  | Int n => match interrupt t n true None c with Some c' => Some c' | None => interrupt t 13 false (Some (8 * n + 2)) c end
  | Exception n e => interrupt t n false (if has_err n then Some e else None) c
  | Irq n => interrupt t n false None c
  end.

(** ** Descriptors *)

(** A field of a packed word. *)
Lemma pack_field fs1 w v fs2 : Forall (fun f => 0 <= f.1) fs1 -> 0 <= w ->
  bits (pack (fs1 ++ (w, v) :: fs2)) (foldr (fun f n => f.1 + n) 0 fs1) w = v mod 2 ^ w.
Proof.
  intros H Hw. unfold bits. induction H as [|[w1 v1] fs1 Hw1 Hfs IH]; cbn [pack app foldr fst] in *.
  - rewrite Z.div_1_r. rewrite Z.mul_comm, Z.mod_add by (apply Z.pow_nonzero; lia). apply Z.mod_mod, Z.pow_nonzero; lia.
  - assert (0 <= foldr (fun f n => f.1 + n) 0 fs1) by (clear IH; induction Hfs; cbn; lia). rewrite Z.pow_add_r, <- Z.div_div by (try apply Z.pow_pos_nonneg; lia || (apply Z.pow_nonzero; lia)).
    rewrite (Z.mul_comm (2 ^ w1) (pack _)), Z.div_add by (apply Z.pow_nonzero; lia).
    rewrite (Z.div_small (v1 mod 2 ^ w1)) by (apply Z.mod_pos_bound, Z.pow_pos_nonneg; lia). exact IH.
Qed.

(** What the processor reads from a gate. *)
Lemma gate_fields b sel off d : 0 <= off < 2 ^ 32 -> let g := gate_word (SETGATE b sel off d) in
  gate_offset g = off /\ bits g 16 16 = sel mod 2 ^ 16 /\ bits g 45 2 = d mod 2 ^ 2 /\ bits g 47 1 = 1 /\ bits g 40 4 = (if b then STS_TG32 else STS_IG32) mod 2 ^ 4.
Proof.
  intros Ho g. pose (f := SETGATE b sel off d).
  assert (bits g 0 16 = off_15_0 f mod 2 ^ 16) as E0 by (apply (pack_field []); [by constructor|done]).
  assert (bits g 16 16 = gd_cs f mod 2 ^ 16) as E1 by (apply (pack_field [(16, off_15_0 f)]); [by repeat constructor|done]).
  assert (bits g 40 4 = gd_type f mod 2 ^ 4) as E2
    by (apply (pack_field [(16, off_15_0 f); (16, gd_cs f); (5, gd_args f); (3, gd_rsv1 f)]); [by repeat constructor|done]).
  assert (bits g 45 2 = gd_dpl f mod 2 ^ 2) as E3
    by (apply (pack_field [(16, off_15_0 f); (16, gd_cs f); (5, gd_args f); (3, gd_rsv1 f); (4, gd_type f); (1, gd_s f)]); [by repeat constructor|done]).
  assert (bits g 47 1 = gd_p f mod 2 ^ 1) as E4
    by (apply (pack_field [(16, off_15_0 f); (16, gd_cs f); (5, gd_args f); (3, gd_rsv1 f); (4, gd_type f); (1, gd_s f); (2, gd_dpl f)]); [by repeat constructor|done]).
  assert (bits g 48 16 = off_31_16 f mod 2 ^ 16) as E5
    by (apply (pack_field [(16, off_15_0 f); (16, gd_cs f); (5, gd_args f); (3, gd_rsv1 f); (4, gd_type f); (1, gd_s f); (2, gd_dpl f); (1, gd_p f)]); [by repeat constructor|done]).
  unfold gate_offset. rewrite E0, E1, E2, E3, E4, E5. cbn [f SETGATE off_15_0 off_31_16 gd_cs gd_type gd_dpl gd_p].
  rewrite u32_small by done. split_and!; try done. change 65535 with (Z.ones 16). rewrite Z.land_ones, Z.shiftr_div_pow2 by lia.
  rewrite (Z.mod_small (off / 2 ^ 16)) by (change (2 ^ 16) with 65536; dlia). change (2 ^ 16) with 65536. dlia.
Qed.

Section Tables.
Context (vectors : Z -> Z) (vectors_word : forall i, 0 <= vectors i < 2 ^ 32).

(** The gate of the vector [i]. *)
Definition gate (i : Z) : gatedesc :=
  if i =? T_SYSCALL then SETGATE true 8 (vectors i) DPL_USER else SETGATE false 8 (vectors i) 0.

Lemma tvinit_loop k : forall a t, 0 <= a -> exists l,
  for_each (range a k) (fun i => set_idt i (SETGATE false (Z.shiftl SEG_KCODE 3) (vectors i) 0)) t = Ret tt (t <| t_idt := l |>) /\
  length l = length (t_idt t) /\
  forall j, 0 <= j < Z.of_nat (length l) -> l !! Z.to_nat j = if decide (a <= j < a + Z.of_nat k) then Some (SETGATE false 8 (vectors j) 0) else t_idt t !! Z.to_nat j.
Proof.
  induction k as [|k IH]; intros a t Ha.
  - exists (t_idt t). split; [by destruct t|]. split; [done|]. intros j _. by rewrite decide_False by lia.
  - cbn [range for_each]. unfold bind, set_idt at 1, modify at 1.
    destruct (IH (a + 1) (t <| t_idt ::= <[Z.to_nat a := SETGATE false (Z.shiftl SEG_KCODE 3) (vectors a) 0]> |>) ltac:(lia)) as (l & E & Hl & Hj).
    exists l. split; [rewrite E; by destruct t|]. cbn [t_idt upd eta_tables] in *. rewrite length_insert in Hl. split; [done|].
    intros j Hj0. rewrite Hj by done. rewrite list_lookup_insert. destruct (decide (j = a)) as [->|Hne].
    + rewrite decide_False by lia. rewrite !decide_True by lia. done.
    + rewrite (decide_False (P := Z.to_nat a = _ /\ _)) by lia. by repeat case_decide; try lia.
Qed.

(** The tables once the kernel has started and is about to run a process with the kernel stack [kstack]. *)
Definition ready_tables (t : tables) (kstack : Z) : Prop :=
  seg_word <$> t_gdt t !! 1%nat = Some (seg_word (SEG 10 0 0xffffffff 0)) /\
  (forall i, 0 <= i < 256 -> t_idt t !! Z.to_nat i = Some (gate i)) /\
  ts_ss0 t = 16 /\ ts_esp0 t = kstack + 4096.

Lemma tables_ready ts kstack t0 : length (t_gdt t0) = NSEGS -> length (t_idt t0) = 256%nat -> 0 <= kstack -> kstack + 4096 < 2 ^ 32 ->
  exists t, (seginit ;;; tvinit vectors ;;; switch_tss ts kstack) t0 = Ret tt t /\ ready_tables t kstack.
Proof.
  intros Hg Hi H0 Hk. destruct t0 as [gdt idt a b d e]. cbn in Hg, Hi. do 7 (destruct gdt as [|? gdt]; try done). 
  unfold tvinit, seginit, set_gdt. unfold bind, modify. cbn [upd t_gdt eta_tables].
  match goal with |- context [for_each _ _ ?t] => destruct (tvinit_loop 256 0 t ltac:(lia)) as (l & -> & Hl & Hj) end.
  eexists. split; [reflexivity|]. split_and!; [done| |done|cbn; rewrite u32_small; unfold KSTACKSIZE; lia].
  cbn in Hl. intros i Hi'. cbn [t_idt upd eta_tables]. rewrite list_lookup_insert. unfold gate. change (Z.shiftl SEG_KCODE 3) with 8.
  destruct (Z.eqb_spec i T_SYSCALL) as [->|Hne]; [rewrite decide_True by (split; [done|cbn; lia]); done|].
  rewrite decide_False by (unfold T_SYSCALL in *; lia). rewrite Hj by (cbn; lia). by rewrite decide_True by lia.
Qed.
End Tables.

(** ** The stack *)

Fixpoint push_all (m : mem) (sp : Z) (vs : list Z) : mem :=
  match vs with [] => m | v :: vs => push_all (store32 m (sp - 4) v) (sp - 4) vs end.

Lemma push_all_ne vs : forall m sp a, a < sp - 4 * Z.of_nat (length vs) \/ sp <= a -> load8 (push_all m sp vs) a = load8 m a.
Proof.
  induction vs as [|v vs IH]; intros m sp a H; [done|]. cbn [push_all length] in *. rewrite IH by lia. apply load8_store32_ne. lia.
Qed.

Lemma push_all_load vs : forall m sp i v, vs !! i = Some v -> 0 <= v < 2 ^ 32 -> load32 (push_all m sp vs) (sp - 4 * (Z.of_nat i + 1)) = v.
Proof.
  induction vs as [|w vs IH]; intros m sp i v H Hv; [done|]. cbn [push_all]. destruct i as [|i]; cbn in H.
  - injection H as ->. transitivity (load32 (store32 m (sp - 4) v) (sp - 4)); [|by apply load32_store32_eq].
    replace (sp - 4 * (Z.of_nat 0 + 1)) with (sp - 4) by lia. apply load32_ext. intros b Hb. apply push_all_ne. lia.
  - rewrite <- (IH (store32 m (sp - 4) w) (sp - 4) i v H Hv). f_equal. lia.
Qed.

(** The registers [r] and the memory [m] after the words [vs] have been pushed from [sp] on. *)
Definition pushed (r : regs) (m : mem) (sp : Z) (vs : list Z) : regs * mem :=
  (r <| esp := sp - 4 * Z.of_nat (length vs) |>, push_all m sp vs).

Lemma push_all_snoc vs v : forall m sp, push_all m sp (vs ++ [v]) = store32 (push_all m sp vs) (sp - 4 * Z.of_nat (length vs) - 4) v.
Proof.
  induction vs as [|w vs IH]; intros m sp; cbn [app push_all length]; [f_equal; lia|]. rewrite IH. f_equal. lia.
Qed.

Lemma pushl_pushed r m sp vs v : pushl v (pushed r m sp vs) = pushed r m sp (vs ++ [v]).
Proof.
  unfold pushl, pushed. rewrite push_all_snoc, length_app. destruct r. cbn [fst snd upd esp eta_regs]. f_equal. f_equal. cbn [length]. lia.
Qed.

Lemma pushed_start r m : (r, m) = pushed r m (esp r) [].
Proof. unfold pushed. destruct r. cbn. f_equal. f_equal. lia. Qed.

(** The registers are words, the selectors have 16 bits. *)
Definition regs_ok (r : regs) : Prop :=
  Forall (fun v => 0 <= v < 2 ^ 32) [eax r; ecx r; edx r; ebx r; ebp r; esi r; edi r; esp r; eip r; eflags r] /\
  Forall (fun v => 0 <= v < 65536) [cs r; ss r; ds r; es r; fs r; gs r].

Section Enter.
Context (vectors : Z -> Z) (vectors_word : forall i, 0 <= vectors i < 2 ^ 32).
Context (t : tables) (kstack : Z) (t_ready : ready_tables vectors t kstack).

(** The registers and the memory at the entry point of the vector [n]. *)
Definition delivered (n : Z) (err : option Z) (c : regs * mem) : regs * mem :=
  let r := c.1 in
  let c := if 0 <? cs r mod 4 then pushl (esp r) (pushl (ss r) (r <| ss := 16 |> <| esp := kstack + 4096 |>, c.2)) else c in
  let c := pushl (eip r) (pushl (cs r) (pushl (eflags r) c)) in
  let c := match err with Some e => pushl e c | None => c end in
  (c.1 <| eip := vectors n |> <| cs := 8 |> <| eflags := if n =? T_SYSCALL then eflags r else Z.clearbit (eflags r) 9 |>, c.2).

(** An int instruction needs the privilege of the gate: any for system calls, the kernel's for all others. *)
Lemma interrupt_ready n soft err c : 0 <= n < 256 ->
  interrupt t n soft err c = if soft && ((if n =? T_SYSCALL then 3 else 0) <? cs c.1 mod 4) then None else Some (delivered n err c).
Proof.
  intros Hn. destruct t_ready as (Hg & Hi & Hs & He). unfold interrupt. rewrite (Hi n Hn). cbn [fmap option_fmap option_map].
  destruct (gate_fields (n =? T_SYSCALL) 8 (vectors n) (if n =? T_SYSCALL then DPL_USER else 0) (vectors_word n)) as (G1 & G2 & G3 & G4 & G5).
  assert (gate vectors n = SETGATE (n =? T_SYSCALL) 8 (vectors n) (if n =? T_SYSCALL then DPL_USER else 0)) as Eg by (unfold gate; by destruct (n =? T_SYSCALL)).
  rewrite Eg, G1, G2, G3, G4, G5. change (8 mod 2 ^ 16) with 8. change (8 / 8) with 1. change (Z.to_nat 1) with 1%nat. rewrite Hg, Hs, He.
  change (bits (seg_word (SEG 10 0 4294967295 0)) 45 2) with 0. change (bits (seg_word (SEG 10 0 4294967295 0)) 47 1) with 1. change (bits (seg_word (SEG 10 0 4294967295 0)) 43 1) with 1.
  pose proof (Z.mod_pos_bound (cs c.1) 4 ltac:(lia)). assert ((0 <=? cs c.1 mod 4) = true) as -> by lia. unfold delivered.
  assert ((if n =? T_SYSCALL then DPL_USER else 0) mod 2 ^ 2 = if n =? T_SYSCALL then 3 else 0) as -> by (by destruct (n =? T_SYSCALL)).
  rewrite orb_false_r. destruct (soft && _); [done|]. cbn [negb andb]. by destruct (n =? T_SYSCALL).
Qed.

(** The words of a trap frame from eflags down, pushed from [sp] on, and the argument of trap. *)
Definition frame_words (r : regs) (k e sp : Z) : list Z :=
  [eflags r; cs r; eip r; e; k; ds r; es r; fs r; gs r; eax r; ecx r; edx r; ebx r; sp - 36; ebp r; esi r; edi r; sp - 68].

Definition entered (k e : Z) (c : regs * mem) : regs * mem :=
  alltraps (vector_entry k (delivered k (if has_err k then Some e else None) c)).

(** The registers in the kernel, when trap is called with the frame at [sp]. *)
Definition kernel_regs (k sp : Z) (r : regs) : regs :=
  r <| eax := eax r / 65536 * 65536 + 16 |> <| esp := sp - 4 |> <| eip := vectors k |> <| cs := 8 |> <| ss := if 0 <? cs r mod 4 then 16 else ss r |> <| ds := 16 |> <| es := 16 |>
    <| eflags := if k =? T_SYSCALL then eflags r else Z.clearbit (eflags r) 9 |>.

Lemma entered_pushed k e r m sp r1 : r1 = r <| esp := esp r1 |> <| ss := ss r1 |> -> esp r1 = sp ->
  let c := pushl (eip r) (pushl (cs r) (pushl (eflags r) (r1, m))) in
  let c := match (if has_err k then Some e else None) with Some e => pushl e c | None => c end in
  alltraps (vector_entry k (c.1 <| eip := vectors k |> <| cs := 8 |> <| eflags := if k =? T_SYSCALL then eflags r else Z.clearbit (eflags r) 9 |>, c.2)) =
  (r <| eax := eax r / 65536 * 65536 + 16 |> <| esp := sp - 68 - 4 |> <| eip := vectors k |> <| cs := 8 |> <| ss := ss r1 |> <| ds := 16 |> <| es := 16 |>
     <| eflags := if k =? T_SYSCALL then eflags r else Z.clearbit (eflags r) 9 |>,
   push_all m sp (frame_words r k (if has_err k then e else 0) sp)).
Proof.
  intros Hr Hs. cbv zeta. rewrite (pushed_start r1 m), !pushl_pushed, Hs. cbn [app].
  set (r2 := r1 <| eip := vectors k |> <| cs := 8 |> <| eflags := if k =? T_SYSCALL then eflags r else Z.clearbit (eflags r) 9 |>).
  assert (forall vs, ((pushed r1 m sp vs).1 <| eip := vectors k |> <| cs := 8 |> <| eflags := if k =? T_SYSCALL then eflags r else Z.clearbit (eflags r) 9 |>,
    (pushed r1 m sp vs).2) = pushed r2 m sp vs) as E2 by (intros vs; by destruct r1).
  match goal with |- alltraps ?c = _ => assert (c = pushed r2 m sp [eflags r; cs r; eip r; if has_err k then e else 0; k]) as -> end.
  { unfold vector_entry. destruct (has_err k); cbn [negb]; rewrite ?pushl_pushed; cbn [app]; rewrite E2, !pushl_pushed; done. }
  unfold alltraps, pushal. rewrite !pushl_pushed. cbn [app]. set (vs := [_; _; _; _; _; _; _; _; _; _; _; _; _; _; _; _; _]).
  assert (ax (movw_ax (Z.shiftl SEG_KDATA 3) r2) = 16) as Eax.
  { unfold ax, movw_ax. change (Z.shiftl SEG_KDATA 3) with 16. destruct r2. cbn. by rewrite Z.add_comm, Z.mod_add. }
  set (r3 := (movw_ax (Z.shiftl SEG_KDATA 3) r2) <| ds := 16 |> <| es := 16 |>).
  match goal with |- pushl ?x ?c = _ => assert (c = pushed r3 m sp vs /\ x = sp - 68) as [-> ->] end.
  { unfold pushed, r3. rewrite <- Eax. by destruct r2. }
  rewrite pushl_pushed. unfold pushed at 1. subst vs r3 r2. rewrite Hr. destruct r. cbn [app length].
  replace (sp - 4 * Z.of_nat 18) with (sp - 68 - 4) by lia. reflexivity.
Qed.

Lemma entered_spec k e r m : entered k e (r, m) =
  let user := 0 <? cs r mod 4 in
  let sp := if user then kstack + 4088 else esp r in
  (kernel_regs k (sp - 68) r,
   push_all (if user then push_all m (kstack + 4096) [ss r; esp r] else m) sp (frame_words r k (if has_err k then e else 0) sp)).
Proof.
  unfold entered, delivered, kernel_regs. cbn [fst snd]. destruct (0 <? cs r mod 4).
  - rewrite (pushed_start (_ <| esp := kstack + 4096 |>)). do 2 rewrite pushl_pushed. cbn [app]. unfold pushed.
    rewrite (entered_pushed k e r _ (kstack + 4088)); [done|by destruct r|destruct r; cbn; lia].
  - rewrite (entered_pushed k e r _ (esp r)); [done|by destruct r|done].
Qed.
End Enter.

(** ** Trap frames *)

(** The frame for the trap [k] with the error code [e], taken from the registers [r]; the last two fields are there only
    if the stack was switched. *)
Definition frame (r : regs) (k e oesp sp ssel : Z) : trapframe :=
  {| tf_edi := edi r; tf_esi := esi r; tf_ebp := ebp r; tf_oesp := oesp; tf_ebx := ebx r; tf_edx := edx r; tf_ecx := ecx r; tf_eax := eax r;
     tf_gs := gs r; tf_fs := fs r; tf_es := es r; tf_ds := ds r; tf_trapno := k; tf_err := e; tf_eip := eip r; tf_cs := cs r; tf_eflags := eflags r;
     tf_esp := sp; tf_ss := ssel |}.

Lemma frame_at m r k e sp : regs_ok r -> 0 <= k < 2 ^ 32 -> 0 <= e < 2 ^ 32 -> 36 <= sp < 2 ^ 32 ->
  trapframe_at (push_all m sp (frame_words r k e sp)) (sp - 68) = frame r k e (sp - 36) (load32 m sp) (load16 m (sp + 4)).
Proof.
  intros [Hw Hs] Hk He Hsp. set (M := push_all m sp _).
  assert (forall j i v, frame_words r k e sp !! i = Some v -> 0 <= v < 2 ^ 32 -> sp - 68 + j = sp - 4 * (Z.of_nat i + 1) -> load32 M (sp - 68 + j) = v) as E
    by (intros j i v Hi Hv ->; by apply push_all_load).
  assert (forall a, sp <= a -> load32 M a = load32 m a) as Eo by (intros a Ha; apply load32_ext; intros b Hb; apply push_all_ne; lia).
  repeat match goal with H : Forall _ (_ :: _) |- _ => apply Forall_cons_1 in H as [? H] end.
  unfold trapframe_at, frame. rewrite !load16_load32.
  rewrite (E 4 15%nat (esi r)), (E 8 14%nat (ebp r)), (E 12 13%nat (sp - 36)), (E 16 12%nat (ebx r)), (E 20 11%nat (edx r)), (E 24 10%nat (ecx r)), (E 28 9%nat (eax r)),
    (E 32 8%nat (gs r)), (E 36 7%nat (fs r)), (E 40 6%nat (es r)), (E 44 5%nat (ds r)), (E 48 4%nat k), (E 52 3%nat e), (E 56 2%nat (eip r)), (E 60 1%nat (cs r)),
    (E 64 0%nat (eflags r)) by (done || lia).
  replace (load32 M (sp - 68)) with (load32 M (sp - 68 + 0)) by (f_equal; lia). rewrite (E 0 16%nat (edi r)) by (done || lia).
  rewrite !Eo by lia. rewrite !(Z.mod_small _ 65536) by lia. f_equal; [f_equal; lia|do 2 f_equal; lia].
Qed.

(** The registers trapret restores from the frame [tf] at [a]. *)
Definition restored (tf : trapframe) (a : Z) (r : regs) : regs :=
  {| eax := tf_eax tf; ecx := tf_ecx tf; edx := tf_edx tf; ebx := tf_ebx tf; ebp := tf_ebp tf; esi := tf_esi tf; edi := tf_edi tf;
     esp := if 0 <? tf_cs tf mod 4 then tf_esp tf else a + 68; eip := tf_eip tf; eflags := tf_eflags tf; cs := tf_cs tf;
     ss := if 0 <? tf_cs tf mod 4 then tf_ss tf else ss r; ds := tf_ds tf; es := tf_es tf; fs := tf_fs tf; gs := tf_gs tf |}.

Lemma trapret_restores r m : cs r mod 4 = 0 -> trapret (r, m) = (restored (trapframe_at m (esp r)) (esp r) r, m).
Proof.
  intros Hc. destruct r. cbn in Hc. cbv -[load32 load16 Z.add Z.modulo Z.ltb Z.mul]. rewrite Hc, !load16_load32, <- !Z.add_assoc.
  cbn [Z.add Pos.add Pos.succ Pos.add_carry]. by destruct (0 <? _).
Qed.

(** ** Round trips *)

Definition user_mode (r : regs) : bool := 0 <? cs r mod 4.

(** What can happen to code at the registers' privilege: the kernel has no int instruction. *)
Definition can_happen (h : happening) (r : regs) : Prop :=
  match h with
  | Int n => 0 <= n < 256 /\ user_mode r = true
  | Exception n e => 0 <= n < 32 /\ 0 <= e < 2 ^ 32
  | Irq n => 32 <= n < 256
  end.

(** The trap number and the error code trap is to find. *)
Definition trapno_of (h : happening) : Z :=
  match h with Int n => if n =? T_SYSCALL then n else 13 | Exception n _ => n | Irq n => n end.
Definition err_of (h : happening) : Z :=
  match h with Int n => if n =? T_SYSCALL then 0 else 8 * n + 2 | Exception n e => if has_err n then e else 0 | Irq _ => 0 end.

Section RoundTrip.
Context (vectors : Z -> Z) (vectors_word : forall i, 0 <= vectors i < 2 ^ 32).
Context (t : tables) (kstack : Z) (t_ready : ready_tables vectors t kstack).

Lemma take_delivered h r m : can_happen h r -> exists e, (if has_err (trapno_of h) then e else 0) = err_of h /\ 0 <= trapno_of h < 256 /\ 0 <= err_of h < 2 ^ 32 /\
  take t h (r, m) = Some (delivered vectors kstack (trapno_of h) (if has_err (trapno_of h) then Some e else None) (r, m)).
Proof.
  intros Hh. unfold take, trapno_of, err_of. pose proof (interrupt_ready vectors vectors_word t kstack t_ready) as I.
  pose proof (Z.mod_pos_bound (cs r) 4 ltac:(lia)). destruct h as [n|n e|n]; cbn in Hh.
  - destruct Hh as [Hn Hu]. unfold user_mode in Hu. exists (8 * n + 2). rewrite !I by lia. cbn [fst andb]. destruct (Z.eqb_spec n T_SYSCALL) as [->|Hne].
    + assert ((3 <? cs r mod 4) = false) as -> by lia. split_and!; done.
    + rewrite Hu. split_and!; (done || lia).
  - destruct Hh as [Hn He]. exists e. rewrite I by lia. cbn [andb]. destruct (has_err n); split_and!; (done || lia).
  - exists 0. rewrite I by lia. cbn [andb]. assert (has_err n = false) as -> by (unfold has_err; lia). split_and!; (done || lia).
Qed.

(** The kernel stack pointer the frame is built from. *)
Definition frame_top (r : regs) : Z := if user_mode r then kstack + 4096 else esp r.

(** The stack and its segment, pushed first when the stack is switched. *)
Lemma stack_pushed r m : regs_ok r -> load32 (push_all m (kstack + 4096) [ss r; esp r]) (kstack + 4088) = esp r /\
  load16 (push_all m (kstack + 4096) [ss r; esp r]) (kstack + 4088 + 4) = ss r.
Proof.
  intros [Hw Hs]. repeat match goal with H : Forall _ (_ :: _) |- _ => apply Forall_cons_1 in H as [? H] end. split.
  - rewrite <- (push_all_load [ss r; esp r] m (kstack + 4096) 1 (esp r)) at 2 by (done || lia). f_equal. cbn. lia.
  - rewrite load16_load32. replace (kstack + 4088 + 4) with (kstack + 4096 - 4 * (Z.of_nat 0 + 1)) by (cbn; lia).
    rewrite (push_all_load [ss r; esp r] m (kstack + 4096) 0 (ss r)) by (done || lia). apply Z.mod_small. lia.
Qed.

Lemma trapret_frame k a r m e oesp sp ssel : trapframe_at m a = frame r k e oesp sp ssel -> (user_mode r = true -> sp = esp r /\ ssel = ss r) ->
  (user_mode r = false -> a + 68 = esp r) -> forall r3, ss r3 = ss (kernel_regs vectors k a r) -> restored (trapframe_at m a) a r3 = r.
Proof.
  intros E Hu Hk r3 Hss. rewrite E. unfold restored.
  cbn [frame tf_cs tf_esp tf_ss]. rewrite Hss. change (ss (kernel_regs vectors k a r)) with (if user_mode r then 16 else ss r). change (0 <? cs r mod 4) with (user_mode r).
  destruct (user_mode r); [destruct Hu as [-> ->]; [done|]|rewrite Hk by done]; by destruct r.
Qed.

(** trap may change all registers but the stack pointer, and the memory; trapret runs on what it leaves. *)
Lemma trap_return_restores r3 m3 a : cs r3 mod 4 = 0 -> esp r3 = a - 4 -> trap_return (r3, m3) = (restored (trapframe_at m3 a) a r3, m3).
Proof.
  intros Hc He. unfold trap_return. rewrite trapret_restores by done. cbn [fst snd].
  replace (esp (r3 <| esp := esp r3 + 4 |>)) with a by (destruct r3; cbn in *; lia). by destruct r3.
Qed.

Lemma trap_round h r m : regs_ok r -> can_happen h r -> 0 <= kstack -> kstack + 4096 < 2 ^ 32 -> 72 <= esp r \/ user_mode r = true ->
  exists c1, take t h (r, m) = Some c1 /\ eip c1.1 = vectors (trapno_of h) /\
    let c2 := alltraps (vector_entry (trapno_of h) c1) in
    let a := frame_top r - (if user_mode r then 76 else 68) in
    c2.1 = kernel_regs vectors (trapno_of h) a r /\
    trapframe_at c2.2 a = frame r (trapno_of h) (err_of h) (a + 32) (if user_mode r then esp r else load32 m (esp r)) (if user_mode r then ss r else load16 m (esp r + 4)) /\
    load32 c2.2 (a - 4) = a /\
    (forall b, b < a - 4 \/ frame_top r <= b -> load8 c2.2 b = load8 m b) /\
    (forall r3 m3, esp r3 = a - 4 -> cs r3 = cs c2.1 -> ss r3 = ss c2.1 ->
       trap_return (r3, m3) = (restored (trapframe_at m3 a) a r3, m3) /\
       (trapframe_at m3 a = trapframe_at c2.2 a -> trap_return (r3, m3) = (r, m3))).
Proof.
  intros Hr Hh H0 H1 Hsp. destruct (take_delivered h r m Hh) as (e & Ee & Hk & He & E). rewrite E. eexists. split; [done|]. split; [done|].
  pose proof (entered_spec vectors kstack (trapno_of h) e r m) as S. unfold entered in S. cbv zeta. rewrite S. clear S. rewrite Ee. cbn [fst snd].
  assert (0 <= esp r < 2 ^ 32) as Hesp by (destruct Hr as [Hw _]; rewrite !Forall_cons in Hw; tauto).
  unfold frame_top. change (0 <? cs r mod 4) with (user_mode r).
  assert (forall m1 sp, 72 <= sp < 2 ^ 32 -> load32 (push_all m1 sp (frame_words r (trapno_of h) (err_of h) sp)) (sp - 68 - 4) = sp - 68) as Harg.
  { intros m1 sp Hr1. rewrite <- (push_all_load (frame_words r (trapno_of h) (err_of h) sp) m1 sp 17 (sp - 68)) at 2 by (done || lia). f_equal. cbn. lia. }
  destruct (user_mode r) eqn:Eu.
  - replace (kstack + 4096 - 76) with (kstack + 4088 - 68) by lia. set (m1 := push_all m (kstack + 4096) [ss r; esp r]).
    destruct (stack_pushed r m Hr) as [S1 S2]. fold m1 in S1, S2.
    assert (trapframe_at (push_all m1 (kstack + 4088) (frame_words r (trapno_of h) (err_of h) (kstack + 4088))) (kstack + 4088 - 68) =
      frame r (trapno_of h) (err_of h) (kstack + 4088 - 68 + 32) (esp r) (ss r)) as Ef by (rewrite frame_at, S1, S2 by (done || lia); f_equal; lia).
    split_and!; [done|exact Ef|apply Harg; lia| |].
    + intros b Hb. unfold m1. rewrite !push_all_ne by (cbn; lia). done.
    + intros r3 m3 He3 Hc3 Hs3. rewrite (trap_return_restores r3 m3 (kstack + 4088 - 68)) by (done || by rewrite Hc3). split; [done|].
      intros Em. f_equal. eapply trapret_frame; [by rewrite Em|done|congruence|exact Hs3].
  - destruct Hsp as [Hsp|]; [|done].
    assert (trapframe_at (push_all m (esp r) (frame_words r (trapno_of h) (err_of h) (esp r))) (esp r - 68) =
      frame r (trapno_of h) (err_of h) (esp r - 68 + 32) (load32 m (esp r)) (load16 m (esp r + 4))) as Ef by (rewrite frame_at by (done || lia); f_equal; lia).
    split_and!; [done|exact Ef|apply Harg; lia| |].
    + intros b Hb. rewrite push_all_ne by (cbn; lia). done.
    + intros r3 m3 He3 Hc3 Hs3. rewrite (trap_return_restores r3 m3 (esp r - 68)) by (done || by rewrite Hc3). split; [done|].
      intros Em. f_equal. eapply trapret_frame; [by rewrite Em|congruence|lia|exact Hs3].
Qed.
End RoundTrip.

(** C12. Traps reach the kernel and return from it.  With the tables seginit, tvinit and switchuvm set up, an int
    instruction of a process reaches the entry point of system calls for the vector of system calls and that of general
    protection for every other; an exception and an interrupt from a device reach their own.  In each case trap finds,
    on the kernel stack of the process or on top of the interrupted kernel code, a trap frame with the trap's number, its
    error code and the registers, in the layout of struct trapframe; interrupts are off unless it is a system call;
    nothing but the frame and the argument of trap, its address, has been written.  When trap returns, with any values in
    the registers but the stack pointer and the segments cs and ss, trapret loads every register from the frame; if
    trap has left the frame as it was, the interrupted code has all its registers back. *)
Theorem traps_enter_and_return vectors ts kstack t0 : (forall i, 0 <= vectors i < 2 ^ 32) ->
  length (t_gdt t0) = NSEGS -> length (t_idt t0) = 256%nat -> 0 <= kstack -> kstack + 4096 < 2 ^ 32 ->
  exists t, (seginit ;;; tvinit vectors ;;; switch_tss ts kstack) t0 = Ret tt t /\
  forall h r m, regs_ok r -> can_happen h r -> 72 <= esp r \/ user_mode r = true ->
  exists c1, take t h (r, m) = Some c1 /\ eip c1.1 = vectors (trapno_of h) /\
    let c2 := alltraps (vector_entry (trapno_of h) c1) in
    let a := frame_top kstack r - (if user_mode r then 76 else 68) in
    c2.1 = kernel_regs vectors (trapno_of h) a r /\
    trapframe_at c2.2 a = frame r (trapno_of h) (err_of h) (a + 32) (if user_mode r then esp r else load32 m (esp r)) (if user_mode r then ss r else load16 m (esp r + 4)) /\
    load32 c2.2 (a - 4) = a /\
    (forall b, b < a - 4 \/ frame_top kstack r <= b -> load8 c2.2 b = load8 m b) /\
    (forall r3 m3, esp r3 = a - 4 -> cs r3 = cs c2.1 -> ss r3 = ss c2.1 ->
       trap_return (r3, m3) = (restored (trapframe_at m3 a) a r3, m3) /\
       (trapframe_at m3 a = trapframe_at c2.2 a -> trap_return (r3, m3) = (r, m3))).
Proof.
  intros Hv Hg Hi H0 H1. destruct (tables_ready vectors ts kstack t0 Hg Hi H0 H1) as (t & E & Ht). exists t. split; [exact E|].
  intros h r m Hr Hh Hsp. by apply trap_round.
Qed.

Module TrapWitness.
Definition no_seg : segdesc := SEG 0 0 0 0.
Definition no_gate : gatedesc := SETGATE false 0 0 0.
Definition fresh : tables := {| t_gdt := replicate NSEGS no_seg; t_idt := replicate 256 no_gate; ts_ss0 := 0; ts_esp0 := 0; ts_iomb := 0; t_tr := 0 |}.
Definition vectors (i : Z) : Z := 0x80105000 + i mod 256.
Definition user_regs : regs :=
  {| eax := 1; ecx := 2; edx := 3; ebx := 4; ebp := 5; esi := 6; edi := 7; esp := 0x2FF0; eip := 0x10; eflags := 0x202;
     cs := 0x1B; ss := 0x23; ds := 0x23; es := 0x23; fs := 0; gs := 0 |}.

(** A process that tries the interrupt of the disk: trap sees a general protection fault. *)
Lemma traps_enter_and_return_witness : exists t c1, take t (Int 46) (user_regs, ∅) = Some c1 /\
  tf_trapno (trapframe_at (alltraps (vector_entry 13 c1)).2 0x8DFFFFB4) = 13 /\ tf_err (trapframe_at (alltraps (vector_entry 13 c1)).2 0x8DFFFFB4) = 370.
Proof.
  destruct (traps_enter_and_return vectors 0 0x8DFFF000 fresh) as (t & _ & H);
    [intros i; pose proof (Z.mod_pos_bound i 256 ltac:(lia)); unfold vectors; lia|done|done|lia|lia|].
  destruct (H (Int 46) user_regs ∅) as (c1 & E & _ & _ & Ef & _);
    [split; repeat (apply Forall_cons_2; [cbn; lia|]); apply Forall_nil_2|split; [lia|done]|by right|].
  exists t, c1. change (trapno_of (Int 46)) with 13 in Ef. change (frame_top 0x8DFFF000 user_regs - (if user_mode user_regs then 76 else 68)) with 0x8DFFFFB4 in Ef.
  split; [exact E|]. by rewrite Ef.
Defined.
End TrapWitness.
