(* ===== verification/Grep.v ===== *)
(** The user program src/src/grep.c: the regular expression matcher and the loop
    over the lines of a file.

    A C string is the list of its bytes before the NUL; reading at its end gives
    the NUL.  The results of the successive calls of read are a list.  The
    matcher is compared with what a pattern means: the set of words it stands
    for. *)

From stdpp Require Import base gmap list strings.
From Stdlib Require Import ZArith Lia.
From S2P Require Import Prelude.

(** ** The matcher *)

Definition star : Z := 42.
Definition dot : Z := 46.
Definition caret : Z := 94.
Definition dollar : Z := 36.

(** [here] is matchhere for the rest of the pattern. *)
Fixpoint matchstar (here : list Z -> bool) (c : Z) (text : list Z) : bool :=
  if here text then true
  else
    match text with
    | [] => false
    | t :: text => if (t =? c) || (c =? dot) then matchstar here c text else false
    end.

Fixpoint matchhere (re text : list Z) : bool :=
  match re with
  | [] => true
  | c :: re =>
      let one :=
        match text with
        | [] => false
        | t :: text => if (c =? dot) || (c =? t) then matchhere re text else false
        end in
      match re with
      | [] => if c =? dollar then bool_decide (text = []) else one
      | s :: re => if s =? star then matchstar (matchhere re) c text else one
      end
  end.

(** The loop of match over the places to start at. *)
Fixpoint match_from (re text : list Z) : bool :=
  if matchhere re text then true
  else
    match text with
    | [] => false
    | _ :: text => match_from re text
    end.

Definition match_ (re text : list Z) : bool :=
  match re with
  | c :: re' => if c =? caret then matchhere re' text else match_from re text
  | [] => match_from re text
  end.

(** ** The lines of a file *)

Definition newline : Z := 10.

(** [strchr]: the place of the first [c], none after a NUL. *)
Fixpoint strchr (s : list Z) (c : Z) : option nat :=
  match s with
  | [] => None
  | x :: s => if x =? 0 then None else if x =? c then Some O else S <$> strchr s c
  end.

(** The loop over the lines in the buffer: the output and what is left at [p];
    [moved] when [p] is no longer [buf]. *)
Fixpoint grep_lines (fuel : nat) (pattern p : list Z) (moved : bool) : list (list Z) * list Z * bool :=
  match fuel with
  | O => ([], p, moved)
  | S fuel =>
      match strchr p newline with
      | None => ([], p, moved)
      | Some k =>
          let '(out, rest, moved) := grep_lines fuel pattern (drop (S k) p) true in
          ((if match_ pattern (take k p) then [take (S k) p] else []) ++ out, rest, moved)
      end
  end.

(** [buf] holds the [m] bytes left; the elements of the result are the writes. *)
Fixpoint grep (pattern buf : list Z) (reads : list (list Z)) : list (list Z) :=
  match reads with
  | [] => []
  | bytes :: reads =>
      let buf := buf ++ bytes in
      let '(out, rest, moved) := grep_lines (length buf) pattern buf false in
      out ++ grep pattern (if moved then rest else []) reads
  end.

(** ** What a pattern means *)

Inductive item := One (c : Z) | Many (c : Z).

(** The items of a pattern and whether it ends in [$]. *)
Fixpoint parse (re : list Z) : list item * bool :=
  match re with
  | [] => ([], false)
  | c :: re' =>
      match re' with
      | [] => if c =? dollar then ([], true) else ([One c], false)
      | s :: re'' =>
          if s =? star then let (l, e) := parse re'' in (Many c :: l, e)
          else let (l, e) := parse re' in (One c :: l, e)
      end
  end.

Definition stands_for (c t : Z) : Prop := c = dot \/ c = t.

Inductive words : list item -> list Z -> Prop :=
| words_nil : words [] []
| words_one c t l w : stands_for c t -> words l w -> words (One c :: l) (t :: w)
| words_many c v l w : Forall (stands_for c) v -> words l w -> words (Many c :: l) (v ++ w).

(** The text begins with a word of the pattern. *)
Definition begins (re text : list Z) : Prop :=
  exists w rest, text = w ++ rest /\ words (parse re).1 w /\ ((parse re).2 = true -> rest = []).

(** The text has a word of the pattern in it, at the start after a [^]. *)
Definition found (re text : list Z) : Prop :=
  match re with
  | c :: re' => if c =? caret then begins re' text else exists pre rest, text = pre ++ rest /\ begins re rest
  | [] => exists pre rest, text = pre ++ rest /\ begins re rest
  end.

Lemma stands_for_spec c t : (c =? dot) || (c =? t) = true <-> stands_for c t.
Proof. unfold stands_for. rewrite orb_true_iff, !Z.eqb_eq. done. Qed.

Lemma matchstar_spec here c text :
  matchstar here c text = true <->
  exists v rest, text = v ++ rest /\ Forall (stands_for c) v /\ here rest = true.
Proof.
  induction text as [|t text IH]; cbn [matchstar].
  - split.
    + destruct (here []) eqn:E; [|done]. intros _. by exists [], [].
    + intros (v & rest & E & _ & H). symmetry in E. apply app_eq_nil in E as [-> ->]. by rewrite H.
  - destruct (here (t :: text)) eqn:E.
    { split; [intros _|done]. by exists [], (t :: text). }
    replace ((t =? c) || (c =? dot)) with ((c =? dot) || (c =? t)) by (rewrite orb_comm, (Z.eqb_sym t c); done).
    destruct ((c =? dot) || (c =? t)) eqn:Hc.
    + apply stands_for_spec in Hc. rewrite IH. split.
      * intros (v & rest & -> & Hv & H). exists (t :: v), rest. split_and!; [done|by constructor|done].
      * intros ([|x v] & rest & Eq & Hv & H); cbn in Eq; [congruence|].
        injection Eq as -> ->. inversion Hv. by exists v, rest.
    + split; [done|]. intros ([|x v] & rest & Eq & Hv & H); cbn in Eq; [congruence|].
      injection Eq as -> ->. inversion Hv as [|? ? Hx]. apply stands_for_spec in Hx. congruence.
Qed.

Lemma parse_one c s re : (s =? star) = false ->
  parse (c :: s :: re) = let (l, e) := parse (s :: re) in (One c :: l, e).
Proof. intros H. cbn [parse]. by rewrite H. Qed.

(** An ordinary character, or [.]. *)
Lemma begins_one c re text l e : parse (c :: re) = (One c :: l, e) -> parse re = (l, e) ->
  begins (c :: re) text <-> exists t text', text = t :: text' /\ stands_for c t /\ begins re text'.
Proof.
  unfold begins. intros -> ->. cbn. split.
  - intros (w & rest & -> & Hw & He). inversion Hw; subst. eexists _, _. split_and!; [done|done|eauto].
  - intros (t & text' & -> & Ht & w & rest & -> & Hw & He). exists (t :: w), rest.
    split_and!; [done|by constructor|done].
Qed.

Lemma one_spec c re text : (forall text, matchhere re text = true <-> begins re text) ->
  match text with [] => false | t :: text => if (c =? dot) || (c =? t) then matchhere re text else false end = true <->
  exists t text', text = t :: text' /\ stands_for c t /\ begins re text'.
Proof.
  intros H. destruct text as [|t text]; [split; [done|by intros (? & ? & ? & _)]|].
  destruct ((c =? dot) || (c =? t)) eqn:Hc.
  - apply stands_for_spec in Hc. rewrite H. split; [eauto|]. by intros (? & ? & [= <- <-] & _ & ?).
  - split; [done|]. intros (? & ? & [= <- <-] & Hs & _). apply stands_for_spec in Hs. congruence.
Qed.

Lemma matchhere_spec re text : matchhere re text = true <-> begins re text.
Proof.
  revert text. induction re as [re IH] using (induction_ltof1 _ (@length Z)). intros text.
  destruct re as [|c [|s re]]; cbn [matchhere].
  - split; [intros _|done]. exists [], text. by split_and!; [|constructor|].
  - destruct (c =? dollar) eqn:Ec.
    + rewrite bool_decide_eq_true. unfold begins. cbn. rewrite Ec. cbn. split.
      * intros ->. exists [], []. by split_and!; [|constructor|].
      * intros (w & rest & -> & Hw & He). inversion Hw. by rewrite He.
    + rewrite (begins_one c [] text [] false); [|by cbn; rewrite Ec|done].
      apply (one_spec c []), IH. unfold ltof. cbn. lia.
  - destruct (s =? star) eqn:Es.
    + rewrite matchstar_spec. unfold begins at 1. cbn. rewrite Es. destruct (parse re) as [l e] eqn:Ep. cbn. split.
      * intros (v & rest & -> & Hv & H). apply IH in H as (w & rest' & -> & Hw & He); [|unfold ltof; cbn; lia].
        rewrite Ep in Hw, He. exists (v ++ w), rest'. split_and!; [by rewrite app_assoc|by constructor|done].
      * intros (w & rest & -> & Hw & He). inversion Hw; subst. eexists v, (w0 ++ rest).
        split_and!; [by rewrite app_assoc|done|]. apply IH; [unfold ltof; cbn; lia|].
        exists w0, rest. by rewrite Ep.
    + destruct (parse (s :: re)) as [l e] eqn:Ep. rewrite (begins_one c (s :: re) text l e); [|by rewrite parse_one, Ep|done].
      apply (one_spec c (s :: re)), IH. unfold ltof. cbn. lia.
Qed.

Lemma match_from_spec re text :
  match_from re text = true <-> exists pre rest, text = pre ++ rest /\ begins re rest.
Proof.
  induction text as [|t text IH]; cbn [match_from]; destruct (matchhere re _) eqn:E.
  - apply matchhere_spec in E. split; [intros _|done]. by exists [], [].
  - split; [done|]. intros (pre & rest & Eq & H). symmetry in Eq. apply app_eq_nil in Eq as [-> ->].
    apply matchhere_spec in H. congruence.
  - apply matchhere_spec in E. split; [intros _|done]. by exists [], (t :: text).
  - rewrite IH. split; [intros (pre & rest & -> & H); by exists (t :: pre), rest|].
    intros ([|x pre] & rest & Eq & H); cbn in Eq.
    + subst rest. apply matchhere_spec in H. congruence.
    + injection Eq as -> ->. by exists pre, rest.
Qed.

Lemma match_spec re text : match_ re text = true <-> found re text.
Proof.
  unfold match_, found. destruct re as [|c re]; [apply match_from_spec|].
  destruct (c =? caret); [apply matchhere_spec|apply match_from_spec].
Qed.

#[global] Instance found_dec re text : Decision (found re text).
Proof.
  refine (cast_if (decide (match_ re text = true))); abstract (by rewrite <- match_spec).
Defined.

(** The lines that end in a newline, without it, and what follows the last. *)
Fixpoint split_lines (s : list Z) : list (list Z) * list Z :=
  match s with
  | [] => ([], [])
  | x :: s =>
      let (lines, rest) := split_lines s in
      if x =? newline then ([] :: lines, rest)
      else match lines with
           | [] => ([], x :: rest)
           | l :: lines => ((x :: l) :: lines, rest)
           end
  end.

Lemma split_lines_none s : (newline ∉ s) -> split_lines s = ([], s).
Proof.
  induction s as [|x s IH]; intros Hs; [done|]. apply not_elem_of_cons in Hs as [Hx Hs]. cbn.
  rewrite IH by done. destruct (Z.eqb_spec x newline); [congruence|done].
Qed.

Lemma split_lines_cons l s : (newline ∉ l) ->
  split_lines (l ++ newline :: s) = let (lines, rest) := split_lines s in (l :: lines, rest).
Proof.
  induction l as [|x l IH]; intros Hl.
  - cbn. destruct (split_lines s). done.
  - apply not_elem_of_cons in Hl as [Hx Hl]. cbn. rewrite IH by done. destruct (split_lines s).
    destruct (Z.eqb_spec x newline); [congruence|done].
Qed.

(** The first line, if there is one. *)
Lemma first_line s : (newline ∉ s) \/ exists l s', s = l ++ newline :: s' /\ (newline ∉ l).
Proof.
  induction s as [|x s IH]; [left; inversion 1|].
  destruct (decide (x = newline)) as [->|Hx]; [right; exists [], s; split; [done|inversion 1]|].
  destruct IH as [IH|(l & s' & -> & IH)]; [left|right; exists (x :: l), s'; split; [done|]];
    apply not_elem_of_cons; split; congruence.
Qed.

Lemma split_lines_app a b : split_lines (a ++ b) =
  let (l, r) := split_lines a in let (l', r') := split_lines (r ++ b) in (l ++ l', r').
Proof.
  induction a as [a IH] using (induction_ltof1 _ (@length Z)).
  destruct (first_line a) as [Ha|(l & a' & -> & Hl)].
  - rewrite (split_lines_none a) by done. by destruct (split_lines (a ++ b)).
  - rewrite <- app_assoc. cbn [app]. rewrite !split_lines_cons by done.
    rewrite IH by (unfold ltof; rewrite length_app; cbn; lia). destruct (split_lines a') as [l1 r1].
    by destruct (split_lines (r1 ++ b)).
Qed.

(** What follows the last newline has none. *)
Lemma split_lines_rest s : newline ∉ (split_lines s).2.
Proof.
  induction s as [s IH] using (induction_ltof1 _ (@length Z)).
  destruct (first_line s) as [Hs|(l & s' & -> & Hl)]; [by rewrite split_lines_none|].
  rewrite split_lines_cons by done. specialize (IH s'). destruct (split_lines s') as [l1 r1]. cbn in *.
  apply IH. unfold ltof. rewrite length_app. cbn. lia.
Qed.

Lemma split_lines_rest_elem s x : x ∈ (split_lines s).2 -> x ∈ s.
Proof.
  induction s as [s IH] using (induction_ltof1 _ (@length Z)).
  destruct (first_line s) as [Hs|(l & s' & -> & Hl)]; [by rewrite split_lines_none|].
  rewrite split_lines_cons by done. specialize (IH s'). destruct (split_lines s') as [l1 r1]. cbn in *.
  intros Hx. apply IH in Hx; [|unfold ltof; rewrite length_app; cbn; lia]. set_solver.
Qed.

Lemma strchr_none s c : (c ∉ s) -> strchr s c = None.
Proof.
  induction s as [|x s IH]; intros Hs; [done|]. apply not_elem_of_cons in Hs as [Hx Hs]. cbn.
  rewrite IH by done. destruct (x =? 0); [done|]. by destruct (Z.eqb_spec x c).
Qed.

Lemma strchr_first l c s : (0 ∉ l) -> (c ∉ l) -> c <> 0 -> strchr (l ++ c :: s) c = Some (length l).
Proof.
  induction l as [|x l IH]; intros H0 Hl Hc; cbn.
  - destruct (Z.eqb_spec c 0); [done|]. by rewrite Z.eqb_refl.
  - apply not_elem_of_cons in H0 as [Hx0 H0]. apply not_elem_of_cons in Hl as [Hx Hl]. rewrite IH by done.
    destruct (Z.eqb_spec x 0); [congruence|]. by destruct (Z.eqb_spec x c); [congruence|].
Qed.

(** The lines to print. *)
Definition matching (pattern : list Z) (lines : list (list Z)) : list (list Z) :=
  (fun l => l ++ [newline]) <$> base.filter (found pattern) lines.

Lemma matching_app pattern l1 l2 : matching pattern (l1 ++ l2) = matching pattern l1 ++ matching pattern l2.
Proof. unfold matching. by rewrite filter_app, fmap_app. Qed.

Lemma grep_lines_spec fuel pattern p moved : (length p <= fuel)%nat -> (0 ∉ p) ->
  grep_lines fuel pattern p moved =
  let (lines, rest) := split_lines p in
  (matching pattern lines, rest, moved || bool_decide (newline ∈ p)).
Proof.
  revert p moved. induction fuel as [|fuel IH]; intros p moved Hf H0.
  { destruct p; [|cbn in Hf; lia]. cbn. by rewrite orb_false_r. }
  cbn [grep_lines]. destruct (first_line p) as [Hp|(l & p' & -> & Hl)].
  - rewrite strchr_none, split_lines_none by done. rewrite bool_decide_eq_false_2 by done. by rewrite orb_false_r.
  - rewrite strchr_first by (done || set_solver). rewrite split_lines_cons by done.
    rewrite length_app in Hf. cbn in Hf.
    replace (drop (S (length l)) (l ++ newline :: p')) with p'
      by (change (S (length l)) with (1 + length l)%nat; rewrite Nat.add_comm, <- drop_drop, drop_app_length; done).
    replace (take (S (length l)) (l ++ newline :: p')) with (l ++ [newline])
      by (rewrite (cons_middle newline l p'), (app_assoc l), take_app_length'; [done|rewrite length_app; cbn; lia]).
    rewrite take_app_length, IH by (lia || set_solver). destruct (split_lines p') as [lines rest].
    cbn [orb]. rewrite bool_decide_eq_true_2 by (apply elem_of_app; right; constructor). rewrite orb_true_r. unfold matching. rewrite filter_cons.
    destruct (match_ pattern l) eqn:Em; [rewrite decide_True by (by apply match_spec)|
      rewrite decide_False by (rewrite <- match_spec; congruence)]; done.
Qed.

(** C35. The matcher of grep finds exactly what its patterns mean: match returns 1
    if and only if some part of the text is a word of the pattern, a part at the
    start after [^] and at the end before a final [$], where [.] stands for any
    character, [c*] for any number of characters that [c] stands for, and every
    other character for itself. *)
Theorem match_finds_words re text :
  match_ re text = true <->
  exists pre w rest, text = pre ++ w ++ rest /\
    (head re = Some caret -> pre = []) /\
    let body := if decide (head re = Some caret) then tail re else re in
    words (parse body).1 w /\ ((parse body).2 = true -> rest = []).
Proof.
  rewrite match_spec. unfold found. destruct re as [|c re]; cbn.
  { split; [intros (pre & r & -> & w & rest & -> & H)|intros (pre & w & rest & -> & _ & H)].
    - by exists pre, w, rest.
    - exists pre, (w ++ rest). split; [done|]. by exists w, rest. }
  destruct (Z.eqb_spec c caret) as [->|Hc].
  - rewrite decide_True by done. split.
    + intros (w & rest & -> & H). by exists [], w, rest.
    + intros (pre & w & rest & -> & Hpre & H). rewrite Hpre by done. by exists w, rest.
  - rewrite decide_False by congruence.
    split; [intros (pre & r & -> & w & rest & -> & H)|intros (pre & w & rest & -> & _ & H)].
    + exists pre, w, rest. split; [done|]. split; [congruence|done].
    + exists pre, (w ++ rest). split; [done|]. by exists w, rest.
Qed.

(** grep prints, in order, exactly the lines that contain a word of the
    pattern, however the input is cut into the results of read, provided every
    result brings at least one end of line.  A result that brings none is lost,
    with the beginning of the line it held. *)
Theorem grep_prints_matching pattern reads :
  Forall (fun bytes => 0 ∉ bytes) reads ->
  (Forall (fun bytes => newline ∈ bytes) reads ->
     grep pattern [] reads = matching pattern (split_lines (concat reads)).1) /\
  (forall bytes, (newline ∉ bytes) -> (0 ∉ bytes) -> grep pattern [] (bytes :: reads) = grep pattern [] reads).
Proof.
  intros H0. split.
  - intros Hn. assert (forall buf, (newline ∉ buf) -> (0 ∉ buf) ->
      grep pattern buf reads = matching pattern (split_lines (buf ++ concat reads)).1) as H.
    { induction reads as [|bytes reads IH]; intros buf Hb Hz.
      - cbn. by rewrite app_nil_r, split_lines_none.
      - apply Forall_cons in H0 as [H0 H0'], Hn as [Hn Hn']. cbn [grep concat].
        rewrite grep_lines_spec by (done || set_solver). rewrite app_assoc, (split_lines_app (buf ++ bytes)).
        pose proof (split_lines_rest (buf ++ bytes)) as Hr. pose proof (split_lines_rest_elem (buf ++ bytes) 0) as He.
        destruct (split_lines (buf ++ bytes)) as [lines rest]. cbn in Hr, He.
        rewrite bool_decide_eq_true_2 by set_solver. cbn [orb]. rewrite IH by (done || set_solver).
        destruct (split_lines (rest ++ concat reads)). cbn [fst]. by rewrite matching_app. }
    apply H; set_solver.
  - intros bytes Hb Hz. cbn [grep app]. rewrite grep_lines_spec, split_lines_none by done.
    by rewrite bool_decide_eq_false_2.
Qed.

Module GrepWitness.

(** grep a.*c of "abc", "xyz" and "c" read in two parts. *)
Lemma grep_prints_matching_witness :
  grep [97; 46; 42; 99] [] [[97; 98; 99; 10; 120]; [121; 122; 10]] =
    matching [97; 46; 42; 99] [[97; 98; 99]; [120; 121; 122]].
Proof.
  apply (grep_prints_matching [97; 46; 42; 99] [[97; 98; 99; 10; 120]; [121; 122; 10]]);
    repeat constructor; try (intros H; repeat (apply elem_of_cons in H as [H|H]; [discriminate H|]); inversion H).
Defined.

End GrepWitness.
