(* ===== verification/Umalloc.v ===== *)
(** The memory allocator of user programs, src/src/umalloc.c.

    Headers are in byte memory: the word at [a] is [s.ptr], the word at [a + 4]
    is [s.size], in units of 8 bytes.  Free blocks form a circular list in order
    of their addresses that goes through the static header [base]; [freep] points
    into it.  The results of the calls of sbrk are a list. *)

From stdpp Require Import base gmap list strings sorting.
From Stdlib Require Import ZArith Lia.
From S2P Require Import Prelude Mem Mmu.


Record heap := { h_mem : mem; h_freep : Z }.

Definition s_ptr (m : mem) (p : Z) : Z := load32 m p.
Definition s_size (m : mem) (p : Z) : Z := load32 m (p + 4).
Definition set_ptr (m : mem) (p v : Z) : mem := store32 m p v.
Definition set_size (m : mem) (p v : Z) : mem := store32 m (p + 4) v.

(** [p + n] on pointers to headers. *)
Definition units (p n : Z) : Z := u32 (p + 8 * n).

(** The two conditions that end the loop of free at [p]. *)
Definition free_here (m : mem) (bp p : Z) : bool :=
  ((p <? bp) && (bp <? s_ptr m p)) ||
  ((s_ptr m p <=? p) && ((p <? bp) || (bp <? s_ptr m p))).

Fixpoint free_find (fuel : nat) (m : mem) (bp p : Z) : option Z :=
  match fuel with
  | O => None
  | S fuel => if free_here m bp p then Some p else free_find fuel m bp (s_ptr m p)
  end.

(** Join [bp] with the block after it, and [p] with [bp]. *)
Definition join_upper (m : mem) (bp p : Z) : mem :=
  if units bp (s_size m bp) =? s_ptr m p then
    let m := set_size m bp (u32 (s_size m bp + s_size m (s_ptr m p))) in
    set_ptr m bp (s_ptr m (s_ptr m p))
  else set_ptr m bp (s_ptr m p).

Definition join_lower (m : mem) (bp p : Z) : mem :=
  if units p (s_size m p) =? bp then
    let m := set_size m p (u32 (s_size m p + s_size m bp)) in
    set_ptr m p (s_ptr m bp)
  else set_ptr m p bp.

Definition free (fuel : nat) (h : heap) (ap : Z) : option heap :=
  let bp := u32 (ap - 8) in
  match free_find fuel (h_mem h) bp (h_freep h) with
  | None => None
  | Some p => Some {| h_mem := join_lower (join_upper (h_mem h) bp p) bp p; h_freep := p |}
  end.

(** How much morecore asks for, in units. *)
Definition core_units (nu : Z) : Z := if nu <? 4096 then 4096 else nu.

(** [core] is what sbrk returns, -1 when it fails; the result is [freep] or 0. *)
Definition morecore (fuel : nat) (h : heap) (nu core : Z) : option (Z * heap) :=
  if core =? -1 then Some (0, h)
  else
    let h := {| h_mem := set_size (h_mem h) core (core_units nu); h_freep := h_freep h |} in
    match free fuel h (units core 1) with
    | Some h => Some (h_freep h, h)
    | None => None
    end.

(** Take [nunits] units from the block [p], all of it or its tail. *)
Definition carve (m : mem) (prevp p nunits : Z) : Z * heap :=
  if s_size m p =? nunits then
    (units p 1, {| h_mem := set_ptr m prevp (s_ptr m p); h_freep := prevp |})
  else
    let m := set_size m p (u32 (s_size m p - nunits)) in
    let p := units p (s_size m p) in
    (units p 1, {| h_mem := set_size m p nunits; h_freep := prevp |}).

(** The loop of malloc; [cores] are the results of the calls of sbrk to come
    (sbrk fails when there is none), of which it returns those not used. *)
Fixpoint malloc_loop (fuel : nat) (h : heap) (prevp p nunits : Z) (cores : list Z) : option (Z * heap * list Z) :=
  match fuel with
  | O => None
  | S fuel =>
      if nunits <=? s_size (h_mem h) p then Some (carve (h_mem h) prevp p nunits, cores)
      else if p =? h_freep h then
        match morecore fuel h nunits (default (-1) (head cores)) with
        | Some (p, h) =>
            if p =? 0 then Some (0, h, tail cores)
            else malloc_loop fuel h p (s_ptr (h_mem h) p) nunits (tail cores)
        | None => None
        end
      else malloc_loop fuel h p (s_ptr (h_mem h) p) nunits cores
  end.

Definition nunits (nbytes : Z) : Z := u32 (nbytes + 8 - 1) / 8 + 1.

Definition malloc_init (base : Z) (h : heap) : heap :=
  if h_freep h =? 0
  then {| h_mem := set_size (set_ptr (h_mem h) base base) base 0; h_freep := base |}
  else h.

(** [base] is the address of the static header. *)
Definition malloc (base : Z) (fuel : nat) (h : heap) (nbytes : Z) (cores : list Z) : option (Z * heap * list Z) :=
  let h := malloc_init base h in
  malloc_loop fuel h (h_freep h) (s_ptr (h_mem h) (h_freep h)) (nunits nbytes) cores.

(** ** Blocks and the circular list *)

(** A block: the address of its header and its size in units. *)
Abbreviation block := (Z * Z)%type.

(** The end of what a block takes: at least its header. *)
Definition top (b : block) : Z := b.1 + 8 * Z.max 1 b.2.

Definition disj (b c : block) : Prop := top b <= c.1 \/ top c <= b.1.

Definition first (l : list block) (e : Z) : Z := match l with [] => e | b :: _ => b.1 end.

(** The headers of [l] are in memory, each pointing at the next, the last at [e]. *)
Fixpoint chain (m : mem) (l : list block) (e : Z) : Prop :=
  match l with
  | [] => True
  | b :: l => s_size m b.1 = b.2 /\ s_ptr m b.1 = first l e /\ chain m l e
  end.

Lemma chain_app m l1 l2 e : chain m (l1 ++ l2) e <-> chain m l1 (first l2 e) /\ chain m l2 e.
Proof.
  induction l1 as [|b l1 IH]; cbn; [tauto|]. rewrite IH. destruct l1; cbn; tauto.
Qed.

Lemma first_app l1 l2 e : first (l1 ++ l2) e = first l1 (first l2 e).
Proof. by destruct l1. Qed.

Lemma chain_rotate m l1 l2 e : l1 <> [] -> l2 <> [] ->
  chain m (l1 ++ l2) (first l1 e) -> chain m (l2 ++ l1) (first l2 e).
Proof.
  intros H1 H2. rewrite !chain_app. destruct l1, l2; cbn; try done. tauto.
Qed.

Lemma chain_ext m m' l e : (forall b, b ∈ l -> s_size m' b.1 = s_size m b.1 /\ s_ptr m' b.1 = s_ptr m b.1) ->
  chain m l e -> chain m' l e.
Proof.
  induction l as [|b l IH]; cbn; [done|]. intros H (Hs & Hp & Hc).
  destruct (H b) as [-> ->]; [by left|]. repeat split; [done..|].
  apply IH; [|done]. intros c Hc'. apply H. by right.
Qed.

Lemma chain_elem m l1 b l2 e : chain m (l1 ++ b :: l2) e -> s_size m b.1 = b.2 /\ s_ptr m b.1 = first l2 e.
Proof. rewrite chain_app. cbn. tauto. Qed.

(** ** The invariant *)

Section Heap.
Context (base : Z).
Context (Hbase : 0 < base).

Definition wf (b : block) : Prop := base + 8 <= b.1 /\ 0 < b.2 /\ b.1 + 8 * b.2 < 2 ^ 32.

(** In the list a block is followed by blocks above it that do not touch it. *)
Definition apart (b c : block) : Prop := top b <= c.1 /\ b.1 + 8 * b.2 < c.1.

(** [L] is the free list from [base] on, [al] the blocks handed out. *)
Record heap_ok (h : heap) (L al : list block) : Prop := {
  ok_head : head L = Some (base, 0);
  ok_chain : chain (h_mem h) L base;
  ok_freep : h_freep h ∈ L.*1;
  ok_sorted : StronglySorted apart L;
  ok_free : Forall wf (tail L);
  ok_live : Forall wf al;
  ok_disj : forall b c, b ∈ L -> c ∈ al -> disj b c;
  ok_live_disj : StronglySorted disj al;
  ok_sizes : forall b, b ∈ al -> s_size (h_mem h) b.1 = b.2;
}.

(** The bytes of the blocks [al] are the same in both memories. *)
Definition same_live (al : list block) (m m' : mem) : Prop :=
  forall b x, b ∈ al -> b.1 <= x < b.1 + 8 * b.2 -> load8 m' x = load8 m x.

(** Two memories that differ in the header at [a] only. *)
Definition only_header (a : Z) (m m' : mem) : Prop :=
  forall x, x < a \/ a + 8 <= x -> load8 m' x = load8 m x.

Lemma set_ptr_only m a v : only_header a m (set_ptr m a v).
Proof. intros x Hx. apply load8_store32_ne. lia. Qed.

Lemma set_size_only m a v : only_header a m (set_size m a v).
Proof. intros x Hx. apply load8_store32_ne. lia. Qed.

Lemma only_header_trans a m m' m'' : only_header a m m' -> only_header a m' m'' -> only_header a m m''.
Proof. intros H H' x Hx. rewrite H' by done. by apply H. Qed.

Lemma only_header_words a m m' b : only_header a m m' -> b + 8 <= a \/ a + 8 <= b ->
  s_size m' b = s_size m b /\ s_ptr m' b = s_ptr m b.
Proof. intros H Hb. split; apply load32_ext; intros; apply H; lia. Qed.

Lemma only_header_live a m m' al : only_header a m m' ->
  (forall b, b ∈ al -> a + 8 <= b.1 \/ b.1 + 8 * b.2 <= a) -> same_live al m m'.
Proof. intros H Ha b x Hb Hx. apply H. specialize (Ha b Hb). lia. Qed.

Lemma same_live_size al m m' b : same_live al m m' -> b ∈ al -> wf b -> s_size m' b.1 = s_size m b.1.
Proof. intros H Hb (Hw1 & Hw2 & Hw3). apply load32_ext. intros x Hx. apply (H b); [done|lia]. Qed.

Lemma s_ptr_set m a v : 0 <= v < 2 ^ 32 -> s_ptr (set_ptr m a v) a = v.
Proof. apply load32_store32_eq. Qed.

Lemma s_size_set m a v : 0 <= v < 2 ^ 32 -> s_size (set_size m a v) a = v.
Proof. apply load32_store32_eq. Qed.

Lemma s_size_set_ptr m a v : s_size (set_ptr m a v) a = s_size m a.
Proof. apply load32_store32_ne. lia. Qed.

Lemma s_ptr_set_size m a v : s_ptr (set_size m a v) a = s_ptr m a.
Proof. apply load32_store32_ne. lia. Qed.

Lemma units_small a n : 0 <= a + 8 * n < 2 ^ 32 -> units a n = a + 8 * n.
Proof. apply Z.mod_small. Qed.

Lemma sorted_split l1 b l2 : StronglySorted apart (l1 ++ b :: l2) ->
  (forall c, c ∈ l1 -> apart c b) /\ (forall c, c ∈ l2 -> apart b c) /\ (forall c d, c ∈ l1 -> d ∈ l2 -> apart c d).
Proof.
  induction l1 as [|a l1 IH]; cbn; intros [H Hf]%StronglySorted_inv.
  - rewrite Forall_forall in Hf. repeat split; set_solver.
  - destruct (IH H) as (H1 & H2 & H3). rewrite Forall_forall in Hf.
    assert (apart a b) by (apply Hf; set_solver).
    split; [intros c [->|]%elem_of_cons; auto|]. split; [auto|].
    intros c d [->|]%elem_of_cons; [|auto]. intros Hd. apply Hf. set_solver.
Qed.

Lemma sorted_below a l : forall b, b.1 < a -> StronglySorted apart (b :: l) -> (forall c, c ∈ b :: l -> c.1 <> a) ->
  exists l1 p l2, b :: l = l1 ++ p :: l2 /\ p.1 < a /\ (forall c, c ∈ l2 -> a < c.1).
Proof.
  induction l as [|c l IH]; intros b Hb Hs Hn.
  - exists [], b, []. repeat split; [done|]. set_solver.
  - apply StronglySorted_inv in Hs as [Hs Hf]. destruct (decide (c.1 < a)) as [Hc|Hc].
    + destruct (IH c Hc Hs) as (l1 & p & l2 & E & Hp & Hl); [set_solver|].
      exists (b :: l1), p, l2. by rewrite E.
    + exists [], b, (c :: l). split; [done|]. split; [done|]. intros d Hd.
      assert (c.1 <> a) by (apply Hn; set_solver).
      apply StronglySorted_inv in Hs as [_ Hf']. rewrite Forall_forall in Hf'. apply elem_of_cons in Hd.
      destruct Hd as [->|Hd]; [lia|]. apply Hf' in Hd. unfold apart, top in Hd. lia.
Qed.

Lemma sorted_nodup l : StronglySorted apart l -> NoDup l.*1.
Proof.
  induction l as [|b l IH]; intros H; [constructor|]. apply StronglySorted_cons in H as [H Hs]. cbn. apply NoDup_cons.
  split; [|auto]. intros (c & Hc & Hl)%list_elem_of_fmap. rewrite Forall_forall in H. apply H in Hl.
  unfold apart, top in Hl. lia.
Qed.

Section Inv.
Context (h : heap) (L al : list block) (Hok : heap_ok h L al).
Abbreviation m := (h_mem h).

Lemma ok_L b : b ∈ L -> b = (base, 0) \/ wf b.
Proof.
  pose proof (ok_head _ _ _ Hok). pose proof (ok_free _ _ _ Hok) as Hf. rewrite Forall_forall in Hf.
  destruct L as [|a l]; [done|]. cbn in *. simplify_eq. intros [->|]%elem_of_cons; auto.
Qed.

Lemma ok_first e : first L e = base.
Proof. pose proof (ok_head _ _ _ Hok). by destruct L; cbn in *; simplify_eq. Qed.

Lemma ok_words l1 b l2 : L = l1 ++ b :: l2 -> s_size m b.1 = b.2 /\ s_ptr m b.1 = first l2 base.
Proof. intros ->. eapply chain_elem, ok_chain, Hok. Qed.

Lemma ok_addr b c : b ∈ L -> c ∈ L -> b.1 = c.1 -> b = c.
Proof.
  intros (l1 & l2 & E)%list_elem_of_split Hc Hbc. pose proof (ok_sorted _ _ _ Hok) as Hs. rewrite E in Hs, Hc.
  apply sorted_split in Hs. destruct Hs as (H1 & H2 & _). unfold apart, top in *.
  apply elem_of_app in Hc. destruct Hc as [Hc|[Hc|Hc]%elem_of_cons]; [|done|].
  - apply H1 in Hc. lia.
  - apply H2 in Hc. lia.
Qed.

(** The block of the list below an address above [base]. *)
Lemma ok_below a : base < a -> (forall b, b ∈ L -> b.1 <> a) ->
  exists l1 p l2, L = l1 ++ p :: l2 /\ p.1 < a /\ (forall b, b ∈ l2 -> a < b.1).
Proof.
  intros Ha. pose proof (ok_head _ _ _ Hok) as Hh. pose proof (ok_sorted _ _ _ Hok) as Hs.
  destruct L as [|b l]; [done|]. cbn in Hh. simplify_eq. by apply sorted_below.
Qed.

Lemma free_walk bp p r e d : forall fuel, chain m (d ++ p :: r) e ->
  (forall q, q ∈ d -> free_here m bp q.1 = false) -> free_here m bp p.1 = true -> (length d < fuel)%nat ->
  free_find fuel m bp (first (d ++ [p]) e) = Some p.1.
Proof.
  induction d as [|q d IH]; intros fuel Hc Hd Hp Hl; (destruct fuel as [|fuel]; [cbn in Hl; lia|]); cbn.
  - by rewrite Hp.
  - rewrite Hd by (by left). destruct Hc as (_ & -> & Hc).
    rewrite first_app in *. apply (IH fuel) in Hc; [|set_solver|done|cbn in Hl; lia].
    by rewrite <-Hc.
Qed.

(** The list from any of its blocks on. *)
Lemma ok_rotate f : f ∈ L -> exists d, chain m (f :: d) f.1 /\ f :: d ≡ₚ L.
Proof.
  intros (l1 & l2 & E)%list_elem_of_split. exists (l2 ++ l1). split; [|rewrite E; by rewrite <-Permutation_middle, (comm (++))].
  pose proof (ok_chain _ _ _ Hok) as Hc. rewrite <-(ok_first base) in Hc. rewrite E in Hc.
  destruct l1 as [|c l1]; [by rewrite (right_id_L [] (++))|].
  by apply (chain_rotate m (c :: l1) (f :: l2) base).
Qed.

(** What the pointer of a block of the list is: the next one up, or [base]. *)
Lemma ok_next q : q ∈ L -> let n := s_ptr m q.1 in
  (q.1 < n /\ (exists c, c ∈ L /\ c.1 = n) /\ forall c, c ∈ L -> c.1 <= q.1 \/ n <= c.1) \/
  (n = base /\ base <= q.1 /\ forall c, c ∈ L -> c.1 <= q.1).
Proof.
  intros HqL. assert (base <= q.1) as Hq by (destruct (ok_L q HqL) as [->|[]]; cbn; lia).
  apply list_elem_of_split in HqL as (k1 & k2 & Ek). destruct (ok_words _ _ _ Ek) as [_ ->]. cbn.
  pose proof (ok_sorted _ _ _ Hok) as Hs. rewrite Ek in Hs |- *. pose proof (sorted_split _ _ _ Hs) as (H1 & H2 & _).
  unfold apart, top in H1, H2. destruct k2 as [|c k2]; cbn.
  - right. repeat split; [done|]. intros c [Hc|Hc%list_elem_of_singleton]%elem_of_app; [|by subst]. apply H1 in Hc. lia.
  - left. assert (c ∈ c :: k2) as Hin by (by left). pose proof (H2 c Hin). split; [lia|].
    split; [exists c; split; [set_solver|done]|].
    intros d [Hd|[->|[->|Hd]%elem_of_cons]%elem_of_cons]%elem_of_app; [apply H1 in Hd; lia|lia|lia|].
    rewrite cons_middle, (assoc_L (++)) in Hs. apply sorted_split in Hs as (_ & Hs & _).
    apply Hs in Hd. unfold apart, top in Hd. lia.
Qed.

Lemma free_here_ok bp p q : p ∈ L -> p.1 < bp -> (forall b, b ∈ L -> b.1 <= p.1 \/ bp < b.1) -> base < bp ->
  q ∈ L -> free_here m bp q.1 = bool_decide (q.1 = p.1).
Proof.
  intros Hp Hlt Hside Hb Hq. pose proof (Hside q Hq). pose proof (ok_next q Hq) as Hn. cbn zeta in Hn.
  unfold free_here. set (n := s_ptr m q.1) in *. clearbody n.
  destruct Hn as [(Hn & (c & Hc & Ec) & Hall)|(-> & Hn & Hall)]; pose proof (Hall p Hp); [pose proof (Hside c Hc)|];
    case_bool_decide;
    repeat match goal with
    | |- context [Z.ltb ?x ?y] => destruct (Z.ltb_spec x y)
    | |- context [Z.leb ?x ?y] => destruct (Z.leb_spec x y)
    end; cbn; lia.
Qed.

Lemma free_find_ok bp p fuel : p ∈ L -> p.1 < bp -> (forall b, b ∈ L -> b.1 <= p.1 \/ bp < b.1) ->
  (length L <= fuel)%nat -> free_find fuel m bp (h_freep h) = Some p.1.
Proof.
  intros HpL Hp Hside Hfuel.
  pose proof (ok_freep _ _ _ Hok) as (f & Ef & Hf)%list_elem_of_fmap. rewrite Ef.
  destruct (ok_rotate f Hf) as (d & Hd & HP).
  assert (p ∈ f :: d) as Hin by (by rewrite HP).
  apply list_elem_of_split_l in Hin as (d1 & d2 & E2 & Hnot).
  assert (first (d1 ++ [p]) f.1 = f.1) as <-.
  { rewrite first_app. destruct d1; cbn in *; simplify_eq; done. }
  assert (base < bp) as Hb by (destruct (ok_L p) as [->|Hw]; [done|done|destruct Hw; lia]).
  apply free_walk with d2.
  - by rewrite <-E2.
  - intros q Hq. assert (q ∈ L) as HqL by (rewrite <-HP, E2; set_solver).
    rewrite (free_here_ok bp p) by done. apply bool_decide_false. intros Hqp. apply ok_addr in Hqp; [by subst|done..].
  - rewrite (free_here_ok bp p) by done. by apply bool_decide_true.
  - apply (f_equal length) in E2. rewrite length_app in E2. cbn in E2. apply Permutation_length in HP. cbn in HP. lia.
Qed.

(** The addresses the blocks of a list take. *)
Definition covers (l : list block) (x : Z) : Prop := exists b, b ∈ l /\ b.1 <= x < b.1 + 8 * b.2.

Lemma exists_elem_cons (Q : block -> Prop) b l : (exists c, c ∈ b :: l /\ Q c) <-> Q b \/ exists c, c ∈ l /\ Q c.
Proof. setoid_rewrite elem_of_cons. naive_solver. Qed.

Lemma exists_elem_app (Q : block -> Prop) l l' :
  (exists c, c ∈ l ++ l' /\ Q c) <-> (exists c, c ∈ l /\ Q c) \/ exists c, c ∈ l' /\ Q c.
Proof. setoid_rewrite elem_of_app. naive_solver. Qed.

(** *** free *)

Section Free.
Context (a n : Z) (Hwf : wf (a, n)) (Hd : forall b, b ∈ L -> disj b (a, n)) (Hsz : s_size m a = n).
Context (l1 : list block) (p : block) (l2 : list block) (E : L = l1 ++ p :: l2).
Context (Hp : p.1 < a) (Hl2 : forall b, b ∈ l2 -> a < b.1).

(** The block [b'] that free makes of its own and of the one after it, and what
    is left of the list above it. *)
Definition joined (b' : block) (rest : list block) : Prop :=
  (b' = (a, n) /\ rest = l2 /\ forall c, c ∈ l2 -> a + 8 * n < c.1) \/
  exists c, l2 = c :: rest /\ a + 8 * n = c.1 /\ b' = (a, n + c.2).

Lemma p_in : p ∈ L.
Proof. rewrite E. set_solver. Qed.

Lemma l2_in c : c ∈ l2 -> c ∈ L.
Proof. rewrite E. set_solver. Qed.

Lemma l2_wf c : c ∈ l2 -> wf c.
Proof.
  intros Hc. destruct (ok_L c (l2_in c Hc)) as [->|]; [|done]. apply Hl2 in Hc. destruct Hwf. cbn in *. lia.
Qed.

Lemma l2_above c : c ∈ l2 -> a + 8 * n <= c.1.
Proof.
  intros Hc. pose proof (Hl2 c Hc) as Hl. destruct (l2_wf c Hc) as (Hw1 & Hw2 & _).
  destruct (Hd c (l2_in c Hc)) as [H|H]; unfold top in H; cbn in H; lia.
Qed.

Lemma p_below : p.1 + 8 <= a /\ p.1 + 8 * p.2 <= a.
Proof.
  destruct Hwf as (Hw1 & Hw2 & _). cbn in Hw1, Hw2. destruct (Hd p p_in) as [H|H]; unfold top in H; cbn in H; lia.
Qed.

Lemma first_bound l : (forall c, c ∈ l -> wf c) -> base < 2 ^ 32 -> 0 <= first l base < 2 ^ 32.
Proof. destruct l as [|c l]; cbn; [lia|]. intros H _. destruct (H c) as (H1 & H2 & H3); [by left|lia]. Qed.

Lemma join_upper_ok : exists b' rest, joined b' rest /\
  s_size (join_upper m a p.1) a = b'.2 /\ s_ptr (join_upper m a p.1) a = first rest base /\
  only_header a m (join_upper m a p.1).
Proof.
  unfold join_upper. destruct (ok_words _ _ _ E) as [_ Hpp]. destruct Hwf as (Hw1 & Hw2 & Hw3). cbn in Hw1, Hw2, Hw3.
  rewrite Hpp, Hsz, units_small by lia. destruct (Z.eqb_spec (a + 8 * n) (first l2 base)) as [Heq|Hne].
  - assert (exists c r, l2 = c :: r) as (c & r & El2) by (destruct l2; cbn in Heq; [lia|eauto]).
    rewrite El2 in Heq. cbn in Heq.
    assert (c ∈ l2) as Hc by (rewrite El2; by left). pose proof (ok_words (l1 ++ [p]) c r) as [Hcs Hcp].
    { rewrite E, El2. by rewrite <-(assoc_L (++)). }
    pose proof (l2_wf c Hc) as (Hc1 & Hc2 & Hc3).
    pose proof (first_bound r) as Hr. assert (first l2 base = c.1) as Ef by (by rewrite El2). rewrite Ef, Hcs. unfold u32. rewrite (Z.mod_small (n + c.2)) by lia.
    set (m1 := set_size m a (n + c.2)). assert (only_header a m m1) as Ho by apply set_size_only.
    destruct (only_header_words _ _ _ c.1 Ho) as [_ E1]; [lia|].
    destruct (only_header_words _ _ _ p.1 Ho) as [_ Ep]; [pose proof p_below; lia|].
    rewrite Ep, Hpp, Ef, E1, Hcp.
    exists (a, n + c.2), r. split; [right; by exists c|]. rewrite s_size_set_ptr.
    split; [apply s_size_set; cbn; lia|]. split.
    + apply s_ptr_set, Hr; [|lia]. intros d Hdr. apply l2_wf. rewrite El2. by right.
    + eapply only_header_trans; [exact Ho|apply set_ptr_only].
  - exists (a, n), l2. split.
    { left. repeat split; [done..|]. intros c Hc. pose proof (l2_above c Hc) as Hle.
      pose proof (ok_sorted _ _ _ Hok) as Hs. rewrite E in Hs.
      assert (exists d r, l2 = d :: r) as (d & r & El2) by (destruct l2; [set_solver|eauto]). rewrite El2 in Hne, Hs, Hc. cbn in Hne.
      rewrite cons_middle, (assoc_L (++)) in Hs. apply sorted_split in Hs as (_ & Hs & _).
      assert (a + 8 * n <= d.1) by (apply l2_above; rewrite El2; by left).
      apply elem_of_cons in Hc as [->|Hc]; [lia|]. apply Hs in Hc. unfold apart, top in Hc. lia. }
    rewrite s_size_set_ptr. split; [done|]. split; [|apply set_ptr_only]. apply s_ptr_set, first_bound; [apply l2_wf|lia].
Qed.
Lemma joined_ok b' rest : joined b' rest ->
  b'.1 = a /\ wf b' /\ n <= b'.2 /\ (forall c, c ∈ rest -> c ∈ l2 /\ apart b' c) /\
  StronglySorted apart rest /\ chain m rest base /\ (length rest <= length l2)%nat /\
  (forall c, c ∈ al -> disj (a, n) c -> disj b' c) /\
  (forall x, covers (b' :: rest) x <-> covers l2 x \/ a <= x < a + 8 * n).
Proof.
  pose proof (ok_sorted _ _ _ Hok) as Hs. pose proof (ok_chain _ _ _ Hok) as Hc. rewrite E in Hs, Hc.
  apply StronglySorted_app in Hs as (_ & _ & [_ Hs]%StronglySorted_cons). apply chain_app in Hc as (_ & _ & _ & Hc).
  pose proof Hwf as (Hw1 & Hw2 & Hw3). cbn in Hw1, Hw2, Hw3. unfold covers.
  intros [(-> & -> & Hab)|(c & El2 & Hac & ->)]; cbn [fst snd].
  - repeat (split; [done || lia|]). split.
    { intros c Hcl. split; [done|]. specialize (Hab c Hcl). unfold apart, top. cbn. lia. }
    do 4 (split; [done || lia|]). intros x. rewrite exists_elem_cons. cbn. tauto.
  - rewrite El2 in Hs, Hc. destruct (l2_wf c) as (Hc1 & Hc2 & Hc3); [rewrite El2; by left|].
    apply StronglySorted_cons in Hs as [Hf Hs]. rewrite Forall_forall in Hf.
    split; [done|]. split; [unfold wf; cbn; lia|]. split; [lia|]. split.
    { intros d Hdr. split; [rewrite El2; by right|]. apply Hf in Hdr. unfold apart, top in *. cbn. lia. }
    split; [done|]. split; [apply Hc|]. split; [rewrite El2; cbn; lia|]. split.
    + intros d Hda Hnd. pose proof (ok_disj _ _ _ Hok c d) as Hcd. rewrite E, El2 in Hcd.
      pose proof (ok_live _ _ _ Hok) as Hl. rewrite Forall_forall in Hl. destruct (Hl d Hda) as (Hd1 & Hd2 & Hd3).
      specialize (Hcd ltac:(set_solver) Hda). unfold disj, top in *. cbn in *. lia.
    + intros x. rewrite El2, !exists_elem_cons. cbn. intuition lia.
Qed.

(** The list free leaves, with [p] and the block joined or not. *)
Definition lowered (b' : block) (rest L' : list block) : Prop :=
  (L' = l1 ++ p :: b' :: rest /\ p.1 + 8 * p.2 < a) \/
  (L' = l1 ++ (p.1, p.2 + b'.2) :: rest /\ p.1 + 8 * p.2 = a /\ wf p).

Lemma side_ok b : b ∈ L -> b.1 <= p.1 \/ a < b.1.
Proof.
  pose proof (ok_sorted _ _ _ Hok) as Hs. rewrite E in Hs |- *. apply sorted_split in Hs as (Hs & _).
  intros [Hb|[->|Hb]%elem_of_cons]%elem_of_app; [|lia|auto]. apply Hs in Hb. unfold apart, top in Hb. lia.
Qed.

Lemma l1_below c : c ∈ l1 -> apart c p.
Proof. pose proof (ok_sorted _ _ _ Hok) as Hs. rewrite E in Hs. apply sorted_split in Hs as (Hs & _). apply Hs. Qed.

Lemma p_bounds : base <= p.1 /\ 0 <= p.2 /\ p.1 + 8 * p.2 < 2 ^ 32.
Proof. destruct (ok_L p p_in) as [->|(H1 & H2 & H3)]; cbn; [destruct Hwf; cbn in *; lia|lia]. Qed.

Lemma join_lower_ok b' rest m1 : joined b' rest ->
  s_size m1 a = b'.2 -> s_ptr m1 a = first rest base -> only_header a m m1 ->
  exists L', lowered b' rest L' /\ chain (join_lower m1 a p.1) L' base /\
    forall x, x < a \/ a + 8 <= x -> x < p.1 \/ p.1 + 8 <= x -> load8 (join_lower m1 a p.1) x = load8 m x.
Proof.
  intros HJ Hs Hr Ho. destruct (joined_ok _ _ HJ) as (Ha & (Hb1 & Hb2 & Hb3) & Hn & Hrest & _ & Hcr & _).
  pose proof p_below as [Hpa Hpa']. pose proof p_bounds as (Hp1 & Hp2 & Hp3).
  pose proof (ok_chain _ _ _ Hok) as Hc. rewrite E in Hc. apply chain_app in Hc as [Hc1 (Hps & Hpp & _)]. cbn in Hc1.
  destruct (only_header_words _ _ _ p.1 Ho) as [Ep1 Ep2]; [lia|].
  pose proof (first_bound rest) as Hfb.
  assert (0 <= first rest base < 2 ^ 32) as Hf by (apply Hfb; [intros c Hcc; apply l2_wf, Hrest, Hcc|lia]).
  assert (forall m2, only_header p.1 m1 m2 -> chain m2 l1 p.1 /\ chain m2 rest base /\
    (forall x, x < a \/ a + 8 <= x -> x < p.1 \/ p.1 + 8 <= x -> load8 m2 x = load8 m x)) as Hframe.
  { intros m2 Ho2. split; [|split].
    - eapply chain_ext, Hc1. intros b Hb. apply l1_below in Hb. unfold apart, top in Hb.
      destruct (only_header_words _ _ _ b.1 Ho2) as [-> ->]; [lia|]. apply (only_header_words a); [done|lia].
    - eapply chain_ext, Hcr. intros b Hb. apply Hrest in Hb as [_ Hb]. unfold apart, top in Hb.
      destruct (only_header_words _ _ _ b.1 Ho2) as [-> ->]; [lia|]. apply (only_header_words a); [done|lia].
    - intros x Hx Hx'. rewrite Ho2 by done. by apply Ho. }
  unfold join_lower. rewrite Ep1, Hps, units_small by lia. destruct (Z.eqb_spec (p.1 + 8 * p.2) a) as [Heq|Hne].
  - assert (wf p) as Hwp by (destruct (ok_L p p_in) as [Hpb|]; [rewrite Hpb in Heq; destruct Hwf; cbn in *; lia|done]).
    rewrite Hs. unfold u32. rewrite Z.mod_small by lia. set (m2 := set_size _ _ _).
    assert (only_header p.1 m1 m2) as Ho2 by apply set_size_only.
    destruct (only_header_words _ _ _ a Ho2) as [_ ->]; [lia|]. rewrite Hr.
    destruct (Hframe (set_ptr m2 p.1 (first rest base))) as (F1 & F2 & F3).
    { eapply only_header_trans; [done|apply set_ptr_only]. }
    eexists. split; [right; done|]. split; [|done]. apply chain_app. split; [done|]. cbn.
    rewrite s_size_set_ptr, s_ptr_set by done. split; [apply s_size_set; lia|]. done.
  - destruct (Hframe (set_ptr m1 p.1 a)) as (F1 & F2 & F3); [apply set_ptr_only|].
    eexists. split; [left; split; [done|lia]|]. split; [|done]. apply chain_app. split; [done|]. cbn. rewrite Ha.
    rewrite s_size_set_ptr, s_ptr_set by lia.
    destruct (only_header_words _ _ _ a (set_ptr_only m1 p.1 a)) as [-> ->]; [lia|].
    repeat split; [congruence|done..].
Qed.

(** What a list [q :: S] in place of [p] and the blocks above it has to satisfy. *)
Lemma rebuild_ok q S : q.1 = p.1 -> q = p \/ wf p /\ wf q -> (forall b, b ∈ S -> wf b) ->
  StronglySorted apart (q :: S) -> (forall b c, b ∈ q :: S -> c ∈ al -> disj b c) ->
  head (l1 ++ q :: S) = Some (base, 0) /\ p.1 ∈ (l1 ++ q :: S).*1 /\ StronglySorted apart (l1 ++ q :: S) /\
  Forall wf (tail (l1 ++ q :: S)) /\ (forall b c, b ∈ l1 ++ q :: S -> c ∈ al -> disj b c).
Proof.
  intros Eq Hq HS Hs Hdis. pose proof (ok_head _ _ _ Hok) as Hh. pose proof (ok_free _ _ _ Hok) as Hf.
  pose proof (ok_sorted _ _ _ Hok) as HsL. pose proof (ok_disj _ _ _ Hok) as HdL. rewrite E in Hh, Hf, HsL, HdL.
  apply StronglySorted_app in HsL as (_ & Hs1 & _). repeat split.
  - destruct l1; cbn in *; [|done]. destruct Hq as [->|[Hw _]]; [done|]. simplify_eq. destruct Hw. cbn in *. lia.
  - rewrite fmap_app, <-Eq. set_solver.
  - apply StronglySorted_app. split; [|done]. intros c b Hc Hb. apply l1_below in Hc.
    assert (p.1 <= b.1).
    { apply elem_of_cons in Hb as [->|Hb]; [lia|]. apply StronglySorted_cons in Hs as [Hs _].
      rewrite Forall_forall in Hs. apply Hs in Hb. unfold apart, top in Hb. lia. }
    unfold apart, top in *. lia.
  - rewrite <-Forall_forall in HS. destruct l1 as [|c k]; cbn in *; [done|].
    apply Forall_app in Hf as [Hf1 Hf2]. apply Forall_app. split; [done|]. constructor; [|done].
    apply Forall_cons in Hf2 as [Hf2 _]. destruct Hq as [->|[_ Hw]]; done.
  - intros b c [Hb|Hb]%elem_of_app; [|by apply Hdis]. apply HdL. set_solver.
Qed.

Lemma lowered_ok b' rest L' : joined b' rest -> lowered b' rest L' -> (forall c, c ∈ al -> disj (a, n) c) ->
  (head L' = Some (base, 0) /\ p.1 ∈ L'.*1 /\ StronglySorted apart L' /\ Forall wf (tail L') /\
   (forall b c, b ∈ L' -> c ∈ al -> disj b c)) /\ (length L' <= S (length L))%nat /\
  (exists b, b ∈ L' /\ n <= b.2) /\ (forall x, covers L' x <-> covers L x \/ a <= x < a + 8 * n).
Proof.
  intros HJ HL Hal. destruct (joined_ok _ _ HJ) as (Ha & Hb & Hn & Hrest & Hsr & _ & Hlen & Hdb & Hcov).
  pose proof p_below as [Hpa Hpa']. pose proof p_bounds as (Hp1 & Hp2 & Hp3). pose proof Hb as (Hb1 & Hb2 & Hb3).
  pose proof (ok_disj _ _ _ Hok) as Hdis. pose proof (ok_live _ _ _ Hok) as Hlv. rewrite Forall_forall in Hlv.
  assert (forall c, c ∈ rest -> wf c /\ c ∈ L) as Hwr.
  { intros c Hc. apply Hrest in Hc as [Hc _]. split; [by apply l2_wf|by apply l2_in]. }
  assert (Forall (apart b') rest) as Hbr by (apply Forall_forall; intros c Hc; by apply Hrest).
  assert (forall c, c ∈ al -> disj b' c) as Hdb' by auto.
  destruct HL as [(-> & Hlt)|(-> & Heq & Hwp)].
  - split; [|split; [|split]].
    + apply rebuild_ok; [done|by left|intros b [->|Hc]%elem_of_cons; [done|by apply Hwr]| |].
      * apply StronglySorted_cons. split; [|by apply StronglySorted_cons].
        assert (apart p b') by (unfold apart, top; rewrite Ha; lia). constructor; [done|].
        eapply Forall_impl; [exact Hbr|]. intros c. unfold apart, top in *. lia.
      * intros b c [->|[->|Hb']%elem_of_cons]%elem_of_cons Hc; [by apply Hdis; [apply p_in|]|auto|].
        apply Hdis; [by apply Hwr|done].
    + rewrite E, !length_app. cbn. lia.
    + exists b'. split; [set_solver|done].
    + intros x. specialize (Hcov x). rewrite E. unfold covers in *. rewrite !exists_elem_app, (exists_elem_cons _ p), (exists_elem_cons _ p).
      rewrite Hcov. tauto.
  - destruct Hwp as (Hwp1 & Hwp2 & Hwp3). split; [|split; [|split]].
    + apply rebuild_ok; [done|right; split; [by repeat split|unfold wf; cbn; lia]|intros b Hc; by apply Hwr| |].
      * apply StronglySorted_cons. split; [|done].
        eapply Forall_impl; [exact Hbr|]. intros c. unfold apart, top in *. cbn. lia.
      * intros b c [->|Hb']%elem_of_cons Hc; [|apply Hdis; [by apply Hwr|done]].
        pose proof (Hdis p c p_in Hc). pose proof (Hdb' c Hc). pose proof (Hlv c Hc) as (Hc1 & Hc2 & _).
        unfold disj, top in *. cbn. lia.
    + rewrite E, !length_app. cbn. lia.
    + eexists. split; [apply elem_of_app; right; by left|]. cbn. lia.
    + intros x. specialize (Hcov x). rewrite E. unfold covers in *. rewrite !exists_elem_app, !exists_elem_cons in *. cbn.
      rewrite Ha in Hcov.
      assert (p.1 <= x < p.1 + 8 * (p.2 + b'.2) <-> p.1 <= x < p.1 + 8 * p.2 \/ a <= x < a + 8 * b'.2) as -> by lia. tauto.
Qed.
End Free.

End Inv.

Lemma live_cons h L k al : heap_ok h L (k :: al) -> heap_ok h L al /\ wf k /\ (forall b, b ∈ L -> disj b k) /\
  (forall c, c ∈ al -> disj k c) /\ s_size (h_mem h) k.1 = k.2.
Proof.
  intros []. apply Forall_cons in ok_live0 as [Hk Hl]. apply StronglySorted_cons in ok_live_disj0 as [Hd Hs].
  rewrite Forall_forall in Hd. split; [split; try done|]; [intros; apply ok_disj0; set_solver|set_solver|].
  repeat split; [apply Hk..| | |]; [intros; apply ok_disj0; set_solver|done|]. apply ok_sizes0. by left.
Qed.

(** free of a live block: the block is in the free list, joined with what it
    touches; the blocks still live keep their bytes. *)
Lemma free_ok h L a n al fuel : heap_ok h L ((a, n) :: al) -> (length L <= fuel)%nat ->
  exists h' L', free fuel h (a + 8) = Some h' /\ heap_ok h' L' al /\ same_live al (h_mem h) (h_mem h') /\
    (length L' <= S (length L))%nat /\ (exists b, b ∈ L' /\ n <= b.2) /\
    (forall x, covers L' x <-> covers L x \/ a <= x < a + 8 * n).
Proof.
  intros Hok0 Hfuel. destruct (live_cons _ _ _ _ Hok0) as (Hok & Hwf & Hd & Hal & Hsz). cbn in Hsz.
  pose proof Hwf as (Hw1 & Hw2 & Hw3). cbn in Hw1, Hw2, Hw3.
  destruct (ok_below _ _ _ Hok a) as (l1 & p & l2 & E & Hp & Hl2); [lia|..].
  { intros b Hb Hba. apply Hd in Hb. unfold disj, top in Hb. cbn in Hb. lia. }
  destruct (join_upper_ok _ _ _ Hok a n Hwf Hd Hsz _ _ _ E Hp Hl2) as (b' & rest & HJ & J1 & J2 & J3).
  destruct (join_lower_ok _ _ _ Hok a n Hwf Hd Hsz _ _ _ E Hp Hl2 _ _ _ HJ J1 J2 J3) as (L' & HL & Hc & Hm).
  destruct (lowered_ok _ _ _ Hok a n Hwf Hd Hsz _ _ _ E Hp Hl2 _ _ _ HJ HL Hal) as ((Hh & Hfp & Hs & Hf & Hdis) & Hlen & Hbig & Hcov).
  unfold free. replace (u32 (a + 8 - 8)) with a by (unfold u32; rewrite Z.mod_small; lia).
  assert (p ∈ L) as HpL by (rewrite E; set_solver).
  rewrite (free_find_ok _ _ _ Hok a p); [|exact HpL|exact Hp|by eapply side_ok|exact Hfuel].
  assert (same_live al (h_mem h) (join_lower (join_upper (h_mem h) a p.1) a p.1)) as Hsame.
  { intros b x Hb Hx.
    pose proof (ok_disj _ _ _ Hok p b HpL Hb) as H1. pose proof (Hal b Hb) as H2. unfold disj, top in H1, H2. cbn in H2.
    apply Hm; lia. }
  eexists _, L'. split; [reflexivity|]. split; [|exact (conj Hsame (conj Hlen (conj Hbig Hcov)))].
  split; cbn [h_mem h_freep]; [assumption..|apply Hok|assumption|apply Hok|]. intros b Hb.
  rewrite <-(ok_sizes _ _ _ Hok b Hb). eapply same_live_size; [done|done|]. pose proof (ok_live _ _ _ Hok) as Hl.
  rewrite Forall_forall in Hl. by apply Hl.
Qed.

(** *** malloc *)

Lemma head_app_cons (l1 : list block) b l2 l2' : head (l1 ++ b :: l2) = head (l1 ++ b :: l2').
Proof. by destruct l1. Qed.

Lemma tail_app_cons (l1 : list block) b l2 l2' : (forall c, c ∈ l2' -> wf c) ->
  Forall wf (tail (l1 ++ b :: l2)) -> Forall wf (tail (l1 ++ b :: l2')).
Proof.
  intros H. rewrite <-Forall_forall in H. destruct l1 as [|d l1]; cbn; [done|].
  rewrite !Forall_app, !Forall_cons. tauto.
Qed.

Section Carve.
Context (h : heap) (L al : list block) (Hok : heap_ok h L al).
Context (k1 : list block) (pv c : block) (k2 : list block) (E : L = k1 ++ pv :: c :: k2).
Context (nu : Z) (Hnu : 0 < nu <= c.2).
Abbreviation m := (h_mem h).

(** The place of the block that is cut out of [c]. *)
Abbreviation a := (c.1 + 8 * (c.2 - nu)).

(** What is left of [c] in the list. *)
Definition left_over : list block := if c.2 =? nu then [] else [(c.1, c.2 - nu)].

Lemma carve_in : (forall d, d ∈ k1 -> d ∈ L) /\ pv ∈ L /\ c ∈ L /\ (forall d, d ∈ k2 -> d ∈ L).
Proof. rewrite E. set_solver. Qed.

Lemma carve_wf : wf c /\ forall d, d ∈ k2 -> wf d.
Proof.
  pose proof (ok_free _ _ _ Hok) as Hf. rewrite E in Hf.
  assert (Forall wf (c :: k2)) as H.
  { destruct k1; cbn in Hf; [done|]. apply Forall_app in Hf as [_ Hf]. by apply Forall_cons in Hf as [_ Hf]. }
  apply Forall_cons in H as [Hc Hk]. by rewrite Forall_forall in Hk.
Qed.

Lemma carve_sorted : (forall d, d ∈ k1 -> apart d pv) /\ apart pv c /\ (forall d, d ∈ k2 -> apart c d).
Proof.
  pose proof (ok_sorted _ _ _ Hok) as Hs. rewrite E in Hs. destruct (sorted_split _ _ _ Hs) as (H1 & H2 & _).
  rewrite cons_middle, (assoc_L (++)) in Hs. apply sorted_split in Hs as (_ & H3 & _).
  split; [done|]. split; [apply H2; by left|done].
Qed.

Lemma left_over_elem b : b ∈ left_over -> b = (c.1, c.2 - nu) /\ nu < c.2.
Proof. unfold left_over. destruct (Z.eqb_spec c.2 nu); [set_solver|]. intros ->%list_elem_of_singleton. split; [done|lia]. Qed.

Lemma carve_list : let L' := k1 ++ pv :: left_over ++ k2 in
  head L' = Some (base, 0) /\ pv.1 ∈ L'.*1 /\ StronglySorted apart L' /\ Forall wf (tail L') /\
  (length L' <= length L)%nat /\ (forall b, b ∈ L' -> disj b (a, nu) /\ forall d, d ∈ al -> disj b d) /\
  (forall d, d ∈ al -> disj (a, nu) d) /\ wf (a, nu) /\
  (forall x, covers L x <-> covers L' x \/ a <= x < a + 8 * nu).
Proof.
  destruct carve_wf as [(Hc1 & Hc2 & Hc3) Hk2]. destruct carve_sorted as (S1 & S2 & S3).
  pose proof (ok_disj _ _ _ Hok) as Hdis. destruct carve_in as (I1 & I2 & I3 & I4).
  pose proof (ok_sorted _ _ _ Hok) as Hs. pose proof (ok_free _ _ _ Hok) as Hf.
  pose proof (ok_head _ _ _ Hok) as Hh. rewrite E in Hs, Hf, Hh. rewrite E. cbn zeta. cbn [fst snd].
  split; [by rewrite <-Hh; apply head_app_cons|]. split; [rewrite fmap_app; apply elem_of_app; right; by left|]. split.
  { apply StronglySorted_app in Hs as (Hx & Hs1 & [_ [_ Hs2]%StronglySorted_cons]%StronglySorted_cons).
    apply StronglySorted_app. split; [|split; [done|]].
    - intros x y Hx1 [->|[[-> _]%left_over_elem|Hy]%elem_of_app]%elem_of_cons; [by apply S1| |apply Hx; [done|by do 2 right]].
      assert (apart x c) by (apply Hx; [done|by right; left]). done.
    - assert (Forall (apart pv) k2) as F1.
      { apply Forall_forall. intros d Hd. apply S3 in Hd. unfold apart, top in *. lia. }
      unfold left_over. destruct (Z.eqb_spec c.2 nu); cbn; rewrite !StronglySorted_cons; [done|].
      split; [by constructor|]. split; [|done]. apply Forall_forall. intros d Hd%S3. unfold apart, top in *. cbn. lia. }
  split. { eapply tail_app_cons, Hf. intros d [[-> ?]%left_over_elem|Hd]%elem_of_app; [unfold wf; cbn; lia|auto]. }
  split. { rewrite !length_app. cbn. rewrite length_app. unfold left_over. destruct (_ =? _); cbn; lia. }
  assert (forall d, d ∈ al -> disj c d) as Hcd by (intros d Hd; by apply Hdis).
  assert (forall d, d ∈ al -> wf d) as Hlv by (rewrite <-Forall_forall; apply Hok).
  split.
  { intros b [Hb|[->|[[-> ?]%left_over_elem|Hb]%elem_of_app]%elem_of_cons]%elem_of_app; split;
      try (intros d Hd; apply Hdis; [by auto|done]).
    - apply S1 in Hb. unfold disj, apart, top in *. cbn. lia.
    - unfold disj, apart, top in *. cbn. lia.
    - unfold disj, top. cbn. lia.
    - intros d Hd. specialize (Hcd d Hd). destruct (Hlv d Hd) as (? & ? & ?). unfold disj, top in *. cbn. lia.
    - apply S3 in Hb. unfold disj, apart, top in *. cbn. lia. }
  split.
  { intros d Hd. specialize (Hcd d Hd). destruct (Hlv d Hd) as (? & ? & ?). unfold disj, top in *. cbn. lia. }
  split. { unfold wf. cbn. lia. }
  intros x. unfold covers. rewrite !exists_elem_app, !exists_elem_cons, exists_elem_app.
  assert (c.1 <= x < c.1 + 8 * c.2 <->
    (exists b, b ∈ left_over /\ b.1 <= x < b.1 + 8 * b.2) \/ a <= x < a + 8 * nu) as ->; [|tauto].
  unfold left_over. destruct (Z.eqb_spec c.2 nu) as [<-|]; [split; [right; lia|]; intros [(b & Hb & _)|Hb]; [by apply elem_of_nil in Hb|lia]|].
  rewrite exists_elem_cons. cbn. split; [|intros [[?|(b & Hb & _)]|?]; [lia|by apply elem_of_nil in Hb|lia]].
  intros. destruct (decide (x < a)); [left; left; lia|right; lia].
Qed.

(** The memory after the block is cut out: the list is linked again, the block
    has its size, nothing else has changed but headers of the list. *)
Lemma carve_mem : exists m', carve m pv.1 c.1 nu = (a + 8, {| h_mem := m'; h_freep := pv.1 |}) /\
  chain m' (k1 ++ pv :: left_over ++ k2) base /\ s_size m' a = nu /\
  forall x, x < pv.1 \/ pv.1 + 8 <= x -> x < c.1 \/ c.1 + 8 * c.2 <= x -> load8 m' x = load8 m x.
Proof.
  destruct carve_wf as [(Hc1 & Hc2 & Hc3) Hk2]. destruct carve_sorted as (S1 & S2 & S3). pose proof S2 as (S4 & S5). unfold top in S4.
  pose proof (ok_chain _ _ _ Hok) as Hch. rewrite E in Hch.
  apply chain_app in Hch as [Hk1 (Hps & Hpp & Hcs & Hcp & Hck)]. cbn in Hk1, Hpp.
  pose proof (first_bound k2 Hk2 ltac:(lia)) as Hfb.
  assert (base <= pv.1) by (destruct (ok_L _ _ _ Hok pv (proj1 (proj2 carve_in))) as [->|(? & _)]; cbn; lia).
  unfold carve. rewrite Hcs. unfold left_over. destruct (Z.eqb_spec c.2 nu) as [En|Hne].
  - rewrite units_small, Hcp by lia. eexists. split; [f_equal; lia|]. rewrite <-En, Z.sub_diag, Z.mul_0_r, Z.add_0_r.
    pose proof (set_ptr_only m pv.1 (first k2 base)) as Ho. split; [|split].
    + apply chain_app. split; [|cbn; split; [by rewrite s_size_set_ptr|split; [by apply s_ptr_set|]]];
        (eapply chain_ext; [|eassumption]); intros d Hd; (apply (only_header_words pv.1); [done|]).
      * apply S1 in Hd. unfold apart, top in Hd. lia.
      * apply S3 in Hd. unfold apart, top in Hd. lia.
    + etransitivity; [|exact Hcs]. apply (only_header_words pv.1); [done|lia].
    + intros x Hx _. by apply Ho.
  - unfold u32. rewrite Z.mod_small by lia. rewrite s_size_set, (units_small c.1), units_small by lia. eexists. split; [f_equal; lia|].
    set (m1 := set_size m c.1 (c.2 - nu)). set (m2 := set_size m1 a nu).
    assert (only_header c.1 m m1) as O1 by apply set_size_only. assert (only_header a m1 m2) as O2 by apply set_size_only.
    assert (forall b, b + 8 <= c.1 \/ c.1 + 8 * c.2 <= b -> s_size m2 b = s_size m b /\ s_ptr m2 b = s_ptr m b) as Hout.
    { intros b Hb. destruct (only_header_words _ _ _ b O2) as [-> ->]; [lia|]. apply (only_header_words c.1); [done|lia]. }
    split; [|split; [apply s_size_set; lia|]].
    + apply chain_app. split; [|cbn; destruct (Hout pv.1) as [-> ->]; [lia|]; split; [done|split; [done|]]].
      * eapply chain_ext; [|exact Hk1]. intros d Hd. apply Hout. apply S1 in Hd. unfold apart, top in Hd. lia.
      * destruct (only_header_words _ _ _ c.1 O2) as [-> ->]; [lia|].
        split; [apply s_size_set; lia|]. split; [by rewrite <-Hcp; apply s_ptr_set_size|].
        eapply chain_ext; [|exact Hck]. intros d Hd. apply Hout. apply S3 in Hd. unfold apart, top in Hd. lia.
    + intros x Hx Hx'. rewrite O2 by lia. apply O1. lia.
Qed.
End Carve.

Lemma live_add h L al b h' L' : heap_ok h L al -> wf b -> (forall d, d ∈ al -> disj b d) ->
  head L' = Some (base, 0) -> chain (h_mem h') L' base -> h_freep h' ∈ L'.*1 -> StronglySorted apart L' ->
  Forall wf (tail L') -> (forall c, c ∈ L' -> disj c b /\ forall d, d ∈ al -> disj c d) ->
  s_size (h_mem h') b.1 = b.2 -> same_live al (h_mem h) (h_mem h') -> heap_ok h' L' (b :: al).
Proof.
  intros Hok Hb Hbd Hh Hc Hf Hs Ht Hd Hsz Hsame. pose proof (ok_live _ _ _ Hok) as Hl. split; try assumption.
  - by constructor.
  - intros c d Hc'. apply Hd in Hc' as [Hcb Hcd]. intros [->|Hd']%elem_of_cons; [exact Hcb|exact (Hcd d Hd')].
  - constructor; [apply Hok|]. by apply Forall_forall.
  - intros d [->|Hd']%elem_of_cons; [done|]. rewrite <-(ok_sizes _ _ _ Hok d Hd').
    rewrite Forall_forall in Hl. eapply same_live_size; eauto.
Qed.

(** [h'] is [h] after [nu] units have been taken from its free list [L] for the
    block at [a]. *)
Definition taken (h : heap) (L al : list block) (a nu : Z) (h' : heap) (L' : list block) : Prop :=
  heap_ok h' L' ((a, nu) :: al) /\ same_live al (h_mem h) (h_mem h') /\
  (forall x, covers L x <-> covers L' x \/ a <= x < a + 8 * nu).

Lemma carve_ok h L al pv c nu : heap_ok h L al -> pv ∈ L -> c ∈ L -> s_ptr (h_mem h) pv.1 = c.1 -> 0 < nu <= c.2 ->
  exists a h' L', carve (h_mem h) pv.1 c.1 nu = (a + 8, h') /\ taken h L al a nu h' L'.
Proof.
  intros Hok Hpv Hc Hptr Hnu.
  assert (wf c) as Hwc by (destruct (ok_L _ _ _ Hok c Hc) as [->|]; [cbn in Hnu; lia|done]).
  apply list_elem_of_split in Hpv as (k1 & k2 & E). destruct (ok_words _ _ _ Hok _ _ _ E) as [_ Hn]. rewrite Hptr in Hn.
  destruct k2 as [|c' k2]; cbn in Hn; [destruct Hwc; lia|].
  assert (c' = c) as -> by (eapply ok_addr; [exact Hok|rewrite E; set_solver|done|done]).
  destruct (carve_mem _ _ _ Hok _ _ _ _ E _ Hnu) as (m' & Hcarve & Hch & Hsz & Hfr).
  destruct (carve_list _ _ _ Hok _ _ _ _ E _ Hnu) as (Hh & Hfp & Hs & Ht & _ & Hd & Had & Hwa & Hcov).
  rewrite Hcarve. eexists _, _, _. split; [reflexivity|].
  assert (same_live al (h_mem h) m') as Hsame.
  { intros b x Hb Hx. pose proof (ok_live _ _ _ Hok) as Hl. rewrite Forall_forall in Hl. destruct (Hl b Hb) as (Hb1 & Hb2 & _).
    assert (pv ∈ L /\ c ∈ L) as [Ip Ic] by (split; [rewrite E; set_solver|done]).
    pose proof (ok_disj _ _ _ Hok _ _ Ip Hb) as D1. pose proof (ok_disj _ _ _ Hok _ _ Ic Hb) as D2.
    unfold disj, top in D1, D2. apply Hfr; lia. }
  split; [|split; [exact Hsame|exact Hcov]]. by apply (live_add h L al).
Qed.

Lemma scan h L al nu cores f : heap_ok h L al -> f.1 = h_freep h -> forall t pv fuel, (forall c, c ∈ t -> c.1 <> f.1) ->
  chain (h_mem h) (pv :: t ++ [f]) (s_ptr (h_mem h) f.1) ->
  let r := malloc_loop (length t + S fuel) h pv.1 (first (t ++ [f]) 0) nu cores in
  (exists q c, q ∈ pv :: t ++ [f] /\ c ∈ t ++ [f] /\ s_ptr (h_mem h) q.1 = c.1 /\ nu <= c.2 /\
     r = Some (carve (h_mem h) q.1 c.1 nu, cores)) \/
  ((forall c, c ∈ t ++ [f] -> c.2 < nu) /\
   r = match morecore fuel h nu (default (-1) (head cores)) with
       | Some (p, h) => if p =? 0 then Some (0, h, tail cores)
                        else malloc_loop fuel h p (s_ptr (h_mem h) p) nu (tail cores)
       | None => None
       end).
Proof.
  intros Hok Hf. induction t as [|c t IH]; intros pv fuel Ht (Hs & Hp & Hc); cbn [length app first Nat.add malloc_loop].
  - cbn in Hc, Hp. destruct Hc as (Hfs & _). rewrite Hfs. destruct (Z.leb_spec nu f.2).
    + left. exists pv, f. set_solver.
    + right. rewrite Hf, Z.eqb_refl. split; [|done]. intros c ->%list_elem_of_singleton. done.
  - cbn in Hc, Hp. destruct Hc as (Hcs & Hcp & Hc). rewrite Hcs. destruct (Z.leb_spec nu c.2).
    + left. exists pv, c. set_solver.
    + rewrite <-Hf. destruct (Z.eqb_spec c.1 f.1) as [Hcf|_]; [exfalso; eapply Ht; [by left|done]|].
      rewrite Hcp. replace (first (t ++ [f]) (s_ptr (h_mem h) f.1)) with (first (t ++ [f]) 0) by (by destruct t).
      destruct (IH c fuel) as [(q & c' & Hq & Hc' & HH)|[Hall HH]]; [intros; apply Ht; by right|by split| |].
      * left. exists q, c'. split; [by right|]. split; [by right|]. done.
      * right. split; [|done]. intros d [->|Hd]%elem_of_cons; [lia|auto].
Qed.

(** One round over the list, from [freep] to [freep]. *)
Lemma malloc_round h L al nu cores fuel : heap_ok h L al -> 0 < nu ->
  let r := malloc_loop (length L + fuel) h (h_freep h) (s_ptr (h_mem h) (h_freep h)) nu cores in
  (exists a h' L', (exists c, c ∈ L /\ nu <= c.2) /\ r = Some (a + 8, h', cores) /\ taken h L al a nu h' L') \/
  ((forall c, c ∈ L -> c.2 < nu) /\
   r = match morecore fuel h nu (default (-1) (head cores)) with
       | Some (p, h) => if p =? 0 then Some (0, h, tail cores)
                        else malloc_loop fuel h p (s_ptr (h_mem h) p) nu (tail cores)
       | None => None
       end).
Proof.
  intros Hok Hnu. pose proof (ok_freep _ _ _ Hok) as (f & Ef & Hf)%list_elem_of_fmap.
  destruct (ok_rotate _ _ _ Hok f Hf) as (d & Hd & HP).
  assert (length L = S (length d)) as -> by (by rewrite <-HP).
  assert (forall c, c ∈ d -> c.1 <> f.1) as Hne.
  { assert (NoDup (f :: d).*1) as HN.
    { rewrite HP. eapply (sorted_nodup L), Hok. }
    cbn in HN. apply NoDup_cons in HN as [HN _]. intros c Hc Hcf. apply HN. rewrite <-Hcf. by apply list_elem_of_fmap_2. }
  assert (forall c, c ∈ d ++ [f] <-> c ∈ L) as Hin.
  { intros c. rewrite <-HP, elem_of_app, list_elem_of_singleton, elem_of_cons. tauto. }
  assert (chain (h_mem h) (f :: d ++ [f]) (s_ptr (h_mem h) f.1)) as Hch.
  { apply (chain_app _ (f :: d) [f]). split; [done|]. cbn. destruct Hd as (? & _). done. }
  assert (s_ptr (h_mem h) (h_freep h) = first (d ++ [f]) 0) as ->.
  { rewrite Ef. destruct Hd as (_ & -> & _). by destruct d. }
  destruct (scan h L al nu cores f Hok (eq_sym Ef) d f fuel Hne Hch) as [(q & c & Hq & Hc & Hqc & Hle & Hr)|[Hall Hr]];
    rewrite <-Nat.add_succ_comm in Hr; cbn zeta; rewrite Ef.
  - left. assert (q ∈ L) as HqL by (apply elem_of_cons in Hq as [->|Hq]; [done|by apply Hin]). apply Hin in Hc.
    destruct (carve_ok h L al q c nu Hok HqL Hc Hqc) as (a & h' & L' & Hcv & HT); [lia|].
    exists a, h', L'. rewrite Hcv in Hr. split; [by exists c|]. split; [exact Hr|exact HT].
  - right. split; [intros c Hc; by apply Hall, Hin|exact Hr].
Qed.

Definition fresh (L al : list block) (b : block) : Prop :=
  wf b /\ (forall c, c ∈ L -> disj c b) /\ forall c, c ∈ al -> disj b c.

Lemma core_units_le nu : nu <= core_units nu.
Proof. unfold core_units. destruct (Z.ltb_spec nu 4096); lia. Qed.

Lemma morecore_ok h L al nu core fuel : heap_ok h L al -> fresh L al (core, core_units nu) -> (length L <= fuel)%nat ->
  exists h' L', morecore fuel h nu core = Some (h_freep h', h') /\ heap_ok h' L' al /\
    same_live al (h_mem h) (h_mem h') /\ (length L' <= S (length L))%nat /\ (exists b, b ∈ L' /\ nu <= b.2) /\
    (forall x, covers L' x <-> covers L x \/ core <= x < core + 8 * core_units nu).
Proof.
  intros Hok (Hw & HL & Hal) Hfuel. pose proof Hw as (Hw1 & Hw2 & Hw3). cbn in Hw1, Hw2, Hw3.
  unfold morecore. destruct (Z.eqb_spec core (-1)) as [|_]; [lia|]. rewrite units_small by lia.
  pose proof (set_size_only (h_mem h) core (core_units nu)) as Ho.
  set (h1 := {| h_mem := _; h_freep := _ |}).
  assert (same_live al (h_mem h) (h_mem h1)) as Hs1.
  { eapply only_header_live; [exact Ho|]. intros b Hb. pose proof (Hal b Hb) as D. unfold disj, top in D. cbn in D. lia. }
  assert (heap_ok h1 L ((core, core_units nu) :: al)) as Hok1.
  { apply (live_add h L al); try assumption; try apply Hok.
    - eapply chain_ext, Hok. intros b Hb. apply (only_header_words core); [exact Ho|].
      pose proof (HL b Hb) as D. unfold disj, top in D. cbn in D. lia.
    - intros c Hc. split; [auto|]. intros d Hd. by apply (ok_disj _ _ _ Hok).
    - apply s_size_set. cbn. lia. }
  destruct (free_ok _ _ _ _ _ fuel Hok1 Hfuel) as (h' & L' & Hfree & Hok' & Hs' & Hlen & (b & Hb & Hbn) & Hcov).
  rewrite Z.mul_1_r, Hfree. exists h', L'. split; [done|]. split; [done|]. split.
  { intros c x Hc Hx. rewrite (Hs' c x Hc Hx). by apply (Hs1 c x). }
  split; [done|]. split; [|done]. exists b. pose proof (core_units_le nu). split; [done|lia].
Qed.

(** The heap with its list, also before the first call of malloc. *)
Definition heap_inv (h : heap) (L al : list block) : Prop :=
  (h_freep h = 0 /\ L = [(base, 0)] /\ al = []) \/ heap_ok h L al.

Lemma freep_nonzero h L al : heap_ok h L al -> h_freep h <> 0.
Proof.
  intros Hok. pose proof (ok_freep _ _ _ Hok) as (b & -> & Hb)%list_elem_of_fmap.
  destruct (ok_L _ _ _ Hok b Hb) as [->|(? & _)]; cbn; lia.
Qed.

Lemma malloc_init_ok h L al : base + 8 <= 2 ^ 32 -> heap_inv h L al ->
  heap_ok (malloc_init base h) L al /\ same_live al (h_mem h) (h_mem (malloc_init base h)).
Proof.
  intros Hb [(H0 & -> & ->)|Hok]; unfold malloc_init.
  - rewrite H0. cbn [Z.eqb]. split; [|by intros b x Hx%elem_of_nil]. split; cbn [h_mem h_freep]; try done.
    + cbn. rewrite s_ptr_set_size, s_ptr_set by lia. split; [apply s_size_set; lia|done].
    + by left.
    + repeat constructor.
    + by intros b c _ Hc%elem_of_nil.
    + constructor.
    + by intros b Hb'%elem_of_nil.
  - pose proof (freep_nonzero _ _ _ Hok). by destruct (Z.eqb_spec (h_freep h) 0).
Qed.

Lemma nunits_spec n : 0 <= n < 2 ^ 31 -> n <= 8 * (nunits n - 1) /\ 0 < nunits n <= 2 ^ 28 + 1.
Proof. intros H. unfold nunits, u32. rewrite Z.mod_small by lia. dlia. Qed.

Lemma taken_same h1 h L al a nu h' L' : same_live al (h_mem h1) (h_mem h) -> taken h L al a nu h' L' ->
  same_live al (h_mem h1) (h_mem h').
Proof. intros H (_ & H' & _) b x Hb Hx. rewrite (H' b x Hb Hx). by apply (H b x). Qed.

(** malloc on each branch: a block of the list is used when one is large enough;
    otherwise sbrk is called once, and its core, joined to the list, is used; 0
    is returned when sbrk fails. *)
Lemma malloc_ok h L al nbytes core cores fuel : base + 8 <= 2 ^ 32 -> heap_inv h L al -> 0 <= nbytes < 2 ^ 31 ->
  core = -1 \/ fresh L al (core, core_units (nunits nbytes)) -> (2 * length L + 3 <= fuel)%nat ->
  exists r h' cores' L', malloc base fuel h nbytes (core :: cores) = Some (r, h', cores') /\
    same_live al (h_mem h) (h_mem h') /\
    ((exists a, (exists c, c ∈ L /\ nunits nbytes <= c.2) /\ r = a + 8 /\ cores' = core :: cores /\
        heap_ok h' L' ((a, nunits nbytes) :: al) /\
        forall x, covers L x <-> covers L' x \/ a <= x < a + 8 * nunits nbytes) \/
     (exists a, (forall c, c ∈ L -> c.2 < nunits nbytes) /\ r = a + 8 /\ cores' = cores /\ core <> -1 /\
        heap_ok h' L' ((a, nunits nbytes) :: al) /\
        forall x, covers L x \/ core <= x < core + 8 * core_units (nunits nbytes) <->
          covers L' x \/ a <= x < a + 8 * nunits nbytes) \/
     ((forall c, c ∈ L -> c.2 < nunits nbytes) /\ r = 0 /\ cores' = cores /\ core = -1 /\ L' = L /\ heap_ok h' L al)).
Proof.
  intros Hb Hinv Hn Hcore Hfuel. unfold malloc. destruct (nunits_spec nbytes Hn) as [_ [Hnu _]]. set (nu := nunits nbytes) in *. clearbody nu.
  destruct (malloc_init_ok h L al Hb Hinv) as [Hok Hs0]. set (h0 := malloc_init base h) in *. clearbody h0.
  replace fuel with (length L + (fuel - length L))%nat by lia. set (fuel' := (fuel - length L)%nat). assert (length L + 3 <= fuel')%nat as Hf' by lia. clearbody fuel'.
  destruct (malloc_round h0 L al nu (core :: cores) fuel' Hok Hnu) as [(a & h' & L' & Hfit & Hr & HT)|[Hall Hr]].
  { exists (a + 8), h', (core :: cores), L'. split; [exact Hr|]. split; [by eapply taken_same|].
    left. exists a. destruct HT as (HT & _ & HC). by repeat (split; [done|]). }
  change (default (-1) (head (core :: cores))) with core in Hr. cbn [tail] in Hr. destruct Hcore as [->|Hfresh].
  { exists 0, h0, cores, L. split; [exact Hr|]. split; [done|]. right; right. by repeat (split; [done|]). }
  destruct (morecore_ok h0 L al nu core fuel' Hok Hfresh) as (h1 & L1 & Hm & Hok1 & Hs1 & Hlen & (b & HbL & Hbn) & Hcov); [lia|].
  assert (core <> -1) as Hc1 by (destruct Hfresh as ((? & _) & _); cbn in *; lia).
  rewrite Hm in Hr. destruct (Z.eqb_spec (h_freep h1) 0) as [H0|_]; [by apply (freep_nonzero _ _ _ Hok1) in H0|].
  replace fuel' with (length L1 + (fuel' - length L1))%nat in Hr at 2 by lia.
  destruct (malloc_round h1 L1 al nu cores (fuel' - length L1) Hok1 Hnu) as [(a & h' & L' & _ & Hr' & HT)|[Hall' _]].
  - cbn zeta in Hr, Hr'. rewrite Hr' in Hr. exists (a + 8), h', cores, L'. split; [exact Hr|]. split.
    { eapply taken_same; [|exact HT]. intros c x Hc Hx. rewrite (Hs1 c x Hc Hx). by apply (Hs0 c x). }
    right; left. exists a. destruct HT as (HT & _ & HC). repeat (split; [done|]).
    intros x. rewrite <-HC, Hcov. done.
  - apply Hall' in HbL. lia.
Qed.

(** More fuel gives the same result. *)
Lemma free_find_mono m bp fuel : forall fuel' p r, (fuel <= fuel')%nat ->
  free_find fuel m bp p = Some r -> free_find fuel' m bp p = Some r.
Proof.
  induction fuel as [|fuel IH]; intros fuel' p r Hle; [done|]. destruct fuel' as [|fuel']; [lia|]. cbn.
  destruct (free_here m bp p); [done|]. apply IH. lia.
Qed.

Lemma free_mono fuel fuel' h ap r : (fuel <= fuel')%nat -> free fuel h ap = Some r -> free fuel' h ap = Some r.
Proof.
  intros Hle. unfold free. destruct (free_find fuel _ _ _) as [p|] eqn:E; [|done].
  by rewrite (free_find_mono _ _ _ _ _ _ Hle E).
Qed.

Lemma malloc_loop_mono fuel : forall fuel' h prevp p nu cores r, (fuel <= fuel')%nat ->
  malloc_loop fuel h prevp p nu cores = Some r -> malloc_loop fuel' h prevp p nu cores = Some r.
Proof.
  induction fuel as [|fuel IH]; intros fuel' h prevp p nu cores r Hle; [done|]. destruct fuel' as [|fuel']; [lia|].
  cbn [malloc_loop]. destruct (nu <=? _); [done|]. destruct (p =? _); [|apply IH; lia].
  unfold morecore. destruct (_ =? -1); [done|].
  destruct (free fuel _ _) as [h1|] eqn:E; [|done]. rewrite (free_mono fuel fuel' _ _ _ (le_S_n _ _ Hle) E).
  destruct (h_freep h1 =? 0); [done|]. apply IH. lia.
Qed.

(** *** Programs that use the allocator *)

Lemma disj_sym b c : disj b c -> disj c b.
Proof. unfold disj. lia. Qed.

Lemma live_pair al b c : StronglySorted disj al -> b ∈ al -> c ∈ al -> b = c \/ disj b c.
Proof.
  induction al as [|d al IH]; intros H; [by intros ?%elem_of_nil|]. apply StronglySorted_cons in H as [H Hs].
  rewrite Forall_forall in H. intros [->|Hb]%elem_of_cons [->|Hc]%elem_of_cons; [by left|right; auto|right; apply disj_sym; auto|auto].
Qed.

Lemma live_perm h L al al' : al ≡ₚ al' -> heap_ok h L al -> heap_ok h L al'.
Proof.
  intros HP Hok. split; try apply Hok.
  - rewrite <-HP. apply Hok.
  - intros b c Hb Hc. rewrite <-HP in Hc. by apply (ok_disj _ _ _ Hok).
  - pose proof (ok_live_disj _ _ _ Hok) as H. clear Hok. induction HP as [|b l l' HP IH|b c l|l l' l'' _ IH _ IH'].
    + done.
    + apply StronglySorted_cons in H as [H Hs]. apply StronglySorted_cons. split; [by rewrite <-HP|auto].
    + rewrite !StronglySorted_cons, !Forall_cons in *. pose proof (disj_sym c b). tauto.
    + auto.
  - intros b Hb. rewrite <-HP in Hb. by apply (ok_sizes _ _ _ Hok).
Qed.

(** A store in the bytes of a live block after its header. *)
Lemma live_store h L al b x v : heap_ok h L al -> b ∈ al -> b.1 + 8 <= x < b.1 + 8 * b.2 ->
  heap_ok {| h_mem := store8 (h_mem h) x v; h_freep := h_freep h |} L al.
Proof.
  intros Hok Hb Hx. pose proof (ok_live _ _ _ Hok) as Hl. rewrite Forall_forall in Hl.
  assert (forall a, a + 8 <= x \/ x < a -> s_size (store8 (h_mem h) x v) a = s_size (h_mem h) a /\
    s_ptr (store8 (h_mem h) x v) a = s_ptr (h_mem h) a) as Hw.
  { intros a Ha. split; apply load32_ext; intros; apply load8_store8_ne; lia. }
  split; cbn [h_mem h_freep]; try apply Hok.
  - eapply chain_ext, Hok. intros c Hc. apply Hw. pose proof (ok_disj _ _ _ Hok c b Hc Hb) as D.
    unfold disj, top in D. destruct (Hl b Hb) as (? & ? & _). lia.
  - intros c Hc. rewrite <-(ok_sizes _ _ _ Hok c Hc). apply (Hw c.1).
    destruct (live_pair _ b c (ok_live_disj _ _ _ Hok) Hb Hc) as [Ebc|D]; [rewrite <-Ebc; lia|].
    unfold disj, top in D. destruct (Hl b Hb) as (? & ? & _), (Hl c Hc) as (? & ? & _). lia.
Qed.

(** A program: its heap, the areas sbrk has given it, the pointers it holds with
    the sizes it asked for, and what it last stored at each address. *)
Record client := { c_heap : heap; c_areas : list block; c_live : list (Z * Z); c_img : Z -> Z }.

Definition block_of_ptr (pn : Z * Z) : block := (pn.1 - 8, nunits pn.2).

(** What sbrk promises: memory above [base] it has not given before. *)
Definition new_area (areas : list block) (b : block) : Prop :=
  wf b /\ forall x, b.1 <= x < b.1 + 8 * b.2 -> ~ covers areas x.

Inductive client_step : client -> client -> Prop :=
| step_malloc c n core fuel r h' rest :
    0 <= n < 2 ^ 31 - 16 -> core = -1 \/ new_area (c_areas c) (core, core_units (nunits n)) ->
    malloc base fuel (c_heap c) n [core] = Some (r, h', rest) ->
    client_step c {| c_heap := h';
      c_areas := if (core =? -1) || bool_decide (rest = [core]) then c_areas c else (core, core_units (nunits n)) :: c_areas c;
      c_live := if r =? 0 then c_live c else (r, n) :: c_live c;
      c_img := fun x => if negb (r =? 0) && (r <=? x) && (x <? r + n) then load8 (h_mem h') x else c_img c x |}
| step_free c l1 p n l2 fuel h' :
    c_live c = l1 ++ (p, n) :: l2 -> free fuel (c_heap c) p = Some h' ->
    client_step c {| c_heap := h'; c_areas := c_areas c; c_live := l1 ++ l2; c_img := c_img c |}
| step_store c p n i v :
    (p, n) ∈ c_live c -> 0 <= i < n -> 0 <= v < 256 ->
    client_step c {| c_heap := {| h_mem := store8 (h_mem (c_heap c)) (p + i) v; h_freep := h_freep (c_heap c) |};
      c_areas := c_areas c; c_live := c_live c;
      c_img := fun x => if x =? p + i then v else c_img c x |}.

Definition client_init (c : client) : Prop := h_freep (c_heap c) = 0 /\ c_areas c = [] /\ c_live c = [].

Definition client_inv (c : client) : Prop := exists L,
  heap_inv (c_heap c) L (block_of_ptr <$> c_live c) /\
  (forall x, covers (c_areas c) x <-> covers L x \/ covers (block_of_ptr <$> c_live c) x) /\
  (forall p n, (p, n) ∈ c_live c -> 0 <= n < 2 ^ 31) /\
  (forall p n x, (p, n) ∈ c_live c -> p <= x < p + n -> load8 (h_mem (c_heap c)) x = c_img c x).

Lemma covers_cons b l x : covers (b :: l) x <-> b.1 <= x < b.1 + 8 * b.2 \/ covers l x.
Proof. apply exists_elem_cons. Qed.

Lemma covers_perm l l' x : l ≡ₚ l' -> covers l x <-> covers l' x.
Proof. intros H. unfold covers. by setoid_rewrite H. Qed.

Lemma heap_inv_L h L al b : heap_inv h L al -> b ∈ L -> b = (base, 0) \/ wf b.
Proof. intros [(_ & -> & _)|Hok]; [intros ->%list_elem_of_singleton; by left|by eapply ok_L]. Qed.

Lemma heap_inv_al h L al b : heap_inv h L al -> b ∈ al -> wf b.
Proof.
  intros [(_ & _ & ->)|Hok]; [by intros ?%elem_of_nil|]. pose proof (ok_live _ _ _ Hok) as H.
  rewrite Forall_forall in H. apply H.
Qed.

Lemma new_area_fresh areas h L al b : heap_inv h L al -> (forall x, covers areas x <-> covers L x \/ covers al x) ->
  new_area areas b -> fresh L al b.
Proof.
  intros Hinv Hcov [Hw Hn]. pose proof Hw as (Hw1 & Hw2 & _).
  assert (forall c, wf c -> c ∈ L \/ c ∈ al -> disj b c) as Hd.
  { intros c (Hc1 & Hc2 & _) Hin. unfold disj, top.
    assert (~ (b.1 <= Z.max b.1 c.1 < b.1 + 8 * b.2 /\ c.1 <= Z.max b.1 c.1 < c.1 + 8 * c.2)) as H; [|lia].
    intros [Hb Hc]. apply (Hn _ Hb), Hcov. destruct Hin; [left|right]; by exists c. }
  split; [done|]. split; intros c Hc.
  - apply disj_sym. destruct (heap_inv_L _ _ _ c Hinv Hc) as [->|]; [unfold disj, top; cbn; lia|auto].
  - apply Hd; [by eapply heap_inv_al|by right].
Qed.

Lemma payload_in pn x : 0 <= pn.2 < 2 ^ 31 -> pn.1 <= x < pn.1 + pn.2 ->
  (block_of_ptr pn).1 + 8 <= x < (block_of_ptr pn).1 + 8 * (block_of_ptr pn).2.
Proof. intros Hn Hx. destruct (nunits_spec _ Hn) as [H1 H2]. cbn. lia. Qed.

Lemma blocks_out live l1 pn l2 : live = l1 ++ pn :: l2 ->
  block_of_ptr <$> live ≡ₚ block_of_ptr pn :: (block_of_ptr <$> (l1 ++ l2)).
Proof. intros ->. rewrite !fmap_app. cbn. by rewrite Permutation_middle. Qed.

Lemma heap_inv_free c l1 p n l2 fuel h' : client_inv c -> c_live c = l1 ++ (p, n) :: l2 ->
  free fuel (c_heap c) p = Some h' ->
  client_inv {| c_heap := h'; c_areas := c_areas c; c_live := l1 ++ l2; c_img := c_img c |}.
Proof.
  intros (L & Hinv & Hcov & Hsz & Himg) El Hfree.
  pose proof (blocks_out _ _ _ _ El) as HP.
  assert (heap_ok (c_heap c) L (block_of_ptr <$> c_live c)) as Hok.
  { destruct Hinv as [(_ & _ & Hn)|]; [|done]. rewrite Hn in HP. by apply Permutation_nil_cons in HP. }
  apply (live_perm _ _ _ _ HP) in Hok.
  apply free_mono with (fuel' := Nat.max fuel (length L)) in Hfree; [|lia].
  destruct (free_ok _ _ _ _ _ (Nat.max fuel (length L)) Hok) as (h2 & L' & Hf & Hok' & Hsame & _ & _ & Hcov'); [lia|].
  cbn [fst snd] in Hf, Hcov'. replace (p - 8 + 8) with p in Hf by lia. rewrite Hf in Hfree. simplify_eq.
  assert (forall q k, (q, k) ∈ l1 ++ l2 -> (q, k) ∈ c_live c) as Hsub.
  { intros q k. rewrite El, !elem_of_app, elem_of_cons. tauto. }
  exists L'. cbn [c_heap c_areas c_live c_img]. split; [by right|]. split; [|split].
  - intros x. rewrite Hcov, (covers_perm _ _ x HP), covers_cons, Hcov'. cbn. tauto.
  - intros q k Hq. by apply (Hsz q), Hsub.
  - intros q k x Hq Hx. rewrite <-(Himg q k x) by auto. pose proof (payload_in (q, k) x (Hsz q k (Hsub _ _ Hq)) Hx) as Hp.
    apply (Hsame (block_of_ptr (q, k))); [by apply list_elem_of_fmap_2|lia].
Qed.

Lemma inv_store c p n i v : client_inv c -> (p, n) ∈ c_live c -> 0 <= i < n -> 0 <= v < 256 ->
  client_inv {| c_heap := {| h_mem := store8 (h_mem (c_heap c)) (p + i) v; h_freep := h_freep (c_heap c) |};
      c_areas := c_areas c; c_live := c_live c; c_img := fun x => if x =? p + i then v else c_img c x |}.
Proof.
  intros (L & Hinv & Hcov & Hsz & Himg) Hin Hi Hv.
  pose proof (list_elem_of_fmap_2 block_of_ptr _ _ Hin) as Hb.
  exists L. cbn [c_heap c_areas c_live c_img h_mem]. split; [|split; [done|split; [done|]]].
  - right. destruct Hinv as [(_ & _ & Hn)|Hok]; [rewrite Hn in Hb; by apply elem_of_nil in Hb|].
    apply (live_store _ _ _ (block_of_ptr (p, n))); [done|done|]. apply payload_in; [by apply (Hsz p)|cbn; lia].
  - intros q k x Hq Hx. rewrite load8_store8. destruct (Z.eqb_spec x (p + i)) as [->|Hne].
    + rewrite decide_True by done. apply Z.mod_small. lia.
    + rewrite decide_False by congruence. by apply (Himg q k).
Qed.

(** The state after a block has been handed out. *)
Lemma inv_handed c h' L' areas a n : heap_ok h' L' ((a, nunits n) :: (block_of_ptr <$> c_live c)) -> 0 <= n < 2 ^ 31 ->
  same_live (block_of_ptr <$> c_live c) (h_mem (c_heap c)) (h_mem h') ->
  (forall x, covers areas x <-> (covers L' x \/ a <= x < a + 8 * nunits n) \/ covers (block_of_ptr <$> c_live c) x) ->
  (forall p k, (p, k) ∈ c_live c -> 0 <= k < 2 ^ 31) ->
  (forall p k x, (p, k) ∈ c_live c -> p <= x < p + k -> load8 (h_mem (c_heap c)) x = c_img c x) ->
  client_inv {| c_heap := h'; c_areas := areas;
      c_live := if a + 8 =? 0 then c_live c else (a + 8, n) :: c_live c;
      c_img := fun x => if negb (a + 8 =? 0) && (a + 8 <=? x) && (x <? a + 8 + n) then load8 (h_mem h') x else c_img c x |}.
Proof.
  intros Hok Hn Hsame Hcov Hsz Himg. pose proof (ok_live _ _ _ Hok) as [(Ha & _) _]%Forall_cons. cbn in Ha.
  destruct (Z.eqb_spec (a + 8) 0) as [|_]; [lia|]. exists L'. cbn [c_heap c_areas c_live c_img].
  assert (block_of_ptr (a + 8, n) = (a, nunits n)) as Eb by (unfold block_of_ptr; cbn; f_equal; lia). rewrite fmap_cons, Eb.
  split; [by right|]. split; [|split].
  - intros x. rewrite Hcov, covers_cons. cbn. tauto.
  - intros q k [Hq|Hq]%elem_of_cons; [by simplify_eq|by apply (Hsz q)].
  - intros q k x Hq Hx. cbn [negb andb]. destruct (Z.leb_spec (a + 8) x); [destruct (Z.ltb_spec x (a + 8 + n)); [done|]|];
      (apply elem_of_cons in Hq as [Hq|Hq]; [simplify_eq; lia|]; cbn; rewrite <-(Himg q k x) by done;
       pose proof (payload_in (q, k) x (Hsz q k Hq) Hx); apply (Hsame (block_of_ptr (q, k)));
       [by apply list_elem_of_fmap_2|lia]).
Qed.

Lemma inv_malloc c n core fuel r h' rest : base + 8 <= 2 ^ 32 -> client_inv c -> 0 <= n < 2 ^ 31 ->
  core = -1 \/ new_area (c_areas c) (core, core_units (nunits n)) ->
  malloc base fuel (c_heap c) n [core] = Some (r, h', rest) ->
  client_inv {| c_heap := h';
      c_areas := if (core =? -1) || bool_decide (rest = [core]) then c_areas c else (core, core_units (nunits n)) :: c_areas c;
      c_live := if r =? 0 then c_live c else (r, n) :: c_live c;
      c_img := fun x => if negb (r =? 0) && (r <=? x) && (x <? r + n) then load8 (h_mem h') x else c_img c x |}.
Proof.
  intros Hb (L & Hinv & Hcov & Hsz & Himg) Hn Hcore Hm.
  assert (core = -1 \/ fresh L (block_of_ptr <$> c_live c) (core, core_units (nunits n))) as Hfresh.
  { destruct Hcore as [|Hcore]; [by left|right]. by eapply new_area_fresh. }
  unfold malloc in Hm. apply malloc_loop_mono with (fuel' := Nat.max fuel (2 * length L + 3)) in Hm; [|lia].
  destruct (malloc_ok _ _ _ n core [] (Nat.max fuel (2 * length L + 3)) Hb Hinv Hn Hfresh)
    as (r0 & h0 & rest0 & L' & Hm0 & Hsame & Hcases); [lia|].
  unfold malloc in Hm0. rewrite Hm0 in Hm. simplify_eq. clear Hm0.
  destruct Hcases as [(a & _ & -> & -> & Hok & HC)|[(a & _ & -> & -> & Hc1 & Hok & HC)|(_ & -> & -> & -> & -> & Hok)]].
  - rewrite (bool_decide_true ([core] = [core])), orb_true_r by done. apply (inv_handed _ _ L'); try done.
    intros x. rewrite Hcov, HC. done.
  - rewrite bool_decide_false by done. destruct (Z.eqb_spec core (-1)) as [|_]; [done|]. cbn [orb].
    apply (inv_handed _ _ L'); try done. intros x. rewrite covers_cons, Hcov, <-HC. cbn. tauto.
  - exists L. cbn [c_heap c_areas c_live c_img Z.eqb Pos.eqb orb negb andb]. split; [by right|]. split; [done|]. split; [done|].
    intros q k x Hq Hx. rewrite <-(Himg q k x) by done. pose proof (payload_in (q, k) x (Hsz q k Hq) Hx).
    apply (Hsame (block_of_ptr (q, k))); [by apply list_elem_of_fmap_2|lia].
Qed.

Lemma client_inv_reachable c0 c : base + 8 <= 2 ^ 32 -> client_init c0 -> rtc client_step c0 c -> client_inv c.
Proof.
  intros Hb Hi Hr. assert (client_inv c0) as H0.
  { destruct Hi as (Hf & Ha & Hl). exists [(base, 0)]. rewrite Ha, Hl. split; [by left|]. split; [|split].
    - intros x. unfold covers. split; [by intros (b & ?%elem_of_nil & _)|].
      intros [(b & ->%list_elem_of_singleton & Hx)|(b & ?%elem_of_nil & _)]; [cbn in Hx; lia|done].
    - by intros p n ?%elem_of_nil.
    - by intros p n x ?%elem_of_nil. }
  clear Hi. induction Hr as [|c c1 c2 Hs _ IH]; [done|]. apply IH. clear IH. destruct Hs.
  - eapply inv_malloc; try done. lia.
  - by eapply heap_inv_free.
  - by eapply inv_store.
Qed.

(** Blocks that do not touch and cover a range have one block that covers it. *)
Lemma whole_area L a k : StronglySorted apart L -> 0 < k ->
  (forall x, a <= x < a + 8 * k -> covers L x) -> exists b, b ∈ L /\ k <= b.2.
Proof.
  intros Hs Hk Hcov. destruct (Hcov a) as (b & Hb & Hx); [lia|]. exists b. split; [done|].
  destruct (decide (k <= b.2)) as [|Hlt]; [done|exfalso].
  destruct (Hcov (b.1 + 8 * b.2)) as (d & Hd & Hy); [lia|].
  apply list_elem_of_split in Hb as (l1 & l2 & ->). apply sorted_split in Hs as (H1 & H2 & _).
  apply elem_of_app in Hd as [Hd|[->|Hd]%elem_of_cons]; [|lia|].
  - apply H1 in Hd. unfold apart, top in Hd. lia.
  - apply H2 in Hd. unfold apart, top in Hd. lia.
Qed.

Lemma live_apart c i j p n q k : client_inv c -> c_live c !! i = Some (p, n) -> c_live c !! j = Some (q, k) -> i <> j ->
  p + n <= q - 8 \/ q + k <= p - 8.
Proof.
  intros (L & Hinv & _ & Hsz & _) Hi Hj Hij. set (al := block_of_ptr <$> c_live c) in *.
  assert (StronglySorted disj al) as Hs by (destruct Hinv as [(_ & _ & ->)|Hok]; [constructor|apply Hok]).
  assert (forall i j, (i < j)%nat -> forall b d, al !! i = Some b -> al !! j = Some d -> disj b d) as Hd.
  { clear -Hs. induction Hs as [|b l Hs IH Hf]; [done|]. intros i j Hij b' d. rewrite Forall_forall in Hf.
    destruct j as [|j]; [lia|]. destruct i as [|i]; cbn; intros Hb Hd; [simplify_eq; by eapply Hf, list_elem_of_lookup_2|].
    apply (IH i j); [lia|done|done]. }
  assert (al !! i = Some (block_of_ptr (p, n)) /\ al !! j = Some (block_of_ptr (q, k))) as [Hbi Hbj].
  { unfold al. by rewrite !list_lookup_fmap, Hi, Hj. }
  assert (disj (block_of_ptr (p, n)) (block_of_ptr (q, k))) as D.
  { destruct (decide (i < j)%nat); [by apply (Hd i j)|apply disj_sym, (Hd j i); [lia|done|done]]. }
  destruct (nunits_spec n) as [Hn1 Hn2]; [by eapply (Hsz p), list_elem_of_lookup_2|].
  destruct (nunits_spec k) as [Hk1 Hk2]; [by eapply (Hsz q), list_elem_of_lookup_2|].
  unfold disj, top in D. cbn in D. lia.
Qed.

(** [k] units from [a] on are in the areas and in no block the program holds,
    headers included. *)
Definition unused (c : client) (a k : Z) : Prop :=
  forall x, a <= x < a + 8 * k -> covers (c_areas c) x /\ ~ covers (block_of_ptr <$> c_live c) x.

Lemma malloc_returns c n core : base + 8 <= 2 ^ 32 -> client_inv c -> 0 <= n < 2 ^ 31 ->
  core = -1 \/ new_area (c_areas c) (core, core_units (nunits n)) ->
  exists fuel r h' rest, malloc base fuel (c_heap c) n [core] = Some (r, h', rest) /\ (core <> -1 -> r <> 0) /\
    forall a k, unused c a k -> nunits n <= k -> r <> 0.
Proof.
  intros Hb (L & Hinv & Hcov & _) Hn Hcore.
  assert (core = -1 \/ fresh L (block_of_ptr <$> c_live c) (core, core_units (nunits n))) as Hfresh.
  { destruct Hcore as [|Hcore]; [by left|right]. by eapply new_area_fresh. }
  destruct (nunits_spec n Hn) as [_ [Hnu _]]. exists (2 * length L + 3)%nat.
  destruct (malloc_ok _ _ _ n core [] _ Hb Hinv Hn Hfresh (le_n _)) as (r & h' & rest & L' & Hm & _ & Hc).
  exists r, h', rest. split; [exact Hm|].
  destruct Hc as [(a & _ & -> & _ & Hok & _)|[(a & _ & -> & _ & _ & Hok & _)|(Hall & -> & _ & -> & _ & Hok)]].
  1, 2: pose proof (ok_live _ _ _ Hok) as [(Ha & _) _]%Forall_cons; cbn in Ha; split; intros; lia.
  split; [done|]. intros a k Hun Hle.
  destruct (whole_area L a k) as (b & HbL & Hbk); [apply Hok|lia| |apply Hall in HbL; lia].
  intros x Hx. destruct (Hun x Hx) as [Hc Hnl]. by apply Hcov in Hc as [Hc|Hc].
Qed.
End Heap.

(** The sizes at the top of the range wrap around: malloc takes them for 0 and
    returns a block with no room at all. *)
Lemma malloc_huge_wraps base fuel h nbytes cores : 2 ^ 32 - 7 <= nbytes < 2 ^ 32 ->
  malloc base fuel h nbytes cores = malloc base fuel h 0 cores.
Proof.
  intros Hn. unfold malloc. f_equal. unfold nunits, u32.
  replace ((nbytes + 8 - 1) mod 2 ^ 32) with (nbytes + 8 - 1 - 2 ^ 32); [|apply Zmod_unique with 1; lia].
  change ((0 + 8 - 1) mod 2 ^ 32) with 7. rewrite Z.div_small by lia. done.
Qed.

(** C9. malloc and free implement the blocks a program expects of them.  Whatever
    sequence of malloc of less than [2 ^ 31 - 16] bytes, free of a pointer it holds
    and stores within the sizes it asked for a program runs, on the areas sbrk gives
    it: what it holds does not overlap, headers included, and is in those areas;
    every byte of it is what the program last stored there; malloc of such a size
    returns, and not 0 when sbrk succeeds or when some range of the areas that is
    long enough is in no block held, so that blocks freed are joined again; and free
    of any pointer held returns.  Beyond these sizes: malloc of one of the seven
    largest ones is malloc of 0. *)
Theorem malloc_refines_blocks base c0 c : 0 < base -> base + 8 <= 2 ^ 32 -> client_init c0 -> rtc (client_step base) c0 c ->
  (forall i j p n q k, c_live c !! i = Some (p, n) -> c_live c !! j = Some (q, k) -> i <> j ->
     p + n <= q - 8 \/ q + k <= p - 8) /\
  (forall p n x, (p, n) ∈ c_live c -> p <= x < p + n ->
     covers (c_areas c) x /\ load8 (h_mem (c_heap c)) x = c_img c x) /\
  (forall n core, 0 <= n < 2 ^ 31 - 16 -> core = -1 \/ new_area base (c_areas c) (core, core_units (nunits n)) ->
     exists fuel r h' rest, malloc base fuel (c_heap c) n [core] = Some (r, h', rest) /\ (core <> -1 -> r <> 0) /\
       forall a k, unused c a k -> nunits n <= k -> r <> 0) /\
  (forall p n, (p, n) ∈ c_live c -> exists fuel h', free fuel (c_heap c) p = Some h') /\
  (forall fuel n cores, 2 ^ 32 - 7 <= n < 2 ^ 32 -> malloc base fuel (c_heap c) n cores = malloc base fuel (c_heap c) 0 cores).
Proof.
  intros Hb Hb' Hi Hr. pose proof (client_inv_reachable base Hb c0 c Hb' Hi Hr) as Hinv.
  split; [by intros; eapply live_apart|]. split; [|split; [|split; [|by intros; apply malloc_huge_wraps]]].
  - intros p n x Hp Hx. destruct Hinv as (L & _ & Hcov & Hsz & Himg). split; [|by eapply Himg].
    apply Hcov. right. pose proof (payload_in (p, n) x (Hsz p n Hp) Hx).
    exists (block_of_ptr (p, n)). split; [by apply list_elem_of_fmap_2|lia].
  - intros n core Hn. apply malloc_returns; [done|done|done|lia].
  - intros p n Hp. destruct Hinv as (L & Hinv & _). apply list_elem_of_split in Hp as (l1 & l2 & El).
    pose proof (blocks_out _ _ _ _ El) as HP.
    destruct Hinv as [(_ & _ & Hn)|Hok]; [rewrite Hn in HP; by apply Permutation_nil_cons in HP|].
    apply (live_perm _ _ _ _ _ HP) in Hok. destruct (free_ok _ Hb _ _ _ _ _ (length L) Hok (le_n _)) as (h' & _ & Hf & _).
    cbn [fst] in Hf. replace (p - 8 + 8) with p in Hf by lia. eauto.
Qed.

Module UmallocWitness.

Definition start : client :=
  {| c_heap := {| h_mem := ∅; h_freep := 0 |}; c_areas := []; c_live := []; c_img := fun _ => 0 |}.

(** A program that has asked for 20 bytes and got them from a first area. *)
Lemma start_steps : exists c, rtc (client_step 4096) start c /\ c_live c = [(98280, 20)] /\ c_areas c = [(65536, 4096)].
Proof.
  eexists. split; [apply rtc_once, (step_malloc 4096 start 20 65536 10)|].
  - lia.
  - right. change (core_units (nunits 20)) with 4096. split; [unfold wf; cbn; lia|]. by intros x _ (b & ?%elem_of_nil & _).
  - vm_compute. reflexivity.
  - split; reflexivity.
Qed.

Lemma malloc_refines_blocks_witness : exists c, c_live c = [(98280, 20)] /\
  (forall p n x, (p, n) ∈ c_live c -> p <= x < p + n -> covers (c_areas c) x /\ load8 (h_mem (c_heap c)) x = c_img c x) /\
  exists fuel h', free fuel (c_heap c) 98280 = Some h'.
Proof.
  destruct start_steps as (c & Hr & Hl & _). exists c. split; [exact Hl|].
  destruct (malloc_refines_blocks 4096 start c ltac:(lia) ltac:(lia) (conj eq_refl (conj eq_refl eq_refl)) Hr) as (_ & H1 & _ & H2 & _).
  split; [exact H1|]. apply (H2 98280 20). rewrite Hl. apply list_elem_of_here.
Defined.

End UmallocWitness.
