(* ===== verification/Shell.v ===== *)
(** The shell, src/src/sh.c: the parser of command lines, with the buffer it cuts
    the arguments out of.

    A position is an index into the buffer.  The parser's state is the position
    [*ps]; the line [line] is what is between the buffer's start and [es].  An
    argument is the pair of the positions [argv[i]] and [eargv[i]].  A panic
    ends the process that parses.

    The parser is compared with a lexer that splits the line by classes of
    characters and a grammar on the tokens. *)

From stdpp Require Import base gmap list strings.
From Stdlib Require Import ZArith Lia.
From S2P Require Import Prelude Fsys.

Definition whitespace : list Z := [32; 9; 13; 10; 11].
Definition symbols : list Z := [60; 124; 62; 38; 59; 40; 41].
Definition LT : Z := 60.
Definition BAR : Z := 124.
Definition GT : Z := 62.
Definition AMP : Z := 38.
Definition SEMI : Z := 59.
Definition LPAREN : Z := 40.
Definition RPAREN : Z := 41.
Definition PLUS : Z := 43.
Definition WORD : Z := 97.
Definition MAXARGS : nat := 10.

Inductive cmd :=
| EXEC (argv : list (nat * nat))
| REDIR (c : cmd) (file efile : nat) (mode fd : Z)
| PIPE (left right : cmd)
| LIST (left right : cmd)
| BACK (c : cmd).

(** [strchr] as a test, on a set without NUL. *)
Definition in_set (set : list Z) (c : Z) : bool := bool_decide (c ∈ set).

Definition is_ws : Z -> bool := in_set whitespace.
Definition is_wordchar (c : Z) : bool := negb (is_ws c) && negb (in_set symbols c).

(** The first position from [s] on that is [es] or whose character fails [f]. *)
Fixpoint scan (f : Z -> bool) (l : list Z) (s : nat) : nat :=
  match l with
  | [] => s
  | c :: l => if f c then scan f l (S s) else s
  end.

Section Parse.
Context (line : list Z).

Definition at_ (s : nat) : Z := default 0 (line !! s).

Definition skip_ws (s : nat) : nat := scan is_ws (drop s line) s.

(** The kind of the token at [s] and its end. *)
Definition token_at (s : nat) : Z * nat :=
  let c := at_ s in
  if c =? 0 then (0, s)
  else if in_set [BAR; LPAREN; RPAREN; SEMI; AMP; LT] c then (c, S s)
  else if c =? GT then
    if at_ (S s) =? GT then (PLUS, S (S s)) else (GT, S s)
  else (WORD, scan is_wordchar (drop s line) s).

Definition gettoken : M nat (Z * (nat * nat)) := fun s =>
  let q := skip_ws s in
  let '(tok, eq) := token_at q in
  Ret (tok, (q, eq)) (skip_ws eq).

Definition peek (toks : list Z) : M nat bool := fun s =>
  let s := skip_ws s in
  Ret (negb (at_ s =? 0) && in_set toks (at_ s)) s.

Fixpoint parseredirs (fuel : nat) (c : cmd) : M nat cmd :=
  match fuel with
  | O => no_fuel
  | S fuel =>
      b <- peek [LT; GT] ;;
      if b then
        t <- gettoken ;;
        f <- gettoken ;;
        if negb (f.1 =? WORD) then panic "missing file for redirection"
        else
          let '(q, eq) := f.2 in
          let c :=
            if t.1 =? LT then REDIR c q eq O_RDONLY 0
            else if t.1 =? GT then REDIR c q eq (Z.lor O_WRONLY O_CREATE) 1
            else if t.1 =? PLUS then REDIR c q eq (Z.lor O_WRONLY O_CREATE) 1
            else c in
          parseredirs fuel c
      else ret c
  end.

(** The assignments to [argv[argc]] and [eargv[argc]] of the command that the
    redirections in [ret] are around. *)
Fixpoint add_arg (r : cmd) (a : nat * nat) : cmd :=
  match r with
  | EXEC argv => EXEC (argv ++ [a])
  | REDIR c q eq mode fd => REDIR (add_arg c a) q eq mode fd
  | c => c
  end.

(** The loop of parseexec over the arguments. *)
Fixpoint parseargs (fuel : nat) (argc : nat) (r : cmd) : M nat cmd :=
  match fuel with
  | O => no_fuel
  | S fuel =>
      b <- peek [BAR; RPAREN; AMP; SEMI] ;;
      if b then ret r
      else
        t <- gettoken ;;
        if t.1 =? 0 then ret r
        else if negb (t.1 =? WORD) then panic "syntax"
        else
          let r := add_arg r t.2 in
          let argc := S argc in
          if (MAXARGS <=? argc)%nat then panic "too many args"
          else
            r <- parseredirs fuel r ;;
            parseargs fuel argc r
  end.

(** The loop of parseline over the ampersands. *)
Fixpoint parseback (fuel : nat) (c : cmd) : M nat cmd :=
  match fuel with
  | O => no_fuel
  | S fuel =>
      b <- peek [AMP] ;;
      if b then gettoken ;;; parseback fuel (BACK c) else ret c
  end.

Fixpoint parseline (fuel : nat) : M nat cmd :=
  match fuel with
  | O => no_fuel
  | S fuel =>
      c <- parsepipe fuel ;;
      c <- parseback fuel c ;;
      b <- peek [SEMI] ;;
      if b then
        gettoken ;;;
        r <- parseline fuel ;;
        ret (LIST c r)
      else ret c
  end
with parsepipe (fuel : nat) : M nat cmd :=
  match fuel with
  | O => no_fuel
  | S fuel =>
      c <- parseexec fuel ;;
      b <- peek [BAR] ;;
      if b then
        gettoken ;;;
        r <- parsepipe fuel ;;
        ret (PIPE c r)
      else ret c
  end
with parseexec (fuel : nat) : M nat cmd :=
  match fuel with
  | O => no_fuel
  | S fuel =>
      b <- peek [LPAREN] ;;
      if b then parseblock fuel
      else
        r <- parseredirs fuel (EXEC []) ;;
        parseargs fuel 0 r
  end
with parseblock (fuel : nat) : M nat cmd :=
  match fuel with
  | O => no_fuel
  | S fuel =>
      b <- peek [LPAREN] ;;
      if negb b then panic "parseblock"
      else
        gettoken ;;;
        c <- parseline fuel ;;
        b <- peek [RPAREN] ;;
        if negb b then panic "syntax - missing )"
        else
          gettoken ;;;
          parseredirs fuel c
  end.

End Parse.

(** [*e = 0] for every end [e] in the command. *)
Fixpoint nulterminate (c : cmd) (buf : list Z) : list Z :=
  match c with
  | EXEC argv => fold_left (fun buf a => <[a.2 := 0]> buf) argv buf
  | REDIR c _ eq _ _ => <[eq := 0]> (nulterminate c buf)
  | PIPE l r => nulterminate r (nulterminate l buf)
  | LIST l r => nulterminate r (nulterminate l buf)
  | BACK c => nulterminate c buf
  end.

Definition strlen (buf : list Z) : nat := scan (fun c => negb (c =? 0)) buf 0.

(** The command and the buffer after it has been cut. *)
Definition parsecmd (fuel : nat) (buf : list Z) : outcome nat (cmd * list Z) :=
  let es := strlen buf in
  let line := take es buf in
  (c <- parseline line fuel ;;
   peek line [] ;;;
   s <- gets id ;;
   if negb (s =? es)%nat then panic "syntax"
   else ret (c, nulterminate c buf)) O.

(** ** The lexer and the grammar *)

(** [Sym PLUS] stands for [>>]. *)
Inductive token := Word (u : list Z) | Sym (c : Z).

Definition flush (cur : list Z) : list token := match cur with [] => [] | _ => [Word cur] end.

(** The tokens of [l] after the characters [cur] of a word. *)
Fixpoint lex (cur l : list Z) : list token :=
  match l with
  | [] => flush cur
  | c :: l =>
      if is_ws c then flush cur ++ lex [] l
      else if c =? GT then
        flush cur ++
        match l with
        | d :: l' => if d =? GT then Sym PLUS :: lex [] l' else Sym GT :: lex [] l
        | [] => [Sym GT]
        end
      else if in_set symbols c then flush cur ++ Sym c :: lex [] l
      else lex (cur ++ [c]) l
  end.

(** A command with the texts of its words. *)
Inductive tree :=
| TExec (args : list (list Z))
| TRedir (t : tree) (file : list Z) (mode fd : Z)
| TPipe (l r : tree)
| TList (l r : tree)
| TBack (t : tree).

(** What is between the symbols: words, and redirections with their files. *)
Inductive item := IWord (u : list Z) | IRedir (op : Z) (u : list Z).

Definition is_redir (op : Z) : bool := in_set [LT; GT; PLUS] op.

Definition redir_tree (op : Z) (u : list Z) (t : tree) : tree :=
  if op =? LT then TRedir t u O_RDONLY 0 else TRedir t u (Z.lor O_WRONLY O_CREATE) 1.

Definition item_tokens (i : item) : list token :=
  match i with IWord u => [Word u] | IRedir op u => [Sym op; Word u] end.

Definition item_ok (i : item) : Prop := match i with IWord _ => True | IRedir op _ => is_redir op = true end.

Definition words (its : list item) : list (list Z) :=
  its ≫= (fun i => match i with IWord u => [u] | IRedir _ _ => [] end).

(** The redirections of [its] around [t], the last one outermost. *)
Definition wrap (its : list item) (t : tree) : tree :=
  fold_left (fun t i => match i with IWord _ => t | IRedir op u => redir_tree op u t end) its t.

Inductive cat := Line | Pipe | Exec.

Inductive derives : cat -> list token -> tree -> Prop :=
| d_line ts t n : derives Pipe ts t -> derives Line (ts ++ replicate n (Sym AMP)) (Nat.iter n TBack t)
| d_list ts t n ts2 t2 : derives Pipe ts t -> derives Line ts2 t2 ->
    derives Line (ts ++ replicate n (Sym AMP) ++ Sym SEMI :: ts2) (TList (Nat.iter n TBack t) t2)
| d_single ts t : derives Exec ts t -> derives Pipe ts t
| d_pipe ts t ts2 t2 : derives Exec ts t -> derives Pipe ts2 t2 -> derives Pipe (ts ++ Sym BAR :: ts2) (TPipe t t2)
| d_exec its : Forall item_ok its -> (length (words its) < MAXARGS)%nat ->
    derives Exec (its ≫= item_tokens) (wrap its (TExec (words its)))
| d_block ts t its : derives Line ts t -> Forall item_ok its -> words its = [] ->
    derives Exec (Sym LPAREN :: ts ++ Sym RPAREN :: (its ≫= item_tokens)) (wrap its t).

(** ** The tokens at a position *)

Lemma in_set_true set c : in_set set c = true <-> c ∈ set.
Proof. apply bool_decide_eq_true. Qed.

Lemma scan_spec f l : forall s, exists n, scan f l s = (s + n)%nat /\ (n <= length l)%nat /\
  Forall (fun c => f c = true) (take n l) /\ (forall c l', drop n l = c :: l' -> f c = false).
Proof.
  induction l as [|c l IH]; intros s; cbn.
  - exists O. split; [lia|]. split; [lia|]. split; [constructor|done].
  - destruct (f c) eqn:E.
    + destruct (IH (S s)) as (n & -> & Hn & Ht & Hd). exists (S n). cbn. split; [lia|]. split; [lia|]. split; [by constructor|done].
    + exists O. split; [lia|]. split; [lia|]. split; [constructor|]. intros d l' [= -> ->]. done.
Qed.

Lemma lex_ws w l : Forall (fun c => is_ws c = true) w -> lex [] (w ++ l) = lex [] l.
Proof. induction 1 as [|c w Hc _ IH]; cbn; [done|]. by rewrite Hc. Qed.

Lemma wordchar_symbols c : is_wordchar c = true -> is_ws c = false /\ (c =? GT) = false /\ in_set symbols c = false.
Proof.
  unfold is_wordchar. intros [H1%negb_true_iff H2%negb_true_iff]%andb_true_iff. split; [done|]. split; [|done].
  destruct (Z.eqb_spec c GT) as [->|]; [done|done].
Qed.

Lemma lex_word w : forall cur l, Forall (fun c => is_wordchar c = true) w ->
  (forall c l', l = c :: l' -> is_wordchar c = false) -> lex cur (w ++ l) = flush (cur ++ w) ++ lex [] l.
Proof.
  induction w as [|c w IH]; intros cur l Hw Hl; cbn.
  - rewrite (right_id_L [] (++)). destruct l as [|c l]; cbn; [by rewrite (right_id_L [] (++))|].
    specialize (Hl c l eq_refl). unfold is_wordchar in Hl. apply andb_false_iff in Hl.
    destruct (is_ws c); [done|]. cbn in Hl. destruct Hl as [|Hl]; [done|]. apply negb_false_iff in Hl. rewrite Hl.
    destruct (c =? GT); [|done]. destruct l as [|d l]; [done|]. by destruct (d =? GT).
  - inversion_clear Hw. destruct (wordchar_symbols c) as (-> & -> & ->); [done|]. rewrite IH by done. by rewrite <-(assoc_L (++)).
Qed.

Lemma lex_head l : forall cur, cur <> [] -> exists u ts, lex cur l = Word u :: ts.
Proof.
  induction l as [|c l IH]; intros cur Hc; (destruct cur as [|x cur]; [done|]); cbn; [eauto|].
  destruct (is_ws c), (c =? GT), (in_set symbols c); cbn; eauto; by apply IH.
Qed.

Section Tokens.
Context (line : list Z) (Hnz : Forall (fun c => c <> 0) line).

Abbreviation len := (length line).

Definition tk (s : nat) : list token := lex [] (drop s line).

Definition text (a : nat * nat) : list Z := take (a.2 - a.1) (drop a.1 line).

(** A word of the line, up to the character that ends it. *)
Definition is_word (a : nat * nat) : Prop :=
  (a.1 < a.2 <= len)%nat /\ Forall (fun c => is_wordchar c = true) (text a) /\
  (a.2 = len \/ is_wordchar (at_ line a.2) = false).

Lemma at_drop s c l : drop s line = c :: l -> at_ line s = c /\ c <> 0 /\ (s < len)%nat /\ drop (S s) line = l.
Proof.
  intros E. assert (line !! s = Some c) as Hc by (rewrite <-(Nat.add_0_r s), <-lookup_drop, E; done).
  split; [unfold at_; by rewrite Hc|]. split; [by eapply (Forall_lookup_1 _ _ _ _ Hnz)|]. split; [by eapply lookup_lt_Some|].
  rewrite <-(Nat.add_1_r s), <-drop_drop, E. done.
Qed.

Lemma at_end s : drop s line = [] -> (s <= len)%nat -> s = len /\ at_ line s = 0.
Proof.
  intros E Hs. apply (f_equal length) in E. rewrite length_drop in E. cbn in E. split; [lia|].
  unfold at_. rewrite lookup_ge_None_2; [done|lia].
Qed.

Lemma skip_ws_spec s : (s <= len)%nat -> exists q, skip_ws line s = q /\ (s <= q <= len)%nat /\ tk q = tk s /\
  (drop q line = [] \/ exists c l, drop q line = c :: l /\ is_ws c = false).
Proof.
  intros Hs. unfold skip_ws. destruct (scan_spec is_ws (drop s line) s) as (n & -> & Hn & Hw & Hd). rewrite length_drop in Hn.
  exists (s + n)%nat. split; [done|]. split; [lia|]. rewrite drop_drop in Hd. split.
  - unfold tk. rewrite <-(take_drop n (drop s line)), lex_ws by done. by rewrite drop_drop.
  - destruct (drop (s + n) line) as [|c l]; [by left|right]. eauto.
Qed.

(** What a token is to the parser: its kind, and the text of a word. *)
Definition token_is (T : token) (tok : Z) (a : nat * nat) : Prop :=
  match T with
  | Word u => tok = WORD /\ is_word a /\ text a = u
  | Sym c => tok = c /\ c ∈ PLUS :: symbols
  end.

Lemma token_at_spec q c l : drop q line = c :: l -> is_ws c = false ->
  exists tok e T, token_at line q = (tok, e) /\ (q < e <= len)%nat /\ token_is T tok (q, e) /\ tk q = T :: tk e.
Proof.
  intros E Hws. destruct (at_drop q c l E) as (Ha & Hc & Hq & El). unfold token_at. rewrite Ha.
  destruct (Z.eqb_spec c 0) as [|_]; [done|]. unfold tk. rewrite E. cbn [lex]. rewrite Hws.
  destruct (Z.eqb_spec c GT) as [->|Hgt].
  - change (in_set _ GT) with false. cbv iota. cbn [flush app]. destruct l as [|d l'].
    + destruct (at_end (S q) El) as [E1 E2]; [lia|]. rewrite E2. cbn [Z.eqb]. change (0 =? GT) with false. cbv iota.
      exists GT, (S q), (Sym GT). rewrite El. split; [done|]. split; [lia|]. split; [|done]. cbn. split; [done|set_solver].
    + destruct (at_drop (S q) d l' El) as (Hd & _ & Hq' & El'). rewrite Hd. destruct (Z.eqb_spec d GT) as [->|Hdg].
      * exists PLUS, (S (S q)), (Sym PLUS). rewrite El'. split; [done|]. split; [lia|]. split; [|done]. cbn. split; [done|set_solver].
      * exists GT, (S q), (Sym GT). rewrite El. split; [done|]. split; [lia|]. split; [|done]. cbn. split; [done|set_solver].
  - assert (in_set [BAR; LPAREN; RPAREN; SEMI; AMP; LT] c = in_set symbols c) as ->.
    { apply bool_decide_ext. unfold symbols, BAR, LPAREN, RPAREN, SEMI, AMP, LT, GT in *. set_solver. }
    destruct (in_set symbols c) eqn:Hs.
    + exists c, (S q), (Sym c). rewrite El. split; [done|]. split; [lia|]. split; [|done]. split; [done|].
      right. by apply in_set_true.
    + assert (is_wordchar c = true) as Hwc by (unfold is_wordchar; by rewrite Hws, Hs).
      destruct (scan_spec is_wordchar (c :: l) q) as (n & -> & Hn & Hw & Hd).
      assert (length (c :: l) = len - q)%nat as Hlen by (by rewrite <-E, length_drop). rewrite Hlen in Hn.
      assert (drop (q + n) line = drop n (c :: l)) as Edn by (by rewrite <-E, drop_drop).
      destruct n as [|n]; [specialize (Hd c l eq_refl); congruence|].
      exists WORD, (q + S n)%nat, (Word (take (S n) (c :: l))). split; [done|]. split; [lia|].
      assert (text (q, q + S n)%nat = take (S n) (c :: l)) as Et.
      { unfold text. cbn [fst snd]. rewrite E. f_equal. lia. }
      split; [split; [done|split; [|done]]|].
      * unfold is_word. rewrite Et. cbn [fst snd]. destruct (drop (S n) (c :: l)) as [|d l'] eqn:Ed.
        { destruct (at_end _ Edn) as [-> _]; [lia|]. split; [lia|]. auto. }
        destruct (at_drop _ _ _ Edn) as (-> & _). split; [lia|]. split; [done|]. right. by eapply Hd.
      * rewrite Edn. cbn [drop take app]. inversion_clear Hw. rewrite <-(take_drop n l) at 1. by rewrite (lex_word _ [c]).
Qed.

Lemma gettoken_spec s : (s <= len)%nat -> exists tok a s', gettoken line s = Ret (tok, a) s' /\ (s <= s' <= len)%nat /\
  ((tk s = [] /\ tok = 0 /\ tk s' = []) \/ exists T, tk s = T :: tk s' /\ (s < s')%nat /\ token_is T tok a).
Proof.
  intros Hs. destruct (skip_ws_spec s Hs) as (q & Eq & Hq & Htk & Hc). unfold gettoken. rewrite Eq.
  destruct Hc as [Hc|(c & l & Hc & Hws)].
  - destruct (at_end q Hc) as [-> H0]; [lia|]. unfold token_at. rewrite H0. cbn [Z.eqb].
    destruct (skip_ws_spec len) as (q' & -> & Hq' & Htk' & _); [lia|].
    exists 0, (len, len), q'. split; [done|]. split; [lia|]. left. rewrite Htk', <-Htk. unfold tk. by rewrite Hc.
  - destruct (token_at_spec q c l Hc Hws) as (tok & e & T & -> & He & HT & Ht).
    destruct (skip_ws_spec e) as (q' & -> & Hq' & Htk' & _); [lia|].
    exists tok, (q, e), q'. split; [done|]. split; [lia|]. right. exists T. rewrite <-Htk, Ht, Htk'. split; [done|]. split; [lia|done].
Qed.

(** [peek] sees the first character of the next token. *)
Definition starts (toks : list Z) (ts : list token) : bool :=
  match ts with Sym c :: _ => in_set toks (if c =? PLUS then GT else c) | _ => false end.

Lemma peek_spec toks s : (s <= len)%nat -> toks ⊆ symbols -> exists s', peek line toks s = Ret (starts toks (tk s)) s' /\
  (s <= s' <= len)%nat /\ tk s' = tk s.
Proof.
  intros Hs Htoks. destruct (skip_ws_spec s Hs) as (q & Eq & Hq & Htk & Hc). unfold peek. rewrite Eq. exists q.
  split; [|done]. f_equal. rewrite <-Htk. unfold tk. destruct Hc as [Hc|(c & l & Hc & Hws)].
  - destruct (at_end q Hc) as [-> ->]; [lia|]. by rewrite Hc.
  - destruct (at_drop q c l Hc) as (-> & Hc0 & _). rewrite Hc. cbn [lex]. rewrite Hws. destruct (Z.eqb_spec c 0) as [|_]; [done|].
    cbn [negb andb flush app]. destruct (Z.eqb_spec c GT) as [->|Hgt].
    { destruct l as [|d l]; [done|]. by destruct (d =? GT). }
    destruct (in_set symbols c) eqn:Hsym.
    + cbn. destruct (Z.eqb_spec c PLUS) as [->|]; [by vm_compute in Hsym|done].
    + destruct (lex_head l [c]) as (u & ts & ->); [done|]. cbn.
      apply bool_decide_false. intros Hin. apply Htoks in Hin. apply in_set_true in Hin. congruence.
Qed.

(** *** What the parser accepts *)

Fixpoint erase (c : cmd) : tree :=
  match c with
  | EXEC argv => TExec (text <$> argv)
  | REDIR c q e mode fd => TRedir (erase c) (text (q, e)) mode fd
  | PIPE l r => TPipe (erase l) (erase r)
  | LIST l r => TList (erase l) (erase r)
  | BACK c => TBack (erase c)
  end.

(** The words of a command. *)
Fixpoint spans (c : cmd) : list (nat * nat) :=
  match c with
  | EXEC argv => argv
  | REDIR c q e _ _ => spans c ++ [(q, e)]
  | PIPE l r => spans l ++ spans r
  | LIST l r => spans l ++ spans r
  | BACK c => spans c
  end.

(** [m] returns with [Q] or panics. *)
Definition may {A} (m : M nat A) (s : nat) (Q : A -> nat -> Prop) : Prop :=
  match m s with Ret a s' => Q a s' | Panic _ => True | _ => False end.

Lemma may_bind {A B} (m : M nat A) (k : A -> M nat B) s Q R :
  may m s Q -> (forall a s', Q a s' -> may (k a) s' R) -> may (bind m k) s R.
Proof. unfold may, bind. destruct (m s); [|done..]. intros H Hk. by apply Hk. Qed.

Lemma may_mono {A} (m : M nat A) s (Q R : A -> nat -> Prop) :
  may m s Q -> (forall a s', Q a s' -> R a s') -> may m s R.
Proof. unfold may. destruct (m s); auto. Qed.

Lemma may_peek {B} toks s (k : bool -> M nat B) R : (s <= len)%nat -> toks ⊆ symbols ->
  (forall s', (s <= s' <= len)%nat -> tk s' = tk s -> may (k (starts toks (tk s))) s' R) ->
  may (bind (peek line toks) k) s R.
Proof.
  intros Hs Ht Hk. destruct (peek_spec toks s Hs Ht) as (s' & E & Hs' & Htk). unfold may, bind. rewrite E. by apply Hk.
Qed.

(** gettoken where a symbol, or a token, is known to be next. *)
Lemma may_gettoken {B} s (k : Z * (nat * nat) -> M nat B) R : (s <= len)%nat ->
  (forall s', tk s = [] -> tk s' = [] -> (s <= s' <= len)%nat -> forall a, may (k (0, a)) s' R) ->
  (forall T tok a s', tk s = T :: tk s' -> (s < s' <= len)%nat -> token_is T tok a -> may (k (tok, a)) s' R) ->
  may (bind (gettoken line) k) s R.
Proof.
  intros Hs H0 H1. destruct (gettoken_spec s Hs) as (tok & a & s' & E & Hs' & H). unfold may, bind. rewrite E.
  destruct H as [(Ht & -> & Ht')|(T & Ht & Hlt & HT)]; [by apply H0|]. apply (H1 T); [done|lia|done].
Qed.

Lemma starts_redir ts : starts [LT; GT] ts = true -> exists op ts', ts = Sym op :: ts' /\ is_redir op = true.
Proof.
  destruct ts as [|[u|c] ts]; cbn; [done|done|]. intros H. exists c, ts. split; [done|]. apply in_set_true in H. apply in_set_true.
  destruct (Z.eqb_spec c PLUS) as [->|]; [set_solver|]. set_solver.
Qed.

Lemma redirs_may fuel : forall c s, (s <= len)%nat -> (len - s < fuel)%nat -> Forall is_word (spans c) ->
  may (parseredirs line fuel c) s (fun c' s' => (s <= s' <= len)%nat /\ Forall is_word (spans c') /\
    exists its, Forall item_ok its /\ words its = [] /\ tk s = (its ≫= item_tokens) ++ tk s' /\
      erase c' = wrap its (erase c)).
Proof.
  induction fuel as [|fuel IH]; intros c s Hs Hf Hc; [lia|]. cbn [parseredirs].
  apply may_peek; [done|set_solver|]. intros s1 Hs1 Ht1. destruct (starts _ _) eqn:Est.
  - apply starts_redir in Est as (op & ts & Ets & Hop). apply may_gettoken; [lia|intros; congruence|].
    intros T tok a s2 Ht2 Hs2 HT. rewrite Ht1, Ets in Ht2. injection Ht2 as <- ->. destruct HT as [-> _].
    apply may_gettoken; [lia|intros s3 _ _ _ a'; by vm_compute|].
    intros T tok a' s3 Ht3 Hs3 HT. cbn [fst snd]. destruct (Z.eqb_spec tok WORD) as [->|]; cbn [negb]; [|done].
    destruct T as [u|c']; [|destruct HT as [<- HT%in_set_true]; by vm_compute in HT].
    destruct HT as (_ & Hw & Hu), a' as [q e]. set (c' := if op =? LT then _ else _).
    assert (Forall is_word (spans c') /\ erase c' = redir_tree op u (erase c)) as [Hc' Ec'].
    { clear -Hop Hc Hw Hu. unfold c', redir_tree. apply in_set_true in Hop.
      assert (op = LT \/ op = GT \/ op = PLUS) as [-> | [-> | ->]] by set_solver; rewrite <-Hu; cbn;
        (split; [apply Forall_app; split; [done|by constructor]|done]). }
    eapply may_mono; [apply (IH c' s3); [lia|lia|done]|].
    intros c2 s4 (Hs4 & Hc2 & its & Hits & Hwd & Ht4 & Ee). split; [lia|]. split; [done|].
    exists (IRedir op u :: its). split; [by constructor|]. split; [done|].
    split; [by rewrite Ets, Ht3, Ht4|by rewrite Ee, Ec'].
  - unfold may. cbn. split; [lia|]. split; [done|]. exists []. cbn. rewrite Ht1. done.
Qed.

Lemma words_app its its' : words (its ++ its') = words its ++ words its'.
Proof. apply bind_app. Qed.

Lemma wrap_app its its' t : wrap (its ++ its') t = wrap its' (wrap its t).
Proof. apply fold_left_app. Qed.

Fixpoint targs (t : tree) (u : list Z) : tree :=
  match t with
  | TExec us => TExec (us ++ [u])
  | TRedir t f m d => TRedir (targs t u) f m d
  | t => t
  end.

Lemma erase_add_arg c a : erase (add_arg c a) = targs (erase c) (text a).
Proof. induction c; cbn; [by rewrite fmap_app|by rewrite IHc|done..]. Qed.

Lemma targs_wrap its us u : targs (wrap its (TExec us)) u = wrap its (TExec (us ++ [u])).
Proof.
  change (TExec (us ++ [u])) with (targs (TExec us) u). generalize (TExec us) as t.
  induction its as [|[v|op v] its IH]; intros t; cbn; [done|apply IH|]. rewrite IH. f_equal.
  unfold redir_tree. by destruct (op =? LT).
Qed.

Lemma spans_add_arg c a : Forall is_word (spans c) -> is_word a -> Forall is_word (spans (add_arg c a)).
Proof.
  intros Hc Ha. induction c; cbn in *; try done.
  - apply Forall_app. split; [done|by constructor].
  - apply Forall_app in Hc as [H1 H2]. apply Forall_app. auto.
Qed.

Lemma args_may fuel : forall argc c s its, (s <= len)%nat -> (len - s < fuel)%nat -> Forall is_word (spans c) ->
  erase c = wrap its (TExec (words its)) -> argc = length (words its) -> (argc < MAXARGS)%nat ->
  may (parseargs line fuel argc c) s (fun c' s' => (s <= s' <= len)%nat /\ Forall is_word (spans c') /\
    exists its', Forall item_ok its' /\ tk s = (its' ≫= item_tokens) ++ tk s' /\
      (length (words (its ++ its')) < MAXARGS)%nat /\ erase c' = wrap (its ++ its') (TExec (words (its ++ its')))).
Proof.
  induction fuel as [|fuel IH]; intros argc c s its Hs Hf Hc Ec Hargc Hmax; [lia|]. cbn [parseargs].
  assert (forall s', (s <= s' <= len)%nat -> tk s' = tk s -> (s <= s' <= len)%nat /\ Forall is_word (spans c) /\
    exists its', Forall item_ok its' /\ tk s = (its' ≫= item_tokens) ++ tk s' /\
      (length (words (its ++ its')) < MAXARGS)%nat /\ erase c = wrap (its ++ its') (TExec (words (its ++ its')))) as Hdone.
  { intros s' Hs' Ht. split; [done|]. split; [done|]. exists []. rewrite (right_id_L [] (++)), Ht, <-Hargc. done. }
  apply may_peek; [done|set_solver|]. intros s1 Hs1 Ht1. destruct (starts _ _).
  { by apply Hdone. }
  apply may_gettoken; [lia| |].
  { intros s2 Ht2 Ht2' Hs2 a. apply Hdone; [lia|]. congruence. }
  intros T tok a s2 Ht2 Hs2 HT. rewrite Ht1 in Ht2. cbn [fst snd].
  destruct T as [u|op]; [|destruct HT as [-> HT]].
  - destruct HT as (-> & Hw & Hu). change (WORD =? 0) with false. change (WORD =? WORD) with true. cbn [negb].
    destruct (Nat.leb_spec MAXARGS (S argc)) as [|Hlt]; [done|].
    set (its1 := its ++ [IWord u]).
    assert (words its1 = words its ++ [u]) as Ew by (unfold its1; by rewrite words_app).
    assert (erase (add_arg c a) = wrap its1 (TExec (words its1))) as Ea.
    { rewrite erase_add_arg, Ec, targs_wrap, Ew, Hu. unfold its1. by rewrite wrap_app. }
    eapply may_bind; [apply (redirs_may fuel (add_arg c a) s2); [lia|lia|by apply spans_add_arg]|].
    intros c2 s3 (Hs3 & Hc2 & rs & Hrs & Hwrs & Ht3 & Ec2).
    assert (words (its1 ++ rs) = words its1) as Ewr by (by rewrite words_app, Hwrs, (right_id_L [] (++))).
    eapply may_mono; [apply (IH (S argc) c2 s3 (its1 ++ rs)); [lia|lia|done| | |lia]|].
    + by rewrite Ec2, Ea, Ewr, wrap_app.
    + rewrite Ewr, Ew, length_app, Hargc. cbn. lia.
    + intros c3 s4 (Hs4 & Hc3 & its' & Hits & Ht4 & Hl & Ec3). split; [lia|]. split; [done|].
      exists (IWord u :: rs ++ its'). split; [constructor; [done|by apply Forall_app]|].
      assert (its ++ IWord u :: rs ++ its' = (its1 ++ rs) ++ its') as -> by (unfold its1; by rewrite <-!(assoc_L (++))).
      split; [|done]. rewrite Ht2, Ht3, Ht4. cbn. by rewrite bind_app, (assoc_L (++)).
  - destruct (Z.eqb_spec op 0) as [->|]; [apply in_set_true in HT; by vm_compute in HT|].
    destruct (Z.eqb_spec op WORD) as [->|]; [apply in_set_true in HT; by vm_compute in HT|]. done.
Qed.

Lemma starts_one c ts : c <> GT -> c <> PLUS -> starts [c] ts = true <-> exists ts', ts = Sym c :: ts'.
Proof.
  intros H1 H2. destruct ts as [|[u|d] ts]; cbn; [naive_solver..|]. rewrite in_set_true, list_elem_of_singleton.
  destruct (Z.eqb_spec d PLUS) as [->|]; naive_solver.
Qed.

(** A symbol that peek has seen is taken. *)
Lemma may_symbol {B} c s (k : M nat B) R : (s <= len)%nat -> c <> GT -> c <> PLUS -> starts [c] (tk s) = true ->
  (forall s', tk s = Sym c :: tk s' -> (s < s' <= len)%nat -> may k s' R) ->
  may (gettoken line ;;; k) s R.
Proof.
  intros Hs H1 H2 Hst Hk. apply starts_one in Hst as (ts & Ets); [|done..].
  apply may_gettoken; [done|intros; congruence|]. intros T tok a s' Ht Hs' _. apply Hk; [|done]. congruence.
Qed.

Lemma back_may fuel : forall c s, (s <= len)%nat -> (len - s < fuel)%nat -> Forall is_word (spans c) ->
  may (parseback line fuel c) s (fun c' s' => (s <= s' <= len)%nat /\ Forall is_word (spans c') /\
    exists n, tk s = replicate n (Sym AMP) ++ tk s' /\ erase c' = Nat.iter n TBack (erase c)).
Proof.
  induction fuel as [|fuel IH]; intros c s Hs Hf Hc; [lia|]. cbn [parseback].
  apply may_peek; [done|set_solver|]. intros s1 Hs1 Ht1. destruct (starts _ _) eqn:Est.
  - rewrite <-Ht1 in Est. apply may_symbol with AMP; [lia|done|done|done|]. intros s2 Ht2 Hs2.
    eapply may_mono; [apply (IH (BACK c) s2); [lia|lia|done]|].
    intros c' s3 (Hs3 & Hc' & n & Ht3 & Ec). split; [lia|]. split; [done|]. exists (S n).
    rewrite <-Ht1, Ht2, Ht3, Ec. split; [done|]. cbn. by rewrite Nat.iter_swap.
  - unfold may. cbn. split; [lia|]. split; [done|]. exists O. by rewrite Ht1.
Qed.

(** What a parser of the category [k] does at [s]. *)
Definition parses (k : cat) (m : M nat cmd) (s : nat) : Prop :=
  may m s (fun c s' => (s <= s' <= len)%nat /\ Forall is_word (spans c) /\
    exists ts, tk s = ts ++ tk s' /\ derives k ts (erase c)).

Lemma parses_skip k m s s1 : (s <= s1)%nat -> tk s1 = tk s -> parses k m s1 -> forall Q : cmd -> nat -> Prop,
  (forall c s', (s <= s' <= len)%nat -> Forall is_word (spans c) ->
     (exists ts, tk s = ts ++ tk s' /\ derives k ts (erase c)) -> Q c s') -> may m s1 Q.
Proof.
  intros Hs Ht Hp Q HQ. eapply may_mono; [exact Hp|]. intros c s' (Hs' & Hc & ts & Hts & Hd). apply HQ; [lia|done|].
  exists ts. by rewrite <-Ht.
Qed.

Lemma block_may fuel s : (s <= len)%nat -> (4 * (len - s) + 1 <= fuel)%nat ->
  (forall s', (s < s' <= len)%nat -> parses Line (parseline line (pred fuel)) s') ->
  parses Exec (parseblock line fuel) s.
Proof.
  intros Hs Hf Hline. destruct fuel as [|fuel]; [lia|]. cbn [parseblock pred] in *. unfold parses.
  apply may_peek; [done|set_solver|]. intros s1 Hs1 Ht1. destruct (starts _ _) eqn:Est; cbn [negb]; [|done].
  rewrite <-Ht1 in Est. apply may_symbol with LPAREN; [lia|done|done|done|]. intros s2 Ht2 Hs2.
  eapply may_bind; [apply Hline; lia|]. intros c s3 (Hs3 & Hc & ts & Ht3 & Hd).
  apply may_peek; [lia|set_solver|]. intros s4 Hs4 Ht4. destruct (starts [RPAREN] _) eqn:Est2; cbn [negb]; [|done].
  rewrite <-Ht4 in Est2. apply may_symbol with RPAREN; [lia|done|done|done|]. intros s5 Ht5 Hs5.
  eapply may_mono; [apply (redirs_may fuel c s5); [lia|lia|done]|].
  intros c' s6 (Hs6 & Hc' & its & Hits & Hw & Ht6 & Ec). split; [lia|]. split; [done|].
  eexists. split; [|rewrite Ec; by apply d_block]. rewrite <-Ht1, Ht2, Ht3, <-Ht4, Ht5, Ht6. cbn.
  rewrite <-!(assoc_L (++)). done.
Qed.

Lemma parser_may fuel : forall s, (s <= len)%nat ->
  ((4 * (len - s) + 4 <= fuel)%nat -> parses Line (parseline line fuel) s) /\
  ((4 * (len - s) + 3 <= fuel)%nat -> parses Pipe (parsepipe line fuel) s) /\
  ((4 * (len - s) + 2 <= fuel)%nat -> parses Exec (parseexec line fuel) s).
Proof.
  induction fuel as [fuel IH] using lt_wf_ind. intros s Hs. destruct fuel as [|fuel]; [lia|]. split; [|split]; intros Hf; cbn [parseline parsepipe parseexec]; unfold parses.
  - eapply may_bind; [apply (IH fuel); lia|]. intros c s1 (Hs1 & Hc & ts & Ht1 & Hd).
    eapply may_bind; [apply (back_may fuel c s1); [lia|lia|done]|]. intros c2 s2 (Hs2 & Hc2 & n & Ht2 & Ec2).
    apply may_peek; [lia|set_solver|]. intros s3 Hs3 Ht3. destruct (starts _ _) eqn:Est.
    + rewrite <-Ht3 in Est. apply may_symbol with SEMI; [lia|done|done|done|]. intros s4 Ht4 Hs4.
      eapply may_bind; [apply (IH fuel); lia|]. intros c5 s5 (Hs5 & Hc5 & ts5 & Ht5 & Hd5). unfold may. cbn.
      split; [lia|]. split; [by apply Forall_app|]. eexists. split; [|rewrite Ec2; by apply d_list].
      rewrite Ht1, Ht2, <-Ht3, Ht4, Ht5. by rewrite <-!(assoc_L (++)).
    + unfold may. cbn. split; [lia|]. split; [done|]. eexists. split; [|rewrite Ec2; by apply d_line].
      rewrite Ht1, Ht2, Ht3. by rewrite <-!(assoc_L (++)).
  - eapply may_bind; [apply (IH fuel); lia|]. intros c s1 (Hs1 & Hc & ts & Ht1 & Hd).
    apply may_peek; [lia|set_solver|]. intros s3 Hs3 Ht3. destruct (starts _ _) eqn:Est.
    + rewrite <-Ht3 in Est. apply may_symbol with BAR; [lia|done|done|done|]. intros s4 Ht4 Hs4.
      eapply may_bind; [apply (IH fuel); lia|]. intros c5 s5 (Hs5 & Hc5 & ts5 & Ht5 & Hd5). unfold may. cbn.
      split; [lia|]. split; [by apply Forall_app|]. eexists. split; [|by apply d_pipe].
      rewrite Ht1, <-Ht3, Ht4, Ht5. by rewrite <-!(assoc_L (++)).
    + unfold may. cbn. split; [lia|]. split; [done|]. eexists. split; [|by apply d_single]. by rewrite Ht1, Ht3.
  - apply may_peek; [lia|set_solver|]. intros s1 Hs1 Ht1. destruct (starts _ _) eqn:Est.
    + apply (parses_skip Exec _ s s1); [| |apply block_may| ]; [lia|done|lia|lia| |].
      * intros s' Hs'. apply (IH (pred fuel)); lia.
      * intros c s' Hs' Hc Hx. by split.
    + eapply may_bind; [apply (redirs_may fuel (EXEC []) s1); [lia|lia|constructor]|].
      intros c s2 (Hs2 & Hc & its & Hits & Hw & Ht2 & Ec).
      eapply may_mono; [apply (args_may fuel 0 c s2 its); [lia|lia|done|by rewrite Ec, Hw|by rewrite Hw|unfold MAXARGS; lia]|].
      intros c' s3 (Hs3 & Hc' & its' & Hits' & Ht3 & Hl & Ec'). split; [lia|]. split; [done|].
      eexists. split; [|rewrite Ec'; apply d_exec; [by apply Forall_app|done]].
      rewrite <-Ht1, Ht2, Ht3, bind_app. by rewrite (assoc_L (++)).
Qed.

(** *** Every command of the grammar is accepted *)

Lemma wp_peek {B} toks s (k : bool -> M nat B) R : (s <= len)%nat -> toks ⊆ symbols ->
  (forall s', (s <= s' <= len)%nat -> tk s' = tk s -> wp (k (starts toks (tk s))) s' R) ->
  wp (bind (peek line toks) k) s R.
Proof.
  intros Hs Ht Hk. destruct (peek_spec toks s Hs Ht) as (s' & E & Hs' & Htk). unfold wp, bind. rewrite E. by apply Hk.
Qed.

Lemma wp_gettoken {B} s (k : Z * (nat * nat) -> M nat B) R T ts : (s <= len)%nat -> tk s = T :: ts ->
  (forall tok a s', tk s' = ts -> (s < s' <= len)%nat -> token_is T tok a -> wp (k (tok, a)) s' R) ->
  wp (bind (gettoken line) k) s R.
Proof.
  intros Hs E H. destruct (gettoken_spec s Hs) as (tok & a & s' & Eg & Hs' & Hc). unfold wp, bind. rewrite Eg.
  destruct Hc as [(Ht & _)|(T' & Ht & Hlt & HT)]; [congruence|]. rewrite E in Ht. injection Ht as <- ->. apply H; [done|lia|done].
Qed.

Lemma redirs_wp its : Forall item_ok its -> words its = [] -> forall fuel c s rest, (s <= len)%nat -> (len - s < fuel)%nat ->
  tk s = (its ≫= item_tokens) ++ rest -> starts [LT; GT] rest = false ->
  wp (parseredirs line fuel c) s (fun c' s' => (s <= s' <= len)%nat /\ tk s' = rest /\ erase c' = wrap its (erase c)).
Proof.
  induction 1 as [|i its Hi _ IH]; intros Hw fuel c s rest Hs Hf Ht Hr; (destruct fuel as [|fuel]; [lia|]); cbn [parseredirs];
    (apply wp_peek; [done|set_solver|]; intros s1 Hs1 Ht1).
  - cbn in Ht. rewrite Ht, Hr. apply wp_ret. split; [lia|]. split; [congruence|done].
  - destruct i as [u|op u]; [done|]. cbn in Hi, Hw, Ht. rewrite Ht.
    assert (starts [LT; GT] (Sym op :: Word u :: (its ≫= item_tokens) ++ rest) = true) as ->.
    { cbn. apply in_set_true in Hi. apply in_set_true. destruct (Z.eqb_spec op PLUS) as [->|]; set_solver. }
    eapply wp_gettoken; [lia|rewrite Ht1; exact Ht|]. intros tok a s2 Ht2 Hs2 [-> _].
    eapply wp_gettoken; [lia|exact Ht2|]. intros tok' [q e] s3 Ht3 Hs3 (-> & _ & Hu). cbn [fst snd].
    change (WORD =? WORD) with true. cbn [negb]. set (c' := if op =? LT then _ else _).
    assert (erase c' = redir_tree op u (erase c)) as Ec'.
    { clear -Hi Hu. unfold c', redir_tree. apply in_set_true in Hi.
      assert (op = LT \/ op = GT \/ op = PLUS) as [-> | [-> | ->]] by set_solver; by rewrite <-Hu. }
    eapply wp_mono; [apply (IH Hw fuel c' s3 rest); [lia|lia|done|done]|].
    intros c2 s4 (Hs4 & Ht4 & Ec). split; [lia|]. split; [done|]. by rewrite Ec, Ec'.
Qed.

(** The redirections at the beginning of a list of items. *)
Lemma split_redirs its : exists rs its', its = rs ++ its' /\ words rs = [] /\ (its' = [] \/ exists u its2, its' = IWord u :: its2).
Proof.
  induction its as [|[u|op u] its IH].
  - exists [], []. auto.
  - exists [], (IWord u :: its). eauto 6.
  - destruct IH as (rs & its' & -> & Hw & Hh). exists (IRedir op u :: rs), its'. auto.
Qed.

(** What may follow the words of a command. *)
Definition exec_end (rest : list token) : Prop := rest = [] \/ starts [BAR; RPAREN; AMP; SEMI] rest = true.

Lemma exec_end_redir rest : exec_end rest -> starts [LT; GT] rest = false.
Proof.
  intros [->|H]; [done|]. destruct rest as [|[u|c] rest]; [done..|]. cbn in *. apply in_set_true in H.
  apply bool_decide_false. intros H'. destruct (Z.eqb_spec c PLUS); set_solver.
Qed.

Lemma items_redir its rest : its = [] \/ (exists u its2, its = IWord u :: its2) -> exec_end rest ->
  starts [LT; GT] ((its ≫= item_tokens) ++ rest) = false.
Proof. intros [->|(u & its2 & ->)] H; [by apply exec_end_redir|done]. Qed.

(** The loop over the arguments at the end of the command. *)
Lemma args_end_wp fuel argc c s rest : (s <= len)%nat -> (len - s < fuel)%nat -> tk s = rest -> exec_end rest ->
  wp (parseargs line fuel argc c) s (fun c' s' => (s <= s' <= len)%nat /\ tk s' = rest /\ c' = c).
Proof.
  intros Hs Hf Ht He. destruct fuel as [|fuel]; [lia|]. cbn [parseargs].
  apply wp_peek; [done|set_solver|]. intros s1 Hs1 Ht1. rewrite Ht. destruct He as [Hr|Hr]; rewrite Hr.
  - cbn [starts]. destruct (gettoken_spec s1) as (tok & a & s2 & E & Hs2 & [(_ & -> & Ht2)|(T & Ht2 & _)]); [lia| |congruence].
    unfold wp, bind. rewrite E. cbn. split; [lia|]. split; [congruence|done].
  - apply wp_ret. split; [lia|]. split; [congruence|done].
Qed.

Lemma args_wp n : forall its', (length its' <= n)%nat -> Forall item_ok its' -> (its' = [] \/ exists u its2, its' = IWord u :: its2) ->
  forall fuel argc c s its rest, (s <= len)%nat -> (len - s < fuel)%nat -> tk s = (its' ≫= item_tokens) ++ rest -> exec_end rest ->
  erase c = wrap its (TExec (words its)) -> argc = length (words its) -> (length (words (its ++ its')) < MAXARGS)%nat ->
  wp (parseargs line fuel argc c) s (fun c' s' => (s <= s' <= len)%nat /\ tk s' = rest /\
    erase c' = wrap (its ++ its') (TExec (words (its ++ its')))).
Proof.
  induction n as [|n IH]; intros its' Hn Hok Hh fuel argc c s its rest Hs Hf Ht He Ec Hargc Hmax;
    (destruct Hh as [->|(u & its2 & ->)];
      [rewrite (right_id_L [] (++)); eapply wp_mono; [by apply args_end_wp|]; intros c' s' (? & ? & ->); done|]).
  { cbn in Hn. lia. }
  destruct fuel as [|fuel]; [lia|]. cbn [parseargs]. apply wp_peek; [done|set_solver|]. intros s1 Hs1 Ht1. cbn in Ht.
  rewrite Ht. cbn [starts]. apply Forall_cons in Hok as [_ Hok].
  eapply wp_gettoken; [lia|rewrite Ht1; exact Ht|]. intros tok a s2 Ht2 Hs2 (-> & Hw & Hu). cbn [fst snd].
  change (WORD =? 0) with false. change (WORD =? WORD) with true. cbn [negb].
  destruct (split_redirs its2) as (rs & its3 & -> & Hwrs & Hh). apply Forall_app in Hok as [Hok1 Hok2].
  set (its1 := its ++ [IWord u]).
  assert (its ++ IWord u :: rs ++ its3 = (its1 ++ rs) ++ its3) as Eits by (unfold its1; by rewrite <-!(assoc_L (++))).
  assert (words its1 = words its ++ [u]) as Ew by (unfold its1; by rewrite words_app).
  assert (words (its1 ++ rs) = words its1) as Ewr by (by rewrite words_app, Hwrs, (right_id_L [] (++))).
  assert (S argc = length (words (its1 ++ rs))) as Hargc1 by (rewrite Ewr, Ew, length_app, Hargc; cbn; lia).
  rewrite Eits in Hmax |- *. destruct (Nat.leb_spec MAXARGS (S argc)) as [Hle|_].
  { rewrite words_app, length_app in Hmax. lia. }
  assert (erase (add_arg c a) = wrap its1 (TExec (words its1))) as Ea.
  { rewrite erase_add_arg, Ec, targs_wrap, Ew, Hu. unfold its1. by rewrite wrap_app. }
  apply wp_bind. eapply wp_mono; [apply (redirs_wp rs Hok1 Hwrs fuel _ s2 ((its3 ≫= item_tokens) ++ rest))|].
  - lia.
  - lia.
  - by rewrite Ht2, bind_app, (assoc_L (++)).
  - by apply items_redir.
  - intros c2 s3 (Hs3 & Ht3 & Ec2).
    eapply wp_mono; [apply (IH its3) with (its := its1 ++ rs) (rest := rest)|]; try done; try lia.
    + rewrite length_cons, length_app in Hn. lia.
    + by rewrite Ec2, Ea, Ewr, wrap_app.
    + intros c3 s4 (Hs4 & Ht4 & Ec3). split; [lia|done].
Qed.

Lemma back_wp n : forall fuel c s rest, (s <= len)%nat -> (len - s < fuel)%nat ->
  tk s = replicate n (Sym AMP) ++ rest -> starts [AMP] rest = false ->
  wp (parseback line fuel c) s (fun c' s' => (s <= s' <= len)%nat /\ tk s' = rest /\ erase c' = Nat.iter n TBack (erase c)).
Proof.
  induction n as [|n IH]; intros fuel c s rest Hs Hf Ht Hr; (destruct fuel as [|fuel]; [lia|]); cbn [parseback];
    (apply wp_peek; [done|set_solver|]; intros s1 Hs1 Ht1); cbn in Ht; rewrite Ht.
  - rewrite Hr. apply wp_ret. split; [lia|]. split; [congruence|done].
  - change (starts _ _) with true. cbv iota. eapply wp_gettoken; [lia|rewrite Ht1; exact Ht|]. intros tok a s2 Ht2 Hs2 _.
    eapply wp_mono; [apply (IH fuel (BACK c) s2 rest); [lia|lia|done|done]|].
    intros c' s3 (Hs3 & Ht3 & Ec). split; [lia|]. split; [done|]. rewrite Ec. cbn. by rewrite Nat.iter_swap.
Qed.

(** What may follow a phrase. *)
Definition ends_with (k : cat) : list Z :=
  match k with Line => [RPAREN] | Pipe => [RPAREN; AMP; SEMI] | Exec => [BAR; RPAREN; AMP; SEMI] end.

Definition follow (k : cat) (rest : list token) : Prop := rest = [] \/ exists c r, rest = Sym c :: r /\ c ∈ ends_with k.

Lemma follow_starts k rest toks : follow k rest -> (forall c, c ∈ ends_with k -> c <> PLUS /\ c ∉ toks) -> starts toks rest = false.
Proof.
  intros [->|(c & r & -> & Hc)] H; [done|]. destruct (H c Hc) as [H1 H2]. cbn. destruct (Z.eqb_spec c PLUS); [done|].
  by apply bool_decide_false.
Qed.

Lemma follow_exec_end rest : follow Exec rest -> exec_end rest.
Proof.
  intros [->|(c & r & -> & Hc)]; [by left|right]. cbn. destruct (Z.eqb_spec c PLUS) as [->|]; [|by apply in_set_true].
  apply in_set_true in Hc. by vm_compute in Hc.
Qed.

Lemma follow_sym k c r : c ∈ ends_with k -> follow k (Sym c :: r).
Proof. intros H. right. eauto. Qed.

Definition need (k : cat) : nat := match k with Line => 4 | Pipe => 3 | Exec => 2 end.

Definition parser (k : cat) : nat -> M nat cmd :=
  match k with Line => parseline line | Pipe => parsepipe line | Exec => parseexec line end.

Definition accepts (k : cat) (ts : list token) (t : tree) : Prop := forall fuel s rest,
  (s <= len)%nat -> (4 * (len - s) + need k <= fuel)%nat -> tk s = ts ++ rest -> follow k rest ->
  wp (parser k fuel) s (fun c s' => (s <= s' <= len)%nat /\ tk s' = rest /\ erase c = t).

Lemma accepts_exec its : Forall item_ok its -> (length (words its) < MAXARGS)%nat ->
  accepts Exec (its ≫= item_tokens) (wrap its (TExec (words its))).
Proof.
  intros Hok Hmax fuel s rest Hs Hf Ht Hr. cbn [parser need] in *. destruct fuel as [|fuel]; [lia|]. cbn [parseexec].
  destruct (split_redirs its) as (rs & its' & -> & Hwrs & Hh). pose proof Hok as [Hok1 Hok2]%Forall_app.
  apply wp_peek; [done|set_solver|]. intros s1 Hs1 Ht1.
  assert (starts [LPAREN] (tk s) = false) as ->.
  { rewrite Ht. destruct rs as [|[u|op u] rs]; [| |]; cbn.
    - destruct Hh as [->|(u & its2 & ->)]; [|done]. apply (follow_starts Exec); [done|]. cbn. set_solver.
    - done.
    - apply Forall_cons in Hok1 as [Hop _]. cbn in Hop. apply in_set_true in Hop. apply bool_decide_false.
      destruct (Z.eqb_spec op PLUS) as [->|]; set_solver. }
  apply follow_exec_end in Hr. rewrite bind_app, <-(assoc_L (++)) in Ht.
  apply wp_bind. eapply wp_mono; [apply (redirs_wp rs Hok1 Hwrs fuel _ s1 ((its' ≫= item_tokens) ++ rest))|].
  - lia.
  - lia.
  - congruence.
  - by apply items_redir.
  - intros c s2 (Hs2 & Ht2 & Ec). eapply wp_mono; [apply (args_wp (length its') its') with (its := rs) (rest := rest)|]; try done; try lia.
    + by rewrite Ec, Hwrs.
    + by rewrite Hwrs.
    + intros c' s3 (Hs3 & Ht3 & Ec'). split; [lia|done].
Qed.

Lemma accepts_block ts t its : accepts Line ts t -> Forall item_ok its -> words its = [] ->
  accepts Exec (Sym LPAREN :: ts ++ Sym RPAREN :: (its ≫= item_tokens)) (wrap its t).
Proof.
  intros Ha Hok Hw fuel s rest Hs Hf Ht Hr. cbn [parser need] in *. destruct fuel as [|[|fuel]]; [lia|lia|]. cbn [parseexec parseblock].
  cbn in Ht. rewrite <-(assoc_L (++)) in Ht. cbn in Ht.
  apply wp_peek; [done|set_solver|]. intros s1 Hs1 Ht1. rewrite Ht. change (starts _ _) with true. cbv iota.
  apply wp_peek; [lia|set_solver|]. intros s2 Hs2 Ht2. rewrite Ht1, Ht. change (starts _ _) with true. cbn [negb].
  eapply wp_gettoken; [lia|rewrite Ht2, Ht1; exact Ht|]. intros tok a s3 Ht3 Hs3 _.
  apply wp_bind. eapply wp_mono; [apply (Ha fuel s3 (Sym RPAREN :: (its ≫= item_tokens) ++ rest)); [lia|cbn; lia|done|]|].
  { apply follow_sym. cbn. set_solver. }
  intros c s4 (Hs4 & Ht4 & Ec). apply wp_peek; [lia|set_solver|]. intros s5 Hs5 Ht5. rewrite Ht4. change (starts _ _) with true. cbn [negb].
  eapply wp_gettoken; [lia|rewrite Ht5; exact Ht4|]. intros tok' a' s6 Ht6 Hs6 _.
  eapply wp_mono; [apply (redirs_wp its Hok Hw fuel c s6 rest); [lia|lia|done|by apply exec_end_redir, follow_exec_end]|].
  intros c' s7 (Hs7 & Ht7 & Ec'). split; [lia|]. split; [done|]. by rewrite Ec', Ec.
Qed.

(** The beginning of parseline, up to the test for a semicolon. *)
Lemma line_wp ts t n s fuel rest : accepts Pipe ts t -> (s <= len)%nat -> (4 * (len - s) + 3 <= fuel)%nat ->
  tk s = ts ++ replicate n (Sym AMP) ++ rest -> follow Pipe rest -> starts [AMP] rest = false -> forall (k : cmd -> M nat cmd) Q,
  (forall c s', (s <= s' <= len)%nat -> tk s' = rest -> erase c = Nat.iter n TBack t -> wp (k c) s' Q) ->
  wp (c <- parsepipe line fuel ;; c <- parseback line fuel c ;; k c) s Q.
Proof.
  intros Ha Hs Hf Ht Hfo Hr k Q Hk. apply wp_bind.
  eapply wp_mono; [apply (Ha fuel s (replicate n (Sym AMP) ++ rest)); [done|done|done|]|].
  { destruct n; [done|]. apply follow_sym. cbn. set_solver. }
  intros c s1 (Hs1 & Ht1 & Ec). apply wp_bind.
  eapply wp_mono; [apply (back_wp n fuel c s1 rest); [lia|lia|done|done]|].
  intros c2 s2 (Hs2 & Ht2 & Ec2). apply Hk; [lia|done|]. by rewrite Ec2, Ec.
Qed.

Lemma derives_accepts k ts t : derives k ts t -> accepts k ts t.
Proof.
  induction 1 as [ts t n _ IH|ts t n ts2 t2 _ IH _ IH2|ts t _ IH|ts t ts2 t2 _ IH _ IH2|its Hok Hm|ts t its _ IH Hok Hw].
  5: by apply accepts_exec.
  5: by apply accepts_block.
  all: intros fuel s rest Hs Hf Ht Hr; cbn [parser need] in *; (destruct fuel as [|fuel]; [lia|]); cbn [parseline parsepipe].
  - rewrite <-(assoc_L (++)) in Ht. eapply (line_wp _ _ n); [exact IH|done|lia|done| | |].
    + destruct Hr as [->|(c & r & -> & Hc)]; [by left|]. apply follow_sym. cbn in *. set_solver.
    + apply (follow_starts Line); [done|]. cbn. set_solver.
    + intros c s1 Hs1 Ht1 Ec. apply wp_peek; [lia|set_solver|]. intros s2 Hs2 Ht2. rewrite Ht1.
      rewrite (follow_starts Line) by (first [done|cbn; set_solver]). apply wp_ret. split; [lia|]. split; [congruence|done].
  - rewrite <-!(assoc_L (++)) in Ht. cbn in Ht. eapply (line_wp _ _ n); [exact IH|done|lia|exact Ht| |done|].
    + apply follow_sym. cbn. set_solver.
    + intros c s1 Hs1 Ht1 Ec. apply wp_peek; [lia|set_solver|]. intros s2 Hs2 Ht2. rewrite Ht1. change (starts _ _) with true. cbv iota.
      eapply wp_gettoken; [lia|rewrite Ht2; exact Ht1|]. intros tok a s3 Ht3 Hs3 _.
      apply wp_bind. eapply wp_mono; [apply (IH2 fuel s3 rest); [lia|cbn; lia|done|done]|].
      intros c4 s4 (Hs4 & Ht4 & Ec4). apply wp_ret. split; [lia|]. split; [done|]. cbn. by rewrite Ec, Ec4.
  - apply wp_bind. eapply wp_mono; [apply (IH fuel s rest); [done|cbn; lia|done|]|].
    { destruct Hr as [->|(c & r & -> & Hc)]; [by left|]. apply follow_sym. cbn in *. set_solver. }
    intros c s1 (Hs1 & Ht1 & Ec). apply wp_peek; [lia|set_solver|]. intros s2 Hs2 Ht2. rewrite Ht1.
    rewrite (follow_starts Pipe) by (first [done|cbn; set_solver]). apply wp_ret. split; [lia|]. split; [congruence|done].
  - rewrite <-(assoc_L (++)) in Ht. apply wp_bind.
    eapply wp_mono; [apply (IH fuel s (Sym BAR :: ts2 ++ rest)); [done|cbn; lia|done|apply follow_sym; cbn; set_solver]|].
    intros c s1 (Hs1 & Ht1 & Ec). apply wp_peek; [lia|set_solver|]. intros s2 Hs2 Ht2. rewrite Ht1. change (starts _ _) with true. cbv iota.
    eapply wp_gettoken; [lia|rewrite Ht2; exact Ht1|]. intros tok a s3 Ht3 Hs3 _.
    apply wp_bind. eapply wp_mono; [apply (IH2 fuel s3 rest); [lia|cbn; lia|done|done]|].
    intros c4 s4 (Hs4 & Ht4 & Ec4). apply wp_ret. split; [lia|]. split; [done|]. cbn. by rewrite Ec, Ec4.
Qed.

Lemma tk_nil s : (s <= len)%nat -> tk s = [] -> skip_ws line s = len.
Proof.
  intros Hs Ht. destruct (skip_ws_spec s Hs) as (q & -> & Hq & Htk & [Hd|(c & l & Hd & Hc)]).
  - by destruct (at_end q Hd) as [-> _]; [lia|].
  - destruct (token_at_spec q c l Hd Hc) as (tok & e & T & _ & _ & _ & HT). congruence.
Qed.

Lemma tk_end s : (s <= len)%nat -> skip_ws line s = len -> tk s = [].
Proof.
  intros Hs E. destruct (skip_ws_spec s Hs) as (q & Eq & Hq & <- & _). assert (q = len) as -> by congruence.
  unfold tk. by rewrite drop_all.
Qed.
End Tokens.

(** *** The cut of the buffer *)

(** The C string at [q]. *)
Definition cstr (buf : list Z) (q : nat) : list Z := take (strlen (drop q buf)) (drop q buf).

Lemma scan_exact f l : forall s n, (forall i c, (i < n)%nat -> l !! i = Some c -> f c = true) -> (n <= length l)%nat ->
  (n = length l \/ exists c, l !! n = Some c /\ f c = false) -> scan f l s = (s + n)%nat.
Proof.
  induction l as [|c l IH]; intros s n Hall Hn Hend; cbn in *; [lia|].
  destruct n as [|n].
  - destruct Hend as [|(d & [= ->] & ->)]; lia.
  - rewrite (Hall O c) by (done || lia). rewrite (IH (S s) n); [lia| |lia|].
    + intros i d Hi. apply (Hall (S i)). lia.
    + destruct Hend as [|Hend]; [left; lia|by right].
Qed.

(** [buf'] is [buf] with NUL at the positions [ends]. *)
Definition nulled (ends : list nat) (buf buf' : list Z) : Prop := forall i : nat,
  (i ∈ ends -> buf' !! i = (fun _ => 0) <$> buf !! i) /\ ((i ∉ ends) -> buf' !! i = buf !! i).

Lemma nulled_app l1 l2 b b1 b2 : nulled l1 b b1 -> nulled l2 b1 b2 -> nulled (l1 ++ l2) b b2.
Proof.
  intros H1 H2 i. destruct (H1 i) as [A1 B1], (H2 i) as [A2 B2]. rewrite elem_of_app.
  destruct (decide (i ∈ l2)) as [Hi2|Hi2]; [rewrite A2 by done|rewrite B2 by done];
    (destruct (decide (i ∈ l1)) as [Hi1|Hi1]; [rewrite A1 by done|rewrite B1 by done]); split; intros; try tauto.
  by destruct (b !! i).
Qed.

Lemma nulled_insert e (b : list Z) : nulled [e] b (<[e := 0]> b).
Proof.
  intros i. rewrite list_elem_of_singleton. split; [intros ->|intros Hi; by apply list_lookup_insert_ne].
  destruct (b !! e) as [x|] eqn:E; cbn; [apply list_lookup_insert_eq; by eapply lookup_lt_Some|].
  rewrite list_insert_ge; [done|]. by apply lookup_ge_None.
Qed.

Lemma nulterminate_nulled c : forall buf, nulled (spans c).*2 buf (nulterminate c buf).
Proof.
  induction c as [argv|c IH q e mode fd|l IHl r IHr|l IHl r IHr|c IH]; intros buf; cbn [spans nulterminate]; rewrite ?fmap_app.
  - revert buf. induction argv as [|[q e] argv IH]; intros buf; cbn [fold_left]; [intros i; split; [by intros ?%elem_of_nil|done]|].
    change (((q, e) :: argv).*2) with ([e] ++ argv.*2). eapply nulled_app; [apply nulled_insert|apply IH].
  - eapply nulled_app; [apply IH|apply nulled_insert].
  - eapply nulled_app; [apply IHl|apply IHr].
  - eapply nulled_app; [apply IHl|apply IHr].
  - apply IH.
Qed.

Section Buffer.
Context (buf : list Z) (H0 : 0 ∈ buf).
Abbreviation es := (strlen buf).
Abbreviation line := (take es buf).

Lemma strlen_spec : (es < length buf)%nat /\ buf !! es = Some 0 /\ Forall (fun c => c <> 0) line /\ length line = es.
Proof.
  unfold strlen. destruct (scan_spec (fun c => negb (c =? 0)) buf 0) as (n & -> & Hn & Ht & Hd). cbn.
  assert (Forall (fun c => c <> 0) (take n buf)) as Hnz.
  { eapply Forall_impl; [exact Ht|]. cbn. intros c Hc. destruct (Z.eqb_spec c 0); [done|done]. }
  destruct (drop n buf) as [|c l] eqn:E.
  - exfalso. assert (take n buf = buf) as Eb by (rewrite <-(take_drop n buf) at 2; rewrite E; by rewrite (right_id_L [] (++))).
    rewrite Eb, Forall_forall in Hnz. by eapply Hnz.
  - specialize (Hd c l eq_refl). apply negb_false_iff, Z.eqb_eq in Hd as ->.
    assert (buf !! n = Some 0) as Hb by (by rewrite <-(Nat.add_0_r n), <-lookup_drop, E).
    pose proof (lookup_lt_Some _ _ _ Hb). split; [done|]. split; [done|]. split; [done|]. rewrite length_take. lia.
Qed.

(** The words of the command are strings of the buffer once it is cut. *)
Lemma cut_ok c : Forall (is_word line) (spans c) -> Forall (fun a => cstr (nulterminate c buf) a.1 = text line a) (spans c).
Proof.
  destruct strlen_spec as (Hlt & Hb0 & Hnz & Hlen). intros Hw. pose proof Hw as Hw'. rewrite Forall_forall in Hw'.
  apply Forall_forall. intros [q e] Ha. pose proof (Hw' _ Ha) as (Hqe & Hwc & Hend). cbn [fst snd] in *. rewrite Hlen in Hqe, Hend.
  set (buf' := nulterminate c buf). pose proof (nulterminate_nulled c buf) as HN. fold buf' in HN.
  assert (forall i, (q <= i < e)%nat -> exists x, line !! i = Some x /\ is_wordchar x = true /\ buf' !! i = Some x) as Hin.
  { intros i Hi. destruct (lookup_lt_is_Some_2 line i) as [x Hx]; [lia|]. exists x. split; [done|].
    assert (is_wordchar x = true) as Hxw.
    { apply (Forall_lookup_1 (fun c => is_wordchar c = true) (text line (q, e)) (i - q)); [exact Hwc|]. unfold text. cbn [fst snd].
      rewrite lookup_take_lt, lookup_drop by lia. by replace (q + (i - q))%nat with i by lia. }
    split; [done|]. destruct (HN i) as [_ ->]; [rewrite lookup_take_lt in Hx by lia; done|].
    intros ([q' e'] & -> & Ha')%list_elem_of_fmap. destruct (Hw' _ Ha') as (_ & _ & [Hl|Hl]); cbn [fst snd] in *; [lia|].
    unfold at_ in Hl. rewrite Hx in Hl. cbn in Hl. congruence. }
  assert (buf' !! e = Some 0) as He.
  { rewrite (proj1 (HN e) (list_elem_of_fmap_2 snd _ (q, e) Ha)).
    destruct (lookup_lt_is_Some_2 buf e) as [x ->]; [lia|done]. }
  unfold cstr, strlen. rewrite (scan_exact _ (drop q buf') 0 (e - q)).
  - unfold text. cbn [fst snd]. apply list_eq. intros i. destruct (decide (i < e - q)%nat).
    + rewrite Nat.add_0_l, (lookup_take_lt (drop q buf')), (lookup_take_lt (drop q line)), !lookup_drop by lia. destruct (Hin (q + i)%nat) as (x & -> & _ & ->); [lia|done].
    + by rewrite !lookup_take_ge by lia.
  - intros i x Hi Hx. rewrite lookup_drop in Hx. destruct (Hin (q + i)%nat) as (y & Hy & _ & Hy'); [lia|].
    assert (x = y) as -> by congruence. eapply (Forall_lookup_1 _ _ _ _ Hnz) in Hy. by destruct (Z.eqb_spec y 0).
  - apply lookup_lt_Some in He. rewrite length_drop. lia.
  - right. exists 0. rewrite lookup_drop. replace (q + (e - q))%nat with e by lia. done.
Qed.
End Buffer.

(** parsecmd on every line, with enough fuel for its length: it returns the one command the grammar
    gives the tokens of the line, and leaves in the buffer, as C strings at the
    positions it returns, the words of that command; or it panics, and then the
    line is not in the grammar. *)
Lemma parsecmd_spec buf fuel : 0 ∈ buf -> (4 * strlen buf + 4 <= fuel)%nat ->
  let line := take (strlen buf) buf in
  match parsecmd fuel buf with
  | Ret (c, buf') _ =>
      derives Line (lex [] line) (erase line c) /\
      (forall t, derives Line (lex [] line) t -> t = erase line c) /\
      Forall (fun a => cstr buf' a.1 = text line a) (spans c)
  | Panic _ => forall t, ~ derives Line (lex [] line) t
  | _ => False
  end.
Proof.
  intros H0 Hf. destruct (strlen_spec buf H0) as (Hlt & Hb0 & Hnz & Hlen). cbn zeta. set (line := take (strlen buf) buf) in *.
  assert (forall t, derives Line (lex [] line) t -> exists c s', parseline line fuel O = Ret c s' /\
    (s' <= length line)%nat /\ tk line s' = [] /\ erase line c = t) as Hacc.
  { intros t Ht. pose proof (derives_accepts line Hnz _ _ _ Ht fuel O []) as Ha. unfold wp in Ha.
    rewrite (right_id_L [] (++)) in Ha. cbn [parser need] in Ha.
    destruct (parseline line fuel O) as [c s'| | | |] eqn:E;
      try (exfalso; apply Ha; [lia|lia|done|by left]). exists c, s'. split; [done|].
    destruct Ha as (Hs' & Ht' & Ec); [lia|lia|done|by left|]. split; [lia|done]. }
  destruct (parser_may line Hnz fuel 0) as (Hmay & _); [lia|]. specialize (Hmay ltac:(lia)). unfold parses, may in Hmay.
  assert (parsecmd fuel buf = match parseline line fuel O with
    | Ret c s' => if negb (skip_ws line s' =? length line)%nat then Panic "syntax"
                  else Ret (c, nulterminate c buf) (skip_ws line s')
    | Panic msg => Panic msg | Sleep ch s' => Sleep ch s' | Crash w => Crash w | NoFuel => NoFuel end) as ->.
  { rewrite Hlen. unfold parsecmd. fold line. unfold bind at 1. destruct (parseline line fuel O); [|done..]. cbn.
    by destruct (_ =? _)%nat. }
  destruct (parseline line fuel O) as [c s'|msg| | |]; [|intros t Ht; by destruct (Hacc t Ht) as (? & ? & ? & _)|done..].
  destruct Hmay as (Hs' & Hw & ts & Hts & Hd). destruct (Nat.eqb_spec (skip_ws line s') (length line)) as [He|He]; cbn [negb].
  - apply tk_end in He; [|lia]. rewrite He, (right_id_L [] (++)) in Hts. change (lex [] line = ts) in Hts. rewrite Hts.
    split; [done|]. split; [|by apply cut_ok]. intros t Ht. rewrite <-Hts in Ht. destruct (Hacc t Ht) as (c' & s2 & [= <- <-] & _ & _ & <-). done.
  - intros t Ht. destruct (Hacc t Ht) as (c' & s2 & [= <- <-] & Hs2 & Ht2 & _). apply He, (tk_nil line Hnz); [lia|done].
Qed.

(** C25. The commands parsecmd builds are those of the shell's grammar.  On every line parsecmd ends: either it returns a
    command that has a derivation from the tokens of the line, the only one the line has, whose words lie in the buffer
    as C strings at the positions the command holds; or it panics, and no command has a derivation from the line. *)
Theorem parsecmd_builds_grammar buf fuel : 0 ∈ buf -> (4 * strlen buf + 4 <= fuel)%nat ->
  let line := take (strlen buf) buf in
  match parsecmd fuel buf with
  | Ret (c, buf') _ =>
      derives Line (lex [] line) (erase line c) /\
      (forall t, derives Line (lex [] line) t -> t = erase line c) /\
      Forall (fun a => cstr buf' a.1 = text line a) (spans c)
  | Panic _ => forall t, ~ derives Line (lex [] line) t
  | _ => False
  end.
Proof. apply parsecmd_spec. Qed.

Module ShellWitness.

(** The line [a|b], and the line [a)], which is no command. *)
Lemma parsecmd_builds_grammar_witness :
  derives Line [Word [97]; Sym BAR; Word [98]] (TPipe (TExec [[97]]) (TExec [[98]])) /\
  (forall t, ~ derives Line [Word [97]; Sym RPAREN] t).
Proof.
  split.
  - assert (0 ∈ [97; 124; 98; 0]) as H0 by (right; right; right; left).
    pose proof (parsecmd_builds_grammar [97; 124; 98; 0] 20 H0 ltac:(vm_compute; lia)) as H. vm_compute in H. exact (proj1 H).
  - assert (0 ∈ [97; 41; 0]) as H0 by (right; right; left).
    pose proof (parsecmd_builds_grammar [97; 41; 0] 20 H0 ltac:(vm_compute; lia)) as H. vm_compute in H. exact H.
Defined.
End ShellWitness.
