(* ===== verification/ShellRun.v ===== *)
(** What the shell runs: runcmd and the loop of main of src/src/sh.c.

    A process is its table of descriptors, [NOFILE] slots each with what it is
    open on; fork copies the table.  Which calls of fork, pipe, open and exec
    succeed is a parameter, by the place in the command the call is made at; the
    place also names the pipe.  What a command amounts to is a tree of the programs
    it executes and of the shells that wait for them, each with its descriptors.
    The prompt is left out. *)

From stdpp Require Import base gmap list strings.
From Stdlib Require Import ZArith Lia.
From S2P Require Import Prelude Mmu Fsys Printf Shell.

(** A place: the way to it from the top of a command, and the number of its line. *)
Abbreviation place := (list nat).

(** What a descriptor is open on. *)
Inductive desc :=
| Inherited (n : Z)
| File (path : list Z) (mode : Z)
| PipeRead (p : place)
| PipeWrite (p : place).

Abbreviation fds := (list (option desc)).

(** The lowest slot that is free. *)
Fixpoint fdalloc (t : fds) (d : desc) : option (nat * fds) :=
  match t with
  | [] => None
  | None :: t => Some (O, Some d :: t)
  | Some x :: t =>
      match fdalloc t d with
      | Some (fd, t) => Some (S fd, Some x :: t)
      | None => None
      end
  end.

Definition close (t : fds) (fd : nat) : fds := <[fd := None]> t.

Definition dup (t : fds) (fd : nat) : fds :=
  match t !! fd with
  | Some (Some d) => match fdalloc t d with Some (_, t) => t | None => t end
  | _ => t
  end.

Section Run.
(** Whether pipe, the first or second fork, open and exec succeed at a place. *)
Context (pipe_ok : place -> bool) (fork_ok : place -> bool -> bool) (open_ok : place -> list Z -> Z -> bool).
Context (exec_ok : place -> list (list Z) -> bool).

Definition open_ (t : fds) (at_place : place) (path : list Z) (mode : Z) : option fds :=
  if open_ok at_place path mode then snd <$> fdalloc t (File path mode) else None.

(** [p[0]], [p[1]] and the table. *)
Definition pipe (t : fds) (at_place : place) : option (nat * nat * fds) :=
  if pipe_ok at_place then
    match fdalloc t (PipeRead at_place) with
    | Some (p0, t) =>
        match fdalloc t (PipeWrite at_place) with
        | Some (p1, t) => Some (p0, p1, t)
        | None => None
        end
    | None => None
    end
  else None.

(** What a process does: become a program, give up with a message, or run others
    that it waits for with the descriptors [t] ([Then], and [Both] for the two ends
    of the pipe [p]) or not ([Aside], [Start]). *)
Inductive run :=
| Exits
| Launch (argv : list (list Z)) (t : fds)
| Gives_up (fmt : string) (arg : list Z)
| Then (a : run) (t : fds) (b : run)
| Both (p : place) (a b : run) (t : fds)
| Start (a b : run)
| Aside (a : run).

(** exec, and the message when it returns. *)
Definition exec_ (p : place) (argv : list (list Z)) (t : fds) : run :=
  if exec_ok p argv then Launch argv t else Gives_up "exec %s failed" (default [] (head argv)).

(** [buf] is the buffer the arguments of the command are in. *)
Fixpoint runcmd (buf : list Z) (p : place) (c : cmd) (t : fds) : run :=
  match c with
  | EXEC argv =>
      match argv with
      | [] => Exits
      | _ => exec_ p ((fun a => cstr buf a.1) <$> argv) t
      end
  | REDIR c file _ mode fd =>
      let t := close t (Z.to_nat fd) in
      match open_ t p (cstr buf file) mode with
      | None => Gives_up "open %s failed" (cstr buf file)
      | Some t => runcmd buf (0%nat :: p) c t
      end
  | LIST l r =>
      if fork_ok p false then Then (runcmd buf (0%nat :: p) l t) t (runcmd buf (1%nat :: p) r t)
      else Gives_up "fork" []
  | PIPE l r =>
      match pipe t p with
      | None => Gives_up "pipe" []
      | Some (p0, p1, t) =>
          if fork_ok p false then
            let left := runcmd buf (0%nat :: p) l (close (close (dup (close t 1) p1) p0) p1) in
            if fork_ok p true then
              Both p left (runcmd buf (1%nat :: p) r (close (close (dup (close t 0) p0) p0) p1)) (close (close t p0) p1)
            else Start left (Gives_up "fork" [])
          else Gives_up "fork" []
      end
  | BACK c => if fork_ok p false then Aside (runcmd buf (0%nat :: p) c t) else Gives_up "fork" []
  end.

(** ** What a command means *)

(** The table of a process with three descriptors and no other. *)
Definition std (i o e : desc) : fds := Some i :: Some o :: Some e :: replicate (Z.to_nat NOFILE - 3) None.

(** A command with its standard input, output and error. *)
Fixpoint means (p : place) (c : tree) (i o e : desc) : run :=
  match c with
  | TExec [] => Exits
  | TExec argv => exec_ p argv (std i o e)
  | TRedir c file mode fd =>
      if open_ok p file mode then
        let f := File file mode in
        if fd =? 0 then means (0%nat :: p) c f o e else means (0%nat :: p) c i f e
      else Gives_up "open %s failed" file
  | TList l r =>
      if fork_ok p false then Then (means (0%nat :: p) l i o e) (std i o e) (means (1%nat :: p) r i o e) else Gives_up "fork" []
  | TPipe l r =>
      if pipe_ok p then
        if fork_ok p false then
          let left := means (0%nat :: p) l i (PipeWrite p) e in
          if fork_ok p true then Both p left (means (1%nat :: p) r (PipeRead p) o e) (std i o e)
          else Start left (Gives_up "fork" [])
        else Gives_up "fork" []
      else Gives_up "pipe" []
  | TBack c => if fork_ok p false then Aside (means (0%nat :: p) c i o e) else Gives_up "fork" []
  end.

(** The redirections of the grammar are of the standard input and output. *)
Fixpoint redir_std (c : tree) : Prop :=
  match c with
  | TExec _ => True
  | TRedir c _ _ fd => (fd = 0 \/ fd = 1) /\ redir_std c
  | TPipe l r | TList l r => redir_std l /\ redir_std r
  | TBack c => redir_std c
  end.

Lemma wrap_redir_std its : forall t, redir_std t -> redir_std (wrap its t).
Proof.
  induction its as [|[u|op u] its IH]; intros t Ht; cbn; [done|by apply IH|]. apply IH. unfold redir_tree.
  destruct (op =? LT); cbn; auto.
Qed.

Lemma derives_redir_std k ts t : derives k ts t -> redir_std t.
Proof.
  assert (forall n t, redir_std t -> redir_std (Nat.iter n TBack t)) as Hb by (intros n t' Ht'; by induction n).
  induction 1; cbn [redir_std]; try apply wrap_redir_std; cbn [redir_std]; auto.
Qed.

Lemma runcmd_means buf line c : Forall (fun a => cstr buf a.1 = text line a) (spans c) -> redir_std (erase line c) ->
  forall p i o e, runcmd buf p c (std i o e) = means p (erase line c) i o e.
Proof.
  induction c as [argv|c IH q ee mode fd|l IHl r IHr|l IHl r IHr|c IH]; cbn [spans erase redir_std runcmd means];
    rewrite ?Forall_app; intros Hs Hr p i o e.
  - assert ((fun a => cstr buf a.1) <$> argv = text line <$> argv) as ->.
    { apply list_fmap_ext. intros j b Hb. by apply (Forall_lookup_1 _ _ _ _ Hs Hb). }
    by destruct argv.
  - destruct Hs as [Hs [Hf _]%Forall_cons], Hr as [Hfd Hr]. cbn [fst] in Hf. rewrite Hf. unfold open_.
    destruct (open_ok p _ mode); [|done]. destruct Hfd as [-> | ->]; cbn; by apply IH.
  - destruct Hs as [Hl Hr'], Hr as [Hrl Hrr]. unfold pipe. destruct (pipe_ok p); [|done]. cbn.
    destruct (fork_ok p false); [|done]. rewrite <-IHl, <-IHr by done. done.
  - destruct Hs as [Hl Hr'], Hr as [Hrl Hrr]. destruct (fork_ok p false); [|done]. by rewrite IHl, IHr.
  - destruct (fork_ok p false); [|done]. by rewrite IH.
Qed.

(** ** The ends of pipes *)

(** Some process of [r] holds the descriptor [d], then or later. *)
Fixpoint holds (d : desc) (r : run) : Prop :=
  match r with
  | Exits | Gives_up _ _ => False
  | Launch _ t => Some d ∈ t
  | Then a t b => holds d a \/ Some d ∈ t \/ holds d b
  | Both _ a b t => holds d a \/ holds d b \/ Some d ∈ t
  | Start a b => holds d a \/ holds d b
  | Aside a => holds d a
  end.

(** Of every pipe, only the processes on its left hold the end for writing and only
    those on its right the end for reading. *)
Fixpoint pipes_end (r : run) : Prop :=
  match r with
  | Exits | Gives_up _ _ | Launch _ _ => True
  | Then a _ b | Start a b => pipes_end a /\ pipes_end b
  | Both p a b t =>
      (~ holds (PipeWrite p) b /\ Some (PipeWrite p) ∉ t) /\ (~ holds (PipeRead p) a /\ Some (PipeRead p) ∉ t) /\
      pipes_end a /\ pipes_end b
  | Aside a => pipes_end a
  end.

(** The descriptors of a command are those it was given, files, and pipes made at
    places inside it. *)
Definition inside (p : place) (d : desc) : Prop :=
  match d with PipeRead q | PipeWrite q => exists x, q = x ++ p | _ => True end.

Lemma std_elem d i o e : Some d ∈ std i o e -> d = i \/ d = o \/ d = e.
Proof.
  unfold std. rewrite !elem_of_cons. intros [[= ->]|[[= ->]|[[= ->]|H]]]; auto. by apply elem_of_replicate in H as [? _].
Qed.

Lemma holds_exec d p argv t : holds d (exec_ p argv t) -> Some d ∈ t.
Proof. unfold exec_. by destruct (exec_ok p argv). Qed.

Lemma inside_cons k p d : inside (k :: p) d -> inside p d.
Proof. destruct d; cbn; try done; intros [x ->]; exists (x ++ [k]); by rewrite <- (assoc_L (++)). Qed.

Lemma means_holds c : forall p i o e d, holds d (means p c i o e) -> d = i \/ d = o \/ d = e \/ inside p d.
Proof.
  induction c as [argv|c IH f mode fd|l IHl r IHr|l IHl r IHr|c IH]; intros p i o e d; cbn [means].
  - destruct argv; [done|]. intros H%holds_exec%std_elem. tauto.
  - destruct (open_ok p f mode); [|done].
    destruct (fd =? 0); intros [->|[->|[->|H%inside_cons]]]%IH; cbn; tauto.
  - destruct (pipe_ok p); [|done]. destruct (fork_ok p false); [|done].
    assert (inside p (PipeRead p) /\ inside p (PipeWrite p)) as [Hp1 Hp2] by (split; by exists []).
    assert (holds d (means (0%nat :: p) l i (PipeWrite p) e) -> d = i \/ d = o \/ d = e \/ inside p d) as HL
      by (intros [->|[->|[->|H%inside_cons]]]%IHl; tauto).
    destruct (fork_ok p true); cbn [holds]; [|tauto].
    intros [H|[[->|[->|[->|H%inside_cons]]]%IHr|H%std_elem]]; tauto.
  - destruct (fork_ok p false); [|done]. cbn [holds].
    intros [[->|[->|[->|H%inside_cons]]]%IHl|[H%std_elem|[->|[->|[->|H%inside_cons]]]%IHr]]; tauto.
  - destruct (fork_ok p false); [|done]. cbn [holds]. intros [->|[->|[->|H%inside_cons]]]%IH; tauto.
Qed.

(** A descriptor from before the place [p]. *)
Definition before (p : place) (d : desc) : Prop := ~ (inside p d /\ match d with PipeRead _ | PipeWrite _ => True | _ => False end).

Lemma before_cons k p d : before p d -> before (k :: p) d.
Proof. intros H [Hi Hd]. apply H. split; [by eapply inside_cons|done]. Qed.

Lemma not_inside_cons k p : ~ inside (k :: p) (PipeRead p) /\ ~ inside (k :: p) (PipeWrite p).
Proof. split; intros [x E]; apply (f_equal length) in E; rewrite length_app in E; cbn in E; lia. Qed.

Lemma before_self p d : before p d -> d <> PipeRead p /\ d <> PipeWrite p.
Proof. intros H. split; intros ->; apply H; (split; [by exists []|done]). Qed.

Lemma before_pipe k p : before (k :: p) (PipeRead p) /\ before (k :: p) (PipeWrite p).
Proof. destruct (not_inside_cons k p). split; by intros [? _]. Qed.

Lemma means_pipes_end c : forall p i o e, before p i -> before p o -> before p e -> pipes_end (means p c i o e).
Proof.
  induction c as [argv|c IH f mode fd|l IHl r IHr|l IHl r IHr|c IH]; intros p i o e Hi Ho He; cbn [means].
  - destruct argv; [done|]. unfold exec_. by destruct (exec_ok _ _).
  - destruct (open_ok p f mode); [|done].
    assert (before (0%nat :: p) (File f mode)) by (by intros [_ ?]).
    destruct (fd =? 0); apply IH; auto using before_cons.
  - destruct (pipe_ok p); [|done]. destruct (fork_ok p false); [|done].
    destruct (before_pipe 0 p) as [_ Hw]. destruct (before_pipe 1 p) as [Hrd _].
    destruct (not_inside_cons 0 p) as [N1 N2]. destruct (not_inside_cons 1 p) as [N3 N4].
    destruct (before_self p i Hi) as [I1 I2]. destruct (before_self p o Ho) as [O1 O2]. destruct (before_self p e He) as [E1 E2].
    assert (pipes_end (means (0%nat :: p) l i (PipeWrite p) e)) as PL by (apply IHl; auto using before_cons).
    destruct (fork_ok p true); [|done]. cbn [pipes_end]. split_and!; [| | | |done|apply IHr; auto using before_cons].
    + intros [H|[H|[H|H]]]%means_holds; congruence || done.
    + intros H%std_elem. naive_solver.
    + intros [H|[H|[H|H]]]%means_holds; congruence || done.
    + intros H%std_elem. naive_solver.
  - destruct (fork_ok p false); [|done]. cbn [pipes_end]. split; [apply IHl|apply IHr]; auto using before_cons.
  - destruct (fork_ok p false); [|done]. apply IH; auto using before_cons.
Qed.

End Run.

(** ** The loop of main *)

(** What the shell does with a line: chdir itself, or a child it waits for. *)
Inductive action :=
| Chdir (path : list Z)
| Child (r : run)
| Quits (msg : string).

(** The texts "cd " and "console". *)
Definition cd_ : list Z := [99; 100; 32].
Definition console_ : list Z := [99; 111; 110; 115; 111; 108; 101].

(** The size of [buf]. *)
Definition nbuf : nat := 100.

Section Main.
Context (pipe_ok : place -> bool) (fork_ok : place -> bool -> bool) (open_ok : place -> list Z -> Z -> bool).
Context (exec_ok : place -> list (list Z) -> bool).
(** Whether main can open the console, and fork for the line [n]. *)
Context (console_ok : bool) (fork1_ok : nat -> bool).

Fixpoint open_console (fuel : nat) (t : fds) : fds :=
  match fuel with
  | O => t
  | S fuel =>
      match (if console_ok then fdalloc t (File console_ O_RDWR) else None) with
      | None => t
      | Some (fd, t) => if (3 <=? fd)%nat then close t fd else open_console fuel t
      end
  end.

(** The buffer and the rest of the input, nothing at its end. *)
Definition getcmd (input : list Z) : option (list Z * list Z) :=
  let l := gets_loop (nbuf - 1) input in
  let buf := l ++ replicate (nbuf - length l) 0 in
  if default 0 (head buf) =? 0 then None else Some (buf, drop (length l) input).

(** The body of the loop for the line [n]. *)
Definition main_line (n : nat) (buf : list Z) (t : fds) : action :=
  if bool_decide (take 3 buf = cd_) then
    let buf := <[(strlen buf - 1)%nat := 0]> buf in
    Chdir (cstr buf 3)
  else if fork1_ok n then
    match parsecmd (4 * nbuf + 4) buf with
    | Ret (c, buf) _ => Child (runcmd pipe_ok fork_ok open_ok exec_ok buf [n] c t)
    | Panic msg => Child (Gives_up msg [])
    | _ => Child Exits
    end
  else Quits "fork".

Fixpoint main_loop (fuel n : nat) (input : list Z) (t : fds) : option (list action) :=
  match fuel with
  | O => None
  | S fuel =>
      match getcmd input with
      | None => Some []
      | Some (buf, input) =>
          match main_line n buf t with
          | Quits msg => Some [Quits msg]
          | a => cons a <$> main_loop fuel (S n) input t
          end
      end
  end.

Definition main (fuel : nat) (input : list Z) (t : fds) : option (list action) :=
  main_loop fuel 0 input (open_console 4 t).

(** ** A script *)

(** A line that fits in the buffer, without its newline. *)
Definition line_ok (l : list Z) : Prop :=
  (length l < nbuf - 1)%nat /\ Forall (fun c => c <> 0 /\ c <> 10 /\ c <> 13) l.

(** What the shell is to do with the line [l]. *)
Definition line_means (n : nat) (i o e : desc) (l : list Z) (a : action) : Prop :=
  if bool_decide (take 3 l = cd_) then a = Chdir (drop 3 l)
  else if fork1_ok n then
    (exists t, derives Line (lex [] l) t /\ (forall t', derives Line (lex [] l) t' -> t' = t) /\
       a = Child (means pipe_ok fork_ok open_ok exec_ok [n] t i o e)) \/
    (exists msg, (forall t, ~ derives Line (lex [] l) t) /\ a = Child (Gives_up msg []))
  else a = Quits "fork".

(** What the child of a line runs ends its pipes. *)
Definition action_ends (a : action) : Prop := match a with Child r => pipes_end r | _ => True end.

(** A descriptor that is no pipe of the shell's own. *)
Definition no_pipe (d : desc) : Prop := match d with PipeRead _ | PipeWrite _ => False | _ => True end.

Lemma line_means_ends n i o e l a : no_pipe i -> no_pipe o -> no_pipe e -> line_means n i o e l a -> action_ends a.
Proof.
  assert (forall d, no_pipe d -> before [n] d) as Hb by (intros d Hd [_ ?]; by destruct d).
  intros Hi Ho He. unfold line_means. destruct (bool_decide _); [by intros ->|]. destruct (fork1_ok n); [|by intros ->].
  intros [(t & _ & _ & ->)|(msg & _ & ->)]; [|done]. apply means_pipes_end; auto.
Qed.


Lemma gets_line l rest : forall n, (length l < n)%nat -> Forall (fun c => c <> 0 /\ c <> 10 /\ c <> 13) l ->
  gets_loop n (l ++ 10 :: rest) = l ++ [10].
Proof.
  induction l as [|c l IH]; intros n Hn Hl; (destruct n as [|n]; [cbn in Hn; lia|]); cbn; [done|].
  apply Forall_cons in Hl as [(_ & H1 & H2) Hl]. destruct (Z.eqb_spec c 10), (Z.eqb_spec c 13); [done..|]. cbn.
  rewrite IH; [done|cbn in Hn; lia|done].
Qed.

(** The newline at the end is no token. *)
Lemma lex_newline n : forall l cur, (length l <= n)%nat -> lex cur (l ++ [10]) = lex cur l.
Proof.
  induction n as [|n IH]; intros l cur Hn.
  { destruct l; [|cbn in Hn; lia]. cbn. by rewrite (right_id_L [] (++)). }
  destruct l as [|c l]; [cbn; by rewrite (right_id_L [] (++))|]. cbn in Hn. cbn [app lex].
  rewrite !IH by lia. destruct (is_ws c); [done|]. destruct (c =? GT); [|done]. f_equal.
  destruct l as [|d l]; [done|]. cbn [app]. destruct (d =? GT); [by rewrite IH by (cbn in Hn; lia)|done].
Qed.

Section Line.
Context (l : list Z) (Hl : line_ok l).

(** The buffer with the line. *)
Definition line_buf : list Z := (l ++ [10]) ++ replicate (nbuf - S (length l)) 0.

Lemma line_nonzero : Forall (fun c => c <> 0) (l ++ [10]).
Proof.
  destruct Hl as [_ H]. apply Forall_app. split; [|by repeat constructor]. eapply Forall_impl; [exact H|]. cbn. tauto.
Qed.

Lemma line_buf_end : exists r, line_buf = (l ++ [10]) ++ 0 :: r.
Proof.
  destruct Hl as [H _]. unfold line_buf. destruct (nbuf - S (length l))%nat as [|k] eqn:E; [unfold nbuf in *; lia|].
  by exists (replicate k 0).
Qed.

(** The string at the beginning of a buffer. *)
Lemma strlen_app w r : Forall (fun c => c <> 0) w -> strlen (w ++ 0 :: r) = length w.
Proof.
  intros Hw. unfold strlen. rewrite (scan_exact _ _ 0 (length w)); [done| |rewrite length_app; lia|].
  - intros i c Hi Hc. rewrite lookup_app_l in Hc by done. apply (Forall_lookup_1 _ _ _ _ Hw) in Hc. by destruct (Z.eqb_spec c 0).
  - right. exists 0. by rewrite lookup_app_r, Nat.sub_diag by lia.
Qed.

Lemma getcmd_line rest : getcmd (l ++ 10 :: rest) = Some (line_buf, rest).
Proof.
  pose proof Hl as [Hlen Hc]. unfold getcmd. rewrite gets_line by done. rewrite length_app. cbn [length]. rewrite Nat.add_1_r.
  fold line_buf. assert (default 0 (head line_buf) =? 0 = false) as ->.
  { unfold line_buf. destruct l as [|c l']; [done|]. apply Forall_cons in Hc as [(H & _) _]. cbn. by apply Z.eqb_neq. }
  f_equal. f_equal. rewrite cons_middle, (assoc_L (++)). rewrite drop_app_length'; [done|]. rewrite length_app. cbn. lia.
Qed.

Lemma cd_line : take 3 line_buf = cd_ <-> take 3 l = cd_.
Proof.
  unfold line_buf, cd_. destruct l as [|a [|b [|c l']]]; cbn; try done; split; intros H; try done; simplify_eq.
Qed.

Lemma chdir_line : take 3 l = cd_ -> cstr (<[(strlen line_buf - 1)%nat := 0]> line_buf) 3 = drop 3 l.
Proof.
  intros Hcd. destruct line_buf_end as (r & E). pose proof line_nonzero as Hnz. rewrite E, strlen_app by done.
  rewrite length_app. cbn [length]. replace (length l + 1 - 1)%nat with (length l) by lia.
  rewrite <-(assoc_L (++)). rewrite insert_app_r_alt, Nat.sub_diag by lia. cbn [app insert list_insert].
  assert (length l >= 3)%nat by (apply (f_equal length) in Hcd; rewrite length_take in Hcd; change (length cd_) with 3%nat in Hcd; lia).
  unfold cstr. rewrite drop_app_le, strlen_app by (done || lia || (apply Forall_drop; by apply Forall_app in Hnz as [? _])).
  by rewrite take_app_length.
Qed.

Lemma main_line_means n i o e : line_means n i o e l (main_line n line_buf (std i o e)).
Proof.
  unfold line_means, main_line.
  destruct (bool_decide_reflect (take 3 l = cd_)) as [Hcd|Hcd].
  { rewrite bool_decide_true by (by apply cd_line). by rewrite chdir_line. }
  rewrite bool_decide_false by (by rewrite cd_line). destruct (fork1_ok n); [|done].
  destruct line_buf_end as (r & E). pose proof (strlen_app (l ++ [10]) r line_nonzero) as Hlen. rewrite <-E in Hlen.
  assert (take (strlen line_buf) line_buf = l ++ [10]) as Et by (rewrite Hlen, E; apply take_app_length).
  assert (strlen line_buf < nbuf)%nat as Hlt by (rewrite Hlen, length_app; destruct Hl; cbn; lia).
  pose proof (parsecmd_spec line_buf (4 * nbuf + 4)) as H. cbn zeta in H. rewrite Et, (lex_newline (length l)) in H by lia.
  specialize (H ltac:(rewrite E; set_solver) ltac:(lia)).
  destruct (parsecmd _ line_buf) as [[c buf'] s|msg| | |]; [|right; by exists msg|done..].
  destruct H as (Hd & Hu & Hs). left. eexists. split; [exact Hd|]. split; [exact Hu|]. f_equal. apply runcmd_means; [done|].
  by eapply derives_redir_std.
Qed.

End Line.

(** Every line has been read, or the shell has stopped at one it could not fork for. *)
Definition all_read (ls : list (list Z)) (acts : list action) : Prop :=
  length acts = length ls \/ (length acts <= length ls)%nat /\ last acts = Some (Quits "fork").

Lemma main_loop_script i o e ls : forall fuel n, Forall line_ok ls -> (length ls < fuel)%nat ->
  exists acts, main_loop fuel n (ls ≫= (fun l => l ++ [10])) (std i o e) = Some acts /\ all_read ls acts /\
    forall k l a, ls !! k = Some l -> acts !! k = Some a -> line_means (n + k) i o e l a.
Proof.
  induction ls as [|l ls IH]; intros fuel n Hls Hf; (destruct fuel as [|fuel]; [cbn in Hf; lia|]); cbn [main_loop].
  - exists []. split; [done|]. split; [by left|]. by intros k l a ?.
  - apply Forall_cons in Hls as [Hl Hls]. cbn [mbind list_bind]. rewrite <-(assoc_L (++)).
    change ([10] ++ (ls ≫= (fun l => l ++ [10]))) with (10 :: (ls ≫= (fun l => l ++ [10]))).
    pose proof (getcmd_line l Hl (ls ≫= (fun l => l ++ [10]))) as E. cbn [mbind list_bind] in E |- *. rewrite E.
    destruct (IH fuel (S n)) as (acts & Ha & Hlen & Hm); [done|cbn in Hf; lia|].
    pose proof (main_line_means l Hl n i o e) as HL. set (a := main_line n _ _) in *. cbn [mbind list_bind] in Ha.
    assert (forall acts', (forall k l' a', ls !! k = Some l' -> acts' !! k = Some a' -> line_means (S n + k) i o e l' a') ->
      forall k l' a', (l :: ls) !! k = Some l' -> (a :: acts') !! k = Some a' -> line_means (n + k) i o e l' a') as Hcons.
    { intros acts' H' [|k] l' a' Hk Hk'; cbn in Hk, Hk'; [simplify_eq; by rewrite Nat.add_0_r|]. rewrite Nat.add_succ_r. by apply (H' k). }
    assert (match a with Quits m => m = "fork" | _ => True end) as Hq.
    { unfold line_means in HL. destruct (bool_decide _); [by rewrite HL|]. destruct (fork1_ok n); [|by rewrite HL].
      by destruct HL as [(? & _ & _ & ->)|(? & _ & ->)]. }
    assert (all_read (l :: ls) (a :: acts)) as Hall.
    { destruct Hlen as [Hlen|[Hlen Hlast]]; [left; cbn; lia|]. right. split; [cbn; lia|]. destruct acts; [done|exact Hlast]. }
    destruct a as [path|r|msg]; [exists (Chdir path :: acts)|exists (Child r :: acts)|exists [Quits msg]].
    + rewrite Ha. split; [done|]. split; [done|by apply Hcons].
    + rewrite Ha. split; [done|]. split; [done|by apply Hcons].
    + subst msg. split; [done|]. split; [right; split; [cbn; lia|done]|]. by apply Hcons.
Qed.

(** A slot that may be open, after main has opened the console where it was not. *)
Definition or_console (x : option desc) : desc := default (File console_ O_RDWR) x.

Lemma open_console_std x y z : console_ok = true ->
  open_console 4 (x :: y :: z :: replicate (Z.to_nat NOFILE - 3) None) = std (or_console x) (or_console y) (or_console z).
Proof. intros H. destruct x, y, z; cbn; rewrite H; cbn; rewrite ?H; cbn; rewrite ?H; cbn; rewrite ?H; reflexivity. Qed.

End Main.

(** C10. The shell runs its input line by line as the grammar and the meaning of
    commands say.  Started with any of its first three descriptors open, none of
    them a pipe of its own, when it can open the console, and on lines of at most 98
    characters without NUL or carriage return: for a line that begins with cd it
    calls chdir itself; for any other line it forks, and stops with a message if it
    cannot.  The child gives up when the line is not in the grammar, and otherwise
    runs the one command the line stands for, up to the calls of pipe, fork, open
    and exec that fail, each of which ends its process with the message.  Each
    program executed gets its words as arguments, its redirections and the ends of
    its pipes as standard input and output, and no other descriptor; a shell that
    waits has the standard descriptors only.  So of every pipe only the processes
    on its left hold the end for writing, and only those on its right the end for
    reading. *)
Theorem shell_runs_script pipe_ok fork_ok open_ok exec_ok fork1_ok ls x y z fuel :
  Forall line_ok ls -> (length ls < fuel)%nat -> Forall no_pipe [or_console x; or_console y; or_console z] ->
  exists acts, main pipe_ok fork_ok open_ok exec_ok true fork1_ok fuel (ls ≫= (fun l => l ++ [10]))
      (x :: y :: z :: replicate (Z.to_nat NOFILE - 3) None) = Some acts /\
    all_read ls acts /\
    forall k l a, ls !! k = Some l -> acts !! k = Some a ->
      line_means pipe_ok fork_ok open_ok exec_ok fork1_ok k (or_console x) (or_console y) (or_console z) l a /\ action_ends a.
Proof.
  intros Hls Hf (Hx & (Hy & (Hz & _)%Forall_cons)%Forall_cons)%Forall_cons. unfold main. rewrite open_console_std by done.
  destruct (main_loop_script pipe_ok fork_ok open_ok exec_ok fork1_ok (or_console x) (or_console y) (or_console z) ls fuel 0 Hls Hf) as (acts & E & Hl & H).
  exists acts. split; [exact E|]. split; [exact Hl|]. intros k l a Hk Ha. specialize (H k l a Hk Ha).
  split; [exact H|eapply line_means_ends; [exact Hx|exact Hy|exact Hz|exact H]].
Qed.

Module ShellRunWitness.

(** The bytes of [cd d] and of [ls -l>f|(wc;cat)&]. *)
Definition script : list (list Z) :=
  [[99; 100; 32; 100]; [108; 115; 32; 45; 108; 62; 102; 124; 40; 119; 99; 59; 99; 97; 116; 41; 38]].

Definition always (_ : place) : bool := true.
Definition always2 (_ : place) (_ : bool) : bool := true.
Definition always3 (_ : place) (_ : list Z) (_ : Z) : bool := true.

Definition always4 (_ : place) (_ : list (list Z)) : bool := true.

Lemma shell_runs_script_witness : exists acts,
  main always always2 always3 always4 true (fun _ => true) 3 (script ≫= (fun l => l ++ [10]))
      (None :: None :: None :: replicate (Z.to_nat NOFILE - 3) None) = Some acts /\ length acts = 2%nat /\
  acts !! 0%nat = Some (Chdir [100]).
Proof.
  destruct (shell_runs_script always always2 always3 always4 (fun _ => true) script None None None 3) as (acts & E & Hl & H).
  - repeat constructor; cbn; lia.
  - cbn. lia.
  - repeat constructor.
  - exists acts. split; [exact E|].
    destruct acts as [|a acts]; [destruct Hl as [Hl|[_ Hl]]; discriminate Hl|]. destruct (H 0%nat _ a eq_refl eq_refl) as [HL _].
    change (a = Chdir [100]) in HL. subst a. split; [|reflexivity]. destruct acts as [|a' acts]; [destruct Hl as [Hl|[_ Hl]]; discriminate Hl|].
    destruct Hl as [Hl|[Hl Hq]]; [exact Hl|]. cbn in Hl |- *. lia.
Defined.

End ShellRunWitness.
