(* ===== verification/Bootmain.v ===== *)
(** The boot loader, src/src/bootmain.c: it reads the kernel's ELF file from the
    disk into memory.

    The disk is the controller of Ide.v.  The loader does not look at the error
    bit: the model's disk finishes a command without an error by the time the poll
    of its status ends. *)

From stdpp Require Import base gmap list strings.
From Stdlib Require Import ZArith Lia.
From S2P Require Import Prelude Mem Str Mmu State Fsys Ide Inode FileData.

Definition SECTSIZE : Z := 512.
Definition ELF_MAGIC : Z := 0x464C457F.

Record boot := { b_mem : mem; b_ctl : ata }.

#[global] Instance eta_boot : Eta boot := fun b => {| b_mem := b_mem b; b_ctl := b_ctl b |}.

(** outb takes a uchar. *)
Definition outb8 (port v : Z) : M boot unit := modify (fun b => b <| b_ctl := outb_ata port (v mod 256) (b_ctl b) |>).

Definition waitdisk : M boot unit := modify (fun b => b <| b_ctl := finish false (b_ctl b) |>).

Definition readsect (dst offset : Z) : M boot unit :=
  waitdisk ;;;
  outb8 0x1F2 1 ;;;
  outb8 0x1F3 offset ;;;
  outb8 0x1F4 (Z.shiftr offset 8) ;;;
  outb8 0x1F5 (Z.shiftr offset 16) ;;;
  outb8 0x1F6 (Z.lor (Z.shiftr offset 24) 0xE0) ;;;
  outb8 0x1F7 0x20 ;;;
  waitdisk ;;;
  modify (fun b => b <| b_mem := store_bytes (b_mem b) dst (take (Z.to_nat SECTSIZE) (a_data (b_ctl b))) |>).

Fixpoint readseg_loop (fuel : nat) (pa epa offset : Z) : M boot unit :=
  if pa <? epa then
    match fuel with
    | O => no_fuel
    | S fuel =>
        readsect pa offset ;;;
        readseg_loop fuel (u32 (pa + SECTSIZE)) epa (u32 (offset + 1))
    end
  else ret tt.

(** As many sectors as [count] bytes can touch. *)
Definition readseg (pa count offset : Z) : M boot unit :=
  let epa := u32 (pa + count) in
  let pa := u32 (pa - offset mod SECTSIZE) in
  let offset := offset / SECTSIZE + 1 in
  readseg_loop (Z.to_nat (count / SECTSIZE + 2)) pa epa offset.

(** The fields of struct elfhdr and struct proghdr at an address. *)
Definition elf_magic (m : mem) (elf : Z) : Z := load32 m elf.
Definition elf_entry (m : mem) (elf : Z) : Z := load32 m (elf + 24).
Definition elf_phoff (m : mem) (elf : Z) : Z := load32 m (elf + 28).
Definition elf_phnum (m : mem) (elf : Z) : Z := load16 m (elf + 44).

Definition ph_off (m : mem) (ph : Z) : Z := load32 m (ph + 4).
Definition ph_paddr (m : mem) (ph : Z) : Z := load32 m (ph + 12).
Definition ph_filesz (m : mem) (ph : Z) : Z := load32 m (ph + 16).
Definition ph_memsz (m : mem) (ph : Z) : Z := load32 m (ph + 20).
Definition PROGHDR_SIZE : Z := 32.

(** The body of the loop over the program headers. *)
Definition load_segment (ph : Z) : M boot unit :=
  m <- gets b_mem ;;
  let pa := ph_paddr m ph in
  readseg pa (ph_filesz m ph) (ph_off m ph) ;;;
  m <- gets b_mem ;;
  when (ph_filesz m ph <? ph_memsz m ph)
    (modify (fun b => b <| b_mem := stosb (b_mem b) (u32 (pa + ph_filesz m ph)) 0 (Z.to_nat (ph_memsz m ph - ph_filesz m ph)) |>)).

Fixpoint load_segments (fuel : nat) (ph eph : Z) : M boot unit :=
  if ph <? eph then
    match fuel with
    | O => no_fuel
    | S fuel =>
        load_segment ph ;;;
        load_segments fuel (u32 (ph + PROGHDR_SIZE)) eph
    end
  else ret tt.

(** The entry point that is called, or [None] when bootmain returns. *)
Definition bootmain : M boot (option Z) :=
  let elf := 0x10000 in
  readseg elf 4096 0 ;;;
  m <- gets b_mem ;;
  if negb (elf_magic m elf =? ELF_MAGIC) then ret None
  else
    let ph := u32 (elf + elf_phoff m elf) in
    let eph := u32 (ph + PROGHDR_SIZE * elf_phnum m elf) in
    load_segments (Z.to_nat (elf_phnum m elf)) ph eph ;;;
    m <- gets b_mem ;;
    ret (Some (elf_entry m elf)).

(** ** Sectors *)

(** The disk is idle and holds [d]. *)
Definition idle (d : disks) (b : boot) : Prop := a_cmd (b_ctl b) = None /\ a_disks (b_ctl b) = d.

Lemma lba_mod k : 0 <= k < 2 ^ 28 ->
  Z.lor (Z.lor (k mod 256) (Z.shiftl (Z.shiftr k 8 mod 256) 8))
    (Z.lor (Z.shiftl (Z.shiftr k 16 mod 256) 16) (Z.shiftl (Z.land (Z.lor (Z.shiftr k 24) 224 mod 256) 15) 24)) = k.
Proof.
  intros Hk. rewrite <- (lba_bits k 224 Hk eq_refl) at 5. change 256 with (2 ^ 8). rewrite <- !Z.land_ones by lia.
  change (Z.ones 8) with 255. do 3 f_equal. rewrite <- Z.land_assoc. change (Z.land 255 15) with 15.
  rewrite !Z.land_lor_distr_l. change (Z.land 224 15) with 0. rewrite <- Z.land_assoc. change (Z.land 15 15) with 15.
  by rewrite Z.lor_0_r, Z.lor_0_l.
Qed.

Lemma sel_drive k : 0 <= k < 2 ^ 28 -> Z.land (Z.shiftr (Z.lor (Z.shiftr k 24) 224 mod 256) 4) 1 = 0.
Proof.
  intros Hk. assert (0 <= Z.shiftr k 24 < 16) as H by (rewrite Z.shiftr_div_pow2 by lia; change (2 ^ 24) with 16777216; dlia).
  set (x := Z.shiftr k 24) in *. assert (x = 0 \/ x = 1 \/ x = 2 \/ x = 3 \/ x = 4 \/ x = 5 \/ x = 6 \/ x = 7 \/ x = 8 \/ x = 9 \/ x = 10 \/ x = 11 \/ x = 12 \/ x = 13 \/ x = 14 \/ x = 15) as Hx by lia.
  by repeat (destruct Hx as [->|Hx]; [reflexivity|]); rewrite Hx.
Qed.

Lemma readsect_ok d b dst k : idle d b -> 0 <= k < 2 ^ 28 ->
  wp (readsect dst k) b (fun _ b' => idle d b' /\ b_mem b' = store_bytes (b_mem b) dst (take (Z.to_nat SECTSIZE) (d 0 k))).
Proof.
  destruct b as [m [r0 r1 r2 r3 r4 cmd data err disks]]. unfold idle. cbn [b_ctl a_cmd a_disks]. intros [-> ->] Hk.
  set (l := d (Z.land (Z.shiftr (Z.lor (Z.shiftr k 24) 224 mod 256) 4) 1)
    (Z.lor (Z.lor (k mod 256) (Z.shiftl (Z.shiftr k 8 mod 256) 8))
      (Z.lor (Z.shiftl (Z.shiftr k 16 mod 256) 16) (Z.shiftl (Z.land (Z.lor (Z.shiftr k 24) 224 mod 256) 15) 24)))).
  assert (l = d 0 k) as El by (unfold l; by rewrite lba_mod, sel_drive).
  apply (wp_eq _ _ tt {| b_mem := store_bytes m dst (take (Z.to_nat SECTSIZE) l);
    b_ctl := {| r_count := 1; r_lba0 := k mod 256; r_lba1 := Z.shiftr k 8 mod 256; r_lba2 := Z.shiftr k 16 mod 256;
                r_sel := Z.lor (Z.shiftr k 24) 224 mod 256; a_cmd := None; a_data := l; a_err := false; a_disks := d |} |}); [reflexivity|].
  cbn [b_mem b_ctl a_cmd a_disks]. by rewrite El.
Qed.

(** The file [img], byte by byte, on the disk from sector 1 on. *)
Definition on_disk (d : disks) (img : Z -> Z) : Prop :=
  (forall k, 0 <= k -> d 0 (1 + k) = img <$> range (SECTSIZE * k) (Z.to_nat SECTSIZE)) /\ forall o, 0 <= img o < 256.

Section Boot.
Context (d : disks) (img : Z -> Z) (Hd : on_disk d img).

Lemma sector_byte m dst k a : 0 <= k ->
  load8 (store_bytes m dst (take (Z.to_nat SECTSIZE) (d 0 (1 + k)))) a =
  if decide (dst <= a < dst + SECTSIZE) then img (SECTSIZE * k + (a - dst)) else load8 m a.
Proof.
  intros Hk. destruct Hd as [H1 H2]. rewrite H1 by done. rewrite take_ge by (by rewrite length_fmap, length_range).
  rewrite load8_store_bytes. case_decide as Ha.
  - destruct (Z.leb_spec dst a); [|lia]. assert (Z.to_nat (a - dst) < Z.to_nat SECTSIZE)%nat as Hlt by (unfold SECTSIZE in *; lia).
    rewrite list_lookup_fmap, (range_lookup _ _ _ Hlt). cbn [fmap option_fmap option_map].
    rewrite Z.mod_small by apply H2. f_equal. lia.
  - destruct (Z.leb_spec dst a); [|done]. rewrite lookup_ge_None_2; [done|]. rewrite length_fmap, length_range. unfold SECTSIZE in *. lia.
Qed.

Lemma readseg_loop_ok n : forall fuel b pa epa k, (n <= fuel)%nat -> idle d b -> 0 <= k -> k + Z.of_nat n < 2 ^ 28 - 1 -> 0 <= pa ->
  pa + SECTSIZE * Z.of_nat n < 2 ^ 32 -> epa <= pa + SECTSIZE * Z.of_nat n -> pa + SECTSIZE * (Z.of_nat n - 1) < epa \/ n = O ->
  wp (readseg_loop fuel pa epa (1 + k)) b (fun _ b' => idle d b' /\ forall a, load8 (b_mem b') a =
    if decide (pa <= a < pa + SECTSIZE * Z.of_nat n) then img (SECTSIZE * k + (a - pa)) else load8 (b_mem b) a).
Proof.
  unfold SECTSIZE. induction n as [|n IH]; intros fuel b pa epa k Hf Hi Hk Hk2 Hpa Hw He1 He2.
  - unfold readseg_loop. destruct fuel; (destruct (Z.ltb_spec pa epa); [lia|]); (split; [done|]; intros a; by rewrite decide_False by lia).
  - destruct fuel as [|fuel]; [lia|]. cbn [readseg_loop]. destruct (Z.ltb_spec pa epa); [|lia].
    apply wp_bind. eapply wp_mono; [apply (readsect_ok d b pa (1 + k) Hi); lia|]. cbn beta. intros _ b1 (I1 & E1). unfold SECTSIZE.
    assert (u32 (pa + 512) = pa + 512 /\ u32 (1 + k + 1) = 1 + (k + 1)) as [-> ->] by (unfold u32; rewrite !Z.mod_small by lia; lia).
    eapply wp_mono; [apply (IH fuel b1 (pa + 512) epa (k + 1)); [lia|done|lia|lia|lia|lia|lia|lia]|].
    cbn beta. intros _ b2 (I2 & E2). split; [done|]. intros a. rewrite E2, E1, sector_byte by lia. unfold SECTSIZE.
    repeat case_decide; try lia; try done; f_equal; lia.
Qed.

(** The bytes readseg writes: from [lo], [sectors] sectors. *)
Definition sectors (count offset : Z) : Z := (offset mod SECTSIZE + count + SECTSIZE - 1) / SECTSIZE.

Lemma readseg_ok b pa count offset : idle d b -> 0 <= count -> 0 <= offset -> offset mod SECTSIZE <= pa -> pa + count + SECTSIZE < 2 ^ 32 ->
  offset + count < 2 ^ 32 ->
  wp (readseg pa count offset) b (fun _ b' => idle d b' /\ forall a, load8 (b_mem b') a =
    if decide (pa - offset mod SECTSIZE <= a < pa - offset mod SECTSIZE + SECTSIZE * sectors count offset) then img (offset + (a - pa)) else load8 (b_mem b) a).
Proof.
  intros Hi Hc Ho Hpa Hw Hof. unfold readseg, sectors, SECTSIZE in *. cbn zeta.
  assert (u32 (pa + count) = pa + count) as -> by (apply Z.mod_small; dlia).
  assert (u32 (pa - offset mod 512) = pa - offset mod 512) as -> by (apply Z.mod_small; dlia).
  set (n := (offset mod 512 + count + 512 - 1) / 512). assert (Z.of_nat (Z.to_nat n) = n) as En by (unfold n; dlia).
  rewrite (Z.add_comm (offset / 512) 1).
  eapply wp_mono; [apply (readseg_loop_ok (Z.to_nat n)); rewrite ?En; unfold SECTSIZE; try done; unfold n; dlia|].
  cbn beta. intros _ b' (I & E). rewrite En in E. unfold SECTSIZE in E. split; [done|]. intros a. rewrite E. case_decide; [|done]. f_equal. dlia.
Qed.

(** ** The segments of the file *)

Definition word (o : Z) : Z := img o + 256 * img (o + 1) + 65536 * img (o + 2) + 16777216 * img (o + 3).
Definition half (o : Z) : Z := img o + 256 * img (o + 1).

Abbreviation elf := 0x10000.

(** The first page of the file is in the scratch space. *)
Definition scratch (m : mem) : Prop := forall o, 0 <= o < 4096 -> load8 m (elf + o) = img o.

Lemma scratch_word m o : scratch m -> 0 <= o -> o + 4 <= 4096 -> load32 m (elf + o) = word o.
Proof. intros H H0 H1. unfold load32, word. rewrite <- !Z.add_assoc, !H by lia. done. Qed.

Lemma scratch_half m o : scratch m -> 0 <= o -> o + 2 <= 4096 -> load16 m (elf + o) = half o.
Proof. intros H H0 H1. unfold load16, half. rewrite <- !Z.add_assoc, !H by lia. done. Qed.

(** A program header, by its place in the file. *)
Record segment := { g_off : Z; g_paddr : Z; g_filesz : Z; g_memsz : Z }.
Definition segment_at (o : Z) : segment :=
  {| g_off := word (o + 4); g_paddr := word (o + 12); g_filesz := word (o + 16); g_memsz := word (o + 20) |}.

Definition phoff : Z := word 28.
Definition phnum : Z := half 44.
Definition segment_no (j : Z) : segment := segment_at (phoff + PROGHDR_SIZE * j).

(** What is to be in memory, and the addresses that may be written for it. *)
Definition size (s : segment) : Z := Z.max (g_filesz s) (g_memsz s).
Definition seg_byte (s : segment) (a : Z) : Z := if decide (a - g_paddr s < g_filesz s) then img (g_off s + (a - g_paddr s)) else 0.
Definition lo (s : segment) : Z := g_paddr s - g_off s mod SECTSIZE.
Definition hi (s : segment) : Z := Z.max (lo s + SECTSIZE * sectors (g_filesz s) (g_off s)) (g_paddr s + g_memsz s).

Definition loaded (m : mem) (s : segment) : Prop := forall a, g_paddr s <= a < g_paddr s + size s -> load8 m a = seg_byte s a.

(** The segment is in the address space and does not meet the scratch space. *)
Record placed (s : segment) : Prop := {
  pl_lo : 0 <= lo s;
  pl_hi : g_paddr s + size s + SECTSIZE < 2 ^ 32;
  pl_off : g_off s + g_filesz s < 2 ^ 32;
  pl_scratch : hi s <= elf \/ elf + 4096 <= lo s
}.

Lemma word_range o : 0 <= word o < 2 ^ 32.
Proof. unfold word. destruct Hd as [_ H]. pose proof (H o). pose proof (H (o + 1)). pose proof (H (o + 2)). pose proof (H (o + 3)). lia. Qed.

Lemma load_segment_ok b o : idle d b -> scratch (b_mem b) -> 0 <= o -> o + PROGHDR_SIZE <= 4096 -> let s := segment_at o in placed s ->
  wp (load_segment (elf + o)) b (fun _ b' => idle d b' /\ scratch (b_mem b') /\ loaded (b_mem b') s /\
    forall a, a < lo s \/ hi s <= a -> load8 (b_mem b') a = load8 (b_mem b) a).
Proof.
  intros Hi HS Ho Ho2 s [P1 P2 P3 P4]. unfold PROGHDR_SIZE in *.
  assert (forall m, scratch m -> ph_off m (elf + o) = g_off s /\ ph_paddr m (elf + o) = g_paddr s /\ ph_filesz m (elf + o) = g_filesz s /\ ph_memsz m (elf + o) = g_memsz s) as HF.
  { intros m Hm. unfold ph_off, ph_paddr, ph_filesz, ph_memsz. rewrite <- !Z.add_assoc, !scratch_word by (done || lia). done. }
  pose proof (word_range (o + 4)) as R1. pose proof (word_range (o + 12)) as R2. pose proof (word_range (o + 16)) as R3. pose proof (word_range (o + 20)) as R4.
  change (word (o + 4)) with (g_off s) in R1. change (word (o + 12)) with (g_paddr s) in R2. change (word (o + 16)) with (g_filesz s) in R3. change (word (o + 20)) with (g_memsz s) in R4.
  unfold load_segment. apply wp_bind, wp_gets. destruct (HF (b_mem b) HS) as (-> & -> & -> & _).
  apply wp_bind. eapply wp_mono; [apply (readseg_ok b (g_paddr s) (g_filesz s) (g_off s) Hi); unfold size, lo in *; lia|].
  cbn beta. intros _ b1 (I1 & E1). fold (lo s) in E1. apply wp_bind, wp_gets.
  assert (scratch (b_mem b1)) as S1.
  { intros x Hx. rewrite E1, decide_False by (unfold hi in P4; lia). by apply HS. }
  destruct (HF (b_mem b1) S1) as (_ & _ & -> & ->).
  assert (forall a, g_paddr s <= a < g_paddr s + g_filesz s -> load8 (b_mem b1) a = img (g_off s + (a - g_paddr s))) as L1.
  { intros a Ha. rewrite E1, decide_True; [done|]. unfold lo, sectors, SECTSIZE. dlia. }
  destruct (Z.ltb_spec (g_filesz s) (g_memsz s)) as [Hz|Hz]; cbn [when].
  - wp_steps. assert (u32 (g_paddr s + g_filesz s) = g_paddr s + g_filesz s) as -> by (apply Z.mod_small; unfold size, SECTSIZE in *; lia).
    split_and!; [done| | |].
    + intros x Hx. change (load8 (stosb (b_mem b1) (g_paddr s + g_filesz s) 0 (Z.to_nat (g_memsz s - g_filesz s))) (elf + x) = img x).
      rewrite load8_stosb, decide_False by (unfold hi, lo, SECTSIZE in P4; dlia). by apply S1.
    + intros a Ha. change (load8 (stosb (b_mem b1) (g_paddr s + g_filesz s) 0 (Z.to_nat (g_memsz s - g_filesz s))) a = seg_byte s a).
      rewrite load8_stosb. unfold size in Ha. unfold seg_byte. repeat case_decide; try lia; [done|]. apply L1. lia.
    + intros a Ha. change (load8 (stosb (b_mem b1) (g_paddr s + g_filesz s) 0 (Z.to_nat (g_memsz s - g_filesz s))) a = load8 (b_mem b) a).
      rewrite load8_stosb, decide_False by (unfold hi, lo, SECTSIZE in Ha; dlia). rewrite E1, decide_False by (unfold hi in Ha; lia). done.
  - wp_steps. split_and!; [done|done| |].
    + intros a Ha. unfold size in Ha. unfold seg_byte. rewrite decide_True by lia. apply L1. lia.
    + intros a Ha. rewrite E1, decide_False by (unfold hi in Ha; lia). done.
Qed.

(** A kernel file the loader can load: its headers are in the first page, and no segment's sectors fall on
    a segment that has been loaded before. *)
Record bootable : Prop := {
  bt_headers : phoff + PROGHDR_SIZE * phnum <= 4096;
  bt_placed : forall j, 0 <= j < phnum -> placed (segment_no j);
  bt_order : forall i j, 0 <= i < j -> j < phnum ->
    g_paddr (segment_no i) + size (segment_no i) <= lo (segment_no j) \/ hi (segment_no j) <= g_paddr (segment_no i)
}.

Context (B : bootable).

Lemma load_segments_ok n : forall b j, idle d b -> scratch (b_mem b) -> 0 <= j -> j + Z.of_nat n = phnum ->
  (forall i, 0 <= i < j -> loaded (b_mem b) (segment_no i)) ->
  wp (load_segments n (elf + phoff + PROGHDR_SIZE * j) (elf + phoff + PROGHDR_SIZE * phnum)) b (fun _ b' =>
    scratch (b_mem b') /\ forall i, 0 <= i < phnum -> loaded (b_mem b') (segment_no i)).
Proof.
  pose proof (bt_headers B) as Hh. pose proof (word_range 28) as Hp. fold phoff in Hp. unfold PROGHDR_SIZE in *.
  induction n as [|n IH]; intros b j Hi HS Hj Hn HL; cbn [load_segments].
  - destruct (Z.ltb_spec (elf + phoff + 32 * j) (elf + phoff + 32 * phnum)); [lia|]. split; [done|]. intros i Hx. apply HL. lia.
  - destruct (Z.ltb_spec (elf + phoff + 32 * j) (elf + phoff + 32 * phnum)); [|lia]. rewrite <- (Z.add_assoc elf).
    apply wp_bind. eapply wp_mono; [apply (load_segment_ok b (phoff + 32 * j) Hi HS); [lia|unfold PROGHDR_SIZE; lia|apply (bt_placed B); lia]|].
    cbn beta. intros _ b1 (I1 & S1 & L1 & F1). unfold PROGHDR_SIZE. rewrite u32_small by lia.
    replace (elf + (phoff + 32 * j) + 32) with (elf + phoff + 32 * (j + 1)) by lia. apply IH; [done|done|lia|lia|].
    intros i Hx. destruct (decide (i = j)) as [->|Hne]; [exact L1|]. intros a Ha. rewrite F1; [apply HL; [lia|done]|].
    pose proof (bt_order B i j ltac:(lia) ltac:(lia)) as Ho. unfold segment_no, PROGHDR_SIZE in *. lia.
Qed.

Lemma bootmain_scratch b : idle d b -> wp (readseg elf 4096 0) b (fun _ b' => idle d b' /\ scratch (b_mem b')).
Proof.
  intros Hi. eapply wp_mono; [apply (readseg_ok b elf 4096 0 Hi); done|]. cbn beta. intros _ b' (I & E).
  split; [done|]. intros o Ho. rewrite E, decide_True by (unfold sectors, SECTSIZE; change (0 mod 512) with 0; change ((0 + 4096 + 512 - 1) / 512) with 8; lia).
  f_equal. lia.
Qed.
End Boot.

(** C26. The boot loader loads the kernel.  From any state of memory and a disk that has the kernel's ELF file from
    sector 1 on, with its program headers in the first page and its segments laid out so that loading them in their order, sector by
    sector, overwrites neither what has been loaded nor the headers: bootmain reads every segment to its physical
    address, fills the rest of its memory size with zeros and calls the entry point of the header.  A file without
    the ELF magic number is not loaded. *)
Theorem bootmain_loads_kernel d img b : on_disk d img -> idle d b ->
  (word img 0 = ELF_MAGIC -> bootable img ->
   wp bootmain b (fun r b' => r = Some (word img 24) /\
     forall j a, 0 <= j < phnum img -> let s := segment_no img j in g_paddr s <= a < g_paddr s + Z.max (g_filesz s) (g_memsz s) ->
       load8 (b_mem b') a = if decide (a < g_paddr s + g_filesz s) then img (g_off s + (a - g_paddr s)) else 0)) /\
  (word img 0 <> ELF_MAGIC -> wp bootmain b (fun r _ => r = None)).
Proof.
  intros Hd Hi. split.
  - intros Hm B. pose proof (bt_headers img B) as Hh. pose proof (word_range d img Hd 28) as Hp. fold (phoff img) in Hp.
    unfold bootmain, PROGHDR_SIZE in *. apply wp_bind. eapply wp_mono; [by apply (bootmain_scratch d img)|]. cbn beta. intros _ b1 (I1 & S1). apply wp_bind, wp_gets.
    unfold elf_magic, elf_phoff, elf_phnum, elf_entry. replace (load32 (b_mem b1) 65536) with (word img 0) by (symmetry; apply (scratch_word img _ 0); done || lia).
    rewrite Hm, !(scratch_word img), (scratch_half img) by (done || lia). change (negb (ELF_MAGIC =? ELF_MAGIC)) with false. cbn iota.
    assert (0 <= phnum img) as Hn by (unfold phnum, half; destruct Hd as [_ H]; pose proof (H 44); pose proof (H (44 + 1)); lia).
    rewrite (u32_small (65536 + word img 28)), (u32_small (_ + 32 * _)) by (fold (phoff img); fold (phnum img); lia). fold (phoff img). fold (phnum img).
    apply wp_bind. rewrite <- (Z.add_0_r (65536 + phoff img)) at 1.
    eapply wp_mono; [apply (load_segments_ok d img Hd B (Z.to_nat (phnum img)) b1 0); [done|done|lia|lia|intros i Hx; lia]|].
    cbn beta. intros _ b2 (S2 & L2). apply wp_bind, wp_gets, wp_ret. rewrite (scratch_word img) by (done || lia). split; [done|].
    intros j a Hj Ha. rewrite (L2 j Hj a Ha). unfold seg_byte. repeat case_decide; done || lia.
  - intros Hm. unfold bootmain. apply wp_bind. eapply wp_mono; [by apply (bootmain_scratch d img)|]. cbn beta. intros _ b1 (I1 & S1).
    apply wp_bind, wp_gets. unfold elf_magic. replace (load32 (b_mem b1) 65536) with (word img 0) by (symmetry; apply (scratch_word img _ 0); done || lia).
    destruct (Z.eqb_spec (word img 0) ELF_MAGIC); [done|]. done.
Qed.

Module BootmainWitness.
Definition le32 (v : Z) : list Z := [v mod 256; v / 256 mod 256; v / 65536 mod 256; v / 16777216 mod 256].

(** A file with one segment of 5 bytes at offset 84, loaded at 1 MB and followed by 4 zeros. *)
Definition kernel_file : list Z :=
  le32 ELF_MAGIC ++ replicate 20 0 ++ le32 0x10000c ++ le32 52 ++ replicate 12 0 ++ [1; 0] ++ replicate 6 0 ++
  le32 1 ++ le32 84 ++ le32 0x80100000 ++ le32 0x100000 ++ le32 5 ++ le32 9 ++ le32 0 ++ le32 0 ++ [102; 184; 66; 0; 235].

Definition file_img (o : Z) : Z := default 0 (kernel_file !! Z.to_nat o) mod 256.
Definition boot_disk : disks := fun _ k => file_img <$> range (SECTSIZE * (k - 1)) (Z.to_nat SECTSIZE).
Definition power_on : boot :=
  {| b_mem := ∅; b_ctl := {| r_count := 0; r_lba0 := 0; r_lba1 := 0; r_lba2 := 0; r_sel := 0; a_cmd := None; a_data := []; a_err := false; a_disks := boot_disk |} |}.

Lemma boot_disk_ok : on_disk boot_disk file_img.
Proof. split; [intros k Hk; unfold boot_disk; do 2 f_equal; lia|]. intros o. apply Z.mod_pos_bound. lia. Qed.

Lemma file_bootable : bootable file_img.
Proof.
  assert (phnum file_img = 1) as En by reflexivity. constructor.
  - by vm_compute.
  - intros j Hj. assert (j = 0) as -> by lia. constructor; [by vm_compute|by vm_compute|by vm_compute|right; by vm_compute].
  - intros i j Hi Hj. lia.
Qed.

Lemma bootmain_loads_kernel_witness : on_disk boot_disk file_img /\ idle boot_disk power_on /\
  word file_img 0 = ELF_MAGIC /\ bootable file_img /\
  wp bootmain power_on (fun r b' => r = Some 0x10000c /\ load8 (b_mem b') 0x100002 = 66 /\ load8 (b_mem b') 0x100007 = 0).
Proof.
  assert (word file_img 0 = ELF_MAGIC) as Hm by reflexivity.
  split; [exact boot_disk_ok|]. split; [done|]. split; [exact Hm|]. split; [exact file_bootable|].
  destruct (bootmain_loads_kernel boot_disk file_img power_on boot_disk_ok ltac:(done)) as [H _]. specialize (H Hm file_bootable).
  eapply wp_mono; [exact H|]. cbn beta. intros r b' [-> L]. split; [reflexivity|].
  assert (phnum file_img = 1) as En by reflexivity. assert (segment_no file_img 0 = {| g_off := 84; g_paddr := 0x100000; g_filesz := 5; g_memsz := 9 |}) as Es by reflexivity.
  pose proof (L 0 0x100002 ltac:(lia)) as L1. pose proof (L 0 0x100007 ltac:(lia)) as L2. cbn zeta in L1, L2. rewrite Es in L1, L2. cbn [g_off g_paddr g_filesz g_memsz] in L1, L2.
  rewrite L1, L2 by lia. split; reflexivity.
Defined.
End BootmainWitness.
