(* ===== verification/Mp.v ===== *)
(** Finding the processors, src/src/mp.c: the tables of the multiprocessor
    specification in memory. *)

From stdpp Require Import base gmap list strings.
From Stdlib Require Import ZArith Lia.
From S2P Require Import Prelude Mem Str Mmu State Fsys Inode.

Definition NCPU : nat := 8.
Definition MPPROC : Z := 0.
Definition MPBUS : Z := 1.
Definition MPIOAPIC : Z := 2.
Definition MPIOINTR : Z := 3.
Definition MPLINTR : Z := 4.

(** sizeof(struct mp), sizeof(struct mpconf), sizeof(struct mpproc), sizeof(struct mpioapic) *)
Definition MP_SIZE : Z := 16.
Definition MPCONF_SIZE : Z := 44.
Definition MPPROC_SIZE : Z := 20.
Definition MPIOAPIC_SIZE : Z := 8.

Definition sum (m : mem) (addr : Z) (len : nat) : Z :=
  fold_left (fun s i => i32 (s + load8 m (addr + i))) (range 0 len) 0 mod 256.

(** memcmp with a string constant. *)
Definition signature (m : mem) (p : Z) (s : list Z) : bool := bool_decide (load_bytes m p (length s) = s).

Definition _MP_ : list Z := [95; 77; 80; 95].
Definition PCMP : list Z := [80; 67; 77; 80].

Fixpoint mpsearch1_loop (n : nat) (m : mem) (p : Z) : Z :=
  match n with
  | O => 0
  | S n => if signature m p _MP_ && (sum m p (Z.to_nat MP_SIZE) =? 0) then p else mpsearch1_loop n m (p + MP_SIZE)
  end.

(** [len] is a multiple of the size of a structure. *)
Definition mpsearch1 (m : mem) (a len : Z) : Z := mpsearch1_loop (Z.to_nat (len / MP_SIZE)) m (P2V a).

Definition mpsearch (m : mem) : Z :=
  let bda := P2V 0x400 in
  let p := Z.shiftl (Z.lor (Z.shiftl (load8 m (bda + 0x0F)) 8) (load8 m (bda + 0x0E))) 4 in
  let mp :=
    if negb (p =? 0) then mpsearch1 m p 1024
    else
      let p := Z.lor (Z.shiftl (load8 m (bda + 0x14)) 8) (load8 m (bda + 0x13)) * 1024 in
      mpsearch1 m (u32 (p - 1024)) 1024 in
  if negb (mp =? 0) then mp else mpsearch1 m 0xF0000 0x10000.

Definition mp_physaddr (m : mem) (mp : Z) : Z := load32 m (mp + 4).
Definition mp_imcrp (m : mem) (mp : Z) : Z := load8 m (mp + 12).
Definition conf_length (m : mem) (conf : Z) : Z := load16 m (conf + 4).
Definition conf_version (m : mem) (conf : Z) : Z := load8 m (conf + 6).
Definition conf_lapicaddr (m : mem) (conf : Z) : Z := load32 m (conf + 36).

Definition mpconfig (m : mem) : option (Z * Z) :=
  let mp := mpsearch m in
  if (mp =? 0) || (mp_physaddr m mp =? 0) then None
  else
    let conf := P2V (mp_physaddr m mp) in
    if negb (signature m conf PCMP) then None
    else if negb (conf_version m conf =? 1) && negb (conf_version m conf =? 4) then None
    else if negb (sum m conf (Z.to_nat (conf_length m conf)) =? 0) then None
    else Some (mp, conf).

(** What mpinit finds: the APIC numbers of the processors, the number of the I/O APIC, the address of the local
    APIC, and whether the interrupt mode register is set. *)
Record machine_conf := { c_cpus : list Z; c_ioapicid : Z; c_lapic : Z; c_imcr : bool }.

#[global] Instance eta_conf : Eta machine_conf := fun c =>
  {| c_cpus := c_cpus c; c_ioapicid := c_ioapicid c; c_lapic := c_lapic c; c_imcr := c_imcr c |}.

(** The loop over the entries.  The break of an unknown type only leaves the switch, and [p] stays where it is. *)
Fixpoint mpinit_loop (fuel : nat) (m : mem) (p e : Z) (ismp : bool) : M machine_conf bool :=
  if p <? e then
    match fuel with
    | O => no_fuel
    | S fuel =>
        let t := load8 m p in
        if t =? MPPROC then
          modify (fun c => if decide (length (c_cpus c) < NCPU)%nat then c <| c_cpus ::= fun l => l ++ [load8 m (p + 1)] |> else c) ;;;
          mpinit_loop fuel m (p + MPPROC_SIZE) e ismp
        else if t =? MPIOAPIC then
          modify (fun c => c <| c_ioapicid := load8 m (p + 1) |>) ;;;
          mpinit_loop fuel m (p + MPIOAPIC_SIZE) e ismp
        else if (t =? MPBUS) || (t =? MPIOINTR) || (t =? MPLINTR) then mpinit_loop fuel m (p + 8) e ismp
        else mpinit_loop fuel m p e false
    end
  else ret ismp.

Definition mpinit (fuel : nat) (m : mem) : M machine_conf unit :=
  match mpconfig m with
  | None => panic "Expect to run on an SMP"
  | Some (mp, conf) =>
      modify (fun c => c <| c_lapic := conf_lapicaddr m conf |>) ;;;
      ismp <- mpinit_loop fuel m (conf + MPCONF_SIZE) (conf + conf_length m conf) true ;;
      if negb ismp then panic "Didn't find a suitable machine"
      else when (negb (mp_imcrp m mp =? 0)) (modify (fun c => c <| c_imcr := true |>))
  end.

(** ** Checksums and the search *)

Definition byte_sum (l : list Z) : Z := foldr Z.add 0 l.

Lemma byte_sum_app l l' : byte_sum (l ++ l') = byte_sum l + byte_sum l'.
Proof. unfold byte_sum. induction l as [|x l IH]; [done|]. cbn in *. lia. Qed.

Lemma sum_spec m a n : Z.of_nat n <= 65536 -> sum m a n = byte_sum (load_bytes m a n) mod 256.
Proof.
  intros Hn. unfold sum. f_equal.
  enough (forall k s o, 0 <= s -> s + 255 * Z.of_nat k < 2 ^ 31 ->
    fold_left (fun s i => i32 (s + load8 m (a + i))) (range o k) s = s + byte_sum (load_bytes m (a + o) k)) as H.
  { rewrite H by lia. by rewrite Z.add_0_r. }
  induction k as [|k IH]; intros s o Hs Hb; [cbn; lia|]. cbn [range fold_left load_bytes]. pose proof (load8_range m (a + o)).
  rewrite i32_small by lia. rewrite IH by lia. rewrite Z.add_assoc. unfold byte_sum. cbn [foldr]. lia.
Qed.

(** A floating pointer structure: its signature, and bytes that add up to 0. *)
Definition is_mp (m : mem) (p : Z) : Prop :=
  load_bytes m p 4 = _MP_ /\ byte_sum (load_bytes m p 16) mod 256 = 0.

#[global] Instance is_mp_dec m p : Decision (is_mp m p).
Proof. unfold is_mp. apply _. Defined.

(** The places of a structure in [len] bytes. *)
Definition area (a len : Z) : list Z := (fun i => P2V a + MP_SIZE * i) <$> range 0 (Z.to_nat (len / MP_SIZE)).

Lemma search_spec n : forall m p, mpsearch1_loop n m p =
  from_option snd 0 (list_find (is_mp m) ((fun i => p + MP_SIZE * i) <$> range 0 n)).
Proof.
  assert (forall k o p, (fun i => p + MP_SIZE * i) <$> range (o + 1) k = (fun i => p + MP_SIZE + MP_SIZE * i) <$> range o k) as ER.
  { intros k. induction k as [|k IH]; intros o p; [done|]. cbn [range fmap list_fmap]. f_equal; [unfold MP_SIZE; lia|]. apply IH. }
  induction n as [|n IH]; intros m p; [done|]. cbn [mpsearch1_loop range fmap list_fmap list_find].
  rewrite Z.mul_0_r, Z.add_0_r. unfold signature. rewrite sum_spec by (unfold MP_SIZE; lia).
  destruct (decide (is_mp m p)) as [[H1 H2]|H].
  - rewrite bool_decide_eq_true_2 by done. change (Z.to_nat MP_SIZE) with 16%nat. by rewrite H2.
  - assert (bool_decide (load_bytes m p (length _MP_) = _MP_) && (byte_sum (load_bytes m p (Z.to_nat MP_SIZE)) mod 256 =? 0) = false) as ->.
    { apply not_true_is_false. intros [H1%bool_decide_eq_true H2%Z.eqb_eq]%andb_true_iff. by apply H. }
    rewrite IH, (ER n 0 p). by destruct (list_find _ _) as [[? ?]|].
Qed.

(** Where mpsearch looks, in its order. *)
Definition ebda (m : mem) : Z := 16 * (256 * load8 m (P2V 0x40F) + load8 m (P2V 0x40E)).
Definition base_mem (m : mem) : Z := 1024 * (256 * load8 m (P2V 0x414) + load8 m (P2V 0x413)).
Definition places (m : mem) : list Z :=
  (if decide (ebda m <> 0) then area (ebda m) 1024 else area (u32 (base_mem m - 1024)) 1024) ++ area 0xF0000 0x10000.

Lemma join_bytes a b : 0 <= b < 256 -> Z.lor (Z.shiftl a 8) b = 256 * a + b.
Proof. intros Hb. rewrite Z.shiftl_mul_pow2 by lia. rewrite (lor_disjoint_add _ _ 8); [lia|lia| |lia]. apply Z.mod_mul. lia. Qed.

Lemma area_nonzero a len x : 0 <= a < 2 ^ 32 -> a <> 2 ^ 31 -> x ∈ area a len -> x <> 0.
Proof.
  intros Ha Hne (i & -> & Hi%elem_of_range)%list_elem_of_fmap. unfold P2V, KERNBASE, MP_SIZE, u32.
  change (2 ^ 32) with 4294967296 in *. change (2 ^ 31) with 2147483648 in *. change 0x80000000 with 2147483648. dlia.
Qed.

Lemma find_area a len m : 0 <= a < 2 ^ 32 -> a <> 2 ^ 31 ->
  (mpsearch1 m a len =? 0) = bool_decide (list_find (is_mp m) (area a len) = None).
Proof.
  intros Ha Hne. unfold mpsearch1. rewrite search_spec. fold (area a len). destruct (list_find _ (area a len)) as [[k x]|] eqn:E; [|reflexivity].
  apply list_find_Some in E as (Hx & _). cbn. apply Z.eqb_neq. eapply area_nonzero; [done|done|by eapply list_elem_of_lookup_2].
Qed.

Lemma find_app m l l' : from_option snd 0 (list_find (is_mp m) (l ++ l')) =
  if bool_decide (list_find (is_mp m) l = None) then from_option snd 0 (list_find (is_mp m) l') else from_option snd 0 (list_find (is_mp m) l).
Proof.
  case_bool_decide as E.
  - rewrite list_find_app_r by done. by destruct (list_find (is_mp m) l') as [[? ?]|].
  - destruct (list_find (is_mp m) l) as [[k x]|] eqn:El; [|done]. by rewrite (list_find_app_l _ _ _ k x El).
Qed.

(** mpsearch finds the first structure in these places. *)
Lemma mpsearch_spec m : mpsearch m = from_option snd 0 (list_find (is_mp m) (places m)).
Proof.
  unfold mpsearch, places. change (P2V 0x400 + 0x0F) with (P2V 0x40F). change (P2V 0x400 + 0x0E) with (P2V 0x40E).
  change (P2V 0x400 + 0x14) with (P2V 0x414). change (P2V 0x400 + 0x13) with (P2V 0x413).
  pose proof (load8_range m (P2V 0x40F)) as R1. pose proof (load8_range m (P2V 0x40E)) as R2.
  pose proof (load8_range m (P2V 0x414)) as R3. pose proof (load8_range m (P2V 0x413)) as R4.
  rewrite !join_bytes by done. rewrite (Z.shiftl_mul_pow2 _ 4) by lia. change (2 ^ 4) with 16.
  replace ((256 * load8 m (P2V 0x40F) + load8 m (P2V 0x40E)) * 16) with (ebda m) by (unfold ebda; lia).
  replace ((256 * load8 m (P2V 0x414) + load8 m (P2V 0x413)) * 1024) with (base_mem m) by (unfold base_mem; lia).
  rewrite find_app. set (a := if decide (ebda m <> 0) then ebda m else u32 (base_mem m - 1024)).
  assert (0 <= a < 2 ^ 32 /\ a <> 2 ^ 31) as [Ha Hne].
  { unfold a, u32. change (2 ^ 32) with 4294967296. change (2 ^ 31) with 2147483648. case_decide; [unfold ebda; lia|]. unfold base_mem. dlia. }
  assert ((if decide (ebda m <> 0) then area (ebda m) 1024 else area (u32 (base_mem m - 1024)) 1024) = area a 1024) as -> by (unfold a; by case_decide).
  assert ((if negb (ebda m =? 0) then mpsearch1 m (ebda m) 1024 else mpsearch1 m (u32 (base_mem m - 1024)) 1024) = mpsearch1 m a 1024) as ->.
  { unfold a. destruct (Z.eqb_spec (ebda m) 0); cbn [negb]; [rewrite decide_False by tauto|rewrite decide_True by assumption]; reflexivity. }
  rewrite find_area by assumption. case_bool_decide; cbn [negb]; unfold mpsearch1, area; rewrite search_spec; reflexivity.
Qed.

(** ** The entries *)

Inductive entry := Proc (apicid : Z) | IoApic (id : Z) | Other (t : Z).

Definition entry_size (e : entry) : Z := match e with Proc _ => 20 | _ => 8 end.

Definition entry_at (m : mem) (p : Z) (e : entry) : Prop :=
  match e with
  | Proc a => load8 m p = 0 /\ load8 m (p + 1) = a
  | IoApic a => load8 m p = 2 /\ load8 m (p + 1) = a
  | Other t => load8 m p = t /\ (t = 1 \/ t = 3 \/ t = 4)
  end.

Fixpoint entries_at (m : mem) (p : Z) (es : list entry) (e : Z) : Prop :=
  match es with
  | [] => p = e
  | x :: es => entry_at m p x /\ entries_at m (p + entry_size x) es e
  end.

Definition apic_ids (es : list entry) : list Z := es ≫= (fun e => match e with Proc a => [a] | _ => [] end).
Definition io_id (es : list entry) (d : Z) : Z := fold_left (fun d e => match e with IoApic a => a | _ => d end) es d.

Lemma entries_le m es : forall p e, entries_at m p es e -> p <= e.
Proof.
  induction es as [|x es IH]; intros p e H; [cbn in H; lia|]. destruct H as [_ H%IH]. unfold entry_size in H. destruct x; lia.
Qed.

Lemma mpinit_loop_ok es : forall fuel m p e c, (length es <= fuel)%nat -> entries_at m p es e -> (length (c_cpus c) <= NCPU)%nat ->
  mpinit_loop fuel m p e true c =
  Ret true (c <| c_cpus := take NCPU (c_cpus c ++ apic_ids es) |> <| c_ioapicid := io_id es (c_ioapicid c) |>).
Proof.
  induction es as [|x es IH]; intros fuel m p e c Hf H Hc.
  - cbn in H. subst p. destruct fuel; cbn [mpinit_loop]; rewrite Z.ltb_irrefl; unfold ret; change (apic_ids []) with (@nil Z); rewrite app_nil_r, take_ge by lia; by destruct c.
  - destruct fuel as [|fuel]; [cbn in Hf; lia|]. destruct H as [Hx H]. pose proof (entries_le _ _ _ _ H) as Hle.
    cbn [mpinit_loop]. cbn in Hf. assert ((p <? e) = true) as -> by (unfold entry_size in Hle; destruct x; lia).
    destruct x as [a|a|t]; cbn [entry_at] in Hx; destruct Hx as [-> Hx]; cbn [entry_size] in H.
    + change (0 =? MPPROC) with true. cbn iota. rewrite Hx. unfold bind, modify, MPPROC_SIZE. case_decide as Hlt.
      * rewrite IH; [|lia|done|cbn; rewrite length_app; cbn; unfold NCPU in *; lia]. destruct c as [cp io la im]. cbn. by rewrite <- app_assoc.
      * rewrite IH by (done || lia).
        assert (take NCPU (c_cpus c ++ apic_ids es) = take NCPU (c_cpus c ++ apic_ids (Proc a :: es))) as -> by (by rewrite !take_app_le by lia). reflexivity.
    + change (2 =? MPPROC) with false. change (2 =? MPIOAPIC) with true. cbn iota. rewrite Hx. unfold bind, modify, MPIOAPIC_SIZE. rewrite IH by (done || lia).
      by destruct c as [cp io la im].
    + assert ((t =? MPPROC) = false /\ (t =? MPIOAPIC) = false /\ ((t =? MPBUS) || (t =? MPIOINTR) || (t =? MPLINTR)) = true) as (-> & -> & ->)
        by (unfold MPPROC, MPIOAPIC, MPBUS, MPIOINTR, MPLINTR; lia).
      rewrite IH by (done || lia). by destruct c as [cp io la im].
Qed.

(** The loop never ends on an entry of an unknown type. *)
Lemma mpinit_loop_stuck fuel : forall m p e b c, p < e -> 4 < load8 m p -> mpinit_loop fuel m p e b c = NoFuel.
Proof.
  induction fuel as [|fuel IH]; intros m p e b c Hp Ht; cbn [mpinit_loop]; (destruct (Z.ltb_spec p e); [|lia]); [done|].
  assert ((load8 m p =? MPPROC) = false /\ (load8 m p =? MPIOAPIC) = false /\
    ((load8 m p =? MPBUS) || (load8 m p =? MPIOINTR) || (load8 m p =? MPLINTR)) = false) as (-> & -> & ->)
    by (unfold MPPROC, MPIOAPIC, MPBUS, MPIOINTR, MPLINTR; lia).
  by apply IH.
Qed.

Lemma mpinit_loop_hangs es : forall fuel m p q e b c, entries_at m p es q -> q < e -> 4 < load8 m q -> mpinit_loop fuel m p e b c = NoFuel.
Proof.
  induction es as [|x es IH]; intros fuel m p q e b c H Hq Ht; [cbn in H; subst p; by apply mpinit_loop_stuck|].
  destruct H as [Hx H]. pose proof (entries_le _ _ _ _ H) as Hle. destruct fuel as [|fuel]; cbn [mpinit_loop];
    (assert ((p <? e) = true) as -> by (unfold entry_size in Hle; destruct x; lia)); [done|].
  destruct x as [a|a|t]; cbn [entry_at] in Hx; destruct Hx as [-> Hx]; cbn [entry_size] in H.
  - change (0 =? MPPROC) with true. cbn iota. unfold bind, modify. by eapply IH.
  - change (2 =? MPPROC) with false. change (2 =? MPIOAPIC) with true. cbn iota. unfold bind, modify. by eapply IH.
  - assert ((t =? MPPROC) = false /\ (t =? MPIOAPIC) = false /\ ((t =? MPBUS) || (t =? MPIOINTR) || (t =? MPLINTR)) = true) as (-> & -> & ->)
      by (unfold MPPROC, MPIOAPIC, MPBUS, MPIOINTR, MPLINTR; lia). by eapply IH.
Qed.

(** A configuration table at [conf], with the entries from [conf + 44] on. *)
Record table_at (m : mem) (conf len : Z) : Prop := {
  tb_sig : load_bytes m conf 4 = PCMP;
  tb_length : load16 m (conf + 4) = len;
  tb_version : load8 m (conf + 6) = 1 \/ load8 m (conf + 6) = 4;
  tb_sum : byte_sum (load_bytes m conf (Z.to_nat len)) mod 256 = 0
}.

Lemma mpconfig_ok m k mp len : list_find (is_mp m) (places m) = Some (k, mp) -> mp <> 0 -> load32 m (mp + 4) <> 0 -> table_at m (P2V (load32 m (mp + 4))) len ->
  mpconfig m = Some (mp, P2V (load32 m (mp + 4))).
Proof.
  intros Hf Hmp Hp [T1 T2 T3 T4]. unfold mpconfig, mp_physaddr, conf_version, conf_length, signature. rewrite mpsearch_spec, Hf. cbn [from_option snd].
  apply Z.eqb_neq in Hmp, Hp. rewrite Hmp, Hp. cbn [orb]. change (length PCMP) with 4%nat. rewrite bool_decide_eq_true_2 by exact T1. cbn [negb].
  assert (negb (load8 m (P2V (load32 m (mp + 4)) + 6) =? 1) && negb (load8 m (P2V (load32 m (mp + 4)) + 6) =? 4) = false) as -> by (destruct T3 as [-> | ->]; reflexivity).
  rewrite T2. assert (0 <= len < 65536) as Hl by (rewrite <- T2; unfold load16; pose proof (load8_range m (P2V (load32 m (mp + 4)) + 4));
    pose proof (load8_range m (P2V (load32 m (mp + 4)) + 4 + 1)); lia).
  rewrite sum_spec by lia. by rewrite T4.
Qed.

Lemma places_nonzero m x : x ∈ places m -> x <> 0.
Proof.
  unfold places. pose proof (load8_range m (P2V 0x40F)) as R1. pose proof (load8_range m (P2V 0x40E)) as R2.
  pose proof (load8_range m (P2V 0x414)) as R3. pose proof (load8_range m (P2V 0x413)) as R4.
  intros [H|H]%elem_of_app; [case_decide|]; (eapply area_nonzero; [..|exact H]); unfold ebda, base_mem, u32;
    change (2 ^ 32) with 4294967296; change (2 ^ 31) with 2147483648; try lia; dlia.
Qed.

(** C27. mpinit finds the processors.  When the first floating pointer structure in the places of the specification (its
    signature is right and its bytes add up to 0) points to a configuration table that is sound, and the table is a
    sequence of entries of known types: mpinit returns, with the APIC numbers of the first eight processors in the order
    of the table, the number of the last I/O APIC and the address of the local APIC.  When an entry of another type
    comes first, mpinit runs for ever: the break leaves the switch and not the loop, so the panic after it is never
    reached. *)
Theorem mpinit_finds_processors m k mp len es fuel c :
  list_find (is_mp m) (places m) = Some (k, mp) -> load32 m (mp + 4) <> 0 ->
  let conf := P2V (load32 m (mp + 4)) in
  table_at m conf len -> c_cpus c = [] ->
  (entries_at m (conf + 44) es (conf + len) -> (length es <= fuel)%nat ->
   mpinit fuel m c = Ret tt {| c_cpus := take 8 (apic_ids es); c_ioapicid := io_id es (c_ioapicid c);
     c_lapic := load32 m (conf + 36); c_imcr := c_imcr c || negb (load8 m (mp + 12) =? 0) |}) /\
  (forall q, entries_at m (conf + 44) es q -> q < conf + len -> 4 < load8 m q -> mpinit fuel m c = NoFuel).
Proof.
  intros Hf Hp conf T Hc.
  assert (mp <> 0) as Hmp by (apply list_find_Some in Hf as (Hx & _); eapply places_nonzero, list_elem_of_lookup_2, Hx).
  pose proof (mpconfig_ok m k mp len Hf Hmp Hp T) as E. fold conf in E. pose proof (tb_length _ _ _ T) as El. unfold mpinit, conf_length, conf_lapicaddr, mp_imcrp. rewrite E, El.
  unfold bind, modify, MPCONF_SIZE. cbv beta iota. split.
  - intros He Hl. rewrite (mpinit_loop_ok es) by (done || (cbn; rewrite Hc; cbn; lia)). destruct c as [cp io la im]. cbn in Hc. subst cp.
    cbn [negb]. destruct (load8 m (mp + 12) =? 0); cbn [negb when]; [by rewrite orb_false_r|]. by rewrite orb_true_r.
  - intros q He Hq Ht. by rewrite (mpinit_loop_hangs es fuel m (conf + 44) q).
Qed.

Module MpWitness.
Definition fix_sum (l : list Z) (k : nat) : list Z := <[k := (- byte_sum l) mod 256]> l.

(** A machine with two processors, an I/O APIC and a bus. *)
Definition pointer_bytes : list Z := fix_sum (_MP_ ++ [0; 0; 15; 0; 1; 4; 0; 0; 0; 0; 0; 0]) 10.
Definition table_bytes : list Z :=
  fix_sum (PCMP ++ [100; 0; 4; 0] ++ replicate 28 0 ++ [0; 0; 224; 254; 0; 0; 0; 0] ++
    ([0; 3] ++ replicate 18 0) ++ ([0; 5] ++ replicate 18 0) ++ ([2; 9] ++ replicate 6 0) ++ ([1; 0] ++ replicate 6 0)) 7.
Definition bios : mem :=
  store_bytes (store_bytes (store_bytes ∅ (P2V 0x40E) [0xC0; 0x9F]) (P2V 0x9FC00) pointer_bytes) (P2V 0xF0000) table_bytes.

Lemma mpinit_finds_processors_witness : list_find (is_mp bios) (places bios) = Some (0%nat, P2V 0x9FC00) /\ table_at bios (P2V 0xF0000) 100 /\
  mpinit 4 bios {| c_cpus := []; c_ioapicid := 0; c_lapic := 0; c_imcr := false |} =
  Ret tt {| c_cpus := [3; 5]; c_ioapicid := 9; c_lapic := 0xFEE00000; c_imcr := false |}.
Proof.
  assert (list_find (is_mp bios) (places bios) = Some (0%nat, P2V 0x9FC00)) as Hf by (by vm_compute).
  assert (load32 bios (P2V 0x9FC00 + 4) = 0xF0000) as Ep by (by vm_compute).
  assert (table_at bios (P2V 0xF0000) 100) as T by (constructor; [by vm_compute|by vm_compute|right; by vm_compute|by vm_compute]).
  assert (entries_at bios (P2V 0xF0000 + 44) [Proc 3; Proc 5; IoApic 9; Other 1] (P2V 0xF0000 + 100)) as He
    by (cbn [entries_at entry_at entry_size]; split_and!; first [left; reflexivity | vm_compute; reflexivity]).
  assert (load32 bios (P2V 0xF0000 + 36) = 0xFEE00000) as El by (by vm_compute).
  assert (load8 bios (P2V 0x9FC00 + 12) = 0) as Ei by (by vm_compute).
  split; [exact Hf|split; [exact T|]].
  revert Hf Ep T He El Ei. generalize bios (P2V 0x9FC00). intros m mp Hf Ep T He El Ei.
  rewrite (proj1 (mpinit_finds_processors m 0 mp 100 [Proc 3; Proc 5; IoApic 9; Other 1] 4
    {| c_cpus := []; c_ioapicid := 0; c_lapic := 0; c_imcr := false |}
    Hf ltac:(rewrite Ep; discriminate) ltac:(rewrite Ep; exact T) eq_refl)); rewrite ?Ep; [|exact He|cbn; lia].
  rewrite El, Ei. reflexivity.
Defined.
End MpWitness.
