(* ===== verification/Apic.v ===== *)
(** The interrupt controllers and the clock: src/src/lapic.c, src/src/ioapic.c and
    src/src/picirq.c, with mycpu and cpuid of src/src/proc.c.

    What the code writes to the local APIC and to the ports is kept as the sequence
    of its writes, in their order; what a processor does when it gets an
    interprocessor interrupt is read off that sequence ([deliver]).  The value of a
    local APIC register, and of a CMOS register, is a function of the number of the
    read, since the hardware changes them between two reads. *)

From stdpp Require Import base gmap list strings.
From Stdlib Require Import ZArith Lia.
From S2P Require Import Prelude Mem Str Mmu State Trap Mp.

Definition IRQ_ERROR : Z := 19.

(** ** The local APIC *)

Definition ID : Z := 0x0020 / 4.
Definition VER : Z := 0x0030 / 4.
Definition TPR : Z := 0x0080 / 4.
Definition EOI : Z := 0x00B0 / 4.
Definition SVR : Z := 0x00F0 / 4.
Definition ENABLE : Z := 0x00000100.
Definition ESR : Z := 0x0280 / 4.
Definition ICRLO : Z := 0x0300 / 4.
Definition INIT : Z := 0x00000500.
Definition STARTUP : Z := 0x00000600.
Definition DELIVS : Z := 0x00001000.
Definition ASSERT : Z := 0x00004000.
Definition LEVEL : Z := 0x00008000.
Definition BCAST : Z := 0x00080000.
Definition ICRHI : Z := 0x0310 / 4.
Definition TIMER : Z := 0x0320 / 4.
Definition X1 : Z := 0x0000000B.
Definition PERIODIC : Z := 0x00020000.
Definition PCINT : Z := 0x0340 / 4.
Definition LINT0 : Z := 0x0350 / 4.
Definition LINT1 : Z := 0x0360 / 4.
Definition ERROR : Z := 0x0370 / 4.
Definition MASKED : Z := 0x00010000.
Definition TICR : Z := 0x0380 / 4.
Definition TDCR : Z := 0x03E0 / 4.
Definition CMOS_PORT : Z := 0x70.

Inductive event := Lapic (index value : Z) | Outb (port value : Z).

(** [a_lapic] is the pointer, 0 before mpinit; [a_ram] the physical memory. *)
Record apic := { a_lapic : Z; a_reads : nat; a_out : list event; a_ram : mem }.

#[global] Instance eta_apic : Eta apic := fun a =>
  {| a_lapic := a_lapic a; a_reads := a_reads a; a_out := a_out a; a_ram := a_ram a |}.

Definition outb (port v : Z) : M apic unit := modify (fun a => a <| a_out ::= fun l => l ++ [Outb port v] |>).

Section Lapic.
Context (lapic_read : nat -> Z -> Z).

Definition lapic_get (index : Z) : M apic Z :=
  k <- gets a_reads ;; modify (fun a => a <| a_reads := S k |>) ;;; ret (lapic_read k index).

Definition lapicw (index value : Z) : M apic unit :=
  modify (fun a => a <| a_out ::= fun l => l ++ [Lapic index (u32 value)] |>) ;;; lapic_get ID ;;; ret tt.

Fixpoint wait_delivs (fuel : nat) : M apic unit :=
  match fuel with
  | O => no_fuel
  | S fuel => v <- lapic_get ICRLO ;; if negb (Z.land v DELIVS =? 0) then wait_delivs fuel else ret tt
  end.

Definition lapicinit (fuel : nat) : M apic unit :=
  p <- gets a_lapic ;;
  if p =? 0 then ret tt
  else
    lapicw SVR (Z.lor ENABLE (T_IRQ0 + IRQ_SPURIOUS)) ;;;
    lapicw TDCR X1 ;;;
    lapicw TIMER (Z.lor PERIODIC (T_IRQ0 + IRQ_TIMER)) ;;;
    lapicw TICR 10000000 ;;;
    lapicw LINT0 MASKED ;;;
    lapicw LINT1 MASKED ;;;
    v <- lapic_get VER ;;
    when (4 <=? Z.land (Z.shiftr v 16) 0xFF) (lapicw PCINT MASKED) ;;;
    lapicw ERROR (T_IRQ0 + IRQ_ERROR) ;;;
    lapicw ESR 0 ;;;
    lapicw ESR 0 ;;;
    lapicw EOI 0 ;;;
    lapicw ICRHI 0 ;;;
    lapicw ICRLO (Z.lor (Z.lor BCAST INIT) LEVEL) ;;;
    wait_delivs fuel ;;;
    lapicw TPR 0.

Definition lapicid : M apic Z :=
  p <- gets a_lapic ;;
  if p =? 0 then ret 0 else v <- lapic_get ID ;; ret (Z.shiftr v 24).

Definition lapiceoi : M apic unit :=
  p <- gets a_lapic ;;
  when (negb (p =? 0)) (lapicw EOI 0).

Definition lapicstartap (apicid addr : Z) : M apic unit :=
  outb CMOS_PORT 0xF ;;;
  outb (CMOS_PORT + 1) 0x0A ;;;
  let wrv := V2P (P2V (Z.lor (Z.shiftl 0x40 4) 0x67)) in
  modify (fun a => a <| a_ram ::= fun m => store16 m wrv 0 |>) ;;;
  modify (fun a => a <| a_ram ::= fun m => store16 m (wrv + 2) (Z.shiftr addr 4) |>) ;;;
  lapicw ICRHI (Z.shiftl apicid 24) ;;;
  lapicw ICRLO (Z.lor (Z.lor INIT LEVEL) ASSERT) ;;;
  lapicw ICRLO (Z.lor INIT LEVEL) ;;;
  for_each [0; 1] (fun _ =>
    lapicw ICRHI (Z.shiftl apicid 24) ;;;
    lapicw ICRLO (Z.lor STARTUP (Z.shiftr addr 12))).

(** The index in cpus of the processor whose APIC number is [apicid]. *)
Definition find_cpu (cpus : list Z) (apicid : Z) : option nat := fst <$> list_find (fun a => a = apicid) cpus.

Definition mycpu (fl_if : bool) (cpus : list Z) : M apic nat :=
  if fl_if then panic "mycpu called with interrupts enabled"
  else
    apicid <- lapicid ;;
    match find_cpu cpus apicid with Some i => ret i | None => panic "unknown apicid" end.

Definition cpuid (fl_if : bool) (cpus : list Z) : M apic nat := mycpu fl_if cpus.
End Lapic.

(** ** The old interrupt controllers *)

Definition picinit : M apic unit := outb (0x20 + 1) 0xFF ;;; outb (0xA0 + 1) 0xFF.

(** ** The I/O APIC *)

Definition REG_ID : Z := 0x00.
Definition REG_VER : Z := 0x01.
Definition REG_TABLE : Z := 0x10.
Definition INT_DISABLED : Z := 0x00010000.

(** The index register, the registers behind it, and what cprintf was given. *)
Record ioapic := { io_reg : Z; io_data : gmap Z Z; io_printed : list string }.

#[global] Instance eta_ioapic : Eta ioapic := fun a => {| io_reg := io_reg a; io_data := io_data a; io_printed := io_printed a |}.

Definition ioapicread (reg : Z) : M ioapic Z :=
  modify (fun s => s <| io_reg := reg |>) ;;; gets (fun s => default 0 (io_data s !! io_reg s)).

Definition ioapicwrite (reg data : Z) : M ioapic unit :=
  modify (fun s => s <| io_reg := reg |>) ;;; modify (fun s => s <| io_data ::= <[io_reg s := u32 data]> |>).

Definition ioapicinit (ioapicid : Z) : M ioapic unit :=
  v <- ioapicread REG_VER ;;
  let maxintr := Z.land (Z.shiftr v 16) 0xFF in
  w <- ioapicread REG_ID ;;
  when (negb (Z.shiftr w 24 =? ioapicid))
    (modify (fun s => s <| io_printed ::= fun l => l ++ ["ioapicinit: id isn't equal to ioapicid; not a MP"%string] |>)) ;;;
  for_each (range 0 (Z.to_nat (maxintr + 1))) (fun i =>
    ioapicwrite (REG_TABLE + 2 * i) (Z.lor INT_DISABLED (T_IRQ0 + i)) ;;;
    ioapicwrite (REG_TABLE + 2 * i + 1) 0).

Definition ioapicenable (irq cpunum : Z) : M ioapic unit :=
  ioapicwrite (REG_TABLE + 2 * irq) (T_IRQ0 + irq) ;;;
  ioapicwrite (REG_TABLE + 2 * irq + 1) (Z.shiftl cpunum 24).

(** ** The clock *)

Definition CMOS_STATA : Z := 0x0a.
Definition CMOS_STATB : Z := 0x0b.
Definition CMOS_UIP : Z := Z.shiftl 1 7.
Definition SECS : Z := 0x00.
Definition MINS : Z := 0x02.
Definition HOURS : Z := 0x04.
Definition DAY : Z := 0x07.
Definition MONTH : Z := 0x08.
Definition YEAR : Z := 0x09.

Record rtcdate := { second : Z; minute : Z; hour : Z; day : Z; month : Z; year : Z }.

(** The fields of a date as it lies in memory. *)
Definition fields (r : rtcdate) : list Z := [second r; minute r; hour r; day r; month r; year r].
Definition store_date (m : mem) (a : Z) (r : rtcdate) : mem :=
  fst (fold_left (fun '(m, a) v => (store32 m a v, a + 4)) (fields r) (m, a)).

Section Clock.
Context (cmos : nat -> Z -> Z).

(** The state is the number of reads so far. *)
Definition cmos_read (reg : Z) : M nat Z := k <- gets id ;; modify S ;;; ret (cmos k reg).

Definition fill_rtcdate : M nat rtcdate :=
  s <- cmos_read SECS ;; mi <- cmos_read MINS ;; h <- cmos_read HOURS ;;
  d <- cmos_read DAY ;; mo <- cmos_read MONTH ;; y <- cmos_read YEAR ;;
  ret {| second := s; minute := mi; hour := h; day := d; month := mo; year := y |}.

Fixpoint read_date (fuel : nat) : M nat rtcdate :=
  match fuel with
  | O => no_fuel
  | S fuel =>
      t1 <- fill_rtcdate ;;
      a <- cmos_read CMOS_STATA ;;
      if negb (Z.land a CMOS_UIP =? 0) then read_date fuel
      else
        t2 <- fill_rtcdate ;;
        if memcmp (store_date (store_date ∅ 0 t1) 24 t2) 0 24 24 =? 0 then ret t1 else read_date fuel
  end.

Definition CONV (x : Z) : Z := u32 (u32 (Z.shiftr x 4 * 10) + Z.land x 0xf).

Definition cmostime (fuel : nat) : M nat rtcdate :=
  sb <- cmos_read CMOS_STATB ;;
  let bcd := Z.land sb (Z.shiftl 1 2) =? 0 in
  t1 <- read_date fuel ;;
  let r := if bcd then {| second := CONV (second t1); minute := CONV (minute t1); hour := CONV (hour t1);
                          day := CONV (day t1); month := CONV (month t1); year := CONV (year t1) |} else t1 in
  ret {| second := second r; minute := minute r; hour := hour r; day := day r; month := month r; year := u32 (year r + 2000) |}.
End Clock.

(** ** What cmostime returns *)

Definition is_word (x : Z) : Prop := 0 <= x < 2 ^ 32.

Lemma same_date t1 t2 : Forall is_word (fields t1) -> Forall is_word (fields t2) ->
  (memcmp (store_date (store_date ∅ 0 t1) 24 t2) 0 24 24 =? 0) = true <-> t1 = t2.
Proof.
  intros H1 H2. rewrite Z.eqb_eq, memcmp_zero, (same_words _ 0 24 6).
  assert (forall i, (i < 6)%nat -> load32 (store_date (store_date ∅ 0 t1) 24 t2) (0 + 4 * Z.of_nat i) = default 0 (fields t1 !! i) /\
    load32 (store_date (store_date ∅ 0 t1) 24 t2) (24 + 4 * Z.of_nat i) = default 0 (fields t2 !! i)) as E.
  { destruct t1, t2. unfold fields, is_word in H1, H2. cbn in H1, H2.
    repeat match goal with H : Forall _ (_ :: _) |- _ => apply Forall_cons_1 in H as [? H] end.
    intros i Hi. unfold store_date. cbn [fields fold_left fst]. do 6 (destruct i as [|i]; [split; cbn -[load32 store32];
      repeat rewrite load32_store32_ne by lia; rewrite load32_store32_eq by lia; done|]). lia. }
  split; [|intros <- i Hi; destruct (E i Hi) as [-> ->]; done].
  intros El. assert (fields t1 = fields t2) as [= ? ? ? ? ? ?]; [|destruct t1, t2; cbn in *; congruence].
  assert (forall i, (i < 6)%nat -> default 0 (fields t1 !! i) = default 0 (fields t2 !! i)) as Ef.
  { intros i Hi. destruct (E i Hi) as [<- <-]. by apply El. }
  destruct t1, t2. unfold fields. cbn.
  f_equal; [apply (Ef 0%nat)|f_equal; [apply (Ef 1%nat)|f_equal; [apply (Ef 2%nat)|f_equal; [apply (Ef 3%nat)|f_equal; [apply (Ef 4%nat)|f_equal; apply (Ef 5%nat)]]]]]; lia.
Qed.

(** The number [x] < 100 in a register of the clock. *)
Definition enc (bcd : bool) (x : Z) : Z := if bcd then 16 * (x / 10) + x mod 10 else x.
Definition raw (bcd : bool) (d : rtcdate) : rtcdate :=
  {| second := enc bcd (second d); minute := enc bcd (minute d); hour := enc bcd (hour d);
     day := enc bcd (day d); month := enc bcd (month d); year := enc bcd (year d - 2000) |}.

Definition is_date (d : rtcdate) : Prop :=
  Forall (fun x => 0 <= x < 100) [second d; minute d; hour d; day d; month d; year d - 2000].

Lemma CONV_enc x : 0 <= x < 100 -> CONV (enc true x) = x.
Proof.
  intros H. unfold CONV, enc. change 0xf with (Z.ones 4). rewrite Z.land_ones, Z.shiftr_div_pow2 by lia. unfold u32. dlia.
Qed.

Section ClockCorrect.
Context (cmos : nat -> Z -> Z) (bcd : bool) (date : nat -> rtcdate).

(** No update is under way at the [k]-th read. *)
Definition quiet (k : nat) : Prop := Z.land (cmos k CMOS_STATA) CMOS_UIP = 0.

(** The clock as its data sheet describes it, in 24-hour mode, in the years 2000 to 2099: [date k] is the date at the
    [k]-th read; when no update is under way at a read, the registers show that date there and at the six reads after it. *)
Record clock_ok : Prop := {
  ck_byte : forall k r, 0 <= cmos k r < 256;
  ck_mode : forall k, Z.land (cmos k CMOS_STATB) (Z.shiftl 1 2) =? 0 = bcd;
  ck_date : forall k, is_date (date k);
  ck_shown : forall k j, quiet k -> (k <= j <= k + 6)%nat ->
    [cmos j SECS; cmos j MINS; cmos j HOURS; cmos j DAY; cmos j MONTH; cmos j YEAR] = fields (raw bcd (date k));
}.

Definition filled (k : nat) : rtcdate :=
  {| second := cmos k SECS; minute := cmos (k + 1) MINS; hour := cmos (k + 2) HOURS;
     day := cmos (k + 3) DAY; month := cmos (k + 4) MONTH; year := cmos (k + 5) YEAR |}.

Lemma fill_spec k : fill_rtcdate cmos k = Ret (filled k) (k + 6)%nat.
Proof.
  unfold fill_rtcdate, cmos_read, bind, gets, modify, ret, filled, id. rewrite ?(Nat.add_comm k). done.
Qed.

Lemma filled_shown k j : clock_ok -> (forall i, (j <= i <= j + 5)%nat -> exists q, quiet q /\ (q <= i <= q + 6)%nat /\ date q = date k) ->
  filled j = raw bcd (date k).
Proof.
  intros C H. unfold filled, raw.
  destruct (H j ltac:(lia)) as (q0 & Q0 & L0 & E0). destruct (H (j + 1)%nat ltac:(lia)) as (q1 & Q1 & L1 & E1). destruct (H (j + 2)%nat ltac:(lia)) as (q2 & Q2 & L2 & E2).
  destruct (H (j + 3)%nat ltac:(lia)) as (q3 & Q3 & L3 & E3). destruct (H (j + 4)%nat ltac:(lia)) as (q4 & Q4 & L4 & E4). destruct (H (j + 5)%nat ltac:(lia)) as (q5 & Q5 & L5 & E5).
  pose proof (ck_shown C _ _ Q0 L0) as R0. pose proof (ck_shown C _ _ Q1 L1) as R1. pose proof (ck_shown C _ _ Q2 L2) as R2.
  pose proof (ck_shown C _ _ Q3 L3) as R3. pose proof (ck_shown C _ _ Q4 L4) as R4. pose proof (ck_shown C _ _ Q5 L5) as R5.
  rewrite E0 in R0. rewrite E1 in R1. rewrite E2 in R2. rewrite E3 in R3. rewrite E4 in R4. rewrite E5 in R5. unfold fields, raw in R0, R1, R2, R3, R4, R5. cbn [second minute hour day month year] in *.
  injection R0 as ? _ _ _ _ _. injection R1 as _ ? _ _ _ _. injection R2 as _ _ ? _ _ _. injection R3 as _ _ _ ? _ _. injection R4 as _ _ _ _ ? _. injection R5 as _ _ _ _ _ ?.
  f_equal; assumption.
Qed.

Lemma filled_words j : clock_ok -> Forall is_word (fields (filled j)).
Proof.
  intros C. assert (forall k r, is_word (cmos k r)) as B
    by (intros k r; pose proof (ck_byte C k r); unfold is_word; lia).
  unfold filled, fields. cbn [second minute hour day month year]. repeat (apply Forall_cons_2; [apply B|]). apply Forall_nil_2.
Qed.

Lemma read_date_spec n0 : clock_ok -> (forall j, (n0 <= j <= n0 + 26)%nat -> quiet j /\ date j = date n0) ->
  forall fuel k, (k <= n0 + 13)%nat -> (n0 < k + fuel)%nat -> (0 < fuel)%nat ->
  exists q n, read_date cmos fuel k = Ret (raw bcd (date q)) n /\ (k <= q < n)%nat /\ quiet q.
Proof.
  intros C Hn. induction fuel as [|fuel IH]; intros k Hk Hf H0; [lia|].
  cbn [read_date]. unfold bind at 1. rewrite fill_spec. unfold bind at 1. unfold cmos_read at 1. unfold bind at 1, gets at 1, bind at 1, modify at 1, ret at 1. cbv beta iota delta [id].
  assert ((n0 <= k)%nat -> quiet (k + 6)%nat /\ filled k = filled (S (k + 6))) as Now.
  { intros Hge. split; [apply Hn; lia|]. rewrite !(filled_shown n0); [done|done| |done|];
      intros i Hi; exists i; (split; [apply Hn; lia|]; split; [lia|]; apply Hn; lia). }
  destruct (Z.eqb_spec (Z.land (cmos (k + 6)%nat CMOS_STATA) CMOS_UIP) 0) as [Q|Q]; cbn [negb].
  - unfold bind at 1. rewrite fill_spec. destruct (memcmp _ _ _ _ =? 0) eqn:Em.
    + apply same_date in Em; [|by apply filled_words..]. exists (k + 6)%nat. eexists. split; [|split; [|exact Q]].
      * unfold ret. rewrite Em, (filled_shown (k + 6)); [done|done|]. intros i Hi. exists (k + 6)%nat. split; [exact Q|split; [lia|done]].
      * lia.
    + destruct (decide (n0 <= k)%nat) as [Hge|Hlt].
      * destruct (Now Hge) as [_ E]. apply same_date in E; [congruence|by apply filled_words..].
      * destruct (IH (S (k + 6) + 6)%nat) as (q & n & E & Hq & Qq); [lia..|]. exists q, n. split; [exact E|]. split; [lia|done].
  - destruct (decide (n0 <= k)%nat) as [Hge|Hlt]; [by destruct (Now Hge)|].
    destruct (IH (S (k + 6))) as (q & n & E & Hq & Qq); [lia..|]. exists q, n. split; [exact E|]. split; [lia|done].
Qed.

(** C39. cmostime returns a date the clock showed.  The clock may be updated between any two reads; if it is left alone once
    for 27 reads, cmostime returns, and its result is the date at a moment during the call at which no update was under
    way, whether the clock counts in BCD or in binary. *)
Theorem cmostime_reads_clock n0 fuel : clock_ok -> (forall j, (n0 <= j <= n0 + 26)%nat -> quiet j /\ date j = date n0) -> (n0 < fuel)%nat ->
  exists k n, cmostime cmos fuel 0%nat = Ret (date k) n /\ (k < n)%nat /\ quiet k.
Proof.
  intros C Hn Hf. destruct (read_date_spec n0 C Hn fuel 1) as (q & n & E & Hq & Qq); [lia..|]. exists q, n. split; [|split; [lia|done]].
  unfold cmostime. unfold bind at 1. unfold cmos_read at 1. unfold bind at 1, gets at 1, bind at 1, modify at 1, ret at 1. cbv beta iota delta [id].
  unfold bind. rewrite E. rewrite (ck_mode C). pose proof (ck_date C q) as D. unfold is_date in D. rewrite !Forall_cons in D.
  destruct D as (D1 & D2 & D3 & D4 & D5 & D6 & _). unfold ret, raw. f_equal. destruct bcd; cbn [second minute hour day month year].
  - rewrite !CONV_enc by lia. destruct (date q). cbn in *. rewrite u32_small by lia. f_equal. lia.
  - unfold enc. destruct (date q). cbn in *. rewrite u32_small by lia. f_equal. lia.
Qed.
End ClockCorrect.

(** ** Starting a processor *)

(** A processor runs from an address, or has got an INIT and waits for a start-up interrupt. *)
Inductive cpu_state := Running (ip : Z) | Waiting.

(** The processors by their APIC number, and the destination in the high word of the interrupt command register. *)
Record bus := { icr_dest : Z; b_cpus : gmap Z cpu_state }.

#[global] Instance eta_bus : Eta bus := fun b => {| icr_dest := icr_dest b; b_cpus := b_cpus b |}.

Definition on_init (c : cpu_state) : cpu_state := Waiting.
Definition on_startup (vector : Z) (c : cpu_state) : cpu_state := match c with Waiting => Running (4096 * vector) | _ => c end.

(** The Intel manual's interprocessor interrupts: the delivery mode is in bits 8 to 10 (5 is INIT, 6 start-up), bit 14 is
    the level and bit 15 says whether it counts (an INIT at level 0 resets no processor), bits 18 and 19 send it to others
    than the destination. *)
Definition deliver (b : bus) (e : event) : bus :=
  match e with
  | Outb _ _ => b
  | Lapic i v =>
      if i =? ICRHI then b <| icr_dest := v / 2 ^ 24 |>
      else if i =? ICRLO then
        let send f := b <| b_cpus ::= fun m => if Z.land (Z.shiftr v 18) 3 =? 0 then alter f (icr_dest b) m else f <$> m |> in
        let mode := Z.land (Z.shiftr v 8) 7 in
        if mode =? 5 then (if negb (Z.testbit v 15) || Z.testbit v 14 then send on_init else b)
        else if mode =? 6 then send (on_startup (Z.land v 255)) else b
      else b
  end.

Definition startap_events (apicid addr : Z) : list event :=
  [Outb 0x70 0xF; Outb 0x71 0x0A; Lapic ICRHI (2 ^ 24 * apicid); Lapic ICRLO 0xC500; Lapic ICRLO 0x8500;
   Lapic ICRHI (2 ^ 24 * apicid); Lapic ICRLO (0x600 + addr / 4096); Lapic ICRHI (2 ^ 24 * apicid); Lapic ICRLO (0x600 + addr / 4096)].

Lemma startup_word addr : 0 <= addr < 2 ^ 20 -> u32 (Z.lor STARTUP (Z.shiftr addr 12)) = 0x600 + addr / 4096.
Proof.
  intros H. rewrite Z.shiftr_div_pow2 by lia. change (2 ^ 12) with 4096. rewrite (lor_disjoint_add STARTUP _ 8); [|lia|done|dlia].
  unfold STARTUP. rewrite u32_small; dlia.
Qed.

Lemma lapicstartap_spec lr apicid addr s : 0 <= apicid < 256 -> 0 <= addr < 2 ^ 20 ->
  lapicstartap lr apicid addr s = Ret tt {| a_lapic := a_lapic s; a_reads := 7 + a_reads s; a_out := a_out s ++ startap_events apicid addr;
    a_ram := store16 (store16 (a_ram s) 0x467 0) 0x469 (addr / 16) |}.
Proof.
  intros Ha Hd. assert (u32 (Z.shiftl apicid 24) = 2 ^ 24 * apicid) as Ei by (rewrite Z.shiftl_mul_pow2 by lia; unfold u32; dlia).
  unfold lapicstartap, startap_events. change (V2P (P2V (Z.lor (Z.shiftl 64 4) 103))) with 0x467.
  cbv beta iota zeta delta [bind modify ret outb lapicw lapic_get gets for_each]. cbn [upd a_reads a_out a_ram a_lapic eta_apic].
  rewrite Ei, startup_word by done. rewrite Z.shiftr_div_pow2 by lia. destruct s. cbn. rewrite <- !app_assoc. done.
Qed.

Lemma deliver_dest b a : 0 <= a -> deliver b (Lapic ICRHI (2 ^ 24 * a)) = b <| icr_dest := a |>.
Proof. intros H. unfold deliver. rewrite Z.eqb_refl, Z.mul_comm, Z.div_mul by lia. done. Qed.

Lemma deliver_startup b k : 0 <= k < 256 -> deliver b (Lapic ICRLO (0x600 + k)) = b <| b_cpus ::= alter (on_startup k) (icr_dest b) |>.
Proof.
  intros H. unfold deliver. change (ICRLO =? ICRHI) with false. rewrite Z.eqb_refl.
  rewrite !Z.shiftr_div_pow2 by lia. assert ((0x600 + k) / 2 ^ 8 = 6) as -> by (change (2 ^ 8) with 256; dlia).
  assert ((0x600 + k) / 2 ^ 18 = 0) as -> by (apply Z.div_small; lia). change 255 with (Z.ones 8). rewrite Z.land_ones by lia.
  assert ((0x600 + k) mod 2 ^ 8 = k) as -> by (change (2 ^ 8) with 256; dlia). cbn iota beta. done.
Qed.

Lemma startap_delivered apicid addr b : 0 <= apicid -> 0 <= addr < 2 ^ 20 -> addr mod 4096 = 0 ->
  fold_left deliver (startap_events apicid addr) b = {| icr_dest := apicid; b_cpus := alter (fun _ => Running addr) apicid (b_cpus b) |}.
Proof.
  intros Ha H Hm. unfold startap_events. cbn [fold_left]. rewrite !deliver_dest, !deliver_startup by dlia.
  assert (forall b, deliver b (Lapic ICRLO 0xC500) = b <| b_cpus ::= alter on_init (icr_dest b) |>) as Ei by done.
  assert (forall b, deliver b (Lapic ICRLO 0x8500) = b) as Ed by done.
  rewrite Ei, Ed. destruct b as [d m]. cbn -[alter]. f_equal.
  apply map_eq. intros j. rewrite !lookup_alter. destruct (decide (apicid = j)); [|done].
  rewrite !decide_True by done. destruct (m !! apicid); cbn; [|done].
  do 2 f_equal. dlia.
Qed.

(** ** The local APIC of a processor *)

(** The value last written to a register. *)
Definition written (es : list event) (i : Z) : option Z :=
  fold_left (fun o e => match e with Lapic j v => if j =? i then Some v else o | _ => o end) es None.

Lemma wait_delivs_ok lr : forall fuel s k, (a_reads s <= k)%nat -> Z.land (lr k ICRLO) DELIVS = 0 -> (k < a_reads s + fuel)%nat ->
  exists n, wait_delivs lr fuel s = Ret tt (s <| a_reads := n |>).
Proof.
  induction fuel as [|fuel IH]; intros s k Hk Hd Hf; [lia|]. cbn [wait_delivs]. unfold lapic_get, bind, gets, modify, ret.
  destruct (Z.land (lr (a_reads s) ICRLO) DELIVS =? 0) eqn:E; cbn [negb]; [by eexists|].
  assert (a_reads s <> k) by (intros <-; by apply Z.eqb_neq in E).
  destruct (IH (s <| a_reads := S (a_reads s) |>) k) as [n ->]; cbn; [lia|done|lia|]. by exists n; destruct s.
Qed.

(** lapicinit returns, once the delivery of its interrupt is over, and leaves the timer running with the vector of the
    timer, errors going to the vector of errors, the two interrupt lines masked, and no processor disturbed. *)
Lemma lapicinit_spec lr fuel s k : a_lapic s <> 0 -> (a_reads s + 16 <= k)%nat -> Z.land (lr k ICRLO) DELIVS = 0 -> (k < a_reads s + fuel)%nat ->
  exists es n, lapicinit lr fuel s = Ret tt (s <| a_reads := n |> <| a_out ::= fun l => l ++ es |>) /\
    written es SVR = Some (0x100 + (T_IRQ0 + IRQ_SPURIOUS)) /\ written es TIMER = Some (0x20000 + (T_IRQ0 + IRQ_TIMER)) /\
    written es ERROR = Some (T_IRQ0 + IRQ_ERROR) /\ written es LINT0 = Some 0x10000 /\ written es LINT1 = Some 0x10000 /\ written es TPR = Some 0 /\
    forall b, b_cpus (fold_left deliver es b) = b_cpus b.
Proof.
  intros Hp Hk Hd Hf. unfold lapicinit. unfold bind at 1, gets at 1. apply Z.eqb_neq in Hp. rewrite Hp.
  cbv beta iota zeta delta [bind modify ret lapicw lapic_get gets when]. cbn [upd a_reads a_out a_ram a_lapic eta_apic].
  destruct (4 <=? Z.land _ 255);
    (match goal with |- context [wait_delivs lr fuel ?s'] => destruct (wait_delivs_ok lr fuel s' k) as [n ->]; [cbn; lia|done|cbn; lia|] end);
    (eexists; exists (S n); split; [destruct s; cbn; rewrite <- !app_assoc; cbn; reflexivity|]); by vm_compute.
Qed.

(** mycpu finds the entry of the processor it runs on. *)
Lemma mycpu_spec lr cpus i a s : NoDup cpus -> cpus !! i = Some a -> a_lapic s <> 0 -> Z.shiftr (lr (a_reads s) ID) 24 = a ->
  mycpu lr false cpus s = Ret i (s <| a_reads ::= S |>).
Proof.
  intros Hn Hi Hp Ha. unfold mycpu, lapicid, lapic_get, bind, gets, modify, ret. apply Z.eqb_neq in Hp. rewrite Hp, Ha.
  unfold find_cpu. assert (list_find (fun x => x = a) cpus = Some (i, a)) as ->; [|by destruct s].
  apply list_find_Some. split_and!; [done|done|]. intros j y Hj Hlt ->. pose proof (NoDup_lookup _ _ _ _ Hn Hi Hj). lia.
Qed.

(** ** Where interrupts go *)

Definition low (d : gmap Z Z) (i : Z) : Z := default 0 (d !! (REG_TABLE + 2 * i)).
Definition high (d : gmap Z Z) (i : Z) : Z := default 0 (d !! (REG_TABLE + 2 * i + 1)).

(** The redirection table, for the first [n] interrupts: interrupt [i] has the vector 32 + [i], and goes to the APIC
    number [t] gives for it, if it is enabled. *)
Definition routes (d : gmap Z Z) (n : Z) (t : gmap Z Z) : Prop := forall i, 0 <= i < n ->
  low d i mod 256 = T_IRQ0 + i /\ (if Z.testbit (low d i) 16 then None else Some (high d i / 2 ^ 24)) = t !! i.

Lemma ioapicwrite_spec reg v s : ioapicwrite reg v s =
  Ret tt {| io_reg := reg; io_data := <[reg := u32 v]> (io_data s); io_printed := io_printed s |}.
Proof. by destruct s. Qed.

Lemma ioapicenable_routes irq cpu n t s : 0 <= irq < 224 -> 0 <= cpu < 256 -> routes (io_data s) n t ->
  exists s', ioapicenable irq cpu s = Ret tt s' /\ routes (io_data s') n (<[irq := cpu]> t).
Proof.
  intros Hi Hc R. unfold ioapicenable, bind. rewrite ioapicwrite_spec, ioapicwrite_spec. eexists. split; [done|]. cbn [io_data].
  unfold T_IRQ0. rewrite Z.shiftl_mul_pow2, !u32_small by lia. intros i Hin. specialize (R i Hin). unfold low, high, REG_TABLE in *. rewrite !(lookup_insert t).
  destruct (decide (irq = i)) as [<-|Hne].
  - rewrite lookup_insert_ne, !lookup_insert, !decide_True by lia. cbn [default]. split; [unfold T_IRQ0; cbn; apply Z.mod_small; lia|].
    rewrite (Z.bits_above_log2 _ 16); [|cbn; lia|apply Z.log2_lt_pow2; cbn; lia]. cbn. by rewrite Z.div_mul.
  - by rewrite !lookup_insert_ne by lia.
Qed.

Lemma ioapicinit_loop k : forall a s, 0 <= a -> a + Z.of_nat k <= 224 -> routes (io_data s) a ∅ ->
  exists s', for_each (range a k) (fun i => ioapicwrite (REG_TABLE + 2 * i) (Z.lor INT_DISABLED (T_IRQ0 + i)) ;;;
    ioapicwrite (REG_TABLE + 2 * i + 1) 0) s = Ret tt s' /\ routes (io_data s') (a + Z.of_nat k) ∅.
Proof.
  induction k as [|k IH]; intros a s Ha Hk R; [exists s; split; [done|]; by rewrite Z.add_0_r|].
  cbn [range for_each]. unfold bind. rewrite !ioapicwrite_spec. cbn iota.
  match goal with |- context [for_each _ _ ?s0] => destruct (IH (a + 1) s0) as (s' & E & R') end; [lia|lia| |exists s'; split; [exact E|]; by replace (a + Z.of_nat (S k)) with (a + 1 + Z.of_nat k) by lia].
  cbn [io_data]. rewrite (lor_disjoint_add _ _ 16); [|lia|done|unfold T_IRQ0; lia]. rewrite !u32_small by (unfold INT_DISABLED, T_IRQ0; lia).
  intros i Hi. unfold low, high, REG_TABLE, INT_DISABLED in *. destruct (decide (i = a)) as [->|Hne].
  - rewrite lookup_insert_ne, !lookup_insert, !decide_True by lia. cbn [default from_option id]. split; [unfold T_IRQ0; dlia|].
    assert (Z.testbit (65536 + (T_IRQ0 + a)) 16 = true) as ->; [|done]. rewrite Z.testbit_true by lia.
    replace ((65536 + (T_IRQ0 + a)) / 2 ^ 16) with 1 by (unfold T_IRQ0; change (2 ^ 16) with 65536; dlia). done.
  - rewrite !lookup_insert_ne by lia. apply R. lia.
Qed.

Lemma ioapicinit_routes id s n : Z.land (Z.shiftr (default 0 (io_data s !! REG_VER)) 16) 0xFF = n - 1 -> 0 < n <= 224 ->
  exists s', ioapicinit id s = Ret tt s' /\ routes (io_data s') n ∅.
Proof.
  intros Hv Hn. unfold ioapicinit, ioapicread, bind, modify, gets, when, ret. cbn [io_data io_reg io_printed upd eta_ioapic]. rewrite Hv.
  replace (n - 1 + 1) with n by lia.
  destruct (negb _); (match goal with |- context [for_each _ _ ?s0] => destruct (ioapicinit_loop (Z.to_nat n) 0 s0) as (s' & E & R) end;
    [lia|lia|intros i Hi; lia|exists s'; split; [exact E|]; by rewrite Z2Nat.id in R by lia]).
Qed.

(** What main, through consoleinit, uartinit and ideinit, tells the I/O APIC of a machine with a serial port. *)
Definition route_interrupts (ioapicid ncpu : Z) : M ioapic unit :=
  ioapicinit ioapicid ;;;
  ioapicenable IRQ_KBD 0 ;;;
  ioapicenable IRQ_COM1 0 ;;;
  ioapicenable IRQ_IDE (ncpu - 1).

(** C28. Where interrupts go after the kernel has started.  Whatever the I/O APIC's registers held, every interrupt has the
    vector the trap handler expects; the keyboard's and the serial port's go to the processor with APIC number 0, the
    disk's to the one with APIC number ncpu - 1, and all others are disabled.  So the disk's interrupt reaches one of the
    processors mpinit found exactly when one of them has the number ncpu - 1, which the numbers need not have. *)
Theorem interrupts_routed ioapicid s n cpus : Z.land (Z.shiftr (default 0 (io_data s !! REG_VER)) 16) 0xFF = n - 1 -> 14 < n <= 224 ->
  (0 < length cpus <= NCPU)%nat ->
  let ncpu := Z.of_nat (length cpus) in
  exists s', route_interrupts ioapicid ncpu s = Ret tt s' /\
    routes (io_data s') n (<[IRQ_IDE := ncpu - 1]> (<[IRQ_COM1 := 0]> {[IRQ_KBD := 0]})) /\
    ((exists a, a ∈ cpus /\ high (io_data s') IRQ_IDE / 2 ^ 24 = a) <-> ncpu - 1 ∈ cpus).
Proof.
  intros Hv Hn Hc ncpu. unfold NCPU in Hc. unfold route_interrupts. unfold bind. destruct (ioapicinit_routes ioapicid s n Hv ltac:(lia)) as (s1 & -> & R1).
  destruct (ioapicenable_routes IRQ_KBD 0 n _ s1 ltac:(unfold IRQ_KBD; lia) ltac:(lia) R1) as (s2 & -> & R2).
  destruct (ioapicenable_routes IRQ_COM1 0 n _ s2 ltac:(unfold IRQ_COM1; lia) ltac:(lia) R2) as (s3 & -> & R3).
  destruct (ioapicenable_routes IRQ_IDE (ncpu - 1) n _ s3 ltac:(unfold IRQ_IDE; lia) ltac:(lia) R3) as (s4 & -> & R4).
  exists s4. split; [done|]. split; [exact R4|].
  destruct (R4 IRQ_IDE ltac:(unfold IRQ_IDE; lia)) as [_ R]. rewrite lookup_insert, decide_True in R by done.
  destruct (Z.testbit _ _); [done|]. injection R as R. rewrite R. split; [by intros (a & Ha & ->)|]. intros H. by exists (ncpu - 1).
Qed.

Module ApicWitness.

(** An I/O APIC with 24 interrupts, and two processors with the numbers 3 and 5: no processor gets the disk's interrupt. *)
Lemma interrupts_routed_witness : exists s',
  route_interrupts 0 2 {| io_reg := 0; io_data := {[REG_VER := 0x170011]}; io_printed := [] |} = Ret tt s' /\
  ~ exists a, a ∈ [3; 5] /\ high (io_data s') IRQ_IDE / 2 ^ 24 = a.
Proof.
  destruct (interrupts_routed 0 {| io_reg := 0; io_data := {[REG_VER := 0x170011]}; io_printed := [] |} 24 [3; 5] ltac:(by vm_compute) ltac:(lia) ltac:(cbn; unfold NCPU; lia))
    as (s' & E & _ & H). exists s'. split; [exact E|]. rewrite H. cbn. rewrite !elem_of_cons, elem_of_nil. lia.
Defined.

(** The clock of a machine that counts in BCD and is being updated at the first reads. *)
Definition noon : rtcdate := {| second := 59; minute := 34; hour := 12; day := 31; month := 10; year := 2026 |}.
Definition clock (k : nat) (r : Z) : Z :=
  if r =? CMOS_STATA then (if (k <? 10)%nat then 0xA6 else 0x26)
  else if r =? CMOS_STATB then 2
  else if r =? SECS then 0x59 else if r =? MINS then 0x34 else if r =? HOURS then 0x12
  else if r =? DAY then 0x31 else if r =? MONTH then 0x10 else 0x26.

Lemma clock_good : clock_ok clock true (fun _ => noon).
Proof.
  constructor.
  - intros k r. unfold clock. repeat match goal with |- context [if ?b then _ else _] => destruct b end; lia.
  - done.
  - intros _. unfold is_date, noon. cbn. repeat (apply Forall_cons_2; [lia|]). apply Forall_nil_2.
  - done.
Qed.

Lemma cmostime_reads_clock_witness : clock_ok clock true (fun _ => noon) /\ exists n, cmostime clock 11 0%nat = Ret noon n.
Proof.
  split; [exact clock_good|].
  destruct (cmostime_reads_clock clock true (fun _ => noon) 10 11 clock_good) as (k & n & E & _); [|lia|exists n; exact E].
  intros j Hj. split; [|done]. unfold quiet, clock. cbn [Z.eqb]. destruct (Nat.ltb_spec j 10); [lia|]. done.
Defined.
End ApicWitness.
