(* ===== verification/Main.v ===== *)
(** Starting the other processors: startothers of src/src/main.c, with the words
    src/src/entryother.S reads.

    startothers runs on the boot processor before the first process.  For each
    other processor it allocates a stack, leaves three words below the entry code
    at 0x7000, has the processor started through the local APIC (Apic.v), and waits
    for it to say that it runs.  A processor that starts at the entry code reads its
    words, and sets its flag before the boot processor goes on. *)

From stdpp Require Import base gmap list strings.
From Stdlib Require Import ZArith Lia.
From S2P Require Import Prelude Mem Str Mmu State Kalloc Mp Apic.

(** What a processor starts with: the code it runs, its page directory, its stack pointer and the function it calls. *)
Record ap_start := { ap_code : list Z; ap_cr3 : Z; ap_esp : Z; ap_eip : Z }.

Section Main.
Context {F : Type} {KI : KernelImage}.
Context (lapic_read : nat -> Z -> Z) (entryother_start entryother_size mpenter entrypgdir : Z).

Record smp := { sm_k : kst F; sm_lapic : Z; sm_reads : nat; sm_bus : bus; sm_started : list (Z * ap_start) }.

#[global] Instance eta_smp : Eta smp := fun s =>
  {| sm_k := sm_k s; sm_lapic := sm_lapic s; sm_reads := sm_reads s; sm_bus := sm_bus s; sm_started := sm_started s |}.

Definition in_kernel {A} (c : M (kst F) A) : M smp A := fun s =>
  match c (sm_k s) with
  | Ret a k => Ret a (s <| sm_k := k |>)
  | Panic msg => Panic msg
  | Sleep ch k => Sleep ch (s <| sm_k := k |>)
  | Crash w => Crash w
  | NoFuel => NoFuel
  end.

(** A call of the local APIC driver; the processors get the interrupts it sends. *)
Definition in_apic {A} (c : M apic A) : M smp A := fun s =>
  let back a := s <| sm_k ::= fun k => k <| k_phys := a_ram a |> |> <| sm_reads := a_reads a |> <| sm_bus := fold_left deliver (a_out a) (sm_bus s) |> in
  match c {| a_lapic := sm_lapic s; a_reads := sm_reads s; a_out := []; a_ram := k_phys (sm_k s) |} with
  | Ret x a => Ret x (back a)
  | Panic msg => Panic msg
  | Sleep ch a => Sleep ch (back a)
  | Crash w => Crash w
  | NoFuel => NoFuel
  end.

Definition code : Z := P2V 0x7000.

(** A store of a word at a kernel address. *)
Definition put32 (a v : Z) : M smp unit := modify (fun s => s <| sm_k ::= fun k => k <| k_phys ::= fun m => store32 m (V2P a) v |> |>).

(** entryother.S, at the physical address [start]. *)
Definition entryother (m : mem) (start : Z) : ap_start :=
  {| ap_code := load_bytes m start (Z.to_nat entryother_size); ap_cr3 := load32 m (start - 12);
     ap_esp := load32 m (start - 4); ap_eip := load32 m (start - 8) |}.

(** The processor [apicid], if it runs, enters the kernel and sets its flag. *)
Definition run_ap (apicid : Z) : M smp unit := modify (fun s =>
  match b_cpus (sm_bus s) !! apicid with
  | Some (Running ip) => s <| sm_started ::= fun l => l ++ [(apicid, entryother (k_phys (sm_k s)) ip)] |>
  | _ => s
  end).

(** The loop on c->started: the flag is set, or it never will be. *)
Definition wait_started (apicid : Z) : M smp unit :=
  l <- gets sm_started ;; if decide (apicid ∈ l.*1) then ret tt else no_fuel.

Definition startother (apicid : Z) : M smp unit :=
  stack <- in_kernel kalloc ;;
  put32 (code - 4) (u32 (stack + KSTACKSIZE)) ;;;
  put32 (code - 8) mpenter ;;;
  put32 (code - 12) (V2P entrypgdir) ;;;
  in_apic (lapicstartap lapic_read apicid (V2P code)) ;;;
  run_ap apicid ;;;
  wait_started apicid.

Definition startothers (cpus : list Z) : M smp unit :=
  modify (fun s => s <| sm_k ::= fun k => k <| k_phys ::= fun m => memmove m (V2P code) (V2P entryother_start) entryother_size |> |>) ;;;
  for_each (imap pair cpus) (fun c =>
    me <- in_apic (mycpu lapic_read false cpus) ;;
    if decide (c.1 = me) then ret tt else startother c.2).

(** ** One processor *)

(** The memory after startother has written the words of a processor with the stack [p]. *)
Definition words_mem (m : mem) (p : Z) : mem :=
  store16 (store16 (store32 (store32 (store32 m 0x6FFC (p + 4096)) 0x6FF8 mpenter) 0x6FF4 (V2P entrypgdir)) 0x467 0) 0x469 0x700.

Lemma words_mem_ne m p a : 0x46B <= a < 0x6FF4 \/ 0x7000 <= a -> load8 (words_mem m p) a = load8 m a.
Proof. intros H. unfold words_mem. rewrite !load8_store16_ne, !load8_store32_ne by lia. done. Qed.

Lemma words_mem_words m p : 0 <= mpenter < 2 ^ 32 -> 0 <= p + 4096 < 2 ^ 32 ->
  load32 (words_mem m p) 0x6FFC = p + 4096 /\ load32 (words_mem m p) 0x6FF8 = mpenter /\ load32 (words_mem m p) 0x6FF4 = V2P entrypgdir.
Proof.
  intros Hm Hp. unfold words_mem. rewrite !load32_store16_ne by lia.
  split_and!; repeat rewrite load32_store32_ne by lia; apply load32_store32_eq; [lia|lia|]. unfold V2P, u32. apply Z.mod_pos_bound. lia.
Qed.

Lemma in_kernel_kalloc s p l : kmem_inv (sm_k s) (p :: l) ->
  in_kernel kalloc s = Ret p (s <| sm_k := kalloc_post (sm_k s) p |>).
Proof. intros H. unfold in_kernel. by rewrite (kalloc_head _ _ _ H). Qed.

Lemma in_apic_startap s a : 0 <= a < 256 -> in_apic (lapicstartap lapic_read a 0x7000) s =
  Ret tt (s <| sm_k ::= fun k => k <| k_phys ::= fun m => store16 (store16 m 0x467 0) 0x469 0x700 |> |> <| sm_reads ::= fun n => (7 + n)%nat |>
    <| sm_bus := {| icr_dest := a; b_cpus := alter (fun _ => Running 0x7000) a (b_cpus (sm_bus s)) |} |>).
Proof.
  intros H. unfold in_apic. rewrite lapicstartap_spec by lia. cbn [a_out a_ram a_reads app]. rewrite startap_delivered by (done || lia).
  change (0x7000 / 16) with 0x700. by destruct s as [[] ? ? ? ?].
Qed.

Lemma kpage_small p : kpage p -> 0 <= p + 4096 < 2 ^ 32.
Proof. intros H. pose proof (V2P_kpage p H) as E. destruct (kpage_V2P_range p H) as (H1 & H2 & _). destruct H as (_ & _ & H). rewrite E in H2. klia. Qed.

(** The state in which the processor [a] has started with the stack [p]. *)
Definition booted (s : smp) (a p : Z) : smp :=
  {| sm_k := (sm_k s) <| k_phys := words_mem (k_phys (sm_k s)) p |>; sm_lapic := sm_lapic s; sm_reads := (7 + sm_reads s)%nat;
     sm_bus := {| icr_dest := a; b_cpus := <[a := Running 0x7000]> (b_cpus (sm_bus s)) |};
     sm_started := sm_started s ++ [(a, {| ap_code := load_bytes (k_phys (sm_k s)) 0x7000 (Z.to_nat entryother_size);
                                          ap_cr3 := V2P entrypgdir; ap_esp := p + 4096; ap_eip := mpenter |})] |}.

Lemma put_words s p : 0 <= p + 4096 < 2 ^ 32 ->
  (put32 (code - 4) (u32 (p + KSTACKSIZE)) ;;; put32 (code - 8) mpenter ;;; put32 (code - 12) (V2P entrypgdir)) s =
  Ret tt (s <| sm_k ::= fun k => k <| k_phys ::= fun m => store32 (store32 (store32 m 0x6FFC (p + 4096)) 0x6FF8 mpenter) 0x6FF4 (V2P entrypgdir) |> |>).
Proof.
  intros Hp. unfold put32, modify, bind. change (V2P (code - 4)) with 0x6FFC. change (V2P (code - 8)) with 0x6FF8. change (V2P (code - 12)) with 0x6FF4.
  unfold KSTACKSIZE. rewrite (u32_small (p + 4096)) by lia. by destruct s as [[] ? ? ? ?].
Qed.

Lemma entryother_words m p : 0 <= entryother_size -> 0 <= mpenter < 2 ^ 32 -> 0 <= p + 4096 < 2 ^ 32 -> entryother (words_mem m p) 0x7000 =
  {| ap_code := load_bytes m 0x7000 (Z.to_nat entryother_size); ap_cr3 := V2P entrypgdir; ap_esp := p + 4096; ap_eip := mpenter |}.
Proof.
  intros H0 Hm Hr. unfold entryother. change (0x7000 - 12) with 0x6FF4. change (0x7000 - 4) with 0x6FFC. change (0x7000 - 8) with 0x6FF8.
  destruct (words_mem_words m p Hm Hr) as (-> & -> & ->). f_equal. apply load_bytes_ext. intros b Hb. rewrite words_mem_ne by lia. done.
Qed.

(** From the words on: the processor starts, and the boot processor sees it. *)
Lemma start_and_wait s a p : 0 <= a < 256 -> is_Some (b_cpus (sm_bus s) !! a) ->
  0 <= entryother_size -> 0 <= mpenter < 2 ^ 32 -> 0 <= p + 4096 < 2 ^ 32 ->
  (put32 (code - 4) (u32 (p + KSTACKSIZE)) ;;; put32 (code - 8) mpenter ;;; put32 (code - 12) (V2P entrypgdir) ;;;
   in_apic (lapicstartap lapic_read a (V2P code)) ;;; run_ap a ;;; wait_started a) s = Ret tt (booted s a p).
Proof.
  intros Ha [st Hst] H0 Hm Hr. pose proof (put_words s p Hr) as E. unfold bind in *. destruct (put32 (code - 4) _ s) as [[] s1| | | |]; try done.
  destruct (put32 (code - 8) _ s1) as [[] s2| | | |]; try done. rewrite E. change (V2P code) with 0x7000. rewrite in_apic_startap by done.
  unfold booted. rewrite <- (entryother_words _ _ H0 Hm Hr). destruct s as [k lp rd bs started]. destruct k. cbn in Hst.
  unfold run_ap, modify, wait_started, gets, bind. cbn -[store16 store32 entryother alter insert lookup].
  assert (alter (fun _ => Running 28672) a (b_cpus bs) !! a = Some (Running 28672)) as -> by (rewrite lookup_alter, decide_True, Hst by done; done).
  cbn -[store16 store32 entryother alter insert lookup].
  rewrite decide_True by (rewrite fmap_app; apply elem_of_app; right; by left). unfold ret, words_mem. f_equal. f_equal. f_equal.
  apply map_eq. intros j. rewrite lookup_alter, lookup_insert. destruct (decide (a = j)); [subst j; by rewrite Hst|done].
Qed.

Lemma startother_step s a p l : kmem_inv (sm_k s) (p :: l) -> 0 <= a < 256 -> is_Some (b_cpus (sm_bus s) !! a) ->
  0 <= entryother_size -> 0x7000 + entryother_size <= V2P kend -> 0 <= mpenter < 2 ^ 32 ->
  startother a s = Ret tt (booted (s <| sm_k := kalloc_post (sm_k s) p |>) a p) /\
  kmem_inv (sm_k (booted (s <| sm_k := kalloc_post (sm_k s) p |>) a p)) l.
Proof.
  intros Hk Ha Hst H0 Hs Hm. assert (kpage p) as Hp by (pose proof (ki_pages _ _ Hk) as Hp; by apply Forall_cons in Hp as [Hp _]).
  pose proof (kpage_small p Hp) as Hr. split.
  - unfold startother. unfold bind at 1. rewrite (in_kernel_kalloc _ _ _ Hk). rewrite start_and_wait by done. done.
  - cbn [booted sm_k upd eta_smp]. pose proof (kalloc_post_inv _ _ _ Hk) as Hk'. apply kmem_inv_phys; [exact Hk'|].
    intros q b Hq Hb. apply words_mem_ne. pose proof (ki_pages _ _ Hk') as Hl. rewrite Forall_forall in Hl. destruct (Hl q Hq) as (_ & ? & _). lia.
Qed.

(** ** All of them *)

(** How the processor [a] starts when its stack is the page [p]. *)
Definition launch (img : list Z) (a p : Z) : Z * ap_start :=
  (a, {| ap_code := img; ap_cr3 := V2P entrypgdir; ap_esp := p + 4096; ap_eip := mpenter |}).

Section Boot.
Context (cpus : list Z) (me : nat) (a0 : Z).
Hypothesis cpus_nodup : NoDup cpus.
Hypothesis cpus_me : cpus !! me = Some a0.
Hypothesis lapic_id : forall k, Z.shiftr (lapic_read k ID) 24 = a0.
Hypothesis size_ok : 0 <= entryother_size.
Hypothesis size_fits : 0x7000 + entryother_size <= V2P kend.
Hypothesis mpenter_word : 0 <= mpenter < 2 ^ 32.

Lemma in_apic_mycpu s : sm_lapic s <> 0 -> in_apic (mycpu lapic_read false cpus) s = Ret me (s <| sm_reads ::= S |>).
Proof.
  intros H. unfold in_apic. rewrite (mycpu_spec _ _ me a0); [|done..|by rewrite lapic_id]. by destruct s as [[] ? ? ? ?].
Qed.

Definition others (cs : list (nat * Z)) : list Z := filter (fun a => a <> a0) cs.*2.

Lemma startothers_loop img cs : forall s l, sm_lapic s <> 0 -> kmem_inv (sm_k s) l -> (length (others cs) <= length l)%nat ->
  Forall (fun c => cpus !! c.1 = Some c.2 /\ 0 <= c.2 < 256 /\ is_Some (b_cpus (sm_bus s) !! c.2)) cs ->
  load_bytes (k_phys (sm_k s)) 0x7000 (Z.to_nat entryother_size) = img ->
  exists s', for_each cs (fun c => me <- in_apic (mycpu lapic_read false cpus) ;; if decide (c.1 = me) then ret tt else startother c.2) s = Ret tt s' /\
    kmem_inv (sm_k s') (drop (length (others cs)) l) /\ sm_started s' = sm_started s ++ zip_with (launch img) (others cs) l /\
    forall b, b_cpus (sm_bus s') !! b = if decide (b ∈ others cs) then Some (Running 0x7000) else b_cpus (sm_bus s) !! b.
Proof.
  induction cs as [|[i a] cs IH]; intros s l Hp Hk Hl Hcs Himg.
  - exists s. split_and!; [done|done|by rewrite app_nil_r|]. intros b. by rewrite decide_False by (apply not_elem_of_nil).
  - apply Forall_cons in Hcs as [(Hi & Ha & Hb) Hcs]. cbn [for_each]. unfold bind at 1. unfold bind at 1. rewrite in_apic_mycpu by done. cbn [fst snd] in *.
    unfold others in *. cbn [fmap list_fmap snd] in *. rewrite filter_cons in *. destruct (decide (i = me)) as [->|Hne].
    + assert (a = a0) as -> by congruence. rewrite decide_False in * by (intros H; by apply H). unfold ret.
      destruct (IH (s <| sm_reads ::= S |>) l) as (s' & E & H); [done|done|done|done|done|]. exists s'. split; [exact E|exact H].
    + assert (a <> a0) as Hna by (intros ->; apply Hne; by apply (NoDup_lookup cpus _ _ a0)). rewrite (decide_True (P := a <> a0)) in * by done.
      destruct l as [|p l]; [cbn in Hl; lia|]. destruct (startother_step (s <| sm_reads ::= S |>) a p l) as [E Hk']; [done..|]. rewrite E.
      set (s1 := booted _ a p) in *.
      destruct (IH s1 l) as (s' & E' & Hk2 & Hs & Hc); [done|done|cbn in Hl; lia| | |].
      * apply Forall_forall. rewrite Forall_forall in Hcs. intros c Hc. destruct (Hcs c Hc) as (? & ? & ?). split_and!; [done|lia|lia|].
        cbn. rewrite lookup_insert. by case_decide.
      * rewrite <- Himg. apply load_bytes_ext. intros b Hb'. cbn. rewrite words_mem_ne by lia. done.
      * exists s'. split_and!; [exact E'|exact Hk2| |].
        -- rewrite Hs. cbn. rewrite <- app_assoc. do 2 f_equal. unfold launch. by rewrite <- Himg.
        -- intros b. rewrite Hc. cbn [b_cpus sm_bus s1 booted]. rewrite lookup_insert.
           destruct (decide (b ∈ filter _ _)); destruct (decide (b ∈ a :: _)) as [H|H]; rewrite elem_of_cons in H; repeat case_decide; try done; naive_solver.
Qed.
End Boot.

(** C14. startothers starts every other processor.  With a free page for each of them: startothers returns, and in the
    order of the table each processor but the boot processor has been started once, running the entry code, with the boot
    page directory, on a stack of its own, the top of a page taken from the allocator, and going on in mpenter; the boot
    processor is left alone, and the allocator is well-formed with the pages that are left. *)
Theorem startothers_starts cpus me a0 s l : NoDup cpus -> cpus !! me = Some a0 -> (forall k, Z.shiftr (lapic_read k ID) 24 = a0) ->
  0 <= entryother_size -> 0x7000 + entryother_size <= V2P entryother_start -> V2P entryother_start + entryother_size <= V2P kend ->
  0 <= mpenter < 2 ^ 32 -> sm_lapic s <> 0 -> kmem_inv (sm_k s) l -> (length cpus <= S (length l))%nat ->
  Forall (fun a => 0 <= a < 256 /\ is_Some (b_cpus (sm_bus s) !! a)) cpus -> sm_started s = [] ->
  let img := load_bytes (k_phys (sm_k s)) (V2P entryother_start) (Z.to_nat entryother_size) in
  let os := filter (fun a => a <> a0) cpus in
  exists s', startothers cpus s = Ret tt s' /\ sm_started s' = zip_with (launch img) os l /\ kmem_inv (sm_k s') (drop (length os) l) /\
    forall b, b_cpus (sm_bus s') !! b = if decide (b ∈ os) then Some (Running 0x7000) else b_cpus (sm_bus s) !! b.
Proof.
  intros Hn Hme Hid H0 Hlo Hhi Hm Hp Hk Hl Hc Hs img os. unfold startothers, modify. unfold bind at 1. change (V2P code) with 0x7000.
  set (m := memmove (k_phys (sm_k s)) 0x7000 (V2P entryother_start) entryother_size). set (s1 := upd sm_k _ s).
  assert (k_phys (sm_k s1) = m) as Es1 by done.
  assert (forall a, load8 m a = if decide (0x7000 <= a < 0x7000 + entryother_size) then load8 (k_phys (sm_k s)) (V2P entryother_start + (a - 0x7000)) else load8 (k_phys (sm_k s)) a) as Em
    by (intros a; apply load8_memmove; lia).
  assert (others a0 (imap pair cpus) = os) as Eo by (unfold others, os; f_equal; rewrite fmap_imap; apply list_eq; intros i; rewrite list_lookup_imap; by destruct (cpus !! i)).
  destruct (startothers_loop cpus me a0 Hn Hme Hid H0 ltac:(lia) Hm img (imap pair cpus) s1 l) as (s' & E & Hk' & Hs' & Hb').
  - done.
  - apply (kmem_inv_phys _ _ m); [exact Hk|]. intros p a Hpl Ha. rewrite Em, decide_False; [done|].
    pose proof (ki_pages _ _ Hk) as Hl'. rewrite Forall_forall in Hl'. destruct (Hl' p Hpl) as (_ & ? & _). lia.
  - rewrite Eo. pose proof (length_filter_lt (fun a => a <> a0) cpus a0 ltac:(by eapply list_elem_of_lookup_2) ltac:(intros H; by apply H)). unfold os. lia.
  - apply Forall_forall. intros c Hc'. apply elem_of_lookup_imap in Hc' as (i & a & -> & Hi). cbn. split; [done|].
    rewrite Forall_forall in Hc. apply Hc. by eapply list_elem_of_lookup_2.
  - apply load_bytes_ext. intros i Hi. rewrite Es1, Em, decide_True by lia. f_equal. lia.
  - exists s'. rewrite Eo in *. split_and!; [exact E|by rewrite Hs'; cbn; rewrite Hs|done|done].
Qed.
End Main.

Module MainWitness.
#[local] Existing Instance boot_image.

(** Three processors, with the numbers 0, 2 and 5; the boot processor is number 2. *)
Definition machine : smp :=
  {| sm_k := KallocWitness.two_pages; sm_lapic := 0xFEE00000; sm_reads := 0; sm_bus := {| icr_dest := 0; b_cpus := <[0 := Waiting]> (<[2 := Running 0x80100000]> {[5 := Waiting]}) |};
     sm_started := [] |}.

Lemma startothers_starts_witness : exists s', startothers (fun _ _ => 0x02000000) 0x80101000 3 0x80102000 0x80103000 [0; 2; 5] machine = Ret tt s' /\
  sm_started s' = [(0, {| ap_code := [0; 0; 0]; ap_cr3 := 0x103000; ap_esp := 0x80201000; ap_eip := 0x80102000 |});
                   (5, {| ap_code := [0; 0; 0]; ap_cr3 := 0x103000; ap_esp := 0x80301000; ap_eip := 0x80102000 |})].
Proof.
  destruct (startothers_starts (fun _ _ => 0x02000000) 0x80101000 3 0x80102000 0x80103000 [0; 2; 5] 1 2 machine [0x80200000; 0x80300000])
    as (s' & E & Es & _); [apply (bool_decide_unpack _); by vm_compute|done|done|lia|by vm_compute|by vm_compute|lia|done|exact KallocWitness.two_pages_inv|cbn; lia|
      apply (bool_decide_unpack _); by vm_compute|done|].
  exists s'. split; [exact E|]. rewrite Es. by vm_compute.
Defined.
End MainWitness.
